(* ===== verification/_CoqProject ===== *)
-Q . S2P
Prelude.v
Paging.v
Mac.v
Json.v
JsonDecode.v
JsonRead.v
GoStrings.v
Models.v
Float64.v
Config.v
Delegation.v
VestingSchedule.v
Deadline.v
ModelFiles.v
TaskModels.v
TaskArguments.v
MaxStaking.v
Store.v
ModelWhitelist.v
Statistic.v
Ledger.v
LedgerCoherence.v
LedgerSync.v
Withdraw.v
Vesting.v
Qos.v
NodeState.v
NodeNames.v
NodeIndex.v
NodeModels.v
NodeInventory.v
WhitelistEnforcement.v
ChainEvents.v
ChainProcessor.v
TaskStatus.v
Payments.v
Assignment.v
Matching.v
MatchingRound.v
ValidateTask.v
Handlers.v
System.v
Balances.v
Emission.v
EmissionEstimate.v
TransactionManager.v
TransactionOnce.v
Calibration.v
CalibrationBounds.v
CalibrationCache.v
CalibrationFlush.v
ModelDistribution.v
DistributionChoice.v
NodeRequests.v
InventoryRuns.v
