(* ===== verification/Prelude.v ===== *)
(** * The Crynux relay, verified

    The relay (Go, under src/) matches inference tasks of applications with GPU
    nodes, keeps the money of both in accounts of its own, validates results by
    comparing redundant executions, and slashes nodes that cheat.  This library
    translates its core into executable definitions and proves what makes it
    correct.  Definitions carry the name of the Go function they translate and,
    in the comment above them, its file and lines.

    ** The program and its model

    The state of the relay is a database and a set of caches in memory.
    [Store.v] models both: [DB] is the record of the tables, [Caches] the record
    of the global maps, [World] the two together with a step counter.  A Go
    function that reads or writes them is a computation of the monad [M], which
    threads the world and returns a value or an error.  Database errors, commit
    errors, the clock, map iteration order and blockchain nodes are the class
    [Env]: [env_fault n] says whether the [n]-th access fails, so a theorem for
    all [Env] holds wherever the database fails.  [transaction] rolls the
    database back, and not the caches, exactly as gorm does.  [wp m Q w] says
    that [m] started in [w] ends with a result and a world in [Q]; [frames P m]
    that [m] relates its initial and final world by [P].

    - [Prelude.v]: record update, the result type, machine integers, times,
      decimal strings, tables as lists, the tactics.
    - [Models.v], [Config.v]: the structs of src/models and the options of
      src/config/app_config.go the modelled code uses.
    - [Delegation.v]: src/service/user_staking.go and delegator_share.go; the
      class [DelegationView] is what the income split relies on.
    - [VestingSchedule.v], [Vesting.v]: src/models/vesting.go,
      src/service/vesting.go and vesting_stake.go.
    - [Deadline.v]: the timeouts of src/service/start_task.go.
    - [Mac.v]: src/utils/mac.go, with SHA-256 and HMAC written out.
    - [MaxStaking.v]: the tracker of src/service/selecting_prob.go.
    - [Statistic.v]: src/service/statistic.go.
    - [Ledger.v], [LedgerCoherence.v], [LedgerSync.v]: src/service/relay_account.go:
      the operations that create events and move cached balances, the coherence
      of caches and tables, and the synchroniser that validates pending events
      and applies them.
    - [Withdraw.v]: src/service/withdraw.go.
    - [Qos.v]: src/service/qos.go.
    - [NodeState.v]: src/service/node.go, node_name_policy.go and the node
      handlers of src/api/v1/nodes.
    - [TaskStatus.v]: src/service/task_status.go, every status setter.
    - [ValidateTask.v]: src/service/validate_task.go.
    - [Handlers.v]: the task handlers of src/api/v1/inference_tasks and the
      timeout sweep of src/service/start_task.go.
    - [Assignment.v], [System.v], [Balances.v]: the composition.  A [request] of
      [System.v] is an API call, a chain event or a background pass; copies of
      tasks that were read earlier are kept and used arbitrarily late, which is
      how the interleaving of goroutines is modelled: each request is one step
      on a world that other requests may have changed since its copy was read.
    - [Paging.v]: cursors over an ordered table, shared by the sweeps.
    - [NodeNames.v], [NodeIndex.v]: src/service/node_name_policy.go,
      node_index.go and the requirement checks of node_model_state.go.
    - [Matching.v], [MatchingRound.v]: src/service/task_matching.go and
      selecting_prob.go, and what one round of matching guarantees.
    - [ChainEvents.v], [ChainProcessor.v]: src/service/blockchain_processor.go:
      the contract events and delegated slash jobs, and the scanning of blocks
      and logs with its cursor.
    - [Payments.v]: how the fee of a task and of a validation group is shared
      out (src/service/relay_account.go, task_status.go).
    - [Emission.v], [EmissionEstimate.v]: src/service/emission.go,
      emission_chart.go and emission_estimate.go.
    - [TransactionManager.v], [TransactionOnce.v]: src/blockchain/transaction_sender.go,
      transaction_confirmer.go, the nonces of client.go and
      src/models/blockchain_transaction.go, with the goroutines interleaved.
    - [Float64.v]: the functions of Go's math package the calibration uses, on
      IEEE 754 binary64 values, with exact values and bounds.
    - [GoStrings.v], [Json.v], [JsonDecode.v]: the parts of Go's packages strings
      and encoding/json the relay uses, and the canonical encoding of
      src/models/model_file.go.
    - [ModelFiles.v], [TaskModels.v]: sets of file hashes in columns, the identity
      of model files and the requirements of a task (src/models/model_file.go,
      model_file_task.go, model_id.go).
    - [ModelWhitelist.v], [WhitelistEnforcement.v]: src/service/model_whitelist.go:
      names, wildcards and the sets in memory; what they decide and how forbidden
      files leave the nodes.
    - [NodeModels.v], [NodeInventory.v]: src/service/node_model_state.go and the
      tables of files, loaded models and downloads; the shape of these tables and
      the effect of a report.
    - [ModelDistribution.v], [DistributionChoice.v]: src/service/model_distribution.go,
      required_model_downloads.go and select_nodes.go; who is asked to download.
    - [NodeRequests.v]: joining (src/service/node.go, src/api/v2/nodes/join.go) and
      the reports of src/service/node_capabilities.go and src/api/v1/nodes.
    - [InventoryRuns.v]: the composition of all that touches the inventory.
    - [Calibration.v]: src/service/task_execution_calibration.go and
      weighted_least_squares.go: samples, fits, candidates, cached means, prices
      and timeouts, snapshots and flushes; [CalibrationBounds.v],
      [CalibrationCache.v] and [CalibrationFlush.v] prove what a run of them
      guarantees.

    ** What the theorems show

    - Assignment: nodes and running tasks are matched one to one and the status
      of a task only moves along its life cycle, for every sequence of requests
      and faults ([assignment_invariant], [task_lifecycle]).
    - Money: cached balances are stored balances plus pending events
      ([balances_coherent], [sync_coherent]); the synchroniser never overdraws and
      applies each event once ([sync_sound]); withdrawals are settled once
      ([withdraws_settled_once], [Withdraw_effect]); vestings are paid once and on
      schedule ([vestings_paid_once], [processSingleVestingRelease_effect] and the
      theorems on [ComputeVestingShouldReleased]).
    - Validation: who is slashed and who is validated
      ([slashed_against_majority], [group_validates_one]), and two defects
      ([error_group_never_validates], [error_group_inflates_cache],
      [slashed_despite_agreement]).
    - Refinements: the delegation cache implements a map of pairs, the QoS window
      the latest scores, the maximum tracker the maximum of the stakes.
    - Termination: the loops that drain pending events and due vestings and the
      paging sweep end and visit everything.
    - Matching: a round gives nodes and tasks at most once and only to fitting
      tasks, passes no task over ([matching_round_sound], [matching_maximal]),
      shares candidate sets soundly ([requirementSignature_sound]) and works on an
      index that mirrors the node table ([index_reflects_nodes]).
    - Chain: deposits up to the cursor are booked exactly once
      ([deposits_recorded]), the delegation caches mirror their table
      ([delegations_mirror]), slash jobs have one batch under way
      ([slash_batch_effect]), and two defects of repeated scans
      ([slash_replay_stuck], [deposit_missing_from_cache]).
    - Money: the income of a task is shared out exactly
      ([task_income_conserved]); a group is paid slightly more than its fee
      ([group_payment_total]).
    - Emission: the schedule and the circulating supply ([emission_supply]), the
      charts ([emission_series_exact]) and the estimates
      ([emission_estimates_within_pool]).
    - Transactions: limits and retries for every interleaving
      ([transactions_invariant]), one broadcast per transaction when polls do not
      overlap ([transactions_sent_once]), two when they do
      ([stale_copy_sent_twice]).
    - Calibration: timeouts are defined, bounded and follow the slowest ready
      calibration ([execution_timeout_bounds]), prices the current mean
      ([prices_follow_calibrations]), and a flush loses no sample
      ([calibrations_durable]); a demand of zero resets the interval of a record
      ([vram_interval_forgets]).
    - Model files: columns of hash sets are canonical ([hash_list_roundtrip]) and
      so is the JSON encoding, which the decoder inverts ([json_roundtrip]).
    - Inventory: its tables keep their shape and forbidden files stay out, for
      every sequence of requests and faults ([inventory_typed],
      [whitelist_enforced]); the whitelist decides as its table says
      ([whitelist_decides]), a report replaces the files of its node only
      ([replaceNodeModelFiles_effect]).
    - Distribution: requests go to distinct nodes that can use the files, fairly
      and up to the target ([download_targets_fair], [demand_served]); groups ignore
      the platform ([demands_ignore_platform]).
    - Names: a version report leaves the counter of the old name behind, so the
      node can neither pause nor quit ([version_update_strands]).

    ** Bounds and fuel

    Loops over a finite list are structural.  The loops that fetch batches take
    fuel and return [Ok false] when it runs out; [drain_terminates] and
    [ProcessDueVestingReleases_terminates] prove that one unit more than the
    number of pending events, or of records, is enough.  The retry loops run the
    three times of the source.  [uint64], [int64] and [time.Duration] values are
    [Z] with [wrap_u64], [wrap_i64] and [sat_i64] where the source can leave the
    range; amounts are [big.Int], unbounded, in the source too.

    ** What is a parameter

    [Env] holds what is not in the repository: public-key recovery, Keccak, the
    VRF, exponentiation, JSON-RPC results.  It also holds the results of parts of
    the relay that only feed a value into the state machine of tasks: the
    admission check and priority of a task, the execution plan from the model
    inventory and the calibration (whose state is separate and modelled in
    [Calibration.v]), the text of slash evidence, and the refresh of the node list
    snapshot.  [CalibrationEnv] holds the configuration, the order in which Go
    visits a map and gonum's solver of a linear system, of which only the length
    of its answer is used.

    ** What is not modelled

    Contract bindings (generated), migrations (SQL), metrics, logs and traces,
    read-only endpoints, and HTTP parsing with request
    signatures. *)

From stdpp Require Export base gmap strings list fin_maps.
From Stdlib Require Export ZArith Lia.
From Stdlib Require Import Ascii DecimalString DecimalN Decimal.

#[export] Set Default Goal Selector "!".
Open Scope Z_scope.

Declare Scope go_scope.
Delimit Scope go_scope with go.
Open Scope go_scope.

(** ** Record update

    Go assigns struct fields one by one.  [Eta R] holds the eta expansion of a
    record, and [r <| f := v |>] is the record with one field replaced; the
    setter is built from the eta expansion by [find_setter]. *)

Class Eta (R : Type) := eta : R → R.
Class Setter {R T : Type} (proj : R → T) := set_field : (T → T) → R → R.
Arguments set_field {R T} proj {_} / _ _.

Ltac find_setter :=
  match goal with
  | |- @Setter ?R ?T ?proj =>
      let inst := constr:(_ : Eta R) in
      let e := eval hnf in inst in
      match eval pattern proj in e with
      | ?F _ =>
          let t := eval cbv beta in
            (fun (g : T → T) (r : R) => F (fun s => g (proj s)) r) in
          exact t
      end
  end.

#[export] Hint Extern 0 (Setter _) => find_setter : typeclass_instances.

Notation "r '<|' proj ':=' v '|>'" := (set_field proj (λ _, v) r)
  (at level 1, left associativity) : go_scope.

(** ** Errors

    A Go function that returns [(T, error)] becomes a function to [result T].
    The named error variables of the source are constructors, so that
    [errors.Is] is equality; errors built in place ([errors.New] in a function
    body) are [ErrMsg].  [ErrDatabase] is any failure of a database access and
    [ErrPanic] a Go run-time panic. *)

Inductive error :=
| ErrDatabase
| ErrRecordNotFound
| ErrDuplicatedKey
| ErrPanic (what : string)
| ErrMsg (what : string)
| ErrTaskIDEmpty
| ErrTaskStatusChanged
| ErrNodeStatusChanged
| ErrInsufficientRelayAccount
| ErrWithdrawRequestNotPending
| ErrWithdrawRequestNotProcessedLocally
| ErrWithdrawDailyLimitExceeded
| ErrVestingRecordNotFound
| ErrVestingReleaseRangeInvalid
| ErrVestingReleaseExceedsSchedule
| ErrInvalidVestingAddress
| ErrInvalidVestingAmount
| ErrInvalidVestingDuration
| ErrInvalidVestingSignature
| ErrInvalidVestingSigner
| ErrInvalidVestingType
| ErrInvalidVestingDelegationDetail
| ErrVestingSignerAddressNotSet
| ErrMainnetStartTimeNotSet
| ErrInvalidMainnetStart
| ErrNoCompletedEmissionWeek
| ErrEmissionWeekOutOfRange
| ErrInvalidChartWeeks
| ErrQueueTimeoutNotAllowed
| ErrQueueTimeoutZero
| ErrQueueTimeoutTooLarge
| errWrongTaskStatus
| ErrWrongNodeCurrentTask
| ErrNodeHealthExcluded
| ErrDelegatedSlashJobInProgress
| ErrPendingSlashAlreadyProcessed
| ErrNodeNameCountEntryMissing
| ErrNodeNameCountAlreadyZero
| ErrValidationAlreadyApplied
| ErrInconsistentExecutionModelFiles
| ErrInvalidNodeNameGPUName
| ErrInvalidNodeNameVersion
| ErrNodeNameWhitelistExists
| ErrNodeNameWhitelistMissing
| ErrModelNotWhitelisted
| ErrInvalidModelWhitelistName
| ErrModelWhitelistNameExists
| ErrModelWhitelistNameMissing
| ErrModelWhitelistNotInitialized
| ErrInvalidModelFile
| ErrNodeModelStateIllegal
| errModelFileNotHeldForTask.

#[export] Instance error_eq_dec : EqDecision error.
Proof. solve_decision. Defined.

Inductive result (A : Type) :=
| Ok (a : A)
| Err (e : error).
Arguments Ok {A} a.
Arguments Err {A} e.

Definition is_ok {A} (r : result A) : bool :=
  match r with Ok _ => true | Err _ => false end.

(** ** Machine integers

    [uint64], [int64] and [uint8] values are [Z] in range; arithmetic that can
    leave the range wraps as in Go. *)

Definition max_u64 : Z := 2 ^ 64 - 1.
Definition max_i64 : Z := 2 ^ 63 - 1.
Definition min_i64 : Z := - 2 ^ 63.

Definition wrap_u64 (z : Z) : Z := z mod 2 ^ 64.
Definition wrap_i64 (z : Z) : Z := (z + 2 ^ 63) mod 2 ^ 64 - 2 ^ 63.

(** [time.Duration] differences saturate instead of wrapping. *)
Definition sat_i64 (z : Z) : Z := Z.max min_i64 (Z.min max_i64 z).

Lemma wrap_u64_small z : 0 ≤ z ≤ max_u64 → wrap_u64 z = z.
Proof. unfold wrap_u64, max_u64. intros. apply Z.mod_small. lia. Qed.

Lemma wrap_u64_range z : 0 ≤ wrap_u64 z ≤ max_u64.
Proof.
  unfold wrap_u64, max_u64. pose proof (Z.mod_pos_bound z (2 ^ 64)). lia.
Qed.

Lemma wrap_i64_small z : min_i64 ≤ z ≤ max_i64 → wrap_i64 z = z.
Proof.
  unfold wrap_i64, min_i64, max_i64. intros. rewrite Z.mod_small; lia.
Qed.

Lemma wrap_i64_range z : min_i64 ≤ wrap_i64 z ≤ max_i64.
Proof.
  unfold wrap_i64, min_i64, max_i64.
  pose proof (Z.mod_pos_bound (z + 2 ^ 63) (2 ^ 64)). lia.
Qed.

Lemma sat_i64_small z : min_i64 ≤ z ≤ max_i64 → sat_i64 z = z.
Proof. unfold sat_i64. lia. Qed.

Lemma sat_i64_mono x y : x ≤ y → sat_i64 x ≤ sat_i64 y.
Proof. unfold sat_i64. lia. Qed.

Lemma sat_i64_nonneg x : 0 ≤ x → 0 ≤ sat_i64 x.
Proof. unfold sat_i64, min_i64, max_i64. lia. Qed.

(** ** Time

    [time.Time] is the number of nanoseconds since the Unix epoch (UTC),
    [time.Duration] a 64-bit number of nanoseconds. *)

Abbreviation Time := Z (only parsing).
Abbreviation Duration := Z (only parsing).

Definition nanosecond : Duration := 1.
Definition second : Duration := 10 ^ 9.
Definition minute : Duration := 60 * second.
Definition hour : Duration := 60 * minute.
Definition day : Duration := 24 * hour.

(** [t.Sub(u)], [t.Add(d)] and [t.UTC().Truncate(24*time.Hour)], the last also
    [time.Date(t.Year(), t.Month(), t.Day(), 0, 0, 0, 0, time.UTC)]. *)
Definition time_sub (t u : Time) : Duration := sat_i64 (t - u).
Definition time_add (t : Time) (d : Duration) : Time := t + d.
Definition utc_day (t : Time) : Time := t / day * day.
Definition time_unix (s : Z) : Time := s * second.

Lemma day_pos : 0 < day.
Proof. reflexivity. Qed.

Lemma utc_day_mono t u : t ≤ u → utc_day t ≤ utc_day u.
Proof.
  intros. unfold utc_day. apply Z.mul_le_mono_nonneg_r; [apply Z.lt_le_incl, day_pos|].
  by apply Z.div_le_mono; [apply day_pos|].
Qed.

Lemma utc_day_bounds t : utc_day t ≤ t < utc_day t + day.
Proof.
  unfold utc_day. pose proof day_pos.
  pose proof (Z.mod_pos_bound t day). pose proof (Z.div_mod t day). lia.
Qed.

(** ** Strings

    Decimal printing ([%d], [big.Int.String]) and parsing ([strconv.ParseUint]
    in base 10 with 64 bits, [big.Int.SetString] in base 10), [strings.SplitN]
    with a one-byte separator, and [strings.EqualFold] on ASCII text (the
    addresses it is used on are hexadecimal). *)

Definition format_N (n : N) : string := NilZero.string_of_uint (N.to_uint n).

Definition format_Z (z : Z) : string :=
  if z <? 0 then String "-" (format_N (Z.to_N (- z))) else format_N (Z.to_N z).

Definition parse_digits (s : string) : option N :=
  N.of_uint <$> NilZero.uint_of_string s.

Definition ParseUint (s : string) : option Z :=
  match parse_digits s with
  | Some n => if Z.of_N n <=? max_u64 then Some (Z.of_N n) else None
  | None => None
  end.

Definition SetString (s : string) : option Z :=
  match s with
  | String c r =>
      if Ascii.eqb c "-" then (λ n, - Z.of_N n) <$> parse_digits r
      else if Ascii.eqb c "+" then Z.of_N <$> parse_digits r
      else Z.of_N <$> parse_digits s
  | EmptyString => None
  end.

(** The separator of ledger reasons. *)
Definition dash : ascii := "-"%char.

(** [cut c s] splits [s] at its first [c]. *)
Fixpoint cut (c : ascii) (s : string) : option (string * string) :=
  match s with
  | EmptyString => None
  | String a r =>
      if Ascii.eqb a c then Some (EmptyString, r)
      else match cut c r with
           | Some (x, y) => Some (String a x, y)
           | None => None
           end
  end.

Fixpoint SplitN (c : ascii) (s : string) (n : nat) : list string :=
  match n with
  | O => []
  | S O => [s]
  | S m =>
      match cut c s with
      | None => [s]
      | Some (x, y) => x :: SplitN c y m
      end
  end.

Definition lower_ascii (a : ascii) : ascii :=
  let n := N_of_ascii a in
  if ((65 <=? n) && (n <=? 90))%N then ascii_of_N (n + 32) else a.

Fixpoint ToLower (s : string) : string :=
  match s with
  | EmptyString => EmptyString
  | String a r => String (lower_ascii a) (ToLower r)
  end.

Definition EqualFold (s t : string) : bool := String.eqb (ToLower s) (ToLower t).

(** The characters of a string, as a predicate: used to show that printed
    numbers contain no separator. *)
Fixpoint avoids (c : ascii) (s : string) : bool :=
  match s with
  | EmptyString => true
  | String a r => negb (Ascii.eqb a c) && avoids c r
  end.

Definition is_digit (c : ascii) : bool :=
  (48 <=? N_of_ascii c)%N && (N_of_ascii c <=? 57)%N.

Lemma EqualFold_refl s : EqualFold s s = true.
Proof. apply String.eqb_refl. Qed.

Lemma to_uint_not_Nil n : N.to_uint n ≠ Nil.
Proof.
  intros H. assert (Hn : n = 0%N).
  { rewrite <- (Unsigned.of_to n), H. reflexivity. }
  subst n. discriminate.
Qed.

Lemma parse_digits_format n : parse_digits (format_N n) = Some n.
Proof.
  unfold parse_digits, format_N. rewrite NilZero.usu by apply to_uint_not_Nil.
  simpl. by rewrite Unsigned.of_to.
Qed.

Lemma ParseUint_format z : 0 ≤ z ≤ max_u64 → ParseUint (format_Z z) = Some z.
Proof.
  intros Hz. unfold ParseUint, format_Z.
  destruct (Z.ltb_spec z 0); [lia|]. rewrite parse_digits_format, Z2N.id by lia.
  destruct (Z.leb_spec z max_u64); [done|lia].
Qed.

Lemma string_of_uint_digits c d :
  is_digit c = false → avoids c (NilEmpty.string_of_uint d) = true.
Proof.
  intros Hc. induction d; cbn [avoids NilEmpty.string_of_uint]; try done.
  all: rewrite IHd, andb_true_r, negb_true_iff; apply Ascii.eqb_neq; by intros <-.
Qed.

Lemma format_N_avoids c n :
  is_digit c = false → avoids c (format_N n) = true.
Proof.
  intros Hc. unfold format_N.
  pose proof (to_uint_not_Nil n). destruct (N.to_uint n) eqn:E; [done|..].
  all: rewrite <- E; unfold NilZero.string_of_uint; rewrite E;
    by apply string_of_uint_digits.
Qed.

Lemma format_Z_avoids_dash z : 0 ≤ z → avoids dash (format_Z z) = true.
Proof.
  intros Hz. unfold format_Z. destruct (Z.ltb_spec z 0); [lia|].
  by apply format_N_avoids.
Qed.

Lemma SetString_format z : SetString (format_Z z) = Some z.
Proof.
  unfold format_Z. destruct (Z.ltb_spec z 0).
  - cbn [SetString]. rewrite Ascii.eqb_refl, parse_digits_format. simpl.
    f_equal. lia.
  - pose proof (parse_digits_format (Z.to_N z)) as Hp.
    assert (Hd : avoids "-" (format_N (Z.to_N z)) = true) by by apply format_N_avoids.
    assert (Hq : avoids "+" (format_N (Z.to_N z)) = true) by by apply format_N_avoids.
    destruct (format_N (Z.to_N z)) as [|c r]; [discriminate|].
    simpl in Hd, Hq. apply andb_true_iff in Hd as [Hd _], Hq as [Hq _].
    apply negb_true_iff in Hd, Hq. unfold SetString. rewrite Hd, Hq, Hp.
    simpl. f_equal. lia.
Qed.

Lemma avoids_app c s r : avoids c (s +:+ r) = avoids c s && avoids c r.
Proof. induction s as [|a s IH]; simpl; [done|]. rewrite IH. by rewrite andb_assoc. Qed.

Lemma parse_digits_avoids c s n : is_digit c = false → parse_digits s = Some n → avoids c s = true.
Proof.
  intros Hc. assert (Hgo : ∀ s d, NilEmpty.uint_of_string s = Some d → avoids c s = true).
  { clear s n. induction s as [|a s IH]; intros d Hd; [done|]. simpl in Hd.
    destruct (NilEmpty.uint_of_string s) as [d'|]; [|by destruct a as [[] [] [] [] [] [] [] []]].
    cbn [avoids]. rewrite (IH d' eq_refl), andb_true_r. apply negb_true_iff, Ascii.eqb_neq. intros ->.
    destruct c as [[] [] [] [] [] [] [] []]; done. }
  unfold parse_digits, NilZero.uint_of_string. destruct s as [|a s]; [done|].
  destruct (NilEmpty.uint_of_string (String a s)) eqn:Hd; [|done]. intros _. by eapply Hgo.
Qed.

Lemma ParseUint_avoids c s z : is_digit c = false → ParseUint s = Some z → avoids c s = true.
Proof.
  unfold ParseUint. intros Hc. destruct (parse_digits s) eqn:Hp; [|done]. intros _. by eapply parse_digits_avoids.
Qed.

Lemma cut_Some c s x y : cut c s = Some (x, y) → s = x +:+ String c y.
Proof.
  revert x. induction s as [|a s IH]; simpl; intros x; [done|].
  destruct (Ascii.eqb_spec a c) as [->|]; [by intros [= <- <-]|].
  destruct (cut c s) as [[x' y']|]; [|done]. intros [= <- <-]. by rewrite (IH x' eq_refl).
Qed.

Lemma format_Z_inj x y : format_Z x = format_Z y → x = y.
Proof. intros H. pose proof (SetString_format x) as Hx. rewrite H, SetString_format in Hx. by simplify_eq. Qed.

Lemma cut_avoids c s r :
  avoids c s = true → cut c (s +:+ String c r) = Some (s, r).
Proof.
  induction s as [|a s IH]; simpl; intros Ha.
  - by rewrite Ascii.eqb_refl.
  - apply andb_true_iff in Ha as [Ha Hs]. apply negb_true_iff in Ha.
    by rewrite Ha, IH.
Qed.

Lemma SplitN_cons c s r n :
  avoids c s = true →
  SplitN c (s +:+ String c r) (S (S n)) = s :: SplitN c r (S n).
Proof. intros Ha. cbn [SplitN]. by rewrite cut_avoids. Qed.

Lemma SplitN_dash s r n :
  avoids dash s = true →
  SplitN dash (s +:+ "-" +:+ r) (S (S n)) = s :: SplitN dash r (S n).
Proof. apply (SplitN_cons dash). Qed.

Lemma SplitN_last c s : SplitN c s 1 = [s].
Proof. done. Qed.

(** ** Sums *)

Definition sumZ {A : Type} (f : A → Z) (l : list A) : Z :=
  foldr (λ x acc, f x + acc) 0 l.

Section sums.
Context {A : Type}.
Implicit Types (f g : A → Z) (l : list A).

Lemma sumZ_cons f x l : sumZ f (x :: l) = f x + sumZ f l.
Proof. done. Qed.

Lemma sumZ_app f l1 l2 : sumZ f (l1 ++ l2) = sumZ f l1 + sumZ f l2.
Proof. induction l1 as [|x l1 IH]; simpl; [done|]. rewrite IH. lia. Qed.

Lemma sumZ_ext f g l : (∀ x, x ∈ l → f x = g x) → sumZ f l = sumZ g l.
Proof.
  induction l as [|x l IH]; intros H; simpl; [done|].
  rewrite H, IH; [done| |]; set_solver.
Qed.

Lemma sumZ_plus f g l : sumZ (λ x, f x + g x) l = sumZ f l + sumZ g l.
Proof. induction l as [|x l IH]; simpl; [done|]. rewrite IH. lia. Qed.

Lemma sumZ_mul f c l : sumZ (λ x, c * f x) l = c * sumZ f l.
Proof. induction l as [|x l IH]; simpl; [lia|]. rewrite IH. lia. Qed.

Lemma sumZ_zero f l : (∀ x, x ∈ l → f x = 0) → sumZ f l = 0.
Proof.
  intros H. induction l as [|x l IH]; simpl; [done|].
  rewrite H, IH; [done| |]; set_solver.
Qed.

Lemma sumZ_le f g l : (∀ x, x ∈ l → f x ≤ g x) → sumZ f l ≤ sumZ g l.
Proof.
  induction l as [|x l IH]; intros H; simpl; [done|].
  apply Z.add_le_mono; [apply H|apply IH; intros; apply H]; set_solver.
Qed.

Lemma sumZ_nonneg f l : (∀ x, x ∈ l → 0 ≤ f x) → 0 ≤ sumZ f l.
Proof. intros H. rewrite <- (sumZ_zero (λ _, 0) l) by done. by apply sumZ_le. Qed.

Lemma sumZ_map {B} (h : B → A) f (k : list B) : sumZ f (map h k) = sumZ (λ x, f (h x)) k.
Proof. induction k as [|x k IH]; simpl; [done|]. by rewrite IH. Qed.

Lemma sumZ_elem_le f l x : (∀ y, y ∈ l → 0 ≤ f y) → x ∈ l → f x ≤ sumZ f l.
Proof.
  induction l as [|y l IH]; intros Hnn Hx; [set_solver|]. simpl.
  assert (0 ≤ sumZ f l) by (apply sumZ_nonneg; set_solver).
  apply elem_of_cons in Hx as [->|Hx]; [lia|].
  assert (0 ≤ f y) by (apply Hnn; set_solver).
  assert (f x ≤ sumZ f l) by (apply IH; set_solver). lia.
Qed.

#[global] Instance sumZ_Permutation f : Proper (Permutation ==> eq) (sumZ f).
Proof. induction 1; simpl; lia. Qed.
End sums.

(** [map_sum m] adds up the values of a map, for instance all the delegations
    of one node. *)
Definition map_sum {K : Type} `{Countable K} (m : gmap K Z) : Z :=
  map_fold (λ _ v acc, v + acc) 0 m.

Section map_sums.
Context {K : Type} `{Countable K}.
Implicit Types (m : gmap K Z).

Lemma map_sum_empty : map_sum (∅ : gmap K Z) = 0.
Proof. apply map_fold_empty. Qed.

Lemma map_sum_insert_None m k v :
  m !! k = None → map_sum (<[k:=v]> m) = v + map_sum m.
Proof. intros Hk. unfold map_sum. rewrite map_fold_insert_L; [done| |done]. intros. lia. Qed.

Lemma map_sum_delete m k v :
  m !! k = Some v → map_sum (delete k m) = map_sum m - v.
Proof.
  intros Hk. rewrite <- (insert_delete_id m k v Hk) at 2.
  rewrite map_sum_insert_None by apply lookup_delete_eq. lia.
Qed.

Lemma map_sum_insert m k v :
  map_sum (<[k:=v]> m) = map_sum m - default 0 (m !! k) + v.
Proof.
  destruct (m !! k) as [w|] eqn:Hk; simpl.
  - rewrite <- insert_delete_eq, map_sum_insert_None by apply lookup_delete_eq.
    rewrite (map_sum_delete m k w) by done. lia.
  - rewrite map_sum_insert_None by done. lia.
Qed.

Lemma map_sum_list m : map_sum m = sumZ snd (map_to_list m).
Proof.
  induction m as [|k v m Hk IH] using map_ind.
  - rewrite map_to_list_empty. apply map_sum_empty.
  - rewrite map_sum_insert_None, map_to_list_insert by done. simpl. by rewrite IH.
Qed.

Lemma map_sum_nonneg m : map_Forall (λ _ v, 0 ≤ v) m → 0 ≤ map_sum m.
Proof.
  intros Hm. rewrite map_sum_list. apply sumZ_nonneg. intros [k v] Hk.
  apply elem_of_map_to_list in Hk. by apply (Hm k v).
Qed.
End map_sums.

(** ** Database tables

    A table is the list of its rows in primary-key order.  [First], [Find],
    [Count] and [Updates] with a [Where] clause are the following. *)

Definition find_first {A} (p : A → bool) (t : list A) : option A := List.find p t.
Definition select_where {A} (p : A → bool) (t : list A) : list A := List.filter p t.
Definition count_where {A} (p : A → bool) (t : list A) : Z :=
  Z.of_nat (length (List.filter p t)).
Definition update_where {A} (p : A → bool) (f : A → A) (t : list A) : list A :=
  map (λ r, if p r then f r else r) t.
Definition exists_where {A} (p : A → bool) (t : list A) : bool := existsb p t.

Section tables.
Context {A : Type}.
Implicit Types (p q : A → bool) (f : A → A) (t : list A).

Lemma find_first_Some p t r : find_first p t = Some r → r ∈ t ∧ p r = true.
Proof. intros H. apply List.find_some in H as [? ?]. by rewrite list_elem_of_In. Qed.

Lemma find_first_None p t r : find_first p t = None → r ∈ t → p r = false.
Proof. intros H Hr. apply (List.find_none _ _ H). by apply list_elem_of_In. Qed.

Lemma elem_of_select p t r : r ∈ select_where p t ↔ r ∈ t ∧ p r = true.
Proof. unfold select_where. by rewrite !list_elem_of_In, List.filter_In. Qed.

Lemma elem_of_update p f t r :
  r ∈ update_where p f t ↔ ∃ r0, r0 ∈ t ∧ r = if p r0 then f r0 else r0.
Proof.
  unfold update_where. rewrite list_elem_of_In, List.in_map_iff.
  setoid_rewrite list_elem_of_In. naive_solver.
Qed.

Lemma exists_where_true p t : exists_where p t = true ↔ ∃ r, r ∈ t ∧ p r = true.
Proof.
  unfold exists_where. induction t as [|r t IH]; simpl; [set_solver|].
  rewrite orb_true_iff, IH. set_solver.
Qed.

Lemma exists_where_false p t : exists_where p t = false ↔ ∀ r, r ∈ t → p r = false.
Proof.
  unfold exists_where. induction t as [|r t IH]; simpl; [set_solver|].
  rewrite orb_false_iff, IH. split; [intros [? ?] r' Hr'|intros H].
  - apply elem_of_cons in Hr' as [->|?]; auto.
  - split; [apply H|intros; apply H]; set_solver.
Qed.

Lemma sumZ_update_where (g : A → Z) p f t :
  sumZ g (update_where p f t) = sumZ (λ r, if p r then g (f r) else g r) t.
Proof.
  unfold update_where. rewrite sumZ_map. apply sumZ_ext. intros r _. by destruct (p r).
Qed.

Lemma sumZ_update_same (g : A → Z) p f t :
  (∀ r, r ∈ t → p r = true → g (f r) = g r) → sumZ g (update_where p f t) = sumZ g t.
Proof.
  intros H. rewrite sumZ_update_where. apply sumZ_ext. intros r Hr.
  destruct (p r) eqn:E; [by apply H|done].
Qed.

Lemma length_update_where p f t : length (update_where p f t) = length t.
Proof. apply length_map. Qed.

Lemma map_update_same {B} (g : A → B) p f t :
  (∀ r, p r = true → g (f r) = g r) → map g (update_where p f t) = map g t.
Proof.
  intros H. unfold update_where. rewrite map_map. apply map_ext. intros r.
  destruct (p r) eqn:E; [by apply H|done].
Qed.

Lemma update_where_none p f t : (∀ r, r ∈ t → p r = false) → update_where p f t = t.
Proof.
  intros H. induction t as [|r t IH]; [done|].
  change (update_where p f (r :: t)) with ((if p r then f r else r) :: update_where p f t).
  rewrite H, IH; [done| |]; set_solver.
Qed.
End tables.

Lemma elem_of_map_iff {A B} (f : A → B) (l : list A) y :
  y ∈ map f l ↔ ∃ x, x ∈ l ∧ y = f x.
Proof. rewrite list_elem_of_In, List.in_map_iff. setoid_rewrite list_elem_of_In. naive_solver. Qed.

Lemma elem_of_map_2 {A B} (f : A → B) (l : list A) x : x ∈ l → f x ∈ map f l.
Proof. rewrite elem_of_map_iff. eauto. Qed.

(** The first row with [q] after the rows with [p] were changed. *)
Lemma find_update_other {A} (p q : A → bool) f t :
  (∀ r, p r = true → q r = false ∧ q (f r) = false) → find_first q (update_where p f t) = find_first q t.
Proof.
  intros H. unfold find_first, update_where. induction t as [|r t IH]; simpl; [done|].
  destruct (p r) eqn:Hp; [|by rewrite IH]. destruct (H r Hp) as [-> ->]. exact IH.
Qed.

Lemma find_update_none {A} (p q : A → bool) f t :
  (∀ r, p r = true → q (f r) = false) → (∀ r, q r = true → p r = true) → find_first q (update_where p f t) = None.
Proof.
  intros Hf Hq. unfold find_first, update_where. induction t as [|r t IH]; simpl; [done|].
  destruct (p r) eqn:Hp; [by rewrite (Hf r Hp)|]. destruct (q r) eqn:Hr; [|exact IH]. by rewrite (Hq r Hr) in Hp.
Qed.

Lemma find_update_some {A} (p q : A → bool) f t :
  (∀ r, p r = true → q (f r) = true) → (∀ r, q r = true → p r = true) → exists_where p t = true →
  ∃ r, find_first q (update_where p f t) = Some (f r).
Proof.
  intros Hf Hq. unfold find_first, update_where, exists_where. induction t as [|r t IH]; simpl; [done|].
  destruct (p r) eqn:Hp; simpl; [rewrite (Hf r Hp); eauto|]. intros Ht. destruct (q r) eqn:Hr; [|by apply IH].
  by rewrite (Hq r Hr) in Hp.
Qed.

Lemma find_update_found {A} (p : A → bool) f t :
  (∀ r, p (f r) = p r) → find_first p (update_where p f t) = option_map f (find_first p t).
Proof.
  intros H. unfold find_first, update_where. induction t as [|r t IH]; simpl; [done|].
  destruct (p r) eqn:Hp; [by rewrite H, Hp|]. rewrite Hp. exact IH.
Qed.

Lemma find_app {A} (q : A → bool) t t' :
  find_first q (t ++ t') = match find_first q t with Some r => Some r | None => find_first q t' end.
Proof. unfold find_first. induction t as [|r t IH]; simpl; [done|]. by destruct (q r). Qed.

Lemma find_select_other {A} (p q : A → bool) t :
  (∀ r, q r = true → p r = true) → find_first q (select_where p t) = find_first q t.
Proof.
  intros H. unfold find_first, select_where. induction t as [|r t IH]; simpl; [done|].
  destruct (p r) eqn:Hp; simpl; [by rewrite IH|]. destruct (q r) eqn:Hr; [|done]. by rewrite (H r Hr) in Hp.
Qed.

Lemma find_none {A} (q : A → bool) t : (∀ r, r ∈ t → q r = false) → find_first q t = None.
Proof.
  intros H. unfold find_first. induction t as [|r t IH]; simpl; [done|]. rewrite (H r) by set_solver. apply IH. set_solver.
Qed.

Lemma NoDup_map_select {A B} (f : A → B) (p : A → bool) t : NoDup (map f t) → NoDup (map f (select_where p t)).
Proof.
  unfold select_where. induction t as [|r t IH]; simpl; [done|]. intros [Hn Hd]%NoDup_cons.
  destruct (p r); [|by apply IH]. apply NoDup_cons. split; [|by apply IH].
  intros (u & Hu & He)%elem_of_map_iff. apply Hn. rewrite He. apply elem_of_map_2.
  apply list_elem_of_In, List.filter_In in Hu as [? _]. by apply list_elem_of_In.
Qed.

Lemma NoDup_map_inj {A B} (f : A → B) (l : list A) x y :
  NoDup (map f l) → x ∈ l → y ∈ l → f x = f y → x = y.
Proof.
  induction l as [|z l IH]; [set_solver|]. simpl. intros [Hz Hnd]%NoDup_cons Hx Hy Hf.
  apply elem_of_cons in Hx as [->|Hx], Hy as [->|Hy]; [done| | |by apply IH].
  - destruct Hz. rewrite Hf. by apply elem_of_map_2.
  - destruct Hz. rewrite <- Hf. by apply elem_of_map_2.
Qed.

(** What is computed from some fields only depends on those fields. *)
Lemma map_eq_via {A B C} (g : A → B) (f : A → C) (l l' : list A) :
  (∀ x y, g x = g y → f x = f y) → map g l = map g l' → map f l = map f l'.
Proof.
  intros Hgf. revert l'. induction l as [|x l IH]; intros [|y l']; simpl; try done.
  intros [= Hxy Hl]. f_equal; [by apply Hgf|by apply IH].
Qed.

(** ** Tactics

    [simplify_bool] turns the boolean tests of the code into propositions;
    [case_bool] splits on the test that blocks the goal. *)

Create HintDb relay.

Ltac simplify_bool :=
  repeat match goal with
  | H : (_ && _) = true |- _ => apply andb_true_iff in H as [? ?]
  | H : (_ || _) = false |- _ => apply orb_false_iff in H as [? ?]
  | H : negb _ = true |- _ => apply negb_true_iff in H
  | H : negb _ = false |- _ => apply negb_false_iff in H
  | H : (_ =? _)%string = true |- _ => apply String.eqb_eq in H
  | H : (_ =? _)%string = false |- _ => apply String.eqb_neq in H
  | H : (_ =? _) = true |- _ => apply Z.eqb_eq in H
  | H : (_ =? _) = false |- _ => apply Z.eqb_neq in H
  | H : (_ <=? _) = true |- _ => apply Z.leb_le in H
  | H : (_ <=? _) = false |- _ => apply Z.leb_gt in H
  | H : (_ <? _) = true |- _ => apply Z.ltb_lt in H
  | H : (_ <? _) = false |- _ => apply Z.ltb_ge in H
  | H : bool_decide _ = true |- _ => apply bool_decide_eq_true in H
  | H : bool_decide _ = false |- _ => apply bool_decide_eq_false in H
  end.

Ltac case_bool :=
  match goal with
  | |- context [if ?b then _ else _] => destruct b eqn:?; simplify_bool
  | H : context [if ?b then _ else _] |- _ => destruct b eqn:?; simplify_bool
  end.
