(* ===== verification/Paging.v ===== *)
(** * Paging through an ordered table

    The scans of the relay read a table in pages: a query with a sort order and a
    limit, and from the second page on a condition that skips what comes up to
    the last row of the page before.  Used by the deadline sweep ([Handlers.v])
    and by task matching ([Matching.v]). *)

From stdpp Require Import sorting.
From S2P Require Import Prelude.

Lemma select_perm {A} (p : A → bool) l l' : l ≡ₚ l' → select_where p l ≡ₚ select_where p l'.
Proof.
  unfold select_where. induction 1; simpl; repeat case_match; try done; [by constructor|by constructor|by etrans].
Qed.

Lemma select_select {A} (p q : A → bool) l : select_where p (select_where q l) = select_where (λ y, q y && p y) l.
Proof.
  unfold select_where. induction l as [|y l IH]; simpl; [done|]. destruct (q y); simpl; [|done]. by rewrite IH.
Qed.

Lemma select_ext {A} (p q : A → bool) l : (∀ y, y ∈ l → p y = q y) → select_where p l = select_where q l.
Proof.
  unfold select_where. induction l as [|y l IH]; simpl; intros H; [done|].
  rewrite (H y) by set_solver. rewrite IH; [done|]. set_solver.
Qed.

Lemma filter_sorted_split {A} p l1 (x : A) l2 :
  Forall (λ y, p y = false) (l1 ++ [x]) → Forall (λ y, p y = true) l2 → select_where p (l1 ++ x :: l2) = l2.
Proof.
  intros H1 H2. unfold select_where. induction l1 as [|y l1 IH]; simpl in *.
  - apply Forall_cons in H1 as [-> _]. induction H2 as [|z l2 Hz H2 IH]; simpl; [done|]. by rewrite Hz, IH.
  - apply Forall_cons in H1 as [-> H1]. by apply IH.
Qed.

Lemma take_last {A} (n : nat) (l : list A) y :
  last (take n l) = Some y → ∃ l1 l2, l = l1 ++ y :: l2 ∧ take n l = l1 ++ [y].
Proof.
  intros (l1 & Ht)%last_Some. exists l1, (drop n l). split; [|done].
  rewrite <- (take_drop n l) at 1. rewrite Ht. by rewrite <- app_assoc.
Qed.

Lemma take_last_None {A} (n : nat) (l : list A) : (0 < n)%nat → last (take n l) = None → l = [].
Proof. intros Hn Hl%last_None. destruct l; [done|]. destruct n; [lia|done]. Qed.

Section paging.
Context {A : Type} (R : relation A) `{!RelDecision R, !Transitive R, !Total R}.
Context (rows : list A).
Hypothesis Hnd : NoDup rows.
Hypothesis Hanti : ∀ x y, x ∈ rows → y ∈ rows → R x y → R y x → x = y.

Let sorted := merge_sort R rows.

Lemma elem_of_sorted x : x ∈ sorted ↔ x ∈ rows.
Proof. unfold sorted. by rewrite merge_sort_Permutation. Qed.

(** The rows that come after [x] are the rest of the sorted table behind [x]. *)
Lemma sorted_after p l1 x l2 :
  sorted = l1 ++ x :: l2 → (∀ y, y ∈ rows → p y = true ↔ R x y ∧ x ≠ y) →
  merge_sort R (select_where p rows) = l2.
Proof.
  intros Hs Hp. assert (Hin : ∀ y, y ∈ sorted → y ∈ rows) by (intros y; by rewrite elem_of_sorted).
  assert (Hx : x ∈ rows) by (apply Hin; rewrite Hs; set_solver).
  pose proof (StronglySorted_merge_sort R rows) as Hss. fold sorted in Hss. rewrite Hs in Hss.
  apply StronglySorted_app in Hss as (Hl & _ & Hss). apply StronglySorted_inv in Hss as [Hs2 Hx2].
  assert (Hnd' : NoDup sorted) by (unfold sorted; by rewrite merge_sort_Permutation).
  assert (Hsel : select_where p sorted = l2).
  { rewrite Hs in *. apply NoDup_app in Hnd' as (_ & Hd1 & Hnd'). apply NoDup_cons in Hnd' as [Hx' _].
    apply filter_sorted_split.
    - apply Forall_forall. intros y Hy. destruct (p y) eqn:Hpy; [|done]. exfalso.
      assert (Hyt : y ∈ rows) by (apply Hin; set_solver). apply (Hp y Hyt) in Hpy as [Hxy Hne].
      apply elem_of_app in Hy as [Hy|Hy%list_elem_of_singleton]; [|by subst].
      apply Hne, Hanti; [done|done|done|]. apply Hl; set_solver.
    - apply Forall_forall. intros y Hy. assert (Hyt : y ∈ rows) by (apply Hin; set_solver).
      apply (Hp y Hyt). split; [by rewrite Forall_forall in Hx2; apply Hx2|]. intros ->. done. }
  apply (StronglySorted_unique_strong R).
  - intros y1 y2 Hy1 Hy2. rewrite merge_sort_Permutation in Hy1. apply elem_of_select in Hy1 as [Hy1 _].
    apply Hanti; [done|]. apply Hin. rewrite Hs. set_solver.
  - apply StronglySorted_merge_sort; apply _.
  - done.
  - rewrite merge_sort_Permutation, <- Hsel. unfold sorted.
    by rewrite (select_perm p _ _ (merge_sort_Permutation R rows)).
Qed.
End paging.
