(* ===== verification/Mac.v ===== *)
(** * Message authentication codes

    src/utils/mac.go signs a processed ledger event and a withdrawal record with
    HMAC-SHA256 ([crypto/hmac] and [crypto/sha256] of the Go standard library)
    and prints the tag as a [0x] hexadecimal string.  SHA-256 and HMAC are
    written out, executable, on bytes and 32-bit words kept as [Z]. *)

From Stdlib Require Import Ascii.
From S2P Require Import Prelude.

Module Mac.

(** ** SHA-256 *)

Definition w32 (z : Z) : Z := z mod 2 ^ 32.
Definition add32 (x y : Z) : Z := w32 (x + y).
Definition rotr (n x : Z) : Z := Z.lor (Z.shiftr x n) (w32 (Z.shiftl x (32 - n))).
Definition ch (x y z : Z) : Z := Z.lxor (Z.land x y) (Z.land (Z.lxor x (2 ^ 32 - 1)) z).
Definition maj (x y z : Z) : Z := Z.lxor (Z.lxor (Z.land x y) (Z.land x z)) (Z.land y z).
Definition bsig0 (x : Z) : Z := Z.lxor (Z.lxor (rotr 2 x) (rotr 13 x)) (rotr 22 x).
Definition bsig1 (x : Z) : Z := Z.lxor (Z.lxor (rotr 6 x) (rotr 11 x)) (rotr 25 x).
Definition ssig0 (x : Z) : Z := Z.lxor (Z.lxor (rotr 7 x) (rotr 18 x)) (Z.shiftr x 3).
Definition ssig1 (x : Z) : Z := Z.lxor (Z.lxor (rotr 17 x) (rotr 19 x)) (Z.shiftr x 10).

(** The constants of the algorithm: the first 32 bits of the fractional parts of
    the cube roots of the first 64 primes and of the square roots of the first
    eight. *)
Definition prime (n : Z) : bool :=
  forallb (λ d, negb (n mod d =? 0)) (map Z.of_nat (seq 2 (Z.to_nat n - 2))).
Definition primes : list Z := select_where prime (map Z.of_nat (seq 2 310)).

(** The integer cube root, bit by bit from bit [n - 1] down. *)
Fixpoint cube_root (n : nat) (acc z : Z) : Z :=
  match n with
  | O => acc
  | S m => let c := acc + 2 ^ Z.of_nat m in cube_root m (if c * c * c <=? z then c else acc) z
  end.

Definition K256 : list Z :=
  Eval vm_compute in map (λ p, w32 (cube_root 40 0 (Z.shiftl p 96))) primes.
Definition H256 : list Z :=
  Eval vm_compute in map (λ p, w32 (Z.sqrt (Z.shiftl p 64))) (take 8 primes).

(** Big-endian bytes of a number, and the number of big-endian bytes. *)
Fixpoint be_bytes (n : nat) (z : Z) : list Z :=
  match n with
  | O => []
  | S m => Z.shiftr z (8 * Z.of_nat m) mod 256 :: be_bytes m z
  end.

Definition be_number (bs : list Z) : Z := foldl (λ acc b, acc * 256 + b) 0 bs.

(** [chunk n l] cuts [l] into pieces of [n] elements; the length of [l] bounds
    the number of pieces. *)
Fixpoint chunk_fuel {A} (fuel n : nat) (l : list A) : list (list A) :=
  match fuel, l with
  | S f, _ :: _ => take n l :: chunk_fuel f n (drop n l)
  | _, _ => []
  end.
Definition chunk {A} (n : nat) (l : list A) : list (list A) := chunk_fuel (length l) n l.

Definition pad (msg : list Z) : list Z :=
  let len := length msg in
  let zeros := Z.to_nat ((55 - Z.of_nat len) mod 64) in
  msg ++ [0x80] ++ replicate zeros 0 ++ be_bytes 8 (8 * Z.of_nat len).

(** The message schedule: the sixteen words of a block extended to 64; the
    list is kept newest first. *)
Fixpoint schedule (n : nat) (rev_w : list Z) : list Z :=
  match n with
  | O => reverse rev_w
  | S m =>
      let at_ i := nth i rev_w 0 in
      let w := add32 (add32 (ssig1 (at_ 1%nat)) (at_ 6%nat)) (add32 (ssig0 (at_ 14%nat)) (at_ 15%nat)) in
      schedule m (w :: rev_w)
  end.

Definition round (s : list Z) (kw : Z * Z) : list Z :=
  match s with
  | [a; b; c; d; e; f; g; h] =>
      let t1 := add32 (add32 (add32 h (bsig1 e)) (add32 (ch e f g) (fst kw))) (snd kw) in
      let t2 := add32 (bsig0 a) (maj a b c) in
      [add32 t1 t2; a; b; c; add32 d t1; e; f; g]
  | _ => s
  end.

Definition compress (s : list Z) (block : list Z) : list Z :=
  let words := map be_number (chunk 4 block) in
  let w := schedule 48 (reverse words) in
  zip_with add32 s (foldl round s (zip K256 w)).

Definition sha256 (msg : list Z) : list Z :=
  List.concat (map (be_bytes 4) (foldl compress H256 (chunk 64 (pad msg)))).

(** ** HMAC and the hexadecimal tag *)

Definition hmac_sha256 (key msg : list Z) : list Z :=
  let k0 := if (64 <? Z.of_nat (length key)) then sha256 key else key in
  let k := k0 ++ replicate (64 - length k0)%nat 0 in
  sha256 (map (Z.lxor 0x5c) k ++ sha256 (map (Z.lxor 0x36) k ++ msg)).

Definition bytes_of_string (s : string) : list Z :=
  map (λ c, Z.of_N (N_of_ascii c)) (String.list_ascii_of_string s).

Definition hex_digit (n : Z) : ascii :=
  ascii_of_N (Z.to_N (if n <? 10 then 48 + n else 87 + n)).

Fixpoint hex_bytes (bs : list Z) : string :=
  match bs with
  | [] => EmptyString
  | b :: r => String (hex_digit (b / 16)) (String (hex_digit (b mod 16)) (hex_bytes r))
  end.

Definition hex_value (c : ascii) : option Z :=
  let n := Z.of_N (N_of_ascii c) in
  if (48 <=? n) && (n <=? 57) then Some (n - 48)
  else if (97 <=? n) && (n <=? 102) then Some (n - 87)
  else if (65 <=? n) && (n <=? 70) then Some (n - 55)
  else None.

Fixpoint unhex_bytes (s : string) : option (list Z) :=
  match s with
  | EmptyString => Some []
  | String c1 (String c2 r) =>
      match hex_value c1, hex_value c2, unhex_bytes r with
      | Some h, Some l, Some bs => Some (h * 16 + l :: bs)
      | _, _, _ => None
      end
  | _ => None
  end.

(** [hexutil.Encode] and [hexutil.Decode]: the prefix [0x] is required and an
    odd number of digits is an error. *)
Definition hexutil_Encode (bs : list Z) : string := "0x" +:+ hex_bytes bs.

Definition hexutil_Decode (s : string) : option (list Z) :=
  match s with
  | String c0 (String c1 r) =>
      if Ascii.eqb c0 "0" && (Ascii.eqb c1 "x" || Ascii.eqb c1 "X") then unhex_bytes r else None
  | _ => None
  end.

(** [generateMACBytes], src/utils/mac.go 10-14 *)
Definition generateMACBytes (data : string) (secretKey : string) : list Z :=
  hmac_sha256 (bytes_of_string secretKey) (bytes_of_string data).

(** [GenerateMAC], src/utils/mac.go 17-19 *)
Definition GenerateMAC (data : string) (secretKey : string) : string :=
  hexutil_Encode (generateMACBytes data secretKey).

(** [VerifyMAC], src/utils/mac.go 21-27 *)
Definition VerifyMAC (data : string) (secretKey mac : string) : bool :=
  match hexutil_Decode mac with
  | None => false
  | Some macBytes => bool_decide (macBytes = generateMACBytes data secretKey)
  end.

(** ** Properties *)

(** The published test vectors of SHA-256 ("abc") and HMAC-SHA256 (RFC 4231,
    case 2). *)
Example sha256_abc :
  hex_bytes (sha256 (bytes_of_string "abc")) =
  "ba7816bf8f01cfea414140de5dae2223b00361a396177a9cb410ff61f20015ad".
Proof. vm_compute. reflexivity. Qed.

Example hmac_rfc4231 :
  GenerateMAC "what do ya want for nothing?" "Jefe" =
  "0x5bdcc146bf60754e6a042426089575c75a003f089d2739839dec58b964ec3843".
Proof. vm_compute. reflexivity. Qed.

Definition is_byte (b : Z) : Prop := 0 ≤ b < 256.

Lemma hex_value_digit n : 0 ≤ n < 16 → hex_value (hex_digit n) = Some n.
Proof.
  intros Hn. assert (n ∈ seqZ 0 16) as Hin by (apply elem_of_seqZ; lia).
  repeat (apply elem_of_cons in Hin as [->|Hin]; [reflexivity|]).
  by apply elem_of_nil in Hin.
Qed.

Lemma unhex_hex bs : Forall is_byte bs → unhex_bytes (hex_bytes bs) = Some bs.
Proof.
  induction 1 as [|b bs Hb _ IH]; [done|]. unfold is_byte in Hb.
  cbn [hex_bytes unhex_bytes].
  rewrite (hex_value_digit (b / 16)), (hex_value_digit (b mod 16)), IH.
  - do 2 f_equal. pose proof (Z.div_mod b 16). lia.
  - apply Z.mod_pos_bound. lia.
  - split; [apply Z.div_pos; lia|apply Z.div_lt_upper_bound; lia].
Qed.

Lemma be_bytes_byte n z : Forall is_byte (be_bytes n z).
Proof.
  induction n as [|n IH]; simpl; constructor; [|done]. by apply Z.mod_pos_bound.
Qed.

Lemma sha256_length msg : length (sha256 msg) = 32%nat.
Proof.
  unfold sha256.
  assert (H8 : ∀ blocks s, length s = 8%nat → length (foldl compress s blocks) = 8%nat).
  { induction blocks as [|b blocks IH]; intros s Hs; [done|]. simpl. apply IH. unfold compress.
    rewrite length_zip_with.
    assert (Hr : ∀ l t, length t = 8%nat → length (foldl round t l) = 8%nat).
    { induction l as [|kw l IHl]; intros t Ht; [done|]. simpl. apply IHl.
      destruct t as [|? [|? [|? [|? [|? [|? [|? [|? [|]]]]]]]]]; done. }
    rewrite Hr by done. lia. }
  specialize (H8 (chunk 64 (pad msg)) H256 eq_refl). revert H8. generalize (foldl compress H256 (chunk 64 (pad msg))).
  intros s Hs. assert (H : ∀ l, length (List.concat (map (be_bytes 4) l)) = (4 * length l)%nat).
  { induction l as [|z l IH]; [done|].
    change (length (be_bytes 4 z ++ List.concat (map (be_bytes 4) l)) = (4 * S (length l))%nat).
    rewrite length_app, IH. simpl. lia. }
  rewrite H, Hs. done.
Qed.

Lemma sha256_bytes msg : Forall is_byte (sha256 msg).
Proof.
  unfold sha256. generalize (foldl compress H256 (chunk 64 (pad msg))) as s.
  induction s as [|x s IH]; [constructor|]. cbn [map List.concat].
  apply Forall_app. split; [apply (be_bytes_byte 4)|done].
Qed.

(** (roundtrip): a tag made with a key verifies under that key, and a tag in
    the format the relay stores verifies only if it is the tag of the message
    (so a stored event or record whose tag verifies carries the tag of exactly
    its own reason or fields). *)
Theorem VerifyMAC_GenerateMAC (data key : string) :
  VerifyMAC data key (GenerateMAC data key) = true ∧
  (∀ data', VerifyMAC data' key (GenerateMAC data key) = true ↔
            GenerateMAC data' key = GenerateMAC data key).
Proof.
  assert (Hd : ∀ d, hexutil_Decode (GenerateMAC d key) = Some (generateMACBytes d key)).
  { intros d. apply unhex_hex, sha256_bytes. }
  unfold VerifyMAC. rewrite Hd. split; [by apply bool_decide_eq_true|].
  intros data'. rewrite bool_decide_eq_true. split; intros H.
  - unfold GenerateMAC. by rewrite H.
  - apply (f_equal hexutil_Decode) in H. rewrite !Hd in H. by injection H.
Qed.

End Mac.
