(* ===== verification/Json.v ===== *)
(** * JSON values and their encodings

    The values that Go's decoder with [UseNumber] produces, the canonical
    encoding of src/models/model_file.go ([writeCanonicalValue]) and the encoding of
    [json.Marshal].  A Go map is the list of its entries in ascending order of
    the keys, the order both encoders write them in; strings are the bytes of
    valid UTF-8, which is what the decoder returns. *)

From Stdlib Require Import Ascii.
From S2P Require Import Prelude Mac.

Module Json.
Import Mac.

(** ** Values *)

Inductive json :=
| JNull
| JBool (b : bool)
| JNumber (s : list ascii)
| JString (s : list ascii)
| JArray (l : list json)
| JObject (o : list (list ascii * json)).

(** Induction with hypotheses for the members. *)
Section json_ind.
Context (P : json → Prop).
Context (HN : P JNull) (HB : ∀ b, P (JBool b)) (HM : ∀ s, P (JNumber s)) (HS : ∀ s, P (JString s)).
Context (HA : ∀ l, Forall P l → P (JArray l)) (HO : ∀ o, Forall (λ kv, P (snd kv)) o → P (JObject o)).

Fixpoint json_nested (v : json) : P v :=
  match v with
  | JNull => HN
  | JBool b => HB b
  | JNumber s => HM s
  | JString s => HS s
  | JArray l => HA l ((fix go l := match l return Forall P l with
                                   | [] => Forall_nil_2 _
                                   | x :: l' => Forall_cons_2 _ _ _ (json_nested x) (go l')
                                   end) l)
  | JObject o => HO o ((fix go o := match o return Forall (λ kv, P (snd kv)) o with
                                    | [] => Forall_nil_2 _
                                    | kv :: o' => Forall_cons_2 _ _ _ (json_nested (snd kv)) (go o')
                                    end) o)
  end.
End json_ind.

(** ** The canonical encoding *)

Definition code (c : ascii) : Z := Z.of_N (N_of_ascii c).
Definition char (z : Z) : ascii := ascii_of_N (Z.to_N z).
Definition quote : ascii := char 34.
Definition backslash : ascii := char 92.

(** One character of [writeCanonicalString], src/models/model_file.go 199-226 *)
Definition escapeCanonical (c : ascii) : list ascii :=
  let z := code c in
  if z =? 34 then [backslash; quote]
  else if z =? 92 then [backslash; backslash]
  else if z =? 10 then [backslash; char 110]
  else if z =? 13 then [backslash; char 114]
  else if z =? 9 then [backslash; char 116]
  else if z =? 8 then [backslash; char 98]
  else if z =? 12 then [backslash; char 102]
  else if z <? 32 then [backslash; char 117; char 48; char 48; hex_digit (z / 16); hex_digit (z mod 16)]
  else [c].

(** [writeCanonicalString], src/models/model_file.go 199-226 *)
Definition writeCanonicalString (s : list ascii) : list ascii :=
  quote :: flat_map escapeCanonical s ++ [quote].

(** Elements separated by commas. *)
Definition separated {A} (f : A → list ascii) (l : list A) : list ascii :=
  (fix go (first : bool) (l : list A) : list ascii :=
     match l with
     | [] => []
     | x :: l' => (if first then [] else [char 44]) ++ f x ++ go false l'
     end) true l.

(** [writeCanonicalValue], src/models/model_file.go 161-197 *)
Fixpoint writeCanonicalValue (v : json) : list ascii :=
  match v with
  | JNull => String.list_ascii_of_string "null"
  | JBool b => String.list_ascii_of_string (if b then "true" else "false")
  | JNumber s => s
  | JString s => writeCanonicalString s
  | JArray l => char 91 :: separated writeCanonicalValue l ++ [char 93]
  | JObject o =>
      char 123 :: separated (λ kv, writeCanonicalString (fst kv) ++ [char 58] ++ writeCanonicalValue (snd kv)) o ++ [char 125]
  end.

(** Its bytes *)
Definition canonicalBytes (v : json) : list Z := map code (writeCanonicalValue v).

(** ** The encoding of json.Marshal *)

(** One ASCII character of [json.Marshal], which also escapes [<], [>] and [&]. *)
Definition escapeMarshal (c : ascii) : list ascii :=
  let z := code c in
  if (z =? 60) || (z =? 62) || (z =? 38)
  then [backslash; char 117; char 48; char 48; hex_digit (z / 16); hex_digit (z mod 16)]
  else escapeCanonical c.

(** The line separators U+2028 and U+2029, three bytes each, are escaped too. *)
Fixpoint marshalChars (s : list ascii) : list ascii :=
  match s with
  | c :: ((d :: e :: s'') as s') =>
      if (code c =? 226) && (code d =? 128) && ((code e =? 168) || (code e =? 169))
      then [backslash; char 117; char 50; char 48; char 50; hex_digit (code e mod 16)] ++ marshalChars s''
      else escapeMarshal c ++ marshalChars s'
  | c :: s' => escapeMarshal c ++ marshalChars s'
  | [] => []
  end.
Definition marshalString (s : list ascii) : list ascii := quote :: marshalChars s ++ [quote].

(** [json.Marshal] *)
Fixpoint Marshal (v : json) : list ascii :=
  match v with
  | JNull => String.list_ascii_of_string "null"
  | JBool b => String.list_ascii_of_string (if b then "true" else "false")
  | JNumber s => s
  | JString s => marshalString s
  | JArray l => char 91 :: separated Marshal l ++ [char 93]
  | JObject o =>
      char 123 :: separated (λ kv, marshalString (fst kv) ++ [char 58] ++ Marshal (snd kv)) o ++ [char 125]
  end.

(** ** Access *)

(** [m[key]] and the type assertions of the code *)
Definition field (key : string) (o : list (list ascii * json)) : option json :=
  snd <$> find_first (λ kv, bool_decide (fst kv = String.list_ascii_of_string key)) o.
Definition asString (v : option json) : option string :=
  match v with Some (JString s) => Some (String.string_of_list_ascii s) | _ => None end.
Definition asObject (v : option json) : option (list (list ascii * json)) :=
  match v with Some (JObject o) => Some o | _ => None end.
(** A missing entry reads as nil. *)
Definition orNull (v : option json) : json := match v with Some x => x | None => JNull end.

Example canonical_example :
  String.string_of_list_ascii (writeCanonicalValue
    (JObject [(String.list_ascii_of_string "a", JArray [JNumber (String.list_ascii_of_string "1.50"); JNull; JBool true]);
              (String.list_ascii_of_string "b<", JString (quote :: backslash :: char 10 :: char 1 :: []))])) =
  String.string_of_list_ascii (char 123 :: quote :: char 97 :: quote :: String.list_ascii_of_string ":[1.50,null,true]," ++
    quote :: String.list_ascii_of_string "b<" ++ quote :: char 58 :: quote :: backslash :: quote ::
    String.list_ascii_of_string "\\\n\u0001" ++ [quote; char 125]).
Proof. vm_compute. reflexivity. Qed.

(** ** The canonical encoding is unambiguous *)

(** All characters. *)
Definition allChars : list ascii := map (λ n, ascii_of_nat n) (seq 0 256).

Lemma allChars_elem c : c ∈ allChars.
Proof.
  apply list_elem_of_fmap. exists (nat_of_ascii c). split; [by rewrite ascii_nat_embedding|].
  apply elem_of_seq. pose proof (nat_ascii_bounded c). lia.
Qed.

Lemma forallChars (P : ascii → bool) c : forallb P allChars = true → P c = true.
Proof. rewrite forallb_forall. intros H. apply H, list_elem_of_In, allChars_elem. Qed.

Fixpoint isPrefix (a b : list ascii) : bool :=
  match a, b with
  | [], _ => true
  | x :: a', y :: b' => Ascii.eqb x y && isPrefix a' b'
  | _, _ => false
  end.

Lemma app_prefix a b r1 r2 : a ++ r1 = b ++ r2 → isPrefix a b || isPrefix b a = true.
Proof.
  revert b. induction a as [|x a IH]; intros [|y b]; simpl; try done.
  intros [= -> H]. rewrite Ascii.eqb_refl. simpl. by apply IH.
Qed.

(** The codes of characters are a prefix code without the quote. *)
Lemma escapeCanonical_inj c d r1 r2 :
  escapeCanonical c ++ r1 = escapeCanonical d ++ r2 → c = d ∧ r1 = r2.
Proof.
  intros H. assert (Hcd : c = d).
  { apply app_prefix in H. revert H.
    assert (Hall : forallb (λ c, forallb (λ d, Ascii.eqb c d ||
      negb (isPrefix (escapeCanonical c) (escapeCanonical d) || isPrefix (escapeCanonical d) (escapeCanonical c)))
      allChars) allChars = true) by (vm_compute; reflexivity).
    apply (forallChars _ c) in Hall. apply (forallChars _ d) in Hall.
    apply orb_true_iff in Hall as [Heq%Ascii.eqb_eq|Hn]; [done|]. apply negb_true_iff in Hn. by rewrite Hn. }
  subst d. split; [done|]. by apply app_inv_head in H.
Qed.

Lemma escapeCanonical_head c r r' : escapeCanonical c ++ r ≠ quote :: r'.
Proof.
  intros H. change (quote :: r') with ([quote] ++ r') in H. apply app_prefix in H. revert H.
  assert (Hall : forallb (λ c, negb (isPrefix (escapeCanonical c) [quote] || isPrefix [quote] (escapeCanonical c)))
    allChars = true) by (vm_compute; reflexivity).
  apply (forallChars _ c) in Hall. cbv beta in Hall. apply negb_true_iff in Hall. by rewrite Hall.
Qed.

Lemma writeCanonicalString_inj s1 s2 r1 r2 :
  writeCanonicalString s1 ++ r1 = writeCanonicalString s2 ++ r2 → s1 = s2 ∧ r1 = r2.
Proof.
  unfold writeCanonicalString. simpl. intros H. injection H as H. revert s2 H.
  induction s1 as [|c s1 IH]; intros [|d s2]; simpl; rewrite <- ?app_assoc; simpl.
  - intros [= ->]. done.
  - intros H. symmetry in H. by apply escapeCanonical_head in H.
  - intros H. by apply escapeCanonical_head in H.
  - intros H. apply escapeCanonical_inj in H as [-> H].
    destruct (IH s2) as [-> ->]; [|done].
    rewrite <- !app_assoc. exact H.
Qed.

(** Numbers as the decoder accepts them: characters of numbers, the first a digit
    or a minus sign. *)
Definition numberChar (c : ascii) : bool :=
  let z := code c in ((48 <=? z) && (z <=? 57)) || (z =? 45) || (z =? 43) || (z =? 46) || (z =? 101) || (z =? 69).
Definition numberStart (c : ascii) : bool :=
  let z := code c in ((48 <=? z) && (z <=? 57)) || (z =? 45).
Definition wf_number (s : list ascii) : Prop :=
  match s with [] => False | c :: s' => numberStart c = true ∧ Forall (λ c, numberChar c = true) s' end.

Inductive wf : json → Prop :=
| wf_null : wf JNull
| wf_bool b : wf (JBool b)
| wf_num s : wf_number s → wf (JNumber s)
| wf_string s : wf (JString s)
| wf_array l : Forall wf l → wf (JArray l)
| wf_object o : Forall (λ kv, wf (snd kv)) o → wf (JObject o).

(** What may follow a value. *)
Definition delimited (r : list ascii) : Prop :=
  match r with [] => True | c :: _ => c = char 44 ∨ c = char 93 ∨ c = char 125 end.

(** The kind of a value shows in its first character. *)
Definition kindOf (v : json) : Z :=
  match v with
  | JNull => 0 | JBool true => 1 | JBool false => 2 | JNumber _ => 3 | JString _ => 4 | JArray _ => 5 | JObject _ => 6
  end.
Definition kindChar (c : ascii) : Z :=
  let z := code c in
  if z =? 110 then 0 else if z =? 116 then 1 else if z =? 102 then 2 else if numberStart c then 3
  else if z =? 34 then 4 else if z =? 91 then 5 else if z =? 123 then 6 else 7.

Lemma numberStart_kind c : numberStart c = true → kindChar c = 3.
Proof.
  assert (Hall : forallb (λ c, negb (numberStart c) || (kindChar c =? 3)) allChars = true) by (vm_compute; reflexivity).
  intros H. apply (forallChars _ c) in Hall. cbv beta in Hall. rewrite H in Hall. by apply Z.eqb_eq in Hall.
Qed.

Lemma write_head v : wf v → ∃ c rest, writeCanonicalValue v = c :: rest ∧ kindChar c = kindOf v.
Proof.
  destruct 1 as [| [] |[|c s] Hs| | |]; try done; try (by do 2 eexists).
  - exists c, s. split; [done|]. apply numberStart_kind, Hs.
Qed.

Lemma write_kind v w r1 r2 : wf v → wf w →
  writeCanonicalValue v ++ r1 = writeCanonicalValue w ++ r2 → kindOf v = kindOf w.
Proof.
  intros Hv Hw. destruct (write_head v Hv) as (c & a & -> & <-), (write_head w Hw) as (d & b & -> & <-).
  simpl. by intros [= -> _].
Qed.

Lemma number_inj s1 s2 r1 r2 : wf_number s1 → wf_number s2 → delimited r1 → delimited r2 →
  s1 ++ r1 = s2 ++ r2 → s1 = s2 ∧ r1 = r2.
Proof.
  destruct s1 as [|c s1]; [done|]. destruct s2 as [|d s2]; [done|]. intros [_ H1] [_ H2] D1 D2.
  simpl. intros [= <- H]. assert (Hs : s1 = s2 ∧ r1 = r2); [|destruct Hs; split; congruence].
  assert (Hd : ∀ x l r, delimited r → r = x :: l → numberChar x = false).
  { intros x l r Hr ->. by destruct Hr as [->|[->| ->]]. }
  revert s2 H2 H. induction H1 as [|x s1 Hx H1 IH]; intros [|y s2] H2 H; simpl in H.
  - done.
  - apply Forall_cons in H2 as [Hy _]. rewrite (Hd y _ r1 D1 H) in Hy. done.
  - rewrite (Hd x _ r2 D2 (eq_sym H)) in Hx. done.
  - apply Forall_cons in H2 as [_ H2]. injection H as -> H. destruct (IH s2 H2 H) as [-> ->]. done.
Qed.

(** Lists: members are told apart and none starts like the closing bracket. *)
Definition sepLoop {A} (f : A → list ascii) : bool → list A → list ascii :=
  fix go (first : bool) (l : list A) : list ascii :=
    match l with
    | [] => []
    | x :: l' => (if first then [] else [char 44]) ++ f x ++ go false l'
    end.

Lemma sepLoop_inj {A} (f : A → list ascii) (close : ascii) l1 :
  close = char 93 ∨ close = char 125 →
  ∀ l2 first r1 r2,
  Forall (λ x, ∀ y r1 r2, y ∈ l2 → delimited r1 → delimited r2 → f x ++ r1 = f y ++ r2 → x = y ∧ r1 = r2) l1 →
  (∀ x r r', x ∈ l1 ∨ x ∈ l2 → f x ++ r ≠ close :: r') →
  sepLoop f first l1 ++ close :: r1 = sepLoop f first l2 ++ close :: r2 → l1 = l2 ∧ r1 = r2.
Proof.
  intros Hclose. assert (Hcomma : char 44 ≠ close) by (by destruct Hclose as [->| ->]).
  assert (Hdel : ∀ l r, delimited (sepLoop f false l ++ close :: r)).
  { intros [|x l] r; simpl; [by right|by left]. }
  induction l1 as [|x l1 IH]; intros [|y l2] first r1 r2 Hinj Hhead H.
  - simpl in H. by injection H as ->.
  - exfalso. destruct first; simpl in H; [|by injection H].
    rewrite <- app_assoc in H. symmetry in H. apply Hhead in H; [done|right; by left].
  - exfalso. destruct first; simpl in H; [|by injection H].
    rewrite <- app_assoc in H. apply Hhead in H; [done|left; by left].
  - apply Forall_cons in Hinj as [Hx Hinj].
    assert (H' : f x ++ sepLoop f false l1 ++ close :: r1 = f y ++ sepLoop f false l2 ++ close :: r2).
    { destruct first; simpl in H; rewrite <- !app_assoc in H; [done|]. by injection H. }
    apply Hx in H' as [-> H']; [|by left|apply Hdel|apply Hdel].
    destruct (IH l2 false r1 r2) as [-> ->]; [| |done|done].
    + eapply Forall_impl; [exact Hinj|]. intros z Hz w q1 q2 Hw. apply Hz. by right.
    + intros z q q' Hz. apply Hhead. destruct Hz; [left|right]; by right.
Qed.

Lemma write_not_close v r r' c : wf v → c = char 93 ∨ c = char 125 → writeCanonicalValue v ++ r ≠ c :: r'.
Proof.
  intros Hv Hc H. destruct (write_head v Hv) as (d & a & Hd & Hk). rewrite Hd in H. simpl in H.
  injection H as -> _. assert (Hk7 : kindChar c = 7) by (by destruct Hc as [->| ->]).
  rewrite Hk7 in Hk. by destruct v as [|[]| | | |].
Qed.

Lemma writeCanonicalValue_inj v : ∀ w r1 r2, wf v → wf w → delimited r1 → delimited r2 →
  writeCanonicalValue v ++ r1 = writeCanonicalValue w ++ r2 → v = w ∧ r1 = r2.
Proof.
  induction v as [|b|s|s|l IH|o IH] using json_nested; intros w r1 r2 Wv Ww D1 D2 H;
    pose proof (write_kind _ _ _ _ Wv Ww H) as Hk; (destruct w as [|b'|s'|s'|l'|o']; try (by destruct b); try (by destruct b'); try done).
  - simpl in H. by injection H as ->.
  - assert (b = b') as -> by (by destruct b, b'). by apply app_inv_head in H.
  - inversion Wv; inversion Ww; subst. simpl in H. by apply number_inj in H as [-> ->].
  - simpl in H. by apply writeCanonicalString_inj in H as [-> ->].
  - inversion Wv as [| | | |? Wl|]; inversion Ww as [| | | |? Wl'|]; subst. simpl in H. injection H as H.
    rewrite <- !app_assoc in H. simpl in H. apply (sepLoop_inj writeCanonicalValue (char 93)) in H as [-> ->]; [done|by left| |].
    + rewrite Forall_forall in *. intros x Hx y q1 q2 Hy. apply IH; auto.
    + rewrite Forall_forall in *. intros x q q' [Hx|Hx]; apply write_not_close; auto.
  - inversion Wv as [| | | | |? Wl]; inversion Ww as [| | | | |? Wl']; subst. simpl in H. injection H as H.
    rewrite <- !app_assoc in H. simpl in H.
    apply (sepLoop_inj (λ kv, writeCanonicalString (fst kv) ++ [char 58] ++ writeCanonicalValue (snd kv)) (char 125))
      in H as [-> ->]; [done|by right| |].
    + rewrite Forall_forall in *. intros [k x] Hx [k' y] q1 q2 Hy E1 E2 He. cbn [fst snd] in He.
      rewrite <- !app_assoc in He. apply writeCanonicalString_inj in He as [-> He]. injection He as He.
      apply (IH _ Hx) in He as [He ->]; [by simpl in He; subst|by apply (Wl _ Hx)|by apply (Wl' _ Hy)|done|done].
    + intros [k x] q q' _. simpl. done.
Qed.

(** Different values have different canonical encodings. *)
Lemma canonicalBytes_inj v w : wf v → wf w → canonicalBytes v = canonicalBytes w → v = w.
Proof.
  intros Wv Ww H. unfold canonicalBytes in H.
  assert (Hi : Inj (=) (=) code).
  { intros a b Hab. unfold code in Hab. apply N2Z.inj in Hab.
    by rewrite <- (ascii_N_embedding a), <- (ascii_N_embedding b), Hab. }
  assert (Hc : writeCanonicalValue v = writeCanonicalValue w) by (by apply (inj (fmap code))).
  destruct (writeCanonicalValue_inj v w [] [] Wv Ww) as [-> _]; [done|done| |done]. by rewrite !app_nil_r.
Qed.
End Json.
