(* ===== verification/JsonDecode.v ===== *)
(** * Decoding JSON

    What Go's [encoding/json] does with a text: the grammar of values with its
    limit on nesting, the escapes of strings and the replacement of invalid
    UTF-8, objects in the order of the text ([Value]), maps with sorted keys of
    which the last duplicate wins ([generic]), and the rule that matches keys with
    the fields of a struct.  Decoding gives back what the encoders of [Json.v]
    wrote. *)

From Stdlib Require Import Ascii.
From stdpp Require Import sorting.
From S2P Require Import Prelude Mac Json.

Module JsonDecode.
Import Mac Json.

(** ** Characters *)

Definition isSpace (c : ascii) : bool :=
  let z := code c in (z =? 32) || (z =? 9) || (z =? 10) || (z =? 13).

Fixpoint skipSpace (s : list ascii) : list ascii :=
  match s with
  | c :: s' => if isSpace c then skipSpace s' else s
  | [] => []
  end.

Definition between (lo hi z : Z) : bool := (lo <=? z) && (z <=? hi).
Definition tailByte (c : ascii) : bool := between 128 191 (code c).

(** The sequences of two, three and four bytes that UTF-8 allows. *)
Definition rune2 (a b : ascii) : bool := between 194 223 (code a) && tailByte b.
Definition rune3 (a b c : ascii) : bool :=
  (if code a =? 224 then between 160 191 (code b)
   else if code a =? 237 then between 128 159 (code b)
   else between 225 239 (code a) && tailByte b) && tailByte c.
Definition rune4 (a b c d : ascii) : bool :=
  (if code a =? 240 then between 144 191 (code b)
   else if code a =? 244 then between 128 143 (code b)
   else between 241 243 (code a) && tailByte b) && tailByte c && tailByte d.

(** [utf8.EncodeRune] *)
Definition encodeRune (z : Z) : list ascii :=
  if z <? 128 then [char z]
  else if z <? 2048 then [char (192 + z / 64); char (128 + z mod 64)]
  else if z <? 65536 then [char (224 + z / 4096); char (128 + z / 64 mod 64); char (128 + z mod 64)]
  else [char (240 + z / 262144); char (128 + z / 4096 mod 64); char (128 + z / 64 mod 64); char (128 + z mod 64)].

(** U+FFFD *)
Definition replacement : list ascii := encodeRune 65533.

Definition hex4 (a b c d : ascii) : option Z :=
  match hex_value a, hex_value b, hex_value c, hex_value d with
  | Some x, Some y, Some z, Some w => Some (((x * 16 + y) * 16 + z) * 16 + w)
  | _, _, _, _ => None
  end.

(** The character of a one-letter escape. *)
Definition simpleEscape (c : ascii) : option ascii :=
  let z := code c in
  if (z =? 34) || (z =? 92) || (z =? 47) then Some c
  else if z =? 98 then Some (char 8)
  else if z =? 102 then Some (char 12)
  else if z =? 110 then Some (char 10)
  else if z =? 114 then Some (char 13)
  else if z =? 116 then Some (char 9)
  else None.

(** ** Strings *)

Definition emit (out : list ascii) (rest : option (list ascii * list ascii)) : option (list ascii * list ascii) :=
  match rest with Some (s, r) => Some (out ++ s, r) | None => None end.

Definition surrogate (z : Z) : bool := between 55296 57343 z.

(** The characters of a string after its opening quote, and what follows its
    closing quote. *)
Fixpoint stringBody (s : list ascii) : option (list ascii * list ascii) :=
  match s with
  | [] => None
  | c :: s1 =>
      let z := code c in
      if z =? 34 then Some ([], s1)
      else if z <? 32 then None
      else if z =? 92 then
        match s1 with
        | [] => None
        | e :: s2 =>
            if code e =? 117 then
              match s2 with
              | h1 :: h2 :: h3 :: h4 :: s3 =>
                  match hex4 h1 h2 h3 h4 with
                  | None => None
                  | Some r =>
                      if surrogate r then
                        match s3 with
                        | b' :: u' :: l1 :: l2 :: l3 :: l4 :: s4 =>
                            match hex4 l1 l2 l3 l4 with
                            | Some r' =>
                                if (code b' =? 92) && (code u' =? 117) && between 55296 56319 r && between 56320 57343 r'
                                then emit (encodeRune ((r - 55296) * 1024 + (r' - 56320) + 65536)) (stringBody s4)
                                else emit replacement (stringBody s3)
                            | None => emit replacement (stringBody s3)
                            end
                        | _ => emit replacement (stringBody s3)
                        end
                      else emit (encodeRune r) (stringBody s3)
                  end
              | _ => None
              end
            else match simpleEscape e with
                 | Some x => emit [x] (stringBody s2)
                 | None => None
                 end
        end
      else if z <? 128 then emit [c] (stringBody s1)
      else
        match s1 with
        | b :: s2 =>
            if rune2 c b then emit [c; b] (stringBody s2)
            else match s2 with
                 | d :: s3 =>
                     if rune3 c b d then emit [c; b; d] (stringBody s3)
                     else match s3 with
                          | e :: s4 => if rune4 c b d e then emit [c; b; d; e] (stringBody s4)
                                       else emit replacement (stringBody s1)
                          | [] => emit replacement (stringBody s1)
                          end
                 | [] => emit replacement (stringBody s1)
                 end
        | [] => emit replacement (stringBody s1)
        end
  end.

(** ** Numbers *)

Definition isDigit (c : ascii) : bool := between 48 57 (code c).

Fixpoint digits (s : list ascii) : list ascii * list ascii :=
  match s with
  | c :: s' => if isDigit c then let '(d, r) := digits s' in (c :: d, r) else ([], s)
  | [] => ([], [])
  end.

(** One digit or more. *)
Definition digits1 (s : list ascii) : option (list ascii * list ascii) :=
  match digits s with ([], _) => None | dr => Some dr end.

(** The integer part: a zero, or digits that do not start with one. *)
Definition intPart (s : list ascii) : option (list ascii * list ascii) :=
  match s with
  | c :: s' => if code c =? 48 then Some ([c], s') else digits1 s
  | [] => None
  end.

Definition fraction (s : list ascii) : option (list ascii * list ascii) :=
  match s with
  | c :: s' =>
      if code c =? 46
      then match digits1 s' with Some (d, r) => Some (c :: d, r) | None => None end
      else Some ([], s)
  | [] => Some ([], [])
  end.

Definition exponent (s : list ascii) : option (list ascii * list ascii) :=
  match s with
  | c :: s' =>
      if (code c =? 101) || (code c =? 69)
      then match s' with
           | g :: s'' =>
               if (code g =? 43) || (code g =? 45)
               then match digits1 s'' with Some (d, r) => Some (c :: g :: d, r) | None => None end
               else match digits1 s' with Some (d, r) => Some (c :: d, r) | None => None end
           | [] => None
           end
      else Some ([], s)
  | [] => Some ([], [])
  end.

Definition number (s : list ascii) : option (list ascii * list ascii) :=
  let '(sign, s0) := match s with
                     | c :: s' => if code c =? 45 then ([c], s') else ([], s)
                     | [] => ([], [])
                     end in
  match intPart s0 with
  | None => None
  | Some (i, s1) =>
      match fraction s1 with
      | None => None
      | Some (f, s2) =>
          match exponent s2 with
          | None => None
          | Some (e, r) => Some (sign ++ i ++ f ++ e, r)
          end
      end
  end.

(** ** Values *)

Fixpoint expect (w s : list ascii) : option (list ascii) :=
  match w, s with
  | [], _ => Some s
  | x :: w', y :: s' => if Ascii.eqb x y then expect w' s' else None
  | _, [] => None
  end.
Definition literal (w : string) (v : json) (s : list ascii) : option (json * list ascii) :=
  match expect (String.list_ascii_of_string w) s with Some r => Some (v, r) | None => None end.

Definition maxNestingDepth : Z := 10000.

(** One value with objects as they are written, and the text after it.  The depth
    counts the enclosing arrays and objects. *)
Fixpoint Value (fuel : nat) (depth : Z) (s : list ascii) : option (json * list ascii) :=
  match fuel with
  | O => None
  | S fuel' =>
      match skipSpace s with
      | [] => None
      | c :: r =>
          let z := code c in
          if z =? 34 then match stringBody r with Some (t, r') => Some (JString t, r') | None => None end
          else if z =? 91 then
            if maxNestingDepth <=? depth then None
            else match skipSpace r with
                 | c' :: r' => if code c' =? 93 then Some (JArray [], r')
                               else match Elements fuel' (depth + 1) r with
                                    | Some (l, r'') => Some (JArray l, r'')
                                    | None => None
                                    end
                 | [] => None
                 end
          else if z =? 123 then
            if maxNestingDepth <=? depth then None
            else match skipSpace r with
                 | c' :: r' => if code c' =? 125 then Some (JObject [], r')
                               else match Members fuel' (depth + 1) r with
                                    | Some (o, r'') => Some (JObject o, r'')
                                    | None => None
                                    end
                 | [] => None
                 end
          else if z =? 110 then literal "null" JNull (c :: r)
          else if z =? 116 then literal "true" (JBool true) (c :: r)
          else if z =? 102 then literal "false" (JBool false) (c :: r)
          else match number (c :: r) with Some (d, r') => Some (JNumber d, r') | None => None end
      end
  end
with Elements (fuel : nat) (depth : Z) (s : list ascii) : option (list json * list ascii) :=
  match fuel with
  | O => None
  | S fuel' =>
      match Value fuel' depth s with
      | None => None
      | Some (v, r) =>
          match skipSpace r with
          | c :: r' =>
              if code c =? 44
              then match Elements fuel' depth r' with Some (l, r'') => Some (v :: l, r'') | None => None end
              else if code c =? 93 then Some ([v], r') else None
          | [] => None
          end
      end
  end
with Members (fuel : nat) (depth : Z) (s : list ascii) : option (list (list ascii * json) * list ascii) :=
  match fuel with
  | O => None
  | S fuel' =>
      match skipSpace s with
      | q :: r =>
          if negb (code q =? 34) then None
          else match stringBody r with
               | None => None
               | Some (k, r1) =>
                   match skipSpace r1 with
                   | c :: r2 =>
                       if negb (code c =? 58) then None
                       else match Value fuel' depth r2 with
                            | None => None
                            | Some (v, r3) =>
                                match skipSpace r3 with
                                | e :: r4 =>
                                    if code e =? 44
                                    then match Members fuel' depth r4 with
                                         | Some (o, r5) => Some ((k, v) :: o, r5)
                                         | None => None
                                         end
                                    else if code e =? 125 then Some ([(k, v)], r4) else None
                                | [] => None
                                end
                            end
                   | [] => None
                   end
               end
      | [] => None
      end
  end.

(** A call is made for a character at least, and at most three for each. *)
Definition parseFuel (s : list ascii) : nat := (3 * length s + 3)%nat.

(** [json.NewDecoder(r).Decode], which ignores what follows the first value, and
    [json.Unmarshal], which allows only space there *)
Definition Decode (s : list ascii) : option json := fst <$> Value (parseFuel s) 0 s.
Definition Unmarshal (s : list ascii) : option json :=
  match Value (parseFuel s) 0 s with
  | Some (v, r) => match skipSpace r with [] => Some v | _ => None end
  | None => None
  end.

(** ** Maps *)

(** The order of strings *)
Fixpoint chars_compare (a b : list ascii) : comparison :=
  match a, b with
  | [], [] => Eq
  | [], _ => Lt
  | _, [] => Gt
  | x :: a', y :: b' => match code x ?= code y with Eq => chars_compare a' b' | c => c end
  end.

(** [m[k] = v] on the sorted entries of a map *)
Fixpoint mapInsert {A} (k : list ascii) (v : A) (m : list (list ascii * A)) : list (list ascii * A) :=
  match m with
  | [] => [(k, v)]
  | (k', v') :: m' =>
      match chars_compare k k' with
      | Lt => (k, v) :: m
      | Eq => (k, v) :: m'
      | Gt => (k', v') :: mapInsert k v m'
      end
  end.
Definition mapOf {A} (entries : list (list ascii * A)) : list (list ascii * A) :=
  foldl (λ m kv, mapInsert (fst kv) (snd kv) m) [] entries.

(** The value decoded into an [any]: objects become maps. *)
Fixpoint generic (v : json) : json :=
  match v with
  | JArray l => JArray (map generic l)
  | JObject o => JObject (mapOf (map (λ kv, (fst kv, generic (snd kv))) o))
  | _ => v
  end.

Definition DecodeAny (s : list ascii) : option json := generic <$> Decode s.

(** ** Fields of structs *)

(** Keys are compared with the names of fields without regard to case; besides
    the letters, U+212A folds to k and U+017F to s. *)
Fixpoint foldName (s : list ascii) : list ascii :=
  match s with
  | [] => []
  | c :: s1 =>
      let plain := (if between 97 122 (code c) then char (code c - 32) else c) :: foldName s1 in
      match s1 with
      | b :: s2 =>
          if (code c =? 197) && (code b =? 191) then char 83 :: foldName s2
          else match s2 with
               | d :: s3 => if (code c =? 226) && (code b =? 132) && (code d =? 170) then char 75 :: foldName s3 else plain
               | [] => plain
               end
      | [] => plain
      end
  end.

(** The field of a struct a key is stored in: the one of that name, or the first
    whose name differs by case only. *)
Definition fieldOf (names : list string) (key : list ascii) : option string :=
  match find_first (λ n, bool_decide (String.list_ascii_of_string n = key)) names with
  | Some n => Some n
  | None => find_first (λ n, bool_decide (foldName (String.list_ascii_of_string n) = foldName key)) names
  end.

(** [CanonicalJSON], src/models/model_file.go 145-159 *)
Definition CanonicalJSON (v : json) : result (list Z) :=
  match DecodeAny (Marshal v) with
  | None => Err (ErrMsg "json")
  | Some generic => Ok (canonicalBytes generic)
  end.

(** Without [UseNumber] a number decodes to a float64; [float64_text] is the text
    Go writes for the float64 nearest to a number ([strconv.ParseFloat] and
    [json.Marshal]), or nothing when the number is out of range. *)
Class Float64Text := { float64_text : list ascii → option (list ascii) }.

Fixpoint floats `{Float64Text} (v : json) : option json :=
  match v with
  | JNumber s => JNumber <$> float64_text s
  | JArray l => JArray <$> (fix go l := match l with
                                      | [] => Some []
                                      | x :: l' => y ← floats x; ys ← go l'; Some (y :: ys)
                                      end) l
  | JObject o => JObject <$> (fix go o := match o with
                                        | [] => Some []
                                        | (k, x) :: o' => y ← floats x; ys ← go o'; Some ((k, y) :: ys)
                                        end) o
  | _ => Some v
  end.

(** *** Fields *)

(** The members of an object stored one after the other in the fields of a
    struct; keys without a field are skipped. *)
Fixpoint decodeFields {A} (names : list string) (set : string → json → A → option A) (o : list (list ascii * json))
    (a : A) : option A :=
  match o with
  | [] => Some a
  | (k, v) :: o' =>
      match fieldOf names k with
      | Some n => a' ← set n v a; decodeFields names set o' a'
      | None => decodeFields names set o' a
      end
  end.

(** A struct: null leaves it as it is. *)
Definition decodeStruct {A} (names : list string) (set : string → json → A → option A) (v : json) (a : A) : option A :=
  match v with
  | JNull => Some a
  | JObject o => decodeFields names set o a
  | _ => None
  end.

(** A string, a pointer to a string, an [any] and a map of them *)
Definition decodeString (v : json) (old : string) : option string :=
  match v with JNull => Some old | JString s => Some (String.string_of_list_ascii s) | _ => None end.
Definition decodeStringPtr (v : json) : option (option string) :=
  match v with JNull => Some None | JString s => Some (Some (String.string_of_list_ascii s)) | _ => None end.
Definition decodeMap (v : json) (old : option (list (list ascii * json))) : option (option (list (list ascii * json))) :=
  match v with
  | JNull => Some None
  | JObject o =>
      Some (Some (foldl (λ m kv, mapInsert (fst kv) (generic (snd kv)) m) (match old with Some m => m | None => [] end) o))
  | _ => None
  end.

Example decode_example :
  let text := String.list_ascii_of_string " {'b' : [1.50e3, -0, null],  'A':'x\u00e9\n' , 'b':true } tail" in
  DecodeAny (map (λ c, if code c =? 39 then quote else c) text) =
  Some (JObject [(String.list_ascii_of_string "A", JString [char 120; char 195; char 169; char 10]);
                 (String.list_ascii_of_string "b", JBool true)]).
Proof. vm_compute. reflexivity. Qed.

(** ** Decoding what was encoded *)

Lemma code_bound c : 0 ≤ code c < 256.
Proof. unfold code. pose proof (N_ascii_bounded c). lia. Qed.

(** Valid UTF-8 *)
Inductive utf8 : list ascii → Prop :=
| utf8_nil : utf8 []
| utf8_1 c s : code c < 128 → utf8 s → utf8 (c :: s)
| utf8_2 a b s : rune2 a b = true → utf8 s → utf8 (a :: b :: s)
| utf8_3 a b c s : rune3 a b c = true → utf8 s → utf8 (a :: b :: c :: s)
| utf8_4 a b c d s : rune4 a b c d = true → utf8 s → utf8 (a :: b :: c :: d :: s).

Lemma between_spec lo hi z : between lo hi z = true ↔ lo ≤ z ≤ hi.
Proof. unfold between. rewrite andb_true_iff, !Z.leb_le. lia. Qed.

Lemma tailByte_code c : tailByte c = true → 128 ≤ code c ≤ 191.
Proof. apply between_spec. Qed.

Lemma rune2_code a b : rune2 a b = true → 194 ≤ code a ≤ 223 ∧ 128 ≤ code b ≤ 191.
Proof. unfold rune2. rewrite andb_true_iff, between_spec. by intros [? ?%tailByte_code]. Qed.

Lemma rune3_code a b c : rune3 a b c = true → 224 ≤ code a ≤ 239 ∧ 128 ≤ code b ≤ 191 ∧ 128 ≤ code c ≤ 191.
Proof.
  unfold rune3. rewrite andb_true_iff. intros [H Hc%tailByte_code]. revert H.
  destruct (Z.eqb_spec (code a) 224); [rewrite between_spec; lia|].
  destruct (Z.eqb_spec (code a) 237); [rewrite between_spec; lia|].
  rewrite andb_true_iff, between_spec. intros [? ?%tailByte_code]. lia.
Qed.

Lemma rune4_code a b c d : rune4 a b c d = true →
  240 ≤ code a ≤ 244 ∧ 128 ≤ code b ≤ 191 ∧ 128 ≤ code c ≤ 191 ∧ 128 ≤ code d ≤ 191.
Proof.
  unfold rune4. rewrite !andb_true_iff. intros [[H Hc%tailByte_code] Hd%tailByte_code]. revert H.
  destruct (Z.eqb_spec (code a) 240); [rewrite between_spec; lia|].
  destruct (Z.eqb_spec (code a) 244); [rewrite between_spec; lia|].
  rewrite andb_true_iff, between_spec. intros [? ?%tailByte_code]. lia.
Qed.

(** A byte of a longer sequence is not taken for a quote, an escape or ASCII. *)
Lemma stringBody_high c s : 128 ≤ code c →
  stringBody (c :: s) =
    match s with
    | b :: s2 =>
        if rune2 c b then emit [c; b] (stringBody s2)
        else match s2 with
             | d :: s3 =>
                 if rune3 c b d then emit [c; b; d] (stringBody s3)
                 else match s3 with
                      | e :: s4 => if rune4 c b d e then emit [c; b; d; e] (stringBody s4)
                                   else emit replacement (stringBody s)
                      | [] => emit replacement (stringBody s)
                      end
             | [] => emit replacement (stringBody s)
             end
    | [] => emit replacement (stringBody s)
    end.
Proof.
  intros H. cbn [stringBody]. cbv zeta. rewrite (proj2 (Z.eqb_neq (code c) 34)) by lia.
  rewrite (proj2 (Z.ltb_ge (code c) 32)) by lia. rewrite (proj2 (Z.eqb_neq (code c) 92)) by lia.
  by rewrite (proj2 (Z.ltb_ge (code c) 128)) by lia.
Qed.

Lemma not_rune2 a b : 224 ≤ code a → rune2 a b = false.
Proof. intros H. destruct (rune2 a b) eqn:E; [|done]. apply rune2_code in E. lia. Qed.
Lemma not_rune3 a b c : 240 ≤ code a → rune3 a b c = false.
Proof. intros H. destruct (rune3 a b c) eqn:E; [|done]. apply rune3_code in E. lia. Qed.

Lemma stringBody_rune2 a b s : rune2 a b = true → stringBody (a :: b :: s) = emit [a; b] (stringBody s).
Proof. intros H. pose proof (rune2_code _ _ H). rewrite stringBody_high by lia. by rewrite H. Qed.

Lemma stringBody_rune3 a b c s : rune3 a b c = true → stringBody (a :: b :: c :: s) = emit [a; b; c] (stringBody s).
Proof.
  intros H. pose proof (rune3_code _ _ _ H). rewrite stringBody_high by lia.
  by rewrite not_rune2, H by lia.
Qed.

Lemma stringBody_rune4 a b c d s : rune4 a b c d = true →
  stringBody (a :: b :: c :: d :: s) = emit [a; b; c; d] (stringBody s).
Proof.
  intros H. pose proof (rune4_code _ _ _ _ H). rewrite stringBody_high by lia.
  by rewrite not_rune2, not_rune3, H by lia.
Qed.

(** Escaped ASCII characters are read back. *)
Lemma stringBody_canonical_ascii c X : code c < 128 → stringBody (escapeCanonical c ++ X) = emit [c] (stringBody X).
Proof. destruct c as [[] [] [] [] [] [] [] []]; intros H; try (vm_compute in H; discriminate); reflexivity. Qed.

Lemma stringBody_marshal_ascii c X : code c < 128 → stringBody (escapeMarshal c ++ X) = emit [c] (stringBody X).
Proof. destruct c as [[] [] [] [] [] [] [] []]; intros H; try (vm_compute in H; discriminate); reflexivity. Qed.

Lemma escapeCanonical_high c : 128 ≤ code c → escapeCanonical c = [c].
Proof. destruct c as [[] [] [] [] [] [] [] []]; intros H; try (vm_compute in H; by destruct H); reflexivity. Qed.

Lemma escapeMarshal_high c : 128 ≤ code c → escapeMarshal c = [c].
Proof. destruct c as [[] [] [] [] [] [] [] []]; intros H; try (vm_compute in H; by destruct H); reflexivity. Qed.

Lemma canonical_string_read s r : utf8 s → stringBody (flat_map escapeCanonical s ++ quote :: r) = Some (s, r).
Proof.
  induction 1 as [|c s Hc Hs IH|a b s H Hs IH|a b c s H Hs IH|a b c d s H Hs IH]; [done|..]; cbn [flat_map].
  - rewrite <- app_assoc, stringBody_canonical_ascii, IH by done. done.
  - pose proof (rune2_code _ _ H). rewrite !escapeCanonical_high by lia. cbn [app].
    by rewrite stringBody_rune2, IH.
  - pose proof (rune3_code _ _ _ H). rewrite !escapeCanonical_high by lia. cbn [app].
    by rewrite stringBody_rune3, IH.
  - pose proof (rune4_code _ _ _ _ H). rewrite !escapeCanonical_high by lia. cbn [app].
    by rewrite stringBody_rune4, IH.
Qed.

Lemma marshalChars_plain c s : code c ≠ 226 → marshalChars (c :: s) = escapeMarshal c ++ marshalChars s.
Proof.
  intros H. destruct s as [|d [|e s]]; [done|done|]. cbn [marshalChars].
  by rewrite (proj2 (Z.eqb_neq (code c) 226)) by lia.
Qed.

Lemma marshalChars_three a b c s :
  marshalChars (a :: b :: c :: s) =
    if (code a =? 226) && (code b =? 128) && ((code c =? 168) || (code c =? 169))
    then [backslash; char 117; char 50; char 48; char 50; hex_digit (code c mod 16)] ++ marshalChars s
    else escapeMarshal a ++ marshalChars (b :: c :: s).
Proof. reflexivity. Qed.

Lemma marshal_string_read s r : utf8 s → stringBody (marshalChars s ++ quote :: r) = Some (s, r).
Proof.
  induction 1 as [|c s Hc Hs IH|a b s H Hs IH|a b c s H Hs IH|a b c d s H Hs IH]; [done|..].
  - rewrite marshalChars_plain, <- app_assoc, stringBody_marshal_ascii, IH by lia. done.
  - pose proof (rune2_code _ _ H). rewrite !marshalChars_plain, !escapeMarshal_high by lia. cbn [app].
    by rewrite stringBody_rune2, IH.
  - pose proof (rune3_code _ _ _ H) as Hc. rewrite marshalChars_three.
    destruct ((code a =? 226) && (code b =? 128) && ((code c =? 168) || (code c =? 169))) eqn:E.
    + apply andb_true_iff in E as [[Ea%Z.eqb_eq Eb%Z.eqb_eq]%andb_true_iff Ec].
      assert (Hchar : ∀ x z, code x = z → x = char z).
      { intros x z <-. unfold char, code. by rewrite N2Z.id, ascii_N_embedding. }
      apply Hchar in Ea as ->. apply Hchar in Eb as ->.
      apply orb_true_iff in Ec as [Ec%Z.eqb_eq%Hchar|Ec%Z.eqb_eq%Hchar]; subst c; cbn [app];
        [transitivity (emit (encodeRune 8232) (Some (s, r)))|transitivity (emit (encodeRune 8233) (Some (s, r)))];
        solve [rewrite <- IH; reflexivity|reflexivity].
    + rewrite !marshalChars_plain, !escapeMarshal_high by lia. cbn [app]. by rewrite stringBody_rune3, IH.
  - pose proof (rune4_code _ _ _ _ H). rewrite !marshalChars_plain, !escapeMarshal_high by lia. cbn [app].
    by rewrite stringBody_rune4, IH.
Qed.

(** A number ends where no character of a number follows. *)
Definition numStop (r : list ascii) : Prop := match r with [] => True | c :: _ => numberChar c = false end.

Lemma numStop_codes c r : numStop (c :: r) →
  isDigit c = false ∧ code c ≠ 46 ∧ code c ≠ 101 ∧ code c ≠ 69 ∧ code c ≠ 43 ∧ code c ≠ 45.
Proof.
  unfold numStop, numberChar, isDigit, between. cbv zeta. intros H.
  rewrite !orb_false_iff, !Z.eqb_neq in H. destruct H as [[[[[H1 H2] H3] H4] H5] H6].
  repeat split; done.
Qed.

Lemma digits_app s rest : numStop rest →
  ∀ d r, digits s = (d, r) → digits (s ++ rest) = (d, r ++ rest).
Proof.
  intros Hr. induction s as [|c s IH]; intros d r; cbn [digits app].
  - intros [= <- <-]. destruct rest as [|x rest]; [done|]. apply numStop_codes in Hr as [Hx _]. simpl. by rewrite Hx.
  - destruct (isDigit c) eqn:Hc; [|intros [= <- <-]; done].
    destruct (digits s) as [d' r'] eqn:Hd. intros [= <- <-]. by rewrite (IH d' r' eq_refl).
Qed.

Lemma digits1_app s rest d r : numStop rest → digits1 s = Some (d, r) → digits1 (s ++ rest) = Some (d, r ++ rest).
Proof.
  intros Hr. unfold digits1. destruct (digits s) as [d' r'] eqn:Hd. rewrite (digits_app s rest Hr _ _ Hd).
  destruct d'; [done|]. by intros [= <- <-].
Qed.

Lemma intPart_app s rest d r : numStop rest → intPart s = Some (d, r) → intPart (s ++ rest) = Some (d, r ++ rest).
Proof.
  intros Hr. destruct s as [|c s]; [done|]. simpl. destruct (code c =? 48); [by intros [= <- <-]|].
  by apply (digits1_app (c :: s)).
Qed.

Lemma fraction_app s rest d r : numStop rest → fraction s = Some (d, r) → fraction (s ++ rest) = Some (d, r ++ rest).
Proof.
  intros Hr. destruct s as [|c s]; simpl.
  - intros [= <- <-]. destruct rest as [|x rest]; [done|]. apply numStop_codes in Hr as (_ & Hx & _). simpl.
    by rewrite (proj2 (Z.eqb_neq (code x) 46)) by lia.
  - destruct (code c =? 46); [|by intros [= <- <-]].
    destruct (digits1 s) as [[d' r']|] eqn:Hd; [|done]. intros [= <- <-]. by rewrite (digits1_app _ _ _ _ Hr Hd).
Qed.

Lemma exponent_app s rest d r : numStop rest → exponent s = Some (d, r) → exponent (s ++ rest) = Some (d, r ++ rest).
Proof.
  intros Hr. destruct s as [|c s]; cbn [exponent app].
  - intros [= <- <-]. destruct rest as [|x rest]; [done|]. apply numStop_codes in Hr as (_ & _ & Hx & Hy & _). simpl.
    rewrite (proj2 (Z.eqb_neq (code x) 101)) by lia. by rewrite (proj2 (Z.eqb_neq (code x) 69)) by lia.
  - destruct ((code c =? 101) || (code c =? 69)); [|by intros [= <- <-]].
    destruct s as [|g s]; [done|]. cbn [app]. destruct ((code g =? 43) || (code g =? 45)).
    + destruct (digits1 s) as [[d' r']|] eqn:Hd; [|done]. intros [= <- <-]. by rewrite (digits1_app _ _ _ _ Hr Hd).
    + destruct (digits1 (g :: s)) as [[d' r']|] eqn:Hd; [|done]. intros [= <- <-].
      change (g :: s ++ rest) with ((g :: s) ++ rest). by rewrite (digits1_app _ _ _ _ Hr Hd).
Qed.

Lemma number_app s rest d r : numStop rest → number s = Some (d, r) → number (s ++ rest) = Some (d, r ++ rest).
Proof.
  intros Hr. unfold number. destruct s as [|c s]; [done|]. cbn [app].
  destruct (code c =? 45).
  - destruct (intPart s) as [[i s1]|] eqn:Hi; [|done]. rewrite (intPart_app _ _ _ _ Hr Hi).
    destruct (fraction s1) as [[f s2]|] eqn:Hf; [|done]. rewrite (fraction_app _ _ _ _ Hr Hf).
    destruct (exponent s2) as [[e s3]|] eqn:He; [|done]. rewrite (exponent_app _ _ _ _ Hr He). by intros [= <- <-].
  - destruct (intPart (c :: s)) as [[i s1]|] eqn:Hi; [|done].
    change (c :: s ++ rest) with ((c :: s) ++ rest). rewrite (intPart_app _ _ _ _ Hr Hi).
    destruct (fraction s1) as [[f s2]|] eqn:Hf; [|done]. rewrite (fraction_app _ _ _ _ Hr Hf).
    destruct (exponent s2) as [[e s3]|] eqn:He; [|done]. rewrite (exponent_app _ _ _ _ Hr He). by intros [= <- <-].
Qed.

Lemma number_head c s x : number (c :: s) = Some x → code c = 45 ∨ 48 ≤ code c ≤ 57.
Proof.
  unfold number. destruct (Z.eqb_spec (code c) 45); [by left|]. intros H. right.
  unfold intPart in H. destruct (Z.eqb_spec (code c) 48); [lia|].
  unfold digits1 in H. cbn [digits] in H. destruct (isDigit c) eqn:Hd; [by apply between_spec in Hd|done].
Qed.

(** ** Values *)

(** Values a decoder produces: numbers of the grammar, valid UTF-8. *)
Inductive readable : json → Prop :=
| readable_null : readable JNull
| readable_bool b : readable (JBool b)
| readable_number s : number s = Some (s, []) → readable (JNumber s)
| readable_string s : utf8 s → readable (JString s)
| readable_array l : Forall readable l → readable (JArray l)
| readable_object o : Forall (λ kv, utf8 (fst kv) ∧ readable (snd kv)) o → readable (JObject o).

Fixpoint nesting (v : json) : Z :=
  match v with
  | JArray l => 1 + foldr (λ x n, Z.max (nesting x) n) 0 l
  | JObject o => 1 + foldr (λ kv n, Z.max (nesting (snd kv)) n) 0 o
  | _ => 0
  end.

Lemma nesting_nonneg v : 0 ≤ nesting v.
Proof.
  assert (H : ∀ A (f : A → Z) l, 0 ≤ foldr (λ x n, Z.max (f x) n) 0 l) by (induction l; simpl; lia).
  destruct v as [| | | |l|o]; simpl; [lia..| |].
  - specialize (H _ nesting l). lia.
  - specialize (H _ (λ kv, nesting (snd kv)) o). simpl in H. lia.
Qed.

Lemma foldr_max_elem {A} (f : A → Z) l x : x ∈ l → f x ≤ foldr (λ x n, Z.max (f x) n) 0 l.
Proof. induction l as [|y l IH]; [set_solver|]. intros [->|Hin]%elem_of_cons; simpl; [lia|]. specialize (IH Hin). lia. Qed.

(** The calls a value needs. *)
Fixpoint calls (v : json) : nat :=
  match v with
  | JArray l => S (foldr (λ x n, (S (calls x) + n)%nat) 0%nat l)
  | JObject o => S (foldr (λ kv n, (S (calls (snd kv)) + n)%nat) 0%nat o)
  | _ => 1%nat
  end.

(** An encoder of the shape of both of [Json.v]. *)
Definition writeWith (str : list ascii → list ascii) : json → list ascii :=
  fix go (v : json) : list ascii :=
    match v with
    | JNull => String.list_ascii_of_string "null"
    | JBool b => String.list_ascii_of_string (if b then "true" else "false")
    | JNumber s => s
    | JString s => str s
    | JArray l => char 91 :: separated go l ++ [char 93]
    | JObject o => char 123 :: separated (λ kv, str (fst kv) ++ [char 58] ++ go (snd kv)) o ++ [char 125]
    end.

Lemma writeCanonicalValue_with v : writeCanonicalValue v = writeWith writeCanonicalString v.
Proof. reflexivity. Qed.
Lemma Marshal_with v : Marshal v = writeWith marshalString v.
Proof. reflexivity. Qed.

Lemma delimited_numStop r : delimited r → numStop r.
Proof. destruct r as [|c r]; [done|]. by intros [->|[->| ->]]. Qed.

Lemma expect_app w r : expect w (w ++ r) = Some r.
Proof. induction w as [|x w IH]; [done|]. simpl. by rewrite Ascii.eqb_refl. Qed.

Section read.
Context (str : list ascii → list ascii).
Context (str_read : ∀ s r, utf8 s → ∃ t, str s ++ r = quote :: t ∧ stringBody t = Some (s, r)).

Notation w := (writeWith str).

Lemma str_quote s : utf8 s → ∃ t, str s = quote :: t.
Proof.
  intros H. destruct (str_read s [] H) as (t & Ht & _). rewrite app_nil_r in Ht. by exists t.
Qed.

(** A value does not start with a space or a closing bracket. *)
Lemma write_start v : readable v → ∃ c t, w v = c :: t ∧ isSpace c = false ∧ code c ≠ 93 ∧ code c ≠ 125.
Proof.
  destruct 1 as [| [] |[|c s] Hs|s Hs| |];
    try (do 2 eexists; split; [reflexivity|]; split; [reflexivity|]; split; vm_compute; discriminate).
  - done.
  - exists c, s. split; [done|]. apply number_head in Hs. unfold isSpace. cbv zeta.
    rewrite !orb_false_iff, !Z.eqb_neq. lia.
  - destruct (str_quote s Hs) as [t Ht]. exists quote, t. split; [done|]. split; [done|]. split; vm_compute; discriminate.
Qed.

Lemma skipSpace_start v r : readable v → skipSpace (w v ++ r) = w v ++ r.
Proof. intros Hv. destruct (write_start v Hv) as (c & t & -> & Hc & _). simpl. by rewrite Hc. Qed.

Definition reads (v : json) : Prop :=
  ∀ fuel depth r, (calls v ≤ fuel)%nat → depth + nesting v ≤ maxNestingDepth → delimited r →
  Value fuel depth (w v ++ r) = Some (v, r).

Lemma Elements_read l : ∀ x fuel depth r,
  Forall readable (x :: l) → Forall reads (x :: l) →
  (foldr (λ x n, (S (calls x) + n)%nat) 0%nat (x :: l) ≤ fuel)%nat →
  (∀ y, y ∈ x :: l → depth + nesting y ≤ maxNestingDepth) →
  Elements fuel depth (w x ++ sepLoop w false l ++ char 93 :: r) = Some (x :: l, r).
Proof.
  induction l as [|y l IH]; intros x fuel depth r Hg Hr Hf Hn; (destruct fuel as [|fuel]; [simpl in Hf; lia|]);
    apply Forall_cons in Hr as [Hx Hr]; cbn [Elements].
  - rewrite (Hx fuel depth); [|simpl in Hf; lia|apply Hn; set_solver|simpl; tauto]. reflexivity.
  - rewrite (Hx fuel depth); [|simpl in Hf; lia|apply Hn; set_solver|simpl; tauto].
    cbn [sepLoop app]. rewrite <- app_assoc. cbn [skipSpace]. change (isSpace (char 44)) with false. cbv iota beta.
    change (code (char 44) =? 44) with true. cbv iota.
    rewrite IH; [done|by apply Forall_cons in Hg as [_ ?]|done|simpl in *; lia|].
    intros z Hz. apply Hn. set_solver.
Qed.

Notation wm := (λ kv : list ascii * json, str (fst kv) ++ [char 58] ++ w (snd kv)).

Lemma Members_read o : ∀ kv fuel depth r,
  Forall (λ kv, utf8 (fst kv) ∧ readable (snd kv)) (kv :: o) → Forall (λ kv, reads (snd kv)) (kv :: o) →
  (foldr (λ kv n, (S (calls (snd kv)) + n)%nat) 0%nat (kv :: o) ≤ fuel)%nat →
  (∀ y, y ∈ kv :: o → depth + nesting (snd y) ≤ maxNestingDepth) →
  Members fuel depth (wm kv ++ sepLoop wm false o ++ char 125 :: r) = Some (kv :: o, r).
Proof.
  induction o as [|kv' o IH]; intros [k x] fuel depth r Hg Hr Hf Hn; (destruct fuel as [|fuel]; [simpl in Hf; lia|]);
    apply Forall_cons in Hr as [Hx Hr]; apply Forall_cons in Hg as [[Hk _] Hg]; cbn [fst snd] in *; cbn [Members].
  - rewrite <- !app_assoc. destruct (str_read k ([char 58] ++ w x ++ sepLoop wm false [] ++ char 125 :: r) Hk) as (t & Ht & Hb).
    rewrite Ht. cbn [skipSpace]. change (isSpace quote) with false. cbv iota. change (negb (code quote =? 34)) with false.
    cbv iota. rewrite Hb. cbn [app skipSpace]. change (isSpace (char 58)) with false. cbv iota.
    change (negb (code (char 58) =? 58)) with false. cbv iota. cbn [sepLoop app].
    rewrite (Hx fuel depth); [|simpl in Hf; lia|apply (Hn (k, x)); set_solver|simpl; tauto]. reflexivity.
  - rewrite <- !app_assoc.
    destruct (str_read k ([char 58] ++ w x ++ sepLoop wm false (kv' :: o) ++ char 125 :: r) Hk) as (t & Ht & Hb).
    rewrite Ht. cbn [skipSpace]. change (isSpace quote) with false. cbv iota. change (negb (code quote =? 34)) with false.
    cbv iota. rewrite Hb. cbn [app skipSpace]. change (isSpace (char 58)) with false. cbv iota.
    change (negb (code (char 58) =? 58)) with false. cbv iota. cbn [sepLoop app].
    rewrite (Hx fuel depth); [|simpl in Hf; lia|apply (Hn (k, x)); set_solver|simpl; tauto].
    cbn [skipSpace]. change (isSpace (char 44)) with false. cbv iota. change (code (char 44) =? 44) with true. cbv iota.
    rewrite <- (app_assoc _ (sepLoop _ false o)).
    rewrite IH; [done|done|done|simpl in *; lia|]. intros z Hz. apply Hn. set_solver.
Qed.

Lemma write_object kv o r :
  w (JObject (kv :: o)) ++ r = char 123 :: wm kv ++ sepLoop wm false o ++ char 125 :: r.
Proof.
  change (w (JObject (kv :: o))) with (char 123 :: (wm kv ++ sepLoop wm false o) ++ [char 125]).
  cbn [app]. by rewrite <- !app_assoc.
Qed.

Lemma Value_read v : readable v → reads v.
Proof.
  induction v as [|b|s|s|l IH|o IH] using json_nested; intros Hv fuel depth r Hf Hn Hr;
    (destruct fuel as [|fuel]; [simpl in Hf; lia|]).
  - reflexivity.
  - by destruct b.
  - inversion Hv as [| |? Hs| | |]; subst. destruct s as [|c s]; [done|].
    pose proof (number_app _ r _ _ (delimited_numStop r Hr) Hs) as Ha. apply number_head in Hs.
    cbn [writeWith Value app skipSpace]. cbn [app] in Ha. unfold isSpace. cbv zeta.
    assert (Hk : ∀ k, k ∈ [32; 9; 10; 13; 34; 91; 123; 110; 116; 102] → (code c =? k) = false).
    { intros k Hk. apply Z.eqb_neq. repeat (apply elem_of_cons in Hk as [->|Hk]; [lia|]). by apply elem_of_nil in Hk. }
    rewrite !Hk by set_solver. cbn [orb]. rewrite !Hk by set_solver. by rewrite Ha.
  - inversion Hv as [| | |? Hs| |]; subst. destruct (str_read s r Hs) as (t & Ht & Hb).
    cbn [writeWith]. rewrite Ht. cbn [Value skipSpace]. change (isSpace quote) with false. cbv iota zeta.
    change (code quote =? 34) with true. cbv iota. by rewrite Hb.
  - inversion Hv as [| | | |? Hl|]; subst. cbn [writeWith Value app skipSpace].
    change (isSpace (char 91)) with false. cbv iota zeta. change (code (char 91) =? 34) with false.
    change (code (char 91) =? 91) with true. cbv iota. simpl nesting in Hn.
    rewrite (proj2 (Z.leb_gt maxNestingDepth depth)).
    2: { destruct l; simpl in Hn; [lia|]. pose proof (nesting_nonneg j). lia. }
    destruct l as [|x l]; [reflexivity|].
    change (separated w (x :: l)) with (w x ++ sepLoop w false l). rewrite <- !app_assoc. cbn [app].
    pose proof (Forall_inv Hl) as Hx. rewrite skipSpace_start by done.
    destruct (write_start x Hx) as (c & t & Hc & _ & Hne & _). rewrite Hc at 1. cbn [app].
    rewrite (proj2 (Z.eqb_neq (code c) 93)) by done.
    rewrite Elements_read; [done|done| |simpl in *; lia|].
    + rewrite Forall_forall in IH, Hl |- *. intros y Hy. by apply IH, Hl.
    + intros y Hy. pose proof (foldr_max_elem nesting (x :: l) y Hy). lia.
  - inversion Hv as [| | | | |? Ho]; subst. simpl nesting in Hn.
    assert (Hd : maxNestingDepth <=? depth = false).
    { apply Z.leb_gt. destruct o; simpl in Hn; [lia|]. pose proof (nesting_nonneg (snd p)). lia. }
    destruct o as [|kv o].
    { cbn [Value writeWith app separated skipSpace]. change (isSpace (char 123)) with false. cbv iota zeta.
      change (code (char 123) =? 34) with false. change (code (char 123) =? 91) with false.
      change (code (char 123) =? 123) with true. cbv iota. by rewrite Hd. }
    rewrite write_object. cbn [Value skipSpace].
    change (isSpace (char 123)) with false. cbv iota zeta. change (code (char 123) =? 34) with false.
    change (code (char 123) =? 91) with false. change (code (char 123) =? 123) with true. cbv iota. rewrite Hd.
    destruct (str_quote (fst kv)) as [t Ht]; [exact (proj1 (Forall_inv Ho))|].
    assert (Hs : skipSpace (wm kv ++ sepLoop wm false o ++ char 125 :: r) = quote :: t ++ ([char 58] ++ w (snd kv)) ++ sepLoop wm false o ++ char 125 :: r).
    { rewrite Ht. rewrite <- app_assoc. reflexivity. }
    rewrite Hs. change (code quote =? 125) with false. cbv iota.
    rewrite Members_read; [done|done| |simpl in *; lia|].
    + rewrite Forall_forall in IH, Ho |- *. intros y Hy. by apply IH, Ho.
    + intros y Hy. pose proof (foldr_max_elem (λ kv, nesting (snd kv)) (kv :: o) y Hy). simpl in *. lia.
Qed.
End read.

(** The fuel is enough. *)
Lemma calls_bound str v : (∀ s, utf8 s → (1 ≤ length (str s))%nat) → readable v →
  (calls v ≤ 2 * length (writeWith str v))%nat.
Proof.
  intros Hstr. assert (Hsep : ∀ A (f : A → list ascii) (n : A → nat) l first,
    Forall (λ x, (n x ≤ 2 * length (f x))%nat) l →
    (foldr (λ x m, (S (n x) + m)%nat) 0%nat l ≤ 2 * length (sepLoop f first l) + 1)%nat).
  { intros A f n l. induction l as [|x l IH]; intros first Hl; [simpl; lia|].
    apply Forall_cons in Hl as [Hx Hl]. cbn [foldr sepLoop]. specialize (IH false Hl). rewrite !length_app.
    assert (Hmore : l = [] ∨ (foldr (λ x m, (S (n x) + m)%nat) 0%nat l ≤ 2 * length (sepLoop f false l))%nat).
    { destruct l as [|y l]; [by left|right]. clear IH. revert Hl. generalize (y :: l). clear.
      induction l as [|z l IH]; intros Hl; [done|]. apply Forall_cons in Hl as [Hz Hl]. cbn [foldr sepLoop].
      rewrite !length_app. specialize (IH Hl). simpl length at 1. lia. }
    destruct Hmore as [->|Hmore]; simpl in *; lia. }
  induction v as [|b|s|s|l IH|o IH] using json_nested; intros Hv; inversion Hv; subst.
  - simpl. lia.
  - destruct b; simpl; lia.
  - destruct s; [done|simpl; lia].
  - simpl. specialize (Hstr s). naive_solver lia.
  - assert (Hl : Forall (λ x, (calls x ≤ 2 * length (writeWith str x))%nat) l).
    { rewrite Forall_forall in *. intros x Hx. auto. }
    specialize (Hsep _ (writeWith str) calls l true Hl).
    change (S (foldr (λ x m, (S (calls x) + m)%nat) 0%nat l) ≤
      2 * length (char 91 :: sepLoop (writeWith str) true l ++ [char 93]))%nat.
    rewrite length_cons, length_app. lia.
  - assert (Hl : Forall (λ kv, (calls (snd kv) ≤ 2 * length (str (fst kv) ++ [char 58] ++ writeWith str (snd kv)))%nat) o).
    { rewrite Forall_forall in *. intros x Hx. rewrite !length_app. specialize (IH x Hx).
      destruct (H0 x Hx) as [_ Hr]. specialize (IH Hr). lia. }
    specialize (Hsep _ (λ kv, str (fst kv) ++ [char 58] ++ writeWith str (snd kv)) (λ kv, calls (snd kv)) o true Hl).
    change (S (foldr (λ kv m, (S (calls (snd kv)) + m)%nat) 0%nat o) ≤
      2 * length (char 123 :: sepLoop (λ kv, str (fst kv) ++ [char 58] ++ writeWith str (snd kv)) true o ++ [char 125]))%nat.
    rewrite length_cons, length_app. cbv beta in Hsep. lia.
Qed.

(** Keys in strictly ascending order, as in a map *)
Definition key_lt (a b : list ascii) : Prop := chars_compare a b = Lt.
Inductive sorted_maps : json → Prop :=
| sorted_null : sorted_maps JNull
| sorted_bool b : sorted_maps (JBool b)
| sorted_number s : sorted_maps (JNumber s)
| sorted_string s : sorted_maps (JString s)
| sorted_array l : Forall sorted_maps l → sorted_maps (JArray l)
| sorted_object o : StronglySorted key_lt (map fst o) → Forall (λ kv, sorted_maps (snd kv)) o → sorted_maps (JObject o).

Lemma chars_compare_antisym a b : chars_compare b a = CompOpp (chars_compare a b).
Proof.
  revert b. induction a as [|x a IH]; intros [|y b]; simpl; try done.
  rewrite (Z.compare_antisym (code x) (code y)). destruct (code x ?= code y); simpl; auto.
Qed.

Lemma mapInsert_last {A} k (v : A) m : Forall (λ kv, key_lt (fst kv) k) m → mapInsert k v m = m ++ [(k, v)].
Proof.
  induction 1 as [|[k' v'] m H Hm IH]; [done|]. simpl in *. unfold key_lt in H.
  rewrite chars_compare_antisym, H. simpl. by rewrite IH.
Qed.

Lemma mapOf_sorted {A} (o : list (list ascii * A)) : StronglySorted key_lt (map fst o) → mapOf o = o.
Proof.
  intros Hs. unfold mapOf. assert (H : ∀ done_ rest : list (list ascii * A),
    StronglySorted key_lt (map fst (done_ ++ rest)) →
    foldl (λ m kv, mapInsert (fst kv) (snd kv) m) done_ rest = done_ ++ rest).
  { intros done_ rest. revert done_. induction rest as [|[k v] rest IH]; intros done_ Hd; simpl; [by rewrite app_nil_r|].
    rewrite mapInsert_last.
    - rewrite IH; [by rewrite <- app_assoc|by rewrite <- app_assoc].
    - rewrite map_app in Hd. apply StronglySorted_app in Hd as (Hlt & _ & _).
      apply Forall_forall. intros kv Hin. apply (Hlt (fst kv) k).
      + apply list_elem_of_In, in_map, list_elem_of_In, Hin.
      + left. }
  by apply (H []).
Qed.

Lemma generic_sorted v : sorted_maps v → generic v = v.
Proof.
  induction v as [|b|s|s|l IH|o IH] using json_nested; intros Hv; inversion Hv; subst; cbn [generic]; try done.
  - f_equal. rewrite <- (map_id l) at 2. apply map_ext_Forall. rewrite Forall_forall in *. auto.
  - f_equal. rewrite (map_ext_Forall _ id).
    + rewrite map_id. by apply mapOf_sorted.
    + rewrite Forall_forall in *. intros [k x] Hx. simpl. f_equal. apply (IH (k, x) Hx). by apply (H1 (k, x)).
Qed.

Lemma canonical_str_read s r : utf8 s → ∃ t, writeCanonicalString s ++ r = quote :: t ∧ stringBody t = Some (s, r).
Proof.
  intros Hs. eexists. unfold writeCanonicalString. cbn [app]. split; [reflexivity|].
  rewrite <- app_assoc. by apply canonical_string_read.
Qed.

Lemma marshal_str_read s r : utf8 s → ∃ t, marshalString s ++ r = quote :: t ∧ stringBody t = Some (s, r).
Proof.
  intros Hs. eexists. unfold marshalString. cbn [app]. split; [reflexivity|].
  rewrite <- app_assoc. by apply marshal_string_read.
Qed.

Lemma Value_written str v r :
  (∀ s r, utf8 s → ∃ t, str s ++ r = quote :: t ∧ stringBody t = Some (s, r)) →
  readable v → nesting v ≤ maxNestingDepth → delimited r →
  Value (parseFuel (writeWith str v ++ r)) 0 (writeWith str v ++ r) = Some (v, r).
Proof.
  intros Hstr Hv Hn Hr. apply (Value_read str Hstr v Hv); [|lia|done].
  assert (Hc : (calls v ≤ 2 * length (writeWith str v))%nat).
  { apply calls_bound; [|done]. intros s Hs. destruct (str_quote str Hstr s Hs) as [t ->]. simpl. lia. }
  unfold parseFuel. rewrite length_app. lia.
Qed.

(** C23 (roundtrip): a value of valid UTF-8 strings and numbers, with objects in the order of
    their keys and within the depth the decoder allows, survives both encodings: decoding
    what the standard encoder or the canonical writer wrote gives back the value, and its
    canonical bytes are what [CanonicalJSON] computes from it. *)
Theorem json_roundtrip v : readable v → sorted_maps v → nesting v ≤ maxNestingDepth →
  DecodeAny (Marshal v) = Some v ∧ Unmarshal (Marshal v) = Some v ∧
  Unmarshal (writeCanonicalValue v) = Some v ∧ CanonicalJSON v = Ok (canonicalBytes v).
Proof.
  intros Hv Hs Hn.
  assert (HM : Value (parseFuel (Marshal v)) 0 (Marshal v) = Some (v, [])).
  { rewrite <- (app_nil_r (Marshal v)). rewrite Marshal_with. by apply Value_written; [apply marshal_str_read|..]. }
  assert (HC : Value (parseFuel (writeCanonicalValue v)) 0 (writeCanonicalValue v) = Some (v, [])).
  { rewrite <- (app_nil_r (writeCanonicalValue v)). rewrite writeCanonicalValue_with.
    by apply Value_written; [apply canonical_str_read|..]. }
  assert (HD : DecodeAny (Marshal v) = Some v) by (unfold DecodeAny, Decode; rewrite HM; simpl; by rewrite generic_sorted).
  unfold Unmarshal, CanonicalJSON. by rewrite HM, HC, HD.
Qed.

(** ** Witness *)

(** An object with an escaped string, a negative exponent and nested members. *)
Definition demo_json : json :=
  JObject [(String.list_ascii_of_string "a<b", JArray [JNumber (String.list_ascii_of_string "-1.5e-3"); JNull; JBool true]); (String.list_ascii_of_string "k", JString (String.list_ascii_of_string "x&y"))].

Lemma json_roundtrip_witness :
  DecodeAny (Marshal demo_json) = Some demo_json ∧ Unmarshal (Marshal demo_json) = Some demo_json ∧
  Unmarshal (writeCanonicalValue demo_json) = Some demo_json ∧ CanonicalJSON demo_json = Ok (canonicalBytes demo_json).
Proof.
  apply (json_roundtrip demo_json).
  - repeat constructor; vm_compute; reflexivity.
  - repeat constructor; vm_compute; reflexivity.
  - vm_compute. discriminate.
Defined.

End JsonDecode.
