(* ===== verification/JsonRead.v ===== *)
(** * What the JSON decoder produces

    Every value the decoder of [JsonDecode.v] returns is readable (valid UTF-8, numbers of
    the grammar), is nested as deeply as allowed only, and after conversion to maps has
    its keys in order; so it survives encoding and decoding. *)

From Stdlib Require Import Ascii.
From stdpp Require Import sorting.
From S2P Require Import Prelude Mac Json JsonDecode.

Module JsonRead.
Import Mac Json JsonDecode.

(** ** Strings *)

Lemma code_char z : 0 ≤ z < 256 → code (char z) = z.
Proof. intros H. unfold code, char. rewrite N_ascii_embedding by lia. lia. Qed.

Lemma hex4_range a b c d r : hex4 a b c d = Some r → 0 ≤ r < 65536.
Proof.
  assert (H : ∀ x v, hex_value x = Some v → 0 ≤ v < 16).
  { intros x v. unfold hex_value. cbv zeta. repeat case_match; try done; intros [= <-]; simplify_bool; lia. }
  unfold hex4. destruct (hex_value a) eqn:Ha; [|done]. destruct (hex_value b) eqn:Hb; [|done].
  destruct (hex_value c) eqn:Hc; [|done]. destruct (hex_value d) eqn:Hd; [|done]. intros [= <-].
  apply H in Ha, Hb, Hc, Hd. lia.
Qed.

Lemma tail_of z : 0 ≤ z < 64 → tailByte (char (128 + z)) = true.
Proof. intros H. apply between_spec. rewrite code_char by lia. lia. Qed.

Lemma encodeRune_utf8 z s : 0 ≤ z ≤ 1114111 → surrogate z = false → utf8 s → utf8 (encodeRune z ++ s).
Proof.
  intros Hz Hsur Hs. unfold surrogate, between in Hsur. apply andb_false_iff in Hsur. rewrite !Z.leb_gt in Hsur.
  unfold encodeRune. destruct (Z.ltb_spec z 128); [apply utf8_1; [rewrite code_char by lia; lia|done]|].
  pose proof (Z.mod_pos_bound z 64 ltac:(lia)) as Hm.
  pose proof (Z.div_mod z 64 ltac:(lia)) as Hd.
  destruct (Z.ltb_spec z 2048).
  { apply utf8_2; [|done]. unfold rune2. rewrite tail_of by lia. rewrite andb_true_r. apply between_spec. rewrite code_char; lia. }
  pose proof (Z.mod_pos_bound (z / 64) 64 ltac:(lia)) as Hm2.
  pose proof (Z.div_mod (z / 64) 64 ltac:(lia)) as Hd2.
  assert (H64 : z / 64 / 64 = z / 4096) by (rewrite Z.div_div by lia; done).
  destruct (Z.ltb_spec z 65536).
  { apply utf8_3; [|done]. unfold rune3. rewrite !tail_of, andb_true_r by lia. rewrite !code_char by lia.
    destruct (Z.eqb_spec (224 + z / 4096) 224); [apply between_spec; lia|].
    destruct (Z.eqb_spec (224 + z / 4096) 237); [apply between_spec; lia|].
    rewrite andb_true_r. apply between_spec. lia. }
  pose proof (Z.mod_pos_bound (z / 4096) 64 ltac:(lia)) as Hm3.
  pose proof (Z.div_mod (z / 4096) 64 ltac:(lia)) as Hd3.
  assert (H4096 : z / 4096 / 64 = z / 262144) by (rewrite Z.div_div by lia; done).
  apply utf8_4; [|done]. unfold rune4. rewrite !tail_of, !andb_true_r by lia. rewrite !code_char by lia.
  destruct (Z.eqb_spec (240 + z / 262144) 240); [apply between_spec; lia|].
  destruct (Z.eqb_spec (240 + z / 262144) 244); [apply between_spec; lia|].
  apply between_spec. lia.
Qed.

Lemma emit_utf8 (out : list ascii) rest t r : emit out rest = Some (t, r) →
  (∀ t' r', rest = Some (t', r') → utf8 t') → (∀ t', utf8 t' → utf8 (out ++ t')) → utf8 t.
Proof. unfold emit. destruct rest as [[t' r']|]; [|done]. intros [= <- <-] Hr Hout. apply Hout, (Hr t' r'). done. Qed.

Lemma replacement_utf8 t : utf8 t → utf8 (replacement ++ t).
Proof. by apply encodeRune_utf8. Qed.

Lemma simpleEscape_low e x : simpleEscape e = Some x → code x < 128.
Proof.
  unfold simpleEscape. cbv zeta. destruct ((code e =? 34) || (code e =? 92) || (code e =? 47)) eqn:H.
  - intros [= <-]. rewrite !orb_true_iff, !Z.eqb_eq in H. lia.
  - repeat (match goal with |- context [if ?b then _ else _] => destruct b end; [intros [= <-]; rewrite code_char by lia; lia|]). done.
Qed.

(** What a string denotes is valid UTF-8, whatever its bytes were. *)
Lemma stringBody_utf8 n : ∀ s t r, (length s ≤ n)%nat → stringBody s = Some (t, r) → utf8 t.
Proof.
  induction n as [|n IH]; intros s t r Hn H; destruct s as [|c s1]; try done; simpl in Hn; [lia|].
  cbn [stringBody] in H. cbv zeta in H.
  destruct (code c =? 34); [injection H as <- <-; constructor|].
  destruct (code c <? 32); [done|].
  destruct (code c =? 92) eqn:H92.
  - destruct s1 as [|e s2]; [done|]. simpl in Hn. destruct (code e =? 117).
    + destruct s2 as [|h1 [|h2 [|h3 [|h4 s3]]]]; try done. simpl in Hn.
      destruct (hex4 h1 h2 h3 h4) as [x|] eqn:Hx; [|done]. apply hex4_range in Hx.
      assert (Hrep : ∀ t r, emit replacement (stringBody s3) = Some (t, r) → utf8 t).
      { intros t' r' Hr. eapply emit_utf8; [exact Hr|intros ? ?; apply IH; lia|apply replacement_utf8]. }
      destruct (surrogate x) eqn:Hsur.
      * destruct s3 as [|b' [|u' [|l1 [|l2 [|l3 [|l4 s4]]]]]]; try by eapply Hrep. simpl in Hn.
        destruct (hex4 l1 l2 l3 l4) as [x'|] eqn:Hx'; [|by eapply Hrep]. apply hex4_range in Hx'.
        destruct ((code b' =? 92) && (code u' =? 117) && between 55296 56319 x && between 56320 57343 x') eqn:Hb; [|by eapply Hrep].
        apply andb_true_iff in Hb as [[_ Hb1%between_spec]%andb_true_iff Hb2%between_spec].
        eapply emit_utf8; [exact H|intros ? ?; apply IH; lia|]. intros t' Ht'. apply encodeRune_utf8; [lia| |done].
        unfold surrogate, between. apply andb_false_iff. right. apply Z.leb_gt. lia.
      * eapply emit_utf8; [exact H|intros ? ?; apply IH; lia|]. intros t' Ht'. apply encodeRune_utf8; [lia|done|done].
    + destruct (simpleEscape e) as [x|] eqn:Hx; [|done]. eapply emit_utf8; [exact H|intros ? ?; apply IH; lia|].
      intros t' Ht'. apply utf8_1; [by eapply simpleEscape_low|done].
  - destruct (Z.ltb_spec (code c) 128) as [Hc|Hc].
    { eapply emit_utf8; [exact H|intros ? ?; apply IH; lia|]. intros t' Ht'. by apply utf8_1. }
    assert (Hrep : ∀ t r, emit replacement (stringBody s1) = Some (t, r) → utf8 t).
    { intros t' r' Hr. eapply emit_utf8; [exact Hr|intros ? ?; apply IH; lia|apply replacement_utf8]. }
    destruct s1 as [|b s2]; [by eapply Hrep|]. simpl in Hn. destruct (rune2 c b) eqn:H2.
    { eapply emit_utf8; [exact H|intros ? ?; apply IH; lia|]. intros t' Ht'. by apply utf8_2. }
    destruct s2 as [|d s3]; [by eapply Hrep|]. simpl in Hn. destruct (rune3 c b d) eqn:H3.
    { eapply emit_utf8; [exact H|intros ? ?; apply IH; lia|]. intros t' Ht'. by apply utf8_3. }
    destruct s3 as [|e s4]; [by eapply Hrep|]. simpl in Hn. destruct (rune4 c b d e) eqn:H4; [|by eapply Hrep].
    eapply emit_utf8; [exact H|intros ? ?; apply IH; lia|]. intros t' Ht'. by apply utf8_4.
Qed.

(** ** Numbers *)

Lemma digits_split s d r : digits s = (d, r) → s = d ++ r ∧ Forall (λ c, isDigit c = true) d.
Proof.
  revert d r. induction s as [|c s IH]; intros d r; cbn [digits]; [by intros [= <- <-]|].
  destruct (isDigit c) eqn:Hc; [|by intros [= <- <-]]. destruct (digits s) as [d' r']. intros [= <- <-].
  destruct (IH d' r' eq_refl) as [-> Hd]. split; [done|by constructor].
Qed.

Lemma digits_exact d r : Forall (λ c, isDigit c = true) d → (∀ c r', r = c :: r' → isDigit c = false) → digits (d ++ r) = (d, r).
Proof.
  intros Hd Hr. induction Hd as [|c d Hc Hd IH]; simpl.
  - destruct r as [|c r]; [done|]. simpl. by rewrite (Hr c r eq_refl).
  - by rewrite Hc, IH.
Qed.

Lemma digits1_exact s d r r' : digits1 s = Some (d, r) → (∀ c x, r' = c :: x → isDigit c = false) → digits1 (d ++ r') = Some (d, r').
Proof.
  unfold digits1. destruct (digits s) as [d' y] eqn:Hd. apply digits_split in Hd as [_ Hd].
  destruct d' as [|c d']; [done|]. intros [= <- <-] Hr. by rewrite digits_exact.
Qed.

Lemma notDigit c : code c = 46 ∨ code c = 101 ∨ code c = 69 → isDigit c = false.
Proof. intros H. unfold isDigit, between. apply andb_false_iff. rewrite !Z.leb_gt. lia. Qed.

Lemma exponent_exact s e r : exponent s = Some (e, r) →
  exponent e = Some (e, []) ∧ ∀ c x, e = c :: x → code c = 101 ∨ code c = 69.
Proof.
  assert (H0 : ∀ c x, ([] : list ascii) = c :: x → isDigit c = false) by done.
  destruct s as [|c s]; cbn [exponent]; [by intros [= <- <-]|].
  destruct ((code c =? 101) || (code c =? 69)) eqn:Hc; [|by intros [= <- <-]].
  destruct s as [|g s]; [done|]. destruct ((code g =? 43) || (code g =? 45)) eqn:Hg.
  - destruct (digits1 s) as [[d r']|] eqn:Hd; [|done]. intros [= <- <-]. cbn [exponent]. rewrite Hc, Hg.
    pose proof (digits1_exact _ _ _ [] Hd H0) as Hx. rewrite app_nil_r in Hx. rewrite Hx. split; [done|].
    intros c' x [= <- _]. rewrite orb_true_iff, !Z.eqb_eq in Hc. done.
  - destruct (digits1 (g :: s)) as [[d r']|] eqn:Hd; [|done]. intros [= <- <-].
    pose proof (digits1_exact _ _ _ [] Hd H0) as Hx. rewrite app_nil_r in Hx.
    assert (∃ d', d = g :: d') as [d' ->].
    { unfold digits1 in Hd. cbn [digits] in Hd. destruct (isDigit g); [|done]. destruct (digits s) as [d' y]. injection Hd as <- <-. eauto. }
    cbn [exponent]. rewrite Hc, Hg, Hx. split; [done|]. intros c' x [= <- _]. rewrite orb_true_iff, !Z.eqb_eq in Hc. done.
Qed.

Lemma fraction_exact s f r e : fraction s = Some (f, r) → (∀ c x, e = c :: x → code c = 101 ∨ code c = 69) →
  fraction (f ++ e) = Some (f, e) ∧ ∀ c x, f = c :: x → code c = 46.
Proof.
  intros Hf He. destruct s as [|c s]; cbn [fraction] in Hf.
  - injection Hf as <- <-. split; [|done]. destruct e as [|x e]; [done|]. simpl.
    destruct (Z.eqb_spec (code x) 46); [|done]. destruct (He x e eq_refl); lia.
  - destruct (Z.eqb_spec (code c) 46) as [Hc|Hc].
    + destruct (digits1 s) as [[d r']|] eqn:Hd; [|done]. injection Hf as <- <-. simpl.
      destruct (Z.eqb_spec (code c) 46); [|done]. rewrite (digits1_exact _ _ _ e Hd).
      * split; [done|]. by intros c' x [= <- _].
      * intros x y Hx. apply notDigit. right. by eapply He.
    + injection Hf as <- <-. split; [|done]. destruct e as [|x e]; [done|]. simpl.
      destruct (Z.eqb_spec (code x) 46); [|done]. destruct (He x e eq_refl); lia.
Qed.

Lemma intPart_exact s i r t : intPart s = Some (i, r) → (∀ c x, t = c :: x → isDigit c = false) → intPart (i ++ t) = Some (i, t).
Proof.
  destruct s as [|c s]; [done|]. cbn [intPart]. destruct (code c =? 48) eqn:Hc.
  - intros [= <- <-] _. simpl. by rewrite Hc.
  - intros Hd Ht. assert (∃ i', i = c :: i') as [i' ->].
    { unfold digits1 in Hd. cbn [digits] in Hd. destruct (isDigit c); [|done]. destruct (digits s) as [d' y]. injection Hd as <- <-. eauto. }
    pose proof (digits1_exact _ _ _ t Hd Ht) as Hx. cbn [app] in *. unfold intPart. by rewrite Hc.
Qed.

(** The text of a number is a number of its own. *)
Lemma number_exact s d r : number s = Some (d, r) → number d = Some (d, []).
Proof.
  unfold number at 1. destruct (match s with c :: s' => if code c =? 45 then ([c], s') else ([], s) | [] => ([], []) end) as [sign s0] eqn:Hs.
  destruct (intPart s0) as [[i s1]|] eqn:Hi; [|done]. destruct (fraction s1) as [[f s2]|] eqn:Hf; [|done].
  destruct (exponent s2) as [[e s3]|] eqn:He; [|done]. intros [= <- <-].
  apply exponent_exact in He as [He He0]. destruct (fraction_exact _ _ _ e Hf He0) as [Hf' Hf0].
  assert (Hi' : intPart (i ++ f ++ e) = Some (i, f ++ e)).
  { eapply intPart_exact; [exact Hi|]. intros c x Hx. apply notDigit. destruct f as [|y f]; [right; by eapply He0|left]. injection Hx as -> _. by eapply Hf0. }
  unfold number. assert (Hsign : sign = [] ∨ ∃ c, sign = [c] ∧ code c = 45).
  { destruct s as [|c s]; [injection Hs as <- <-; by left|]. destruct (Z.eqb_spec (code c) 45); injection Hs as <- <-; [right; eauto|by left]. }
  destruct Hsign as [->|(c & -> & Hc)].
  - destruct i as [|c i]; [|cbn [app]; destruct (Z.eqb_spec (code c) 45)].
    + destruct s0 as [|c s0]; [done|]. cbn [intPart] in Hi. destruct (code c =? 48); [done|].
      unfold digits1 in Hi. by destruct (digits (c :: s0)) as [[|] ?].
    + exfalso. destruct s0 as [|c0 s0]; [done|]. cbn [intPart] in Hi. destruct (Z.eqb_spec (code c0) 48); [injection Hi; intros; subst; lia|].
      unfold digits1 in Hi. destruct (digits (c0 :: s0)) as [d y] eqn:Hd. apply digits_split in Hd as [_ Hd].
      destruct d as [|c1 d]; [done|]. injection Hi as -> _ _. inversion Hd as [|? ? Hdig]; subst.
      apply between_spec in Hdig. lia.
    + change (c :: i ++ f ++ e) with ((c :: i) ++ f ++ e). by rewrite Hi', Hf', He.
  - cbn [app]. rewrite Hc. simpl. by rewrite Hi', Hf', He.
Qed.

(** ** Values *)

Definition well_read (depth : Z) (v : json) : Prop := readable v ∧ depth + nesting v ≤ maxNestingDepth.

Lemma nesting_array depth l : Forall (well_read (depth + 1)) l → depth < maxNestingDepth → well_read depth (JArray l).
Proof.
  intros Hl Hd. split; [constructor; eapply Forall_impl; [exact Hl|]; by intros v []|]. simpl.
  assert (H : foldr (λ x n, Z.max (nesting x) n) 0 l ≤ maxNestingDepth - (depth + 1)); [|lia].
  induction Hl as [|v l [_ Hv] _ IH]; simpl; lia.
Qed.

Lemma nesting_object depth o : Forall (λ kv, utf8 (fst kv) ∧ well_read (depth + 1) (snd kv)) o → depth < maxNestingDepth →
  well_read depth (JObject o).
Proof.
  intros Ho Hd. split; [constructor; eapply Forall_impl; [exact Ho|]; by intros v (? & ? & ?)|]. simpl.
  assert (H : foldr (λ kv n, Z.max (nesting (snd kv)) n) 0 o ≤ maxNestingDepth - (depth + 1)); [|lia].
  induction Ho as [|kv o (_ & _ & Hv) _ IH]; simpl; lia.
Qed.

Lemma literal_value w x s v r : literal w x s = Some (v, r) → v = x.
Proof. unfold literal. destruct (expect _ s); [|done]. by intros [= <- _]. Qed.

Lemma well_read_atom depth v : readable v → nesting v = 0 → depth ≤ maxNestingDepth → well_read depth v.
Proof. intros H1 H2 H3. split; [done|lia]. Qed.

(** Whatever the text is, a value that is read is readable and not nested too deeply. *)
Lemma Value_well_read fuel : ∀ depth s, depth ≤ maxNestingDepth →
  (∀ v r, Value fuel depth s = Some (v, r) → well_read depth v) ∧
  (∀ l r, Elements fuel depth s = Some (l, r) → Forall (well_read depth) l) ∧
  (∀ o r, Members fuel depth s = Some (o, r) → Forall (λ kv, utf8 (fst kv) ∧ well_read depth (snd kv)) o).
Proof.
  induction fuel as [|fuel IH]; intros depth s Hd; [done|]. split_and!.
  - intros v r. cbn [Value]. destruct (skipSpace s) as [|c x]; [done|]. cbv zeta.
    destruct (code c =? 34).
    { destruct (stringBody x) as [[t y]|] eqn:Hs; [|done]. intros [= <- <-].
      apply well_read_atom; [constructor; by eapply stringBody_utf8|done|done]. }
    destruct (code c =? 91).
    { destruct (Z.leb_spec maxNestingDepth depth); [done|]. destruct (skipSpace x) as [|c' y]; [done|].
      destruct (code c' =? 93); [intros [= <- <-]; by apply nesting_array|].
      destruct (Elements fuel (depth + 1) x) as [[l z]|] eqn:Hl; [|done]. intros [= <- <-].
      apply nesting_array; [|done]. eapply (IH (depth + 1) x); [lia|exact Hl]. }
    destruct (code c =? 123).
    { destruct (Z.leb_spec maxNestingDepth depth); [done|]. destruct (skipSpace x) as [|c' y]; [done|].
      destruct (code c' =? 125); [intros [= <- <-]; by apply nesting_object|].
      destruct (Members fuel (depth + 1) x) as [[o z]|] eqn:Ho; [|done]. intros [= <- <-].
      apply nesting_object; [|done]. eapply (IH (depth + 1) x); [lia|exact Ho]. }
    destruct (code c =? 110); [intros ->%literal_value; apply well_read_atom; [constructor|done|done]|].
    destruct (code c =? 116); [intros ->%literal_value; apply well_read_atom; [constructor|done|done]|].
    destruct (code c =? 102); [intros ->%literal_value; apply well_read_atom; [constructor|done|done]|].
    destruct (number (c :: x)) as [[d y]|] eqn:Hn; [|done]. intros [= <- <-].
    apply well_read_atom; [constructor; by eapply number_exact|done|done].
  - intros l r. cbn [Elements]. destruct (Value fuel depth s) as [[v x]|] eqn:Hv; [|done].
    apply (IH depth s Hd) in Hv. destruct (skipSpace x) as [|c y]; [done|]. destruct (code c =? 44).
    + destruct (Elements fuel depth y) as [[l' z]|] eqn:Hl; [|done]. intros [= <- <-].
      constructor; [done|]. by eapply (IH depth y Hd).
    + destruct (code c =? 93); [|done]. intros [= <- <-]. by constructor.
  - intros o r. cbn [Members]. destruct (skipSpace s) as [|q x]; [done|]. destruct (negb _); [done|].
    destruct (stringBody x) as [[k x1]|] eqn:Hk; [|done]. eapply stringBody_utf8 in Hk; [|done].
    destruct (skipSpace x1) as [|c x2]; [done|]. destruct (negb _); [done|].
    destruct (Value fuel depth x2) as [[v x3]|] eqn:Hv; [|done]. apply (IH depth x2 Hd) in Hv.
    destruct (skipSpace x3) as [|e x4]; [done|]. destruct (code e =? 44).
    + destruct (Members fuel depth x4) as [[o' x5]|] eqn:Ho; [|done]. intros [= <- <-].
      constructor; [done|]. by eapply (IH depth x4 Hd).
    + destruct (code e =? 125); [|done]. intros [= <- <-]. by constructor.
Qed.

Lemma Decode_well_read s v : Decode s = Some v → well_read 0 v.
Proof.
  unfold Decode. destruct (Value _ 0 s) as [[v' r]|] eqn:Hv; [|done]. intros [= <-].
  by eapply (Value_well_read _ 0 s).
Qed.

(** A readable value is what its encoding decodes to. *)
Lemma Decode_Marshal v : well_read 0 v → Decode (Marshal v) = Some v.
Proof.
  intros [Hr Hn]. unfold Decode. rewrite <- (app_nil_r (Marshal v)), Marshal_with.
  by rewrite (Value_written _ v []) by (try apply marshal_str_read; try lia; done).
Qed.

Lemma well_read_array depth l : well_read depth (JArray l) → Forall (well_read (depth + 1)) l ∧ depth < maxNestingDepth.
Proof.
  intros [Hr Hn]. inversion Hr as [| | | |? Hl|]; subst. simpl in Hn. split.
  - clear Hr. induction Hl as [|v l Hv Hl IH]; [constructor|]. simpl in Hn. constructor; [split; [done|lia]|apply IH; lia].
  - assert (0 ≤ foldr (λ x n, Z.max (nesting x) n) 0 l); [|lia]. clear. induction l; simpl; lia.
Qed.

Lemma well_read_object depth o : well_read depth (JObject o) →
  Forall (λ kv, utf8 (fst kv) ∧ well_read (depth + 1) (snd kv)) o ∧ depth < maxNestingDepth.
Proof.
  intros [Hr Hn]. inversion Hr as [| | | | |? Ho]; subst. simpl in Hn. split.
  - clear Hr. induction Ho as [|kv o [Hk Hv] Ho IH]; [constructor|]. simpl in Hn. constructor; [split; [done|split; [done|lia]]|apply IH; lia].
  - assert (0 ≤ foldr (λ kv n, Z.max (nesting (snd kv)) n) 0 o); [|lia]. clear. induction o; simpl; lia.
Qed.

(** ** Maps *)

Lemma chars_compare_Eq a b : chars_compare a b = Eq → a = b.
Proof.
  revert b. induction a as [|x a IH]; intros [|y b]; simpl; try done.
  destruct (Z.compare_spec (code x) (code y)) as [Hc| |]; try done. intros H. f_equal; [|by apply IH].
  unfold code in Hc. apply N2Z.inj in Hc. rewrite <- (ascii_N_embedding x), <- (ascii_N_embedding y). by rewrite Hc.
Qed.

Lemma key_lt_trans a b c : key_lt a b → key_lt b c → key_lt a c.
Proof.
  unfold key_lt. revert b c. induction a as [|x a IH]; intros [|y b] [|z c]; simpl; try done.
  destruct (Z.compare_spec (code x) (code y)); try done; destruct (Z.compare_spec (code y) (code z)); try done;
    destruct (Z.compare_spec (code x) (code z)); try done; try lia. apply IH.
Qed.

Lemma Forall_mapInsert {A} (P : list ascii * A → Prop) k v m : P (k, v) → Forall P m → Forall P (mapInsert k v m).
Proof.
  intros Hkv. induction 1 as [|[k' v'] m Hx Hm IH]; simpl; [by constructor|].
  destruct (chars_compare k k'); by repeat constructor.
Qed.

Lemma mapInsert_sorted {A} k (v : A) m : StronglySorted key_lt (map fst m) → StronglySorted key_lt (map fst (mapInsert k v m)).
Proof.
  induction m as [|[k' v'] m IH]; intros Hs; simpl; [repeat constructor|]. simpl in Hs. inversion Hs as [|? ? Hs' Hk']; subst.
  destruct (chars_compare k k') eqn:Hc; simpl.
  - apply chars_compare_Eq in Hc as ->. by constructor.
  - constructor; [done|]. constructor; [done|]. eapply Forall_impl; [exact Hk'|]. intros x Hx. by eapply key_lt_trans.
  - constructor; [by apply IH|]. apply Forall_map. apply Forall_mapInsert; [|by apply Forall_map].
    unfold key_lt. simpl. by rewrite chars_compare_antisym, Hc.
Qed.

(** Folding entries into a map keeps what holds of the entries and of the map. *)
Lemma fold_mapInsert {A} (P : list ascii * A → Prop) entries : ∀ m,
  Forall P entries → Forall P m → StronglySorted key_lt (map fst m) →
  let m' := foldl (λ m kv, mapInsert (fst kv) (snd kv) m) m entries in Forall P m' ∧ StronglySorted key_lt (map fst m').
Proof.
  induction entries as [|[k v] entries IH]; intros m He Hm Hs; simpl; [done|]. inversion He; subst.
  apply IH; [done|by apply Forall_mapInsert|by apply mapInsert_sorted].
Qed.

Lemma generic_well_read v : ∀ depth, well_read depth v → well_read depth (generic v) ∧ sorted_maps (generic v).
Proof.
  induction v as [|b|s|s|l IH|o IH] using json_nested; intros depth Hv; cbn [generic]; try by split; [done|constructor].
  - apply well_read_array in Hv as [Hl Hd].
    assert (H : Forall (λ v, well_read (depth + 1) v ∧ sorted_maps v) (map generic l)).
    { apply Forall_map. rewrite Forall_forall in *. intros v Hin. by apply IH, Hl. }
    split; [apply nesting_array; [|done]|constructor]; (eapply Forall_impl; [exact H|]; by intros ? []).
  - apply well_read_object in Hv as [Ho Hd]. unfold mapOf.
    set (P := λ kv : list ascii * json, utf8 (fst kv) ∧ well_read (depth + 1) (snd kv) ∧ sorted_maps (snd kv)).
    destruct (fold_mapInsert P (map (λ kv, (fst kv, generic (snd kv))) o) []) as [Hm Hs]; [|constructor|constructor|].
    + apply Forall_map. rewrite Forall_forall in *. intros kv Hin. destruct (Ho kv Hin) as [Hk Hr]. split; [done|]. by apply (IH kv Hin).
    + split; [apply nesting_object; [|done]|constructor; [done|]]; (eapply Forall_impl; [exact Hm|]); by intros kv (? & ? & ?).
Qed.

(** A map that was decoded *)
Lemma decodeMap_well_read v m : well_read 0 v → decodeMap v None = Some (Some m) →
  well_read 0 (JObject m) ∧ sorted_maps (JObject m).
Proof.
  intros Hv. unfold decodeMap. destruct v as [| | | | |o]; try done. intros [= <-].
  apply well_read_object in Hv as [Ho Hd].
  set (P := λ kv : list ascii * json, utf8 (fst kv) ∧ well_read (0 + 1) (snd kv) ∧ sorted_maps (snd kv)).
  destruct (fold_mapInsert P (map (λ kv, (fst kv, generic (snd kv))) o) []) as [Hm Hs]; [|constructor|constructor|].
  - apply Forall_map. eapply Forall_impl; [exact Ho|]. intros kv [Hk Hr]. split; [done|]. by apply generic_well_read.
  - rewrite foldl_fmap in Hm, Hs. simpl in Hm, Hs.
    split; [apply nesting_object; [|done]|constructor; [done|]]; (eapply Forall_impl; [exact Hm|]); by intros kv (? & ? & ?).
Qed.

Lemma decodeMap_sorted m : sorted_maps (JObject m) → decodeMap (JObject m) None = Some (Some m).
Proof.
  intros Hm. inversion Hm as [| | | | |? Hs Hv]; subst. unfold decodeMap. do 2 f_equal.
  transitivity (mapOf m); [|by apply mapOf_sorted]. unfold mapOf. clear Hm Hs. generalize (@nil (list ascii * json)) as acc.
  induction Hv as [|kv m Hkv Hm IH]; intros acc; simpl; [done|]. by rewrite generic_sorted, IH.
Qed.
End JsonRead.
