(* ===== verification/GoStrings.v ===== *)
(** * Go strings

    The functions of Go's package [strings] the relay uses.  A string is its
    bytes.  Lower-casing is written out for ASCII strings, which Go treats
    separately too; the table of the other letters is a parameter
    ([unicode_ToLower]). *)

From Stdlib Require Import Ascii.
From S2P Require Import Prelude Mac Json JsonDecode JsonRead.

Module GoStrings.
Import Json JsonDecode JsonRead.

Notation chars := String.list_ascii_of_string.
Notation text := String.string_of_list_ascii.

Lemma text_chars s : text (chars s) = s.
Proof. apply String.string_of_list_ascii_of_string. Qed.
Lemma chars_text l : chars (text l) = l.
Proof. apply String.list_ascii_of_string_of_list_ascii. Qed.

(** ** Case *)

Definition isASCII (s : string) : bool := forallb (λ c, code c <? 128) (chars s).
Definition lowerASCII (c : ascii) : ascii :=
  if (65 <=? code c) && (code c <=? 90) then char (code c + 32) else c.

(** [strings.ToLower], with [slow] for the strings that are not ASCII *)
Definition lowerWith (slow : string → string) (s : string) : string :=
  if isASCII s then text (map lowerASCII (chars s)) else slow s.

(** [Map(unicode.ToLower, s)]; the lower-case form of a letter is lower case, and a letter. *)
Class Unicode := {
  unicode_ToLower : string → string;
  unicode_ToLower_lower : ∀ s, lowerWith unicode_ToLower (unicode_ToLower s) = unicode_ToLower s;
  unicode_ToLower_utf8 : ∀ s, utf8 (chars s) → utf8 (chars (unicode_ToLower s))
}.

Definition ToLower `{Unicode} (s : string) : string := lowerWith unicode_ToLower s.

Lemma lowerASCII_idem c : lowerASCII (lowerASCII c) = lowerASCII c.
Proof. by destruct c as [[] [] [] [] [] [] [] []]. Qed.

Lemma lowerASCII_low c : (code c <? 128) = true → (code (lowerASCII c) <? 128) = true.
Proof. by destruct c as [[] [] [] [] [] [] [] []]. Qed.

Lemma ToLower_idem `{Unicode} s : ToLower (ToLower s) = ToLower s.
Proof.
  unfold ToLower at 2 3. unfold lowerWith. destruct (isASCII s) eqn:Ha; [|apply unicode_ToLower_lower].
  unfold ToLower, lowerWith, isASCII. rewrite chars_text.
  assert (Hl : forallb (λ c, code c <? 128) (map lowerASCII (chars s)) = true).
  { unfold isASCII in Ha. rewrite forallb_forall in Ha |- *. intros c Hc. apply in_map_iff in Hc as (d & <- & Hd).
    apply lowerASCII_low. by apply Ha. }
  rewrite Hl, map_map. f_equal. apply map_ext, lowerASCII_idem.
Qed.

Lemma utf8_ascii l : forallb (λ c, code c <? 128) l = true → utf8 l.
Proof. induction l as [|c l IH]; simpl; [constructor|]. intros [Hc%Z.ltb_lt Hl]%andb_true_iff. constructor; auto. Qed.

Lemma ToLower_utf8 `{Unicode} s : utf8 (chars s) → utf8 (chars (ToLower s)).
Proof.
  intros Hs. unfold ToLower, lowerWith. destruct (isASCII s) eqn:Ha; [|by apply unicode_ToLower_utf8]. rewrite chars_text.
  apply utf8_ascii. unfold isASCII in Ha. rewrite forallb_forall in Ha |- *. intros c Hc. apply in_map_iff in Hc as (d & <- & Hd).
  apply lowerASCII_low. by apply Ha.
Qed.

(** ** Space *)

Definition asciiSpace (c : ascii) : bool := ((9 <=? code c) && (code c <=? 13)) || (code c =? 32).

(** The encodings of the spaces outside ASCII ([unicode.IsSpace]): U+0085, U+00A0,
    U+1680, U+2000 to U+200A, U+2028, U+2029, U+202F, U+205F, U+3000 *)
Definition wideSpaces : list (list ascii) :=
  map (map char)
    ([[194; 133]; [194; 160]; [225; 154; 128]] ++
     map (λ n, [226; 128; 128 + Z.of_nat n]) (seq 0 11) ++
     [[226; 128; 168]; [226; 128; 169]; [226; 128; 175]; [226; 129; 159]; [227; 128; 128]]).

Fixpoint stripPrefix (p s : list ascii) : option (list ascii) :=
  match p, s with
  | [], _ => Some s
  | x :: p', y :: s' => if Ascii.eqb x y then stripPrefix p' s' else None
  | _, [] => None
  end.

(** The rest after the first of the given encodings that is a prefix. *)
Fixpoint stripAny (ps : list (list ascii)) (s : list ascii) : option (list ascii) :=
  match ps with
  | [] => None
  | p :: ps' => match stripPrefix p s with Some r => Some r | None => stripAny ps' s end
  end.

Fixpoint trimLeft (fuel : nat) (wide : list (list ascii)) (s : list ascii) : list ascii :=
  match fuel with
  | O => s
  | S fuel' =>
      match s with
      | [] => []
      | c :: s' =>
          if asciiSpace c then trimLeft fuel' wide s'
          else match stripAny wide s with Some r => trimLeft fuel' wide r | None => s end
      end
  end.

(** [strings.TrimSpace] *)
Definition TrimSpace (s : string) : string :=
  let l := trimLeft (String.length s) wideSpaces (chars s) in
  text (rev (trimLeft (String.length s) (map (rev (A:=ascii)) wideSpaces) (rev l))).

(** ** Parts *)

Definition HasPrefix (s prefix : string) : bool := String.prefix prefix s.

(** [strings.Contains] for one character *)
Definition ContainsChar (s : string) (c : ascii) : bool := existsb (Ascii.eqb c) (chars s).

(** [strings.Cut] at one character *)
Fixpoint cutAt (c : ascii) (s : list ascii) : option (list ascii * list ascii) :=
  match s with
  | [] => None
  | x :: s' => if Ascii.eqb c x then Some ([], s')
               else match cutAt c s' with Some (a, b) => Some (x :: a, b) | None => None end
  end.
Definition Cut (s : string) (c : ascii) : option (string * string) :=
  match cutAt c (chars s) with Some (a, b) => Some (text a, text b) | None => None end.

(** [strings.Split] at one character *)
Fixpoint splitAt (c : ascii) (s : list ascii) : list (list ascii) :=
  match s with
  | [] => [[]]
  | x :: s' => if Ascii.eqb c x then [] :: splitAt c s'
               else match splitAt c s' with
                    | p :: ps => (x :: p) :: ps
                    | [] => [[x]]
                    end
  end.
Definition Split (s : string) (c : ascii) : list string := map (λ p, text p) (splitAt c (chars s)).

Example trim_example : TrimSpace (text ([char 32; char 194; char 160; char 9] ++ chars "a b" ++ [char 10; char 227; char 128; char 128])) = "a b".
Proof. vm_compute. reflexivity. Qed.

(** A table that only knows the ASCII letters *)
Definition lowerBytes (s : string) : string := text (map lowerASCII (chars s)).
Lemma lowerBytes_lower s : lowerWith lowerBytes (lowerBytes s) = lowerBytes s.
Proof.
  assert (H : lowerBytes (lowerBytes s) = lowerBytes s).
  { unfold lowerBytes. rewrite chars_text, map_map. f_equal. apply map_ext, lowerASCII_idem. }
  unfold lowerWith. destruct (isASCII (lowerBytes s)); apply H.
Qed.
Lemma lowerASCII_high c : 128 ≤ code c → lowerASCII c = c.
Proof.
  intros H. unfold lowerASCII. destruct (Z.leb_spec (code c) 90); [lia|]. by rewrite andb_false_r.
Qed.
Lemma lowerBytes_utf8 s : utf8 (chars s) → utf8 (chars (lowerBytes s)).
Proof.
  unfold lowerBytes. rewrite chars_text. generalize (chars s) as l. clear s.
  induction 1 as [|c s Hc Hs IH|a b s H Hs IH|a b c s H Hs IH|a b c d s H Hs IH]; simpl; [constructor|..].
  - constructor; [|done]. by apply Z.ltb_lt, lowerASCII_low, Z.ltb_lt.
  - pose proof (rune2_code _ _ H). rewrite !lowerASCII_high by lia. by constructor.
  - pose proof (rune3_code _ _ _ H). rewrite !lowerASCII_high by lia. by constructor.
  - pose proof (rune4_code _ _ _ _ H). rewrite !lowerASCII_high by lia. by constructor.
Qed.
Definition demo_unicode : Unicode :=
  {| unicode_ToLower := lowerBytes; unicode_ToLower_lower := lowerBytes_lower; unicode_ToLower_utf8 := lowerBytes_utf8 |}.

End GoStrings.
