(* ===== verification/Models.v ===== *)
(** * Data model

    The rows of the relay's database and the values its services pass around
    (src/models/): enumerations as inductive types with the constants of the
    source, structs as records.  A field prefix ([t_], [n_], [e_], ...) stands
    for the struct the field belongs to.  [big.Int] columns are [Z],
    [sql.NullTime], [sql.NullString] and [sql.NullInt64] are options, [uint64]
    and [uint] are [Z], [float64] is the IEEE-754 binary64 value of
    [SpecFloat].  Columns that no modelled operation reads or writes are left
    out. *)

From Corelib Require Export SpecFloat.
From Stdlib Require Import Ascii.
From S2P Require Import Prelude Mac Json.

(** ** float64

    The binary64 instance of the executable floating-point specification, with
    the operations of the language that the code uses. *)

Abbreviation float64 := spec_float (only parsing).
Definition f64_add : float64 → float64 → float64 := SFadd 53 1024.
Definition f64_sub : float64 → float64 → float64 := SFsub 53 1024.
Definition f64_mul : float64 → float64 → float64 := SFmul 53 1024.
Definition f64_div : float64 → float64 → float64 := SFdiv 53 1024.
Definition f64_lt : float64 → float64 → bool := SFltb.
Definition f64_le : float64 → float64 → bool := SFleb.
Definition f64_eq : float64 → float64 → bool := SFeqb.
Definition f64_neg : float64 → float64 := SFopp.
(** [float64(z)] for an integer [z]. *)
Definition f64_of_Z (z : Z) : float64 := binary_normalize 53 1024 z 0 false.
Definition f64_zero : float64 := S754_zero false.
Definition f64_one : float64 := f64_of_Z 1.
(** [uint64(f)]: truncation toward zero (the code only converts values that
    are in range). *)
Definition f64_trunc (f : float64) : Z :=
  match f with
  | S754_finite s m e =>
      let a := if 0 <=? e then Z.pos m * 2 ^ e else Z.pos m / 2 ^ (- e) in
      if s then - a else a
  | _ => 0
  end.

(** ** Tasks *)

(** [TaskStatus], src/models/inference_task.go 20-38 *)
Inductive TaskStatus :=
| TaskQueued
| TaskStarted
| TaskParametersUploaded
| TaskErrorReported
| TaskScoreReady
| TaskValidated
| TaskGroupValidated
| TaskEndInvalidated
| TaskEndSuccess
| TaskEndAborted
| TaskEndGroupRefund
| TaskEndGroupSuccess.

(** The stored number of a status ([iota] in the constant block). *)
Definition TaskStatus_code (s : TaskStatus) : Z :=
  match s with
  | TaskQueued => 0 | TaskStarted => 1 | TaskParametersUploaded => 2
  | TaskErrorReported => 3 | TaskScoreReady => 4 | TaskValidated => 5
  | TaskGroupValidated => 6 | TaskEndInvalidated => 7 | TaskEndSuccess => 8
  | TaskEndAborted => 9 | TaskEndGroupRefund => 10 | TaskEndGroupSuccess => 11
  end.

(** [TaskType], src/models/inference_task.go 40-46 *)
Inductive TaskType := TaskTypeSD | TaskTypeLLM | TaskTypeSDFTLora.

Definition TaskType_code (t : TaskType) : Z :=
  match t with TaskTypeSD => 0 | TaskTypeLLM => 1 | TaskTypeSDFTLora => 2 end.

(** [TaskAbortReason], src/models/inference_task.go 48-63 *)
Inductive TaskAbortReason :=
| TaskAbortReasonNone
| TaskAbortTimeout
| TaskAbortModelDownloadFailed
| TaskAbortIncorrectResult
| TaskAbortTaskFeeTooLow
| TaskAbortGroupTimeout
| TaskAbortErrorReported
| TaskAbortCreatorCancelled
| TaskAbortCreatorValidationTimeout
| TaskAbortResultUploadTimeout
| TaskAbortNodeSlashed
| TaskAbortModelNotAllowed.

(** [TaskError], src/models/inference_task.go 65-70 *)
Inductive TaskError := TaskErrorNone | TaskErrorParametersValidationFailed.

#[export] Instance TaskStatus_eq_dec : EqDecision TaskStatus.
Proof. solve_decision. Defined.
#[export] Instance TaskType_eq_dec : EqDecision TaskType.
Proof. solve_decision. Defined.
#[export] Instance TaskAbortReason_eq_dec : EqDecision TaskAbortReason.
Proof. solve_decision. Defined.
#[export] Instance TaskError_eq_dec : EqDecision TaskError.
Proof. solve_decision. Defined.

(** The columns of [InferenceTask] that price a task and describe its work,
    src/models/inference_task.go 100, 109-110, 120, 134-144; they change together,
    when the task is created. *)
Record TaskPricingColumns := mkTaskPricingColumns {
  tp_TaskArgs : string;
  tp_ModelName : string;
  tp_RequestedDType : string;
  tp_QuantizationConfigHash : list Z;
  tp_EstimatedNodeSeconds : float64;
  tp_VRAMWeight : float64;
  tp_PricingUnits : float64;
  tp_SDUnits : option Z;
  tp_LLMInputBytes : option Z;
  tp_LLMTextInputBytes : option Z;
  tp_LLMImageCount : option Z;
  tp_LLMImagePixels : option Z;
  tp_LLMMaxNewTokens : option Z;
  tp_TaskSize : Z;
  tp_ModelIDs : list string
}.

#[export] Instance eta_TaskPricingColumns : Eta TaskPricingColumns := λ r,
  mkTaskPricingColumns (tp_TaskArgs r) (tp_ModelName r) (tp_RequestedDType r)
    (tp_QuantizationConfigHash r) (tp_EstimatedNodeSeconds r) (tp_VRAMWeight r)
    (tp_PricingUnits r) (tp_SDUnits r) (tp_LLMInputBytes r) (tp_LLMTextInputBytes r)
    (tp_LLMImageCount r) (tp_LLMImagePixels r) (tp_LLMMaxNewTokens r) (tp_TaskSize r) (tp_ModelIDs r).

(** The columns of a task that was not priced. *)
Definition unpriced : TaskPricingColumns :=
  mkTaskPricingColumns "" "" "auto" [] (S754_zero false) (S754_zero false) (S754_zero false)
    None None None None None None 0 [].

(** [InferenceTask], src/models/inference_task.go 103-171 *)
Record InferenceTask := mkTask {
  t_ID : Z;
  t_TaskIDCommitment : string;
  t_Creator : string;
  t_SamplingSeed : string;
  t_Nonce : string;
  t_Status : TaskStatus;
  t_TaskType : TaskType;
  t_TaskVersion : string;
  t_ExecutionDType : string;
  t_ExecutionModelFileHashes : list Z;
  t_Timeout : Z;
  t_QueueTimeout : Z;
  t_MinVRAM : Z;
  t_RequiredGPU : string;
  t_RequiredGPUVRAM : Z;
  t_TaskFee : Z;
  t_Priority : Z;
  t_AbortReason : TaskAbortReason;
  t_TaskError : TaskError;
  t_Score : string;
  t_QOSScore : option Z;
  t_SelectedNode : string;
  t_ExecutionGPU : string;
  t_ExecutionGPUVRAM : Z;
  t_TaskID : string;
  t_ModelSwtiched : bool;
  t_EstimatedCompletionTime : option Time;
  t_DeadlineAt : option Time;
  t_CreateTime : option Time;
  t_StartTime : option Time;
  t_DeliveredTime : option Time;
  t_ScoreReadyTime : option Time;
  t_ValidatedTime : option Time;
  t_ResultUploadedTime : option Time;
  t_RequiredModelFileHashes : list Z;
  t_RequiredModelFileSourceHashes : list Z;
  t_RequestedModelCacheHash : list Z;
  t_RequireLinuxCuda : bool;
  t_Pricing : TaskPricingColumns
}.

#[export] Instance eta_task : Eta InferenceTask := λ r,
  mkTask (t_ID r) (t_TaskIDCommitment r) (t_Creator r) (t_SamplingSeed r)
    (t_Nonce r) (t_Status r) (t_TaskType r) (t_TaskVersion r)
    (t_ExecutionDType r) (t_ExecutionModelFileHashes r) (t_Timeout r)
    (t_QueueTimeout r) (t_MinVRAM r) (t_RequiredGPU r) (t_RequiredGPUVRAM r)
    (t_TaskFee r) (t_Priority r) (t_AbortReason r) (t_TaskError r) (t_Score r)
    (t_QOSScore r) (t_SelectedNode r) (t_ExecutionGPU r) (t_ExecutionGPUVRAM r)
    (t_TaskID r) (t_ModelSwtiched r) (t_EstimatedCompletionTime r)
    (t_DeadlineAt r) (t_CreateTime r) (t_StartTime r) (t_DeliveredTime r)
    (t_ScoreReadyTime r) (t_ValidatedTime r) (t_ResultUploadedTime r)
    (t_RequiredModelFileHashes r) (t_RequiredModelFileSourceHashes r)
    (t_RequestedModelCacheHash r) (t_RequireLinuxCuda r) (t_Pricing r).

(** ** Nodes *)

(** [NodeStatus], src/models/node.go 12-23 *)
Inductive NodeStatus :=
| NodeStatusQuit
| NodeStatusAvailable
| NodeStatusBusy
| NodeStatusPendingPause
| NodeStatusPendingQuit
| NodeStatusPaused.

#[export] Instance NodeStatus_eq_dec : EqDecision NodeStatus.
Proof. solve_decision. Defined.

(** [Node], src/models/node.go 25-47 *)
Record Node := mkNode {
  n_ID : Z;
  n_Network : string;
  n_Address : string;
  n_Status : NodeStatus;
  n_GPUName : string;
  n_GPUVram : Z;
  n_QOSScore : float64;
  n_MajorVersion : Z;
  n_MinorVersion : Z;
  n_PatchVersion : Z;
  n_JoinTime : Time;
  n_StakeAmount : Z;
  n_HealthBase : float64;
  n_HealthUpdatedAt : option Time;
  n_HealthExcluded : bool;
  n_DelegatorShare : Z;
  n_CurrentTaskIDCommitment : option string;
  n_LastSeenTime : option Time
}.

#[export] Instance eta_node : Eta Node := λ r,
  mkNode (n_ID r) (n_Network r) (n_Address r) (n_Status r) (n_GPUName r)
    (n_GPUVram r) (n_QOSScore r) (n_MajorVersion r) (n_MinorVersion r)
    (n_PatchVersion r) (n_JoinTime r) (n_StakeAmount r) (n_HealthBase r)
    (n_HealthUpdatedAt r) (n_HealthExcluded r) (n_DelegatorShare r)
    (n_CurrentTaskIDCommitment r) (n_LastSeenTime r).

(** ** Relay accounts and their ledger *)

(** [RelayAccountEventStatus], src/models/relay_account.go 18-24 *)
Inductive RelayAccountEventStatus :=
| RelayAccountEventStatusPending
| RelayAccountEventStatusProcessed
| RelayAccountEventStatusInvalid.

(** [RelayAccountEventType], src/models/relay_account.go 26-40 *)
Inductive RelayAccountEventType :=
| RelayAccountEventTypeTaskIncome
| RelayAccountEventTypeDaoTaskShare
| RelayAccountEventTypeWithdrawFeeIncome
| RelayAccountEventTypeDeposit
| RelayAccountEventTypeTaskPayment
| RelayAccountEventTypeTaskRefund
| RelayAccountEventTypeWithdraw
| RelayAccountEventTypeWithdrawRefund
| RelayAccountEventTypeUserDelegation
| RelayAccountEventTypeVestingCreated
| RelayAccountEventTypeVestingRelease.

Definition RelayAccountEventType_code (t : RelayAccountEventType) : Z :=
  match t with
  | RelayAccountEventTypeTaskIncome => 0
  | RelayAccountEventTypeDaoTaskShare => 1
  | RelayAccountEventTypeWithdrawFeeIncome => 2
  | RelayAccountEventTypeDeposit => 3
  | RelayAccountEventTypeTaskPayment => 4
  | RelayAccountEventTypeTaskRefund => 5
  | RelayAccountEventTypeWithdraw => 6
  | RelayAccountEventTypeWithdrawRefund => 7
  | RelayAccountEventTypeUserDelegation => 8
  | RelayAccountEventTypeVestingCreated => 9
  | RelayAccountEventTypeVestingRelease => 10
  end.

#[export] Instance RelayAccountEventStatus_eq_dec : EqDecision RelayAccountEventStatus.
Proof. solve_decision. Defined.
#[export] Instance RelayAccountEventType_eq_dec : EqDecision RelayAccountEventType.
Proof. solve_decision. Defined.

(** [RelayAccountEvent], src/models/relay_account.go 42-51 *)
Record RelayAccountEvent := mkRelayAccountEvent {
  e_ID : Z;
  e_CreatedAt : Time;
  e_Address : string;
  e_Amount : Z;
  e_Status : RelayAccountEventStatus;
  e_Reason : string;
  e_Type : RelayAccountEventType;
  e_MAC : string
}.

#[export] Instance eta_relay_account_event : Eta RelayAccountEvent := λ r,
  mkRelayAccountEvent (e_ID r) (e_CreatedAt r) (e_Address r) (e_Amount r)
    (e_Status r) (e_Reason r) (e_Type r) (e_MAC r).

#[export] Instance RelayAccountEvent_eq_dec : EqDecision RelayAccountEvent.
Proof. solve_decision. Defined.

(** ** Withdrawals and deposits *)

(** [WithdrawStatus], src/models/withdraw.go 30-36 *)
Inductive WithdrawStatus :=
| WithdrawStatusPending | WithdrawStatusSuccess | WithdrawStatusFailed.

(** [WithdrawLocalStatus], src/models/withdraw.go 38-44 *)
Inductive WithdrawLocalStatus :=
| WithdrawLocalStatusPending | WithdrawLocalStatusProcessed | WithdrawLocalStatusInvalid.

#[export] Instance WithdrawStatus_eq_dec : EqDecision WithdrawStatus.
Proof. solve_decision. Defined.
#[export] Instance WithdrawLocalStatus_eq_dec : EqDecision WithdrawLocalStatus.
Proof. solve_decision. Defined.

(** [WithdrawRecord], src/models/withdraw.go 10-24 *)
Record WithdrawRecord := mkWithdrawRecord {
  wr_ID : Z;
  wr_CreatedAt : Time;
  wr_Address : string;
  wr_BenefitAddress : string;
  wr_Amount : Z;
  wr_Network : string;
  wr_Status : WithdrawStatus;
  wr_LocalStatus : WithdrawLocalStatus;
  wr_RelayAccountEventID : Z;
  wr_TxHash : option string;
  wr_WithdrawalFee : Z;
  wr_Timestamp : option Z;
  wr_Signature : option string;
  wr_MAC : string
}.

#[export] Instance eta_withdraw_record : Eta WithdrawRecord := λ r,
  mkWithdrawRecord (wr_ID r) (wr_CreatedAt r) (wr_Address r) (wr_BenefitAddress r)
    (wr_Amount r) (wr_Network r) (wr_Status r) (wr_LocalStatus r)
    (wr_RelayAccountEventID r) (wr_TxHash r) (wr_WithdrawalFee r)
    (wr_Timestamp r) (wr_Signature r) (wr_MAC r).

(** [MACString], src/models/withdraw.go 26-28 *)
Definition MACString (r : WithdrawRecord) : string :=
  format_Z (wr_ID r) +:+ "-" +:+ wr_Address r +:+ "-" +:+ wr_BenefitAddress r
    +:+ "-" +:+ format_Z (wr_Amount r) +:+ "-" +:+ wr_Network r.

(** [DepositLocalStatus], src/models/deposit.go 15-21 *)
Inductive DepositLocalStatus :=
| DepositLocalStatusPending | DepositLocalStatusProcessed | DepositLocalStatusInvalid.

#[export] Instance DepositLocalStatus_eq_dec : EqDecision DepositLocalStatus.
Proof. solve_decision. Defined.

(** [DepositRecord], src/models/deposit.go 5-13 *)
Record DepositRecord := mkDepositRecord {
  dr_ID : Z;
  dr_Address : string;
  dr_Amount : Z;
  dr_Network : string;
  dr_TxHash : string;
  dr_RelayAccountEventID : Z;
  dr_LocalStatus : DepositLocalStatus
}.

#[export] Instance eta_deposit_record : Eta DepositRecord := λ r,
  mkDepositRecord (dr_ID r) (dr_Address r) (dr_Amount r) (dr_Network r)
    (dr_TxHash r) (dr_RelayAccountEventID r) (dr_LocalStatus r).

(** ** Vesting *)

(** [VestingStatus], src/models/vesting.go 14-20 *)
Inductive VestingStatus :=
| VestingStatusActive | VestingStatusCompleted | VestingStatusDeprecated.

#[export] Instance VestingStatus_eq_dec : EqDecision VestingStatus.
Proof. solve_decision. Defined.

(** [VestingRecord], src/models/vesting.go 28-39 *)
Record VestingRecord := mkVestingRecord {
  v_ID : Z;
  v_Address : string;
  v_TotalAmount : Z;
  v_ReleasedAmount : Z;
  v_StartTime : Time;
  v_DurationDays : Z;
  v_Type : string;
  v_AdminSignature : string;
  v_Status : VestingStatus;
  v_Slashed : bool
}.

#[export] Instance eta_vesting_record : Eta VestingRecord := λ r,
  mkVestingRecord (v_ID r) (v_Address r) (v_TotalAmount r) (v_ReleasedAmount r)
    (v_StartTime r) (v_DurationDays r) (v_Type r) (v_AdminSignature r)
    (v_Status r) (v_Slashed r).

(** ** Delegations, earnings and counters *)

(** [Delegation], src/models/Delegation.go 10-17 *)
Record Delegation := mkDelegation {
  dl_DelegatorAddress : string;
  dl_NodeAddress : string;
  dl_Amount : Z;
  dl_Slashed : bool;
  dl_Network : string
}.

#[export] Instance eta_delegation : Eta Delegation := λ r,
  mkDelegation (dl_DelegatorAddress r) (dl_NodeAddress r) (dl_Amount r) (dl_Slashed r) (dl_Network r).

(** [DelegatedSlashJobStatus], src/models/delegated_slash.go 11-18 *)
Inductive DelegatedSlashJobStatus :=
| DelegatedSlashJobStatusPending
| DelegatedSlashJobStatusProcessing
| DelegatedSlashJobStatusCompleted
| DelegatedSlashJobStatusFailed.

#[export] Instance DelegatedSlashJobStatus_eq_dec : EqDecision DelegatedSlashJobStatus.
Proof. solve_decision. Defined.

(** [DelegatedSlashJob], src/models/delegated_slash.go 20-29; the transaction
    hash and log index of the slash event are present or absent together. *)
Record DelegatedSlashJob := mkDelegatedSlashJob {
  sj_ID : Z;
  sj_NodeAddress : string;
  sj_Network : string;
  sj_Status : DelegatedSlashJobStatus;
  sj_LatestBatchTransactionID : option Z;
  sj_NodeSlashEvent : option (string * Z)
}.

#[export] Instance eta_slash_job : Eta DelegatedSlashJob := λ r,
  mkDelegatedSlashJob (sj_ID r) (sj_NodeAddress r) (sj_Network r) (sj_Status r)
    (sj_LatestBatchTransactionID r) (sj_NodeSlashEvent r).

(** [DelegatedStakingSlashRecord], src/models/delegated_slash.go 31-41 *)
Record DelegatedStakingSlashRecord := mkSlashRecord {
  sr_SlashJobID : option Z;
  sr_NodeAddress : string;
  sr_DelegatorAddress : string;
  sr_Network : string;
  sr_Amount : Z;
  sr_SlashTxHash : string;
  sr_BlockNumber : Z;
  sr_LogIndex : Z
}.

(** [NodeEarning], src/models/earning.go 20-26 *)
Record NodeEarning := mkNodeEarning {
  ne_NodeAddress : string;
  ne_OperatorEarning : Z;
  ne_DelegatorEarning : Z;
  ne_Time : option Time
}.

#[export] Instance eta_node_earning : Eta NodeEarning := λ r,
  mkNodeEarning (ne_NodeAddress r) (ne_OperatorEarning r) (ne_DelegatorEarning r) (ne_Time r).

(** [UserStakingEarning], src/models/earning.go 11-18 *)
Record UserStakingEarning := mkUserStakingEarning {
  us_UserAddress : string;
  us_NodeAddress : string;
  us_Network : string;
  us_Earning : Z;
  us_Time : option Time
}.

#[export] Instance eta_user_staking_earning : Eta UserStakingEarning := λ r,
  mkUserStakingEarning (us_UserAddress r) (us_NodeAddress r) (us_Network r) (us_Earning r) (us_Time r).

(** [UserEarning], src/models/earning.go 28-33 *)
Record UserEarning := mkUserEarning {
  ue_UserAddress : string;
  ue_Earning : Z;
  ue_Time : option Time
}.

#[export] Instance eta_user_earning : Eta UserEarning := λ r,
  mkUserEarning (ue_UserAddress r) (ue_Earning r) (ue_Time r).

(** ** Model files *)

(** [ModelFileEntry], src/models/model_file.go 50-56; a nil map is [None]. *)
Record ModelFileEntry := mkModelFileEntry {
  me_SourceType : string;
  me_Repository : string;
  me_Revision : string;
  me_Format : string;
  me_FormatKwargs : option (list (list ascii * Json.json))
}.

#[export] Instance eta_ModelFileEntry : Eta ModelFileEntry := λ r,
  mkModelFileEntry (me_SourceType r) (me_Repository r) (me_Revision r) (me_Format r) (me_FormatKwargs r).

(** [ModelFile], src/models/model_file.go 276-282 *)
Record ModelFile := mkModelFile {
  mf_ModelFileHash : list Z;
  mf_ModelFileSourceHash : list Z;
  mf_CanonicalJSON : list Z
}.

(** [NodeModel], src/models/node.go 140-147 *)
Record NodeModel := mkNodeModel {
  nm_ID : Z;
  nm_NodeAddress : string;
  nm_ModelFileHash : list Z
}.

(** [NodeInMemoryModel], src/models/node_in_memory_model.go 14-22 *)
Record NodeInMemoryModel := mkNodeInMemoryModel {
  im_NodeAddress : string;
  im_CurrentModelCacheHash : list Z;
  im_CurrentModelFileHashes : list Z;
  im_CurrentModelCacheConfig : list Z;
  im_ExecutionDType : string
}.

(** [NodeModelDownloadSelectionStatus], src/models/node_model_download_selection.go 10-16 *)
Inductive NodeModelDownloadSelectionStatus :=
| NodeModelDownloadSelectionPending
| NodeModelDownloadSelectionCompleted
| NodeModelDownloadSelectionExpired.

#[export] Instance NodeModelDownloadSelectionStatus_eq_dec : EqDecision NodeModelDownloadSelectionStatus.
Proof. solve_decision. Defined.

(** [NodeModelDownloadSelection], src/models/node_model_download_selection.go 25-38 *)
Record NodeModelDownloadSelection := mkNodeModelDownloadSelection {
  ds_ID : Z;
  ds_ModelFileHash : list Z;
  ds_RequiredModelFileHashes : list Z;
  ds_RequiredModelFileSourceHashes : list Z;
  ds_NodeAddress : string;
  ds_MinVRAM : Z;
  ds_SentAt : Time;
  ds_Deadline : Time;
  ds_Status : NodeModelDownloadSelectionStatus;
  ds_Active : option bool
}.

#[export] Instance eta_NodeModelDownloadSelection : Eta NodeModelDownloadSelection := λ r,
  mkNodeModelDownloadSelection (ds_ID r) (ds_ModelFileHash r) (ds_RequiredModelFileHashes r)
    (ds_RequiredModelFileSourceHashes r) (ds_NodeAddress r) (ds_MinVRAM r) (ds_SentAt r)
    (ds_Deadline r) (ds_Status r) (ds_Active r).

(** [LoadedModelType], src/models/loaded_model.go 11-16 *)
Inductive LoadedModelType := LoadedModelTypeSD | LoadedModelTypeLLM.

#[export] Instance LoadedModelType_eq_dec : EqDecision LoadedModelType.
Proof. solve_decision. Defined.

(** [LoadedModel], src/models/loaded_model.go 28-47 *)
Record LoadedModel := mkLoadedModel {
  lm_ID : Z;
  lm_RequiredModelFilesHash : list Z;
  lm_ModelCacheHash : list Z;
  lm_ExecutionDType : string;
  lm_RequiredModelFileHashes : list Z;
  lm_QuantizationConfig : list Z;
  lm_ModelID : string;
  lm_ModelCacheConfig : list Z;
  lm_ModelType : LoadedModelType;
  lm_MinVRAM : Z
}.

#[export] Instance eta_LoadedModel : Eta LoadedModel := λ r,
  mkLoadedModel (lm_ID r) (lm_RequiredModelFilesHash r) (lm_ModelCacheHash r) (lm_ExecutionDType r)
    (lm_RequiredModelFileHashes r) (lm_QuantizationConfig r) (lm_ModelID r) (lm_ModelCacheConfig r)
    (lm_ModelType r) (lm_MinVRAM r).

(** ** The event stream

    One constructor per event struct of src/models/event.go that a modelled
    operation emits. *)
Inductive RelayEvent :=
| TaskStartedEvent (taskIDCommitment selectedNode : string)
| TaskScoreReadyEvent (taskIDCommitment selectedNode score : string)
| TaskErrorReportedEvent (taskIDCommitment selectedNode : string) (taskError : TaskError)
| TaskValidatedEvent (taskIDCommitment selectedNode : string)
| TaskEndInvalidatedEvent (taskIDCommitment selectedNode : string)
| TaskEndGroupRefundEvent (taskIDCommitment selectedNode : string)
| TaskEndAbortedEvent (taskIDCommitment abortIssuer : string) (abortReason : TaskAbortReason) (lastStatus : TaskStatus)
| TaskEndSuccessEvent (taskIDCommitment selectedNode : string)
| TaskEndGroupSuccessEvent (taskIDCommitment selectedNode : string)
| NodeKickedOutEvent (nodeAddress taskIDCommitment network : string)
| NodeSlashedEvent (nodeAddress taskIDCommitment : string) (amount : Z) (network : string)
| NodeJoinEvent (nodeAddress network : string)
| NodeQuitEvent (nodeAddress : string) (blockchainTransactionID : Z) (network : string)
| NodeStakingEvent (nodeAddress : string) (stakingAmount : Z) (network : string)
| DelegatorStakingEvent (delegatorAddress nodeAddress : string) (amount : Z) (network : string)
| DelegatorUnstakingEvent (delegatorAddress nodeAddress : string) (amount : Z) (network : string)
| NodeDelegatorShareChangedEvent (nodeAddress : string) (share : Z) (network : string)
| DelegatedStakingSlashedEvent (delegatorAddress nodeAddress : string) (amount : Z) (network : string)
| DownloadModelEvent (nodeAddress : string) (modelFiles : list ModelFileEntry) (taskType : TaskType).

(** [PendingSlash], src/models/slash_evidence.go 81-89: the status constants
    [PendingSlashStatusPending] and [PendingSlashStatusSlashed] are the two
    values of [ps_Slashed]. *)
Record PendingSlash := mkPendingSlash {
  ps_ID : Z;
  ps_Slashed : bool;
  ps_NodeAddress : string;
  ps_Network : string;
  ps_TaskIDCommitment : string;
  ps_EvidenceJSON : string;
  ps_EvidenceComplete : bool
}.

#[export] Instance eta_pending_slash : Eta PendingSlash := λ r,
  mkPendingSlash (ps_ID r) (ps_Slashed r) (ps_NodeAddress r) (ps_Network r)
    (ps_TaskIDCommitment r) (ps_EvidenceJSON r) (ps_EvidenceComplete r).

(** [NodeIncentive], src/models/node_incentive.go 9-18 *)
Record NodeIncentive := mkNodeIncentive {
  ni_NodeAddress : string;
  ni_Incentive : float64;
  ni_Time : Time;
  ni_TaskCount : Z;
  ni_SDTaskCount : Z;
  ni_LLMTaskCount : Z;
  ni_SDFTLoraTaskCount : Z
}.

#[export] Instance eta_node_incentive : Eta NodeIncentive := λ r,
  mkNodeIncentive (ni_NodeAddress r) (ni_Incentive r) (ni_Time r) (ni_TaskCount r)
    (ni_SDTaskCount r) (ni_LLMTaskCount r) (ni_SDFTLoraTaskCount r).

(** [NetworkNodeData], src/models/network.go 44-56 *)
Record NetworkNodeData := mkNetworkNodeData {
  nd_Network : string;
  nd_CardModel : string;
  nd_VRam : Z;
  nd_QoS : float64;
  nd_Staking : Z;
  nd_HealthBase : float64;
  nd_HealthUpdatedAt : option Time
}.

(** [TransactionStatus], src/models/blockchain_transaction.go 14-22 *)
Inductive TransactionStatus :=
| TransactionStatusPending
| TransactionStatusSent
| TransactionStatusConfirmed
| TransactionStatusFailed.

#[export] Instance TransactionStatus_eq_dec : EqDecision TransactionStatus.
Proof. solve_decision. Defined.

(** [BlockchainTransaction], src/models/blockchain_transaction.go 25-47; the
    packed call data is kept as the node and the delegators it is about, and the gas and
    block of the receipt are left out. *)
Record BlockchainTransaction := mkBlockchainTransaction {
  bt_ID : Z;
  bt_CreatedAt : Time;
  bt_Network : string;
  bt_Type : string;
  bt_Status : TransactionStatus;
  bt_FromAddress : string;
  bt_ToAddress : string;
  bt_Value : string;
  bt_CallNode : string;
  bt_CallDelegators : list string;
  bt_TxHash : option string;
  bt_Nonce : option Z;
  bt_StatusMessage : option string;
  bt_RetryCount : Z;
  bt_MaxRetries : Z;
  bt_RetryTransactionID : option Z;
  bt_NextRetryAt : option Time;
  bt_SentAt : option Time;
  bt_ConfirmedAt : option Time;
  bt_FailedAt : option Time
}.

#[export] Instance eta_blockchain_transaction : Eta BlockchainTransaction := λ r,
  mkBlockchainTransaction (bt_ID r) (bt_CreatedAt r) (bt_Network r) (bt_Type r) (bt_Status r)
    (bt_FromAddress r) (bt_ToAddress r) (bt_Value r) (bt_CallNode r) (bt_CallDelegators r)
    (bt_TxHash r) (bt_Nonce r) (bt_StatusMessage r) (bt_RetryCount r) (bt_MaxRetries r)
    (bt_RetryTransactionID r) (bt_NextRetryAt r) (bt_SentAt r) (bt_ConfirmedAt r) (bt_FailedAt r).

(** A transaction as it is queued, for instance by src/blockchain/nodeStaking.go
    367-378: pending, not sent, without a retry. *)
Definition newTransaction (id : Z) (createdAt : Time) (network type fromAddress toAddress node : string)
    (delegators : list string) (maxRetries : Z) : BlockchainTransaction :=
  mkBlockchainTransaction id createdAt network type TransactionStatusPending fromAddress toAddress "0" node delegators
    None None None 0 maxRetries None None None None None.

(** [VestingDelegationEmissionDetail],
    src/models/vesting_delegation_emission_detail.go 10-21 *)
Record VestingDelegationEmissionDetail := mkVestingDelegationEmissionDetail {
  vd_VestingRecordID : Z;
  vd_UserAddress : string;
  vd_NodeAddress : string;
  vd_Network : string;
  vd_TaskFee : Z;
  vd_EmissionAmount : Z;
  vd_StartTime : Time
}.

#[export] Instance eta_vesting_detail : Eta VestingDelegationEmissionDetail := λ r,
  mkVestingDelegationEmissionDetail (vd_VestingRecordID r) (vd_UserAddress r) (vd_NodeAddress r)
    (vd_Network r) (vd_TaskFee r) (vd_EmissionAmount r) (vd_StartTime r).

(** ** Chain data

    What the relay reads from a blockchain node: receipts with their logs
    (addresses and topics in the hexadecimal form [Hex()] prints, data as
    bytes), plain transfers, and the staking record of a node. *)

Record ReceiptLog := mkReceiptLog {
  log_Address : string;
  log_Topics : list string;
  log_Data : list Z;
  log_TxHash : string;
  log_BlockNumber : Z;
  log_Index : Z
}.

Record Receipt := mkReceipt { rc_Status : Z; rc_Logs : list ReceiptLog }.

(** [TransactionTransfer], src/blockchain/client.go 492-498 *)
Record TransactionTransfer := mkTransactionTransfer {
  tf_Hash : string;
  tf_From : string;
  tf_To : option string;
  tf_Value : option Z;
  tf_Input : list Z
}.

Record StakingInfo := mkStakingInfo { si_StakedBalance : Z; si_Status : Z }.

(** The contract events of the generated bindings that the processors handle,
    src/blockchain/bindings, with the raw log they were parsed from. *)
Inductive NodeStakingLog :=
| NodeStaked (nodeAddress : string) (stakedBalance : Z)
| NodeTryUnstaked (nodeAddress : string)
| NodeSlashed (nodeAddress : string) (txHash : string) (logIndex : Z).

Inductive DelegatedStakingLog :=
| DelegatorStaked (delegatorAddress nodeAddress : string) (amount : Z)
| DelegatorUnstaked (delegatorAddress nodeAddress : string)
| NodeDelegatorShareChanged (nodeAddress : string) (share : Z)
| DelegatorSlashed (delegatorAddress nodeAddress : string) (amount : Z) (txHash : string) (blockNumber logIndex : Z).

(** What starting a task on a node computes from the model inventory and the
    execution-time calibration (src/service/task_status.go 113-149): the encoded
    model file hashes, whether the model has to be switched, the time limit in
    seconds and the predicted execution time. *)
Record ExecutionPlan := mkExecutionPlan {
  ep_ModelFileHashes : list Z;
  ep_ModelSwitched : bool;
  ep_ComputedTimeout : Z;
  ep_PredictedExecution : Duration
}.
