(* ===== verification/Float64.v ===== *)
(** * Facts about float64

    The binary64 numbers of [SpecFloat] as integers in units of the smallest
    subnormal number: every operation returns a canonical number, comparison is
    the comparison of the values, conversion of small integers is exact, and
    sums, products and quotients of non-negative numbers are non-negative. The
    file also holds the functions of the Go package [math] that the pricing of
    tasks uses. *)

From S2P Require Import Prelude Models.

Create HintDb float64.

Module Float64.

(** ** Functions of the package math *)

(** [math.IsNaN] *)
Definition IsNaN (x : float64) : bool := match x with S754_nan => true | _ => false end.

(** [math.IsInf(x, 0)] *)
Definition IsInf (x : float64) : bool := match x with S754_infinity _ => true | _ => false end.

(** [math.Max] *)
Definition Max (x y : float64) : float64 :=
  match x, y with
  | S754_infinity false, _ | _, S754_infinity false => S754_infinity false
  | S754_nan, _ | _, S754_nan => S754_nan
  | S754_zero s, S754_zero _ => if s then y else x
  | _, _ => if f64_lt y x then x else y
  end.

(** [math.Min] *)
Definition Min (x y : float64) : float64 :=
  match x, y with
  | S754_infinity true, _ | _, S754_infinity true => S754_infinity true
  | S754_nan, _ | _, S754_nan => S754_nan
  | S754_zero s, S754_zero _ => if s then x else y
  | _, _ => if f64_lt x y then x else y
  end.

(** [math.Ceil]: a finite number with a negative exponent is rounded up. *)
Definition Ceil (x : float64) : float64 :=
  match x with
  | S754_finite s m e =>
      if 0 <=? e then x
      else
        let z := - ((- cond_Zopp s (Z.pos m)) / 2 ^ (- e)) in
        if z =? 0 then S754_zero s else f64_of_Z z
  | _ => x
  end.

(** [math.Sqrt] *)
Definition Sqrt : float64 → float64 := SFsqrt 53 1024.

(** ** Canonical numbers and their values *)

Definition valid (x : float64) : Prop := valid_binary 53 1024 x = true.

(** The value of a finite number in units of 2^-1074. *)
Definition val (x : float64) : Z :=
  match x with
  | S754_finite s m e => cond_Zopp s (Z.pos m * 2 ^ (e + 1074))
  | _ => 0
  end.

(** Neither NaN nor negative; [-0] counts as zero. *)
Definition nonneg (x : float64) : bool :=
  match x with
  | S754_zero _ => true
  | S754_infinity s | S754_finite s _ _ => negb s
  | S754_nan => false
  end.

Definition finite (x : float64) : bool :=
  match x with S754_zero _ | S754_finite _ _ _ => true | _ => false end.

(** ** Rounding *)

Lemma digits2_pos_log2 p : Z.pos (digits2_pos p) = Z.log2 (Z.pos p) + 1.
Proof.
  induction p as [p IH|p IH|]; simpl digits2_pos; [| |reflexivity].
  - rewrite Pos2Z.inj_succ, IH, (Pos2Z.inj_xI p), Z.log2_succ_double by lia. lia.
  - rewrite Pos2Z.inj_succ, IH, (Pos2Z.inj_xO p), Z.log2_double by lia. lia.
Qed.

Lemma Zdigits2_log2 m : 0 < m → Zdigits2 m = Z.log2 m + 1.
Proof. destruct m; simpl; try lia. intros _. apply digits2_pos_log2. Qed.

Lemma shr_1_m r : 0 ≤ shr_m r → shr_m (shr_1 r) = shr_m r / 2.
Proof.
  destruct r as [m r s]. simpl. destruct m as [|[p|p|]|p]; simpl; intros Hm; [done| | |done|lia].
  - rewrite (Pos2Z.inj_xI p), Z.mul_comm, Z.div_add_l by lia. rewrite Z.add_0_r. done.
  - rewrite (Pos2Z.inj_xO p), Z.mul_comm, Z.div_mul by lia. done.
Qed.

Lemma iter_shr_1_m p : ∀ r, 0 ≤ shr_m r →
  shr_m (iter_pos shr_1 p r) = shr_m r / 2 ^ Z.pos p.
Proof.
  induction p as [p IH|p IH|]; intros r Hr; simpl iter_pos.
  - assert (H1 : 0 ≤ shr_m (shr_1 r)) by (rewrite shr_1_m by done; apply Z.div_pos; lia).
    assert (H2 : 0 ≤ shr_m (iter_pos shr_1 p (shr_1 r)))
      by (rewrite IH by done; apply Z.div_pos; [lia|apply Z.pow_pos_nonneg; lia]).
    rewrite IH, IH, shr_1_m, !Z.div_div by (lia || done).
    f_equal. rewrite (Pos2Z.inj_xI p), Z.pow_add_r, Z.pow_mul_r by lia.
    replace (2 ^ 2) with (2 * 2) by reflexivity. rewrite Z.pow_mul_l. lia.
  - assert (H2 : 0 ≤ shr_m (iter_pos shr_1 p r))
      by (rewrite IH by done; apply Z.div_pos; [lia|apply Z.pow_pos_nonneg; lia]).
    rewrite IH, IH, !Z.div_div by (lia || done).
    f_equal. rewrite (Pos2Z.inj_xO p), Z.pow_mul_r by lia.
    replace (2 ^ 2) with (2 * 2) by reflexivity. rewrite Z.pow_mul_l. lia.
  - rewrite shr_1_m by done. reflexivity.
Qed.

Lemma shr_record_of_loc_m m l : shr_m (shr_record_of_loc m l) = m.
Proof. destruct l as [|[]]; reflexivity. Qed.

(** The shift of [shr_fexp]: the mantissa is divided and the exponent raised. *)
Lemma shr_fexp_spec prec emax m e l : 0 ≤ m →
  let k := Z.max 0 (fexp prec emax (Zdigits2 m + e) - e) in
  let '(r, e') := shr_fexp prec emax m e l in shr_m r = m / 2 ^ k ∧ e' = e + k.
Proof.
  intros Hm k. unfold shr_fexp, shr.
  pose proof (shr_record_of_loc_m m l) as Hl.
  destruct (fexp prec emax (Zdigits2 m + e) - e) as [|p|p] eqn:Hk.
  - rewrite Hl. split; [|lia]. replace k with 0 by lia. rewrite Z.pow_0_r, Z.div_1_r. done.
  - split; [|lia]. rewrite iter_shr_1_m, Hl by lia. replace k with (Z.pos p) by lia. done.
  - rewrite Hl. split; [|lia]. replace k with 0 by lia. rewrite Z.pow_0_r, Z.div_1_r. done.
Qed.

Lemma round_nearest_even_range m l : round_nearest_even m l = m ∨ round_nearest_even m l = m + 1.
Proof. destruct l as [|[]]; simpl; auto. destruct (Z.even m); auto. Qed.

Lemma log2_div_pow2 m k : 0 ≤ k ≤ Z.log2 m → 0 < m → Z.log2 (m / 2 ^ k) = Z.log2 m - k.
Proof. intros Hk Hm. rewrite <- Z.shiftr_div_pow2 by lia. rewrite Z.log2_shiftr by lia. lia. Qed.

Lemma div_pow2_zero m k : 0 < m → Z.log2 m < k → m / 2 ^ k = 0.
Proof. intros Hm Hk. apply Z.div_small. split; [lia|]. apply Z.log2_lt_pow2; lia. Qed.

Lemma div_pow2_pos m k : 0 < m → 0 ≤ k ≤ Z.log2 m → 0 < m / 2 ^ k.
Proof.
  intros Hm Hk. apply Z.div_str_pos. split; [apply Z.pow_pos_nonneg; lia|].
  apply Z.log2_le_pow2; lia.
Qed.

Lemma log2_succ_cases m : 0 < m →
  Z.log2 (m + 1) = Z.log2 m ∨ (Z.log2 (m + 1) = Z.log2 m + 1 ∧ m + 1 = 2 ^ (Z.log2 m + 1)).
Proof.
  intros Hm. pose proof (Z.log2_nonneg m). destruct (Z.log2_spec m Hm) as [Hge Hlt].
  rewrite <- Z.add_1_r in Hlt. destruct (decide (m + 1 = 2 ^ (Z.log2 m + 1))) as [Heq|Hne].
  - right. split; [|done]. rewrite Heq at 1. apply Z.log2_pow2. lia.
  - left. apply Z.log2_unique; [lia|]. rewrite <- Z.add_1_r. lia.
Qed.

Lemma fexp_64 e : fexp 53 1024 e = Z.max (e - 53) (-1074).
Proof. reflexivity. Qed.

(** Rounding returns a canonical number when the exact mantissa has enough
    bits. *)
Lemma binary_round_aux_valid sx m e l :
  0 ≤ m → e ≤ fexp 53 1024 (Zdigits2 m + e) → valid (binary_round_aux 53 1024 sx m e l).
Proof.
  intros Hm He. unfold binary_round_aux.
  pose proof (shr_fexp_spec 53 1024 m e l Hm) as H1.
  destruct (shr_fexp 53 1024 m e l) as [r1 e1]. cbv zeta in H1. destruct H1 as [Hr1 ->].
  set (m2 := round_nearest_even (shr_m r1) (loc_of_shr_record r1)).
  pose proof (round_nearest_even_range (shr_m r1) (loc_of_shr_record r1)) as Hm2. fold m2 in Hm2.
  clearbody m2. rewrite Hr1 in Hm2. clear Hr1.
  rewrite fexp_64 in *. remember (Z.max 0 (Z.max (Zdigits2 m + e - 53) (-1074) - e)) as k1 eqn:Ek1.
  assert (Hk1 : e + k1 = Z.max (Zdigits2 m + e - 53) (-1074)) by lia.
  assert (Hm1 : 0 ≤ m / 2 ^ k1) by (apply Z.div_pos; [lia|apply Z.pow_pos_nonneg; lia]).
  pose proof (shr_fexp_spec 53 1024 m2 (e + k1) loc_Exact ltac:(lia)) as H2.
  destruct (shr_fexp 53 1024 m2 (e + k1) loc_Exact) as [r2 e2]. cbv zeta in H2.
  destruct H2 as [Hr2 ->]. rewrite fexp_64 in *. 
  remember (Z.max 0 (Z.max (Zdigits2 m2 + (e + k1) - 53) (-1074) - (e + k1))) as k2 eqn:Ek2.
  unfold valid. destruct (shr_m r2) as [|m3|] eqn:Hm3; [reflexivity| |reflexivity].
  destruct (e + k1 + k2 <=? 1024 - 53) eqn:Hle; [|reflexivity].
  simpl. unfold bounded, canonical_mantissa. rewrite Hle, andb_true_r, fexp_64.
  apply Z.eqb_eq. rewrite digits2_pos_log2, Hr2. clear Hm3 Hle r1 r2 l.
  assert (Hc : 0 < m ∧ k1 ≤ Z.log2 m ∨ m / 2 ^ k1 = 0 ∧ e + k1 = -1074).
  { destruct (decide (m = 0)) as [->|Hnz].
    - right. rewrite Z.div_0_l by (apply Z.pow_nonzero; lia). simpl in Hk1, He. split; [done|]. lia.
    - rewrite Zdigits2_log2 in * by lia. destruct (decide (k1 ≤ Z.log2 m)); [left; lia|right].
      split; [apply div_pow2_zero; lia|]. lia. }
  destruct Hc as [[Hpos Hk]|[Hz He1]].
  - rewrite Zdigits2_log2 in Hk1 by lia.
    pose proof (log2_div_pow2 m k1 ltac:(lia) Hpos) as Hlog.
    pose proof (div_pow2_pos m k1 Hpos ltac:(lia)) as Hp1.
    rewrite Zdigits2_log2 in Ek2 by lia. destruct Hm2 as [->| ->].
    + assert (k2 = 0) as -> by lia. rewrite Z.pow_0_r, Z.div_1_r. lia.
    + destruct (log2_succ_cases _ Hp1) as [Hs|[Hs Hpow]]; rewrite Hs in Ek2.
      * assert (k2 = 0) as -> by lia. rewrite Z.pow_0_r, Z.div_1_r. lia.
      * rewrite log2_div_pow2 by lia. lia.
  - rewrite Hz in Hm2. destruct Hm2 as [->| ->]; simpl Zdigits2 in Ek2.
    + rewrite Z.div_0_l in Hr2 by (apply Z.pow_nonzero; lia). lia.
    + assert (k2 = 0) as -> by lia. rewrite Z.pow_0_r, Z.div_1_r. simpl Z.log2. lia.
Qed.

(** The sign of a number that is not NaN. *)
Definition has_sign (s : bool) (x : float64) : Prop :=
  match x with
  | S754_zero s' | S754_infinity s' | S754_finite s' _ _ => s' = s
  | S754_nan => False
  end.

Lemma has_sign_nonneg x : has_sign false x → nonneg x = true.
Proof. by destruct x as [[]|[]| |[]]. Qed.

Lemma binary_round_aux_sign sx m e l : 0 ≤ m → has_sign sx (binary_round_aux 53 1024 sx m e l).
Proof.
  intros Hm. unfold binary_round_aux.
  pose proof (shr_fexp_spec 53 1024 m e l Hm) as H1.
  destruct (shr_fexp 53 1024 m e l) as [r1 e1]. cbv zeta in H1. destruct H1 as [Hr1 _].
  pose proof (round_nearest_even_range (shr_m r1) (loc_of_shr_record r1)) as Hm2.
  assert (0 ≤ shr_m r1) by (rewrite Hr1; apply Z.div_pos; [lia|apply Z.pow_pos_nonneg; lia]).
  assert (Hm2' : 0 ≤ round_nearest_even (shr_m r1) (loc_of_shr_record r1)) by lia.
  pose proof (shr_fexp_spec 53 1024 _ e1 loc_Exact Hm2') as H2.
  destruct (shr_fexp 53 1024 _ e1 loc_Exact) as [r2 e2]. cbv zeta in H2. destruct H2 as [Hr2 _].
  destruct (shr_m r2) as [|m3|m3] eqn:Hm3; [done| |].
  - by destruct (e2 <=? 1024 - 53).
  - exfalso. assert (0 ≤ Z.neg m3); [|lia].
    rewrite Hr2. apply Z.div_pos; [lia|apply Z.pow_pos_nonneg; lia].
Qed.

Lemma iter_xO p d : Z.pos (Pos.iter xO p d) = Z.pos p * 2 ^ Z.pos d.
Proof.
  induction d as [|d IH] using Pos.peano_ind.
  - simpl. lia.
  - rewrite Pos.iter_succ, Pos2Z.inj_succ, Z.pow_succ_r, Pos2Z.inj_xO, IH by lia. lia.
Qed.

(** Aligning to a smaller exponent keeps the value. *)
Lemma shl_align_spec p e e' :
  let '(m, e1) := shl_align p e e' in
  e1 = Z.min e e' ∧ Z.pos m = Z.pos p * 2 ^ (e - e1).
Proof.
  unfold shl_align. destruct (e' - e) as [|d|d] eqn:Hd.
  - split; [lia|]. rewrite Z.sub_diag. lia.
  - split; [lia|]. rewrite Z.sub_diag. lia.
  - split; [lia|]. rewrite iter_xO. f_equal. f_equal. lia.
Qed.

Lemma log2_mul_pow2' m k : 0 < m → 0 ≤ k → Z.log2 (m * 2 ^ k) = Z.log2 m + k.
Proof. intros Hm Hk. rewrite Z.log2_mul_pow2 by lia. lia. Qed.

Lemma binary_round_valid sx p e : valid (binary_round 53 1024 sx p e).
Proof.
  unfold binary_round. pose proof (shl_align_spec p e (fexp 53 1024 (Z.pos (digits2_pos p) + e))) as Ha.
  destruct (shl_align _ _ _) as [m e1]. destruct Ha as [He1 Hm]. rewrite fexp_64, digits2_pos_log2 in He1.
  apply binary_round_aux_valid; [lia|]. rewrite fexp_64, Zdigits2_log2, Hm, log2_mul_pow2' by lia. lia.
Qed.

Lemma binary_round_sign sx p e : has_sign sx (binary_round 53 1024 sx p e).
Proof. unfold binary_round. destruct (shl_align _ _ _). apply binary_round_aux_sign. lia. Qed.

Lemma binary_normalize_valid m e s : valid (binary_normalize 53 1024 m e s).
Proof. destruct m; simpl; [done| |]; apply binary_round_valid. Qed.

Lemma f64_of_Z_valid z : valid (f64_of_Z z).
Proof. apply binary_normalize_valid. Qed.

Lemma valid_finite s m e : valid (S754_finite s m e) ↔
  e = Z.max (Z.log2 (Z.pos m) + 1 + e - 53) (-1074) ∧ e ≤ 971.
Proof.
  unfold valid, valid_binary, bounded, canonical_mantissa.
  rewrite fexp_64, digits2_pos_log2, andb_true_iff, Z.eqb_eq, Z.leb_le. lia.
Qed.

Lemma log2_mul_bounds a b : 0 < a → 0 < b → Z.log2 a + Z.log2 b ≤ Z.log2 (a * b).
Proof. intros Ha Hb. apply Z.log2_mul_below; lia. Qed.

Lemma f64_mul_valid x y : valid x → valid y → valid (f64_mul x y).
Proof.
  destruct x as [?|?| |s m e]; try by (intros; destruct y).
  destruct y as [?|?| |s' m' e']; try by intros.
  rewrite !valid_finite. intros [H1 _] [H2 _]. unfold f64_mul, SFmul.
  apply binary_round_aux_valid; [lia|].
  rewrite fexp_64, Zdigits2_log2, Pos2Z.inj_mul by lia.
  pose proof (log2_mul_bounds (Z.pos m) (Z.pos m') ltac:(lia) ltac:(lia)).
  pose proof (Z.log2_nonneg (Z.pos m)). pose proof (Z.log2_nonneg (Z.pos m')). lia.
Qed.

Lemma f64_add_valid x y : valid x → valid y → valid (f64_add x y).
Proof.
  intros Hx Hy. destruct x as [[]|[]| |]; destruct y as [[]|[]| |]; try done.
  apply binary_normalize_valid.
Qed.

Lemma log2_div_lower a b : 0 < b → b ≤ a → Z.log2 a - Z.log2 b - 1 ≤ Z.log2 (a / b).
Proof.
  intros Hb Hab. pose proof (Z.log2_nonneg b). pose proof (Z.log2_nonneg a).
  destruct (decide (Z.log2 a - Z.log2 b - 1 < 0)); [pose proof (Z.log2_nonneg (a / b)); lia|].
  apply Z.log2_le_pow2; [apply Z.div_str_pos; lia|].
  apply Z.div_le_lower_bound; [done|].
  destruct (Z.log2_spec b Hb) as [_ Hb2]. destruct (Z.log2_spec a ltac:(lia)) as [Ha _].
  transitivity (2 ^ Z.succ (Z.log2 b) * 2 ^ (Z.log2 a - Z.log2 b - 1)).
  - apply Z.mul_le_mono_nonneg_r; [apply Z.pow_nonneg|]; lia.
  - rewrite <- Z.pow_add_r by lia. etransitivity; [|exact Ha]. apply Z.pow_le_mono_r; lia.
Qed.

Lemma f64_div_valid x y : valid (f64_div x y).
Proof.
  destruct x as [?|?| |s m e]; try by destruct y.
  destruct y as [?|?| |s' m' e']; try done.
  unfold f64_div, SFdiv, SFdiv_core_binary. rewrite fexp_64, !Zdigits2_log2 by lia.
  set (e2 := Z.min _ _). set (a := match e - e' - e2 with Z0 => _ | Zpos _ => _ | Zneg _ => _ end).
  assert (Ha : a = Z.pos m * 2 ^ (e - e' - e2)).
  { unfold a. destruct (e - e' - e2) eqn:Hd; [lia|apply Z.shiftl_mul_pow2; lia|lia]. }
  clearbody a. pose proof (Z_div_mod a (Z.pos m') ltac:(lia)) as Hq.
  destruct (Z.div_eucl a (Z.pos m')) as [q r]. destruct Hq as [Hq Hr].
  assert (Hq' : q = a / Z.pos m') by (apply (Z.div_unique a (Z.pos m') q r); lia).
  assert (Hlog : Z.log2 a = Z.log2 (Z.pos m) + (e - e' - e2))
    by (rewrite Ha; apply log2_mul_pow2'; lia).
  assert (Ha0 : 0 < a) by (rewrite Ha; apply Z.mul_pos_pos; [lia|apply Z.pow_pos_nonneg; lia]).
  apply binary_round_aux_valid; [rewrite Hq'; apply Z.div_pos; lia|]. rewrite fexp_64.
  destruct (decide (Z.pos m' ≤ a)) as [Hle|Hlt].
  - assert (0 < q) by (rewrite Hq'; apply Z.div_str_pos; lia).
    pose proof (log2_div_lower a (Z.pos m') ltac:(lia) Hle) as Hl. rewrite <- Hq' in Hl.
    rewrite Zdigits2_log2 by done. lia.
  - assert (q = 0) as -> by (rewrite Hq'; apply Z.div_small; lia). simpl Zdigits2.
    pose proof (Z.log2_le_mono a (Z.pos m') ltac:(lia)). lia.
Qed.

(** ** Comparison *)

Lemma val_finite_range s m e : valid (S754_finite s m e) →
  2 ^ (Z.log2 (Z.pos m) + e + 1074) ≤ Z.pos m * 2 ^ (e + 1074) < 2 ^ (Z.log2 (Z.pos m) + e + 1075).
Proof.
  intros [H _]%valid_finite. pose proof (Z.log2_nonneg (Z.pos m)).
  destruct (Z.log2_spec (Z.pos m) ltac:(lia)) as [Hl Hu].
  assert (0 < 2 ^ (e + 1074)) by (apply Z.pow_pos_nonneg; lia).
  replace (Z.log2 (Z.pos m) + e + 1074) with (Z.log2 (Z.pos m) + (e + 1074)) by lia.
  replace (Z.log2 (Z.pos m) + e + 1075) with (Z.succ (Z.log2 (Z.pos m)) + (e + 1074)) by lia.
  rewrite (Z.pow_add_r 2 (Z.log2 (Z.pos m))), (Z.pow_add_r 2 (Z.succ _)) by lia.
  split; [apply Z.mul_le_mono_nonneg_r|apply Z.mul_lt_mono_pos_r]; lia.
Qed.

Lemma compare_mantissas m1 e1 m2 e2 s1 s2 :
  valid (S754_finite s1 m1 e1) → valid (S754_finite s2 m2 e2) →
  match Z.compare e1 e2 with Lt => Lt | Gt => Gt | Eq => Pos.compare_cont Eq m1 m2 end =
  Z.compare (Z.pos m1 * 2 ^ (e1 + 1074)) (Z.pos m2 * 2 ^ (e2 + 1074)).
Proof.
  intros V1 V2. pose proof (val_finite_range _ _ _ V1) as R1. pose proof (val_finite_range _ _ _ V2) as R2.
  apply valid_finite in V1 as [V1 _], V2 as [V2 _].
  pose proof (Z.log2_nonneg (Z.pos m1)). pose proof (Z.log2_nonneg (Z.pos m2)).
  symmetry. destruct (Z.compare_spec e1 e2) as [->|Hlt|Hgt].
  - change (Pos.compare_cont Eq m1 m2) with (Z.pos m1 ?= Z.pos m2).
    symmetry. apply Zmult_compare_compat_r, Z.lt_gt, Z.pow_pos_nonneg; lia.
  - apply Z.compare_lt_iff. eapply Z.lt_le_trans; [apply R1|]. etransitivity; [|apply R2].
    apply Z.pow_le_mono_r; lia.
  - apply Z.compare_gt_iff. eapply Z.lt_le_trans; [apply R2|]. etransitivity; [|apply R1].
    apply Z.pow_le_mono_r; lia.
Qed.

(** Comparison of finite numbers is the comparison of their values. *)
Lemma SFcompare_val x y : valid x → valid y → finite x = true → finite y = true →
  SFcompare x y = Some (Z.compare (val x) (val y)).
Proof.
  assert (P : ∀ m e, e = Z.max (Z.log2 (Z.pos m) + 1 + e - 53) (-1074) → 0 < Z.pos m * 2 ^ (e + 1074)).
  { intros m e He. apply Z.mul_pos_pos; [lia|apply Z.pow_pos_nonneg; lia]. }
  destruct x as [s1|?| |s1 m1 e1]; destruct y as [s2|?| |s2 m2 e2]; try done; intros V1 V2 _ _;
    unfold SFcompare, val.
  - apply valid_finite in V2 as [V2 _]. specialize (P m2 e2 V2). f_equal. symmetry.
    destruct s2; unfold cond_Zopp; [apply Z.compare_gt_iff|apply Z.compare_lt_iff]; lia.
  - apply valid_finite in V1 as [V1 _]. specialize (P m1 e1 V1). f_equal. symmetry.
    destruct s1; unfold cond_Zopp; [apply Z.compare_lt_iff|apply Z.compare_gt_iff]; lia.
  - pose proof (compare_mantissas _ _ _ _ _ _ V1 V2) as Hc.
    apply valid_finite in V1 as [V1 _], V2 as [V2 _].
    pose proof (P m1 e1 V1) as P1. pose proof (P m2 e2 V2) as P2.
    f_equal. destruct s1, s2; unfold cond_Zopp; cbn [cond_Zopp].
    + rewrite Z.compare_opp, (Z.compare_antisym (Z.pos m1 * 2 ^ (e1 + 1074))), <- Hc.
      by destruct (e1 ?= e2).
    + symmetry. apply Z.compare_lt_iff. lia.
    + symmetry. apply Z.compare_gt_iff. lia.
    + done.
Qed.

Lemma f64_lt_val x y : valid x → valid y → finite x = true → finite y = true →
  f64_lt x y = (val x <? val y).
Proof. intros. unfold f64_lt, SFltb. rewrite SFcompare_val by done. unfold Z.ltb. by destruct (_ ?= _). Qed.

(** ** Integers *)

(** A canonical mantissa is not rounded. *)
Lemma binary_round_aux_exact sx m e :
  e = fexp 53 1024 (Zdigits2 (Z.pos m) + e) → e ≤ 971 →
  binary_round_aux 53 1024 sx (Z.pos m) e loc_Exact = S754_finite sx m e.
Proof.
  intros He Hle. unfold binary_round_aux, shr_fexp. rewrite <- He, Z.sub_diag. simpl shr.
  cbn [shr_record_of_loc loc_of_shr_record round_nearest_even shr_m].
  rewrite <- He, Z.sub_diag. simpl shr. cbn [shr_m].
  rewrite (proj2 (Z.leb_le e (1024 - 53))) by lia. done.
Qed.

(** Small integers are converted exactly. *)
Lemma f64_of_Z_val n : Z.abs n < 2 ^ 53 → finite (f64_of_Z n) = true ∧ val (f64_of_Z n) = n * 2 ^ 1074.
Proof.
  intros Hn. unfold f64_of_Z, binary_normalize.
  assert (Hp : ∀ sx p, Z.pos p < 2 ^ 53 → ∃ m e, binary_round 53 1024 sx p 0 = S754_finite sx m e ∧
            Z.pos m * 2 ^ (e + 1074) = Z.pos p * 2 ^ 1074).
  { intros sx p Hp. unfold binary_round.
    pose proof (shl_align_spec p 0 (fexp 53 1024 (Z.pos (digits2_pos p) + 0))) as Ha.
    destruct (shl_align _ _ _) as [m e]. destruct Ha as [He Hm].
    rewrite fexp_64, digits2_pos_log2 in He.
    assert (HL : Z.log2 (Z.pos p) < 53) by (apply Z.log2_lt_pow2; lia).
    pose proof (Z.log2_nonneg (Z.pos p)). exists m, e. split.
    - apply binary_round_aux_exact; [|lia].
      rewrite fexp_64, Zdigits2_log2, Hm, log2_mul_pow2' by lia. lia.
    - rewrite Hm, <- Z.mul_assoc, <- Z.pow_add_r by lia. f_equal. f_equal. lia. }
  destruct n as [|p|p]; [done| |].
  - destruct (Hp false p ltac:(lia)) as (m & e & -> & Hv). split; [done|]. unfold val, cond_Zopp. lia.
  - destruct (Hp true p ltac:(lia)) as (m & e & -> & Hv). split; [done|]. unfold val, cond_Zopp. lia.
Qed.

Lemma pow2_split e : -1074 ≤ e < 0 → 2 ^ 1074 = 2 ^ (e + 1074) * 2 ^ (- e).
Proof. intros He. rewrite <- Z.pow_add_r by lia. f_equal. lia. Qed.

Lemma f64_trunc_val x : valid x → nonneg x = true → f64_trunc x = val x / 2 ^ 1074.
Proof.
  destruct x as [?|?| |s m e]; try done. intros [V _]%valid_finite Hs. destruct s; [done|].
  unfold f64_trunc, val, cond_Zopp. destruct (Z.leb_spec 0 e).
  - rewrite Z.pow_add_r, Z.mul_assoc, Z.div_mul by (lia || apply Z.pow_nonzero; lia). done.
  - rewrite (pow2_split e), (Z.mul_comm (2 ^ (e + 1074))) by lia.
    rewrite Z.div_mul_cancel_r by (apply Z.pow_nonzero; lia). done.
Qed.

Lemma f64_of_Z_nonneg n : 0 ≤ n → nonneg (f64_of_Z n) = true.
Proof.
  intros Hn. apply has_sign_nonneg. unfold f64_of_Z, binary_normalize.
  destruct n; [done|apply binary_round_sign|lia].
Qed.

Lemma f64_trunc_of_Z n : 0 ≤ n < 2 ^ 53 → f64_trunc (f64_of_Z n) = n.
Proof.
  intros Hn. rewrite f64_trunc_val by (apply f64_of_Z_valid || apply f64_of_Z_nonneg; lia).
  destruct (f64_of_Z_val n) as [_ ->]; [lia|]. apply Z.div_mul, Z.pow_nonzero; lia.
Qed.

(** The smallest integer that is at least [x]. *)
Lemma f64_trunc_Ceil x : valid x → finite x = true → nonneg x = true →
  f64_trunc (Ceil x) = - ((- val x) / 2 ^ 1074).
Proof.
  destruct x as [?|?| |s m e]; try done. intros V _ Hs. destruct s; [done|].
  pose proof V as [V1 _]%valid_finite. unfold Ceil. destruct (Z.leb_spec 0 e).
  - rewrite f64_trunc_val by done. unfold val, cond_Zopp.
    rewrite Z.pow_add_r, Z.mul_assoc, <- Z.mul_opp_l, !Z.div_mul by (lia || apply Z.pow_nonzero; lia). lia.
  - unfold val, cond_Zopp. rewrite (pow2_split e), (Z.mul_comm (2 ^ (e + 1074))), <- Z.mul_opp_l by lia.
    rewrite Z.div_mul_cancel_r by (apply Z.pow_nonzero; lia).
    set (z := - (- Z.pos m / 2 ^ (- e))).
    assert (Hp : 2 ≤ 2 ^ (- e)) by (rewrite <- (Z.pow_1_r 2) at 1; apply Z.pow_le_mono_r; lia).
    assert (Hm : Z.pos m < 2 ^ 53) by (apply Z.log2_lt_pow2; lia).
    assert (Hz : 0 < z ≤ Z.pos m).
    { unfold z. split.
      - assert (- Z.pos m / 2 ^ (- e) < 0); [apply Z.div_lt_upper_bound|]; lia.
      - assert (- Z.pos m ≤ - Z.pos m / 2 ^ (- e)); [apply Z.div_le_lower_bound|]; nia. }
    clearbody z. destruct (Z.eqb_spec z 0); [lia|]. apply f64_trunc_of_Z. lia.
Qed.

(** ** Clamping *)

Lemma Max_val x y : valid x → valid y → finite x = true → finite y = true →
  (Max x y = x ∨ Max x y = y) ∧ val (Max x y) = Z.max (val x) (val y).
Proof.
  intros Vx Vy Fx Fy. assert (Hlt := f64_lt_val y x Vy Vx Fy Fx).
  assert (Hm : Max x y = (if f64_lt y x then x else y) ∨
               val x = 0 ∧ val y = 0 ∧ (Max x y = x ∨ Max x y = y)).
  { destruct x as [[]|?| |]; destruct y as [?|?| |]; try done; auto; right; auto. }
  destruct Hm as [Hm|(Hx & Hy & [Hm|Hm])]; [|rewrite Hm; split; [auto|lia] ..].
  rewrite Hm, Hlt. destruct (Z.ltb_spec (val y) (val x)); split; auto; lia.
Qed.

Lemma Min_val x y : valid x → valid y → finite x = true → finite y = true →
  (Min x y = x ∨ Min x y = y) ∧ val (Min x y) = Z.min (val x) (val y).
Proof.
  intros Vx Vy Fx Fy. assert (Hlt := f64_lt_val x y Vx Vy Fx Fy).
  assert (Hm : Min x y = (if f64_lt x y then x else y) ∨
               val x = 0 ∧ val y = 0 ∧ (Min x y = x ∨ Min x y = y)).
  { destruct x as [[]|?| |]; destruct y as [?|?| |]; try done; auto; right; auto. }
  destruct Hm as [Hm|(Hx & Hy & [Hm|Hm])]; [|rewrite Hm; split; [auto|lia] ..].
  rewrite Hm, Hlt. destruct (Z.ltb_spec (val x) (val y)); split; auto; lia.
Qed.

(** The value rounded up to an integer. *)
Definition ceilZ (v : Z) : Z := - ((- v) / 2 ^ 1074).

Lemma ceilZ_mono v w : v ≤ w → ceilZ v ≤ ceilZ w.
Proof.
  intros H. unfold ceilZ. apply Z.opp_le_mono. rewrite !Z.opp_involutive.
  apply Z.div_le_mono; [apply Z.pow_pos_nonneg|]; lia.
Qed.

Lemma ceilZ_int n : ceilZ (n * 2 ^ 1074) = n.
Proof. unfold ceilZ. rewrite <- Z.mul_opp_l, Z.div_mul by (apply Z.pow_nonzero; lia). lia. Qed.

(** A non-negative number, clamped between two integers and rounded up. *)
Lemma clamp_spec t lo hi : valid t → nonneg t = true → 0 ≤ lo ≤ hi → hi < 2 ^ 53 →
  f64_trunc (Ceil (Min (Max t (f64_of_Z lo)) (f64_of_Z hi))) =
  if IsInf t then hi else Z.min hi (Z.max lo (ceilZ (val t))).
Proof.
  intros V N Hlo Hhi.
  pose proof (f64_of_Z_valid lo) as Vl. pose proof (f64_of_Z_valid hi) as Vh.
  destruct (f64_of_Z_val lo) as [Fl El]; [lia|]. destruct (f64_of_Z_val hi) as [Fh Eh]; [lia|].
  pose proof (f64_of_Z_nonneg lo ltac:(lia)) as Nl. pose proof (f64_of_Z_nonneg hi ltac:(lia)) as Nh.
  assert (Hceil : ∀ x, valid x → finite x = true → nonneg x = true → f64_trunc (Ceil x) = ceilZ (val x))
    by (intros; by apply f64_trunc_Ceil).
  assert (Hd : IsInf t = true ∧ t = S754_infinity false ∨ IsInf t = false ∧ finite t = true).
  { destruct t as [?|[]| |]; auto; done. }
  destruct Hd as [[-> ->]|[-> Ft]].
  - assert (Min (Max (S754_infinity false) (f64_of_Z lo)) (f64_of_Z hi) = f64_of_Z hi) as ->.
    { change (Max (S754_infinity false) (f64_of_Z lo)) with (S754_infinity false).
      destruct (f64_of_Z hi) as [?|[]| |[]]; done. }
    by rewrite Hceil, Eh, ceilZ_int.
  - destruct (Max_val t (f64_of_Z lo) V Vl Ft Fl) as [Hm Em].
    assert (Hmx : valid (Max t (f64_of_Z lo)) ∧ finite (Max t (f64_of_Z lo)) = true ∧
              nonneg (Max t (f64_of_Z lo)) = true) by (destruct Hm as [-> | ->]; auto).
    destruct Hmx as (Vm & Fm & Nm). revert Em Vm Fm Nm. generalize (Max t (f64_of_Z lo)). intros u Eu Vu Fu Nu.
    destruct (Min_val u (f64_of_Z hi) Vu Vh Fu Fh) as [Hn En].
    rewrite Hceil by (destruct Hn as [-> | ->]; done). rewrite En, Eu, El, Eh.
    pose proof (ceilZ_int lo) as Cl. pose proof (ceilZ_int hi) as Ch.
    destruct (Z.min_spec (val t `max` (lo * 2 ^ 1074)) (hi * 2 ^ 1074)) as [[H1 ->]|[H1 ->]];
      destruct (Z.max_spec (val t) (lo * 2 ^ 1074)) as [[H2 E2]|[H2 E2]]; rewrite ?E2 in *;
      try apply Z.lt_le_incl in H1; try apply Z.lt_le_incl in H2;
      apply ceilZ_mono in H1, H2; rewrite ?Cl, ?Ch in *; lia.
Qed.

(** ** Numbers that are not negative *)

Lemma f64_add_nonneg x y : nonneg x = true → nonneg y = true → nonneg (f64_add x y) = true.
Proof.
  intros Hx Hy. destruct x as [[]|[]| |[] m e]; destruct y as [[]|[]| |[] m' e']; try done.
  apply has_sign_nonneg. unfold f64_add, SFadd, cond_Zopp, binary_normalize.
  destruct (Z.pos _ + Z.pos _) eqn:H; [lia|apply binary_round_sign|lia].
Qed.

Lemma f64_mul_nonneg x y : nonneg x = true → nonneg y = true → finite x = true → finite y = true →
  nonneg (f64_mul x y) = true.
Proof.
  intros Hx Hy. destruct x as [?|[]| |[] m e]; destruct y as [?|[]| |[] m' e']; try done. intros _ _.
  apply has_sign_nonneg, (binary_round_aux_sign false). lia.
Qed.

(** A factor that is positive also keeps infinity. *)
Lemma f64_mul_nonneg_pos x y : nonneg x = true → f64_lt f64_zero y = true → finite y = true →
  nonneg (f64_mul x y) = true.
Proof.
  intros Hx Hy Fy. destruct y as [?|?| |[] m' e']; try done.
  destruct x as [?|[]| |[] m e]; try done.
  apply has_sign_nonneg, (binary_round_aux_sign false). lia.
Qed.

Lemma f64_div_nonneg x y : nonneg x = true → f64_lt f64_zero y = true → finite y = true →
  nonneg (f64_div x y) = true.
Proof.
  intros Hx Hy Fy. destruct y as [?|?| |[] m' e']; try done.
  destruct x as [?|[]| |[] m e]; try done.
  apply has_sign_nonneg. unfold f64_div, SFdiv.
  destruct (SFdiv_core_binary _ _ _ _ _ _) as [[q e2] l] eqn:Hq.
  apply (binary_round_aux_sign false).
  unfold SFdiv_core_binary in Hq. revert Hq.
  set (a := match _ with Z0 => _ | Zpos _ => _ | Zneg _ => _ end).
  assert (0 ≤ a) by (unfold a; destruct (_ - _ - _); [lia|apply Z.shiftl_nonneg|]; lia).
  clearbody a. pose proof (Z_div_mod a (Z.pos m') ltac:(lia)) as Hd.
  destruct (Z.div_eucl a (Z.pos m')) as [q' r']. intros [= <- _ _]. nia.
Qed.

(** ** Large integers and infinity *)

(** Rounding does not overflow far below the largest exponent. *)
Lemma binary_round_aux_finite sx m e l : 0 ≤ m → Zdigits2 m + e ≤ 1010 → e ≤ 960 →
  finite (binary_round_aux 53 1024 sx m e l) = true.
Proof.
  intros Hm Hd He. unfold binary_round_aux.
  pose proof (shr_fexp_spec 53 1024 m e l Hm) as H1.
  destruct (shr_fexp 53 1024 m e l) as [r1 e1]. cbv zeta in H1. destruct H1 as [Hr1 ->].
  rewrite fexp_64 in *. remember (Z.max 0 (Z.max (Zdigits2 m + e - 53) (-1074) - e)) as k1 eqn:Ek1.
  pose proof (round_nearest_even_range (shr_m r1) (loc_of_shr_record r1)) as Hm2.
  set (m2 := round_nearest_even (shr_m r1) (loc_of_shr_record r1)) in *. clearbody m2. rewrite Hr1 in Hm2.
  assert (Hm1 : 0 ≤ m / 2 ^ k1) by (apply Z.div_pos; [lia|apply Z.pow_pos_nonneg; lia]).
  assert (Hdm : Zdigits2 m2 + (e + k1) ≤ 1011 ∨ Zdigits2 m2 ≤ 1).
  { destruct (decide (m = 0)) as [->|Hnz].
    { rewrite Z.div_0_l in Hm2 by (apply Z.pow_nonzero; lia). destruct Hm2 as [->| ->]; simpl; lia. }
    rewrite Zdigits2_log2 in Hd, Ek1 by lia. destruct (decide (k1 ≤ Z.log2 m)) as [Hk|Hk].
    - pose proof (div_pow2_pos m k1 ltac:(lia) ltac:(lia)). pose proof (log2_div_pow2 m k1 ltac:(lia) ltac:(lia)).
      left. rewrite Zdigits2_log2 by lia. destruct Hm2 as [->| ->]; [lia|].
      destruct (log2_succ_cases (m / 2 ^ k1) ltac:(lia)) as [Hs|[Hs _]]; lia.
    - rewrite div_pow2_zero in Hm2 by lia. right. destruct Hm2 as [->| ->]; simpl; lia. }
  pose proof (shr_fexp_spec 53 1024 m2 (e + k1) loc_Exact ltac:(lia)) as H2.
  destruct (shr_fexp 53 1024 m2 (e + k1) loc_Exact) as [r2 e2]. cbv zeta in H2. destruct H2 as [Hr2 ->].
  rewrite fexp_64 in *.
  assert (Hk1 : e + k1 ≤ 960) by (destruct (Z.max_spec 0 (Z.max (Zdigits2 m + e - 53) (-1074) - e)); lia).
  destruct (shr_m r2) as [|m3|m3]; [done| |].
  - destruct (Z.leb_spec (e + k1 + Z.max 0 (Z.max (Zdigits2 m2 + (e + k1) - 53) (-1074) - (e + k1))) (1024 - 53));
      [done|lia].
  - exfalso. assert (0 ≤ Z.neg m3); [|lia].
    rewrite Hr2. apply Z.div_pos; [lia|apply Z.pow_pos_nonneg; lia].
Qed.

Lemma f64_of_Z_finite n : 0 ≤ n < 2 ^ 900 → finite (f64_of_Z n) = true.
Proof.
  intros Hn. unfold f64_of_Z, binary_normalize. destruct n as [|p|p]; [done| |lia].
  unfold binary_round. pose proof (shl_align_spec p 0 (fexp 53 1024 (Z.pos (digits2_pos p) + 0))) as Ha.
  destruct (shl_align _ _ _) as [m e]. destruct Ha as [He Hm].
  assert (HL : Z.log2 (Z.pos p) < 900) by (apply Z.log2_lt_pow2; lia).
  apply binary_round_aux_finite; [lia| |lia]. rewrite Zdigits2_log2, Hm, log2_mul_pow2' by lia. lia.
Qed.

(** A quotient by a number of at least 2^19 does not overflow. *)
Lemma f64_div_finite s m e s' m' e' :
  valid (S754_finite s m e) → 20 ≤ Z.log2 (Z.pos m') + 1 + e' → e' ≤ 0 →
  finite (f64_div (S754_finite s m e) (S754_finite s' m' e')) = true.
Proof.
  intros [V V']%valid_finite Hy He'. unfold f64_div, SFdiv, SFdiv_core_binary. rewrite fexp_64, !Zdigits2_log2 by lia.
  set (e2 := Z.min _ _). set (a := match e - e' - e2 with Z0 => _ | Zpos _ => _ | Zneg _ => _ end).
  assert (Ha : a = Z.pos m * 2 ^ (e - e' - e2)).
  { unfold a. destruct (e - e' - e2) eqn:Hd; [lia|apply Z.shiftl_mul_pow2; lia|lia]. }
  clearbody a. pose proof (Z_div_mod a (Z.pos m') ltac:(lia)) as Hq.
  destruct (Z.div_eucl a (Z.pos m')) as [q r]. destruct Hq as [Hq Hr].
  assert (Ha0 : 0 < a) by (rewrite Ha; apply Z.mul_pos_pos; [lia|apply Z.pow_pos_nonneg; lia]).
  assert (Hlog : Z.log2 a = Z.log2 (Z.pos m) + (e - e' - e2)) by (rewrite Ha; apply log2_mul_pow2'; lia).
  assert (Hq0 : 0 ≤ q) by nia.
  pose proof (Z.log2_nonneg (Z.pos m)). pose proof (Z.log2_nonneg (Z.pos m')).
  apply binary_round_aux_finite; [done| |lia].
  destruct (decide (q = 0)) as [->|Hnz]; [simpl; lia|].
  rewrite Zdigits2_log2 by lia. pose proof (Z.log2_mul_below (Z.pos m') q ltac:(lia) ltac:(lia)) as Hb.
  pose proof (Z.log2_le_mono (Z.pos m' * q) a ltac:(lia)). lia.
Qed.

(** The place of a number that is not negative, infinity last. *)
Definition rank (x : float64) : Z := if IsInf x then 2 ^ 3000 else val x.

Lemma val_lt_infinity x : valid x → val x < 2 ^ 3000.
Proof.
  destruct x as [?|?| |s m e]; try (intros; simpl; apply Z.pow_pos_nonneg; lia).
  intros V. pose proof (val_finite_range _ _ _ V) as [_ R]. apply valid_finite in V as [V V'].
  assert (2 ^ (Z.log2 (Z.pos m) + e + 1075) ≤ 2 ^ 3000) by (apply Z.pow_le_mono_r; lia).
  assert (0 < Z.pos m * 2 ^ (e + 1074)) by (apply Z.mul_pos_pos; [lia|apply Z.pow_pos_nonneg; lia]).
  unfold val, cond_Zopp. destruct s; lia.
Qed.

Lemma f64_le_rank x y : valid x → valid y → nonneg x = true → nonneg y = true →
  f64_le x y = (rank x <=? rank y).
Proof.
  intros Vx Vy Nx Ny. pose proof (val_lt_infinity x Vx) as Lx. pose proof (val_lt_infinity y Vy) as Ly.
  unfold rank. destruct (IsInf x) eqn:Ix; [destruct x as [?|[]| |]; try done|];
    (destruct (IsInf y) eqn:Iy; [destruct y as [?|[]| |]; try done|]).
  - destruct y as [?|?| |[]]; try done; symmetry; apply Z.leb_gt; lia.
  - destruct x as [?|?| |[]]; try done; symmetry; apply Z.leb_le; lia.
  - unfold f64_le, SFleb. rewrite SFcompare_val by (done || by destruct x as [?|?| |]; by destruct y as [?|?| |]).
    unfold Z.leb. by destruct (_ ?= _).
Qed.

#[export] Hint Resolve f64_of_Z_valid f64_mul_valid f64_add_valid f64_div_valid : float64.
#[export] Hint Resolve f64_add_nonneg f64_mul_nonneg f64_mul_nonneg_pos f64_div_nonneg f64_of_Z_nonneg : float64.

End Float64.
