(* ===== verification/Config.v ===== *)
(** * Configuration

    The settings of src/config/app_config.go that the modelled services read.
    A configuration is a value the services are given; the theorems that need
    a restriction on it (a percentage that is at most 100, for instance) state
    it as a hypothesis. *)

From Stdlib Require Import Ascii.
From S2P Require Import Prelude Json Models.

(** [WithdrawalFeeTierConfig], src/config/app_config.go 26-29 *)
Record WithdrawalFeeTierConfig := mkTier { tier_MinAmount : Z; tier_FeeRatio : float64 }.

(** [SystemBlockchainConfig], src/config/app_config.go 50-70: the settings of a
    blockchain network that the modelled code reads. *)
Record SystemBlockchainConfig := mkSystemBlockchainConfig {
  bc_AccountAddress : string;
  bc_WithdrawalFee : Z;
  bc_WithdrawalMin : Z;
  bc_WithdrawalFeeTiers : list WithdrawalFeeTierConfig;
  bc_MaxWithdrawalsPerDay : Z;
  bc_StartBlockNum : Z;
  bc_NodeStaking : string;
  bc_DelegatedStaking : string;
  bc_DelegatedStakingSlashBatchSize : Z;
  bc_MaxRetries : Z;
  bc_RetryInterval : Z;
  bc_SendWaitTime : Z;
  bc_ReceiptWaitTime : Z;
  bc_SentTransactionCountLimit : Z
}.

(** [DepositWithdrawNetworkConfig], src/config/app_config.go 77-88 *)
Record DepositWithdrawNetworkConfig := mkDepositWithdrawNetworkConfig {
  dw_TokenAddress : string;
  dw_WithdrawalFee : Z;
  dw_WithdrawalMin : Z;
  dw_WithdrawalFeeTiers : list WithdrawalFeeTierConfig;
  dw_MaxWithdrawalsPerDay : Z;
  dw_StartBlockNum : Z;
  dw_LogBlockRange : Z
}.

(** [FundingTokenTypeNative], [FundingTokenTypeERC20]:
    src/config/app_config.go 9-12 *)
Inductive FundingTokenType := FundingTokenTypeNative | FundingTokenTypeERC20.

(** [EffectiveFundingNetworkConfig], src/config/app_config.go 90-104 *)
Record EffectiveFundingNetworkConfig := mkEffectiveFundingNetworkConfig {
  fn_Network : string;
  fn_TokenType : FundingTokenType;
  fn_TokenAddress : string;
  fn_WithdrawalFee : Z;
  fn_WithdrawalMin : Z;
  fn_WithdrawalFeeTiers : list WithdrawalFeeTierConfig;
  fn_MaxWithdrawalsPerDay : Z
}.

(** The section [TaskPricing] of [AppConfig], src/config/app_config.go 179-203 *)
Record TaskPricingConfig := mkTaskPricingConfig {
  pr_InitialSDOverheadSeconds : float64;
  pr_InitialSecondsPerSDPixelStep : float64;
  pr_InitialLLMConstantSeconds : float64;
  pr_InitialLLMSecondsPerInputByte : float64;
  pr_InitialLLMSecondsPerOutputToken : float64;
  pr_InitialLLMModelSwitchSeconds : float64;
  pr_InitialLLMSecondsPerImage : float64;
  pr_InitialLLMSecondsPerMegapixel : float64;
  pr_CalibrationAlpha : float64;
  pr_CalibrationRegularization : float64;
  pr_CalibrationMaxPositiveResidualMultiple : float64;
  pr_CalibrationWarmupSuccessSamples : Z;
  pr_CalibrationFlushIntervalSeconds : Z;
  pr_DefaultLLMMaxNewTokens : Z;
  pr_BaseVRAM : Z;
  pr_DefaultQueueTimeoutSeconds : Z;
  pr_MaxQueueTimeoutSeconds : Z;
  pr_AppValidationTimeoutSeconds : Z;
  pr_ResultUploadTimeoutSeconds : Z;
  pr_TimeoutMultiplier : float64;
  pr_MinExecutionTimeoutSeconds : Z;
  pr_MaxExecutionTimeoutSeconds : Z;
  pr_QueuedTaskPrioritySnapshotIntervalSeconds : Z
}.

(** [checkTaskPricingConfig], src/config/config.go 253-328: the checks made when
    the configuration is read. *)
Definition checkTaskPricingConfig (pricing : TaskPricingConfig) : bool :=
  let unset (x : float64) := f64_le x f64_zero in
  negb (unset (pr_InitialSDOverheadSeconds pricing) ||
        unset (pr_InitialSecondsPerSDPixelStep pricing) ||
        unset (pr_InitialLLMConstantSeconds pricing) ||
        unset (pr_InitialLLMSecondsPerInputByte pricing) ||
        unset (pr_InitialLLMSecondsPerOutputToken pricing) ||
        unset (pr_InitialLLMModelSwitchSeconds pricing) ||
        unset (pr_InitialLLMSecondsPerImage pricing) ||
        unset (pr_InitialLLMSecondsPerMegapixel pricing) ||
        unset (pr_CalibrationAlpha pricing) || f64_le f64_one (pr_CalibrationAlpha pricing) ||
        unset (pr_CalibrationRegularization pricing) ||
        unset (pr_CalibrationMaxPositiveResidualMultiple pricing) ||
        (pr_CalibrationWarmupSuccessSamples pricing <? 3) ||
        (pr_CalibrationFlushIntervalSeconds pricing =? 0) ||
        (pr_DefaultLLMMaxNewTokens pricing =? 0) ||
        (pr_BaseVRAM pricing =? 0) ||
        (pr_DefaultQueueTimeoutSeconds pricing =? 0) ||
        (pr_MaxQueueTimeoutSeconds pricing =? 0) ||
        (pr_MaxQueueTimeoutSeconds pricing <? pr_DefaultQueueTimeoutSeconds pricing) ||
        (pr_AppValidationTimeoutSeconds pricing =? 0) ||
        (pr_ResultUploadTimeoutSeconds pricing =? 0) ||
        unset (pr_TimeoutMultiplier pricing) ||
        (pr_MinExecutionTimeoutSeconds pricing =? 0) ||
        (pr_MaxExecutionTimeoutSeconds pricing <? pr_MinExecutionTimeoutSeconds pricing) ||
        (pr_QueuedTaskPrioritySnapshotIntervalSeconds pricing =? 0)).

(** [RequiredModelFileEntryConfig], src/config/app_config.go 33-39 *)
Record RequiredModelFileEntryConfig := mkRequiredModelFileEntryConfig {
  rf_SourceType : string;
  rf_Repository : string;
  rf_Revision : string;
  rf_Format : string;
  rf_FormatKwargs : option (list (list ascii * Json.json))
}.

(** [RequiredModelsByVRAMConfig], src/config/app_config.go 44-48; the task type is
    checked to be one of the three when the configuration is read. *)
Record RequiredModelsByVRAMConfig := mkRequiredModelsByVRAMConfig {
  rm_MinVRAM : Z;
  rm_TaskType : TaskType;
  rm_ModelFiles : list RequiredModelFileEntryConfig
}.

(** The section [ModelDistribution] of [AppConfig], src/config/app_config.go 210-218 *)
Record ModelDistributionConfig := mkModelDistributionConfig {
  md_DemandWindowSeconds : float64;
  md_SafetyFactor : float64;
  md_MinNodes : Z;
  md_MaxNodes : Z;
  md_DownloadTimeoutSeconds : float64;
  md_RequiredModelsByVRAM : list RequiredModelsByVRAMConfig
}.

(** [AppConfig], src/config/app_config.go 106-287: the fields the modelled
    services read.  [Blockchains] is a list because [getDefaultAbortIssuer]
    takes an arbitrary entry of the Go map. *)
Record AppConfig := mkAppConfig {
  Admin_VestingSignerAddress : string;
  Blockchains : list (string * SystemBlockchainConfig);
  DepositWithdrawNetworks : list (string * DepositWithdrawNetworkConfig);
  Task_StakeAmount : Z;
  Task_DistanceThreshold : Z;
  Task_PassiveSlashMode : option bool;
  Task_TimeoutQueryBatchSize : Z;
  TaskPricing : TaskPricingConfig;
  Withdraw_WithdrawalFeeAddress : string;
  Dao_TaskFeeShareAddress : string;
  Dao_TaskFeeSharePercent : Z;
  RelayAccount_DepositAddress : string;
  MAC_SecretKey : string;
  StakingScore_LockedEmissionCoefficient : float64;
  QoS_ScorePoolSize : Z;
  QoS_KickoutThreshold : float64;
  QoS_RejoinQosLongFloor : float64;
  QoS_PenaltyFactor : float64;
  QoS_FirstTimeoutPenaltyFactor : float64;
  QoS_FirstTimeoutHealthThreshold : float64;
  QoS_SuccessBoost : float64;
  QoS_RecoveryTauMinutes : float64;
  QoS_HealthExcludeEnterThreshold : float64;
  QoS_HealthExcludeExitThreshold : float64;
  TaskMatching_BatchSize : Z;
  Task_MinimumNodeNameNumber : Z;
  Task_NodeNameWhitelistEnabled : bool;
  Task_ModelWhitelistEnabled : bool;
  Task_TaskWhitelistEnabled : bool;
  Task_BatchCreateMaxItems : Z;
  Task_BatchStatusMaxItems : Z;
  Task_BatchValidateMaxItems : Z;
  Task_BatchAbortMaxItems : Z;
  HuggingFace_APIBaseURL : string;
  HuggingFace_CacheTTLSeconds : float64;
  ModelDistribution : ModelDistributionConfig
}.

#[export] Instance eta_AppConfig : Eta AppConfig := λ r,
  mkAppConfig (Admin_VestingSignerAddress r) (Blockchains r) (DepositWithdrawNetworks r)
    (Task_StakeAmount r) (Task_DistanceThreshold r) (Task_PassiveSlashMode r)
    (Task_TimeoutQueryBatchSize r) (TaskPricing r) (Withdraw_WithdrawalFeeAddress r)
    (Dao_TaskFeeShareAddress r) (Dao_TaskFeeSharePercent r) (RelayAccount_DepositAddress r)
    (MAC_SecretKey r) (StakingScore_LockedEmissionCoefficient r) (QoS_ScorePoolSize r)
    (QoS_KickoutThreshold r) (QoS_RejoinQosLongFloor r) (QoS_PenaltyFactor r)
    (QoS_FirstTimeoutPenaltyFactor r) (QoS_FirstTimeoutHealthThreshold r)
    (QoS_SuccessBoost r) (QoS_RecoveryTauMinutes r)
    (QoS_HealthExcludeEnterThreshold r) (QoS_HealthExcludeExitThreshold r)
    (TaskMatching_BatchSize r) (Task_MinimumNodeNameNumber r)
    (Task_NodeNameWhitelistEnabled r) (Task_ModelWhitelistEnabled r) (Task_TaskWhitelistEnabled r)
    (Task_BatchCreateMaxItems r) (Task_BatchStatusMaxItems r) (Task_BatchValidateMaxItems r)
    (Task_BatchAbortMaxItems r) (HuggingFace_APIBaseURL r) (HuggingFace_CacheTTLSeconds r) (ModelDistribution r).

(** Lookup of a network key in a configuration map. *)
Definition assoc {A} (k : string) (l : list (string * A)) : option A :=
  snd <$> find_first (λ kv, String.eqb (fst kv) k) l.

(** [GetEffectiveFundingNetwork], src/config/funding_network.go 5-41 *)
Definition GetEffectiveFundingNetwork (cfg : AppConfig) (network : string)
    : option EffectiveFundingNetworkConfig :=
  match assoc network (Blockchains cfg) with
  | Some blockchain =>
      Some (mkEffectiveFundingNetworkConfig network FundingTokenTypeNative ""
              (bc_WithdrawalFee blockchain) (bc_WithdrawalMin blockchain)
              (bc_WithdrawalFeeTiers blockchain) (bc_MaxWithdrawalsPerDay blockchain))
  | None =>
      match assoc network (DepositWithdrawNetworks cfg) with
      | Some networkConfig =>
          Some (mkEffectiveFundingNetworkConfig network FundingTokenTypeERC20
                  (dw_TokenAddress networkConfig) (dw_WithdrawalFee networkConfig)
                  (dw_WithdrawalMin networkConfig) (dw_WithdrawalFeeTiers networkConfig)
                  (dw_MaxWithdrawalsPerDay networkConfig))
      | None => None
      end
  end.

(** [getDefaultAbortIssuer], src/service/start_task.go 14-20 *)
Definition getDefaultAbortIssuer (cfg : AppConfig) : string :=
  match Blockchains cfg with
  | [] => ""
  | (_, blockchain) :: _ => bc_AccountAddress blockchain
  end.

(** ** Ether units and float ratios *)

(** [EtherToWei], src/utils/ether.go 19-21 *)
Definition EtherToWei (ether : Z) : Z := ether * 10 ^ 18.

(** [new(big.Rat).SetFloat64(f)]: the exact numerator and denominator in lowest
    terms; the nil result for infinities and NaN is [None]. *)
Definition f64_rat (f : float64) : option (Z * Z) :=
  match f with
  | S754_zero _ => Some (0, 1)
  | S754_finite s m e =>
      let num := (if s then -1 else 1) * (if 0 <=? e then Z.pos m * 2 ^ e else Z.pos m) in
      let den := if 0 <=? e then 1 else 2 ^ (- e) in
      let g := Z.gcd num den in
      Some (num / g, den / g)
  | _ => None
  end.

Lemma f64_rat_den f n d : f64_rat f = Some (n, d) → 0 < d.
Proof.
  destruct f as [| | |s m e]; simpl; intros [= <- <-]; [lia|].
  set (num := _ * _). set (den := if 0 <=? e then 1 else 2 ^ (- e)).
  assert (Hden : 0 < den) by (unfold den; case_bool; [lia|apply Z.pow_pos_nonneg; lia]).
  assert (0 < Z.gcd num den).
  { pose proof (Z.gcd_nonneg num den). pose proof (Z.gcd_eq_0 num den). lia. }
  destruct (Z.gcd_divide_r num den) as [k Hk].
  rewrite Hk at 1. rewrite Z.div_mul by lia. nia.
Qed.

(** The pricing section of the configuration used by the witnesses. *)
Definition demo_pricing : TaskPricingConfig :=
  mkTaskPricingConfig (f64_of_Z 5) (f64_div f64_one (f64_of_Z 1000000)) (f64_of_Z 5)
    (f64_div f64_one (f64_of_Z 1000)) (f64_div f64_one (f64_of_Z 10)) (f64_of_Z 20)
    (f64_of_Z 2) (f64_of_Z 1) (f64_div f64_one (f64_of_Z 10)) (f64_div f64_one (f64_of_Z 100))
    (f64_of_Z 3) 3 60 256 8 600 3600 300 300 (f64_of_Z 3) 60 1800 300.

(** A configuration used by the witnesses of the development. *)
Definition demo_config : AppConfig :=
  mkAppConfig "0xvesting" [("base", mkSystemBlockchainConfig "0xrelay" 1 1
      [mkTier 0 (f64_div f64_one (f64_of_Z 8)); mkTier 100 (f64_div f64_one (f64_of_Z 4))] 2
      10 "0xNodeStaking" "0xDelegatedStaking" 50 3 30 600 300 10)] []
    400 5 (Some false) 100 demo_pricing "0xfee" "0xdao" 20 "0xdeposit" "secret"
    f64_one 50 (f64_of_Z 2) (f64_of_Z 0) (f64_div f64_one (f64_of_Z 2)) (f64_div f64_one (f64_of_Z 2))
    (f64_of_Z 1) (f64_div f64_one (f64_of_Z 8)) (f64_of_Z 60) (f64_div f64_one (f64_of_Z 4))
    (f64_div f64_one (f64_of_Z 2)) 2 0 false false false 100 100 100 100 "https://hub" (f64_of_Z 300)
    (mkModelDistributionConfig (f64_of_Z 3600) (f64_of_Z 2) 1 10 (f64_of_Z 1800) []).
