(* ===== verification/Delegation.v ===== *)
(** * Delegation caches

    The in-memory view of delegated staking that task settlement and node
    scoring read: src/service/user_staking.go (one [delegationCache] per
    blockchain network, four maps kept in step) and
    src/service/delegator_share.go (the percentage of its income a node leaves
    to its delegators).

    The contract of a delegation cache is the finite map from (delegator, node)
    to the delegated amount; [refines] relates the four maps to it and the
    theorems show that every operation implements its abstract counterpart,
    totals and counts included. *)

From S2P Require Import Prelude Models.

Module Delegations.

(** ** State *)

(** [delegationCache], src/service/user_staking.go 18-24 *)
Record delegationCache := mkDelegationCache {
  nodeDelegations : gmap string (gmap string Z);
  userDelegations : gmap string (gmap string Z);
  userStakeAmount : gmap string Z;
  nodeStakeAmount : gmap string Z
}.

#[export] Instance eta_delegationCache : Eta delegationCache := λ r,
  mkDelegationCache (nodeDelegations r) (userDelegations r)
    (userStakeAmount r) (nodeStakeAmount r).

(** A cache without delegations. *)
Definition emptyCache : delegationCache := mkDelegationCache ∅ ∅ ∅ ∅.

(** [newDelegationCaches], src/service/user_staking.go 26-38: one cache per
    configured network. *)
Definition newDelegationCaches (networks : list string) : gmap string delegationCache :=
  list_to_map (map (λ n, (n, emptyCache)) networks).

(** ** Operations *)

(** [update], src/service/user_staking.go 40-67 *)
Definition update (c : delegationCache) (delegatorAddress nodeAddress : string) (amount : Z)
    : delegationCache :=
  let '(oldAmount, nodeDs) :=
    match nodeDelegations c !! nodeAddress with
    | Some delegations => (default 0 (delegations !! delegatorAddress), delegations)
    | None => (0, ∅)
    end in
  let userDs := default ∅ (userDelegations c !! delegatorAddress) in
  let userStake := default 0 (userStakeAmount c !! delegatorAddress) in
  let nodeStake := default 0 (nodeStakeAmount c !! nodeAddress) in
  mkDelegationCache
    (<[nodeAddress := <[delegatorAddress := amount]> nodeDs]> (nodeDelegations c))
    (<[delegatorAddress := <[nodeAddress := amount]> userDs]> (userDelegations c))
    (<[delegatorAddress := userStake - oldAmount + amount]> (userStakeAmount c))
    (<[nodeAddress := nodeStake - oldAmount + amount]> (nodeStakeAmount c)).

(** Removing one key of an inner map, and the inner map itself when it becomes
    empty: the deletions of [unstake] and [removeNode]. *)
Definition delete_inner (m : gmap string (gmap string Z)) (outer inner : string)
    : gmap string (gmap string Z) :=
  match m !! outer with
  | Some ds =>
      let ds' := delete inner ds in
      if bool_decide (ds' = ∅) then delete outer m else <[outer := ds']> m
  | None => m
  end.

(** Subtracting in place through a map entry; a missing entry is a nil
    pointer, on which [big.Int.Sub] panics. *)
Definition sub_stake (m : gmap string Z) (k : string) (z : Z) : result (gmap string Z) :=
  match m !! k with
  | Some v => Ok (<[k := v - z]> m)
  | None => Err (ErrPanic "nil stake amount")
  end.

(** [unstake], src/service/user_staking.go 69-93 *)
Definition unstake (c : delegationCache) (delegatorAddress nodeAddress : string)
    : result delegationCache :=
  let oldAmount :=
    match nodeDelegations c !! nodeAddress with
    | Some delegations => default 0 (delegations !! delegatorAddress)
    | None => 0
    end in
  let nd := delete_inner (nodeDelegations c) nodeAddress delegatorAddress in
  let ud := delete_inner (userDelegations c) delegatorAddress nodeAddress in
  match sub_stake (userStakeAmount c) delegatorAddress oldAmount with
  | Err e => Err e
  | Ok us =>
      match sub_stake (nodeStakeAmount c) nodeAddress oldAmount with
      | Err e => Err e
      | Ok ns => Ok (mkDelegationCache nd ud us ns)
      end
  end.

(** The loop of [removeNode] over the delegators of the node. *)
Fixpoint removeNode_loop (nodeAddress : string) (ds : list (string * Z))
    (ud : gmap string (gmap string Z)) (us : gmap string Z)
    : result (gmap string (gmap string Z) * gmap string Z) :=
  match ds with
  | [] => Ok (ud, us)
  | (delegatorAddress, amount) :: ds' =>
      match sub_stake us delegatorAddress amount with
      | Err e => Err e
      | Ok us' => removeNode_loop nodeAddress ds' (delete_inner ud delegatorAddress nodeAddress) us'
      end
  end.

(** [removeNode], src/service/user_staking.go 95-112 *)
Definition removeNode (c : delegationCache) (nodeAddress : string) : result delegationCache :=
  match nodeDelegations c !! nodeAddress with
  | None => Ok c
  | Some ds =>
      match removeNode_loop nodeAddress (map_to_list ds) (userDelegations c) (userStakeAmount c) with
      | Err e => Err e
      | Ok (ud, us) =>
          Ok (mkDelegationCache (delete nodeAddress (nodeDelegations c)) ud us
                (<[nodeAddress := 0]> (nodeStakeAmount c)))
      end
  end.

(** [getDelegatorTotalStakeAmount], src/service/user_staking.go 114-122 *)
Definition getDelegatorTotalStakeAmount (c : delegationCache) (delegatorAddress : string) : Z :=
  default 0 (userStakeAmount c !! delegatorAddress).

(** [getNodeTotalStakeAmount], src/service/user_staking.go 124-132 *)
Definition getNodeTotalStakeAmount (c : delegationCache) (nodeAddress : string) : Z :=
  default 0 (nodeStakeAmount c !! nodeAddress).

(** [getDelegationsOfNode], src/service/user_staking.go 134-145 *)
Definition getDelegationsOfNode (c : delegationCache) (nodeAddress : string) : gmap string Z :=
  default ∅ (nodeDelegations c !! nodeAddress).

(** [getDelegationsOfDelegator], src/service/user_staking.go 147-158 *)
Definition getDelegationsOfDelegator (c : delegationCache) (delegatorAddress : string) : gmap string Z :=
  default ∅ (userDelegations c !! delegatorAddress).

(** [getDelegatorCountOfNode], src/service/user_staking.go 160-169 *)
Definition getDelegatorCountOfNode (c : delegationCache) (nodeAddress : string) : Z :=
  match nodeDelegations c !! nodeAddress with
  | Some ds => Z.of_nat (size ds)
  | None => 0
  end.

(** [getDelegationCountOfDelegator], src/service/user_staking.go 171-180 *)
Definition getDelegationCountOfDelegator (c : delegationCache) (delegatorAddress : string) : Z :=
  match userDelegations c !! delegatorAddress with
  | Some ds => Z.of_nat (size ds)
  | None => 0
  end.

(** ** The per-network table

    [globalDelegationCaches[network]] of a network that is not configured is a
    nil cache: every call through it panics. *)

(** [UpdateDelegation], src/service/user_staking.go 203-205 *)
Definition UpdateDelegation (g : gmap string delegationCache)
    (delegatorAddress nodeAddress : string) (amount : Z) (network : string)
    : result (gmap string delegationCache) :=
  match g !! network with
  | Some c => Ok (<[network := update c delegatorAddress nodeAddress amount]> g)
  | None => Err (ErrPanic "nil delegation cache")
  end.

(** [UnstakeDelegation], src/service/user_staking.go 207-209 *)
Definition UnstakeDelegation (g : gmap string delegationCache)
    (delegatorAddress nodeAddress network : string) : result (gmap string delegationCache) :=
  match g !! network with
  | Some c =>
      match unstake c delegatorAddress nodeAddress with
      | Ok c' => Ok (<[network := c']> g)
      | Err e => Err e
      end
  | None => Err (ErrPanic "nil delegation cache")
  end.

(** [RemoveNodeDelegations], src/service/user_staking.go 211-213 *)
Definition RemoveNodeDelegations (g : gmap string delegationCache)
    (nodeAddress network : string) : result (gmap string delegationCache) :=
  match g !! network with
  | Some c =>
      match removeNode c nodeAddress with
      | Ok c' => Ok (<[network := c']> g)
      | Err e => Err e
      end
  | None => Err (ErrPanic "nil delegation cache")
  end.

(** The rows are applied one after the other. *)
Fixpoint loadDelegations (g : gmap string delegationCache) (rows : list Delegation)
    : result (gmap string delegationCache) :=
  match rows with
  | [] => Ok g
  | r :: rows' =>
      match UpdateDelegation g (dl_DelegatorAddress r) (dl_NodeAddress r) (dl_Amount r) (dl_Network r) with
      | Ok g' => loadDelegations g' rows'
      | Err e => Err e
      end
  end.

(** [InitDelegationCaches], src/service/user_staking.go 182-201: the unslashed
    rows of the delegations table are loaded at start-up. *)
Definition InitDelegationCaches (networks : list string) (table : list Delegation)
    : result (gmap string delegationCache) :=
  loadDelegations (newDelegationCaches networks)
    (select_where (λ r, negb (dl_Slashed r)) table).

(** ** Delegator shares *)

(** [makeDelegatorShareKey], src/service/delegator_share.go 18-20 *)
Definition makeDelegatorShareKey (nodeAddress network : string) : string :=
  nodeAddress +:+ ":" +:+ network.

(** [set], src/service/delegator_share.go 22-32 *)
Definition share_set (c : gmap string Z) (nodeAddress network : string) (share : Z) : gmap string Z :=
  let key := makeDelegatorShareKey nodeAddress network in
  if 0 <? share then <[key := share]> c else delete key c.

(** [get], src/service/delegator_share.go 34-43 *)
Definition share_get (c : gmap string Z) (nodeAddress network : string) : Z :=
  default 0 (c !! makeDelegatorShareKey nodeAddress network).

(** [InitDelegatorShareCache], src/service/delegator_share.go 45-57 *)
Definition InitDelegatorShareCache (nodes : list Node) : gmap string Z :=
  fold_left (λ c n, share_set c (n_Address n) (n_Network n) (n_DelegatorShare n))
    (select_where (λ n, 0 <? n_DelegatorShare n) nodes) ∅.

(** ** The abstract contract *)

(** A delegation cache promises to be the map from (delegator, node) to the
    delegated amount. *)
Abbreviation delegation_map := (gmap (string * string) Z).

Definition spec_update (D : delegation_map) (d n : string) (a : Z) : delegation_map :=
  <[(d, n) := a]> D.
Definition spec_unstake (D : delegation_map) (d n : string) : delegation_map :=
  delete (d, n) D.
Definition spec_removeNode (D : delegation_map) (n : string) : delegation_map :=
  filter (λ kv, kv.1.2 ≠ n) D.
Definition spec_ofNode (D : delegation_map) (n : string) : delegation_map :=
  filter (λ kv, kv.1.2 = n) D.
Definition spec_ofDelegator (D : delegation_map) (d : string) : delegation_map :=
  filter (λ kv, kv.1.1 = d) D.

(** Lookup through two levels. *)
Definition lookup2 (m : gmap string (gmap string Z)) (i j : string) : option Z :=
  m !! i ≫= λ ds, ds !! j.

(** A stake total map agrees with the sums of the inner maps, and has an entry
    wherever there is an inner map. *)
Definition totals (m : gmap string (gmap string Z)) (t : gmap string Z) : Prop :=
  ∀ i, default 0 (t !! i) = map_sum (default ∅ (m !! i)) ∧
       (is_Some (m !! i) → is_Some (t !! i)).

Definition no_empty (m : gmap string (gmap string Z)) : Prop := ∀ i, m !! i ≠ Some ∅.

Record refines (c : delegationCache) (D : delegation_map) : Prop := {
  ref_node : ∀ d n, lookup2 (nodeDelegations c) n d = D !! (d, n);
  ref_user : ∀ d n, lookup2 (userDelegations c) d n = D !! (d, n);
  ref_node_ne : no_empty (nodeDelegations c);
  ref_user_ne : no_empty (userDelegations c);
  ref_node_total : totals (nodeDelegations c) (nodeStakeAmount c);
  ref_user_total : totals (userDelegations c) (userStakeAmount c)
}.

(** ** Lemmas on two-level maps *)

Lemma lookup2_insert m i j v i' j' :
  lookup2 (<[i := <[j := v]> (default ∅ (m !! i))]> m) i' j' =
  if bool_decide (i = i' ∧ j = j') then Some v else lookup2 m i' j'.
Proof.
  unfold lookup2. destruct (decide (i = i')) as [<-|Hi]; simplify_map_eq.
  - destruct (decide (j = j')) as [<-|Hj]; simplify_map_eq.
    + by rewrite bool_decide_true.
    + rewrite bool_decide_false by naive_solver. by destruct (m !! i).
  - by rewrite bool_decide_false by naive_solver.
Qed.

Lemma lookup2_delete_inner m i j i' j' :
  lookup2 (delete_inner m i j) i' j' =
  if bool_decide (i = i' ∧ j = j') then None else lookup2 m i' j'.
Proof.
  unfold lookup2, delete_inner. destruct (m !! i) as [ds|] eqn:Hi.
  - destruct (decide (i = i')) as [<-|Hne].
    + destruct (decide (j = j')) as [<-|Hj].
      * rewrite (bool_decide_true (i = i ∧ _)) by done. case_bool_decide; simplify_map_eq; done.
      * rewrite (bool_decide_false (i = i ∧ _)) by naive_solver. case_bool_decide as He.
        -- rewrite lookup_delete_eq, ?Hi. simpl.
           rewrite <- (lookup_delete_ne ds j j') by done. by rewrite He.
        -- rewrite lookup_insert_eq, Hi. simpl. by rewrite lookup_delete_ne.
    + rewrite (bool_decide_false (i = i' ∧ _)) by naive_solver.
      case_bool_decide; by simplify_map_eq.
  - case_bool_decide as Hb; [|done]. destruct Hb as [<- _]. by rewrite Hi.
Qed.

Lemma no_empty_insert m i j v :
  no_empty m → no_empty (<[i := <[j := v]> (default ∅ (m !! i))]> m).
Proof.
  intros Hm k. destruct (decide (i = k)) as [<-|]; simplify_map_eq; [|done].
  intros [= Hk]. by apply (insert_non_empty (default ∅ (m !! i)) j v).
Qed.

Lemma no_empty_delete_inner m i j : no_empty m → no_empty (delete_inner m i j).
Proof.
  intros Hm k. unfold delete_inner. destruct (m !! i) as [ds|]; [|done].
  case_bool_decide; destruct (decide (i = k)) as [<-|].
  all: rewrite ?lookup_delete_eq, ?lookup_insert_eq, ?lookup_delete_ne, ?lookup_insert_ne by done.
  all: first [done | apply Hm | congruence].
Qed.

Lemma totals_insert m t i j v :
  totals m t →
  totals (<[i := <[j := v]> (default ∅ (m !! i))]> m)
    (<[i := default 0 (t !! i) - default 0 (lookup2 m i j) + v]> t).
Proof.
  intros Ht k. destruct (decide (i = k)) as [<-|]; simplify_map_eq; [|apply Ht].
  split; [|done]. rewrite map_sum_insert, (proj1 (Ht i)). unfold lookup2.
  by destruct (m !! i).
Qed.

Lemma totals_delete_inner m t i j v :
  totals m t → t !! i = Some v →
  totals (delete_inner m i j) (<[i := v - default 0 (lookup2 m i j)]> t).
Proof.
  intros Ht Hv k. destruct (Ht k) as [Hs Hd]. destruct (decide (i = k)) as [<-|Hne].
  - rewrite lookup_insert_eq. split; [|done]. simpl. rewrite Hv in Hs. simpl in Hs.
    unfold lookup2, delete_inner. destruct (m !! i) as [ds|] eqn:Hi; simpl in *.
    + assert (map_sum (delete j ds) = v - default 0 (ds !! j)) as Hsum.
      { destruct (ds !! j) eqn:Hj; simpl.
        - rewrite (map_sum_delete _ _ _ Hj). lia.
        - rewrite delete_id by done. lia. }
      case_bool_decide as He; simplify_map_eq; simpl; [|lia].
      by rewrite <- Hsum, He.
    + rewrite Hi. simpl. lia.
  - rewrite lookup_insert_ne by done. unfold delete_inner.
    destruct (m !! i) as [ds|]; [|done]. case_bool_decide; by simplify_map_eq.
Qed.

(** ** Every operation implements its specification *)

Lemma refines_empty : refines emptyCache ∅.
Proof.
  split; unfold totals, no_empty; simpl; intros.
  all: try (unfold lookup2); rewrite ?lookup_empty; try done.
Qed.

Lemma update_refines c D d n a :
  refines c D → refines (update c d n a) (spec_update D d n a).
Proof.
  intros [Hn Hu Hne Hue Hnt Hut].
  assert (update c d n a = mkDelegationCache
    (<[n := <[d := a]> (default ∅ (nodeDelegations c !! n))]> (nodeDelegations c))
    (<[d := <[n := a]> (default ∅ (userDelegations c !! d))]> (userDelegations c))
    (<[d := default 0 (userStakeAmount c !! d) - default 0 (lookup2 (nodeDelegations c) n d) + a]>
       (userStakeAmount c))
    (<[n := default 0 (nodeStakeAmount c !! n) - default 0 (lookup2 (nodeDelegations c) n d) + a]>
       (nodeStakeAmount c))) as ->.
  { unfold update, lookup2. by destruct (nodeDelegations c !! n). }
  unfold spec_update. split; simpl.
  - intros d' n'. rewrite lookup2_insert, Hn, lookup_insert.
    repeat case_decide; repeat case_bool_decide; naive_solver.
  - intros d' n'. rewrite lookup2_insert, Hu, lookup_insert.
    repeat case_decide; repeat case_bool_decide; naive_solver.
  - by apply no_empty_insert.
  - by apply no_empty_insert.
  - by apply totals_insert.
  - rewrite Hn, <- Hu. by apply totals_insert.
Qed.

Lemma unstake_refines c D d n :
  refines c D →
  match unstake c d n with
  | Ok c' => refines c' (spec_unstake D d n)
  | Err _ => D !! (d, n) = None
  end.
Proof.
  intros [Hn Hu Hne Hue Hnt Hut]. unfold unstake, sub_stake.
  replace (match nodeDelegations c !! n with
           | Some ds => default 0 (ds !! d) | None => 0 end)
    with (default 0 (lookup2 (nodeDelegations c) n d))
    by (unfold lookup2; by destruct (nodeDelegations c !! n)).
  destruct (userStakeAmount c !! d) as [u|] eqn:Eu.
  2: { rewrite <- Hu. unfold lookup2. destruct (userDelegations c !! d) eqn:Ed; [|done].
       destruct (proj2 (Hut d)); [by rewrite Ed|congruence]. }
  destruct (nodeStakeAmount c !! n) as [s|] eqn:En.
  2: { rewrite <- Hn. unfold lookup2. destruct (nodeDelegations c !! n) eqn:Ed; [|done].
       destruct (proj2 (Hnt n)); [by rewrite Ed|congruence]. }
  unfold spec_unstake. split; simpl.
  - intros d' n'. rewrite lookup2_delete_inner, Hn, lookup_delete.
    repeat case_decide; repeat case_bool_decide; naive_solver.
  - intros d' n'. rewrite lookup2_delete_inner, Hu, lookup_delete.
    repeat case_decide; repeat case_bool_decide; naive_solver.
  - by apply no_empty_delete_inner.
  - by apply no_empty_delete_inner.
  - by apply totals_delete_inner.
  - rewrite Hn, <- Hu. by apply totals_delete_inner.
Qed.

Lemma removeNode_loop_spec n ds ud us :
  NoDup ds.*1 → no_empty ud → totals ud us →
  (∀ d a, (d, a) ∈ ds → lookup2 ud d n = Some a) →
  ∃ ud' us', removeNode_loop n ds ud us = Ok (ud', us') ∧
    no_empty ud' ∧ totals ud' us' ∧
    ∀ d n', lookup2 ud' d n' =
      if bool_decide (d ∈ ds.*1 ∧ n' = n) then None else lookup2 ud d n'.
Proof.
  revert ud us. induction ds as [|[d a] ds IH]; intros ud us Hnd Hne Ht Hin.
  - exists ud, us. split_and!; [done..|]. intros. rewrite bool_decide_false; [done|set_solver].
  - apply NoDup_cons in Hnd as [Hd Hnd].
    assert (Hl : lookup2 ud d n = Some a) by (apply Hin; set_solver).
    assert (is_Some (us !! d)) as [v Hv].
    { apply Ht. unfold lookup2 in Hl. by destruct (ud !! d). }
    cbn [removeNode_loop]. unfold sub_stake. rewrite Hv.
    pose proof (totals_delete_inner _ _ _ n _ Ht Hv) as Ht'. rewrite Hl in Ht'.
    destruct (IH (delete_inner ud d n) (<[d := v - a]> us)) as (ud' & us' & -> & Hne' & Htt & Hlk).
    + done.
    + by apply no_empty_delete_inner.
    + done.
    + intros d' a' Hin'. rewrite lookup2_delete_inner, bool_decide_false.
      * apply Hin. set_solver.
      * intros [-> _]. apply Hd. by apply (list_elem_of_fmap_2 fst _ (d', a')).
    + exists ud', us'. split_and!; [done..|]. intros d' n'.
      rewrite Hlk, lookup2_delete_inner. repeat case_bool_decide; set_solver.
Qed.

Lemma removeNode_refines c D n :
  refines c D → ∃ c', removeNode c n = Ok c' ∧ refines c' (spec_removeNode D n).
Proof.
  intros [Hn Hu Hne Hue Hnt Hut]. unfold removeNode.
  destruct (nodeDelegations c !! n) as [ds|] eqn:E.
  - destruct (removeNode_loop_spec n (map_to_list ds) (userDelegations c) (userStakeAmount c))
      as (ud & us & -> & Hne' & Ht' & Hl).
    + apply NoDup_fst_map_to_list.
    + done.
    + done.
    + intros d a Hd%elem_of_map_to_list. rewrite Hu, <- Hn. unfold lookup2. by rewrite E.
    + eexists. split; [done|]. unfold spec_removeNode. split; simpl.
      * intros d n'. unfold lookup2. destruct (decide (n = n')) as [<-|Hx]; simplify_map_eq.
        -- symmetry. apply map_lookup_filter_None_2. right. intros x _. simpl. naive_solver.
        -- change (lookup2 (nodeDelegations c) n' d = filter (λ kv, kv.1.2 ≠ n) D !! (d, n')).
           rewrite Hn, map_lookup_filter. destruct (D !! (d, n')); simpl; [|done].
           by rewrite option_guard_True.
      * intros d n'. rewrite Hl, map_lookup_filter, Hu. case_bool_decide as Hb.
        -- destruct Hb as [_ ->]. destruct (D !! (d, n)); simpl; [|done].
           by rewrite option_guard_False by naive_solver.
        -- destruct (D !! (d, n')) eqn:Ed; simpl; [|done].
           rewrite option_guard_True; [done|]. simpl. intros ->. apply Hb. split; [|done].
           rewrite <- Hn in Ed. unfold lookup2 in Ed. rewrite E in Ed. simpl in Ed.
           apply (list_elem_of_fmap_2 fst _ (d, z)). by apply elem_of_map_to_list.
      * intros k. destruct (decide (n = k)) as [<-|]; simplify_map_eq; [done|apply Hne].
      * done.
      * intros k. destruct (decide (n = k)) as [<-|]; simplify_map_eq; [|apply Hnt].
        split; done.
      * done.
  - exists c. split; [done|]. unfold spec_removeNode. rewrite map_filter_id; [done|].
    intros [d n'] a Ha Hx. simpl in Hx. subst n'. rewrite <- Hn in Ha. unfold lookup2 in Ha. by rewrite E in Ha.
Qed.

(** ** Reading the cache *)

Lemma map_sum_kmap (f : string → string * string) `{!Inj (=) (=) f} (m : gmap string Z) :
  map_sum (kmap f m : gmap (string * string) Z) = map_sum m.
Proof.
  induction m as [|k v m Hk IH] using map_ind.
  - by rewrite kmap_empty.
  - rewrite kmap_insert by done. rewrite !map_sum_insert_None; [by rewrite IH|done|].
    by rewrite lookup_kmap.
Qed.

Lemma size_kmap (f : string → string * string) `{!Inj (=) (=) f} (m : gmap string Z) :
  size (kmap f m : gmap (string * string) Z) = size m.
Proof.
  rewrite <- !length_map_to_list. rewrite map_to_list_kmap by apply _. apply length_fmap.
Qed.

#[local] Instance pair_r_inj (d : string) : Inj (=) (=) (λ n : string, (d, n)).
Proof. by intros ?? [=]. Qed.
#[local] Instance pair_l_inj (n : string) : Inj (=) (=) (λ d : string, (d, n)).
Proof. by intros ?? [=]. Qed.

(** The inner map of a node is the abstract map restricted to that node. *)
Lemma ofNode_kmap c D n :
  refines c D → spec_ofNode D n = kmap (λ d, (d, n)) (getDelegationsOfNode c n).
Proof.
  intros HR. apply map_eq. intros [d n']. unfold spec_ofNode.
  rewrite map_lookup_filter, <- (ref_node _ _ HR). unfold lookup2, getDelegationsOfNode.
  destruct (decide (n' = n)) as [->|Hn].
  - rewrite (lookup_kmap (λ d, (d, n))). destruct (nodeDelegations c !! n) as [ds|]; simpl; [|done].
    destruct (ds !! d); simpl; [|done]. by rewrite option_guard_True.
  - transitivity (@None Z).
    + destruct (nodeDelegations c !! n') as [ds|]; simpl; [|done].
      destruct (ds !! d); simpl; [|done]. by rewrite option_guard_False.
    + symmetry. apply lookup_kmap_None; [apply _|]. naive_solver.
Qed.

Lemma ofDelegator_kmap c D d :
  refines c D → spec_ofDelegator D d = kmap (λ n, (d, n)) (getDelegationsOfDelegator c d).
Proof.
  intros HR. apply map_eq. intros [d' n]. unfold spec_ofDelegator.
  rewrite map_lookup_filter, <- (ref_user _ _ HR). unfold lookup2, getDelegationsOfDelegator.
  destruct (decide (d' = d)) as [->|Hn].
  - rewrite (lookup_kmap (λ n, (d, n))). destruct (userDelegations c !! d) as [ds|]; simpl; [|done].
    destruct (ds !! n); simpl; [|done]. by rewrite option_guard_True.
  - transitivity (@None Z).
    + destruct (userDelegations c !! d') as [ds|]; simpl; [|done].
      destruct (ds !! n); simpl; [|done]. by rewrite option_guard_False.
    + symmetry. apply lookup_kmap_None; [apply _|]. naive_solver.
Qed.

Lemma nodeTotal_spec c D n :
  refines c D →
  getNodeTotalStakeAmount c n = map_sum (spec_ofNode D n) ∧
  map_sum (getDelegationsOfNode c n) = getNodeTotalStakeAmount c n.
Proof.
  intros HR. rewrite (ofNode_kmap c D n HR), map_sum_kmap by apply _.
  split; [|symmetry]; apply (ref_node_total _ _ HR n).
Qed.

Lemma delegatorTotal_spec c D d :
  refines c D → getDelegatorTotalStakeAmount c d = map_sum (spec_ofDelegator D d).
Proof.
  intros HR. rewrite (ofDelegator_kmap c D d HR), map_sum_kmap by apply _.
  apply (ref_user_total _ _ HR d).
Qed.

Lemma counts_spec c D :
  refines c D →
  (∀ n, getDelegatorCountOfNode c n = Z.of_nat (size (spec_ofNode D n))) ∧
  (∀ d, getDelegationCountOfDelegator c d = Z.of_nat (size (spec_ofDelegator D d))).
Proof.
  intros HR. split; intros k; [rewrite (ofNode_kmap c D k HR)|rewrite (ofDelegator_kmap c D k HR)].
  all: rewrite size_kmap by apply _.
  - unfold getDelegatorCountOfNode, getDelegationsOfNode. by destruct (nodeDelegations c !! k).
  - unfold getDelegationCountOfDelegator, getDelegationsOfDelegator.
    by destruct (userDelegations c !! k).
Qed.

(** ** The interface used by settlement and scoring

    What [sendTaskIncome] and [GetNodeScoreStakeAmount] rely on: the delegations
    of a node and their total, which is the sum of the delegations. *)
Class DelegationView (C : Type) := {
  dv_wf : C → Prop;
  dv_of_node : C → string → gmap string Z;
  dv_total : C → string → Z;
  dv_total_sum : ∀ c n, dv_wf c → dv_total c n = map_sum (dv_of_node c n)
}.

#[export] Program Instance delegationCache_view : DelegationView delegationCache := {|
  dv_wf c := ∃ D, refines c D;
  dv_of_node := getDelegationsOfNode;
  dv_total := getNodeTotalStakeAmount
|}.
Next Obligation. intros c n [D HR]. symmetry. by apply (nodeTotal_spec c D n). Qed.

(** ** Traces of operations *)

Inductive dop :=
| OpUpdate (delegator node : string) (amount : Z)
| OpUnstake (delegator node : string)
| OpRemoveNode (node : string).

Definition run_op (c : delegationCache) (o : dop) : result delegationCache :=
  match o with
  | OpUpdate d n a => Ok (update c d n a)
  | OpUnstake d n => unstake c d n
  | OpRemoveNode n => removeNode c n
  end.

Definition spec_op (D : delegation_map) (o : dop) : delegation_map :=
  match o with
  | OpUpdate d n a => spec_update D d n a
  | OpUnstake d n => spec_unstake D d n
  | OpRemoveNode n => spec_removeNode D n
  end.

Fixpoint run_ops (c : delegationCache) (os : list dop) : result delegationCache :=
  match os with
  | [] => Ok c
  | o :: os' => match run_op c o with Ok c' => run_ops c' os' | Err e => Err e end
  end.

Lemma run_op_refines c D o c' :
  refines c D → run_op c o = Ok c' → refines c' (spec_op D o).
Proof.
  intros HR. destruct o as [d n a|d n|n]; simpl.
  - intros [= <-]. by apply update_refines.
  - intros Ho. pose proof (unstake_refines c D d n HR) as Hu. by rewrite Ho in Hu.
  - intros Ho. destruct (removeNode_refines c D n HR) as (? & Hr & ?). congruence.
Qed.

Lemma run_ops_refines os c D c' :
  refines c D → run_ops c os = Ok c' → refines c' (fold_left spec_op os D).
Proof.
  revert c D. induction os as [|o os IH]; simpl; intros c D HR Hrun.
  - by injection Hrun as <-.
  - destruct (run_op c o) as [c1|] eqn:Eo; [|done].
    apply (IH c1); [by eapply run_op_refines|done].
Qed.

(** C12 (refinement): after any sequence of staking, unstaking and node-removal
    operations on a fresh cache, the four maps of the delegation cache implement
    the abstract (delegator, node) map: both indexes hold exactly its entries,
    and the cached per-node and per-delegator stake totals and counts are the
    sums and sizes of its rows. *)
Theorem delegationCache_refinement (os : list dop) (c : delegationCache) :
  run_ops emptyCache os = Ok c →
  let D := fold_left spec_op os ∅ in
  (∀ d n, getDelegationsOfNode c n !! d = D !! (d, n) ∧
          getDelegationsOfDelegator c d !! n = D !! (d, n)) ∧
  (∀ n, getNodeTotalStakeAmount c n = map_sum (spec_ofNode D n) ∧
        getDelegatorCountOfNode c n = Z.of_nat (size (spec_ofNode D n))) ∧
  (∀ d, getDelegatorTotalStakeAmount c d = map_sum (spec_ofDelegator D d) ∧
        getDelegationCountOfDelegator c d = Z.of_nat (size (spec_ofDelegator D d))).
Proof.
  intros Hrun D. pose proof (run_ops_refines os _ ∅ c refines_empty Hrun) as HR. fold D in HR.
  pose proof (counts_spec c D HR) as [Hcn Hcd]. split_and!.
  - intros d n. split.
    + rewrite <- (ref_node _ _ HR). unfold lookup2, getDelegationsOfNode.
      by destruct (nodeDelegations c !! n).
    + rewrite <- (ref_user _ _ HR). unfold lookup2, getDelegationsOfDelegator.
      by destruct (userDelegations c !! d).
  - intros n. split; [by apply nodeTotal_spec|apply Hcn].
  - intros d. split; [by apply delegatorTotal_spec|apply Hcd].
Qed.

Lemma delegationCache_refinement_witness :
  getNodeTotalStakeAmount
    (match run_ops emptyCache [OpUpdate "a" "n" 5; OpUpdate "b" "n" 7; OpUpdate "a" "n" 2;
                               OpUnstake "b" "n"; OpRemoveNode "m"] with
     | Ok c => c | Err _ => emptyCache end) "n" = 2.
Proof.
  set (os := [OpUpdate "a" "n" 5; OpUpdate "b" "n" 7; OpUpdate "a" "n" 2;
              OpUnstake "b" "n"; OpRemoveNode "m"]).
  destruct (delegationCache_refinement os
    (match run_ops emptyCache os with Ok c => c | Err _ => emptyCache end)) as (_ & H & _).
  - vm_compute. reflexivity.
  - rewrite (proj1 (H "n")). vm_compute. reflexivity.
Defined.

(** In a cache that implements the map [D], [unstake] panics only
    for a pair without a delegation, and [removeNode] never panics. *)
Theorem delegationCache_no_panic (c : delegationCache) (D : delegation_map) (d n : string) :
  refines c D →
  (is_Some (D !! (d, n)) → is_ok (unstake c d n) = true) ∧
  is_ok (removeNode c n) = true.
Proof.
  intros HR. split.
  - intros [a Ha]. pose proof (unstake_refines c D d n HR) as Hu.
    destruct (unstake c d n); [done|congruence].
  - by destruct (removeNode_refines c D n HR) as (? & -> & _).
Qed.

Lemma delegationCache_no_panic_witness :
  is_ok (unstake (update emptyCache "a" "n" 5) "a" "n") = true.
Proof.
  refine (proj1 (delegationCache_no_panic (update emptyCache "a" "n" 5)
    (spec_update ∅ "a" "n" 5) "a" "n" _) _).
  - apply update_refines, refines_empty.
  - exists 5. vm_compute. reflexivity.
Defined.

(** ** Shares *)

Lemma share_set_get c a n s : 0 ≤ s → share_get (share_set c a n s) a n = s.
Proof.
  intros Hs. unfold share_get, share_set. destruct (Z.ltb_spec 0 s); simplify_map_eq; [done|].
  simpl. lia.
Qed.

End Delegations.
