(* ===== verification/VestingSchedule.v ===== *)
(** * Vesting schedule

    The linear daily release schedule of a vesting record and the reason
    strings that bind ledger events to vesting records
    (src/models/vesting.go). *)

From S2P Require Import Prelude Models.

Module VestingSchedule.

(** ** Schedule *)

(** [ComputeVestingShouldReleased], src/models/vesting.go 52-73.  The nil check
    of the pointer argument has no counterpart: every caller passes the address
    of a record field. *)
Definition ComputeVestingShouldReleased (totalAmount : Z) (startTime : Time) (durationDays : Z)
    (now : Time) : Z :=
  if (totalAmount <=? 0) || (durationDays =? 0) then 0
  else if now <? startTime then 0
  else
    let startDay := utc_day startTime in
    let nowDay := utc_day now in
    let elapsedDays := wrap_u64 (Z.quot (time_sub nowDay startDay) day) in
    if durationDays <=? elapsedDays then totalAmount
    else totalAmount * elapsedDays / durationDays.

(** [LockedAmountAt], src/models/vesting.go 75-85 *)
Definition LockedAmountAt (v : VestingRecord) (now : Time) : Z :=
  match v_Status v with
  | VestingStatusDeprecated => 0
  | _ =>
      let shouldReleased :=
        ComputeVestingShouldReleased (v_TotalAmount v) (v_StartTime v) (v_DurationDays v) now in
      let locked := v_TotalAmount v - shouldReleased in
      if locked <? 0 then 0 else locked
  end.

(** ** Reasons *)

(** [BuildVestingCreatedReason], src/models/vesting.go 87-89 *)
Definition BuildVestingCreatedReason (vestingID : Z) : string :=
  format_Z (RelayAccountEventType_code RelayAccountEventTypeVestingCreated)
    +:+ "-" +:+ format_Z vestingID.

(** [BuildVestingReleaseReason], src/models/vesting.go 104-106 *)
Definition BuildVestingReleaseReason (vestingID fromReleased toReleased : Z) : string :=
  format_Z (RelayAccountEventType_code RelayAccountEventTypeVestingRelease)
    +:+ "-" +:+ format_Z vestingID +:+ "-" +:+ format_Z fromReleased
    +:+ "-" +:+ format_Z toReleased.

(** [ParseVestingCreatedReason], src/models/vesting.go 108-121 *)
Definition ParseVestingCreatedReason (reason : string) : option Z :=
  match SplitN dash reason 2 with
  | [p0; p1] =>
      if negb (String.eqb p0 (format_Z (RelayAccountEventType_code RelayAccountEventTypeVestingCreated)))
      then None
      else match ParseUint p1 with
           | None => None
           | Some vestingID => if vestingID =? 0 then None else Some vestingID
           end
  | _ => None
  end.

(** [ParseVestingReleaseReason], src/models/vesting.go 123-141 *)
Definition ParseVestingReleaseReason (reason : string) : option (Z * Z * Z) :=
  match SplitN dash reason 4 with
  | [p0; p1; p2; p3] =>
      if negb (String.eqb p0 (format_Z (RelayAccountEventType_code RelayAccountEventTypeVestingRelease)))
      then None
      else match ParseUint p1 with
           | None => None
           | Some vestingID =>
               match SetString p2 with
               | None => None
               | Some fromReleased =>
                   match SetString p3 with
                   | None => None
                   | Some toReleased => Some (vestingID, fromReleased, toReleased)
                   end
               end
           end
  | _ => None
  end.

(** ** Lemmas on the elapsed days *)

(** The number of whole days between two instants, as the code computes it. *)
Definition elapsed (startTime now : Time) : Z :=
  wrap_u64 (Z.quot (time_sub (utc_day now) (utc_day startTime)) day).

Lemma elapsed_quot s n :
  s ≤ n → elapsed s n = sat_i64 (utc_day n - utc_day s) / day ∧ 0 ≤ elapsed s n ≤ max_i64.
Proof.
  intros Hsn. pose proof (utc_day_mono s n Hsn) as Hm. unfold elapsed, time_sub.
  assert (0 ≤ sat_i64 (utc_day n - utc_day s) ≤ max_i64) as Hs
    by (unfold sat_i64, min_i64, max_i64; lia).
  rewrite Z.quot_div_nonneg by (pose proof day_pos; lia).
  assert (0 ≤ sat_i64 (utc_day n - utc_day s) / day ≤ max_i64).
  { split; [apply Z.div_pos; [lia|apply day_pos]|].
    transitivity (sat_i64 (utc_day n - utc_day s)); [|lia].
    apply Z.div_le_upper_bound; [apply day_pos|]. pose proof day_pos. nia. }
  rewrite wrap_u64_small by (unfold max_u64, max_i64 in *; lia). done.
Qed.

Lemma elapsed_mono s n m : s ≤ n → n ≤ m → elapsed s n ≤ elapsed s m.
Proof.
  intros Hsn Hnm. destruct (elapsed_quot s n Hsn) as [-> _].
  destruct (elapsed_quot s m) as [-> _]; [lia|].
  apply Z.div_le_mono; [apply day_pos|]. apply sat_i64_mono.
  pose proof (utc_day_mono n m Hnm). lia.
Qed.

(** The number of days is exact for spans below the range of a duration (292
    years), and saturates above. *)
Lemma elapsed_exact s k :
  0 ≤ k → k * day ≤ max_i64 → elapsed s (s + k * day) = k.
Proof.
  intros Hk Hmax. destruct (elapsed_quot s (s + k * day)) as [-> _]; [pose proof day_pos; nia|].
  unfold utc_day. rewrite Z.div_add by (pose proof day_pos; lia).
  replace ((s / day + k) * day - s / day * day) with (k * day) by lia.
  rewrite sat_i64_small by (unfold min_i64; pose proof day_pos; nia).
  apply Z.div_mul. pose proof day_pos. lia.
Qed.

Lemma compute_unfold T s d n :
  0 < T → 0 < d → s ≤ n →
  ComputeVestingShouldReleased T s d n =
  if d <=? elapsed s n then T else T * elapsed s n / d.
Proof.
  intros HT Hd Hs. unfold ComputeVestingShouldReleased. fold (elapsed s n).
  destruct (Z.leb_spec T 0), (Z.eqb_spec d 0), (Z.ltb_spec n s); try lia. done.
Qed.

Lemma compute_bounds (totalAmount : Z) (startTime : Time)
    (durationDays : Z) (now : Time) :
  0 ≤ durationDays →
  0 ≤ ComputeVestingShouldReleased totalAmount startTime durationDays now ≤ Z.max 0 totalAmount.
Proof.
  intros Hd. destruct (Z.leb_spec totalAmount 0) as [|HT].
  { unfold ComputeVestingShouldReleased. rewrite (proj2 (Z.leb_le totalAmount 0)) by lia. simpl. lia. }
  destruct (Z.eqb_spec durationDays 0) as [->|].
  { unfold ComputeVestingShouldReleased. rewrite orb_true_r. lia. }
  destruct (Z.ltb_spec now startTime) as [Hn|Hn].
  { unfold ComputeVestingShouldReleased. rewrite (proj2 (Z.ltb_lt now startTime)) by lia.
    case_bool; lia. }
  rewrite compute_unfold by lia. destruct (elapsed_quot startTime now Hn) as [_ He].
  case_bool; [lia|]. split; [apply Z.div_pos; nia|].
  apply Z.div_le_upper_bound; nia.
Qed.

(** The locked amount is what the schedule has not released yet. *)
Lemma LockedAmountAt_complement v now :
  0 ≤ v_DurationDays v → 0 ≤ v_TotalAmount v → v_Status v ≠ VestingStatusDeprecated →
  LockedAmountAt v now +
    ComputeVestingShouldReleased (v_TotalAmount v) (v_StartTime v) (v_DurationDays v) now
  = v_TotalAmount v.
Proof.
  intros Hd HT Hs. unfold LockedAmountAt.
  pose proof (compute_bounds (v_TotalAmount v) (v_StartTime v)
    (v_DurationDays v) now Hd).
  destruct (v_Status v); [..|done]; case_bool; lia.
Qed.

(** At any time the amount the schedule allows to release lies between zero and
    the total amount of the record, and for a record that is not deprecated the
    released and the locked part add up to the total. *)
Lemma ComputeVestingShouldReleased_bounds (v : VestingRecord) (now : Time) :
  0 ≤ v_DurationDays v → 0 ≤ v_TotalAmount v →
  let released :=
    ComputeVestingShouldReleased (v_TotalAmount v) (v_StartTime v) (v_DurationDays v) now in
  0 ≤ released ≤ v_TotalAmount v ∧
  (v_Status v ≠ VestingStatusDeprecated → LockedAmountAt v now + released = v_TotalAmount v).
Proof.
  intros Hd HT released.
  pose proof (compute_bounds (v_TotalAmount v) (v_StartTime v) (v_DurationDays v) now Hd).
  split; [lia|]. by apply LockedAmountAt_complement.
Qed.

(** The schedule never moves backwards, releases nothing before the start,
    [total * k / duration] after [k] whole days, and everything from day
    [duration] on. *)
Lemma ComputeVestingShouldReleased_schedule (totalAmount : Z) (startTime : Time)
    (durationDays : Z) (now now' : Time) :
  0 < totalAmount → 0 < durationDays → now ≤ now' →
  ComputeVestingShouldReleased totalAmount startTime durationDays now
    ≤ ComputeVestingShouldReleased totalAmount startTime durationDays now' ∧
  (now < startTime → ComputeVestingShouldReleased totalAmount startTime durationDays now = 0) ∧
  ∀ k, 0 ≤ k → k * day ≤ max_i64 →
    ComputeVestingShouldReleased totalAmount startTime durationDays (startTime + k * day) =
    if durationDays <=? k then totalAmount else totalAmount * k / durationDays.
Proof.
  intros HT Hd Hn. split_and!.
  - destruct (Z.ltb_spec now startTime) as [Hlt|Hge].
    + transitivity 0; [|apply compute_bounds; lia].
      unfold ComputeVestingShouldReleased. rewrite (proj2 (Z.ltb_lt now startTime)) by lia.
      case_bool; lia.
    + rewrite !compute_unfold by lia. pose proof (elapsed_mono startTime now now').
      destruct (elapsed_quot startTime now) as [_ ?]; [lia|].
      repeat case_bool; try lia.
      * apply Z.div_le_upper_bound; nia.
      * apply Z.div_le_mono; [lia|]. nia.
  - intros Hlt. unfold ComputeVestingShouldReleased.
    rewrite (proj2 (Z.ltb_lt now startTime)) by lia. case_bool; lia.
  - intros k Hk Hmax. pose proof day_pos.
    rewrite compute_unfold, elapsed_exact by nia. done.
Qed.

(** C37 (bounds): at any time the amount the schedule of a record allows to
    release lies between zero and its total, and the released and the locked part of a
    record that is not deprecated add up to the total.  The schedule never moves backwards,
    releases nothing before the start, exactly [total * k / duration] after [k]
    whole days, and everything from day [duration] on (spans up to 292 years,
    beyond which [time.Duration] saturates). *)
Theorem vesting_schedule (v : VestingRecord) (now : Time) :
  0 ≤ v_DurationDays v → 0 ≤ v_TotalAmount v →
  let released := ComputeVestingShouldReleased (v_TotalAmount v) (v_StartTime v) (v_DurationDays v) in
  0 ≤ released now ≤ v_TotalAmount v ∧
  (v_Status v ≠ VestingStatusDeprecated → LockedAmountAt v now + released now = v_TotalAmount v) ∧
  (0 < v_TotalAmount v → 0 < v_DurationDays v →
    (∀ now', now ≤ now' → released now ≤ released now') ∧
    (now < v_StartTime v → released now = 0) ∧
    ∀ k, 0 ≤ k → k * day ≤ max_i64 →
      released (v_StartTime v + k * day) =
      if v_DurationDays v <=? k then v_TotalAmount v else v_TotalAmount v * k / v_DurationDays v).
Proof.
  intros Hd HT released. destruct (ComputeVestingShouldReleased_bounds v now Hd HT) as [Hb Hl].
  split; [done|]. split; [done|]. intros HT' Hd'.
  pose proof (λ now' H, ComputeVestingShouldReleased_schedule (v_TotalAmount v) (v_StartTime v) (v_DurationDays v)
    now now' HT' Hd' H) as Hs.
  split; [intros now' Hn; apply (Hs now' Hn)|apply (Hs now); lia].
Qed.

Lemma vesting_schedule_witness :
  let v := mkVestingRecord 1 "0xa" 1000 0 5 10 "node" "" VestingStatusActive false in
  LockedAmountAt v (5 + 3 * day) + 300 = 1000 ∧ ComputeVestingShouldReleased 1000 5 10 (5 + 4 * day) = 400.
Proof.
  intros v. destruct (vesting_schedule v (5 + 3 * day)) as (_ & Hl & Hs); [simpl; lia..|].
  split; [apply Hl; discriminate|]. destruct (Hs ltac:(simpl; lia) ltac:(simpl; lia)) as (_ & _ & Hk).
  apply (Hk 4); [lia|vm_compute; discriminate].
Defined.

(** The reasons that bind vesting events to their record parse
    back to the record id and the released range they were built from. *)
Theorem vesting_reason_roundtrip (vestingID fromReleased toReleased : Z) :
  0 < vestingID ≤ max_u64 → 0 ≤ fromReleased → 0 ≤ toReleased →
  ParseVestingReleaseReason (BuildVestingReleaseReason vestingID fromReleased toReleased)
    = Some (vestingID, fromReleased, toReleased) ∧
  ParseVestingCreatedReason (BuildVestingCreatedReason vestingID) = Some vestingID.
Proof.
  intros Hid Hf Ht. unfold ParseVestingReleaseReason, BuildVestingReleaseReason,
    ParseVestingCreatedReason, BuildVestingCreatedReason.
  split.
  - rewrite !SplitN_dash by (apply format_Z_avoids_dash; simpl; lia).
    rewrite SplitN_last, String.eqb_refl. cbn [negb].
    rewrite ParseUint_format by lia. by rewrite !SetString_format.
  - rewrite !SplitN_dash by (apply format_Z_avoids_dash; simpl; lia).
    rewrite SplitN_last, String.eqb_refl. cbn [negb].
    rewrite ParseUint_format by lia. destruct (Z.eqb_spec vestingID 0); [lia|done].
Qed.

Lemma vesting_reason_roundtrip_witness :
  ParseVestingReleaseReason "10-7-30-45" = Some (7, 30, 45).
Proof. apply (vesting_reason_roundtrip 7 30 45); vm_compute; intuition discriminate. Defined.

End VestingSchedule.
