(* ===== verification/Deadline.v ===== *)
(** * Task deadlines

    Which deadline a task has in its current status, who is responsible for
    missing it and the reason it is aborted with (src/service/start_task.go,
    [getTaskTransitionDeadline] of src/service/task_status.go and
    [ExecutionTime] of src/models/inference_task.go). *)

From S2P Require Import Prelude Models Config.

Module Deadline.

(** ** Definitions *)

(** [TaskTimeoutPhase], src/service/start_task.go 22-30 *)
Inductive TaskTimeoutPhase :=
| TaskTimeoutPhaseQueue
| TaskTimeoutPhaseExecution
| TaskTimeoutPhaseAppValidation
| TaskTimeoutPhaseResultUpload
| TaskTimeoutPhaseSDFT.

(** [UsesRelayOwnedTimeouts], src/service/start_task.go 32-34 *)
Definition UsesRelayOwnedTimeouts (t : TaskType) : bool :=
  bool_decide (t = TaskTypeSD) || bool_decide (t = TaskTypeLLM).

(** [ResolveQueueTimeout], src/service/start_task.go 44-68 *)
Definition ResolveQueueTimeout (cfg : AppConfig) (taskType : TaskType) (requested : option Z)
    : result Z :=
  if bool_decide (taskType = TaskTypeSDFTLora) then
    match requested with Some _ => Err ErrQueueTimeoutNotAllowed | None => Ok 0 end
  else if negb (UsesRelayOwnedTimeouts taskType) then
    match requested with Some _ => Err ErrQueueTimeoutNotAllowed | None => Ok 0 end
  else
    match requested with
    | None => Ok (pr_DefaultQueueTimeoutSeconds (TaskPricing cfg))
    | Some r =>
        if r =? 0 then Err ErrQueueTimeoutZero
        else if pr_MaxQueueTimeoutSeconds (TaskPricing cfg) <? r then Err ErrQueueTimeoutTooLarge
        else Ok r
    end.

(** [time.Duration(s) * time.Second] for an unsigned number of seconds: the
    conversion and the product wrap at 64 bits. *)
Definition seconds (s : Z) : Duration := wrap_i64 (wrap_i64 s * second).

(** [GetQueueDeadline], src/service/start_task.go 72-87 *)
Definition GetQueueDeadline (cfg : AppConfig) (task : InferenceTask) : option Time :=
  match t_CreateTime task with
  | None => None
  | Some createTime =>
      if bool_decide (t_TaskType task = TaskTypeSDFTLora) then
        Some (time_add createTime (wrap_i64 (3 * minute + seconds (t_Timeout task))))
      else if negb (UsesRelayOwnedTimeouts (t_TaskType task)) then None
      else
        let s := if t_QueueTimeout task =? 0
                 then pr_DefaultQueueTimeoutSeconds (TaskPricing cfg) else t_QueueTimeout task in
        Some (time_add createTime (seconds s))
  end.

(** [GetTaskDeadline], src/service/start_task.go 89-133: the deadline, the
    phase, the responsible party and the abort reason. *)
Definition GetTaskDeadline (cfg : AppConfig) (task : InferenceTask)
    : option (Time * TaskTimeoutPhase * string * TaskAbortReason) :=
  if bool_decide (t_Status task = TaskQueued) then
    match GetQueueDeadline cfg task with
    | Some deadline =>
        if UsesRelayOwnedTimeouts (t_TaskType task)
        then Some (deadline, TaskTimeoutPhaseQueue, "relay", TaskAbortTimeout)
        else Some (deadline, TaskTimeoutPhaseSDFT, "relay", TaskAbortTimeout)
    | None => None
    end
  else if negb (UsesRelayOwnedTimeouts (t_TaskType task)) then
    if negb (bool_decide (t_TaskType task = TaskTypeSDFTLora)) then None
    else
      match t_Status task with
      | TaskStarted | TaskParametersUploaded | TaskErrorReported
      | TaskScoreReady | TaskValidated | TaskGroupValidated =>
          match t_StartTime task with
          | Some start =>
              Some (time_add start (seconds (t_Timeout task)),
                    TaskTimeoutPhaseSDFT, "node_or_creator", TaskAbortTimeout)
          | None => None
          end
      | _ => None
      end
  else
    match t_Status task with
    | TaskStarted | TaskParametersUploaded =>
        match t_StartTime task with
        | Some start =>
            Some (time_add start (seconds (t_Timeout task)),
                  TaskTimeoutPhaseExecution, "node", TaskAbortTimeout)
        | None => None
        end
    | TaskScoreReady | TaskErrorReported =>
        match t_ScoreReadyTime task with
        | Some ready =>
            Some (time_add ready (seconds (pr_AppValidationTimeoutSeconds (TaskPricing cfg))),
                  TaskTimeoutPhaseAppValidation, "app", TaskAbortCreatorValidationTimeout)
        | None => None
        end
    | TaskValidated | TaskGroupValidated =>
        match t_ValidatedTime task with
        | Some validated =>
            Some (time_add validated (seconds (pr_ResultUploadTimeoutSeconds (TaskPricing cfg))),
                  TaskTimeoutPhaseResultUpload, "node", TaskAbortResultUploadTimeout)
        | None => None
        end
    | _ => None
    end.

(** [isQueuedTaskTimedOut], src/service/start_task.go 140-143 *)
Definition isQueuedTaskTimedOut (cfg : AppConfig) (task : InferenceTask) (now : Time) : bool :=
  match GetTaskDeadline cfg task with
  | Some (deadline, _, _, _) => bool_decide (t_Status task = TaskQueued) && (deadline <=? now)
  | None => false
  end.

(** [isRunningTaskTimedOut], src/service/start_task.go 150-153 *)
Definition isRunningTaskTimedOut (cfg : AppConfig) (task : InferenceTask) (now : Time) : bool :=
  match GetTaskDeadline cfg task with
  | Some (deadline, _, _, _) =>
      negb (bool_decide (t_Status task = TaskQueued)) && (deadline <=? now)
  | None => false
  end.

(** [getTaskTransitionDeadline], src/service/task_status.go 227-241 *)
Definition getTaskTransitionDeadline (cfg : AppConfig) (task : InferenceTask) (status : TaskStatus)
    (transitionTime : Time) : result (option Time) :=
  let task1 := task <| t_Status := status |> in
  let task2 :=
    match status with
    | TaskScoreReady | TaskErrorReported => task1 <| t_ScoreReadyTime := Some transitionTime |>
    | TaskValidated | TaskGroupValidated => task1 <| t_ValidatedTime := Some transitionTime |>
    | _ => task1
    end in
  match GetTaskDeadline cfg task2 with
  | Some (deadline, _, _, _) => Ok (Some deadline)
  | None => Err (ErrMsg "task deadline cannot be calculated")
  end.

(** [ExecutionTime], src/models/inference_task.go 269-274 *)
Definition ExecutionTime (task : InferenceTask) : Duration :=
  match t_StartTime task, t_ScoreReadyTime task with
  | Some s, Some r => time_sub r s
  | _, _ => max_i64
  end.

(** ** Properties *)

(** The statuses in which a task is finished. *)
Definition terminal (s : TaskStatus) : bool :=
  match s with
  | TaskEndInvalidated | TaskEndSuccess | TaskEndAborted
  | TaskEndGroupRefund | TaskEndGroupSuccess => true
  | _ => false
  end.

Lemma seconds_small s : 0 ≤ s → s * second ≤ max_i64 → seconds s = s * second.
Proof.
  intros H0 H1. unfold seconds.
  assert (Hs : s ≤ max_i64) by (unfold second in H1; lia).
  rewrite (wrap_i64_small s) by (unfold min_i64; lia).
  apply wrap_i64_small. unfold min_i64, second in *. lia.
Qed.

(** Which timestamp the deadline of a status is measured from. *)
Definition phase_anchor (task : InferenceTask) : option Time :=
  match t_TaskType task, t_Status task with
  | _, TaskQueued => t_CreateTime task
  | TaskTypeSDFTLora, _ => t_StartTime task
  | _, TaskStarted | _, TaskParametersUploaded => t_StartTime task
  | _, TaskScoreReady | _, TaskErrorReported => t_ScoreReadyTime task
  | _, _ => t_ValidatedTime task
  end.

(** A finished task never has a deadline, and an unfinished task has one exactly
    when the timestamp its phase is measured from is set; the abort reason of an
    unfinished ordinary task tells its phase. *)
Lemma GetTaskDeadline_complete (cfg : AppConfig) (task : InferenceTask) :
  (terminal (t_Status task) = true → GetTaskDeadline cfg task = None) ∧
  (terminal (t_Status task) = false →
     (is_Some (GetTaskDeadline cfg task) ↔ is_Some (phase_anchor task))) ∧
  (∀ deadline phase who reason,
     GetTaskDeadline cfg task = Some (deadline, phase, who, reason) →
     UsesRelayOwnedTimeouts (t_TaskType task) = true →
     (reason = TaskAbortCreatorValidationTimeout ↔
        t_Status task = TaskScoreReady ∨ t_Status task = TaskErrorReported) ∧
     (reason = TaskAbortResultUploadTimeout ↔
        t_Status task = TaskValidated ∨ t_Status task = TaskGroupValidated)).
Proof.
  unfold GetTaskDeadline, GetQueueDeadline, phase_anchor, UsesRelayOwnedTimeouts.
  destruct (t_TaskType task), (t_Status task),
    (t_CreateTime task), (t_StartTime task), (t_ScoreReadyTime task), (t_ValidatedTime task).
  all: simpl; split_and!; intros; simplify_eq/=; try done.
  all: split; first [by intros [? ?] | by intros; eexists | intuition congruence].
Qed.

(** While the timeout in seconds fits a 64-bit duration the execution deadline is
    the start plus the timeout; past that range the product wraps. *)
Lemma GetTaskDeadline_overflow (cfg : AppConfig) (task : InferenceTask) (start : Time) :
  t_StartTime task = Some start → t_Status task = TaskStarted → 0 ≤ t_Timeout task →
  (t_Timeout task * second ≤ max_i64 →
     ∃ phase who, GetTaskDeadline cfg task =
       Some (start + t_Timeout task * second, phase, who, TaskAbortTimeout)) ∧
  (t_Timeout task = max_i64 / second + 1 →
     ∃ deadline phase who, GetTaskDeadline cfg task =
       Some (deadline, phase, who, TaskAbortTimeout) ∧ deadline < start).
Proof.
  intros Hs Hst H0. unfold GetTaskDeadline, UsesRelayOwnedTimeouts, time_add.
  rewrite Hst, Hs. split.
  - intros Hmax. rewrite (seconds_small _ H0 Hmax).
    destruct (t_TaskType task); simpl; eauto.
  - intros ->. assert (seconds (max_i64 / second + 1) < 0) by done.
    destruct (t_TaskType task); simpl; do 3 eexists; (split; [reflexivity|lia]).
Qed.

(** A finished task never has a deadline, and an unfinished
    task has one exactly when the timestamp its phase is measured from is set;
    the abort reason of an unfinished ordinary task tells its phase.
    As long as the timeout in seconds fits a 64-bit duration, the
    execution deadline is exactly the start plus the timeout.  Past that range the
    product wraps: a task with a timeout of [2^63 / 10^9 + 1] seconds has its
    deadline before the time it started. *)
Theorem GetTaskDeadline_spec (cfg : AppConfig) (task : InferenceTask) :
  (terminal (t_Status task) = true → GetTaskDeadline cfg task = None) ∧
  (terminal (t_Status task) = false →
     (is_Some (GetTaskDeadline cfg task) ↔ is_Some (phase_anchor task))) ∧
  (∀ deadline phase who reason,
     GetTaskDeadline cfg task = Some (deadline, phase, who, reason) →
     UsesRelayOwnedTimeouts (t_TaskType task) = true →
     (reason = TaskAbortCreatorValidationTimeout ↔
        t_Status task = TaskScoreReady ∨ t_Status task = TaskErrorReported) ∧
     (reason = TaskAbortResultUploadTimeout ↔
        t_Status task = TaskValidated ∨ t_Status task = TaskGroupValidated)) ∧
  (∀ start, t_StartTime task = Some start → t_Status task = TaskStarted → 0 ≤ t_Timeout task →
     (t_Timeout task * second ≤ max_i64 →
        ∃ phase who, GetTaskDeadline cfg task =
          Some (start + t_Timeout task * second, phase, who, TaskAbortTimeout)) ∧
     (t_Timeout task = max_i64 / second + 1 →
        ∃ deadline phase who, GetTaskDeadline cfg task =
          Some (deadline, phase, who, TaskAbortTimeout) ∧ deadline < start)).
Proof.
  destruct (GetTaskDeadline_complete cfg task) as (H1 & H2 & H3). split_and!; [done|done|done|].
  intros start. apply GetTaskDeadline_overflow.
Qed.

End Deadline.
