(* ===== verification/ModelFiles.v ===== *)
(** * Model files

    src/models/model_file.go: sets of 32-byte hashes and their encoding in the
    columns of tasks and of nodes.  Hashes and columns are lists of bytes. *)

From stdpp Require Import sorting.
From S2P Require Import Prelude Models Mac.

Module ModelFiles.
Import Mac.

(** ** Hash lists *)

(** [Hash32FromBytes], src/models/model_file.go 39-46 *)
Definition Hash32FromBytes (b : list Z) : result (list Z) :=
  if Nat.eqb (length b) 32 then Ok b else Err (ErrMsg "hash must be 32 bytes").

(** [bytes.Compare] *)
Fixpoint bytes_compare (a b : list Z) : comparison :=
  match a, b with
  | [], [] => Eq
  | [], _ => Lt
  | _, [] => Gt
  | x :: a', y :: b' => match x ?= y with Eq => bytes_compare a' b' | c => c end
  end.

Definition bytes_le (a b : list Z) : Prop := bytes_compare a b ≠ Gt.
#[export] Instance bytes_le_dec a b : Decision (bytes_le a b) := decide (bytes_compare a b ≠ Gt).

(** The loop of [SortedUniqueHashes]: [unique] and [sorted] share one array, of
    which the first [u] elements are [unique]; [n] elements from [i] on are left. *)
Fixpoint uniqueLoop (n i u : nat) (arr : list (list Z)) : list (list Z) :=
  match n with
  | O => take u arr
  | S n' =>
      match arr !! i with
      | None => take u arr
      | Some h =>
          if bool_decide (i ≠ O ∧ arr !! Nat.pred i = Some h)
          then uniqueLoop n' (S i) u arr
          else uniqueLoop n' (S i) (S u) (<[u := h]> arr)
      end
  end.

(** [SortedUniqueHashes], src/models/model_file.go 228-243 *)
Definition SortedUniqueHashes (hashes : list (list Z)) : list (list Z) :=
  let sorted := merge_sort bytes_le hashes in
  uniqueLoop (length sorted) 0 0 sorted.

(** [EncodeHashList], src/models/model_file.go 247-254 *)
Definition EncodeHashList (hashes : list (list Z)) : list Z := List.concat (SortedUniqueHashes hashes).

(** [DecodeHashList], src/models/model_file.go 257-268 *)
Definition DecodeHashList (data : list Z) : result (list (list Z)) :=
  if Nat.eqb (length data mod 32) 0 then Ok (chunk 32 data) else Err (ErrMsg "hash list length").

(** [RequiredModelFilesHash], src/models/model_file.go 271-273 *)
Definition RequiredModelFilesHash (hashes : list (list Z)) : list Z := sha256 (EncodeHashList hashes).

(** [DistributionKey], src/models/model_file_task.go 256-261 *)
Definition DistributionKey (exact source : list (list Z)) : list Z := RequiredModelFilesHash (exact ++ source).

(** ** The order of bytes *)

Lemma bytes_compare_eq a b : bytes_compare a b = Eq ↔ a = b.
Proof.
  split; [|intros ->; induction b as [|y b IH]; simpl; [done|by rewrite Z.compare_refl]].
  revert b. induction a as [|x a IH]; intros [|y b]; simpl; try done.
  destruct (Z.compare_spec x y) as [->|?|?]; try done. intros ?%IH. by subst.
Qed.

Lemma bytes_compare_antisym a b : bytes_compare b a = CompOpp (bytes_compare a b).
Proof.
  revert b. induction a as [|x a IH]; intros [|y b]; simpl; try done.
  rewrite (Z.compare_antisym x y). destruct (x ?= y); simpl; auto.
Qed.

Lemma bytes_compare_trans a b c : bytes_compare a b ≠ Gt → bytes_compare b c ≠ Gt → bytes_compare a c ≠ Gt.
Proof.
  revert b c. induction a as [|x a IH]; intros [|y b] [|z c]; simpl; try done.
  destruct (Z.compare_spec x y), (Z.compare_spec y z), (Z.compare_spec x z); subst; try done; try lia.
  apply IH.
Qed.

#[export] Instance bytes_le_trans : Transitive bytes_le.
Proof. intros a b c. apply bytes_compare_trans. Qed.
#[export] Instance bytes_le_total : Total bytes_le.
Proof.
  intros a b. unfold bytes_le. rewrite (bytes_compare_antisym a b).
  destruct (bytes_compare a b); simpl; auto.
Qed.
#[export] Instance bytes_le_antisymm : AntiSymm (=) bytes_le.
Proof.
  intros a b. unfold bytes_le. rewrite (bytes_compare_antisym a b). intros H1 H2.
  apply bytes_compare_eq. destruct (bytes_compare a b); simpl in *; congruence.
Qed.

(** ** Removing duplicates *)

(** Reference: an element equal to its predecessor is dropped. *)
Fixpoint dedup (prev : option (list Z)) (l : list (list Z)) : list (list Z) :=
  match l with
  | [] => []
  | h :: l' => if bool_decide (prev = Some h) then dedup (Some h) l' else h :: dedup (Some h) l'
  end.

(** The shared array does not disturb the comparison: the loop only writes
    behind the element it reads. *)
Lemma uniqueLoop_dedup l : ∀ i u arr,
  drop i arr = l → (u ≤ i)%nat → (i ≤ length arr)%nat →
  uniqueLoop (length l) i u arr =
  take u arr ++ dedup (match i with O => None | S j => arr !! j end) l.
Proof.
  induction l as [|h l IH]; intros i u arr Hd Hu Hi; simpl; [by rewrite app_nil_r|].
  assert (Hlt : (i < length arr)%nat).
  { destruct (decide (i = length arr)) as [->|]; [rewrite drop_all in Hd|]; [done|lia]. }
  assert (Hh : arr !! i = Some h) by (rewrite <- (Nat.add_0_r i), <- lookup_drop, Hd; done).
  assert (Hd' : drop (S i) arr = l) by (rewrite <- Nat.add_1_r, <- drop_drop, Hd; done).
  rewrite Hh. destruct i as [|j].
  - rewrite bool_decide_eq_false_2 by (intros [? _]; done).
    rewrite bool_decide_eq_false_2 by done. assert (u = O) as -> by lia.
    destruct arr as [|a arr]; [done|]. simpl in Hh. injection Hh as ->. simpl.
    rewrite IH; [done|done|lia|simpl; lia].
  - simpl Nat.pred. destruct (decide (arr !! j = Some h)) as [Heq|Hne].
    + rewrite !bool_decide_eq_true_2 by (done || split; done).
      rewrite IH; [|done|lia|lia]. by rewrite Hh.
    + rewrite bool_decide_eq_false_2 by (intros [_ ?]; done).
      rewrite bool_decide_eq_false_2 by done.
      assert (Hp : <[u := h]> arr !! S j = Some h).
      { destruct (decide (u = S j)) as [->|]; [by apply list_lookup_insert_eq|].
        by rewrite list_lookup_insert_ne. }
      rewrite IH; [|by rewrite drop_insert_lt by lia|lia|rewrite length_insert; lia].
      rewrite Hp, (take_S_r _ u h) by (apply list_lookup_insert_eq; lia).
      rewrite take_insert_ge by lia. by rewrite <- app_assoc.
Qed.

Lemma SortedUniqueHashes_dedup hashes :
  SortedUniqueHashes hashes = dedup None (merge_sort bytes_le hashes).
Proof. unfold SortedUniqueHashes. rewrite (uniqueLoop_dedup (merge_sort bytes_le hashes)); [done|done|lia|lia]. Qed.

Lemma dedup_elem l : ∀ prev h, h ∈ l → prev = Some h ∨ h ∈ dedup prev l.
Proof.
  induction l as [|x l IH]; intros prev h; [set_solver|].
  intros [->|Hin]%elem_of_cons; simpl.
  - case_bool_decide as Hp; [by left|right; set_solver].
  - destruct (IH (Some x) h Hin) as [[= ->]|Hd].
    + case_bool_decide; [by left|right; set_solver].
    + case_bool_decide; right; set_solver.
Qed.

Lemma dedup_subset l : ∀ prev h, h ∈ dedup prev l → h ∈ l.
Proof.
  induction l as [|x l IH]; intros prev h; simpl; [set_solver|].
  case_bool_decide; [intros ?%IH; set_solver|]. intros [->|?%IH]%elem_of_cons; set_solver.
Qed.

(** Strictly ascending order *)
Definition bytes_lt (a b : list Z) : Prop := bytes_compare a b = Lt.

Lemma bytes_le_lt a b : bytes_le a b → a ≠ b → bytes_lt a b.
Proof.
  unfold bytes_le, bytes_lt. intros H1 H2. destruct (bytes_compare a b) eqn:E; try done.
  by apply bytes_compare_eq in E.
Qed.

Lemma dedup_StronglySorted l : ∀ prev, StronglySorted bytes_le l →
  (∀ p, prev = Some p → Forall (bytes_le p) l) →
  StronglySorted bytes_lt (dedup prev l) ∧ (∀ p, prev = Some p → Forall (bytes_lt p) (dedup prev l)).
Proof.
  induction l as [|x l IH]; intros prev Hs Hp; simpl; [split; [constructor|by constructor]|].
  apply StronglySorted_cons in Hs as [Hx Hs].
  destruct (IH (Some x) Hs) as [I1 I2]; [intros p [= <-]; done|]. specialize (I2 x eq_refl).
  case_bool_decide as Hc.
  - split; [done|]. intros p ->. by injection Hc as ->.
  - split; [by constructor|]. intros p ->. specialize (Hp p eq_refl). apply Forall_cons in Hp as [Hpx Hpl].
    assert (Hlt : bytes_lt p x) by (apply bytes_le_lt; [done|congruence]).
    constructor; [done|]. eapply Forall_impl; [exact I2|]. intros y Hy. unfold bytes_lt in *.
    apply bytes_le_lt; [apply (bytes_le_trans p x); unfold bytes_le; congruence|].
    intros ->. rewrite (bytes_compare_antisym y x), Hlt in Hy. done.
Qed.

Lemma StronglySorted_lt_le l : StronglySorted bytes_lt l → StronglySorted bytes_le l.
Proof.
  induction 1 as [|x l Hs IH Hx]; constructor; [done|].
  eapply Forall_impl; [exact Hx|]. unfold bytes_lt, bytes_le. congruence.
Qed.

Lemma StronglySorted_lt_NoDup l : StronglySorted bytes_lt l → NoDup l.
Proof.
  induction 1 as [|x l Hs IH Hx]; constructor; [|done].
  intros Hin. rewrite Forall_forall in Hx. specialize (Hx x Hin). unfold bytes_lt in Hx.
  by rewrite (proj2 (bytes_compare_eq x x) eq_refl) in Hx.
Qed.

Lemma SortedUniqueHashes_spec hashes :
  StronglySorted bytes_lt (SortedUniqueHashes hashes) ∧
  ∀ h, h ∈ SortedUniqueHashes hashes ↔ h ∈ hashes.
Proof.
  rewrite SortedUniqueHashes_dedup. split.
  - apply dedup_StronglySorted; [apply StronglySorted_merge_sort; apply _|done].
  - intros h. pose proof (merge_sort_Permutation bytes_le hashes) as Hp. split.
    + intros Hin%dedup_subset. by rewrite Hp in Hin.
    + intros Hin. rewrite <- Hp in Hin. by destruct (dedup_elem _ None h Hin).
Qed.

(** Equal sets have the same sorted list. *)
Lemma SortedUniqueHashes_canonical l1 l2 :
  (∀ h, h ∈ l1 ↔ h ∈ l2) → SortedUniqueHashes l1 = SortedUniqueHashes l2.
Proof.
  intros Heq. destruct (SortedUniqueHashes_spec l1) as [S1 E1], (SortedUniqueHashes_spec l2) as [S2 E2].
  apply (StronglySorted_unique bytes_le).
  - by apply StronglySorted_lt_le.
  - by apply StronglySorted_lt_le.
  - apply NoDup_Permutation; [by apply StronglySorted_lt_NoDup..|].
    intros h. by rewrite E1, E2.
Qed.

(** ** The encoding *)

Definition is_hash (h : list Z) : Prop := length h = 32%nat.

Lemma length_concat_hashes l : Forall is_hash l → length (List.concat l) = (32 * length l)%nat.
Proof. induction 1 as [|h l Hh Hl IH]; simpl; [done|]. rewrite length_app, IH, Hh. lia. Qed.

Lemma chunk_concat l : Forall is_hash l → chunk 32 (List.concat l) = l.
Proof.
  intros Hl. unfold chunk.
  assert (H : ∀ fuel, (length l ≤ fuel)%nat → chunk_fuel fuel 32 (List.concat l) = l).
  { induction Hl as [|h l Hh Hl IH]; intros fuel Hf; simpl; [by destruct fuel|].
    destruct fuel as [|fuel]; simpl in Hf; [lia|]. unfold is_hash in Hh.
    destruct h as [|b h]; [done|]. cbn [app chunk_fuel].
    change (b :: h ++ List.concat l) with ((b :: h) ++ List.concat l).
    rewrite take_app_length' by done. rewrite drop_app_length' by done. rewrite IH by lia. done. }
  apply H. rewrite length_concat_hashes by done. lia.
Qed.

Lemma SortedUniqueHashes_hashes l : Forall is_hash l → Forall is_hash (SortedUniqueHashes l).
Proof.
  rewrite !Forall_forall. intros Hl h Hh. destruct (SortedUniqueHashes_spec l) as [_ He]. by apply Hl, He.
Qed.

Lemma DecodeHashList_Encode l : Forall is_hash l → DecodeHashList (EncodeHashList l) = Ok (SortedUniqueHashes l).
Proof.
  intros Hl%SortedUniqueHashes_hashes.
  unfold DecodeHashList, EncodeHashList. rewrite length_concat_hashes by done.
  rewrite Nat.mul_comm, Nat.Div0.mod_mul. simpl. by rewrite chunk_concat.
Qed.

(** The column of a set of hashes depends on the set only, and reading it back
    gives the members of the set in ascending order; different sets have
    different columns. *)
Theorem hash_list_roundtrip l1 l2 : Forall is_hash l1 → Forall is_hash l2 →
  DecodeHashList (EncodeHashList l1) = Ok (SortedUniqueHashes l1) ∧
  StronglySorted bytes_lt (SortedUniqueHashes l1) ∧
  (∀ h, h ∈ SortedUniqueHashes l1 ↔ h ∈ l1) ∧
  (EncodeHashList l1 = EncodeHashList l2 ↔ ∀ h, h ∈ l1 ↔ h ∈ l2).
Proof.
  pose proof DecodeHashList_Encode as HD.
  intros H1 H2. destruct (SortedUniqueHashes_spec l1) as [S1 E1].
  split; [by apply HD|]. split; [done|]. split; [done|]. split.
  - intros He. pose proof (HD l1 H1) as D1. rewrite He, (HD l2 H2) in D1. injection D1 as D1.
    destruct (SortedUniqueHashes_spec l2) as [_ E2]. intros h. by rewrite <- E1, <- E2, D1.
  - intros Hs. unfold EncodeHashList. by rewrite (SortedUniqueHashes_canonical l1 l2 Hs).
Qed.

End ModelFiles.
