(* ===== verification/TaskModels.v ===== *)
(** * The model files of a task

    src/models/model_file.go, model_id.go and model_file_task.go: names and
    revisions in normal form, the identity of a model file as the hash of its
    canonical JSON, and the requirements derived from the arguments of a task. *)

From Stdlib Require Import Ascii.
From stdpp Require Import sorting.
From S2P Require Import Prelude Mac Json JsonDecode GoStrings Models ModelFiles.

Module TaskModels.
Import Mac Json JsonDecode GoStrings ModelFiles.

(** ** Names *)

Section names.
Context {U : Unicode}.

(** [NormalizeModelName], src/models/model_id.go 110-115 *)
Definition NormalizeModelName (name : string) : string :=
  if HasPrefix name "http://" || HasPrefix name "https://" then name else ToLower name.

(** [IsCommitSHA], src/models/model_file.go 117-132 *)
Definition IsCommitSHA (revision : string) : bool :=
  Nat.eqb (String.length revision) 40 &&
  forallb (λ c, let z := code c in
    ((48 <=? z) && (z <=? 57)) || ((97 <=? z) && (z <=? 102)) || ((65 <=? z) && (z <=? 70))) (chars revision).

(** [NormalizeCommitRevision], src/models/model_file.go 136-141 *)
Definition NormalizeCommitRevision (revision : string) : string :=
  if IsCommitSHA revision then ToLower revision else revision.

(** ** Entries *)

(** [Normalized], src/models/model_file.go 61-69 *)
Definition Normalized (e : ModelFileEntry) : ModelFileEntry :=
  mkModelFileEntry (me_SourceType e) (NormalizeModelName (me_Repository e)) (NormalizeCommitRevision (me_Revision e))
    (me_Format e) (Some (match me_FormatKwargs e with Some m => m | None => [] end)).

Definition kwargsOf (e : ModelFileEntry) : list (list ascii * json) :=
  match me_FormatKwargs e with Some m => m | None => [] end.

(** [canonicalObject], src/models/model_file.go 71-83; the keys in the order of
    the encoding *)
Definition canonicalObject (e : ModelFileEntry) (withRevision : bool) : json :=
  let n := Normalized e in
  JObject ([(chars "format", JString (chars (me_Format n)));
            (chars "format_kwargs", JObject (kwargsOf n));
            (chars "repository", JString (chars (me_Repository n)))] ++
           (if withRevision then [(chars "revision", JString (chars (me_Revision n)))] else []) ++
           [(chars "source_type", JString (chars (me_SourceType n)))]).

(** [ModelFileEntry.CanonicalJSON], src/models/model_file.go 86-91 *)
Definition entryCanonicalJSON (e : ModelFileEntry) : result (list Z) :=
  if String.eqb (me_Revision e) "" then Err (ErrMsg "model file entry revision is empty")
  else CanonicalJSON (canonicalObject e true).

(** [SourceCanonicalJSON], src/models/model_file.go 94-96 *)
Definition SourceCanonicalJSON (e : ModelFileEntry) : result (list Z) := CanonicalJSON (canonicalObject e false).

(** [ModelFileHash], src/models/model_file.go 99-105 *)
Definition ModelFileHash (e : ModelFileEntry) : result (list Z) :=
  match entryCanonicalJSON e with Ok data => Ok (sha256 data) | Err x => Err x end.

(** [ModelFileSourceHash], src/models/model_file.go 108-114 *)
Definition ModelFileSourceHash (e : ModelFileEntry) : result (list Z) :=
  match SourceCanonicalJSON e with Ok data => Ok (sha256 data) | Err x => Err x end.

(** [NewModelFile], src/models/model_file.go 285-304 *)
Definition NewModelFile (entry : ModelFileEntry) : result ModelFile :=
  let entry := Normalized entry in
  match ModelFileHash entry with
  | Err x => Err x
  | Ok hash =>
      match ModelFileSourceHash entry with
      | Err x => Err x
      | Ok sourceHash =>
          match entryCanonicalJSON entry with
          | Err x => Err x
          | Ok canonical => Ok (mkModelFile hash sourceHash canonical)
          end
      end
  end.

(** The struct tags of [ModelFileEntry], src/models/model_file.go 50-56 *)
Definition setEntryField (floats : json → option json) (n : string) (v : json) (e : ModelFileEntry) : option ModelFileEntry :=
  if String.eqb n "source_type" then s ← decodeString v (me_SourceType e); Some (e <| me_SourceType := s |>)
  else if String.eqb n "repository" then s ← decodeString v (me_Repository e); Some (e <| me_Repository := s |>)
  else if String.eqb n "revision" then s ← decodeString v (me_Revision e); Some (e <| me_Revision := s |>)
  else if String.eqb n "format" then s ← decodeString v (me_Format e); Some (e <| me_Format := s |>)
  else v' ← floats v; m ← decodeMap v' (me_FormatKwargs e); Some (e <| me_FormatKwargs := m |>).
Definition entryFields : list string := ["source_type"; "repository"; "revision"; "format"; "format_kwargs"].
Definition emptyEntry : ModelFileEntry := mkModelFileEntry "" "" "" "" None.

(** [ModelFile.Entry], src/models/model_file.go 336-342: numbers become floats. *)
Definition Entry `{Float64Text} (f : ModelFile) : result ModelFileEntry :=
  match (v ← Unmarshal (map char (mf_CanonicalJSON f)); decodeStruct entryFields (setEntryField floats) v emptyEntry) with
  | Some e => Ok e
  | None => Err (ErrMsg "decode model file")
  end.

(** ** The arguments of a task *)

(** [taskArgsModelSource], src/models/model_file_task.go 30-33 *)
Record taskArgsModelSource := mkArgsSource { as_Name : string; as_Revision : option string }.
#[export] Instance eta_taskArgsModelSource : Eta taskArgsModelSource := λ r, mkArgsSource (as_Name r) (as_Revision r).

(** [taskArgsComponent], src/models/model_file_task.go 35-40 *)
Record taskArgsComponent := mkArgsComponent {
  ac_Format : string;
  ac_Repo : string;
  ac_Revision : option string;
  ac_FormatKwargs : option (list (list ascii * json))
}.
#[export] Instance eta_taskArgsComponent : Eta taskArgsComponent := λ r,
  mkArgsComponent (ac_Format r) (ac_Repo r) (ac_Revision r) (ac_FormatKwargs r).

(** [taskArgsLora], src/models/model_file_task.go 42-46; a nil weight is null. *)
Record taskArgsLora := mkArgsLora { al_Model : string; al_WeightFileName : string; al_Weight : json }.
#[export] Instance eta_taskArgsLora : Eta taskArgsLora := λ r, mkArgsLora (al_Model r) (al_WeightFileName r) (al_Weight r).

(** [taskArgsModelFiles], src/models/model_file_task.go 48-57; the version is not
    used. *)
Record taskArgsModelFiles := mkArgs {
  ta_DType : string;
  ta_QuantizationConfig : json;
  ta_Model : string;
  ta_Revision : option string;
  ta_BaseModel : option taskArgsModelSource;
  ta_Components : list (list ascii * taskArgsComponent);
  ta_Lora : option taskArgsLora
}.
#[export] Instance eta_taskArgsModelFiles : Eta taskArgsModelFiles := λ r,
  mkArgs (ta_DType r) (ta_QuantizationConfig r) (ta_Model r) (ta_Revision r) (ta_BaseModel r) (ta_Components r) (ta_Lora r).

(** The struct tags of these types, src/models/model_file_task.go 30-57 *)
Definition setSourceField (n : string) (v : json) (a : taskArgsModelSource) : option taskArgsModelSource :=
  if String.eqb n "name" then s ← decodeString v (as_Name a); Some (a <| as_Name := s |>)
  else r ← decodeStringPtr v; Some (a <| as_Revision := r |>).

Definition setComponentField (n : string) (v : json) (a : taskArgsComponent) : option taskArgsComponent :=
  if String.eqb n "format" then s ← decodeString v (ac_Format a); Some (a <| ac_Format := s |>)
  else if String.eqb n "repo" then s ← decodeString v (ac_Repo a); Some (a <| ac_Repo := s |>)
  else if String.eqb n "revision" then r ← decodeStringPtr v; Some (a <| ac_Revision := r |>)
  else m ← decodeMap v (ac_FormatKwargs a); Some (a <| ac_FormatKwargs := m |>).

Definition setLoraField (n : string) (v : json) (a : taskArgsLora) : option taskArgsLora :=
  if String.eqb n "model" then s ← decodeString v (al_Model a); Some (a <| al_Model := s |>)
  else if String.eqb n "weight_file_name" then s ← decodeString v (al_WeightFileName a); Some (a <| al_WeightFileName := s |>)
  else Some (a <| al_Weight := generic v |>).

(** A pointer to a struct: null resets it, an object is stored into the struct it
    points to or into a new one. *)
Definition decodePtr {A} (names : list string) (set : string → json → A → option A) (zero : A) (v : json) (old : option A)
    : option (option A) :=
  match v with
  | JNull => Some None
  | _ => a ← decodeStruct names set v (match old with Some a => a | None => zero end); Some (Some a)
  end.

(** A map of structs: each member is stored into a new struct. *)
Definition decodeComponents (v : json) (old : list (list ascii * taskArgsComponent))
    : option (list (list ascii * taskArgsComponent)) :=
  match v with
  | JNull => Some []
  | JObject o =>
      foldl (λ acc kv, m ← acc;
        c ← decodeStruct ["format"; "repo"; "revision"; "format_kwargs"] setComponentField (snd kv) (mkArgsComponent "" "" None None);
        Some (mapInsert (fst kv) c m)) (Some old) o
  | _ => None
  end.

Definition setArgsField (n : string) (v : json) (a : taskArgsModelFiles) : option taskArgsModelFiles :=
  if String.eqb n "version" then _ ← decodeString v ""; Some a
  else if String.eqb n "dtype" then s ← decodeString v (ta_DType a); Some (a <| ta_DType := s |>)
  else if String.eqb n "quantization_config" then Some (a <| ta_QuantizationConfig := generic v |>)
  else if String.eqb n "model" then s ← decodeString v (ta_Model a); Some (a <| ta_Model := s |>)
  else if String.eqb n "revision" then r ← decodeStringPtr v; Some (a <| ta_Revision := r |>)
  else if String.eqb n "base_model" then
    b ← decodePtr ["name"; "revision"] setSourceField (mkArgsSource "" None) v (ta_BaseModel a); Some (a <| ta_BaseModel := b |>)
  else if String.eqb n "components" then c ← decodeComponents v (ta_Components a); Some (a <| ta_Components := c |>)
  else l ← decodePtr ["model"; "weight_file_name"; "weight"] setLoraField (mkArgsLora "" "" JNull) v (ta_Lora a);
       Some (a <| ta_Lora := l |>).

(** Decoding the arguments, src/models/model_file_task.go 72-77 *)
Definition decodeTaskArgs (taskArgs : string) : result taskArgsModelFiles :=
  match (v ← Decode (chars taskArgs);
         decodeStruct ["version"; "dtype"; "quantization_config"; "model"; "revision"; "base_model"; "components"; "lora"]
           setArgsField v (mkArgs "" JNull "" None None [] None)) with
  | Some a => Ok a
  | None => Err (ErrMsg "invalid task args")
  end.

(** ** The requirements *)

(** [QuantizationConfigHash], src/models/model_file_task.go 61-67 *)
Definition QuantizationConfigHash (config : json) : result (list Z) :=
  match CanonicalJSON config with Ok canonical => Ok (sha256 canonical) | Err e => Err e end.

(** [TaskModelRequirements], src/models/model_file_task.go 12-28 *)
Record TaskModelRequirements := mkTaskRequirements {
  tr_Entries : list ModelFileEntry;
  tr_RequiredModelFileHashes : list (list Z);
  tr_RequiredModelFileSourceHashes : list (list Z);
  tr_RequestedModelCacheHash : list Z;
  tr_RequestedModelCacheConfig : list Z;
  tr_QuantizationConfigHash : list Z;
  tr_RequireLinuxCuda : bool
}.
#[export] Instance eta_TaskModelRequirements : Eta TaskModelRequirements := λ r,
  mkTaskRequirements (tr_Entries r) (tr_RequiredModelFileHashes r) (tr_RequiredModelFileSourceHashes r)
    (tr_RequestedModelCacheHash r) (tr_RequestedModelCacheConfig r) (tr_QuantizationConfigHash r) (tr_RequireLinuxCuda r).

(** [normalizeTaskDType], src/models/model_file_task.go 263-268 *)
Definition normalizeTaskDType (dtype : string) : string := if String.eqb dtype "" then "auto" else ToLower dtype.

(** [optionalString], src/models/model_file_task.go 270-275 *)
Definition optionalString (s : option string) : string := match s with Some x => x | None => "" end.

(** [canonicalLora], src/models/model_file_task.go 277-290 *)
Definition canonicalLora (lora : option taskArgsLora) : json :=
  match lora with
  | None => JNull
  | Some l =>
      JObject [(chars "model", JString (chars (al_Model l)));
               (chars "weight", match al_Weight l with JNull => JNumber (chars "100") | w => w end);
               (chars "weight_file_name", JString (chars (al_WeightFileName l)))]
  end.

(** The entry of a component, src/models/model_file_task.go 118-124 *)
Definition componentEntry (c : taskArgsComponent) : ModelFileEntry :=
  mkModelFileEntry "huggingface" (NormalizeModelName (ac_Repo c)) (NormalizeCommitRevision (optionalString (ac_Revision c)))
    (ac_Format c) (ac_FormatKwargs c).
Definition componentOk (kc : list ascii * taskArgsComponent) : bool :=
  negb (bool_decide (fst kc = []) || String.eqb (ac_Format (snd kc)) "" || String.eqb (ac_Repo (snd kc)) "").

(** [deriveRequiredHashes], src/models/model_file_task.go 159-175: exact and
    source hashes *)
Fixpoint requiredHashes (entries : list ModelFileEntry) : result (list (list Z) * list (list Z)) :=
  match entries with
  | [] => Ok ([], [])
  | entry :: entries' =>
      let hash := if String.eqb (me_Revision entry) "" then ModelFileSourceHash entry else ModelFileHash entry in
      match hash, requiredHashes entries' with
      | Ok h, Ok (exact, source) =>
          Ok (if String.eqb (me_Revision entry) "" then (exact, h :: source) else (h :: exact, source))
      | Err e, _ => Err e
      | _, Err e => Err e
      end
  end.
(** [deriveRequiredHashes], src/models/model_file_task.go 157-178 *)
Definition deriveRequiredHashes (r : TaskModelRequirements) : result TaskModelRequirements :=
  match requiredHashes (tr_Entries r) with
  | Err e => Err e
  | Ok (exact, source) =>
      Ok (r <| tr_RequiredModelFileHashes := SortedUniqueHashes exact |>
            <| tr_RequiredModelFileSourceHashes := SortedUniqueHashes source |>)
  end.

(** The entries of a task and the object its cache hash is made of,
    src/models/model_file_task.go 79-137.  [visit] is the order in which the map
    of components is visited. *)
Definition entriesAndKey (visit : list (list ascii * taskArgsComponent) → list (list ascii * taskArgsComponent))
    (args : taskArgsModelFiles) (taskType : TaskType) : result (list ModelFileEntry * list (list ascii * json)) :=
  let dtype := (chars "dtype", JString (chars (normalizeTaskDType (ta_DType args)))) in
  let quantization := (chars "quantization_config", ta_QuantizationConfig args) in
  match taskType with
  | TaskTypeLLM =>
      if String.eqb (ta_Model args) "" then Err (ErrMsg "task args model is empty")
      else
        let entry := mkModelFileEntry "huggingface" (NormalizeModelName (ta_Model args))
                       (NormalizeCommitRevision (optionalString (ta_Revision args))) "" (Some []) in
        Ok ([entry], [dtype; (chars "model", canonicalObject entry false); quantization;
                      (chars "task_kind", JString (chars "llm"))])
  | TaskTypeSD =>
      match ta_BaseModel args with
      | None => Err (ErrMsg "task args base_model name is empty")
      | Some b =>
          if String.eqb (as_Name b) "" then Err (ErrMsg "task args base_model name is empty")
          else
            let base := mkModelFileEntry "huggingface" (NormalizeModelName (as_Name b))
                          (NormalizeCommitRevision (optionalString (as_Revision b))) "diffusers" (Some []) in
            let visited := visit (ta_Components args) in
            if negb (forallb componentOk visited) then Err (ErrMsg "task args component requires name, format and repo")
            else
              let components := mapOf (map (λ kc, (fst kc, canonicalObject (componentEntry (snd kc)) false)) visited) in
              Ok (base :: map (λ kc, componentEntry (snd kc)) visited,
                  [(chars "base_model", canonicalObject base false); (chars "components", JObject components); dtype;
                   (chars "lora", canonicalLora (ta_Lora args)); quantization; (chars "task_kind", JString (chars "image"))])
      end
  | TaskTypeSDFTLora => Err (ErrMsg "task type has no model file requirements")
  end.

(** [DeriveTaskModelRequirements], src/models/model_file_task.go 71-154 *)
Definition DeriveTaskModelRequirements (visit : list (list ascii * taskArgsComponent) → list (list ascii * taskArgsComponent))
    (taskArgs : string) (taskType : TaskType) : result TaskModelRequirements :=
  match decodeTaskArgs taskArgs with
  | Err e => Err e
  | Ok args =>
      match entriesAndKey visit args taskType with
      | Err e => Err e
      | Ok (entries, cacheKey) =>
          match QuantizationConfigHash (ta_QuantizationConfig args) with
          | Err e => Err e
          | Ok quantizationHash =>
              match CanonicalJSON (JObject cacheKey) with
              | Err e => Err e
              | Ok cacheKeyJSON =>
                  deriveRequiredHashes (mkTaskRequirements entries [] [] (sha256 cacheKeyJSON) cacheKeyJSON quantizationHash false)
              end
          end
      end
  end.

(** [ResolveRevisions], src/models/model_file_task.go 183-191 *)
Definition ResolveRevisions (r : TaskModelRequirements) (revisions : list (nat * string)) : result TaskModelRequirements :=
  if forallb (λ iv, Nat.ltb (fst iv) (length (tr_Entries r))) revisions
  then deriveRequiredHashes (r <| tr_Entries :=
         foldl (λ entries iv, alter (λ e, e <| me_Revision := NormalizeCommitRevision (snd iv) |>) (fst iv) entries)
           (tr_Entries r) revisions |>)
  else Err (ErrMsg "entry index out of range").

(** [ModelFiles], src/models/model_file_task.go 204-217 *)
Fixpoint catalogRows (entries : list ModelFileEntry) : result (list ModelFile) :=
  match entries with
  | [] => Ok []
  | entry :: entries' =>
      if String.eqb (me_Revision entry) "" then catalogRows entries'
      else match NewModelFile entry, catalogRows entries' with
           | Ok f, Ok fs => Ok (f :: fs)
           | Err e, _ => Err e
           | _, Err e => Err e
           end
  end.

(** [SetModelRequirements], src/models/model_file_task.go 220-226 *)
Definition SetModelRequirements (task : InferenceTask) (r : TaskModelRequirements) : InferenceTask :=
  task <| t_RequiredModelFileHashes := EncodeHashList (tr_RequiredModelFileHashes r) |>
       <| t_RequiredModelFileSourceHashes := EncodeHashList (tr_RequiredModelFileSourceHashes r) |>
       <| t_RequestedModelCacheHash := tr_RequestedModelCacheHash r |>
       <| t_Pricing := (t_Pricing task) <| tp_QuantizationConfigHash := tr_QuantizationConfigHash r |> |>
       <| t_RequireLinuxCuda := tr_RequireLinuxCuda r |>.

End names.

Example entry_example :
  let U := demo_unicode in
  let e := mkModelFileEntry "huggingface" "Org/Model" (text (replicate 40 (char 65))) "" None in
  (λ f, text (map char (mf_CanonicalJSON f))) <$> (match NewModelFile e with Ok f => Some f | Err _ => None end) =
  Some (text (map (λ c, if code c =? 39 then quote else c)
    (chars "{'format':'','format_kwargs':{},'repository':'org/model','revision':'aaaaaaaaaaaaaaaaaaaaaaaaaaaaaaaaaaaaaaaa','source_type':'huggingface'}"))).
Proof. vm_compute. reflexivity. Qed.

End TaskModels.
