(* ===== verification/TaskArguments.v ===== *)
(** * What is read from the arguments of a task

    src/models/model_id.go and task_args_derived.go: the normal form of the names of
    models inside the arguments, the version, the number of results, the legacy ids of
    models and the model a task executes. *)

From Stdlib Require Import Ascii.
From stdpp Require Import sorting.
From S2P Require Import Prelude Mac Json JsonDecode JsonRead GoStrings Models ModelFiles TaskModels.

Module TaskArguments.
Import Mac Json JsonDecode JsonRead GoStrings ModelFiles TaskModels.

(** ** Decoding *)

(** A pointer to a [uint64]: a number with a fraction, an exponent or a sign does not
    fit. *)
Definition decodeUint64Ptr (v : json) : option (option Z) :=
  match v with
  | JNull => Some None
  | JNumber s => n ← ParseUint (text s); Some (Some n)
  | _ => None
  end.

(** A struct with one field *)
Definition onlyField {A} (name : string) (decode : json → A → option A) (v : json) (a : A) : option A :=
  decodeStruct [name] (λ _, decode) v a.

(** The arguments as a [map[string]interface{}]; [None] is the nil map. *)
Definition decodeArgsMap (taskArgs : string) : option (option (list (list ascii * json))) :=
  v ← Decode (chars taskArgs); decodeMap v None.

Section arguments.
Context {U : Unicode}.

(** ** Ids of models *)

(** [NormalizeModelID], src/models/model_id.go 53-55 *)
Definition NormalizeModelID (modelID : string) : string := ToLower modelID.

(** [NormalizeModelIDs], src/models/model_id.go 57-63 *)
Definition NormalizeModelIDs (modelIDs : list string) : list string := map NormalizeModelID modelIDs.

(** [IsBaseModelID], src/models/model_id.go 65-67 *)
Definition IsBaseModelID (modelID : string) : bool := HasPrefix (NormalizeModelID modelID) "base:".

(** [BaseModelIDs], src/models/model_id.go 69-84 *)
Fixpoint baseModelIDs (seen : list string) (modelIDs : list string) : list string :=
  match modelIDs with
  | [] => []
  | modelID :: rest =>
      let normalized := NormalizeModelID modelID in
      if negb (IsBaseModelID normalized) then baseModelIDs seen rest
      else if bool_decide (normalized ∈ seen) then baseModelIDs seen rest
      else normalized :: baseModelIDs (normalized :: seen) rest
  end.
Definition BaseModelIDs (modelIDs : list string) : list string := baseModelIDs [] modelIDs.

(** [BaseModelHuggingFaceID], src/models/model_id.go 90-105 *)
Definition BaseModelHuggingFaceID (modelID : string) : option string :=
  match stripPrefix (chars "base:") (chars (NormalizeModelID modelID)) with
  | None => None
  | Some rest =>
      let name := text rest in
      if HasPrefix name "http://" || HasPrefix name "https://" then None
      else
        let name := match Cut name "+"%char with Some (before, _) => before | None => name end in
        if String.eqb name "" then None else Some name
  end.

(** ** The executed model *)

(** [ModelExecutionConfig], src/models/model_id.go 10-13 *)
Record ModelExecutionConfig := mkExecutionConfig {
  xc_ModelName : string;
  xc_RequestedDType : string
}.

(** [ExtractModelExecutionConfig], src/models/model_id.go 15-51 *)
Definition ExtractModelExecutionConfig (taskArgs : string) (taskType : TaskType) : result ModelExecutionConfig :=
  let taskArgs := if String.eqb (TrimSpace taskArgs) "" then "{}" else taskArgs in
  match decodeArgsMap taskArgs with
  | None => Err (ErrMsg "invalid task args")
  | Some argsMap =>
      let args := default [] argsMap in
      let dtype := match asString (field "dtype" args) with
                   | Some dtype => if String.eqb dtype "" then "auto" else ToLower dtype
                   | None => "auto"
                   end in
      let normalized name := match name with Some name => NormalizeModelName name | None => "" end in
      let name :=
        match taskType with
        | TaskTypeSD =>
            match field "base_model" args with
            | Some (JString baseModel) => NormalizeModelName (text baseModel)
            | Some (JObject baseModel) => normalized (asString (field "name" baseModel))
            | _ => ""
            end
        | TaskTypeLLM => normalized (asString (field "model" args))
        | TaskTypeSDFTLora =>
            match field "model" args with
            | Some (JObject model) => normalized (asString (field "name" model))
            | _ => ""
            end
        end in
      Ok (mkExecutionConfig name dtype)
  end.

(** ** Normal form *)

(** [m[key] = v] for a key of the map *)
Definition setField (key : string) (v : json) (o : list (list ascii * json)) : list (list ascii * json) :=
  map (λ kv, if bool_decide (fst kv = chars key) then (fst kv, v) else kv) o.

(** [normalizeStringModelName], src/models/model_id.go 158-162 *)
Definition normalizeStringModelName (key : string) (argsMap : list (list ascii * json)) : list (list ascii * json) :=
  match asString (field key argsMap) with
  | Some name => setField key (JString (chars (NormalizeModelName name))) argsMap
  | None => argsMap
  end.

(** [normalizeObjectModelName], src/models/model_id.go 164-172 *)
Definition normalizeObjectModelName (objectKey nameKey : string) (argsMap : list (list ascii * json))
    : list (list ascii * json) :=
  match asObject (field objectKey argsMap) with
  | Some object => setField objectKey (JObject (normalizeStringModelName nameKey object)) argsMap
  | None => argsMap
  end.

(** [normalizeComponentsRepos], src/models/model_id.go 174-188 *)
Definition normalizeRepo (raw : json) : json :=
  match raw with JObject object => JObject (normalizeStringModelName "repo" object) | _ => raw end.
Definition normalizeComponentsRepos (argsMap : list (list ascii * json)) : list (list ascii * json) :=
  match asObject (field "components" argsMap) with
  | Some components => setField "components" (JObject (map (λ kv, (fst kv, normalizeRepo (snd kv))) components)) argsMap
  | None => argsMap
  end.

(** The rewriting of [NormalizeTaskArgsModelNames], src/models/model_id.go 129-149 *)
Definition normalizeArgs (taskType : TaskType) (argsMap : list (list ascii * json)) : list (list ascii * json) :=
  match taskType with
  | TaskTypeSD =>
      let argsMap := match asString (field "base_model" argsMap) with
                     | Some _ => normalizeStringModelName "base_model" argsMap
                     | None => normalizeObjectModelName "base_model" "name" argsMap
                     end in
      let argsMap := normalizeObjectModelName "lora" "model" argsMap in
      let argsMap := normalizeObjectModelName "controlnet" "model" argsMap in
      let argsMap := normalizeObjectModelName "refiner" "model" argsMap in
      let argsMap := normalizeStringModelName "unet" argsMap in
      let argsMap := normalizeStringModelName "vae" argsMap in
      let argsMap := normalizeStringModelName "textual_inversion" argsMap in
      normalizeComponentsRepos argsMap
  | TaskTypeLLM => normalizeStringModelName "model" argsMap
  | TaskTypeSDFTLora => normalizeObjectModelName "model" "name" argsMap
  end.

(** [NormalizeTaskArgsModelNames], src/models/model_id.go 121-156 *)
Definition NormalizeTaskArgsModelNames (taskArgs : string) (taskType : TaskType) : result string :=
  match decodeArgsMap taskArgs with
  | None => Err (ErrMsg "invalid task args")
  | Some None => Ok "null"
  | Some (Some argsMap) => Ok (text (Marshal (JObject (normalizeArgs taskType argsMap))))
  end.

(** ** Derived columns *)

(** [ValidateTaskVersionFormat], src/models/task_args_derived.go 30-41 *)
Definition ValidateTaskVersionFormat (version : string) : bool :=
  match Split version "."%char with
  | [a; b; c] => forallb (λ part, bool_decide (is_Some (ParseUint part))) [a; b; c]
  | _ => false
  end.

(** [ParseTaskArgsVersion], src/models/task_args_derived.go 13-27 *)
Definition ParseTaskArgsVersion (taskArgs : string) : result string :=
  match (v ← Unmarshal (chars taskArgs); onlyField "version" decodeString v "") with
  | None => Err (ErrMsg "invalid task args")
  | Some version =>
      if String.eqb version "" then Err (ErrMsg "task args version is missing")
      else if ValidateTaskVersionFormat version then Ok version else Err (ErrMsg "invalid task version")
  end.

(** [DeriveTaskSize], src/models/task_args_derived.go 45-68 *)
Definition DeriveTaskSize (taskArgs : string) (taskType : TaskType) : result Z :=
  match taskType with
  | TaskTypeSD =>
      let decodeConfig := onlyField "num_images_per_prompt" (λ v _, decodeUint64Ptr v) in
      match (v ← Unmarshal (chars taskArgs); onlyField "task_config" decodeConfig v None) with
      | None => Err (ErrMsg "invalid task args")
      | Some None => Ok 1
      | Some (Some n) => if n =? 0 then Err (ErrMsg "task_config.num_images_per_prompt must be greater than 0") else Ok n
      end
  | TaskTypeLLM | TaskTypeSDFTLora => Ok 1
  end.

(** The struct of the image arguments, src/models/task_args_derived.go 85-95: the base
    model, the LoRA model and the components *)
Definition decodeRepos (v : json) (old : list (list ascii * string)) : option (list (list ascii * string)) :=
  match v with
  | JNull => Some []
  | JObject o => foldl (λ acc kv, m ← acc; repo ← onlyField "repo" decodeString (snd kv) ""; Some (mapInsert (fst kv) repo m))
                   (Some old) o
  | _ => None
  end.
Definition setImageField (n : string) (v : json) (a : string * option string * list (list ascii * string))
    : option (string * option string * list (list ascii * string)) :=
  let '(base, lora, components) := a in
  if String.eqb n "base_model" then b ← onlyField "name" decodeString v base; Some (b, lora, components)
  else if String.eqb n "lora" then
    l ← decodePtr ["model"] (λ _, decodeString) "" v lora; Some (base, l, components)
  else c ← decodeRepos v components; Some (base, lora, c).

(** The ids of the components, src/models/task_args_derived.go 114-120 *)
Fixpoint componentIDs (components : list (list ascii * string)) : result (list string) :=
  match components with
  | [] => Ok []
  | (name, repo) :: rest =>
      if String.eqb repo "" then Err (ErrMsg "task args components repo is empty")
      else match componentIDs rest with
           | Ok ids => Ok (("component:" +:+ text name +:+ ":" +:+ repo) :: ids)
           | Err e => Err e
           end
  end.

(** [DeriveTaskModelIDs], src/models/task_args_derived.go 71-143 *)
Definition DeriveTaskModelIDs (taskArgs : string) (taskType : TaskType) : result (list string) :=
  match taskType with
  | TaskTypeLLM =>
      match (v ← Unmarshal (chars taskArgs); onlyField "model" decodeString v "") with
      | None => Err (ErrMsg "invalid task args")
      | Some model =>
          if String.eqb model "" then Err (ErrMsg "task args model is empty")
          else Ok (NormalizeModelIDs ["base:" +:+ model])
      end
  | TaskTypeSD =>
      match (v ← Unmarshal (chars taskArgs); decodeStruct ["base_model"; "lora"; "components"] setImageField v ("", None, [])) with
      | None => Err (ErrMsg "invalid task args")
      | Some (base, lora, components) =>
          if String.eqb base "" then Err (ErrMsg "task args base_model name is empty")
          else if bool_decide (lora = Some "") then Err (ErrMsg "task args lora.model is empty")
          else match componentIDs components with
               | Err e => Err e
               | Ok ids =>
                   Ok (NormalizeModelIDs (("base:" +:+ base) ::
                     (match lora with Some model => ["lora:" +:+ model] | None => [] end) ++ ids))
               end
      end
  | TaskTypeSDFTLora =>
      let setModel n v (a : string * string) :=
        if String.eqb n "name" then name ← decodeString v (fst a); Some (name, snd a)
        else variant ← decodeString v (snd a); Some (fst a, variant) in
      match (v ← Unmarshal (chars taskArgs); onlyField "model" (decodeStruct ["name"; "variant"] setModel) v ("", "")) with
      | None => Err (ErrMsg "invalid task args")
      | Some (name, variant) =>
          if String.eqb name "" then Err (ErrMsg "task args model.name is empty")
          else Ok (NormalizeModelIDs [("base:" +:+ name) +:+ (if String.eqb variant "" then "" else "+" +:+ variant)])
      end
  end.

(** ** The normal form is one

    Each rewriting changes the value of one key by a function that is idempotent and keeps
    values readable and maps sorted; together they change every value by such a
    function. *)

Record benign (F : json → json) : Prop := {
  bn_idem : ∀ v, sorted_maps v → F (F v) = F v;
  bn_sorted : ∀ v, sorted_maps v → sorted_maps (F v);
  bn_read : ∀ d v, well_read d v → well_read d (F v)
}.

Lemma benign_id : benign (λ v, v).
Proof. by split. Qed.

Lemma NormalizeModelName_idem name : NormalizeModelName (NormalizeModelName name) = NormalizeModelName name.
Proof.
  unfold NormalizeModelName at 2 3. destruct (HasPrefix name "http://" || HasPrefix name "https://") eqn:H.
  - unfold NormalizeModelName. by rewrite H.
  - unfold NormalizeModelName. by destruct (HasPrefix (ToLower name) "http://" || _); [|apply ToLower_idem].
Qed.

Lemma NormalizeModelName_utf8 name : utf8 (chars name) → utf8 (chars (NormalizeModelName name)).
Proof. unfold NormalizeModelName. destruct (_ || _); [done|apply ToLower_utf8]. Qed.

Definition normString (v : json) : json :=
  match v with JString s => JString (chars (NormalizeModelName (text s))) | _ => v end.

Lemma benign_string : benign normString.
Proof.
  split.
  - intros [] _; try done. simpl. by rewrite text_chars, NormalizeModelName_idem.
  - intros [] H; try done. constructor.
  - intros d [] [Hr Hn]; try done. split; [|done]. inversion Hr; subst. constructor. apply NormalizeModelName_utf8. by rewrite chars_text.
Qed.

(** Every value of a map changed by a function of its key *)
Definition mapValues (H : list ascii → json → json) (o : list (list ascii * json)) : list (list ascii * json) :=
  map (λ kv, (fst kv, H (fst kv) (snd kv))) o.
Definition onObject (H : list ascii → json → json) (v : json) : json :=
  match v with JObject o => JObject (mapValues H o) | _ => v end.

Lemma keys_mapValues H o : map fst (mapValues H o) = map fst o.
Proof. unfold mapValues. by rewrite map_map. Qed.

Lemma mapValues_compose G H o : mapValues G (mapValues H o) = mapValues (λ k v, G k (H k v)) o.
Proof. unfold mapValues. by rewrite map_map. Qed.

Lemma benign_onObject H : (∀ k, benign (H k)) → benign (onObject H).
Proof.
  intros HH. split.
  - intros [] Hv; try done. simpl. f_equal. rewrite mapValues_compose. inversion Hv as [| | | | |? Hs Ho]; subst.
    apply map_ext_Forall. eapply Forall_impl; [exact Ho|]. intros kv Hkv. simpl. f_equal. by apply HH.
  - intros [] Hv; try done. inversion Hv as [| | | | |? Hs Ho]; subst. simpl. constructor; [by rewrite keys_mapValues|].
    apply Forall_map. eapply Forall_impl; [exact Ho|]. intros kv Hkv. simpl. by apply HH.
  - intros d [] Hv; try done. apply well_read_object in Hv as [Ho Hd]. simpl. apply nesting_object; [|done].
    apply Forall_map. eapply Forall_impl; [exact Ho|]. intros kv [Hk Hkv]. simpl. split; [done|]. by apply HH.
Qed.

(** One key only *)
Definition atKey (key : string) (F : json → json) (k : list ascii) (v : json) : json :=
  if bool_decide (k = chars key) then F v else v.

Lemma benign_atKey key F k : benign F → benign (atKey key F k).
Proof. intros HF. unfold atKey. case_bool_decide; [done|apply benign_id]. Qed.

Lemma sorted_NoDup (o : list (list ascii * json)) : StronglySorted key_lt (map fst o) → NoDup (map fst o).
Proof.
  induction 1 as [|k l Hs IH Hk]; constructor; [|done]. intros Hin. rewrite Forall_forall in Hk. apply Hk in Hin.
  unfold key_lt in Hin. assert (chars_compare k k = Eq) as E; [|by rewrite E in Hin].
  clear. induction k as [|x k IH]; [done|]. simpl. by rewrite Z.compare_refl.
Qed.

Lemma setField_atKey key v F o : NoDup (map fst o) → field key o = Some v → setField key (F v) o = mapValues (atKey key F) o.
Proof.
  intros Hnd Hf. unfold setField, mapValues. apply map_ext_in. intros [k x] Hin. unfold atKey. simpl.
  case_bool_decide as Hk; [|done]. f_equal. f_equal.
  unfold field in Hf. destruct (find_first _ o) as [[k' x']|] eqn:Hx; [|done]. injection Hf as <-.
  apply find_first_Some in Hx as [Hin' Hk'%bool_decide_eq_true]. simpl in Hk'. subst k k'.
  apply list_elem_of_In in Hin. by pose proof (NoDup_map_inj fst o _ _ Hnd Hin' Hin eq_refl) as [= ->].
Qed.

Lemma field_None key F o : (∀ v, field key o = Some v → F v = v) → NoDup (map fst o) → mapValues (atKey key F) o = o.
Proof.
  intros HF Hnd. unfold mapValues. rewrite <- (map_id o) at 2. apply map_ext_in. intros [k x] Hin. unfold atKey. simpl.
  case_bool_decide as Hk; [|done]. f_equal. apply HF. unfold field.
  destruct (find_first _ o) as [[k' x']|] eqn:Hx.
  - apply find_first_Some in Hx as [Hin' Hk'%bool_decide_eq_true]. simpl in *. subst k k'.
    apply list_elem_of_In in Hin. by pose proof (NoDup_map_inj fst o _ _ Hnd Hin' Hin eq_refl) as [= ->].
  - apply list_elem_of_In in Hin. apply (find_first_None _ _ (k, x)) in Hx; [|done].
    apply bool_decide_eq_false in Hx. done.
Qed.

Lemma normalizeString_map key o : NoDup (map fst o) → normalizeStringModelName key o = mapValues (atKey key normString) o.
Proof.
  intros Hnd. unfold normalizeStringModelName. destruct (field key o) as [v|] eqn:Hf.
  - destruct v as [| | |s| |]; simpl; try (symmetry; apply field_None; [|done]; intros v; rewrite Hf; by intros [= <-]).
    by apply (setField_atKey key (JString s) normString).
  - simpl. symmetry. apply field_None; [|done]. intros v. by rewrite Hf.
Qed.

Definition normObject (nameKey : string) : json → json := onObject (atKey nameKey normString).

Lemma benign_object nameKey : benign (normObject nameKey).
Proof. apply benign_onObject. intros k. apply benign_atKey, benign_string. Qed.

(** The objects of a sorted map are sorted. *)
Lemma sorted_field key o v : sorted_maps (JObject o) → field key o = Some v → sorted_maps v.
Proof.
  intros Ho Hf. inversion Ho as [| | | | |? Hs Hv]; subst. unfold field in Hf.
  destruct (find_first _ o) as [kv|] eqn:Hx; [|done]. injection Hf as <-. apply find_first_Some in Hx as [Hin _].
  rewrite Forall_forall in Hv. by apply (Hv kv).
Qed.

Lemma sorted_keys o : sorted_maps (JObject o) → NoDup (map fst o).
Proof. intros Ho. inversion Ho; subst. by apply sorted_NoDup. Qed.

Lemma normalizeObject_map objectKey nameKey o : sorted_maps (JObject o) →
  normalizeObjectModelName objectKey nameKey o = mapValues (atKey objectKey (normObject nameKey)) o.
Proof.
  intros Ho. pose proof (sorted_keys o Ho) as Hnd. unfold normalizeObjectModelName. destruct (field objectKey o) as [v|] eqn:Hf.
  - destruct v as [| | | | |object]; simpl; try (symmetry; apply field_None; [|done]; intros v; rewrite Hf; by intros [= <-]).
    rewrite normalizeString_map by (eapply sorted_keys, sorted_field; done).
    by apply (setField_atKey objectKey (JObject object) (normObject nameKey)).
  - simpl. symmetry. apply field_None; [|done]. intros v. by rewrite Hf.
Qed.

Definition normComponents : json → json := onObject (λ _, normObject "repo").

Lemma normalizeComponents_map o : sorted_maps (JObject o) →
  normalizeComponentsRepos o = mapValues (atKey "components" normComponents) o.
Proof.
  intros Ho. pose proof (sorted_keys o Ho) as Hnd. unfold normalizeComponentsRepos. destruct (field "components" o) as [v|] eqn:Hf.
  - destruct v as [| | | | |components]; simpl; try (symmetry; apply field_None; [|done]; intros v; rewrite Hf; by intros [= <-]).
    rewrite <- (setField_atKey "components" (JObject components) normComponents o Hnd Hf). f_equal. simpl. f_equal.
    pose proof (sorted_field _ _ _ Ho Hf) as Hc. inversion Hc as [| | | | |? Hs Hv]; subst.
    apply map_ext_Forall. eapply Forall_impl; [exact Hv|]. intros [k x] Hx. simpl in *. f_equal.
    destruct x as [| | | | |object]; try done. simpl. by rewrite normalizeString_map by by apply sorted_keys.
  - simpl. symmetry. apply field_None; [|done]. intros v. by rewrite Hf.
Qed.

(** The base model may be a name or an object. *)
Definition normBase (v : json) : json := match v with JString _ => normString v | _ => normObject "name" v end.

Lemma benign_base : benign normBase.
Proof.
  split.
  - intros [] H; try done; [by apply benign_string|by apply (benign_object "name")].
  - intros [] H; try done; [by apply benign_string|by apply (benign_object "name")].
  - intros d [] H; try done; [by apply benign_string|by apply (benign_object "name")].
Qed.

Lemma normalizeBase_map o : sorted_maps (JObject o) →
  match asString (field "base_model" o) with
  | Some _ => normalizeStringModelName "base_model" o
  | None => normalizeObjectModelName "base_model" "name" o
  end = mapValues (atKey "base_model" normBase) o.
Proof.
  intros Ho. pose proof (sorted_keys o Ho) as Hnd. rewrite normalizeString_map, normalizeObject_map by done.
  assert (H : ∀ F v, field "base_model" o = Some v → normBase v = F v →
    mapValues (atKey "base_model" F) o = mapValues (atKey "base_model" normBase) o).
  { intros F v Hf HF. rewrite <- (setField_atKey _ v F o Hnd Hf), <- (setField_atKey _ v normBase o Hnd Hf). by rewrite HF. }
  destruct (field "base_model" o) as [v|] eqn:Hf.
  - destruct v as [| | |s| |ob]; simpl; by eapply H.
  - simpl. rewrite !field_None; [done| |done| |done]; intros v; by rewrite Hf.
Qed.

(** *** All keys together *)

Fixpoint atKeys (fs : list (string * (json → json))) (k : list ascii) (v : json) : json :=
  match fs with
  | [] => v
  | (key, F) :: fs' => atKeys fs' k (atKey key F k v)
  end.

Lemma atKeys_one fs k : NoDup (map fst fs) →
  (∀ v, atKeys fs k v = v) ∨ ∃ key F, (key, F) ∈ fs ∧ ∀ v, atKeys fs k v = F v.
Proof.
  intros Hnd.
  assert (Hmiss : ∀ gs, Forall (λ g, k ≠ chars (fst g)) gs → ∀ v, atKeys gs k v = v).
  { induction 1 as [|[key F] gs Hk Hgs IH]; intros v; simpl; [done|]. simpl in Hk. unfold atKey. by rewrite bool_decide_eq_false_2, IH. }
  induction fs as [|[key F] fs IH]; [by left|]. simpl in Hnd. apply NoDup_cons in Hnd as [Hn Hnd].
  destruct (decide (k = chars key)) as [->|Hk].
  - right. exists key, F. split; [set_solver|]. intros v. simpl. unfold atKey at 1. rewrite bool_decide_eq_true_2 by done.
    apply Hmiss. apply Forall_forall. intros [key' F'] Hin Heq. simpl in Heq. apply Hn.
    assert (key' = key) as -> by (by rewrite <- (text_chars key'), <- Heq, text_chars). by apply (elem_of_map_2 fst fs (key, F')).
  - destruct (IH Hnd) as [H|(key' & F' & Hin & H)]; [left|right].
    + intros v. simpl. unfold atKey at 1. by rewrite bool_decide_eq_false_2.
    + exists key', F'. split; [set_solver|]. intros v. simpl. unfold atKey at 1. by rewrite bool_decide_eq_false_2.
Qed.

Lemma benign_ext F G : (∀ v, F v = G v) → benign G → benign F.
Proof. intros H [H1 H2 H3]. split; intros; rewrite ?H; auto. Qed.

Lemma benign_atKeys fs k : NoDup (map fst fs) → Forall (λ f, benign (snd f)) fs → benign (atKeys fs k).
Proof.
  intros Hnd Hf. destruct (atKeys_one fs k Hnd) as [H|(key & F & Hin & H)]; [eapply benign_ext; [exact H|apply benign_id]|].
  eapply benign_ext; [exact H|]. rewrite Forall_forall in Hf. apply (Hf _ Hin).
Qed.

(** What the names of a task are rewritten by *)
Definition rewrites (taskType : TaskType) : list (string * (json → json)) :=
  match taskType with
  | TaskTypeSD =>
      [("base_model", normBase); ("lora", normObject "model"); ("controlnet", normObject "model"); ("refiner", normObject "model");
       ("unet", normString); ("vae", normString); ("textual_inversion", normString); ("components", normComponents)]
  | TaskTypeLLM => [("model", normString)]
  | TaskTypeSDFTLora => [("model", normObject "name")]
  end.

Lemma rewrites_keys taskType : NoDup (map fst (rewrites taskType)).
Proof. destruct taskType; apply (bool_decide_unpack _); vm_compute; exact I. Qed.

Lemma rewrites_benign taskType : Forall (λ f, benign (snd f)) (rewrites taskType).
Proof.
  assert (benign normComponents) by (apply benign_onObject; intros _; apply benign_object).
  destruct taskType; cbn [rewrites];
    repeat (apply Forall_cons_2; [simpl; first [exact H|apply benign_string|apply benign_base|apply benign_object]|]); apply Forall_nil_2.
Qed.

Lemma mapValues_sorted H o : (∀ k, benign (H k)) → sorted_maps (JObject o) → sorted_maps (JObject (mapValues H o)).
Proof. intros HH Ho. by apply (bn_sorted (onObject H) (benign_onObject H HH) (JObject o)). Qed.

Lemma normalizeArgs_map taskType o : sorted_maps (JObject o) → normalizeArgs taskType o = mapValues (atKeys (rewrites taskType)) o.
Proof.
  intros Ho. destruct taskType; unfold normalizeArgs; cbv zeta.
  - rewrite normalizeBase_map by done.
    assert (H : ∀ key F x, benign F → sorted_maps (JObject x) → sorted_maps (JObject (mapValues (atKey key F) x))).
    { intros key F x HF Hx. apply mapValues_sorted; [|done]. intros k. by apply benign_atKey. }
    pose proof (H "base_model" normBase o benign_base Ho) as H1.
    rewrite (normalizeObject_map "lora") by exact H1. pose proof (H "lora" _ _ (benign_object "model") H1) as H2.
    rewrite (normalizeObject_map "controlnet") by exact H2. pose proof (H "controlnet" _ _ (benign_object "model") H2) as H3.
    rewrite (normalizeObject_map "refiner") by exact H3. pose proof (H "refiner" _ _ (benign_object "model") H3) as H4.
    rewrite (normalizeString_map "unet") by exact (sorted_keys _ H4). pose proof (H "unet" _ _ benign_string H4) as H5.
    rewrite (normalizeString_map "vae") by exact (sorted_keys _ H5). pose proof (H "vae" _ _ benign_string H5) as H6.
    rewrite (normalizeString_map "textual_inversion") by exact (sorted_keys _ H6).
    pose proof (H "textual_inversion" _ _ benign_string H6) as H7.
    rewrite normalizeComponents_map by exact H7. clear. by rewrite !mapValues_compose.
  - rewrite normalizeString_map by by apply sorted_keys. done.
  - by rewrite normalizeObject_map.
Qed.

(** C0 (roundtrip): normalising the names of models in the arguments of a task is idempotent, as text: the
    normal form decodes again, nothing in it is left to rewrite and it is encoded as it was.  So
    arguments that are sent again in the form the relay returned them are the arguments of
    the task that exists, for every text and every kind of task. *)
Theorem normal_args_stable (taskArgs out : string) (taskType : TaskType) :
  NormalizeTaskArgsModelNames taskArgs taskType = Ok out → NormalizeTaskArgsModelNames out taskType = Ok out.
Proof.
  unfold NormalizeTaskArgsModelNames at 1, decodeArgsMap. destruct (Decode (chars taskArgs)) as [v|] eqn:Hd; [|done].
  apply Decode_well_read in Hd. cbn [mbind option_bind]. destruct (decodeMap v None) as [[m|]|] eqn:Hm; [|by intros [= <-]|done].
  apply decodeMap_well_read in Hm as [Hr Hs]; [|done]. intros Hout.
  assert (out = text (Marshal (JObject (normalizeArgs taskType m)))) as -> by congruence. clear Hout.
  rewrite normalizeArgs_map by done. set (F := onObject (atKeys (rewrites taskType))).
  assert (HF : benign F) by (apply benign_onObject; intros k; apply benign_atKeys; [apply rewrites_keys|apply rewrites_benign]).
  change (JObject (mapValues (atKeys (rewrites taskType)) m)) with (F (JObject m)).
  pose proof (bn_read F HF 0 _ Hr) as Hr'. pose proof (bn_sorted F HF _ Hs) as Hs'. pose proof (bn_idem F HF _ Hs) as Hi.
  unfold NormalizeTaskArgsModelNames, decodeArgsMap. rewrite chars_text, Decode_Marshal by done. cbn [mbind option_bind].
  change (F (JObject m)) with (JObject (mapValues (atKeys (rewrites taskType)) m)) in Hs', Hi |- *.
  rewrite decodeMap_sorted by done. rewrite normalizeArgs_map by done.
  change (JObject (mapValues (atKeys (rewrites taskType)) (mapValues (atKeys (rewrites taskType)) m)))
    with (F (JObject (mapValues (atKeys (rewrites taskType)) m))). by rewrite Hi.
Qed.

End arguments.

(** ** Witness *)

Lemma normal_args_stable_witness :
  let U := demo_unicode in let q s := text (map (λ c, if code c =? 39 then quote else c) (chars s)) in
  NormalizeTaskArgsModelNames (q "{'prompt':'A','lora':{'model':'Me/LoRA'},'base_model':{'name':'Org/Base'}}") TaskTypeSD =
    Ok (q "{'base_model':{'name':'org/base'},'lora':{'model':'me/lora'},'prompt':'A'}") ∧
  NormalizeTaskArgsModelNames (q "{'base_model':{'name':'org/base'},'lora':{'model':'me/lora'},'prompt':'A'}") TaskTypeSD =
    Ok (q "{'base_model':{'name':'org/base'},'lora':{'model':'me/lora'},'prompt':'A'}").
Proof.
  cbv zeta. split; [vm_compute; reflexivity|].
  apply (normal_args_stable (U:=demo_unicode)
    (text (map (λ c, if code c =? 39 then quote else c) (chars "{'prompt':'A','lora':{'model':'Me/LoRA'},'base_model':{'name':'Org/Base'}}")))).
  vm_compute. reflexivity.
Defined.
End TaskArguments.
