(* ===== verification/MaxStaking.v ===== *)
(** * The maximum staking tracker

    The node-selection weights are normalised by the largest score stake of any
    node (src/service/selecting_prob.go).  The tracker keeps the stake of every
    node and the maximum with one address that attains it; a decrease of that
    address recomputes the maximum over the whole map, in Go's unspecified map
    order. *)

From S2P Require Import Prelude.

Module MaxStaking.

(** ** Definitions *)

(** [maxStaking], src/service/selecting_prob.go 100-105 *)
Record maxStaking := mkMaxStaking {
  ms_maxStaking : Z;
  ms_maxAddress : string;
  ms_stakingMap : gmap string Z
}.

#[export] Instance eta_maxStaking : Eta maxStaking := λ r,
  mkMaxStaking (ms_maxStaking r) (ms_maxAddress r) (ms_stakingMap r).

(** [newMaxStaking], src/service/selecting_prob.go 107-113 *)
Definition newMaxStaking : maxStaking := mkMaxStaking 0 "" ∅.

(** One turn of the loops that look for the maximum. *)
Definition scan1 (best : Z * string) (entry : string * Z) : Z * string :=
  if fst best <? snd entry then (snd entry, fst entry) else best.

Section iteration.
(** The order in which Go visits the entries of a map. *)
Variable shuffle : list (string * Z) → list (string * Z).
Hypothesis shuffle_perm : ∀ l, shuffle l ≡ₚ l.

(** [init], src/service/selecting_prob.go 115-127 *)
Definition init (g : maxStaking) (stakingMap : gmap string Z) : maxStaking :=
  let best := foldl scan1 (ms_maxStaking g, ms_maxAddress g) (shuffle (map_to_list stakingMap)) in
  mkMaxStaking (fst best) (snd best) (stakingMap ∪ ms_stakingMap g).

(** [update], src/service/selecting_prob.go 129-148 *)
Definition update (g : maxStaking) (address : string) (staking : Z) : maxStaking :=
  let stakingMap := <[address := staking]> (ms_stakingMap g) in
  if ms_maxStaking g <? staking then mkMaxStaking staking address stakingMap
  else if String.eqb address (ms_maxAddress g) && (staking <? ms_maxStaking g) then
    let best := foldl scan1 (0, "") (shuffle (map_to_list stakingMap)) in
    mkMaxStaking (fst best) (snd best) stakingMap
  else g <| ms_stakingMap := stakingMap |>.

(** [get], src/service/selecting_prob.go 150-159: with no stake recorded the
    configured node stake is the maximum. *)
Definition get (defaultStake : Z) (g : maxStaking) : Z :=
  if ms_maxStaking g =? 0 then defaultStake else ms_maxStaking g.

(** ** Properties *)

(** The tracker is right when the recorded maximum bounds every stake and, when
    it is positive, is the stake of the recorded address. *)
Definition tracks (g : maxStaking) : Prop :=
  0 ≤ ms_maxStaking g ∧
  map_Forall (λ _ v, v ≤ ms_maxStaking g) (ms_stakingMap g) ∧
  (0 < ms_maxStaking g → ms_stakingMap g !! ms_maxAddress g = Some (ms_maxStaking g)).

Lemma scan_bounds l best :
  fst best ≤ fst (foldl scan1 best l) ∧
  (∀ k v, (k, v) ∈ l → v ≤ fst (foldl scan1 best l)).
Proof.
  revert best. induction l as [|[k v] l IH]; intros best; simpl; [split; [lia|set_solver]|].
  destruct (IH (scan1 best (k, v))) as [H1 H2].
  assert (fst best ≤ fst (scan1 best (k, v)) ∧ v ≤ fst (scan1 best (k, v))) as [? ?].
  { unfold scan1; simpl. case_bool; simpl; lia. }
  split; [lia|]. intros k' v' [[= -> ->]|Hin]%elem_of_cons; [lia|eauto].
Qed.

Lemma scan_attained l best :
  foldl scan1 best l = best ∨
  (snd (foldl scan1 best l), fst (foldl scan1 best l)) ∈ l.
Proof.
  revert best. induction l as [|[k v] l IH]; intros best; simpl; [by left|].
  destruct (IH (scan1 best (k, v))) as [->|Hin]; [|right; set_solver].
  unfold scan1; simpl. case_bool; [right; simpl; set_solver|by left].
Qed.

(** A scan of all the entries of a map ends at its maximum. *)
Lemma scan_map (m : gmap string Z) best :
  let r := foldl scan1 best (shuffle (map_to_list m)) in
  fst best ≤ fst r ∧ map_Forall (λ _ v, v ≤ fst r) m ∧ (r = best ∨ m !! snd r = Some (fst r)).
Proof.
  destruct (scan_bounds (shuffle (map_to_list m)) best) as [H1 H2].
  split; [done|]. split.
  - intros k v Hk. apply (H2 k). by rewrite shuffle_perm, elem_of_map_to_list.
  - destruct (scan_attained (shuffle (map_to_list m)) best) as [?|Hin]; [by left|right].
    apply elem_of_map_to_list. revert Hin. generalize (foldl scan1 best (shuffle (map_to_list m))).
    intros r Hr. by rewrite <- shuffle_perm.
Qed.

Lemma update_tracks g address staking : tracks g → tracks (update g address staking).
Proof.
  intros (H0 & Hall & Hmax). unfold update.
  destruct (Z.ltb_spec (ms_maxStaking g) staking).
  { split_and!; simpl; [lia| |intros _; apply lookup_insert_eq].
    apply map_Forall_insert_2; [lia|]. intros k v Hk. specialize (Hall k v Hk). simpl in Hall. lia. }
  case_bool.
  - destruct (scan_map (<[address:=staking]> (ms_stakingMap g)) (0, "")) as (Hb & Hm & H3).
    split_and!; simpl in *; [done|done|]. intros Hpos.
    destruct H3 as [Heq|?]; [|done]. rewrite Heq in Hpos. simpl in Hpos. lia.
  - split_and!; simpl; [done|by apply map_Forall_insert_2|]. intros Hpos.
    destruct (decide (address = ms_maxAddress g)) as [->|].
    + rewrite lookup_insert_eq. f_equal. rewrite String.eqb_refl in *. simpl in *. simplify_bool. lia.
    + rewrite lookup_insert_ne by done. auto.
Qed.

Lemma init_tracks m : tracks (init newMaxStaking m).
Proof.
  unfold init, newMaxStaking. simpl. rewrite (right_id_L ∅ (∪) m).
  destruct (scan_map m (0, "")) as (H1 & H2 & H3). split_and!; simpl in *; [done|done|].
  intros Hpos. destruct H3 as [Heq|?]; [|done]. rewrite Heq in Hpos. simpl in Hpos. lia.
Qed.

(** (invariant): whatever stakes are recorded at start-up and whatever
    sequence of updates follows, in whatever order Go walks the map, the tracker
    returns the largest recorded stake, or the configured stake when no node has
    any; in particular every node's stake is at most the returned maximum. *)
Theorem maxStaking_correct (start : gmap string Z) (ops : list (string * Z)) (defaultStake : Z) :
  map_Forall (λ _ v, 0 ≤ v) start → Forall (λ op, 0 ≤ snd op) ops → 0 < defaultStake →
  let g := foldl (λ g op, update g (fst op) (snd op)) (init newMaxStaking start) ops in
  (∀ a v, ms_stakingMap g !! a = Some v → v ≤ get defaultStake g) ∧
  ((∃ a, ms_stakingMap g !! a = Some (get defaultStake g)) ∨
   (get defaultStake g = defaultStake ∧ ∀ a v, ms_stakingMap g !! a = Some v → v = 0)) ∧
  0 < get defaultStake g.
Proof.
  intros Hstart Hops Hd.
  assert (H : let g := foldl (λ g op, update g (fst op) (snd op)) (init newMaxStaking start) ops in
              tracks g ∧ map_Forall (λ _ v, 0 ≤ v) (ms_stakingMap g)).
  { assert (Hi : map_Forall (λ _ v, 0 ≤ v) (ms_stakingMap (init newMaxStaking start))).
    { simpl. by rewrite (right_id_L ∅ (∪) start). }
    generalize (init_tracks start) Hi. generalize (init newMaxStaking start).
    induction Hops as [|[a s] ops Hs _ IH]; intros g Hg Hnn; [done|].
    apply IH; simpl in *; [by apply update_tracks|].
    unfold update. repeat case_bool; simpl; by apply map_Forall_insert_2. }
  destruct H as [(H0 & Hall & Hmax) Hnn].
  set (g := foldl _ _ ops) in *. simpl. unfold get.
  destruct (Z.eqb_spec (ms_maxStaking g) 0) as [Hz|Hz]; split_and!.
  - intros a v Ha. specialize (Hall a v Ha). simpl in Hall. lia.
  - right. split; [done|]. intros a v Ha. specialize (Hall a v Ha). specialize (Hnn a v Ha). simpl in *. lia.
  - done.
  - intros a v Ha. apply (Hall a v Ha).
  - left. exists (ms_maxAddress g). apply Hmax. lia.
  - lia.
Qed.
End iteration.

Lemma maxStaking_correct_witness :
  get 400 (foldl (λ g op, update (@reverse _) g (fst op) (snd op))
             (init (@reverse _) newMaxStaking {["a" := 5; "b" := 7]}) [("b", 2); ("c", 5)]) = 5 ∧
  0 < get 400 (foldl (λ g op, update (@reverse _) g (fst op) (snd op))
             (init (@reverse _) newMaxStaking {["a" := 5; "b" := 7]}) [("b", 2); ("c", 5)]).
Proof.
  split; [vm_compute; reflexivity|].
  refine (proj2 (proj2 (maxStaking_correct (@reverse _) (@reverse_Permutation _)
    {["a" := 5; "b" := 7]} [("b", 2); ("c", 5)] 400 _ _ _))).
  - by apply (bool_decide_unpack _).
  - by apply (bool_decide_unpack _).
  - lia.
Defined.

End MaxStaking.
