(* ===== verification/Store.v ===== *)
(** * The database, the caches and the service monad

    The services of the relay are Go functions over one SQL database (through
    gorm) and a set of in-memory caches.  [World] holds both; a service function
    is a computation [M A := World → result A * World].

    - A database access may fail at any time: [env_fault] decides which accesses
      do, and the theorems quantify over it.  A [transaction] restores the
      database when its body fails, but not the caches, and may still fail when
      it commits ([env_commit_fault]); inside another transaction it is a
      savepoint and has no commit of its own.
    - [env_now] gives the readings of the clock, one per reading.
    - What the relay asks a blockchain, and the third-party cryptography it
      uses (Keccak, signature recovery, VRF verification), are fields of [Env].
    - So are the results of computations of the relay that are outside the
      model: the admission of a new task with its priority and pricing columns
      ([env_admission], src/service/task_pricing.go and model_whitelist.go), the execution plan of
      a task on a node ([env_execution_plan], src/service/task_matching.go and
      task_execution_calibration.go), the slash
      evidence document and whether a stored one parses ([env_evidence],
      [env_evidence_valid], src/service/slash_evidence.go) and the
      success of refreshing the node-list page ([env_snapshot],
      src/service/delegated_staking_node_list_snapshot.go).
    - The answers of a blockchain node ([env_block_number], [env_block],
      [env_filter_logs], [env_receipt], [env_transfer]) and the parsers of the
      generated contract bindings ([env_node_staking_log],
      [env_delegated_staking_log]) are fields too, and so are the table of lower
      case letters ([env_unicode]), the text of floats ([env_float64_text]) and the
      weighted sampler of gonum ([env_sample]), which returns an index of its
      weights, of one that is not zero.
    - Go visits the entries of a map in no particular order: [env_shuffle] and
      [env_order] are arbitrary reorderings. *)

From S2P Require Import Prelude Mac Json JsonDecode GoStrings Models Config Delegation MaxStaking.

(** ** The environment *)

Class Env := {
  env_cfg : AppConfig;
  env_fault : nat → bool;
  env_commit_fault : nat → bool;
  env_now : nat → Time;
  env_shuffle : nat → list (string * Z) → list (string * Z);
  env_shuffle_perm : ∀ n l, env_shuffle n l ≡ₚ l;
  env_exp : float64 → float64;
  env_client : string → bool;
  env_receipt : nat → string → string → result (option Receipt);
  env_transfer : nat → string → string → result (option TransactionTransfer);
  env_staking_info : nat → string → string → result StakingInfo;
  env_delegator_share : nat → string → string → result Z;
  env_staking_infos : nat → string → string → result (list string * list (option Z));
  env_erc20TransferTopic : string;
  env_addressTopic : string → string;
  env_topicAddress : string → string;
  env_keccak256 : list Z → list Z;
  env_sig_to_address : list Z → list Z → option string;
  env_is_hex_address : string → bool;
  env_pubkey_address : list Z → option string;
  env_vrf_verify : list Z → list Z → list Z → option (list Z);
  env_admission : nat → InferenceTask → result (Z * TaskPricingColumns);
  env_execution_plan : nat → InferenceTask → Node → result ExecutionPlan;
  env_evidence : nat → InferenceTask → Node → result (string * bool);
  env_snapshot : nat → string → result unit;
  env_evidence_valid : string → bool;
  env_block_number : nat → string → result Z;
  env_block : nat → string → Z → result (list string * Time);
  env_filter_logs : nat → string → Z → Z → result (list ReceiptLog);
  env_staking_page : nat → string → string → Z → result (list string);
  env_node_staking_log : ReceiptLog → option NodeStakingLog;
  env_delegated_staking_log : ReceiptLog → option DelegatedStakingLog;
  env_is_hex_hash : string → bool;
  env_unicode :: GoStrings.Unicode;
  env_float64_text :: JsonDecode.Float64Text;
  env_order : nat → ∀ A : Type, list A → list A;
  env_order_perm : ∀ n A (l : list A), env_order n A l ≡ₚ l;
  env_sample : nat → list float64 → option nat;
  env_sample_range : ∀ n ws i, env_sample n ws = Some i → (i < length ws)%nat;
  env_sample_weighted : ∀ n ws i, env_sample n ws = Some i → ws !! i ≠ Some f64_zero
}.

(** ** The state *)

(** The tables, each the list of its rows in primary-key order; the tables with
    a unique business key are maps. *)
Record DB := mkDB {
  db_accounts : gmap string Z;
  db_events : list RelayAccountEvent;
  db_withdraws : list WithdrawRecord;
  db_deposits : list DepositRecord;
  db_vestings : list VestingRecord;
  db_vesting_details : list VestingDelegationEmissionDetail;
  db_weekly_totals : gmap (string * Z) Z;
  db_tasks : list InferenceTask;
  db_total_tasks : option Z;
  db_nodes : list Node;
  db_delegations : list Delegation;
  db_network_nodes : gmap string NetworkNodeData;
  db_name_counts : gmap (string * Z * string) Z;
  db_node_models : list NodeModel;
  db_in_memory_models : list NodeInMemoryModel;
  db_download_selections : list NodeModelDownloadSelection;
  db_slash_jobs : list DelegatedSlashJob;
  db_pending_slashes : list PendingSlash;
  db_chain_txs : list BlockchainTransaction;
  db_log : list RelayEvent;
  db_node_earnings : list NodeEarning;
  db_user_staking_earnings : list UserStakingEarning;
  db_user_earnings : list UserEarning;
  db_incentives : list NodeIncentive;
  db_cursors : gmap string Z;
  db_slash_records : list DelegatedStakingSlashRecord;
  db_name_whitelist : gset (string * Z * string);
  db_model_files : list ModelFile;
  db_model_whitelist : gset string;
  db_loaded_models : list LoadedModel;
  db_task_whitelist : gset string;
  db_runtime_constraints : gmap (string * string) (bool * string)
}.

#[export] Instance eta_DB : Eta DB := λ r,
  mkDB (db_accounts r) (db_events r) (db_withdraws r) (db_deposits r) (db_vestings r)
    (db_vesting_details r) (db_weekly_totals r) (db_tasks r) (db_total_tasks r) (db_nodes r)
    (db_delegations r) (db_network_nodes r) (db_name_counts r) (db_node_models r)
    (db_in_memory_models r) (db_download_selections r) (db_slash_jobs r) (db_pending_slashes r)
    (db_chain_txs r) (db_log r) (db_node_earnings r) (db_user_staking_earnings r)
    (db_user_earnings r) (db_incentives r) (db_cursors r) (db_slash_records r)
    (db_name_whitelist r) (db_model_files r) (db_model_whitelist r) (db_loaded_models r)
    (db_task_whitelist r) (db_runtime_constraints r).

(** [cacheEntry], src/service/huggingface/client.go 43-47 *)
Record HubCacheEntry := mkHubCacheEntry {
  he_err : option error;
  he_sha : string;
  he_expiresAt : Time
}.

(** The caches: [relayAccountCache], [globalDelegationCaches], the delegator
    shares, [nodeQoSScorePool], [globalMaxStaking],
    [globalNodeVestingStakeCache], [nodeNameCountCache],
    [nodeNameWhitelistCache], the model whitelist, exact names and owners, and the
    task whitelist (each absent until loaded), the answers of the model hub and the
    constraints derived from them, with the time they expire. *)
Record Caches := mkCaches {
  c_accounts : gmap string Z;
  c_delegations : gmap string Delegations.delegationCache;
  c_shares : gmap string Z;
  c_qos : gmap string (list Z);
  c_max : MaxStaking.maxStaking;
  c_vestings : option (gmap string (list VestingRecord));
  c_name_counts : option (gmap (string * Z * string) Z);
  c_name_whitelist : option (gset (string * Z * string));
  c_model_whitelist : option (gset string * gset string);
  c_task_whitelist : option (gset string);
  c_hub : gmap string HubCacheEntry;
  c_runtime_constraints : gmap string (bool * string * Time)
}.

#[export] Instance eta_Caches : Eta Caches := λ r,
  mkCaches (c_accounts r) (c_delegations r) (c_shares r) (c_qos r) (c_max r)
    (c_vestings r) (c_name_counts r) (c_name_whitelist r) (c_model_whitelist r)
    (c_task_whitelist r) (c_hub r) (c_runtime_constraints r).

(** [w_depth] is the number of transactions entered, [w_step] the number of
    accesses made so far. *)
Record World := mkWorld {
  w_db : DB;
  w_cache : Caches;
  w_step : nat;
  w_depth : nat
}.

#[export] Instance eta_World : Eta World := λ r,
  mkWorld (w_db r) (w_cache r) (w_step r) (w_depth r).

Definition empty_db : DB :=
  mkDB ∅ [] [] [] [] [] ∅ [] None [] [] ∅ ∅ [] [] [] [] [] [] [] [] [] [] [] ∅ [] ∅ [] ∅ [] ∅ ∅.
Definition empty_caches : Caches :=
  mkCaches ∅ ∅ ∅ ∅ MaxStaking.newMaxStaking None None None None None ∅ ∅.
Definition empty_world : World := mkWorld empty_db empty_caches 0 0.

(** The primary key of a new row. *)
Definition next_id {A} (id : A → Z) (t : list A) : Z := 1 + foldr Z.max 0 (map id t).

Lemma next_id_fresh {A} (id : A → Z) (t : list A) r : r ∈ t → id r < next_id id t.
Proof.
  unfold next_id. induction t as [|x t IH]; [set_solver|].
  intros [->|Hr]%elem_of_cons; simpl; [lia|]. specialize (IH Hr). lia.
Qed.

Lemma next_id_pos {A} (id : A → Z) (t : list A) : 0 < next_id id t.
Proof. unfold next_id. induction t; simpl; lia. Qed.

(** ** Computations *)

Definition M (A : Type) : Type := World → result A * World.

#[export] Instance M_ret : MRet M := λ A a w, (Ok a, w).
#[export] Instance M_bind : MBind M := λ A B k m w,
  match m w with
  | (Ok a, w') => k a w'
  | (Err e, w') => (Err e, w')
  end.

Definition fail {A} (e : error) : M A := λ w, (Err e, w).
Definition lift {A} (r : result A) : M A := λ w, (r, w).
Definition guard_ok (b : bool) (e : error) : M unit := if b then mret tt else fail e.

(** The result of a computation as a value, for the calls whose error the code
    inspects. *)
Definition try_ {A} (m : M A) : M (result A) := λ w, let '(r, w') := m w in (Ok r, w').

(** [for _, x := range l { m }] *)
Fixpoint for_each {A} (l : list A) (f : A → M unit) : M unit :=
  match l with
  | [] => mret tt
  | x :: l' => f x ;; for_each l' f
  end.

Fixpoint map_m {A B} (f : A → M B) (l : list A) : M (list B) :=
  match l with
  | [] => mret []
  | x :: l' => y ← f x; ys ← map_m f l'; mret (y :: ys)
  end.

Definition tick (w : World) : World := w <| w_step := S (w_step w) |>.
Definition set_db (d : DB) (w : World) : World := w <| w_db := d |>.
Definition set_cache (c : Caches) (w : World) : World := w <| w_cache := c |>.

(** Reading and changing a cache never fails. *)
Definition cache_read {A} (f : Caches → A) : M A := λ w, (Ok (f (w_cache w)), w).
Definition cache_write (f : Caches → Caches) : M unit := λ w, (Ok tt, set_cache (f (w_cache w)) w).

Section effects.
Context {E : Env}.

Definition now : M Time := λ w, (Ok (env_now (w_step w)), tick w).
Definition shuffle (l : list (string * Z)) : M (list (string * Z)) := λ w,
  (Ok (env_shuffle (w_step w) l), tick w).
(** [for k, v := range m] over the entries of a map *)
Definition visit {A} (l : list A) : M (list A) := λ w, (Ok (env_order (w_step w) A l), tick w).
Definition ask {A} (f : nat → result A) : M A := λ w, (f (w_step w), tick w).

(** One database access. *)
Definition db_exec {A} (f : DB → result (A * DB)) : M A := λ w,
  if env_fault (w_step w) then (Err ErrDatabase, tick w)
  else match f (w_db w) with
       | Ok (a, d) => (Ok a, tick (set_db d w))
       | Err e => (Err e, tick w)
       end.

Definition db_read {A} (f : DB → A) : M A := db_exec (λ d, Ok (f d, d)).
Definition db_write (f : DB → DB) : M unit := db_exec (λ d, Ok (tt, f d)).
(** [First]: the row or [ErrRecordNotFound]. *)
Definition db_first {A} (f : DB → option A) : M A :=
  db_exec (λ d, match f d with Some a => Ok (a, d) | None => Err ErrRecordNotFound end).

(** [db.Transaction(fn)] *)
Definition transaction {A} (body : M A) : M A := λ w,
  if env_fault (w_step w) then (Err ErrDatabase, tick w)
  else
    match body (mkWorld (w_db w) (w_cache w) (S (w_step w)) (S (w_depth w))) with
    | (Ok a, w1) =>
        if bool_decide (w_depth w = 0%nat) && env_commit_fault (w_step w1)
        then (Err ErrDatabase, mkWorld (w_db w) (w_cache w1) (S (w_step w1)) (w_depth w))
        else (Ok a, mkWorld (w_db w1) (w_cache w1) (S (w_step w1)) (w_depth w))
    | (Err e, w1) => (Err e, mkWorld (w_db w) (w_cache w1) (S (w_step w1)) (w_depth w))
    end.
End effects.

(** ** Reasoning about computations

    [wp m Q w]: the result and the final world of [m] started in [w] satisfy
    [Q]. *)

Definition wp {A} (m : M A) (Q : result A → World → Prop) (w : World) : Prop :=
  Q (fst (m w)) (snd (m w)).

Section wp.
Context {E : Env}.

Lemma wp_mono {A} (m : M A) (P Q : result A → World → Prop) w :
  wp m P w → (∀ r w', P r w' → Q r w') → wp m Q w.
Proof. unfold wp. auto. Qed.

Lemma wp_ret {A} (a : A) Q w : Q (Ok a) w → wp (mret a) Q w.
Proof. done. Qed.

Lemma wp_fail {A} e (Q : result A → World → Prop) w : Q (Err e) w → wp (fail e) Q w.
Proof. done. Qed.

Lemma wp_lift {A} (r : result A) Q w : Q r w → wp (lift r) Q w.
Proof. done. Qed.

Lemma wp_guard b e (Q : result unit → World → Prop) w :
  (b = true → Q (Ok tt) w) → (b = false → Q (Err e) w) → wp (guard_ok b e) Q w.
Proof. destruct b; intros H1 H2; [exact (H1 eq_refl)|exact (H2 eq_refl)]. Qed.

Lemma wp_bind {A B} (m : M A) (k : A → M B) Q w :
  wp m (λ r w', match r with Ok a => wp (k a) Q w' | Err e => Q (Err e) w' end) w →
  wp (m ≫= k) Q w.
Proof.
  unfold wp, mbind, M_bind. destruct (m w) as [[a|e] w']; done.
Qed.

Lemma wp_try {A} (m : M A) Q w : wp m (λ r w', Q (Ok r) w') w → wp (try_ m) Q w.
Proof. unfold wp, try_. by destruct (m w). Qed.

Lemma wp_cache_read {A} (f : Caches → A) Q w : Q (Ok (f (w_cache w))) w → wp (cache_read f) Q w.
Proof. done. Qed.

Lemma wp_cache_write f Q w : Q (Ok tt) (set_cache (f (w_cache w)) w) → wp (cache_write f) Q w.
Proof. done. Qed.

Lemma wp_now (Q : result Time → World → Prop) w : (∀ t, Q (Ok t) (tick w)) → wp now Q w.
Proof. intros HQ. apply HQ. Qed.

Lemma wp_shuffle l Q w : (∀ l', l' ≡ₚ l → Q (Ok l') (tick w)) → wp (shuffle l) Q w.
Proof. intros HQ. apply HQ. apply env_shuffle_perm. Qed.

Lemma wp_visit {A} (l : list A) Q w : (∀ l', l' ≡ₚ l → Q (Ok l') (tick w)) → wp (visit l) Q w.
Proof. intros HQ. apply HQ. apply env_order_perm. Qed.

Lemma wp_ask {A} (f : nat → result A) Q w : (∀ r, Q r (tick w)) → wp (ask f) Q w.
Proof. intros HQ. apply HQ. Qed.

Lemma wp_db_exec {A} (f : DB → result (A * DB)) Q w :
  Q (Err ErrDatabase) (tick w) →
  match f (w_db w) with
  | Ok (a, d) => Q (Ok a) (tick (set_db d w))
  | Err e => Q (Err e) (tick w)
  end → wp (db_exec f) Q w.
Proof.
  unfold wp, db_exec. destruct (env_fault (w_step w)); [done|].
  by destruct (f (w_db w)) as [[a d]|e].
Qed.

Lemma wp_transaction {A} (body : M A) Q w :
  Q (Err ErrDatabase) (tick w) →
  wp body (λ r w1,
    match r with
    | Ok a =>
        (w_depth w = 0%nat → env_commit_fault (w_step w1) = true →
           Q (Err ErrDatabase) (mkWorld (w_db w) (w_cache w1) (S (w_step w1)) (w_depth w))) ∧
        Q (Ok a) (mkWorld (w_db w1) (w_cache w1) (S (w_step w1)) (w_depth w))
    | Err e => Q (Err e) (mkWorld (w_db w) (w_cache w1) (S (w_step w1)) (w_depth w))
    end) (mkWorld (w_db w) (w_cache w) (S (w_step w)) (S (w_depth w))) →
  wp (transaction body) Q w.
Proof.
  unfold wp, transaction. destruct (env_fault (w_step w)); [done|]. intros _.
  destruct (body _) as [[a|e] w1]; simpl; [|done]. intros [Hf Hc].
  case_bool_decide; simpl; [|done].
  destruct (env_commit_fault (w_step w1)) eqn:Ec; simpl; auto.
Qed.
End wp.

(** A property of the database that the body keeps is kept by the transaction. *)
Lemma wp_transaction_db `{E : Env} {A} (body : M A) (P : DB → Prop) w :
  P (w_db w) →
  (∀ w1, w_db w1 = w_db w → wp body (λ r w', is_ok r = true → P (w_db w')) w1) →
  wp (transaction body) (λ _ w', P (w_db w')) w.
Proof.
  intros Hw Hb. apply wp_transaction; [done|]. eapply wp_mono; [by apply Hb|].
  intros [a|e] w1 H1; [|done]. split; [done|]. by apply H1.
Qed.

(** [map_m] answers with one value for each element. *)
Lemma wp_map_m_length {A B} (f : A → M B) (l : list A) w :
  wp (map_m f l) (λ r _, ∀ ys, r = Ok ys → length ys = length l) w.
Proof.
  revert w. induction l as [|x l IH]; intros w; simpl; [intros ys [= <-]; done|].
  apply wp_bind. eapply (wp_mono _ (λ _ _, True)); [done|]. intros [y|e] w1 _; [|done].
  apply wp_bind. eapply wp_mono; [apply IH|]. intros [ys|e] w2 H; [|done].
  intros zs [= <-]. simpl. by rewrite (H ys eq_refl).
Qed.

(** [frames P m]: whatever [m] does, the relation [P] between the world before
    and after holds.  For a reflexive and transitive relation this composes. *)
Definition frames {A} (P : World → World → Prop) (m : M A) : Prop :=
  ∀ w, wp m (λ _ w', P w w') w.

(** The relations used below hold between a world and itself, and between a world
    and a later one with the same database and caches; a failed transaction gives
    back the database but keeps the caches. *)
Class WorldRel (P : World → World → Prop) := {
  wr_refl : ∀ w, P w w;
  wr_trans : ∀ w1 w2 w3, P w1 w2 → P w2 w3 → P w1 w3;
  wr_steps : ∀ w s d, (w_step w ≤ s)%nat → P w (mkWorld (w_db w) (w_cache w) s d);
  wr_rollback : ∀ w w1 s d, P w w1 → (w_step w1 ≤ s)%nat → P w (mkWorld (w_db w) (w_cache w1) s d)
}.

Section frames.
Context {E : Env} (P : World → World → Prop) `{!WorldRel P}.

Lemma wr_tick w : P w (tick w).
Proof. apply wr_steps. lia. Qed.

Lemma frames_ret {A} (a : A) : frames P (mret a : M A).
Proof. intros w. exact (wr_refl (P:=P) w). Qed.

Lemma frames_fail {A} e : frames P (fail e : M A).
Proof. intros w. exact (wr_refl (P:=P) w). Qed.

Lemma frames_lift {A} (r : result A) : frames P (lift r).
Proof. intros w. exact (wr_refl (P:=P) w). Qed.

Lemma frames_guard b e : frames P (guard_ok b e).
Proof. destruct b; intros w; exact (wr_refl (P:=P) w). Qed.

Lemma frames_bind {A B} (m : M A) (k : A → M B) :
  frames P m → (∀ a, frames P (k a)) → frames P (m ≫= k).
Proof.
  intros Hm Hk w. apply wp_bind. eapply wp_mono; [apply Hm|].
  intros [a|e] w1 H1; [|done]. eapply wp_mono; [apply Hk|].
  simpl. intros _ w2 H2. by eapply wr_trans.
Qed.

Lemma frames_try {A} (m : M A) : frames P m → frames P (try_ m).
Proof. intros Hm w. apply wp_try, Hm. Qed.

Lemma frames_if {A} (b : bool) (m1 m2 : M A) :
  frames P m1 → frames P m2 → frames P (if b then m1 else m2).
Proof. by destruct b. Qed.

Lemma frames_for_each {A} (l : list A) (f : A → M unit) :
  (∀ x, frames P (f x)) → frames P (for_each l f).
Proof.
  intros Hf. induction l as [|x l IH]; [apply frames_ret|].
  by apply frames_bind.
Qed.

Lemma frames_map_m {A B} (f : A → M B) (l : list A) :
  (∀ x, frames P (f x)) → frames P (map_m f l).
Proof.
  intros Hf. induction l as [|x l IH]; [apply frames_ret|].
  apply frames_bind; [done|]. intros y. apply frames_bind; [done|]. intros. apply frames_ret.
Qed.

Lemma frames_cache_read {A} (f : Caches → A) : frames P (cache_read f).
Proof. intros w. exact (wr_refl (P:=P) w). Qed.

Lemma frames_cache_write f :
  (∀ w, P w (set_cache (f (w_cache w)) w)) → frames P (cache_write f).
Proof. intros Hf w. exact (Hf w). Qed.

Lemma frames_now : frames P now.
Proof. intros w. apply wp_now. intros. apply wr_tick. Qed.

Lemma frames_visit {A} (l : list A) : frames P (visit l).
Proof. intros w. apply wp_visit. intros. apply wr_tick. Qed.

Lemma frames_shuffle l : frames P (shuffle l).
Proof. intros w. apply wp_shuffle. intros. apply wr_tick. Qed.

Lemma frames_ask {A} (f : nat → result A) : frames P (ask f).
Proof. intros w. apply wp_ask. intros. apply wr_tick. Qed.

Lemma frames_db_exec {A} (f : DB → result (A * DB)) :
  (∀ w a d, f (w_db w) = Ok (a, d) → P w (set_db d w)) → frames P (db_exec f).
Proof.
  intros Hf w. apply wp_db_exec; [apply wr_tick|].
  destruct (f (w_db w)) as [[a d]|e] eqn:Ef; [|apply wr_tick].
  eapply wr_trans; [by eapply Hf|apply wr_tick].
Qed.

Lemma frames_db_read {A} (f : DB → A) : frames P (db_read f).
Proof. apply frames_db_exec. intros w a d [= <- <-]. destruct w. apply wr_refl. Qed.

Lemma frames_db_first {A} (f : DB → option A) : frames P (db_first f).
Proof.
  apply frames_db_exec. intros w a d.
  destruct (f (w_db w)); [|done]. intros [= <- <-]. destruct w. apply wr_refl.
Qed.

Lemma frames_db_write f :
  (∀ w, P w (set_db (f (w_db w)) w)) → frames P (db_write f).
Proof. intros Hf. apply frames_db_exec. intros w a d [= <- <-]. apply Hf. Qed.

Lemma frames_transaction {A} (m : M A) : frames P m → frames P (transaction m).
Proof.
  intros Hm w. apply wp_transaction; [apply wr_tick|].
  eapply wp_mono; [apply Hm|]. simpl. intros r w1 H1.
  assert (Hw1 : P w w1).
  { eapply wr_trans; [|exact H1]. apply wr_steps. lia. }
  assert (Hrb : P w (mkWorld (w_db w) (w_cache w1) (S (w_step w1)) (w_depth w)))
    by (apply wr_rollback; [done|lia]).
  destruct r as [a|e]; [|done]. split; [done|].
  eapply wr_trans; [exact Hw1|]. apply wr_steps. lia.
Qed.
End frames.

#[export] Hint Resolve frames_ret frames_fail frames_lift frames_guard frames_try
  frames_for_each frames_map_m frames_cache_read frames_now frames_shuffle frames_visit frames_ask
  frames_db_read frames_db_first frames_transaction : relay.

(** [frame_tac] walks through a service function: it splits binds,
    conditionals and matches and uses the [relay] hints on the rest. *)
Ltac frame_step :=
  match goal with
  | |- frames _ (@mbind _ _ _ _ _ _) => apply frames_bind; [apply _| |intros]
  | |- frames _ (transaction _) => apply frames_transaction; [apply _|]
  | |- frames _ (for_each _ _) => apply frames_for_each; [apply _|intros]
  | |- frames _ (map_m _ _) => apply frames_map_m; [apply _|intros]
  | |- frames _ (try_ _) => apply frames_try
  | |- frames _ (if ?b then _ else _) => destruct b eqn:?
  | |- frames _ (match ?x with _ => _ end) => destruct x eqn:?
  | |- frames _ (let '_ := ?x in _) => destruct x eqn:?
  | |- frames _ _ => solve [auto with relay typeclass_instances]
  end.
Ltac frame_tac := repeat frame_step.

(** [keep_tac] also unfolds the functions it meets and proves the writes by
    computation: for relations such as "this table is unchanged". *)
Ltac head_of t := match t with ?f _ => head_of f | _ => t end.
Ltac write_tac := first [exact eq_refl | exact (le_n _) | solve [repeat case_match; exact eq_refl]].
Ltac keep_step := first
  [ frame_step
  | match goal with
    | |- frames _ (db_write _) => apply frames_db_write; [apply _|intros; write_tac]
    | |- frames _ (cache_write _) => apply frames_cache_write; intros; write_tac
    | |- frames _ (db_exec _) =>
        apply frames_db_exec; [apply _|]; intros ? ? ? ?; repeat case_match; simplify_eq; try write_tac
    | |- frames _ ?m => let h := head_of m in unfold h
    end ].
Ltac keep_tac := repeat keep_step.

(** A step-by-step symbolic execution for [wp] goals. *)
Ltac wp_step :=
  match goal with
  | |- wp (@mbind _ _ _ _ _ _) _ _ => apply wp_bind
  | |- wp (@mret _ _ _ _) _ _ => apply wp_ret
  | |- wp (fail _) _ _ => apply wp_fail
  | |- wp (lift _) _ _ => apply wp_lift
  | |- wp (guard_ok _ _) _ _ => apply wp_guard; intros
  | |- wp (try_ _) _ _ => apply wp_try
  | |- wp (cache_read _) _ _ => apply wp_cache_read
  | |- wp (cache_write _) _ _ => apply wp_cache_write
  | |- wp now _ _ => apply wp_now; intros
  | |- wp (shuffle _) _ _ => apply wp_shuffle; intros
  | |- wp (visit _) _ _ => apply wp_visit; intros
  | |- wp (ask _) _ _ => apply wp_ask; intros
  | |- wp (db_read _) _ _ => apply wp_db_exec
  | |- wp (db_write _) _ _ => apply wp_db_exec
  | |- wp (db_first _) _ _ => apply wp_db_exec
  | |- wp (db_exec _) _ _ => apply wp_db_exec
  | |- wp (transaction _) _ _ => apply wp_transaction
  end.

(** A computation that changes neither the database nor the caches. *)
Definition reads_only (w w' : World) : Prop := w_db w' = w_db w ∧ w_cache w' = w_cache w.

#[export] Instance reads_only_rel : WorldRel reads_only.
Proof.
  split; unfold reads_only; [done| |done|naive_solver].
  intros w1 w2 w3 [-> ->] [-> ->]. done.
Qed.

(** The relation that only allows the part [f] of the database to differ is the
    conjunction of such relations for all other parts; [keeps f] is the relation
    that keeps one part. *)
Definition keeps {A} (f : DB → A) (w w' : World) : Prop := f (w_db w') = f (w_db w).

#[export] Instance keeps_rel {A} (f : DB → A) : WorldRel (keeps f).
Proof. split; unfold keeps; [done|congruence|done|done]. Qed.

(** The count of accesses never decreases. *)
Definition later (w w' : World) : Prop := (w_step w ≤ w_step w')%nat.

#[export] Instance later_rel : WorldRel later.
Proof. split; unfold later; simpl; intros; lia. Qed.

(** A finer relation gives a coarser one. *)
Lemma frames_weaken {A} (P Q : World → World → Prop) (m : M A) :
  frames P m → (∀ w w', P w w' → Q w w') → frames Q m.
Proof. intros Hm HPQ w. eapply wp_mono; [apply Hm|]. intros. by apply HPQ. Qed.

(** ** A concrete environment

    No access fails, the clock counts seconds and the chain knows nothing; used
    by the witnesses. *)
Definition demo_env : Env := {|
  env_cfg := demo_config;
  env_fault := λ _, false;
  env_commit_fault := λ _, false;
  env_now := λ n, Z.of_nat n * second;
  env_shuffle := λ _ l, l;
  env_shuffle_perm := λ _ l, Permutation_refl l;
  env_exp := λ _, f64_one;
  env_client := λ n, String.eqb n "base";
  env_receipt := λ _ _ _, Ok None;
  env_transfer := λ _ _ _, Ok None;
  env_staking_info := λ _ _ _, Ok (mkStakingInfo 400 1);
  env_delegator_share := λ _ _ _, Ok 10;
  env_staking_infos := λ _ _ _, Ok ([], []);
  env_erc20TransferTopic := "0xddf252ad";
  env_addressTopic := λ a, a;
  env_topicAddress := λ a, a;
  env_keccak256 := λ bs, [Z.of_nat (length bs)];
  env_sig_to_address := λ _ _, Some "0xVesting";
  env_is_hex_address := λ a, String.prefix "0x" a;
  env_pubkey_address := λ _, Some "0xcreator";
  env_vrf_verify := λ _ seed _, Some seed;
  env_admission := λ _ t, Ok (t_TaskFee t, t_Pricing t);
  env_execution_plan := λ _ _ _, Ok (mkExecutionPlan [] false 600 (30 * second));
  env_evidence := λ _ _ _, Ok ("{}", true);
  env_snapshot := λ _ _, Ok tt;
  env_evidence_valid := λ _, true;
  env_block_number := λ _ _, Ok 0;
  env_block := λ _ _ _, Ok ([], 0);
  env_filter_logs := λ _ _ _ _, Ok [];
  env_staking_page := λ _ _ _ _, Ok [];
  env_node_staking_log := λ _, None;
  env_delegated_staking_log := λ _, None;
  env_is_hex_hash := λ h, String.prefix "0x" h;
  env_unicode := GoStrings.demo_unicode;
  env_float64_text := {| JsonDecode.float64_text := λ s, Some s |};
  env_order := λ _ _ l, l;
  env_order_perm := λ _ _ l, Permutation_refl l;
  env_sample := λ _ _, None;
  env_sample_range := λ _ _ _ H, match H with end;
  env_sample_weighted := λ _ _ _ H, match H with end
|}.
