(* ===== verification/ModelWhitelist.v ===== *)
(** * The model whitelist

    src/service/model_whitelist.go: entries are exact repository names or
    "owner/*".  The table is mirrored by two sets in memory, names and owners,
    which every check reads. *)

From Stdlib Require Import Ascii.
From S2P Require Import Prelude Mac Json JsonDecode GoStrings Models Config Delegation MaxStaking Store.
From S2P Require Import ModelFiles TaskModels.

Module ModelWhitelist.
Import Json JsonDecode GoStrings ModelFiles TaskModels.

Definition slash : ascii := char 47.
Definition star : ascii := char 42.

Section whitelist.
Context {E : Env}.

(** ** Names *)

Definition isURL (s : string) : bool := HasPrefix s "http://" || HasPrefix s "https://".

(** [normalizeModelWhitelistCandidate], src/service/model_whitelist.go 34-40 *)
Definition normalizeModelWhitelistCandidate (name : string) : result string :=
  let normalized := NormalizeModelName (TrimSpace name) in
  if String.eqb normalized "" then Err ErrInvalidModelWhitelistName else Ok normalized.

(** [organizationOwnerFromWildcard], src/service/model_whitelist.go 72-86, with
    [isOrganizationWhitelistEntry] *)
Definition organizationOwnerFromWildcard (normalized : string) : option string :=
  if isURL normalized then None
  else match Cut normalized slash with
       | Some (owner, suffix) =>
           if negb (String.eqb owner "") && String.eqb suffix "*" && negb (ContainsChar owner star)
           then Some owner else None
       | None => None
       end.

(** [validateModelWhitelistEntry], src/service/model_whitelist.go 55-70 *)
Definition validateModelWhitelistEntry (normalized : string) : bool :=
  if isURL normalized then negb (ContainsChar normalized star)
  else if negb (ContainsChar normalized star) then true
  else match Cut normalized slash with
       | Some (owner, suffix) => negb (String.eqb owner "" || negb (String.eqb suffix "*") || ContainsChar owner star)
       | None => false
       end.

(** [NormalizeModelWhitelistName], src/service/model_whitelist.go 44-53 *)
Definition NormalizeModelWhitelistName (name : string) : result string :=
  match normalizeModelWhitelistCandidate name with
  | Err e => Err e
  | Ok normalized => if validateModelWhitelistEntry normalized then Ok normalized else Err ErrInvalidModelWhitelistName
  end.

(** ** The cache *)

(** The sets of [loadModelWhitelistCacheLocked], src/service/model_whitelist.go 526-538 *)
Fixpoint splitEntries (names : list string) : result (gset string * gset string) :=
  match names with
  | [] => Ok (∅, ∅)
  | name :: names' =>
      match NormalizeModelWhitelistName name, splitEntries names' with
      | Ok normalized, Ok (exact, orgs) =>
          match organizationOwnerFromWildcard normalized with
          | Some owner => Ok (exact, {[owner]} ∪ orgs)
          | None => Ok ({[normalized]} ∪ exact, orgs)
          end
      | Err e, _ => Err e
      | _, Err e => Err e
      end
  end.

(** [loadModelWhitelistCacheLocked], src/service/model_whitelist.go 520-544 *)
Definition loadModelWhitelistCacheLocked : M unit :=
  names ← db_read (λ d, elements (db_model_whitelist d));
  sets ← lift (splitEntries names);
  cache_write (λ c, c <| c_model_whitelist := Some sets |>).

(** The decision of [IsModelWhitelisted] on the sets *)
Definition allowed (sets : gset string * gset string) (normalizedName : string) : bool :=
  bool_decide (normalizedName ∈ fst sets) ||
  (negb (isURL normalizedName) &&
   match Cut normalizedName slash with
   | Some (owner, _) => negb (String.eqb owner "") && bool_decide (owner ∈ snd sets)
   | None => false
   end).

(** [IsModelWhitelisted], src/service/model_whitelist.go 439-462 *)
Definition IsModelWhitelisted (modelName : string) : M bool :=
  normalizedName ← lift (normalizeModelWhitelistCandidate modelName);
  loaded ← cache_read c_model_whitelist;
  match loaded with
  | None => fail ErrModelWhitelistNotInitialized
  | Some sets => mret (allowed sets normalizedName)
  end.

(** ** Checks *)

(** The names of [taskModelNamesForWhitelist] without duplicates,
    src/service/model_whitelist.go 474-486 *)
Fixpoint entryNames (entries : list ModelFileEntry) (names : list string) : result (list string) :=
  match entries with
  | [] => Ok names
  | entry :: entries' =>
      match NormalizeModelWhitelistName (me_Repository entry) with
      | Err e => Err e
      | Ok normalized =>
          entryNames entries' (if bool_decide (normalized ∈ names) then names else names ++ [normalized])
      end
  end.

(** [taskModelNamesForWhitelist], src/service/model_whitelist.go 468-498 *)
Definition taskModelNamesForWhitelist (task : InferenceTask) : M (list string) :=
  if bool_decide (t_TaskType task = TaskTypeSD) then
    requirements ← ask (λ n, DeriveTaskModelRequirements (env_order n _) (tp_TaskArgs (t_Pricing task)) (t_TaskType task));
    names ← lift (entryNames (tr_Entries requirements) []);
    if bool_decide (names = []) then fail ErrInvalidModelWhitelistName else mret names
  else
    normalized ← lift (NormalizeModelWhitelistName (tp_ModelName (t_Pricing task)));
    mret [normalized].

(** [CheckTaskModelsWhitelisted], src/service/model_whitelist.go 503-518 *)
Definition CheckTaskModelsWhitelisted (task : InferenceTask) : M unit :=
  names ← taskModelNamesForWhitelist task;
  for_each names (λ name, ok ← IsModelWhitelisted name; guard_ok ok ErrModelNotWhitelisted).

(** [modelWhitelistEnforced], src/service/model_whitelist.go 108-114 *)
Definition modelWhitelistEnforced : bool := Task_ModelWhitelistEnabled env_cfg.

(** Whether the repository of a catalog row is allowed,
    src/service/model_whitelist.go 134-141 *)
Definition fileWhitelisted (file : ModelFile) : M bool :=
  entry ← lift (Entry file);
  IsModelWhitelisted (me_Repository entry).

(** [filterWhitelistedModelFiles], src/service/model_whitelist.go 128-147 *)
Fixpoint keepWhitelisted (files : list ModelFile) : M (list ModelFile) :=
  match files with
  | [] => mret []
  | file :: files' =>
      ok ← fileWhitelisted file;
      kept ← keepWhitelisted files';
      mret (if (ok : bool) then file :: kept else kept)
  end.
(** [filterWhitelistedModelFiles], src/service/model_whitelist.go 128-147 *)
Definition filterWhitelistedModelFiles (files : list ModelFile) : M (list ModelFile) :=
  if negb modelWhitelistEnforced then mret files else keepWhitelisted files.

(** [assertWhitelistedModelFiles], src/service/model_whitelist.go 151-169 *)
Definition assertWhitelistedModelFiles (files : list ModelFile) : M unit :=
  if negb modelWhitelistEnforced then mret tt
  else for_each files (λ file, ok ← fileWhitelisted file; guard_ok ok ErrModelNotWhitelisted).

(** [modelFileRejectedByWhitelist], src/service/model_whitelist.go 171-184 *)
Definition modelFileRejectedByWhitelist (file : ModelFile) : M bool :=
  if negb modelWhitelistEnforced then mret false
  else ok ← fileWhitelisted file; mret (negb ok).

(** ** The checks change nothing *)

Lemma frames_IsModelWhitelisted P `{!WorldRel P} name : frames P (IsModelWhitelisted name).
Proof. unfold IsModelWhitelisted. keep_tac. Qed.

Lemma frames_CheckTask P `{!WorldRel P} task : frames P (CheckTaskModelsWhitelisted task).
Proof.
  unfold CheckTaskModelsWhitelisted, taskModelNamesForWhitelist.
  apply frames_bind; [done|keep_tac|]. intros names. apply frames_for_each; [done|]. intros name.
  apply frames_bind; [done|by apply frames_IsModelWhitelisted|]. intros ok. by apply frames_guard.
Qed.

Lemma frames_fileWhitelisted P `{!WorldRel P} file : frames P (fileWhitelisted file).
Proof.
  unfold fileWhitelisted. apply frames_bind; [done|by apply frames_lift|]. intros. by apply frames_IsModelWhitelisted.
Qed.

End whitelist.
End ModelWhitelist.
