(* ===== verification/Statistic.v ===== *)
(** * Earnings statistics

    Every task income is also added to per-day and all-time statistics
    (src/service/statistic.go): the row of the current UTC day and the row with
    no time, which is the all-time total. *)

From S2P Require Import Prelude Models Config Delegation MaxStaking Store.

Module Statistic.

(** ** Definitions *)

(** [Save] of a row that [First] found (an [UPDATE] by primary key) or of a new
    row (an [INSERT]). *)
Fixpoint save_first {A} (p : A → bool) (row : A) (t : list A) : list A :=
  match t with
  | [] => [row]
  | x :: t' => if p x then row :: t' else x :: save_first p row t'
  end.

Section statistic.
Context {E : Env}.

(** [First] into a struct that keeps its initial value when there is no row. *)
Definition first_or {A} (p : A → bool) (get : DB → list A) (fresh : A) : M A :=
  r ← try_ (db_first (λ d, find_first p (get d)));
  match r with
  | Ok x => mret x
  | Err e => if bool_decide (e = ErrRecordNotFound) then mret fresh else fail e
  end.

(** [WeiToEther] followed by [Float64], src/utils/ether.go 9-17: the quotient is
    rounded to 236 bits, then to a float64. *)
Definition WeiToEther_float (wei : Z) : float64 :=
  let e := (2 ^ 31)%Z in
  match SFdiv 236 e (binary_normalize 236 e wei 0 false) (binary_normalize 53 e (10 ^ 18) 0 false) with
  | S754_finite s m x => binary_normalize 53 1024 (if s then Z.neg m else Z.pos m) x false
  | f => f
  end.

(** [addNodeIncentive], src/service/statistic.go 15-54 *)
Definition addNodeIncentive (nodeAddress : string) (incentive : float64) (taskType : TaskType) : M unit :=
  t0 ← now;
  let t := utc_day t0 in
  let p := λ r, String.eqb (ni_NodeAddress r) nodeAddress && (ni_Time r =? t) in
  r ← try_ (db_first (λ d, find_first p (db_incentives d)));
  match r with
  | Ok nodeIncentive =>
      let row1 := nodeIncentive
        <| ni_Incentive := f64_add (ni_Incentive nodeIncentive) incentive |>
        <| ni_TaskCount := wrap_i64 (ni_TaskCount nodeIncentive + 1) |> in
      let row2 :=
        match taskType with
        | TaskTypeSD => row1 <| ni_SDTaskCount := wrap_i64 (ni_SDTaskCount row1 + 1) |>
        | TaskTypeLLM => row1 <| ni_LLMTaskCount := wrap_i64 (ni_LLMTaskCount row1 + 1) |>
        | TaskTypeSDFTLora => row1 <| ni_SDFTLoraTaskCount := wrap_i64 (ni_SDFTLoraTaskCount row1 + 1) |>
        end in
      db_write (λ d, d <| db_incentives := save_first p row2 (db_incentives d) |>)
  | Err e =>
      if negb (bool_decide (e = ErrRecordNotFound)) then fail e else
      let row1 := mkNodeIncentive nodeAddress incentive t 1 0 0 0 in
      let row2 :=
        match taskType with
        | TaskTypeSD => row1 <| ni_SDTaskCount := 1 |>
        | TaskTypeLLM => row1 <| ni_LLMTaskCount := 1 |>
        | TaskTypeSDFTLora => row1 <| ni_SDFTLoraTaskCount := 1 |>
        end in
      db_write (λ d, d <| db_incentives := db_incentives d ++ [row2] |>)
  end.

Definition node_day (nodeAddress : string) (t : option Time) (r : NodeEarning) : bool :=
  String.eqb (ne_NodeAddress r) nodeAddress && bool_decide (ne_Time r = t).

(** One of the two halves of [addNodeEarning]: the row of [t] is found or made
    and the earnings are added to it. *)
Definition bumpNodeEarning (nodeAddress : string) (t : option Time) (operatorEarning delegatorEarning : Z)
    : M unit :=
  row ← first_or (node_day nodeAddress t) db_node_earnings (mkNodeEarning nodeAddress 0 0 t);
  db_write (λ d, d <| db_node_earnings :=
    save_first (node_day nodeAddress t)
      (row <| ne_OperatorEarning := ne_OperatorEarning row + operatorEarning |>
           <| ne_DelegatorEarning := ne_DelegatorEarning row + delegatorEarning |>)
      (db_node_earnings d) |>).

(** [addNodeEarning], src/service/statistic.go 56-109 *)
Definition addNodeEarning (nodeAddress : string) (operatorEarning delegatorEarning : Z) : M unit :=
  t0 ← now;
  transaction (
    bumpNodeEarning nodeAddress (Some (utc_day t0)) operatorEarning delegatorEarning;;
    bumpNodeEarning nodeAddress None operatorEarning delegatorEarning).

Definition staking_day (userAddress nodeAddress network : string) (t : option Time)
    (r : UserStakingEarning) : bool :=
  String.eqb (us_UserAddress r) userAddress && String.eqb (us_NodeAddress r) nodeAddress &&
  String.eqb (us_Network r) network && bool_decide (us_Time r = t).

Definition bumpUserStakingEarning (userAddress nodeAddress network : string) (t : option Time)
    (earning : Z) : M unit :=
  row ← first_or (staking_day userAddress nodeAddress network t) db_user_staking_earnings
          (mkUserStakingEarning userAddress nodeAddress network 0 t);
  db_write (λ d, d <| db_user_staking_earnings :=
    save_first (staking_day userAddress nodeAddress network t)
      (row <| us_Earning := us_Earning row + earning |>) (db_user_staking_earnings d) |>).

(** [addUserStakingEarning], src/service/statistic.go 111-163 *)
Definition addUserStakingEarning (userAddress nodeAddress network : string) (earning : Z) : M unit :=
  t0 ← now;
  transaction (
    bumpUserStakingEarning userAddress nodeAddress network (Some (utc_day t0)) earning;;
    bumpUserStakingEarning userAddress nodeAddress network None earning).

Definition user_day (userAddress : string) (t : option Time) (r : UserEarning) : bool :=
  String.eqb (ue_UserAddress r) userAddress && bool_decide (ue_Time r = t).

Definition bumpUserEarning (userAddress : string) (t : option Time) (earning : Z) : M unit :=
  row ← first_or (user_day userAddress t) db_user_earnings (mkUserEarning userAddress 0 t);
  db_write (λ d, d <| db_user_earnings :=
    save_first (user_day userAddress t)
      (row <| ue_Earning := ue_Earning row + earning |>) (db_user_earnings d) |>).

(** [addUserEarning], src/service/statistic.go 165-213 *)
Definition addUserEarning (userAddress : string) (earning : Z) : M unit :=
  t0 ← now;
  transaction (
    bumpUserEarning userAddress (Some (utc_day t0)) earning;;
    bumpUserEarning userAddress None earning).

(** ** Properties *)

(** Saving over the first matching row changes a sum by the change of that
    row. *)
Lemma sumZ_save_first {A} (g : A → Z) (p : A → bool) (t : list A) (row fresh : A) :
  (match find_first p t with Some x => x = row | None => g fresh = 0 ∧ row = fresh end) →
  ∀ row', sumZ g (save_first p row' t) = sumZ g t + g row' - g row.
Proof.
  intros Hrow row'. induction t as [|x t IH]; simpl in *.
  - destruct Hrow as [? ->]. lia.
  - destruct (p x); simpl; [subst; lia|]. rewrite IH by done. lia.
Qed.

(** What an account has earned in the per-day rows and in the total row. *)
Definition part (daily : bool) (t : option Time) : bool :=
  match t with Some _ => daily | None => negb daily end.
Definition operator_part (a : string) (daily : bool) (r : NodeEarning) : Z :=
  if String.eqb (ne_NodeAddress r) a && part daily (ne_Time r) then ne_OperatorEarning r else 0.
Definition delegator_part (a : string) (daily : bool) (r : NodeEarning) : Z :=
  if String.eqb (ne_NodeAddress r) a && part daily (ne_Time r) then ne_DelegatorEarning r else 0.
Definition user_part (a : string) (daily : bool) (r : UserEarning) : Z :=
  if String.eqb (ue_UserAddress r) a && part daily (ue_Time r) then ue_Earning r else 0.

(** The per-day rows add up to the total row, for every node and every user. *)
Definition earnings_balanced (d : DB) : Prop :=
  (∀ a, sumZ (operator_part a true) (db_node_earnings d) = sumZ (operator_part a false) (db_node_earnings d)) ∧
  (∀ a, sumZ (delegator_part a true) (db_node_earnings d) = sumZ (delegator_part a false) (db_node_earnings d)) ∧
  (∀ a, sumZ (user_part a true) (db_user_earnings d) = sumZ (user_part a false) (db_user_earnings d)).

(** [first_or] gives the first matching row, or the fresh one when there is
    none, and leaves the database alone. *)
Lemma wp_first_or {A} (p : A → bool) (get : DB → list A) (fresh : A) (Q : result A → World → Prop) w :
  (∀ e w', w_db w' = w_db w → w_cache w' = w_cache w → Q (Err e) w') →
  (∀ x w', w_db w' = w_db w → w_cache w' = w_cache w →
     (match find_first p (get (w_db w)) with Some y => y = x | None => x = fresh end) → Q (Ok x) w') →
  wp (first_or p get fresh) Q w.
Proof.
  intros He Ho. unfold first_or. wp_step. wp_step. wp_step.
  - by apply He.
  - destruct (find_first p (get (w_db w))) as [y|] eqn:Ef; [by apply Ho|by apply Ho].
Qed.

Lemma bumpNodeEarning_sums nodeAddress t op dg w :
  wp (bumpNodeEarning nodeAddress t op dg) (λ r w',
    w_cache w' = w_cache w ∧
    (r = Ok tt → db_user_earnings (w_db w') = db_user_earnings (w_db w) ∧
      ∀ a daily,
       sumZ (operator_part a daily) (db_node_earnings (w_db w')) =
         sumZ (operator_part a daily) (db_node_earnings (w_db w)) +
         (if String.eqb nodeAddress a && part daily t then op else 0) ∧
       sumZ (delegator_part a daily) (db_node_earnings (w_db w')) =
         sumZ (delegator_part a daily) (db_node_earnings (w_db w)) +
         (if String.eqb nodeAddress a && part daily t then dg else 0))) w.
Proof.
  unfold bumpNodeEarning. wp_step. apply wp_first_or; [done|].
  intros row w1 Hd Hc Hrow. wp_step; [done|]. simpl. rewrite Hc, Hd. split; [done|].
  intros _. split; [done|]. intros a daily.
  assert (Hk : node_day nodeAddress t row = true).
  { destruct (find_first _ _) as [y|] eqn:Ef; subst; [by destruct (find_first_Some _ _ _ Ef)|].
    unfold node_day. simpl. by rewrite String.eqb_refl, bool_decide_eq_true_2. }
  unfold node_day in Hk. simplify_bool. subst nodeAddress t.
  split.
  - rewrite (sumZ_save_first _ _ _ row (mkNodeEarning (ne_NodeAddress row) 0 0 (ne_Time row))).
    + unfold operator_part. simpl. case_bool; lia.
    + destruct (find_first _ _); [done|]. split; [|done]. unfold operator_part. by case_bool.
  - rewrite (sumZ_save_first _ _ _ row (mkNodeEarning (ne_NodeAddress row) 0 0 (ne_Time row))).
    + unfold delegator_part. simpl. case_bool; lia.
    + destruct (find_first _ _); [done|]. split; [|done]. unfold delegator_part. by case_bool.
Qed.

Lemma bumpUserEarning_sums userAddress t earning w :
  wp (bumpUserEarning userAddress t earning) (λ r w',
    w_cache w' = w_cache w ∧
    (r = Ok tt → db_node_earnings (w_db w') = db_node_earnings (w_db w) ∧
      ∀ a daily,
       sumZ (user_part a daily) (db_user_earnings (w_db w')) =
         sumZ (user_part a daily) (db_user_earnings (w_db w)) +
         (if String.eqb userAddress a && part daily t then earning else 0))) w.
Proof.
  unfold bumpUserEarning. wp_step. apply wp_first_or; [done|].
  intros row w1 Hd Hc Hrow. wp_step; [done|]. simpl. rewrite Hc, Hd. split; [done|].
  intros _. split; [done|]. intros a daily.
  assert (Hk : user_day userAddress t row = true).
  { destruct (find_first _ _) as [y|] eqn:Ef; subst; [by destruct (find_first_Some _ _ _ Ef)|].
    unfold user_day. simpl. by rewrite String.eqb_refl, bool_decide_eq_true_2. }
  unfold user_day in Hk. simplify_bool. subst userAddress t.
  rewrite (sumZ_save_first _ _ _ row (mkUserEarning (ue_UserAddress row) 0 (ue_Time row))).
  - unfold user_part. simpl. case_bool; lia.
  - destruct (find_first _ _); [done|]. split; [|done]. unfold user_part. by case_bool.
Qed.

(** The statistics functions touch nothing but the statistics tables. *)
Definition stats_only (w w' : World) : Prop :=
  w_cache w' = w_cache w ∧ ∃ ne us ue ni, w_db w' = (w_db w)
    <| db_node_earnings := ne |> <| db_user_staking_earnings := us |>
    <| db_user_earnings := ue |> <| db_incentives := ni |>.

#[export] Instance stats_only_rel : WorldRel stats_only.
Proof.
  assert (Hr : ∀ d, ∃ ne us ue ni, d = d <| db_node_earnings := ne |>
    <| db_user_staking_earnings := us |> <| db_user_earnings := ue |> <| db_incentives := ni |>).
  { intros []. by do 4 eexists. }
  split; unfold stats_only; simpl.
  - intros w. split; [done|]. apply Hr.
  - intros w1 w2 w3 [-> (? & ? & ? & ? & ->)] [-> (? & ? & ? & ? & ->)]. split; [done|].
    by do 4 eexists.
  - intros w s d. split; [done|]. apply Hr.
  - intros w w1 s d [-> _]. split; [done|]. apply Hr.
Qed.

Lemma frames_first_or {A} P `{!WorldRel P} (p : A → bool) get fresh : frames P (first_or p get fresh).
Proof. unfold first_or. frame_tac. Qed.

#[local] Hint Resolve frames_first_or : relay.

(** A write of one of the four tables. *)
Ltac stats_write :=
  apply frames_db_write; [apply _|]; intros [[] ? ? ?]; split; [done|];
  do 4 eexists; cbn; reflexivity.

Lemma stats_addNodeIncentive a i t : frames stats_only (addNodeIncentive a i t).
Proof. unfold addNodeIncentive. frame_tac. all: stats_write. Qed.

Lemma stats_addNodeEarning a op dg : frames stats_only (addNodeEarning a op dg).
Proof. unfold addNodeEarning, bumpNodeEarning. frame_tac. all: stats_write. Qed.

Lemma stats_addUserStakingEarning u a n e : frames stats_only (addUserStakingEarning u a n e).
Proof. unfold addUserStakingEarning, bumpUserStakingEarning. frame_tac. all: stats_write. Qed.

Lemma stats_addUserEarning u e : frames stats_only (addUserEarning u e).
Proof. unfold addUserEarning, bumpUserEarning. frame_tac. all: stats_write. Qed.

(** (invariant): recording an earning keeps every per-day statistic equal to
    its all-time total: whatever access fails, the operator and delegator
    earnings of every node and the earnings of every user summed over the days
    equal the total rows. *)
Theorem earnings_stay_balanced (nodeAddress userAddress : string) (op dg earning : Z) (w : World) :
  earnings_balanced (w_db w) →
  wp (addNodeEarning nodeAddress op dg;; addUserEarning userAddress earning)
     (λ _ w', earnings_balanced (w_db w')) w.
Proof.
  intros Hb. wp_step. unfold addNodeEarning. wp_step. wp_step. wp_step; [done|].
  wp_step. eapply wp_mono; [apply bumpNodeEarning_sums|]. simpl.
  intros [[]|e] w1 [Hc1 H1]; [|done]. destruct (H1 eq_refl) as [Hu1 Hs1].
  eapply wp_mono; [apply bumpNodeEarning_sums|]. simpl.
  intros [[]|e] w2 [Hc2 H2]; [|done]. destruct (H2 eq_refl) as [Hu2 Hs2].
  split; [done|].
  assert (Hb2 : earnings_balanced (w_db w2)).
  { destruct Hb as (Ho & Hd & Hu). split_and!; intros a.
    - destruct (Hs2 a true) as [-> _], (Hs2 a false) as [-> _].
      destruct (Hs1 a true) as [-> _], (Hs1 a false) as [-> _]. specialize (Ho a).
      destruct (String.eqb nodeAddress a); simpl; lia.
    - destruct (Hs2 a true) as [_ ->], (Hs2 a false) as [_ ->].
      destruct (Hs1 a true) as [_ ->], (Hs1 a false) as [_ ->]. specialize (Hd a).
      destruct (String.eqb nodeAddress a); simpl; lia.
    - rewrite Hu2, Hu1. apply Hu. }
  unfold addUserEarning. wp_step. wp_step. wp_step; [done|].
  wp_step. eapply wp_mono; [apply bumpUserEarning_sums|]. simpl.
  intros [[]|e] w3 [Hc3 H3]; [|done]. destruct (H3 eq_refl) as [Hn3 Hs3].
  eapply wp_mono; [apply bumpUserEarning_sums|]. simpl.
  intros [[]|e] w4 [Hc4 H4]; [|done]. destruct (H4 eq_refl) as [Hn4 Hs4].
  split; [done|]. destruct Hb2 as (Ho & Hd & Hu).
  unfold earnings_balanced. rewrite Hn4, Hn3. split_and!; [done|done|].
  intros a. rewrite (Hs4 a true), (Hs4 a false), (Hs3 a true), (Hs3 a false). specialize (Hu a).
  destruct (String.eqb userAddress a); simpl; lia.
Qed.
End statistic.

#[export] Hint Resolve stats_addNodeIncentive stats_addNodeEarning stats_addUserStakingEarning
  stats_addUserEarning : relay.

Lemma earnings_stay_balanced_witness :
  earnings_balanced (w_db (snd (((addNodeEarning (E:=demo_env) "0xnode" 70 10;;
    addUserEarning (E:=demo_env) "0xuser" 10) : M unit) empty_world))).
Proof.
  refine (earnings_stay_balanced (E:=demo_env) "0xnode" "0xuser" 70 10 10 empty_world _).
  by split_and!.
Defined.

End Statistic.
