(* ===== verification/Ledger.v ===== *)
(** * Relay accounts: the ledger operations

    A balance change of a relay account is an event row (pending until the
    synchroniser applies it to the account table) together with an immediate
    change of the cached balance (src/service/relay_account.go 771-1146).  The
    functions that create events return a commit function that changes the
    cache; the callers run it inside their transaction.

    A cached balance is a pointer in the Go map; entries are never replaced once
    present, so the pointer is identified with the map entry of its address. *)

From S2P Require Import Prelude Models Config Delegation VestingSchedule MaxStaking Store.
From S2P Require Import Statistic.

Module Ledger.
Import Delegations VestingSchedule Statistic.

(** ** Definitions *)

(** The reasons of the events, [fmt.Sprintf("%d-...", type, ...)]. *)
Definition reason2 (t : RelayAccountEventType) (x : string) : string :=
  format_Z (RelayAccountEventType_code t) +:+ "-" +:+ x.
Definition reason3 (t : RelayAccountEventType) (x y : string) : string :=
  format_Z (RelayAccountEventType_code t) +:+ "-" +:+ x +:+ "-" +:+ y.

(** [big.Int.Div]: Euclidean division, a run-time panic on a zero divisor. *)
Definition big_div (x y : Z) : result Z :=
  if y =? 0 then Err (ErrPanic "division by zero") else Ok ((x - x mod Z.abs y) / y).

(** An event row as it is inserted: pending, without a MAC. *)
Definition new_event (id : Z) (createdAt : Time) (t : RelayAccountEventType) (reason address : string)
    (amount : Z) : RelayAccountEvent :=
  mkRelayAccountEvent id createdAt address amount RelayAccountEventStatusPending reason t "".

(** The insertion of an event: the reason column has a unique index. *)
Definition insert_event (e : RelayAccountEvent) (d : DB) : result (Z * DB) :=
  if exists_where (λ x, String.eqb (e_Reason x) (e_Reason e)) (db_events d) then Err ErrDuplicatedKey
  else
    let id := next_id e_ID (db_events d) in
    Ok (id, d <| db_events := db_events d ++ [e <| e_ID := id |>] |>).

(** One [INSERT] of several rows: all or none. *)
Fixpoint insert_events (es : list RelayAccountEvent) (d : DB) : result (unit * DB) :=
  match es with
  | [] => Ok (tt, d)
  | e :: es' =>
      match insert_event e d with
      | Ok (_, d') => insert_events es' d'
      | Err err => Err err
      end
  end.

(** The commit functions: [balance.Add] on a cached balance, and [balance.Sub]
    after the balance has been compared again. *)
Definition credit (address : string) (amount : Z) : M unit :=
  cache_write (λ c, c <| c_accounts := alter (λ b, b + amount) address (c_accounts c) |>).

Definition debit (address : string) (amount : Z) : M unit :=
  balance ← cache_read (λ c, default 0 (c_accounts c !! address));
  if balance <? amount then fail ErrInsufficientRelayAccount
  else cache_write (λ c, c <| c_accounts := alter (λ b, b - amount) address (c_accounts c) |>).

(** The effect of an event on its account: payments and withdrawals are taken
    out, everything else is added (src/service/relay_account.go 546-551). *)
Definition signed (e : RelayAccountEvent) : Z :=
  match e_Type e with
  | RelayAccountEventTypeTaskPayment | RelayAccountEventTypeWithdraw => - e_Amount e
  | _ => e_Amount e
  end.

Section ledger.
Context {E : Env}.

(** [getRelayAccountFromCache], src/service/relay_account.go 771-796: an address
    that is not cached gets the balance of its row, or zero. *)
Definition getRelayAccountFromCache (address : string) : M Z :=
  cached ← cache_read (λ c, c_accounts c !! address);
  match cached with
  | Some balance => mret balance
  | None =>
      balance ← db_read (λ d, default 0 (db_accounts d !! address));
      cache_write (λ c, c <| c_accounts := <[address := balance]> (c_accounts c) |>);;
      mret balance
  end.

(** [createRelayAccountEventWithID], src/service/relay_account.go 798-813 *)
Definition createRelayAccountEventWithID (eventType : RelayAccountEventType) (reason address : string)
    (amount : Z) : M Z :=
  createdAt ← now;
  db_exec (insert_event (new_event 0 createdAt eventType reason address amount)).

(** [createRelayAccountEvent], src/service/relay_account.go 815-818 *)
Definition createRelayAccountEvent (eventType : RelayAccountEventType) (reason address : string)
    (amount : Z) : M unit :=
  _ ← createRelayAccountEventWithID eventType reason address amount; mret tt.

(** [createRelayAccountEvents], src/service/relay_account.go 820-824 *)
Definition createRelayAccountEvents (events : list RelayAccountEvent) : M unit :=
  db_exec (insert_events events).

(** [depositRelayAccount], src/service/relay_account.go 826-866 *)
Definition depositRelayAccount (txHash address : string) (amount : Z) (network : string) : M (M unit) :=
  transaction (
    let reason := reason3 RelayAccountEventTypeDeposit txHash network in
    createdEventID ← createRelayAccountEventWithID RelayAccountEventTypeDeposit reason address amount;
    db_write (λ d, d <| db_deposits := db_deposits d ++
      [mkDepositRecord (next_id dr_ID (db_deposits d)) address amount network txHash createdEventID
         DepositLocalStatusPending] |>));;
  _ ← getRelayAccountFromCache address;
  mret (credit address amount).

(** [chargeTaskFromRelayAccount], src/service/relay_account.go 868-890 *)
Definition chargeTaskFromRelayAccount (taskIDCommitment address : string) (amount : Z) : M (M unit) :=
  balance ← getRelayAccountFromCache address;
  if balance <? amount then fail ErrInsufficientRelayAccount
  else
    createRelayAccountEvent RelayAccountEventTypeTaskPayment
      (reason2 RelayAccountEventTypeTaskPayment taskIDCommitment) address amount;;
    mret (debit address amount).

(** [refundTaskPaymentToRelayAccount], src/service/relay_account.go 892-908 *)
Definition refundTaskPaymentToRelayAccount (taskIDCommitment address : string) (amount : Z) : M (M unit) :=
  createRelayAccountEvent RelayAccountEventTypeTaskRefund
    (reason2 RelayAccountEventTypeTaskRefund taskIDCommitment) address amount;;
  _ ← getRelayAccountFromCache address;
  mret (credit address amount).

(** [chargeWithdrawFromRelayAccount], src/service/relay_account.go 1020-1051 *)
Definition chargeWithdrawFromRelayAccount (withdrawID : Z) (address : string) (amount : Z)
    : M (Z * M unit) :=
  balance ← getRelayAccountFromCache address;
  if balance <? amount then fail ErrInsufficientRelayAccount
  else
    eventID ← createRelayAccountEventWithID RelayAccountEventTypeWithdraw
      (reason2 RelayAccountEventTypeWithdraw (format_Z withdrawID)) address amount;
    mret (eventID, debit address amount).

(** [fulfillWithdrawFeeIncome], src/service/relay_account.go 1053-1069 *)
Definition fulfillWithdrawFeeIncome (withdrawID : Z) (feeAddress : string) (fee : Z) : M (M unit) :=
  createRelayAccountEvent RelayAccountEventTypeWithdrawFeeIncome
    (reason2 RelayAccountEventTypeWithdrawFeeIncome (format_Z withdrawID)) feeAddress fee;;
  _ ← getRelayAccountFromCache feeAddress;
  mret (credit feeAddress fee).

(** [rejectWithdrawToRelayAccount], src/service/relay_account.go 1071-1087 *)
Definition rejectWithdrawToRelayAccount (withdrawID : Z) (address : string) (amount : Z) : M (M unit) :=
  createRelayAccountEvent RelayAccountEventTypeWithdrawRefund
    (reason2 RelayAccountEventTypeWithdrawRefund (format_Z withdrawID)) address amount;;
  _ ← getRelayAccountFromCache address;
  mret (credit address amount).

(** [createVestingCreatedRelayAccountEvent], src/service/relay_account.go 1089-1092 *)
Definition createVestingCreatedRelayAccountEvent (record : VestingRecord) : M unit :=
  createRelayAccountEvent RelayAccountEventTypeVestingCreated
    (BuildVestingCreatedReason (v_ID record)) (v_Address record) 0.

(** [releaseVestingToRelayAccount], src/service/relay_account.go 1094-1129 *)
Definition releaseVestingToRelayAccount (vestingID : Z) (address : string) (fromReleased toReleased : Z)
    : M (M unit) :=
  if toReleased <? fromReleased then fail (ErrMsg "invalid release range")
  else
    let releaseAmount := toReleased - fromReleased in
    if releaseAmount <=? 0 then fail (ErrMsg "release amount must be positive")
    else
      let reason := BuildVestingReleaseReason vestingID fromReleased toReleased in
      existingEventCount ← db_read (λ d, count_where (λ e, String.eqb (e_Reason e) reason) (db_events d));
      if 0 <? existingEventCount then fail ErrVestingReleaseRangeInvalid
      else
        createRelayAccountEvent RelayAccountEventTypeVestingRelease reason address releaseAmount;;
        _ ← getRelayAccountFromCache address;
        mret (credit address releaseAmount).

(** [GetCachedRelayAccountBalance], src/service/relay_account.go 1135-1146 *)
Definition GetCachedRelayAccountBalance (address : string) : M Z :=
  cache_read (λ c, default 0 (c_accounts c !! address)).

(** *** Task income *)

(** The income split, src/service/relay_account.go 911-942: the share of the
    DAO, the operator's income, the total for the delegators, and the fee of
    each delegator (the first one visited also gets what the divisions leave). *)
Definition delegatorFees (totalDelegatorFee : Z) (userStakings : list (string * Z))
    : result (list (string * Z)) :=
  let totalUserStakeAmount := sumZ snd userStakings in
  if totalUserStakeAmount =? 0 then Err (ErrPanic "division by zero")
  else
    let fee s := (totalDelegatorFee * s - (totalDelegatorFee * s) mod Z.abs totalUserStakeAmount)
                   / totalUserStakeAmount in
    let fees := map (λ us, (fst us, fee (snd us))) userStakings in
    let dispatchedDelegatorFee := sumZ snd fees in
    match fees with
    | (a, f) :: rest => Ok ((a, f + (totalDelegatorFee - dispatchedDelegatorFee)) :: rest)
    | [] => Ok []
    end.

(** [GetDelegationsOfNode], src/service/user_staking.go 223-225, on the caches *)
Definition GetDelegationsOfNode (address network : string) : M (gmap string Z) :=
  g ← cache_read (λ c, c_delegations c !! network);
  match g with
  | Some c => mret (getDelegationsOfNode c address)
  | None => fail (ErrPanic "nil delegation cache")
  end.

(** [GetDelegatorShare], src/service/delegator_share.go 63-65, on the caches *)
Definition GetDelegatorShare (address network : string) : M Z :=
  cache_read (λ c, share_get (c_shares c) address network).

(** [sendTaskIncome], src/service/relay_account.go 911-954: the amounts *)
Definition splitTaskIncome (address : string) (amount : Z) (network : string)
    : M (Z * Z * Z * list (string * Z)) :=
  let daoTaskShare := amount * Dao_TaskFeeSharePercent env_cfg / 100 in
  let nodeIncomeBeforeDelegation := amount - daoTaskShare in
  delegatorShare ← GetDelegatorShare address network;
  if negb (0 <? delegatorShare) then mret (daoTaskShare, nodeIncomeBeforeDelegation, 0, [])
  else
    userStakings ← GetDelegationsOfNode address network;
    if bool_decide (userStakings = ∅) then mret (daoTaskShare, nodeIncomeBeforeDelegation, 0, [])
    else
      let totalDelegatorFee := nodeIncomeBeforeDelegation * delegatorShare / 100 in
      visited ← shuffle (map_to_list userStakings);
      fees ← lift (delegatorFees totalDelegatorFee visited);
      mret (daoTaskShare, nodeIncomeBeforeDelegation - totalDelegatorFee, totalDelegatorFee, fees).

(** [sendTaskIncome], src/service/relay_account.go 943-972: the events, before
    they get their creation times *)
Definition incomeEvents (taskIDCommitment address : string) (daoTaskShare nodeIncome : Z)
    (fees : list (string * Z)) : list RelayAccountEvent :=
  map (λ uf, new_event 0 0 RelayAccountEventTypeUserDelegation
               (reason3 RelayAccountEventTypeUserDelegation taskIDCommitment (fst uf))
               (fst uf) (snd uf)) fees ++
  [new_event 0 0 RelayAccountEventTypeTaskIncome
     (reason2 RelayAccountEventTypeTaskIncome taskIDCommitment) address nodeIncome;
   new_event 0 0 RelayAccountEventTypeDaoTaskShare
     (reason2 RelayAccountEventTypeDaoTaskShare taskIDCommitment)
     (Dao_TaskFeeShareAddress env_cfg) daoTaskShare].

(** [CreatedAt: time.Now()] of each event. *)
Definition stamp (event : RelayAccountEvent) : M RelayAccountEvent :=
  createdAt ← now; mret (event <| e_CreatedAt := createdAt |>).

(** The statistics of one event, src/service/relay_account.go 982-991 *)
Definition addEventEarnings (address network : string) (event : RelayAccountEvent) : M unit :=
  if bool_decide (e_Type event = RelayAccountEventTypeUserDelegation) then
    addUserStakingEarning (e_Address event) address network (e_Amount event);;
    addUserEarning (e_Address event) (e_Amount event)
  else mret tt.

(** [sendTaskIncome], src/service/relay_account.go 910-1018 *)
Definition sendTaskIncome (taskIDCommitment address : string) (amount : Z) (taskType : TaskType)
    (network : string) : M (M unit) :=
  split ← splitTaskIncome address amount network;
  let '(daoTaskShare, nodeIncome, totalDelegatorFee, fees) := split in
  events ← map_m stamp (incomeEvents taskIDCommitment address daoTaskShare nodeIncome fees);
  let incentive := WeiToEther_float nodeIncome in
  transaction (
    createRelayAccountEvents events;;
    addNodeEarning address nodeIncome totalDelegatorFee;;
    for_each events (addEventEarnings address network);;
    addNodeIncentive address incentive taskType);;
  _ ← map_m (λ event, getRelayAccountFromCache (e_Address event)) events;
  mret (for_each events (λ event, credit (e_Address event) (e_Amount event))).
End ledger.

End Ledger.
