(* ===== verification/LedgerCoherence.v ===== *)
(** * Relay accounts: the cache follows the ledger

    The abstract contract of the relay accounts: the balance of an address is
    the balance of its row plus everything that is still pending in the event
    table ([ledger]).  The cached balance is what the services compare against
    and print.  [coherent] says that it is the abstract balance; the theorems
    show that every ledger operation, with its commit function inside the
    caller's transaction, keeps this and changes the abstract balances by
    exactly what it announces.

    The proofs follow the structure of the code: a service first creates events
    ([books], the cache lags behind by what is booked), then does work that does
    not touch the ledger ([ledger_same]), then runs the commit functions
    ([credits], [debit]). *)

From S2P Require Import Prelude Models Config Delegation VestingSchedule MaxStaking Store.
From S2P Require Import Statistic Ledger.

Module LedgerCoherence.
Import Delegations VestingSchedule Statistic Ledger.

(** ** The abstract balance *)

Definition bal (d : DB) (a : string) : Z := default 0 (db_accounts d !! a).

Definition pending_of (a : string) (e : RelayAccountEvent) : Z :=
  if bool_decide (e_Status e = RelayAccountEventStatusPending) && String.eqb (e_Address e) a
  then signed e else 0.

Definition pending_sum (d : DB) (a : string) : Z := sumZ (pending_of a) (db_events d).

Definition ledger (d : DB) (a : string) : Z := bal d a + pending_sum d a.

Definition accounts (w : World) : gmap string Z := c_accounts (w_cache w).

(** Nothing that would move the balance of the address is pending. *)
Definition quiet (d : DB) (a : string) : Prop := ∀ e, e ∈ db_events d → pending_of a e = 0.

(** A cached balance is the abstract balance; an address without a cached
    balance has nothing pending. *)
Definition coherent (w : World) : Prop :=
  ∀ a, match accounts w !! a with
       | Some b => b = ledger (w_db w) a
       | None => quiet (w_db w) a
       end.

Lemma quiet_sum d a : quiet d a → pending_sum d a = 0.
Proof. intros Hq. by apply sumZ_zero. Qed.

(** ** Relations between worlds *)

(** The ledger tables and the cached balances are the same. *)
Definition ledger_same (w w' : World) : Prop :=
  db_accounts (w_db w') = db_accounts (w_db w) ∧ db_events (w_db w') = db_events (w_db w) ∧
  accounts w' = accounts w.

(** The account table is the same, and the cache has at most gained balances
    loaded from it. *)
Definition loads (w w' : World) : Prop :=
  db_accounts (w_db w') = db_accounts (w_db w) ∧
  ∀ a, accounts w' !! a = accounts w !! a ∨
       (accounts w !! a = None ∧ accounts w' !! a = Some (bal (w_db w) a)).

#[export] Instance ledger_same_rel : WorldRel ledger_same.
Proof.
  split; unfold ledger_same, accounts; [done| |done|naive_solver].
  intros w1 w2 w3 (-> & -> & ->) (-> & -> & ->). done.
Qed.

#[export] Instance loads_rel : WorldRel loads.
Proof.
  split; unfold loads, accounts; [by auto| |by auto|naive_solver].
  intros w1 w2 w3 [Ha H12] [Hb H23]. split; [congruence|]. intros a.
  destruct (H12 a) as [E12|[N12 E12]], (H23 a) as [E23|[N23 E23]].
  - left. congruence.
  - right. unfold bal in *. rewrite Ha in E23. split; congruence.
  - right. split; congruence.
  - congruence.
Qed.

Lemma ledger_same_loads w w' : ledger_same w w' → loads w w'.
Proof. intros (? & ? & Hc). split; [done|]. intros a. left. by rewrite Hc. Qed.

(** [owes w0 δ w]: since [w0] the cache has only been loaded, and the amounts
    [δ] have been booked, for cached addresses. *)
Definition owes (w0 : World) (δ : string → Z) (w : World) : Prop :=
  loads w0 w ∧
  ∀ a, pending_sum (w_db w) a = pending_sum (w_db w0) a + δ a ∧
       (accounts w !! a = None → quiet (w_db w0) a → quiet (w_db w) a).

Lemma owes_start w : owes w (λ _, 0) w.
Proof. split; [apply wr_refl|]. intros a. split; [lia|done]. Qed.

Lemma owes_same w0 δ w w' : ledger_same w w' → owes w0 δ w → owes w0 δ w'.
Proof.
  intros Hs [Hl Hp]. split; [eapply wr_trans; [done|by apply ledger_same_loads]|].
  destruct Hs as (_ & He & Hc). intros a. unfold pending_sum, quiet. rewrite He, Hc. apply Hp.
Qed.

Lemma is_Some_loads w w' a : loads w w' → is_Some (accounts w !! a) → is_Some (accounts w' !! a).
Proof. intros [_ Hl] Hs. destruct (Hl a) as [->|[Hn _]]; [done|]. rewrite Hn in Hs. by destruct Hs. Qed.

Lemma owes_trans w0 δ w δ' w' :
  owes w0 δ w → owes w δ' w' → owes w0 (λ a, δ a + δ' a) w'.
Proof.
  intros [Hl Hp] [Hl' Hp']. split; [by eapply wr_trans|]. intros a.
  destruct (Hp a) as [Ha Hc], (Hp' a) as [Ha' Hc']. split; [lia|]. intros Hn Hq.
  apply Hc'; [done|]. apply Hc; [|done]. destruct Hl' as [_ Hl'].
  destruct (Hl' a) as [Heq|[? Heq]]; congruence.
Qed.

(** Cached balances moved by what is owed make the cache coherent again. *)
Lemma owes_settle w0 δ w w' :
  coherent w0 → owes w0 δ w → w_db w' = w_db w →
  (∀ a, accounts w' !! a = (λ b, b + δ a) <$> accounts w !! a) → coherent w'.
Proof.
  intros Hc [[Ha Hl] Hp] Hd Hcell a. rewrite Hcell. specialize (Hc a).
  destruct (Hp a) as [Hpa Hca]. unfold ledger, bal in *. rewrite Hd, Ha, Hpa.
  destruct (Hl a) as [Heq|[Hn Hs]].
  - rewrite Heq in *. destruct (accounts w0 !! a) as [b|] eqn:Eb; simpl; [lia|]. auto.
  - rewrite Hs. rewrite Hn in Hc. apply quiet_sum in Hc. simpl. lia.
Qed.

Lemma loads_coherent w0 w w' :
  coherent w0 → loads w0 w → w_db w' = w_db w0 → accounts w' = accounts w → coherent w'.
Proof.
  intros Hc [Ha Hl] Hd Hcell a. rewrite Hcell, Hd. specialize (Hc a).
  destruct (Hl a) as [->|[Hn ->]]; [done|]. rewrite Hn in Hc.
  apply quiet_sum in Hc. unfold ledger. lia.
Qed.

Section coherence.
Context {E : Env}.

(** ** Booking *)

(** [books m R]: whatever happens, [m] changes the cache only by loading; when it
    returns [a] it has booked some [δ] with [R a δ]. *)
Definition books {A} (m : M A) (R : A → (string → Z) → Prop) : Prop :=
  ∀ w, wp m (λ r w', loads w w' ∧
               match r with Ok a => ∃ δ, R a δ ∧ owes w δ w' | Err _ => True end) w.

(** Nothing is booked. *)
Definition none {A} (_ : A) (δ : string → Z) : Prop := δ = λ _, 0.

Lemma books_same {A} (m : M A) : frames ledger_same m → books m none.
Proof.
  intros Hm w. eapply wp_mono; [apply Hm|]. intros r w' Hs. split; [by apply ledger_same_loads|].
  destruct r; [|done]. eexists. split; [done|]. eapply owes_same; [exact Hs|apply owes_start].
Qed.

Lemma books_bind {A B} (m : M A) (k : A → M B) R1 (R2 : A → (string → Z) → B → (string → Z) → Prop)
    (R : B → (string → Z) → Prop) :
  books m R1 → (∀ a δ, R1 a δ → books (k a) (R2 a δ)) →
  (∀ a δ b δ', R1 a δ → R2 a δ b δ' → R b (λ x, δ x + δ' x)) →
  books (m ≫= k) R.
Proof.
  intros Hm Hk HR w. apply wp_bind. eapply wp_mono; [apply Hm|].
  intros [a|e] w1 [Hl Ho]; [|by split]. destruct Ho as (δ & Hδ & Ho).
  eapply wp_mono; [by eapply Hk|].
  intros r w2 [Hl2 Ho2]. split; [by eapply wr_trans|]. destruct r as [b|]; [|done].
  destruct Ho2 as (δ' & Hδ' & Ho2). eexists. split; [by eapply HR|by eapply owes_trans].
Qed.

(** A transaction keeps what its body books, or nothing. *)
Lemma books_transaction {A} (m : M A) R : books m R → books (transaction m) R.
Proof.
  intros Hm w. apply wp_transaction; [split; [apply wr_tick; apply _|done]|].
  eapply wp_mono; [apply Hm|]. intros r w1 [Hl Ho].
  assert (Hrb : loads w (mkWorld (w_db w) (w_cache w1) (S (w_step w1)) (w_depth w))).
  { apply wr_rollback; [exact Hl|lia]. }
  destruct r as [a|]; [|by split]. split; [by split|]. split; [exact Hl|exact Ho].
Qed.

(** [getRelayAccountFromCache] leaves the address cached. *)
Lemma wp_getRelayAccountFromCache address (Q : result Z → World → Prop) w :
  (∀ e w', loads w w' → w_db w' = w_db w → Q (Err e) w') →
  (∀ b w', loads w w' → w_db w' = w_db w → accounts w' !! address = Some b → Q (Ok b) w') →
  wp (getRelayAccountFromCache address) Q w.
Proof.
  intros He Ho. unfold getRelayAccountFromCache. wp_step. wp_step.
  destruct (c_accounts (w_cache w) !! address) as [b|] eqn:Eb.
  { wp_step. apply Ho; [apply wr_refl|done|done]. }
  wp_step. wp_step; [by apply He; [apply wr_tick; apply _|]|].
  wp_step. wp_step. wp_step. apply Ho; [|done|apply lookup_insert_eq].
  split; [done|]. intros a. unfold accounts. simpl.
  destruct (decide (a = address)) as [->|]; [right|left; by apply lookup_insert_ne].
  by rewrite lookup_insert_eq.
Qed.

(** ** Commit functions *)

(** A commit function moves the cached balances by [δ], or fails and moves
    nothing; [credits] never fails. *)
Definition commit_of (c : M unit) (δ : string → Z) : Prop :=
  ∀ w, wp c (λ r w', w_db w' = w_db w ∧
    match r with
    | Ok _ => ∀ a, accounts w' !! a = (λ b, b + δ a) <$> accounts w !! a
    | Err _ => accounts w' = accounts w
    end) w.

Definition credits (c : M unit) (δ : string → Z) : Prop :=
  ∀ w, wp c (λ r w', r = Ok tt ∧ w_db w' = w_db w ∧
    ∀ a, accounts w' !! a = (λ b, b + δ a) <$> accounts w !! a) w.

Lemma credits_commit c δ : credits c δ → commit_of c δ.
Proof. intros Hc w. eapply wp_mono; [apply Hc|]. by intros r w' (-> & ? & ?). Qed.

Lemma credits_seq c1 c2 δ1 δ2 :
  credits c1 δ1 → credits c2 δ2 → credits (c1;; c2) (λ a, δ1 a + δ2 a).
Proof.
  intros H1 H2 w. apply wp_bind. eapply wp_mono; [apply H1|]. intros r w1 (-> & Hd & Hc).
  eapply wp_mono; [apply H2|]. intros r w2 (-> & Hd' & Hc'). split_and!; [done|congruence|].
  intros a. rewrite Hc', Hc. destruct (accounts w !! a); simpl; [|done]. f_equal. lia.
Qed.

Lemma credits_ret : credits (mret tt) (λ _, 0).
Proof.
  intros w. apply wp_ret. split_and!; [done|done|]. intros a.
  destruct (accounts w !! a); simpl; [|done]. f_equal. lia.
Qed.

(** [entry a x]: the change [x] at [a] and nothing elsewhere. *)
Definition entry (a : string) (x : Z) : string → Z := λ b, if String.eqb a b then x else 0.

Lemma alter_entry (m : gmap string Z) (f : Z → Z) a x b :
  (∀ v, f v = v + x) → alter f a m !! b = (λ v, v + entry a x b) <$> m !! b.
Proof.
  intros Hf. unfold entry. destruct (String.eqb_spec a b) as [->|].
  - rewrite lookup_alter_eq. by destruct (m !! b); simpl; rewrite ?Hf.
  - rewrite lookup_alter_ne by done. destruct (m !! b); simpl; [|done]. f_equal. lia.
Qed.

Lemma credit_credits address amount : credits (credit address amount) (entry address amount).
Proof. intros w. split_and!; [done|done|]. intros a. by apply alter_entry. Qed.

Lemma debit_commit address amount : commit_of (debit address amount) (entry address (- amount)).
Proof.
  intros w. unfold debit. wp_step. wp_step. case_bool; [by wp_step|].
  wp_step. split; [done|]. intros a. apply alter_entry. lia.
Qed.

(** ** Creating events *)

Lemma pending_sum_snoc d e a :
  pending_sum (d <| db_events := db_events d ++ [e] |>) a = pending_sum d a + pending_of a e.
Proof. unfold pending_sum. simpl. rewrite sumZ_app. simpl. lia. Qed.

Lemma wp_createRelayAccountEventWithID ty reason address amount (Q : result Z → World → Prop) w :
  (∀ e w', ledger_same w w' → w_db w' = w_db w → Q (Err e) w') →
  (∀ id t w', accounts w' = accounts w →
     (∀ x, x ∈ db_events (w_db w) → e_Reason x ≠ reason) →
     w_db w' = (w_db w) <| db_events := db_events (w_db w) ++
                  [new_event id t ty reason address amount] |> → Q (Ok id) w') →
  wp (createRelayAccountEventWithID ty reason address amount) Q w.
Proof.
  intros He Ho. unfold createRelayAccountEventWithID. wp_step. wp_step. wp_step; [by apply He|].
  unfold insert_event. destruct (exists_where _ _) eqn:Ee; [by apply He|].
  eapply Ho; [done| |done]. intros x Hx. rewrite exists_where_false in Ee.
  specialize (Ee x Hx). by simplify_bool.
Qed.

(** The result of an operation is a commit function for exactly what the
    operation books: [entry address amount]. *)
Definition books_entry (address : string) (x : Z) (c : M unit) (δ : string → Z) : Prop :=
  δ = entry address x ∧ commit_of c δ.

(** [posts m l δ]: [m] leaves the cached balances and the account table alone, and
    when it succeeds [δ] is pending in addition, at addresses of [l]. *)
Definition unmoved (w w' : World) : Prop :=
  db_accounts (w_db w') = db_accounts (w_db w) ∧ accounts w' = accounts w.

#[export] Instance unmoved_rel : WorldRel unmoved.
Proof.
  split; unfold unmoved, accounts; [done| |done|naive_solver].
  intros w1 w2 w3 [-> ->] [-> ->]. done.
Qed.

Definition posts {A} (m : M A) (l : list string) (δ : string → Z) : Prop :=
  ∀ w, wp m (λ r w', unmoved w w' ∧
    (is_ok r = true → ∀ a, pending_sum (w_db w') a = pending_sum (w_db w) a + δ a ∧
                           (a ∉ l → quiet (w_db w) a → quiet (w_db w') a))) w.

Lemma posts_same {A} (m : M A) : frames ledger_same m → posts m [] (λ _, 0).
Proof.
  intros Hm w. eapply wp_mono; [apply Hm|]. intros r w' (Ha & He & Hc). split; [done|].
  intros _ a. unfold pending_sum, quiet. rewrite He. split; [lia|done].
Qed.


(** Work that does not touch the ledger. *)
Lemma posts_then {A B} (m : M A) (k : A → M B) l δ :
  posts m l δ → (∀ a, frames ledger_same (k a)) → posts (m ≫= k) l δ.
Proof.
  intros Hm Hk w. apply wp_bind. eapply wp_mono; [apply Hm|].
  intros [a|e] w1 [Hu H1]; [|by split]. eapply wp_mono; [apply Hk|].
  intros r w2 (Ha & He & Hc). split; [eapply wr_trans; [exact Hu|by split]|].
  intros _ x. unfold pending_sum, quiet in *. rewrite He. by apply H1.
Qed.

Lemma posts_transaction {A} (m : M A) l δ : posts m l δ → posts (transaction m) l δ.
Proof.
  intros Hm w. apply wp_transaction; [split; [apply wr_tick; apply _|done]|].
  eapply wp_mono; [apply Hm|]. intros r w1 [Hu Hp]. destruct r as [a|]; simpl in *.
  - split; [|by split]. intros _ _. split; [by destruct Hu|done].
  - split; [by destruct Hu|done].
Qed.

Lemma posts_create ty reason address amount :
  posts (createRelayAccountEventWithID ty reason address amount) [address]
        (entry address (signed (new_event 0 0 ty reason address amount))).
Proof.
  intros w. apply wp_createRelayAccountEventWithID.
  - intros e w' (? & ? & ?) _. by split.
  - intros id t w' Hc _ Hd. split; [split; [by rewrite Hd|done]|]. intros _ a.
    rewrite Hd, pending_sum_snoc. split; [done|]. intros Hn Hq e He. simpl in He.
    apply elem_of_app in He as [He| ->%list_elem_of_singleton]; [by apply Hq|].
    unfold pending_of. simpl. destruct (String.eqb_spec address a); [set_solver|done].
Qed.

Lemma posts_createRelayAccountEvent ty reason address amount :
  posts (createRelayAccountEvent ty reason address amount) [address]
        (entry address (signed (new_event 0 0 ty reason address amount))).
Proof. apply posts_then; [apply posts_create|]. intros. frame_tac. Qed.

Lemma unmoved_loads w w' : unmoved w w' → loads w w'.
Proof. intros [? Hc]. split; [done|]. intros a. left. by rewrite Hc. Qed.

(** What was posted and whose addresses are then loaded is owed. *)
Lemma posted_owes w w1 w2 (l : list string) δ :
  unmoved w w1 →
  (∀ a, pending_sum (w_db w1) a = pending_sum (w_db w) a + δ a ∧
        (a ∉ l → quiet (w_db w) a → quiet (w_db w1) a)) →
  loads w1 w2 → w_db w2 = w_db w1 → (∀ a, a ∈ l → is_Some (accounts w2 !! a)) → owes w δ w2.
Proof.
  intros Hu Hp Hl Hd Hs. split; [eapply wr_trans; [by apply unmoved_loads|done]|].
  intros a. rewrite Hd. destruct (Hp a) as [Hpa Hq]. split; [done|]. intros Hn. apply Hq.
  intros Ha. destruct (Hs a Ha) as [? ?]. congruence.
Qed.

(** The common shape of the crediting operations: post the event, load the
    balance, return the commit function. *)
Definition books_exactly (address : string) (x : Z) (c : M unit) (δ : string → Z) : Prop :=
  c = credit address x ∧ δ = entry address x.

Lemma books_post_exactly {A} (m : M A) address x :
  posts m [address] (entry address x) →
  books (m;; _ ← getRelayAccountFromCache address; mret (credit address x)) (books_exactly address x).
Proof.
  intros Hm w. wp_step. eapply wp_mono; [apply Hm|]. intros [r|e] w1 [Hu Hp].
  2: { split; [by apply unmoved_loads|done]. }
  wp_step. apply wp_getRelayAccountFromCache.
  { intros. split; [eapply wr_trans; [by apply unmoved_loads|done]|done]. }
  intros b w2 Hl Hd Hb. wp_step. split; [eapply wr_trans; [by apply unmoved_loads|done]|].
  eexists. split; [split; [done|done]|].
  eapply posted_owes; eauto. intros a ->%list_elem_of_singleton. eauto.
Qed.

Lemma books_weaken {A} (m : M A) (R R' : A → (string → Z) → Prop) :
  books m R → (∀ a δ, R a δ → R' a δ) → books m R'.
Proof.
  intros Hm HR w. eapply wp_mono; [apply Hm|]. intros [a|e] w' [Hl Ho]; (split; [done|]); [|done].
  destruct Ho as (δ & ? & ?). eauto.
Qed.

Lemma books_post_credit {A} (m : M A) address x :
  posts m [address] (entry address x) →
  books (m;; _ ← getRelayAccountFromCache address; mret (credit address x)) (books_entry address x).
Proof.
  intros Hm. eapply books_weaken; [by apply books_post_exactly|]. intros c δ [-> ->].
  split; [done|]. apply credits_commit, credit_credits.
Qed.

(** Posting for an address that is already cached. *)
Lemma wp_posts_cached {A} (m : M A) address x (Q : result A → World → Prop) w0 w :
  posts m [address] (entry address x) → loads w0 w → w_db w = w_db w0 → is_Some (accounts w !! address) →
  (∀ e w', loads w0 w' → Q (Err e) w') →
  (∀ a w', loads w0 w' → owes w0 (entry address x) w' → Q (Ok a) w') →
  wp m Q w.
Proof.
  intros Hm Hl Hd Hs He Ho. eapply wp_mono; [apply Hm|]. intros r w' [Hu Hp].
  assert (Hl' : loads w0 w') by (eapply wr_trans; [done|by apply unmoved_loads]).
  destruct r as [a|e]; [|by apply He]. apply Ho; [done|]. split; [done|].
  intros b. rewrite <- Hd. destruct (Hp eq_refl b) as [Hpb Hq]. split; [done|].
  intros Hn. apply Hq. intros ->%list_elem_of_singleton. destruct Hu as [_ Hc].
  rewrite Hc in Hn. destruct Hs as [? Hs]. congruence.
Qed.

(** ** The operations of the ledger *)

Lemma books_refundTaskPayment taskIDCommitment address amount :
  books (refundTaskPaymentToRelayAccount taskIDCommitment address amount) (books_entry address amount).
Proof. apply books_post_credit. apply (posts_createRelayAccountEvent RelayAccountEventTypeTaskRefund). Qed.

Lemma books_refund_credits taskIDCommitment address amount :
  books (refundTaskPaymentToRelayAccount taskIDCommitment address amount) credits.
Proof.
  eapply books_weaken; [apply books_post_exactly, (posts_createRelayAccountEvent RelayAccountEventTypeTaskRefund)|].
  intros c δ [-> ->]. apply credit_credits.
Qed.

Lemma books_fulfillWithdrawFeeIncome withdrawID feeAddress fee :
  books (fulfillWithdrawFeeIncome withdrawID feeAddress fee) (books_entry feeAddress fee).
Proof. apply books_post_credit. apply (posts_createRelayAccountEvent RelayAccountEventTypeWithdrawFeeIncome). Qed.

Lemma books_rejectWithdraw withdrawID address amount :
  books (rejectWithdrawToRelayAccount withdrawID address amount) (books_entry address amount).
Proof. apply books_post_credit. apply (posts_createRelayAccountEvent RelayAccountEventTypeWithdrawRefund). Qed.

Lemma books_deposit txHash address amount network :
  books (depositRelayAccount txHash address amount network) (books_entry address amount).
Proof.
  apply books_post_credit, posts_transaction. apply posts_then.
  - apply (posts_create RelayAccountEventTypeDeposit).
  - intros id. apply frames_db_write; [apply _|]. by intros w.
Qed.

Lemma books_fail {A} e R : books (fail e : M A) R.
Proof. intros w. split; [apply wr_refl|done]. Qed.

Lemma books_releaseVesting vestingID address fromReleased toReleased :
  books (releaseVestingToRelayAccount vestingID address fromReleased toReleased)
        (books_entry address (toReleased - fromReleased)).
Proof.
  unfold releaseVestingToRelayAccount. case_bool; [apply books_fail|]. case_bool; [apply books_fail|].
  eapply (books_bind _ _ none (λ _ _, books_entry address (toReleased - fromReleased))).
  - apply books_same. frame_tac.
  - intros n δ Hδ. case_bool; [apply books_fail|]. apply books_post_credit.
    apply (posts_createRelayAccountEvent RelayAccountEventTypeVestingRelease).
  - intros n δ c δ' -> [-> Hc]. split; [done|]. done.
Qed.

Lemma books_chargeTask taskIDCommitment address amount :
  books (chargeTaskFromRelayAccount taskIDCommitment address amount) (books_entry address (- amount)).
Proof.
  intros w. unfold chargeTaskFromRelayAccount. wp_step.
  apply wp_getRelayAccountFromCache; [done|]. intros b w1 Hl Hd Hb.
  case_bool; [by wp_step|]. wp_step.
  eapply (wp_posts_cached _ address (- amount)); eauto.
  - apply (posts_createRelayAccountEvent RelayAccountEventTypeTaskPayment).
  - intros [] w2 Hl2 Ho2. wp_step. split; [done|]. eexists. split; [|exact Ho2].
    split; [done|apply debit_commit].
Qed.

(** Charging a withdrawal returns the event together with the commit
    function. *)
Lemma books_chargeWithdraw withdrawID address amount :
  books (chargeWithdrawFromRelayAccount withdrawID address amount)
        (λ r, books_entry address (- amount) (snd r)).
Proof.
  intros w. unfold chargeWithdrawFromRelayAccount. wp_step.
  apply wp_getRelayAccountFromCache; [done|]. intros b w1 Hl Hd Hb.
  case_bool; [by wp_step|]. wp_step.
  eapply (wp_posts_cached _ address (- amount)); eauto.
  - apply (posts_create RelayAccountEventTypeWithdraw).
  - intros id w2 Hl2 Ho2. wp_step. split; [done|]. eexists. split; [|exact Ho2].
    split; [done|apply debit_commit].
Qed.

(** *** Task income *)

Lemma ledger_same_stats w w' : stats_only w w' → ledger_same w w'.
Proof.
  intros [Hc (ne & us & ue & ni & Hd)]. unfold ledger_same, accounts. by rewrite Hc, Hd.
Qed.

Lemma frames_stats {A} (m : M A) : frames stats_only m → frames ledger_same m.
Proof. intros Hm. eapply frames_weaken; [exact Hm|apply ledger_same_stats]. Qed.

#[local] Hint Resolve frames_stats : relay.

(** The amounts an income pays: each event credits its address. *)
Definition credited (events : list RelayAccountEvent) : string → Z :=
  λ a, sumZ (λ e, entry (e_Address e) (e_Amount e) a) events.

(** Pending events that credit their accounts. *)
Definition crediting (e : RelayAccountEvent) : Prop :=
  e_Status e = RelayAccountEventStatusPending ∧ signed e = e_Amount e.

Lemma credits_for_each events :
  credits (for_each events (λ e, credit (e_Address e) (e_Amount e))) (credited events).
Proof.
  induction events as [|e es IH]; [apply credits_ret|].
  apply (credits_seq _ _ _ _ (credit_credits _ _) IH).
Qed.

Lemma posts_createRelayAccountEvents events :
  Forall crediting events →
  posts (createRelayAccountEvents events) (map e_Address events) (credited events).
Proof.
  intros Hev w. apply wp_db_exec; [split; [apply wr_tick; apply _|done]|].
  assert (Hi : ∀ d, match insert_events events d with
    | Ok (_, d') => db_accounts d' = db_accounts d ∧
                    ∀ a, pending_sum d' a = pending_sum d a + credited events a ∧
                         (a ∉ map e_Address events → quiet d a → quiet d' a)
    | Err _ => True end).
  { induction Hev as [|e es [Hst Hsg] _ IH]; intros d; simpl.
    { split; [done|]. intros a. unfold credited. simpl. split; [lia|done]. }
    unfold insert_event. case_bool; [done|].
    specialize (IH (d <| db_events := db_events d ++ [e <| e_ID := next_id e_ID (db_events d) |>] |>)).
    destruct (insert_events es _) as [[[] d']|]; [|done]. destruct IH as [Ha Hp].
    split; [by rewrite Ha|]. intros a. destruct (Hp a) as [-> Hq]. rewrite pending_sum_snoc. split.
    - unfold credited, pending_of, entry, signed in *. simpl. rewrite Hst, Hsg. simpl. case_bool; lia.
    - intros Hn Hqd. apply Hq; [set_solver|]. intros x Hx. simpl in Hx.
      apply elem_of_app in Hx as [Hx| ->%list_elem_of_singleton]; [by apply Hqd|].
      unfold pending_of. simpl. destruct (String.eqb_spec (e_Address e) a); [set_solver|].
      by rewrite andb_false_r. }
  specialize (Hi (w_db w)). destruct (insert_events events (w_db w)) as [[[] d']|].
  - destruct Hi as [Ha Hp]. split; [by split|]. intros _ a. apply Hp.
  - split; [apply wr_tick; apply _|done].
Qed.

(** All the balances of a list of addresses are loaded. *)
Lemma wp_load_all (l : list RelayAccountEvent) (Q : result (list Z) → World → Prop) w :
  (∀ e w', loads w w' → Q (Err e) w') →
  (∀ bs w', loads w w' → w_db w' = w_db w →
     (∀ e, e ∈ l → is_Some (accounts w' !! e_Address e)) → Q (Ok bs) w') →
  wp (map_m (λ e, getRelayAccountFromCache (e_Address e)) l) Q w.
Proof.
  revert Q w. induction l as [|e l IH]; intros Q w He Ho; simpl.
  { wp_step. apply Ho; [apply wr_refl|done|set_solver]. }
  wp_step. apply wp_getRelayAccountFromCache; [auto|]. intros b w1 Hl1 Hd1 Hb. wp_step.
  apply IH; [intros e' w2 Hl2; apply He; by eapply wr_trans|].
  intros bs w2 Hl2 Hd2 Hall. wp_step. apply Ho; [by eapply wr_trans|congruence|].
  intros e' [->|?]%elem_of_cons; [|auto]. eapply is_Some_loads; eauto.
Qed.

(** Stamping changes only the creation times. *)
Lemma wp_stamp_all (events : list RelayAccountEvent) (Q : result (list RelayAccountEvent) → World → Prop) w :
  (∀ events' w', ledger_same w w' →
     Forall2 (λ e e', ∃ t, e' = e <| e_CreatedAt := t |>) events events' → Q (Ok events') w') →
  wp (map_m stamp events) Q w.
Proof.
  revert Q w. induction events as [|e es IH]; intros Q w Ho; simpl.
  { wp_step. apply Ho; [apply wr_refl|constructor]. }
  wp_step. unfold stamp at 1. wp_step. wp_step. wp_step. wp_step. apply IH. intros es' w' Hs HF.
  wp_step. apply Ho; [exact Hs|]. constructor; [by eexists|done].
Qed.

(** The split of an income: it is shared out completely. *)
Lemma delegatorFees_sum total stakings fees :
  delegatorFees total stakings = Ok fees → fees ≠ [] → sumZ snd fees = total.
Proof.
  unfold delegatorFees. case_bool; [done|]. destruct stakings as [|[a s] rest]; simpl; [by intros [= <-]|].
  intros [= <-] _. simpl. lia.
Qed.

Lemma delegatorFees_cons total stakings fees :
  delegatorFees total stakings = Ok fees → length fees = length stakings.
Proof.
  unfold delegatorFees. case_bool; [done|]. destruct stakings as [|[a s] rest]; simpl; intros [= <-]; [done|].
  simpl. by rewrite length_map.
Qed.

Lemma wp_splitTaskIncome address amount network (Q : result (Z * Z * Z * list (string * Z)) → World → Prop) w :
  (∀ e w', ledger_same w w' → Q (Err e) w') →
  (∀ dao node total fees w', ledger_same w w' →
     dao + node + total = amount → sumZ snd fees = total → Q (Ok (dao, node, total, fees)) w') →
  wp (splitTaskIncome address amount network) Q w.
Proof.
  intros He Ho. unfold splitTaskIncome, GetDelegatorShare. wp_step. wp_step. case_bool.
  { wp_step. apply Ho; [apply wr_refl|lia|done]. }
  wp_step. unfold GetDelegationsOfNode. wp_step. wp_step.
  destruct (c_delegations (w_cache w) !! network) as [c|]; [|apply He, wr_refl].
  wp_step. case_bool.
  { wp_step. apply Ho; [apply wr_refl|lia|done]. }
  wp_step. apply wp_shuffle. intros l' Hl'. wp_step. wp_step.
  destruct (delegatorFees _ _) as [fees|e] eqn:Ef; [|by apply He].
  wp_step. apply Ho; [done|lia|]. eapply delegatorFees_sum; [exact Ef|]. intros ->.
  apply delegatorFees_cons in Ef. simpl in Ef. destruct l'; [|done].
  apply Permutation_nil_l in Hl'. symmetry in Hl'.
  by apply map_to_list_empty_iff in Hl'.
Qed.

Lemma incomeEvents_amount taskIDCommitment address dao node fees :
  sumZ e_Amount (incomeEvents taskIDCommitment address dao node fees) = sumZ snd fees + node + dao.
Proof.
  unfold incomeEvents. rewrite sumZ_app, sumZ_map, (sumZ_ext _ snd) by done. simpl. lia.
Qed.

Lemma incomeEvents_crediting taskIDCommitment address dao node fees :
  Forall crediting (incomeEvents taskIDCommitment address dao node fees).
Proof.
  apply Forall_app. split; [|by repeat constructor].
  apply List.Forall_map, Forall_forall. by intros.
Qed.

(** The commit function of an income pays [amount] in total, in the credited
    amounts of some events. *)
Definition books_income (amount : Z) (c : M unit) (δ : string → Z) : Prop :=
  credits c δ ∧ ∃ events, δ = credited events ∧ sumZ e_Amount events = amount.

Lemma books_sendTaskIncome taskIDCommitment address amount taskType network :
  books (sendTaskIncome taskIDCommitment address amount taskType network) (books_income amount).
Proof.
  intros w. unfold sendTaskIncome. wp_step.
  apply wp_splitTaskIncome; [intros; split; [by apply ledger_same_loads|done]|].
  intros dao node total fees w1 Hs1 Hsum Hfees. wp_step.
  apply wp_stamp_all. intros events w2 Hs2 HF.
  assert (Hcr : Forall crediting events ∧ sumZ e_Amount events = amount).
  { pose proof (incomeEvents_amount taskIDCommitment address dao node fees) as Ha.
    pose proof (incomeEvents_crediting taskIDCommitment address dao node fees) as Hc.
    assert (amount = sumZ e_Amount (incomeEvents taskIDCommitment address dao node fees)) as -> by lia.
    clear - HF Hc. induction HF as [|e e' es es' [t ->] _ IH]; [done|].
    apply Forall_cons in Hc as [? ?]. destruct IH as [? ?]; [done|].
    split; [by constructor|]. simpl. lia. }
  destruct Hcr as [Hcr Hamt].
  assert (Hs : ledger_same w w2) by by eapply wr_trans.
  wp_step. eapply wp_mono; [eapply posts_transaction, posts_then; [by apply posts_createRelayAccountEvents|]|].
  { intros []. unfold addEventEarnings. frame_tac. }
  intros r w3 [Hu Hp].
  assert (Hl3 : loads w w3).
  { eapply wr_trans; [by apply ledger_same_loads|by apply unmoved_loads]. }
  destruct r as [[]|]; [|by split]. wp_step.
  apply wp_load_all; [intros; split; [by eapply wr_trans|done]|].
  intros bs w4 Hl4 Hd4 Hall. wp_step. split; [by eapply wr_trans|].
  eexists. split; [split; [apply credits_for_each|by eexists]|].
  assert (Ho : owes w2 (credited events) w4).
  { eapply posted_owes; eauto. intros a (e & He & ->)%elem_of_map_iff. by apply Hall. }
  pose proof (owes_same w (λ _, 0) w w2 Hs (owes_start w)) as H0.
  apply (owes_trans _ _ _ _ _ H0 Ho).
Qed.

(** ** Framing services that run commit functions

    The commit function a service binds is known from what it booked. *)

Lemma frames_bind_books {A B} P `{!WorldRel P} (m : M A) (k : A → M B) R :
  frames P m → books m R → (∀ a δ, R a δ → frames P (k a)) → frames P (m ≫= k).
Proof.
  intros Hm Hb Hk w. apply wp_bind.
  assert (H : wp m (λ r w', P w w' ∧ match r with Ok a => ∃ δ, R a δ | Err _ => True end) w).
  { pose proof (Hm w) as H1. pose proof (Hb w) as H2. unfold wp in *. split; [done|].
    destruct (fst (m w)) as [a|]; [|done]. destruct H2 as [_ (δ & Hδ & _)]. eauto. }
  eapply wp_mono; [exact H|]. intros [a|e] w1 [H1 H2]; [|done]. destruct H2 as [δ Hδ].
  eapply wp_mono; [by apply (Hk a δ)|]. intros r w2 H3. by eapply wr_trans.
Qed.

(** A relation that only looks at the database does not see commit functions. *)
Class DbRel (P : World → World → Prop) := db_rel : ∀ w w', w_db w' = w_db w → P w w'.

Lemma frames_commit P `{!DbRel P} c δ : commit_of c δ → frames P c.
Proof. intros Hc w. eapply wp_mono; [apply Hc|]. intros r w' [Hd _]. by apply db_rel. Qed.

Lemma frames_cache_db P `{!DbRel P} f : frames P (cache_write f).
Proof. intros w. by apply wp_cache_write, db_rel. Qed.

#[export] Instance keeps_db_rel {A} (f : DB → A) : DbRel (keeps f).
Proof. intros w w' Hd. unfold keeps. by rewrite Hd. Qed.

(** A commit function that a booking returns is run later. *)
Lemma frames_bind_commit {A} P `{!WorldRel P} (m : M (M unit)) (k : M unit → M A) :
  frames P m → books m commit_of → (∀ c δ, commit_of c δ → frames P (k c)) → frames P (m ≫= k).
Proof.
  intros Hm Hb Hk w. wp_step. specialize (Hm w). specialize (Hb w). unfold wp in *.
  destruct (m w) as [[c|e] w1]; simpl in *; [|done]. destruct Hb as (_ & δ & Hc & _).
  specialize (Hk c δ Hc w1). eapply wr_trans; [exact Hm|exact Hk].
Qed.

(** ** Settling

    [body_ok δ m]: run when [δ] is owed, [m] either finishes with a coherent
    cache, or fails having done nothing to it but load. *)
Definition body_ok {A} (δ : string → Z) (m : M A) : Prop :=
  ∀ w0 w, coherent w0 → owes w0 δ w →
    wp m (λ r w', match r with Ok _ => coherent w' | Err _ => loads w0 w' end) w.

Lemma body_ok_same {A B} δ (m : M A) (k : A → M B) :
  frames ledger_same m → (∀ a, body_ok δ (k a)) → body_ok δ (m ≫= k).
Proof.
  intros Hm Hk w0 w Hc Ho. apply wp_bind. eapply wp_mono; [apply Hm|].
  intros r w1 Hs. destruct r as [a|].
  - apply Hk; [done|]. by eapply owes_same.
  - destruct Ho as [Hl _]. eapply wr_trans; [done|by apply ledger_same_loads].
Qed.

Lemma body_ok_books {A B} δ (m : M A) (k : A → M B) R :
  books m R → (∀ a δ', R a δ' → body_ok (λ x, δ x + δ' x) (k a)) → body_ok δ (m ≫= k).
Proof.
  intros Hm Hk w0 w Hc Ho. apply wp_bind. eapply wp_mono; [apply Hm|].
  intros [a|e] w1 [Hl H1].
  - destruct H1 as (δ' & HR & Ho'). eapply Hk; [done|done|by eapply owes_trans].
  - destruct Ho as [Hl0 _]. by eapply wr_trans.
Qed.

Lemma body_ok_commit δ c : commit_of c δ → body_ok δ c.
Proof.
  intros Hc w0 w Hco Ho. eapply wp_mono; [apply Hc|]. intros [a|e] w1 [Hd H1].
  - by eapply owes_settle.
  - destruct Ho as [[Ha Hl] _]. split; [by rewrite Hd|]. by rewrite H1.
Qed.

Lemma body_ok_commit_ret {A} δ c (a : A) : commit_of c δ → body_ok δ (c;; mret a).
Proof.
  intros Hc w0 w Hco Ho. apply wp_bind. eapply wp_mono; [by eapply body_ok_commit|].
  intros [[]|e] w1 H1; [by apply wp_ret|done].
Qed.

Lemma body_ok_fail {A} δ e : body_ok δ (fail e : M A).
Proof. intros w0 w Hc [Hl _]. by apply wp_fail. Qed.

Lemma body_ok_ext {A} δ δ' (m : M A) : (∀ a, δ a = δ' a) → body_ok δ m → body_ok δ' m.
Proof.
  intros He Hb w0 w Hc [Hl Ho]. apply Hb; [done|]. split; [done|]. intros a. rewrite He. apply Ho.
Qed.

Lemma body_ok_ret {A} (a : A) : body_ok (λ _, 0) (mret a).
Proof.
  intros w0 w Hc Ho. apply wp_ret. eapply owes_settle; [exact Hc|exact Ho|done|].
  intros x. destruct (accounts w !! x); simpl; [|done]. f_equal. lia.
Qed.

(** Work outside the ledger at the end of a body. *)
Lemma body_ok_frame {A} (m : M A) : frames ledger_same m → body_ok (λ _, 0) m.
Proof.
  intros Hm w0 w Hc Ho. eapply wp_mono; [apply Hm|]. intros [a|e] w1 Hs.
  - apply (body_ok_ret a w0 w1 Hc). by eapply owes_same.
  - destruct Ho as [Hl _]. eapply wr_trans; [done|by apply ledger_same_loads].
Qed.

Lemma commit_ext c δ δ' : (∀ a, δ a = δ' a) → commit_of c δ → commit_of c δ'.
Proof.
  intros He Hc w. eapply wp_mono; [apply Hc|]. intros [[]|e] w' [Hd H]; split; [done| |done|done].
  intros a. by rewrite H, He.
Qed.

(** An operation settles when it takes coherent worlds to coherent worlds,
    whether it succeeds or fails. *)
Definition settles {A} (m : M A) : Prop :=
  ∀ w, coherent w → wp m (λ _ w', coherent w') w.

(** A transaction with such a body settles, provided that commits do not fail:
    a failed body is undone in the database and has changed no balance. *)
Lemma settles_transaction {A} (m : M A) :
  (∀ n, env_commit_fault n = false) → body_ok (λ _, 0) m → settles (transaction m).
Proof.
  intros Hnf Hb w Hc. apply wp_transaction; [exact Hc|].
  eapply wp_mono; [eapply (Hb w); [done|]|].
  - split; [apply wr_steps; lia|]. intros a. split; [simpl; lia|done].
  - intros [a|e] w1 H1.
    + split; [|exact H1]. intros _ Hf. by rewrite Hnf in Hf.
    + eapply loads_coherent; [exact Hc|exact H1|done|done].
Qed.
End coherence.

End LedgerCoherence.
