(* ===== verification/LedgerSync.v ===== *)
(** * Relay accounts: applying pending events

    The synchroniser takes pending events in batches, checks each against the
    record it was created for (the task, the withdrawal, the vesting, the
    deposit transaction on chain) and against the balance of its account, marks
    the ones that fail as invalid and applies the others to the account table
    (src/service/relay_account.go 62-769). *)

From S2P Require Import Prelude Models Config Delegation VestingSchedule Mac MaxStaking.
From S2P Require Import Store Statistic Ledger LedgerCoherence.

Module LedgerSync.
Import VestingSchedule Mac Ledger LedgerCoherence.

(** ** Definitions *)

(** [splitRelayAccountEventReason], src/service/relay_account.go 62-83 *)
Definition splitRelayAccountEventReason (eventType : RelayAccountEventType) (reason : string)
    : option (list string) :=
  let eventTypeStr := format_Z (RelayAccountEventType_code eventType) in
  let n :=
    match eventType with
    | RelayAccountEventTypeDeposit | RelayAccountEventTypeUserDelegation => 3%nat
    | RelayAccountEventTypeVestingRelease => 4%nat
    | _ => 2%nat
    end in
  let parts := SplitN dash reason n in
  if negb (Nat.eqb (length parts) n) || negb (String.eqb (nth 0 parts "") eventTypeStr) then None
  else Some parts.

(** What the first pass over the events collects. *)
Record Sorted := mkSorted {
  s_invalid : list RelayAccountEvent;
  s_candidates : list RelayAccountEvent;
  s_taskIDs : gset string;
  s_withdrawIDs : gset Z;
  s_vestingIDs : gset Z;
  s_balanceAddresses : gset string;
  s_deposits : gmap Z (string * string);
  s_created : gmap Z Z;
  s_released : gmap Z (Z * Z)
}.

#[export] Instance eta_Sorted : Eta Sorted := λ r,
  mkSorted (s_invalid r) (s_candidates r) (s_taskIDs r) (s_withdrawIDs r) (s_vestingIDs r)
    (s_balanceAddresses r) (s_deposits r) (s_created r) (s_released r).

Definition sorted0 : Sorted := mkSorted [] [] ∅ ∅ ∅ ∅ ∅ ∅ ∅.

Definition reject (s : Sorted) (event : RelayAccountEvent) : Sorted :=
  s <| s_invalid := s_invalid s ++ [event] |>.
Definition keep (s : Sorted) (event : RelayAccountEvent) : Sorted :=
  s <| s_candidates := s_candidates s ++ [event] |>.

(** [validatePendingRelayAccountEvents], src/service/relay_account.go 165-223:
    one turn of the first loop *)
Definition sortEvent (s : Sorted) (event : RelayAccountEvent) : Sorted :=
  match splitRelayAccountEventReason (e_Type event) (e_Reason event) with
  | None => reject s event
  | Some reasons =>
      let r1 := nth 1 reasons "" in
      let r2 := nth 2 reasons "" in
      let r3 := nth 3 reasons "" in
      match e_Type event with
      | RelayAccountEventTypeDeposit =>
          keep (s <| s_deposits := <[e_ID event := (r1, r2)]> (s_deposits s) |>) event
      | RelayAccountEventTypeTaskPayment =>
          keep (s <| s_taskIDs := {[r1]} ∪ s_taskIDs s |>
                  <| s_balanceAddresses := {[e_Address event]} ∪ s_balanceAddresses s |>) event
      | RelayAccountEventTypeTaskIncome | RelayAccountEventTypeDaoTaskShare
      | RelayAccountEventTypeTaskRefund | RelayAccountEventTypeUserDelegation =>
          keep (s <| s_taskIDs := {[r1]} ∪ s_taskIDs s |>) event
      | RelayAccountEventTypeWithdraw =>
          match ParseUint r1 with
          | None => reject s event
          | Some withdrawID =>
              keep (s <| s_withdrawIDs := {[withdrawID]} ∪ s_withdrawIDs s |>
                      <| s_balanceAddresses := {[e_Address event]} ∪ s_balanceAddresses s |>) event
          end
      | RelayAccountEventTypeWithdrawRefund | RelayAccountEventTypeWithdrawFeeIncome =>
          match ParseUint r1 with
          | None => reject s event
          | Some withdrawID => keep (s <| s_withdrawIDs := {[withdrawID]} ∪ s_withdrawIDs s |>) event
          end
      | RelayAccountEventTypeVestingCreated =>
          match ParseVestingCreatedReason (e_Reason event) with
          | None => reject s event
          | Some vestingID =>
              keep (s <| s_vestingIDs := {[vestingID]} ∪ s_vestingIDs s |>
                      <| s_created := <[e_ID event := vestingID]> (s_created s) |>) event
          end
      | RelayAccountEventTypeVestingRelease =>
          match ParseUint r1, SetString r2, SetString r3 with
          | Some vestingID, Some fromReleased, Some toReleased =>
              keep (s <| s_vestingIDs := {[vestingID]} ∪ s_vestingIDs s |>
                      <| s_released := <[e_ID event := (fromReleased, toReleased)]> (s_released s) |>) event
          | _, _, _ => reject s event
          end
      end
  end.

Definition sortEvents (events : list RelayAccountEvent) : Sorted := foldl sortEvent sorted0 events.

(** What the events are checked against. *)
Record Evidence := mkEvidence {
  ev_tasks : gmap string InferenceTask;
  ev_withdraws : gmap Z WithdrawRecord;
  ev_vestings : gmap Z VestingRecord;
  ev_deposits : gmap string (string * Z);
  ev_created : gmap Z Z;
  ev_released : gmap Z (Z * Z)
}.

(** [relayBalanceMap]: only the accounts that are charged in the batch are
    followed. *)
Definition credit_balance (balances : gmap string Z) (address : string) (amount : Z) : gmap string Z :=
  alter (λ b, b + amount) address balances.

(** A charge of a followed account: refused when the balance is too small. *)
Definition charge_balance (balances : gmap string Z) (address : string) (amount : Z)
    : option (gmap string Z) :=
  match balances !! address with
  | Some balance => if balance <? amount then None else Some (<[address := balance - amount]> balances)
  | None => Some balances
  end.

(** The statuses of a task that pays its node. *)
Definition income_status (task : InferenceTask) : bool :=
  bool_decide (t_Status task = TaskEndSuccess) || bool_decide (t_Status task = TaskEndGroupSuccess) ||
  bool_decide (t_Status task = TaskEndGroupRefund) ||
  (bool_decide (t_Status task = TaskEndAborted) &&
   bool_decide (t_AbortReason task = TaskAbortCreatorValidationTimeout)).

(** The statuses of a task whose payment is given back. *)
Definition refund_status (task : InferenceTask) : bool :=
  bool_decide (t_Status task = TaskEndGroupRefund) ||
  (bool_decide (t_Status task = TaskEndAborted) &&
   negb (bool_decide (t_AbortReason task = TaskAbortCreatorValidationTimeout))).

(** [validatePendingRelayAccountEvents], src/service/relay_account.go 359-429:
    the checks of deposits and of the events of tasks *)
Definition judgeTaskEvent (ev : Evidence) (balances : gmap string Z) (event : RelayAccountEvent)
    (reasons : list string) : option (gmap string Z) :=
  let r1 := nth 1 reasons "" in
  let address := e_Address event in
  let amount := e_Amount event in
  match e_Type event with
  | RelayAccountEventTypeDeposit =>
      match ev_deposits ev !! (nth 2 reasons "" +:+ "-" +:+ r1) with
      | Some (fromAddress, txAmount) =>
          if negb (EqualFold fromAddress address) || negb (txAmount =? amount) then None
          else Some (credit_balance balances address amount)
      | None => None
      end
  | RelayAccountEventTypeTaskPayment =>
      match ev_tasks ev !! r1 with
      | Some task =>
          if negb (amount =? t_TaskFee task) then None else charge_balance balances address amount
      | None => None
      end
  | RelayAccountEventTypeTaskIncome | RelayAccountEventTypeDaoTaskShare
  | RelayAccountEventTypeUserDelegation =>
      match ev_tasks ev !! r1 with
      | Some task =>
          if negb (income_status task) then None else Some (credit_balance balances address amount)
      | None => None
      end
  | RelayAccountEventTypeTaskRefund =>
      match ev_tasks ev !! r1 with
      | Some task =>
          if negb (amount =? t_TaskFee task) then None
          else if negb (refund_status task) then None
          else Some (credit_balance balances address amount)
      | None => None
      end
  | _ => None
  end.

(** [validatePendingRelayAccountEvents], src/service/relay_account.go 430-509:
    the checks of the events of withdrawals and vestings *)
Definition judgeRecordEvent (ev : Evidence) (balances : gmap string Z) (event : RelayAccountEvent)
    (reasons : list string) : option (gmap string Z) :=
  let address := e_Address event in
  let amount := e_Amount event in
  let id := default 0 (ParseUint (nth 1 reasons "")) in
  match e_Type event with
  | RelayAccountEventTypeWithdraw =>
      match ev_withdraws ev !! id with
      | Some _ => charge_balance balances address amount
      | None => None
      end
  | RelayAccountEventTypeWithdrawRefund | RelayAccountEventTypeWithdrawFeeIncome =>
      match ev_withdraws ev !! id with
      | Some _ => Some (credit_balance balances address amount)
      | None => None
      end
  | RelayAccountEventTypeVestingCreated =>
      match ev_created ev !! e_ID event with
      | None => None
      | Some vestingID =>
          match ev_vestings ev !! vestingID with
          | Some vesting =>
              if negb (EqualFold (v_Address vesting) address) || negb (amount =? 0) then None
              else Some balances
          | None => None
          end
      end
  | RelayAccountEventTypeVestingRelease =>
      match ev_vestings ev !! id with
      | None => None
      | Some vesting =>
          if negb (EqualFold (v_Address vesting) address) then None
          else match ev_released ev !! e_ID event with
               | None => None
               | Some (fromReleased, toReleased) =>
                   if (fromReleased <? 0) || (toReleased <? 0) then None
                   else if toReleased <? fromReleased then None
                   else if (toReleased - fromReleased <=? 0) || negb (toReleased - fromReleased =? amount)
                   then None
                   else if v_TotalAmount vesting <? toReleased then None
                   else if negb (toReleased =? v_ReleasedAmount vesting) then None
                   else Some (credit_balance balances address amount)
               end
      end
  | _ => None
  end.

(** One turn of the second loop: the balances after a valid event. *)
Definition judgeEvent (ev : Evidence) (balances : gmap string Z) (event : RelayAccountEvent)
    : option (gmap string Z) :=
  match splitRelayAccountEventReason (e_Type event) (e_Reason event) with
  | None => None
  | Some reasons =>
      match e_Type event with
      | RelayAccountEventTypeDeposit | RelayAccountEventTypeTaskPayment
      | RelayAccountEventTypeTaskIncome | RelayAccountEventTypeDaoTaskShare
      | RelayAccountEventTypeUserDelegation | RelayAccountEventTypeTaskRefund =>
          judgeTaskEvent ev balances event reasons
      | _ => judgeRecordEvent ev balances event reasons
      end
  end.

(** The second loop: valid events, invalid events and the final balances. *)
Fixpoint judgeEvents (ev : Evidence) (balances : gmap string Z) (events : list RelayAccountEvent)
    : list RelayAccountEvent * list RelayAccountEvent * gmap string Z :=
  match events with
  | [] => ([], [], balances)
  | event :: events' =>
      match judgeEvent ev balances event with
      | Some balances' =>
          let '(valid, invalid, b) := judgeEvents ev balances' events' in (event :: valid, invalid, b)
      | None =>
          let '(valid, invalid, b) := judgeEvents ev balances events' in (valid, event :: invalid, b)
      end
  end.

(** [isRelayAccountDepositTransfer], src/service/blockchain_processor.go 1150-1155:
    a plain transfer of a positive value to the deposit address *)
Definition isRelayAccountDepositTransfer (transfer : TransactionTransfer) (depositAddress : string) : bool :=
  match tf_To transfer, tf_Value transfer with
  | Some to, Some value =>
      EqualFold to depositAddress && (0 <? value) && bool_decide (tf_Input transfer = [])
  | _, _ => false
  end.

(** The zero address as [Hex] prints it. *)
Definition zeroAddressHex : string := "0x0000000000000000000000000000000000000000".

(** ** What an event and a withdrawal say *)

Record pay_view := mkPayView {
  py_Type : RelayAccountEventType; py_Reason : string; py_Address : string; py_Amount : Z
}.

Definition pay_of (e : RelayAccountEvent) : pay_view :=
  mkPayView (e_Type e) (e_Reason e) (e_Address e) (e_Amount e).

Definition withdraw_data (r : WithdrawRecord) : Z * string * Z * Z * WithdrawStatus :=
  (wr_ID r, wr_Address r, wr_Amount r, wr_WithdrawalFee r, wr_Status r).

Definition sync_only (w w' : World) : Prop :=
  map pay_of (db_events (w_db w')) = map pay_of (db_events (w_db w)) ∧
  map withdraw_data (db_withdraws (w_db w')) = map withdraw_data (db_withdraws (w_db w)) ∧
  (∃ acc ev wd dp, w_db w' = (w_db w) <| db_accounts := acc |> <| db_events := ev |>
     <| db_withdraws := wd |> <| db_deposits := dp |>) ∧
  w_cache w' = w_cache w.

Lemma sync_tables_refl (d : DB) : ∃ acc ev wd dp, d = d <| db_accounts := acc |> <| db_events := ev |>
  <| db_withdraws := wd |> <| db_deposits := dp |>.
Proof. destruct d. do 4 eexists. cbn. reflexivity. Qed.

#[export] Instance sync_only_rel : WorldRel sync_only.
Proof.
  split; unfold sync_only; simpl.
  - intros w. split_and!; [done|done|apply sync_tables_refl|done].
  - intros w1 w2 w3 (H1 & H2 & (? & ? & ? & ? & Hd) & Hc) (H1' & H2' & (? & ? & ? & ? & Hd') & Hc').
    split_and!; [congruence|congruence| |congruence]. rewrite Hd', Hd. do 4 eexists. cbn. reflexivity.
  - intros w s d _. split_and!; [done|done|apply sync_tables_refl|done].
  - intros w w1 s d (_ & _ & _ & ->) _. split_and!; [done|done|apply sync_tables_refl|done].
Qed.

Section sync.
Context {E : Env}.

(** [validateERC20RelayAccountDepositReceipt], src/service/relay_account.go 514-538:
    the first transfer log of the token to the deposit address with a positive
    amount and a sender *)
Fixpoint validateERC20RelayAccountDepositReceipt (logs : list ReceiptLog) (tokenAddress depositAddress : string)
    : option (string * Z) :=
  match logs with
  | [] => None
  | l :: logs' =>
      let next := validateERC20RelayAccountDepositReceipt logs' tokenAddress depositAddress in
      match log_Topics l with
      | [topic0; topic1; topic2] =>
          if negb (String.eqb topic0 env_erc20TransferTopic) ||
             negb (EqualFold (log_Address l) tokenAddress) ||
             negb (String.eqb topic2 (env_addressTopic depositAddress)) ||
             negb (Nat.eqb (length (log_Data l)) 32)
          then next
          else
            let amount := be_number (log_Data l) in
            if amount <=? 0 then next
            else
              let fromAddress := env_topicAddress topic1 in
              if String.eqb fromAddress zeroAddressHex then next else Some (fromAddress, amount)
      | _ => next
      end
  end.

(** [validatePendingRelayAccountEvents], src/service/relay_account.go 306-357:
    one turn of the loop over the deposit transactions *)
Definition checkDeposit (known : gmap string (string * Z)) (depositReason : string * string)
    : M (gmap string (string * Z)) :=
  let '(txHash, network) := depositReason in
  let key := network +:+ "-" +:+ txHash in
  match known !! key with
  | Some _ => mret known
  | None =>
      if negb (env_client network) then fail (ErrMsg "blockchain not found")
      else
        receipt ← ask (λ n, env_receipt n network txHash);
        match receipt with
        | None => mret known
        | Some receipt =>
            if negb (rc_Status receipt =? 1) then mret known
            else
              match GetEffectiveFundingNetwork env_cfg network with
              | None => mret known
              | Some networkConfig =>
                  match fn_TokenType networkConfig with
                  | FundingTokenTypeNative =>
                      transfer ← ask (λ n, env_transfer n network txHash);
                      match transfer with
                      | None => mret known
                      | Some transfer =>
                          if negb (isRelayAccountDepositTransfer transfer (RelayAccount_DepositAddress env_cfg))
                          then mret known
                          else mret (<[key := (tf_From transfer, default 0 (tf_Value transfer))]> known)
                      end
                  | FundingTokenTypeERC20 =>
                      match validateERC20RelayAccountDepositReceipt (rc_Logs receipt)
                              (fn_TokenAddress networkConfig) (RelayAccount_DepositAddress env_cfg) with
                      | None => mret known
                      | Some depositTx => mret (<[key := depositTx]> known)
                      end
                  end
              end
        end
  end.

Fixpoint checkDeposits (known : gmap string (string * Z)) (reasons : list (string * string))
    : M (gmap string (string * Z)) :=
  match reasons with
  | [] => mret known
  | r :: reasons' => known' ← checkDeposit known r; checkDeposits known' reasons'
  end.

(** A query that is only sent when there is something to ask for. *)
Definition db_find {A} (needed : bool) (f : DB → list A) : M (list A) :=
  if needed then db_read f else mret [].

(** [validatePendingRelayAccountEvents], src/service/relay_account.go 225-302:
    the rows the events refer to and the balances of the charged accounts *)
Definition loadEvidence (s : Sorted)
    : M (gmap string InferenceTask * gmap Z WithdrawRecord * gmap Z VestingRecord * gmap string Z) :=
  tasks ← db_find (negb (bool_decide (s_taskIDs s = ∅)))
    (λ d, select_where (λ t, bool_decide (t_TaskIDCommitment t ∈ s_taskIDs s)) (db_tasks d));
  withdrawRecords ← db_find (negb (bool_decide (s_withdrawIDs s = ∅)))
    (λ d, select_where (λ r, bool_decide (wr_ID r ∈ s_withdrawIDs s)) (db_withdraws d));
  vestingRecords ← db_find (negb (bool_decide (s_vestingIDs s = ∅)))
    (λ d, select_where (λ r, bool_decide (v_ID r ∈ s_vestingIDs s)) (db_vestings d));
  relayAccounts ← db_find (negb (bool_decide (s_balanceAddresses s = ∅)))
    (λ d, map_to_list (filter (λ kv, kv.1 ∈ s_balanceAddresses s) (db_accounts d)));
  let relayBalanceMap :=
    list_to_map relayAccounts ∪ gset_to_gmap 0 (s_balanceAddresses s) in
  mret (foldl (λ m t, <[t_TaskIDCommitment t := t]> m) ∅ tasks,
        foldl (λ m r, <[wr_ID r := r]> m) ∅ withdrawRecords,
        foldl (λ m r, <[v_ID r := r]> m) ∅ vestingRecords,
        relayBalanceMap).

(** [validatePendingRelayAccountEvents], src/service/relay_account.go 150-512:
    the valid and the invalid events *)
Definition validatePendingRelayAccountEvents (events : list RelayAccountEvent)
    : M (list RelayAccountEvent * list RelayAccountEvent) :=
  let s := sortEvents events in
  rows ← loadEvidence s;
  let '(taskMap, withdrawMap, vestingMap, relayBalanceMap) := rows in
  validDepositTxs ← checkDeposits ∅ (map snd (map_to_list (s_deposits s)));
  let ev := mkEvidence taskMap withdrawMap vestingMap validDepositTxs (s_created s) (s_released s) in
  let '(validEvents, invalidEvents, _) := judgeEvents ev relayBalanceMap (s_candidates s) in
  mret (validEvents, s_invalid s ++ invalidEvents).

(** [mergeRelayAccountEvents], src/service/relay_account.go 540-554 *)
Definition mergeRelayAccountEvents (events : list RelayAccountEvent) : gmap string Z :=
  foldl (λ merged event,
    let b := default 0 (merged !! e_Address event) in
    <[e_Address event := b + signed event]> merged) ∅ events.

Definition event_ids (events : list RelayAccountEvent) : list Z := map e_ID events.
Definition of_type (t : RelayAccountEventType) (events : list RelayAccountEvent) : list RelayAccountEvent :=
  select_where (λ e, bool_decide (e_Type e = t)) events.
Definition id_in (ids : list Z) (id : Z) : bool := bool_decide (id ∈ ids).

(** [processPendingRelayAccountEvents], src/service/relay_account.go 565-603:
    the invalid events and the withdrawals and deposits they belong to *)
Definition markInvalidEvents (invalidEvents : list RelayAccountEvent) : M unit :=
  if bool_decide (invalidEvents = []) then mret tt
  else
    let invalidIDs := event_ids invalidEvents in
    let invalidWithdrawEventIDs := event_ids (of_type RelayAccountEventTypeWithdraw invalidEvents) in
    let invalidDepositEventIDs := event_ids (of_type RelayAccountEventTypeDeposit invalidEvents) in
    db_write (λ d, d <| db_events := update_where (λ e, id_in invalidIDs (e_ID e))
                          (λ e, e <| e_Status := RelayAccountEventStatusInvalid |>) (db_events d) |>);;
    (if bool_decide (invalidWithdrawEventIDs = []) then mret tt
     else db_write (λ d, d <| db_withdraws := update_where
            (λ r, id_in invalidWithdrawEventIDs (wr_RelayAccountEventID r) &&
                  bool_decide (wr_LocalStatus r = WithdrawLocalStatusPending))
            (λ r, r <| wr_LocalStatus := WithdrawLocalStatusInvalid |>) (db_withdraws d) |>));;
    (if bool_decide (invalidDepositEventIDs = []) then mret tt
     else db_write (λ d, d <| db_deposits := update_where
            (λ r, id_in invalidDepositEventIDs (dr_RelayAccountEventID r) &&
                  bool_decide (dr_LocalStatus r = DepositLocalStatusPending))
            (λ r, r <| dr_LocalStatus := DepositLocalStatusInvalid |>) (db_deposits d) |>)).

(** [processPendingRelayAccountEvents], src/service/relay_account.go 625-665:
    new accounts are inserted, existing ones get the balance read before plus
    the merged change *)
Definition applyMergedAccounts (mergedAccounts : gmap string Z) : M unit :=
  existed ← db_read (λ d, filter (λ kv, is_Some (mergedAccounts !! kv.1)) (db_accounts d));
  let updated := map_imap (λ a b, Some (b + default 0 (mergedAccounts !! a))) existed in
  let newAccounts := filter (λ kv, existed !! kv.1 = None) mergedAccounts in
  (if bool_decide (newAccounts = ∅) then mret tt
   else db_exec (λ d, if bool_decide (map_Forall (λ a _, db_accounts d !! a = None) newAccounts)
                      then Ok (tt, d <| db_accounts := newAccounts ∪ db_accounts d |>)
                      else Err ErrDuplicatedKey));;
  (if bool_decide (existed = ∅) then mret tt
   else db_write (λ d, d <| db_accounts :=
          map_imap (λ a b, Some (default b (updated !! a))) (db_accounts d) |>)).

(** [processPendingRelayAccountEvents], src/service/relay_account.go 667-679: the
    events become processed and get their MAC.  With no valid event the
    statement is [CASE END], which is not SQL: the access fails. *)
Definition markProcessedEvents (validEvents : list RelayAccountEvent) : M unit :=
  if bool_decide (validEvents = []) then fail ErrDatabase
  else db_write (λ d, d <| db_events := update_where
         (λ e, id_in (event_ids validEvents) (e_ID e) &&
               bool_decide (e_Status e = RelayAccountEventStatusPending))
         (λ e, e <| e_MAC := GenerateMAC (match find_first (λ v, e_ID v =? e_ID e) validEvents with
                                          | Some v => e_Reason v | None => "" end) (MAC_SecretKey env_cfg) |>
                 <| e_Status := RelayAccountEventStatusProcessed |>) (db_events d) |>).

(** [processPendingRelayAccountEvents], src/service/relay_account.go 681-717: the
    withdrawals of the processed events become processed and get their MAC *)
Definition markProcessedWithdraws (validEvents : list RelayAccountEvent) : M unit :=
  let withdrawEventIDs := event_ids (of_type RelayAccountEventTypeWithdraw validEvents) in
  if bool_decide (withdrawEventIDs = []) then mret tt
  else
    records ← db_read (λ d, select_where
      (λ r, id_in withdrawEventIDs (wr_RelayAccountEventID r) &&
            bool_decide (wr_LocalStatus r = WithdrawLocalStatusPending)) (db_withdraws d));
    if bool_decide (map wr_ID records = []) then mret tt
    else db_write (λ d, d <| db_withdraws := update_where
           (λ r, id_in (map wr_ID records) (wr_ID r) &&
                 bool_decide (wr_LocalStatus r = WithdrawLocalStatusPending))
           (λ r, r <| wr_MAC := GenerateMAC (match find_first (λ x, wr_ID x =? wr_ID r) records with
                                             | Some x => MACString x | None => "" end) (MAC_SecretKey env_cfg) |>
                   <| wr_LocalStatus := WithdrawLocalStatusProcessed |>) (db_withdraws d) |>).

(** [processPendingRelayAccountEvents], src/service/relay_account.go 719-734 *)
Definition markProcessedDeposits (validEvents : list RelayAccountEvent) : M unit :=
  let depositEventIDs := event_ids (of_type RelayAccountEventTypeDeposit validEvents) in
  if bool_decide (depositEventIDs = []) then mret tt
  else db_write (λ d, d <| db_deposits := update_where
         (λ r, id_in depositEventIDs (dr_RelayAccountEventID r) &&
               bool_decide (dr_LocalStatus r = DepositLocalStatusPending))
         (λ r, r <| dr_LocalStatus := DepositLocalStatusProcessed |>) (db_deposits d) |>).

(** [processPendingRelayAccountEvents], src/service/relay_account.go 556-738 *)
Definition processPendingRelayAccountEvents (events : list RelayAccountEvent) : M unit :=
  verdict ← validatePendingRelayAccountEvents events;
  let '(validEvents, invalidEvents) := verdict in
  markInvalidEvents invalidEvents;;
  let mergedAccounts := mergeRelayAccountEvents validEvents in
  transaction (
    applyMergedAccounts mergedAccounts;;
    markProcessedEvents validEvents;;
    markProcessedWithdraws validEvents;;
    markProcessedDeposits validEvents).

(** [getPendingRelayAccountEvents], src/service/relay_account.go 135-148 *)
Definition getPendingRelayAccountEvents (limit : nat) : M (list RelayAccountEvent) :=
  db_read (λ d, take limit
    (select_where (λ e, bool_decide (e_Status e = RelayAccountEventStatusPending)) (db_events d))).

(** The loop that drains the pending events, src/service/relay_account.go
    104-115 and 746-759: it stops when nothing is pending or on the first error.
    [fuel] bounds the number of batches; the result tells whether the loop ended
    by itself. *)
Fixpoint drain (fuel : nat) : M bool :=
  match fuel with
  | O => mret false
  | S fuel' =>
      events ← getPendingRelayAccountEvents 50;
      if bool_decide (events = []) then mret true
      else processPendingRelayAccountEvents events;; drain fuel'
  end.

(** [InitRelayAccountCache], src/service/relay_account.go 87-117 *)
Definition InitRelayAccountCache (fuel : nat) : M bool :=
  accounts ← db_read db_accounts;
  cache_write (λ c, c <| c_accounts := c_accounts c ∪ accounts |>);;
  drain fuel.

(** ** Every event is judged exactly once *)

Lemma sortEvent_perm s e :
  s_invalid (sortEvent s e) ++ s_candidates (sortEvent s e) ≡ₚ (s_invalid s ++ s_candidates s) ++ [e].
Proof.
  assert (Hrej : s_invalid (reject s e) ++ s_candidates (reject s e) ≡ₚ
                 (s_invalid s ++ s_candidates s) ++ [e]).
  { simpl. solve_Permutation. }
  assert (Hkeep : ∀ s', s_invalid s' = s_invalid s → s_candidates s' = s_candidates s →
    s_invalid (keep s' e) ++ s_candidates (keep s' e) ≡ₚ (s_invalid s ++ s_candidates s) ++ [e]).
  { intros s' H1 H2. simpl. rewrite H1, H2. solve_Permutation. }
  unfold sortEvent. destruct (splitRelayAccountEventReason _ _) as [rs|]; [|done].
  destruct (e_Type e); try by apply Hkeep.
  all: repeat case_match; first [by apply Hkeep|done].
Qed.

Lemma sortEvents_perm events :
  s_invalid (sortEvents events) ++ s_candidates (sortEvents events) ≡ₚ events.
Proof.
  unfold sortEvents. change events with ((s_invalid sorted0 ++ s_candidates sorted0) ++ events) at 3.
  generalize sorted0. induction events as [|e events IH]; intros s; simpl; [by rewrite app_nil_r|].
  rewrite IH, sortEvent_perm. by rewrite <- app_assoc.
Qed.

Lemma judgeEvents_perm ev b events :
  let '(valid, invalid, _) := judgeEvents ev b events in valid ++ invalid ≡ₚ events.
Proof.
  revert b. induction events as [|e events IH]; intros b; simpl; [done|].
  destruct (judgeEvent ev b e) as [b'|].
  - specialize (IH b'). destruct (judgeEvents ev b' events) as [[v i] b'']. simpl. by rewrite IH.
  - specialize (IH b). destruct (judgeEvents ev b events) as [[v i] b'']. rewrite <- IH. solve_Permutation.
Qed.

(** ** Charged accounts are followed and never overdrawn *)

(** The events that take from an account. *)
Definition charging (e : RelayAccountEvent) : bool :=
  bool_decide (e_Type e = RelayAccountEventTypeTaskPayment) ||
  bool_decide (e_Type e = RelayAccountEventTypeWithdraw).

Lemma signed_charging e : signed e = if charging e then - e_Amount e else e_Amount e.
Proof. unfold signed, charging. by destruct (e_Type e). Qed.

Lemma sortEvent_followed s e e' :
  (∀ x, x ∈ s_candidates s → charging x = true → e_Address x ∈ s_balanceAddresses s) →
  e' ∈ s_candidates (sortEvent s e) → charging e' = true →
  e_Address e' ∈ s_balanceAddresses (sortEvent s e).
Proof.
  intros Hs. unfold sortEvent, charging in *.
  destruct (splitRelayAccountEventReason _ _) as [rs|]; [|by apply Hs].
  destruct (e_Type e) eqn:Ht; repeat case_match; simpl; try by apply Hs.
  all: intros [Hin| ->%list_elem_of_singleton]%elem_of_app Hc;
    first [rewrite Ht in Hc; discriminate | specialize (Hs _ Hin Hc); set_solver | set_solver].
Qed.

Lemma sortEvents_followed events e :
  e ∈ s_candidates (sortEvents events) → charging e = true →
  e_Address e ∈ s_balanceAddresses (sortEvents events).
Proof.
  unfold sortEvents.
  assert (H0 : ∀ x, x ∈ s_candidates sorted0 → charging x = true → e_Address x ∈ s_balanceAddresses sorted0)
    by set_solver.
  revert H0. generalize sorted0. induction events as [|e0 events IH]; intros s Hs; simpl; [apply Hs|].
  apply IH. intros. by eapply sortEvent_followed.
Qed.

(** What the events of a list do to an account. *)
Definition change (events : list RelayAccountEvent) (a : string) : Z :=
  sumZ (λ e, if String.eqb (e_Address e) a then signed e else 0) events.

Lemma credit_balance_lookup b address x a :
  credit_balance b address x !! a =
  (λ v, v + (if String.eqb address a then x else 0)) <$> b !! a.
Proof. apply (alter_entry b (λ v, v + x) address x a). done. Qed.

Lemma charge_balance_lookup b address x b' a :
  charge_balance b address x = Some b' →
  b' !! a = (λ v, v - (if String.eqb address a then x else 0)) <$> b !! a ∧
  (∀ v, b !! address = Some v → x ≤ v).
Proof.
  unfold charge_balance. destruct (b !! address) as [v|] eqn:Hv; intros H.
  - destruct (Z.ltb_spec v x); [done|]. simplify_eq. split; [|intros ? [= <-]; lia].
    destruct (String.eqb_spec address a) as [->|]; [by rewrite lookup_insert_eq, Hv|].
    rewrite lookup_insert_ne by done. destruct (b !! a); simpl; [|done]. f_equal. lia.
  - simplify_eq. split; [|done]. destruct (String.eqb_spec address a) as [->|]; [by rewrite Hv|].
    destruct (b' !! a); simpl; [|done]. f_equal. lia.
Qed.

(** A valid event moves a followed balance by its signed amount, and a charge
    is covered by the balance. *)
Lemma judgeEvent_moves ev b e b' a :
  judgeEvent ev b e = Some b' → 0 ≤ e_Amount e →
  b' !! a = (λ v, v + (if String.eqb (e_Address e) a then signed e else 0)) <$> b !! a ∧
  (charging e = true → ∀ v, b !! e_Address e = Some v → e_Amount e ≤ v).
Proof.
  assert (Hcr : ∀ b1, charging e = false → credit_balance b (e_Address e) (e_Amount e) = b1 →
    b1 !! a = (λ v, v + (if String.eqb (e_Address e) a then signed e else 0)) <$> b !! a ∧
    (charging e = true → ∀ v, b !! e_Address e = Some v → e_Amount e ≤ v)).
  { intros b1 Hc <-. rewrite credit_balance_lookup, signed_charging, Hc. by split. }
  assert (Hch : ∀ b1, charging e = true → charge_balance b (e_Address e) (e_Amount e) = Some b1 →
    b1 !! a = (λ v, v + (if String.eqb (e_Address e) a then signed e else 0)) <$> b !! a ∧
    (charging e = true → ∀ v, b !! e_Address e = Some v → e_Amount e ≤ v)).
  { intros b1 Hc H1. destruct (charge_balance_lookup _ _ _ _ a H1) as [-> Hle]. split; [|auto].
    rewrite signed_charging, Hc. destruct (b !! a); simpl; [|done]. f_equal. case_bool; lia. }
  assert (Hz : ∀ b1, e_Amount e = 0 → charging e = false → Some b = Some b1 →
    b1 !! a = (λ v, v + (if String.eqb (e_Address e) a then signed e else 0)) <$> b !! a ∧
    (charging e = true → ∀ v, b !! e_Address e = Some v → e_Amount e ≤ v)).
  { intros b1 H0 Hc [= <-]. rewrite signed_charging, Hc, H0. split; [|done].
    destruct (b !! a); simpl; [|done]. f_equal. case_bool; lia. }
  unfold judgeEvent, judgeTaskEvent, judgeRecordEvent, charging in *.
  intros Hj _. destruct (splitRelayAccountEventReason _ _) as [rs|]; [|done].
  destruct (e_Type e) eqn:Ht; repeat (case_match; try done); simplify_eq.
  all: first [by apply Hcr | by apply Hch | idtac].
  all: try (apply Hz; [|done|done]; simplify_bool; lia).
Qed.

Lemma judgeEvents_balances ev b events valid invalid b' a v :
  judgeEvents ev b events = (valid, invalid, b') →
  Forall (λ e, 0 ≤ e_Amount e) events → b !! a = Some v → 0 ≤ v →
  b' !! a = Some (v + change valid a) ∧ 0 ≤ v + change valid a.
Proof.
  revert b v valid invalid b'. induction events as [|e events IH]; intros b v valid invalid b' Hj Hall Hb Hv.
  { simpl in Hj. simplify_eq. unfold change. simpl. rewrite Z.add_0_r. done. }
  simpl in Hj. apply Forall_cons in Hall as [He Hall].
  destruct (judgeEvent ev b e) as [b1|] eqn:Hje.
  - destruct (judgeEvents ev b1 events) as [[va iv] bb] eqn:Hrec. simplify_eq.
    destruct (judgeEvent_moves _ _ _ _ a Hje He) as [Hb1 Hle]. rewrite Hb in Hb1. simpl in Hb1.
    set (x := if String.eqb (e_Address e) a then signed e else 0) in *.
    assert (Hx : 0 ≤ v + x).
    { unfold x. destruct (String.eqb_spec (e_Address e) a) as [<-|]; [|lia].
      rewrite signed_charging. destruct (charging e); [|lia]. specialize (Hle eq_refl v Hb). lia. }
    destruct (IH b1 (v + x) va invalid b' Hrec Hall Hb1 Hx) as [H1 H2].
    assert (Hch : v + change (e :: va) a = v + x + change va a).
    { unfold change. simpl. unfold x. lia. }
    rewrite Hch. done.
  - destruct (judgeEvents ev b events) as [[va iv] bb] eqn:Hrec. simplify_eq. by eapply IH.
Qed.

(** An account that is not charged in the batch only gains. *)
Lemma change_nonneg events a :
  Forall (λ e, 0 ≤ e_Amount e) events → (∀ e, e ∈ events → e_Address e = a → charging e = false) →
  0 ≤ change events a.
Proof.
  intros Hall Hc. apply sumZ_nonneg. intros e He.
  destruct (String.eqb_spec (e_Address e) a) as [Ha|]; [|lia].
  rewrite signed_charging, (Hc e He Ha). rewrite Forall_forall in Hall. by apply Hall.
Qed.

Lemma mergeRelayAccountEvents_lookup events a :
  mergeRelayAccountEvents events !! a =
  if existsb (λ e, String.eqb (e_Address e) a) events then Some (change events a) else None.
Proof.
  unfold mergeRelayAccountEvents.
  assert (H : ∀ m : gmap string Z, foldl (λ merged event, <[e_Address event :=
      default 0 (merged !! e_Address event) + signed event]> merged) m events !! a =
    if existsb (λ e, String.eqb (e_Address e) a) events
    then Some (default 0 (m !! a) + change events a) else m !! a).
  { induction events as [|e events IH]; intros m; simpl; [done|]. rewrite IH. unfold change. simpl.
    destruct (String.eqb_spec (e_Address e) a) as [<-|]; simpl.
    - rewrite lookup_insert_eq. simpl. case_bool; f_equal; [lia|].
      assert (sumZ (λ x, if String.eqb (e_Address x) (e_Address e) then signed x else 0) events = 0) as ->; [|lia].
      apply sumZ_zero. intros x Hx. case_bool; [|done].
      exfalso. apply not_true_iff_false in Heqb. apply Heqb, existsb_exists.
      exists x. split; [by apply list_elem_of_In|by apply String.eqb_eq].
    - rewrite lookup_insert_ne by done. case_bool; [f_equal; lia|done]. }
  rewrite H. simpl. done.
Qed.

Lemma merged_default events a : default 0 (mergeRelayAccountEvents events !! a) = change events a.
Proof.
  rewrite mergeRelayAccountEvents_lookup. case_bool; [done|]. simpl. symmetry.
  apply sumZ_zero. intros x Hx. case_bool; [|done]. exfalso.
  apply not_true_iff_false in Heqb. apply Heqb, existsb_exists.
  exists x. split; [by apply list_elem_of_In|by apply String.eqb_eq].
Qed.

(** ** The effect of a batch on the account table *)

Lemma wp_applyMergedAccounts merged (Q : result unit → World → Prop) w :
  (∀ e w', w_cache w' = w_cache w → Q (Err e) w') →
  (∀ w', w_cache w' = w_cache w → (∃ acc, w_db w' = (w_db w) <| db_accounts := acc |>) →
     (∀ a, bal (w_db w') a = bal (w_db w) a + default 0 (merged !! a)) → Q (Ok tt) w') →
  wp (applyMergedAccounts merged) Q w.
Proof.
  intros He Ho. unfold applyMergedAccounts. wp_step. wp_step; [by apply He|].
  set (d := w_db w). set (existed := filter _ (db_accounts d)).
  set (updated := map_imap _ existed). set (newAccounts := filter _ merged).
  assert (Hex : ∀ a, existed !! a = match merged !! a with Some _ => db_accounts d !! a | None => None end).
  { intros a. apply option_eq. intros b. unfold existed. rewrite map_lookup_filter_Some. simpl.
    destruct (merged !! a) as [x|]; split; [by intros [? ?]|by eauto| |done].
    intros [_ [? Hx]]. done. }
  assert (Hupd : ∀ a, updated !! a =
    match db_accounts d !! a, merged !! a with Some b, Some x => Some (b + x) | _, _ => None end).
  { intros a. unfold updated. rewrite map_lookup_imap, Hex.
    destruct (merged !! a) as [x|] eqn:Hm, (db_accounts d !! a) as [b|]; simpl; try done; by rewrite Hm. }
  assert (Hnew : ∀ a, newAccounts !! a =
    match db_accounts d !! a, merged !! a with None, Some x => Some x | _, _ => None end).
  { intros a. apply option_eq. intros x. unfold newAccounts. rewrite map_lookup_filter_Some. simpl.
    rewrite Hex. destruct (merged !! a) as [y|], (db_accounts d !! a); naive_solver. }
  assert (Hfin : ∀ (acc : gmap string Z) a,
    acc !! a = match db_accounts d !! a, merged !! a with
               | Some b, x => Some (b + default 0 x) | None, x => x end →
    default 0 (acc !! a) = default 0 (db_accounts d !! a) + default 0 (merged !! a)).
  { intros acc a ->. destruct (db_accounts d !! a), (merged !! a); simpl; lia. }
  assert (Hmid : ∀ w1, w_cache w1 = w_cache w → (∃ acc, w_db w1 = d <| db_accounts := acc |>) →
    (∀ a, db_accounts (w_db w1) !! a = match db_accounts d !! a with Some b => Some b | None => merged !! a end) →
    wp (if bool_decide (existed = ∅) then mret tt
        else db_write (λ d0, d0 <| db_accounts :=
               map_imap (λ a b, Some (default b (updated !! a))) (db_accounts d0) |>)) Q w1).
  { intros w1 Hc [acc Hd1] Hacc. case_bool_decide as Hem.
    - wp_step. apply Ho; [done|by eexists|]. intros a. unfold bal. apply Hfin. rewrite Hacc.
      assert (Hea : existed !! a = None) by (rewrite Hem; apply lookup_empty).
      rewrite Hex in Hea. destruct (db_accounts d !! a) as [b|], (merged !! a) as [x|]; simpl; try done.
      f_equal. lia.
    - wp_step; [by apply He|]. apply Ho; [done|by eexists; simpl; rewrite Hd1|].
      intros a. unfold bal. simpl. apply Hfin. rewrite map_lookup_imap, Hacc, Hupd.
      destruct (db_accounts d !! a) as [b|]; simpl; [destruct (merged !! a); simpl; f_equal; lia|].
      by destruct (merged !! a). }
  wp_step. destruct (bool_decide (newAccounts = ∅)) eqn:Hne; simplify_bool.
  - wp_step. apply Hmid; [done|by exists (db_accounts d); unfold d; simpl; destruct (w_db w)|].
    intros a. simpl. assert (Hna : newAccounts !! a = None) by (rewrite Hne; apply lookup_empty).
    rewrite Hnew in Hna. fold d. destruct (db_accounts d !! a); [done|]. by destruct (merged !! a).
  - wp_step; [by apply He|]. destruct (bool_decide (map_Forall _ _)); [|by apply He].
    apply Hmid; [done|by eexists|]. intros a. simpl. fold d. rewrite lookup_union, Hnew.
    destruct (db_accounts d !! a) as [b|]; simpl; [by destruct (merged !! a)|].
    destruct (merged !! a); done.
Qed.

(** ** Validation reads, and judges every event *)

Lemma reads_checkDeposit known r : frames reads_only (checkDeposit known r).
Proof. unfold checkDeposit. frame_tac. Qed.

Lemma reads_checkDeposits known rs : frames reads_only (checkDeposits known rs).
Proof.
  revert known. induction rs as [|r rs IH]; intros known; simpl; [frame_tac|].
  frame_step; [apply reads_checkDeposit|apply IH].
Qed.

Lemma wp_db_find {A} (needed : bool) (f : DB → list A) (Q : result (list A) → World → Prop) w :
  (∀ e w', reads_only w w' → Q (Err e) w') →
  (∀ w', reads_only w w' → Q (Ok (if needed then f (w_db w) else [])) w') →
  wp (db_find needed f) Q w.
Proof. intros He Ho. unfold db_find. destruct needed; wp_step; [by apply He|by apply Ho|by apply Ho]. Qed.

Lemma wp_loadEvidence s (Q : result (gmap string InferenceTask * gmap Z WithdrawRecord *
    gmap Z VestingRecord * gmap string Z) → World → Prop) w :
  (∀ e w', reads_only w w' → Q (Err e) w') →
  (∀ ts wrs vs b w', reads_only w w' →
     (∀ a, b !! a = if bool_decide (a ∈ s_balanceAddresses s) then Some (bal (w_db w) a) else None) →
     Q (Ok (ts, wrs, vs, b)) w') →
  wp (loadEvidence s) Q w.
Proof.
  intros He Ho. unfold loadEvidence.
  wp_step. apply wp_db_find; [done|]. intros w1 [Hd1 Hc1].
  wp_step. apply wp_db_find; [intros e w' [? ?]; apply He; split; congruence|]. intros w2 [Hd2 Hc2].
  wp_step. apply wp_db_find; [intros e w' [? ?]; apply He; split; congruence|]. intros w3 [Hd3 Hc3].
  wp_step. apply wp_db_find; [intros e w' [? ?]; apply He; split; congruence|]. intros w4 [Hd4 Hc4].
  wp_step. apply Ho; [split; congruence|]. intros a.
  assert (Hd : w_db w3 = w_db w) by congruence. rewrite Hd.
  rewrite lookup_union, lookup_gset_to_gmap.
  destruct (bool_decide (s_balanceAddresses s = ∅)) eqn:Hemp; simpl.
  - simplify_bool. rewrite Hemp, bool_decide_false by set_solver. done.
  - rewrite list_to_map_to_list. unfold bal.
    destruct (bool_decide (a ∈ s_balanceAddresses s)) eqn:Hin; simplify_bool.
    + rewrite option_guard_True by done. simpl.
      destruct (filter _ (db_accounts (w_db w)) !! a) as [v|] eqn:Hf.
      * apply map_lookup_filter_Some in Hf as [-> _]. done.
      * apply map_lookup_filter_None in Hf as [->|Hn]; [done|].
        destruct (db_accounts (w_db w) !! a) as [v|]; [|done]. by destruct (Hn v eq_refl).
    + rewrite (proj2 (map_lookup_filter_None _ _ a)).
      * by rewrite option_guard_False.
      * right. intros v _ Hv. done.
Qed.

(** The balances of the charged accounts cover the valid events. *)
Definition covered (d : DB) (valid : list RelayAccountEvent) : Prop :=
  (∀ a, 0 ≤ bal d a) → ∀ a, 0 ≤ bal d a + change valid a.

Lemma wp_validate events (Q : result (list RelayAccountEvent * list RelayAccountEvent) → World → Prop) w :
  (∀ e w', reads_only w w' → Q (Err e) w') →
  (∀ valid invalid w', reads_only w w' → valid ++ invalid ≡ₚ events →
     (Forall (λ e, 0 ≤ e_Amount e) events → covered (w_db w) valid) → Q (Ok (valid, invalid)) w') →
  wp (validatePendingRelayAccountEvents events) Q w.
Proof.
  intros He Ho. unfold validatePendingRelayAccountEvents. wp_step.
  apply wp_loadEvidence; [done|]. intros ts wrs vs b w1 Hr1 Hb. wp_step.
  eapply wp_mono; [apply reads_checkDeposits|]. intros [known|e] w2 Hr2.
  2: { apply He. by eapply wr_trans. }
  set (ev := mkEvidence _ _ _ _ _ _).
  destruct (judgeEvents ev b (s_candidates (sortEvents events))) as [[valid invalid] b'] eqn:Hj.
  pose proof (judgeEvents_perm ev b (s_candidates (sortEvents events))) as Hp. rewrite Hj in Hp.
  wp_step. apply Ho; [by eapply wr_trans| |].
  - etrans; [|apply sortEvents_perm]. rewrite <- Hp. solve_Permutation.
  - intros Hpos Hbal a.
    assert (Hcand : Forall (λ e, 0 ≤ e_Amount e) (s_candidates (sortEvents events))).
    { eapply Forall_app. eapply Permutation_Forall; [symmetry; apply sortEvents_perm|exact Hpos]. }
    specialize (Hb a). case_bool_decide as Hin.
    + by destruct (judgeEvents_balances _ _ _ _ _ _ a _ Hj Hcand Hb (Hbal a)).
    + assert (0 ≤ change valid a); [|specialize (Hbal a); lia]. apply change_nonneg.
      * rewrite <- Hp in Hcand. by apply Forall_app in Hcand as [? _].
      * intros e Hev <-. apply not_true_iff_false. intros Hc. apply Hin.
        apply sortEvents_followed; [|done]. rewrite <- Hp. set_solver.
Qed.

(** ** The rows of a batch *)

Definition processed_of (a : string) (e : RelayAccountEvent) : Z :=
  if bool_decide (e_Status e = RelayAccountEventStatusProcessed) && String.eqb (e_Address e) a
  then signed e else 0.
Definition processed_sum (d : DB) (a : string) : Z := sumZ (processed_of a) (db_events d).

(** A batch is made of different pending rows, and ids are unique. *)
Definition unique_ids (d : DB) : Prop := NoDup (map e_ID (db_events d)).
Definition batch (d : DB) (events : list RelayAccountEvent) : Prop :=
  NoDup events ∧ ∀ e, e ∈ events → e ∈ db_events d ∧ e_Status e = RelayAccountEventStatusPending.

Lemma same_id rows e e' :
  NoDup (map e_ID rows) → e ∈ rows → e' ∈ rows → e_ID e = e_ID e' → e = e'.
Proof.
  induction rows as [|r rows IH]; simpl; intros Hnd; [set_solver|].
  apply NoDup_cons in Hnd as [Hn Hnd].
  assert (Hno : ∀ x, x ∈ rows → e_ID r ≠ e_ID x).
  { intros x Hx Heq. apply Hn. rewrite Heq. by apply elem_of_map_2. }
  intros [->|He]%elem_of_cons [->|He']%elem_of_cons Heq; [done| | |by apply IH].
  - by destruct (Hno e').
  - by destruct (Hno e).
Qed.

Lemma id_in_batch d events r :
  unique_ids d → batch d events → r ∈ db_events d →
  id_in (event_ids events) (e_ID r) = bool_decide (r ∈ events).
Proof.
  intros Hu [_ Hb] Hr. unfold id_in, event_ids. apply bool_decide_ext. split.
  - intros (e & He & Heq)%elem_of_map_iff. destruct (Hb e He) as [Hin _].
    by rewrite (same_id _ r e Hu Hr Hin Heq).
  - intros He. by apply elem_of_map_2.
Qed.

Lemma sumZ_batch d events (g : RelayAccountEvent → Z) :
  unique_ids d → batch d events →
  sumZ (λ r, if id_in (event_ids events) (e_ID r) then g r else 0) (db_events d) = sumZ g events.
Proof.
  intros Hu Hb.
  assert (Hf : filter (λ r, r ∈ events) (db_events d) ≡ₚ events).
  { apply NoDup_Permutation.
    - apply NoDup_filter. by apply (NoDup_fmap_1 e_ID).
    - apply Hb.
    - intros r. rewrite list_elem_of_filter. split; [by intros [? ?]|].
      intros Hr. split; [done|]. by apply Hb. }
  rewrite <- Hf. rewrite (sumZ_ext _ (λ r, if bool_decide (r ∈ events) then g r else 0)).
  2: { intros r Hr. by rewrite (id_in_batch d). }
  clear Hf. induction (db_events d) as [|r rows IH]; simpl; [done|]. rewrite IH.
  rewrite filter_cons. case_bool_decide; [rewrite decide_True by done|rewrite decide_False by done]; simpl; lia.
Qed.

(** The event rows after a batch: the invalid ones and the valid ones marked. *)
Definition marked_invalid (invalid rows : list RelayAccountEvent) : list RelayAccountEvent :=
  update_where (λ e, id_in (event_ids invalid) (e_ID e))
    (λ e, e <| e_Status := RelayAccountEventStatusInvalid |>) rows.
Definition marked_processed (valid rows : list RelayAccountEvent) : list RelayAccountEvent :=
  update_where (λ e, id_in (event_ids valid) (e_ID e) &&
                     bool_decide (e_Status e = RelayAccountEventStatusPending))
    (λ e, e <| e_MAC := GenerateMAC (match find_first (λ v, e_ID v =? e_ID e) valid with
                                     | Some v => e_Reason v | None => "" end) (MAC_SecretKey env_cfg) |>
            <| e_Status := RelayAccountEventStatusProcessed |>) rows.

Lemma batch_part d events part rest :
  part ++ rest ≡ₚ events → batch d events → batch d part.
Proof.
  intros Hp [Hnd Hb]. rewrite <- Hp in Hnd. apply NoDup_app in Hnd as (Hnd & _ & _).
  split; [done|]. intros e He. apply Hb. rewrite <- Hp. set_solver.
Qed.

Lemma change_pending d events a : batch d events → sumZ (pending_of a) events = change events a.
Proof.
  intros [_ Hb]. apply sumZ_ext. intros e He. destruct (Hb e He) as [_ Hst].
  unfold pending_of. by rewrite Hst.
Qed.

Lemma change_perm es es' a : es ≡ₚ es' → change es a = change es' a.
Proof. intros Hp. unfold change. by rewrite Hp. Qed.

Lemma change_app es es' a : change (es ++ es') a = change es a + change es' a.
Proof. apply sumZ_app. Qed.

Lemma batch_parts d events valid invalid :
  valid ++ invalid ≡ₚ events → batch d events →
  batch d valid ∧ batch d invalid ∧ (∀ e, e ∈ invalid → e ∈ valid → False).
Proof.
  intros Hp Hb. split_and!.
  - by eapply batch_part.
  - eapply (batch_part _ events invalid valid); [rewrite <- Hp; apply Permutation_app_comm|done].
  - destruct Hb as [Hnd _]. rewrite <- Hp in Hnd. apply NoDup_app in Hnd as (_ & Hd & _).
    intros e H1 H2. by apply (Hd e).
Qed.

(** A quantity that a marked row no longer has goes down by what the batch
    had. *)
Lemma marked_drop d events valid invalid (g : RelayAccountEvent → Z) :
  unique_ids d → batch d events → valid ++ invalid ≡ₚ events →
  (∀ r, e_Status r ≠ RelayAccountEventStatusPending → g r = 0) →
  sumZ g (marked_processed valid (marked_invalid invalid (db_events d))) =
  sumZ g (db_events d) - sumZ g events.
Proof.
  intros Hu Hb Hp Hg. destruct (batch_parts d events valid invalid Hp Hb) as (Hv & Hi & Hdisj).
  unfold marked_processed, marked_invalid. rewrite !sumZ_update_where.
  rewrite <- Hp, sumZ_app, <- (sumZ_batch d valid g Hu Hv), <- (sumZ_batch d invalid g Hu Hi).
  symmetry. apply Z.sub_move_r. rewrite <- !sumZ_plus. apply sumZ_ext.
  intros r Hr. change (e_ID (r <| e_Status := RelayAccountEventStatusInvalid |>)) with (e_ID r).
  rewrite (id_in_batch d invalid), (id_in_batch d valid) by done.
  destruct (bool_decide (r ∈ invalid)) eqn:Hri, (bool_decide (r ∈ valid)) eqn:Hrv; simplify_bool;
    [by destruct (Hdisj r)| | |].
  - change (bool_decide (e_Status (r <| e_Status := RelayAccountEventStatusInvalid |>) =
      RelayAccountEventStatusPending)) with false. cbn [andb].
    rewrite (Hg (r <| e_Status := RelayAccountEventStatusInvalid |>)) by done. lia.
  - destruct Hv as [_ Hv']. destruct (Hv' r Hrv) as [_ Hst].
    rewrite (bool_decide_eq_true_2 _ Hst). cbn [andb].
    match goal with |- context [g (?x <| e_Status := RelayAccountEventStatusProcessed |>)] =>
      rewrite (Hg (x <| e_Status := RelayAccountEventStatusProcessed |>)) by done end. lia.
  - cbn [andb]. lia.
Qed.

(** How marking a batch moves the sums of pending and processed events. *)
Lemma marked_sums d events valid invalid a :
  unique_ids d → batch d events → valid ++ invalid ≡ₚ events →
  let rows := marked_processed valid (marked_invalid invalid (db_events d)) in
  sumZ (pending_of a) rows = pending_sum d a - change events a ∧
  sumZ (processed_of a) rows = processed_sum d a + change valid a.
Proof.
  intros Hu Hb Hp. destruct (batch_parts d events valid invalid Hp Hb) as (Hv & Hi & Hdisj).
  split.
  - rewrite (marked_drop d events) by (try done; intros r Hr; unfold pending_of; by rewrite bool_decide_eq_false_2).
    rewrite (change_pending d events a Hb). reflexivity.
  - assert (Hch : change valid a =
      sumZ (λ r, if id_in (event_ids valid) (e_ID r)
                 then (if String.eqb (e_Address r) a then signed r else 0) else 0) (db_events d)).
    { by rewrite (sumZ_batch d valid). }
    rewrite Hch. unfold processed_sum, marked_processed, marked_invalid.
    rewrite !sumZ_update_where, <- sumZ_plus. apply sumZ_ext.
    intros r Hr. change (e_ID (r <| e_Status := RelayAccountEventStatusInvalid |>)) with (e_ID r).
    rewrite (id_in_batch d invalid), (id_in_batch d valid) by done.
    destruct Hv as [_ Hv'], Hi as [_ Hi'].
    destruct (bool_decide (r ∈ invalid)) eqn:Hri, (bool_decide (r ∈ valid)) eqn:Hrv; simplify_bool;
      [by destruct (Hdisj r)| | |].
    + destruct (Hi' r Hri) as [_ Hst]. unfold processed_of. simpl. rewrite Hst. simpl. lia.
    + destruct (Hv' r Hrv) as [_ Hst]. unfold processed_of. simpl. rewrite Hst. simpl. unfold signed. simpl. lia.
    + simpl. lia.
Qed.

Lemma marked_invalid_sums d events valid invalid a :
  unique_ids d → batch d events → valid ++ invalid ≡ₚ events →
  sumZ (processed_of a) (marked_invalid invalid (db_events d)) = processed_sum d a.
Proof.
  intros Hu Hb Hp. destruct (batch_parts d events valid invalid Hp Hb) as (_ & Hi & _).
  unfold marked_invalid. rewrite sumZ_update_where. apply sumZ_ext. intros r Hr.
  rewrite (id_in_batch d) by done. case_bool_decide as Hri; [|done].
  destruct Hi as [_ Hi']. destruct (Hi' r Hri) as [_ Hst]. unfold processed_of. by rewrite Hst.
Qed.

(** ** The effect of a batch *)

(** The outcome of processing [events]: on success the valid events are applied
    and all are marked; on failure the accounts are as before and at most the
    invalid events are marked.  The cache is never touched. *)
Definition processed (events : list RelayAccountEvent) (w : World) (r : result unit) (w' : World) : Prop :=
  w_cache w' = w_cache w ∧
  match r with
  | Ok _ => ∃ valid invalid, valid ++ invalid ≡ₚ events ∧
      (Forall (λ e, 0 ≤ e_Amount e) events → covered (w_db w) valid) ∧
      (∀ a, bal (w_db w') a = bal (w_db w) a + change valid a) ∧
      db_events (w_db w') = marked_processed valid (marked_invalid invalid (db_events (w_db w)))
  | Err _ => db_accounts (w_db w') = db_accounts (w_db w) ∧
      (db_events (w_db w') = db_events (w_db w) ∨
       ∃ valid invalid, valid ++ invalid ≡ₚ events ∧
         db_events (w_db w') = marked_invalid invalid (db_events (w_db w)))
  end.

Lemma wp_markInvalidEvents invalid (Q : result unit → World → Prop) w :
  (∀ e w', w_cache w' = w_cache w → db_accounts (w_db w') = db_accounts (w_db w) →
     db_events (w_db w') = db_events (w_db w) ∨
     db_events (w_db w') = marked_invalid invalid (db_events (w_db w)) → Q (Err e) w') →
  (∀ w', w_cache w' = w_cache w → db_accounts (w_db w') = db_accounts (w_db w) →
     db_events (w_db w') = marked_invalid invalid (db_events (w_db w)) → Q (Ok tt) w') →
  wp (markInvalidEvents invalid) Q w.
Proof.
  intros He Ho. unfold markInvalidEvents. case_bool_decide as Hne.
  { subst. wp_step. apply Ho; [done|done|]. symmetry. apply update_where_none. intros. done. }
  wp_step. wp_step; [by apply He; auto|]. wp_step.
  assert (Hk : ∀ w1, w_cache w1 = w_cache w → db_accounts (w_db w1) = db_accounts (w_db w) →
    db_events (w_db w1) = marked_invalid invalid (db_events (w_db w)) →
    wp (if bool_decide (event_ids (of_type RelayAccountEventTypeDeposit invalid) = []) then mret tt
     else db_write (λ d, d <| db_deposits := update_where
            (λ r, id_in (event_ids (of_type RelayAccountEventTypeDeposit invalid)) (dr_RelayAccountEventID r) &&
                  bool_decide (dr_LocalStatus r = DepositLocalStatusPending))
            (λ r, r <| dr_LocalStatus := DepositLocalStatusInvalid |>) (db_deposits d) |>)) Q w1).
  { intros w1 Hc Ha Hev. destruct (bool_decide (event_ids _ = [])).
    - wp_step. by apply Ho.
    - wp_step; [by apply He; auto|]. by apply Ho. }
  destruct (bool_decide (event_ids (of_type RelayAccountEventTypeWithdraw invalid) = [])).
  - wp_step. by apply Hk.
  - wp_step; [by apply He; auto|]. by apply Hk.
Qed.

(** The rest of the transaction leaves the accounts and the events alone. *)
Lemma rest_same valid :
  frames (λ w w', w_cache w' = w_cache w ∧ db_accounts (w_db w') = db_accounts (w_db w) ∧
                  db_events (w_db w') = db_events (w_db w))
    (markProcessedWithdraws valid;; markProcessedDeposits valid).
Proof.
  set (P := λ w w' : World, _ ∧ _). assert (WorldRel P).
  { split; unfold P; [done| |done|naive_solver].
    intros w1 w2 w3 (-> & -> & ->) (-> & -> & ->). done. }
  unfold markProcessedWithdraws, markProcessedDeposits. frame_tac.
  all: by apply frames_db_write.
Qed.

Lemma wp_processPendingRelayAccountEvents events w :
  wp (processPendingRelayAccountEvents events) (processed events w) w.
Proof.
  unfold processPendingRelayAccountEvents. wp_step. apply wp_validate.
  { intros e w1 [Hd Hc]. split; [done|]. rewrite Hd. auto. }
  intros valid invalid w1 [Hd1 Hc1] Hp Hcov. wp_step. apply wp_markInvalidEvents.
  { intros e w2 Hc Ha He. rewrite Hd1, Hc1 in *. split; [done|]. split; [done|].
    destruct He as [He|He]; [by left|right; eauto]. }
  intros w2 Hc2 Ha2 He2. rewrite Hd1, Hc1 in *.
  assert (Herr : ∀ e s dp c, c = w_cache w2 → processed events w (Err e) (mkWorld (w_db w2) c s dp)).
  { intros e s dp c ->. split; [done|]. split; [done|]. right. eauto. }
  wp_step; [by apply Herr|]. wp_step. apply wp_applyMergedAccounts; [intros; by apply Herr|].
  intros w3 Hc3 [acc Hd3] Hb3. wp_step. unfold markProcessedEvents. case_bool_decide.
  { wp_step. by apply Herr. }
  wp_step; [by apply Herr|]. eapply wp_mono; [apply rest_same|].
  intros [[]|e] w4 (Hc4 & Ha4 & He4).
  2: { apply Herr. by rewrite Hc4. }
  split; [intros; apply Herr; by rewrite Hc4|]. simpl in *.
  split; [simpl; congruence|]. exists valid, invalid. split_and!; [done|done| |].
  - intros a. unfold bal in *. simpl. rewrite Ha4. specialize (Hb3 a). rewrite Hb3, Ha2, merged_default. done.
  - simpl. rewrite He4, Hd3. simpl. rewrite He2. done.
Qed.

(** ** Soundness of the account table *)

(** Ids are unique, amounts are not negative, no account is overdrawn, and the
    balance of every account is what its processed events add up to. *)
Definition sound (d : DB) : Prop :=
  unique_ids d ∧ Forall (λ e, 0 ≤ e_Amount e) (db_events d) ∧
  (∀ a, 0 ≤ bal d a) ∧ (∀ a, bal d a = processed_sum d a).

Lemma marked_ids valid invalid rows :
  map e_ID (marked_processed valid (marked_invalid invalid rows)) = map e_ID rows ∧
  map e_ID (marked_invalid invalid rows) = map e_ID rows.
Proof.
  unfold marked_processed, marked_invalid. split; [rewrite map_update_same by done|]; by apply map_update_same.
Qed.

Lemma marked_amounts valid invalid rows :
  map e_Amount (marked_processed valid (marked_invalid invalid rows)) = map e_Amount rows ∧
  map e_Amount (marked_invalid invalid rows) = map e_Amount rows.
Proof.
  unfold marked_processed, marked_invalid. split; [rewrite map_update_same by done|]; by apply map_update_same.
Qed.

Lemma amounts_iff rows : Forall (λ e, 0 ≤ e_Amount e) rows ↔ Forall (λ x, 0 ≤ x) (map e_Amount rows).
Proof. by rewrite List.Forall_map. Qed.

Lemma sub_amounts d events : batch d events → Forall (λ e, 0 ≤ e_Amount e) (db_events d) →
  Forall (λ e, 0 ≤ e_Amount e) events.
Proof. intros [_ Hb] Hall. apply Forall_forall. intros e He. rewrite Forall_forall in Hall. by apply Hall, Hb. Qed.

Lemma processed_sound events w r w' :
  batch (w_db w) events → sound (w_db w) → processed events w r w' → sound (w_db w').
Proof.
  intros Hb (Hu & Hamt & Hbal & Hint) [_ Hr]. destruct r as [[]|e].
  - destruct Hr as (valid & invalid & Hp & Hcov & Hb' & He').
    destruct (marked_ids valid invalid (db_events (w_db w))) as [Hids _].
    destruct (marked_amounts valid invalid (db_events (w_db w))) as [Ham _].
    split_and!.
    + unfold unique_ids. by rewrite He', Hids.
    + rewrite He'. rewrite amounts_iff, Ham, <- amounts_iff. done.
    + intros a. rewrite Hb'. apply Hcov; [|done]. by eapply sub_amounts.
    + intros a. rewrite Hb', Hint. unfold processed_sum at 2. rewrite He'.
      by destruct (marked_sums (w_db w) events valid invalid a Hu Hb Hp) as [_ ->].
  - destruct Hr as [Ha [He|(valid & invalid & Hp & He)]].
    + unfold sound, unique_ids, bal, processed_sum in *. rewrite He, Ha. done.
    + destruct (marked_ids [] invalid (db_events (w_db w))) as [_ Hids].
      destruct (marked_amounts [] invalid (db_events (w_db w))) as [_ Ham].
      split_and!.
      * unfold unique_ids. by rewrite He, Hids.
      * rewrite He, amounts_iff, Ham, <- amounts_iff. done.
      * intros a. unfold bal. rewrite Ha. apply Hbal.
      * intros a. unfold bal, processed_sum. rewrite He, (marked_invalid_sums (w_db w) events valid invalid) by done.
        rewrite Ha. apply Hint.
Qed.

(** A batch taken from the table is a batch. *)
Lemma take_batch d n :
  unique_ids d → batch d (take n
    (select_where (λ e, bool_decide (e_Status e = RelayAccountEventStatusPending)) (db_events d))).
Proof.
  intros Hu. split.
  - eapply sublist_NoDup; [|apply sublist_take]. unfold select_where. apply NoDup_ListNoDup, List.NoDup_filter.
    apply NoDup_ListNoDup. by apply (NoDup_fmap_1 e_ID).
  - intros e He. apply elem_of_take in He as (i & Hi & _). apply list_elem_of_lookup_2 in Hi.
    apply elem_of_select in Hi as [? ?]. by simplify_bool.
Qed.

(** C4 (safety): whatever access fails, and however many batches are processed,
    the synchroniser never overdraws an account, and the balance of every
    account stays exactly the sum of its processed events: each event is applied
    once, when it becomes processed, and an invalid event is never applied. *)
Theorem sync_sound (fuel : nat) (w : World) :
  sound (w_db w) → wp (drain fuel) (λ _ w', sound (w_db w')) w.
Proof.
  revert w. induction fuel as [|fuel IH]; intros w Hs; simpl; [by wp_step|].
  wp_step. unfold getPendingRelayAccountEvents. wp_step; [done|]. case_bool_decide; [by wp_step|].
  wp_step. eapply wp_mono; [apply wp_processPendingRelayAccountEvents|].
  intros r w1 Hp. assert (Hs1 : sound (w_db w1)).
  { refine (processed_sound _ _ _ _ _ _ Hp); [|done]. apply take_batch, Hs. }
  destruct r as [[]|]; [by apply IH|done].
Qed.

(** ** The loop ends *)

Definition is_pending (e : RelayAccountEvent) : bool :=
  bool_decide (e_Status e = RelayAccountEventStatusPending).
Definition pending_count (d : DB) : nat := length (select_where is_pending (db_events d)).

Lemma length_filter_sum {A} (p : A → bool) (t : list A) :
  Z.of_nat (length (select_where p t)) = sumZ (λ r, if p r then 1 else 0) t.
Proof.
  unfold select_where. induction t as [|r t IH]; simpl; [done|].
  destruct (p r); simpl length; rewrite <- IH; lia.
Qed.

(** A processed batch is no longer pending. *)
Lemma processed_count events w w' :
  unique_ids (w_db w) → batch (w_db w) events → processed events w (Ok tt) w' →
  (pending_count (w_db w') + length events = pending_count (w_db w))%nat.
Proof.
  intros Hu Hb [_ (valid & invalid & Hp & _ & _ & He)]. apply Nat2Z.inj.
  unfold pending_count. rewrite Nat2Z.inj_add, !length_filter_sum, He.
  rewrite (marked_drop (w_db w) events) by (try done; intros r Hr; unfold is_pending; by rewrite bool_decide_eq_false_2).
  assert (sumZ (λ r, if is_pending r then 1 else 0) events = Z.of_nat (length events)) as ->; [|lia].
  destruct Hb as [_ Hb]. clear - Hb. induction events as [|e events IH]; [done|].
  cbn [sumZ foldr length]. fold (sumZ (λ r, if is_pending r then 1 else 0) events).
  destruct (Hb e) as [_ Hst]; [set_solver|]. unfold is_pending at 1. rewrite (bool_decide_eq_true_2 _ Hst).
  rewrite IH; [lia|]. intros. apply Hb. set_solver.
Qed.

(** C36 (termination): with more fuel than there are pending events the loop that
    drains them always ends by itself, either because an access failed or
    because no pending event is left; start-up and the ten-second ticker
    therefore never loop forever. *)
Theorem drain_terminates (fuel : nat) (w : World) :
  sound (w_db w) → (pending_count (w_db w) < fuel)%nat →
  wp (drain fuel) (λ r w', r ≠ Ok false ∧ (r = Ok true → pending_count (w_db w') = 0%nat)) w.
Proof.
  revert w. induction fuel as [|fuel IH]; intros w Hs Hf; [lia|]. simpl.
  wp_step. unfold getPendingRelayAccountEvents. wp_step; [done|].
  set (events := take 50 _). assert (Hb : batch (w_db w) events) by apply take_batch, Hs.
  destruct (bool_decide (events = [])) eqn:Hev; simplify_bool.
  { wp_step. split; [done|]. intros _. simpl. unfold pending_count, select_where, is_pending.
    unfold events, select_where in Hev. by destruct (List.filter _ (db_events (w_db w))). }
  wp_step. eapply wp_mono; [apply wp_processPendingRelayAccountEvents|].
  intros [[]|e] w1 Hp; [|done]. apply IH.
  - refine (processed_sound _ _ _ _ _ _ Hp); [exact Hb|exact Hs].
  - assert (Hc := processed_count _ _ _ (proj1 Hs : unique_ids (w_db (tick w))) Hb Hp). simpl in Hc.
    destruct events; [done|]. simpl in Hc. change (w_db (tick _)) with (w_db w) in Hc. lia.
Qed.

(** ** The cache *)

(** No event becomes invalid between two worlds. *)
Definition no_new_invalid (w w' : World) : Prop :=
  ∀ e, e ∈ db_events (w_db w') → e_Status e = RelayAccountEventStatusInvalid → e ∈ db_events (w_db w).

Lemma no_invalid d events valid invalid :
  unique_ids d → batch d events → valid ++ invalid ≡ₚ events →
  (∀ e, e ∈ marked_invalid invalid (db_events d) → e_Status e = RelayAccountEventStatusInvalid → e ∈ db_events d) →
  invalid = [].
Proof.
  intros Hu Hb Hp Hno. destruct (batch_parts d events valid invalid Hp Hb) as (_ & [_ Hi] & _).
  destruct invalid as [|e invalid]; [done|]. exfalso. destruct (Hi e) as [Hin Hst]; [set_solver|].
  set (e' := e <| e_Status := RelayAccountEventStatusInvalid |>).
  assert (He' : e' ∈ db_events d).
  { apply Hno; [|done]. apply elem_of_update. exists e. split; [done|].
    unfold id_in, event_ids. rewrite bool_decide_eq_true_2; [done|]. simpl. set_solver. }
  assert (e = e') as Heq by (by apply (same_id (db_events d))).
  apply (f_equal e_Status) in Heq. rewrite Hst in Heq. done.
Qed.

(** Invalid events stay as they are. *)
Definition mono_invalid (w w' : World) : Prop :=
  ∀ e, e ∈ db_events (w_db w) → e_Status e = RelayAccountEventStatusInvalid → e ∈ db_events (w_db w').

Lemma processed_mono events w r w' :
  unique_ids (w_db w) → batch (w_db w) events → processed events w r w' → mono_invalid w w'.
Proof.
  intros Hu Hb [_ Hr] e He Hst.
  assert (Hkeep : ∀ valid invalid, valid ++ invalid ≡ₚ events →
    e ∈ marked_invalid invalid (db_events (w_db w))).
  { intros valid invalid Hp. destruct (batch_parts _ events valid invalid Hp Hb) as (_ & Hi & _).
    apply elem_of_update. exists e. split; [done|]. rewrite (id_in_batch (w_db w)) by done.
    rewrite bool_decide_eq_false_2; [done|]. intros Hin. destruct Hi as [_ Hi].
    destruct (Hi e Hin). congruence. }
  destruct r as [[]|].
  - destruct Hr as (valid & invalid & Hp & _ & _ & ->). apply elem_of_update. exists e.
    split; [by eapply Hkeep|]. by rewrite Hst, andb_false_r.
  - destruct Hr as [_ [->|(valid & invalid & Hp & ->)]]; [done|by eapply Hkeep].
Qed.

Lemma quiet_invalid d invalid a :
  quiet d a → ∀ e, e ∈ marked_invalid invalid (db_events d) → pending_of a e = 0.
Proof.
  intros Hq e (r & Hr & ->)%elem_of_update. case_bool; [done|by apply Hq].
Qed.

Lemma quiet_processed rows valid a :
  (∀ e, e ∈ rows → pending_of a e = 0) → ∀ e, e ∈ marked_processed valid rows → pending_of a e = 0.
Proof.
  intros Hq e (r & Hr & ->)%elem_of_update. case_bool; [done|by apply Hq].
Qed.

(** The abstract balances are the same, and the cache is not touched. *)
Definition same_ledger (w w' : World) : Prop :=
  w_cache w' = w_cache w ∧
  ∀ a, ledger (w_db w') a = ledger (w_db w) a ∧ (quiet (w_db w) a → quiet (w_db w') a).

Lemma processed_same_ledger events w r w' :
  unique_ids (w_db w) → batch (w_db w) events → processed events w r w' → no_new_invalid w w' →
  same_ledger w w'.
Proof.
  intros Hu Hb [Hc Hr] Hno. split; [done|]. intros a.
  destruct r as [[]|e].
  - destruct Hr as (valid & invalid & Hp & _ & Hb' & He').
    assert (invalid = []) as ->.
    { eapply (no_invalid (w_db w) events valid invalid); try done. intros e He Hst. apply Hno; [|done].
      rewrite He'. apply elem_of_update. exists e. split; [done|]. by rewrite Hst, andb_false_r. }
    destruct (marked_sums (w_db w) events valid [] a Hu Hb Hp) as [Hps _].
    rewrite app_nil_r in Hp. split.
    + unfold ledger. unfold pending_sum at 1. rewrite He', Hps, Hb', (change_perm _ _ a Hp). lia.
    + unfold quiet at 2. rewrite He'. intros Hq. by apply quiet_processed, quiet_invalid.
  - destruct Hr as [Ha Hev].
    assert (Hsame : db_events (w_db w') = db_events (w_db w)).
    { destruct Hev as [He|(valid & invalid & Hp & He)]; [done|].
      assert (invalid = []) as ->.
      { eapply (no_invalid (w_db w) events valid invalid); try done. intros e' He' Hst. apply Hno; [|done].
        by rewrite He. }
      rewrite He. apply update_where_none. intros. done. }
    unfold ledger, bal, pending_sum, quiet. by rewrite Ha, Hsame.
Qed.

(** The drain loop, one batch at a time: a property of worlds that a batch
    carries over (from a sound world) is carried over by the loop. *)
Lemma drain_ind (P : World → World → Prop) `{!WorldRel P} fuel w :
  (∀ events w r w', batch (w_db w) events → sound (w_db w) → processed events w r w' → P w w') →
  sound (w_db w) → wp (drain fuel) (λ _ w', P w w' ∧ sound (w_db w')) w.
Proof.
  intros Hstep. revert w. induction fuel as [|fuel IH]; intros w Hs; simpl.
  { wp_step. split; [apply wr_refl|done]. }
  wp_step. unfold getPendingRelayAccountEvents. wp_step; [split; [apply wr_tick; apply _|done]|].
  set (events := take 50 _). assert (Hb : batch (w_db w) events) by apply take_batch, Hs.
  destruct (bool_decide (events = [])); [wp_step; split; [apply (wr_steps w); simpl; lia|done]|].
  wp_step. eapply wp_mono; [apply wp_processPendingRelayAccountEvents|]. intros r w1 Hp.
  assert (Hs1 : sound (w_db w1)) by (refine (processed_sound _ _ _ _ _ _ Hp); [exact Hb|exact Hs]).
  assert (H1 : P w w1).
  { eapply wr_trans; [|refine (Hstep _ _ _ _ _ _ Hp); [exact Hb|exact Hs]]. apply (wr_steps w); simpl; lia. }
  destruct r as [[]|e]; [|by split]. eapply wp_mono; [by apply IH|].
  intros r w2 [? ?]. split; [by eapply wr_trans|done].
Qed.

#[export] Instance mono_invalid_rel : WorldRel mono_invalid.
Proof. split; unfold mono_invalid; [done|auto|done|done]. Qed.

Lemma drain_same_ledger fuel w :
  sound (w_db w) → wp (drain fuel) (λ _ w', no_new_invalid w w' → same_ledger w w') w.
Proof.
  assert (Hrefl : ∀ w s d, same_ledger w (mkWorld (w_db w) (w_cache w) s d)).
  { intros. split; [done|]. intros. by split. }
  revert w. induction fuel as [|fuel IH]; intros w Hs; simpl; [wp_step; by destruct w|].
  wp_step. unfold getPendingRelayAccountEvents. wp_step; [intros _; exact (Hrefl w _ _)|].
  set (events := take 50 _). assert (Hb : batch (w_db w) events) by apply take_batch, Hs.
  destruct (bool_decide (events = [])); [wp_step; intros _; exact (Hrefl w _ _)|].
  wp_step. eapply wp_mono; [apply wp_processPendingRelayAccountEvents|]. intros r w1 Hp.
  assert (Hs1 : sound (w_db w1)) by (refine (processed_sound _ _ _ _ _ _ Hp); [exact Hb|exact Hs]).
  assert (Hm : mono_invalid w w1) by (refine (processed_mono _ _ _ _ _ _ Hp); [apply Hs|exact Hb]).
  assert (Hc1 : no_new_invalid w w1 → same_ledger w w1).
  { intros Hno. refine (processed_same_ledger _ _ _ _ _ _ Hp _); [apply Hs|exact Hb|exact Hno]. }
  destruct r as [[]|e]; [|done].
  destruct (drain_ind mono_invalid fuel w1) as [Hm1 _]; [|done|].
  { intros ev wa ra wb Hba Hsa Hpa. eapply processed_mono; [apply Hsa|exact Hba|exact Hpa]. }
  intros Hno. destruct Hc1 as [Hc Hl].
  { intros e He Hst. apply Hno; [by apply Hm1|done]. }
  destruct (IH w1 Hs1) as [Hc' Hl'].
  { intros e He Hst. apply Hm; [by apply Hno|done]. }
  split; [congruence|]. intros a. destruct (Hl a) as [H1 H2], (Hl' a) as [H1' H2'].
  split; [congruence|auto].
Qed.

(** C7 (refinement): processing pending events refines doing nothing: the cached
    balances, which are the abstract balances before, are the abstract balances
    after, as long as no event of the batches turns out to be invalid; whatever
    access fails. *)
Theorem sync_coherent (fuel : nat) (w : World) :
  sound (w_db w) → coherent w →
  wp (drain fuel) (λ _ w', no_new_invalid w w' → coherent w') w.
Proof.
  intros Hs Hco. eapply wp_mono; [by apply drain_same_ledger|].
  intros r w' Hsl Hno a. destruct (Hsl Hno) as [Hc Hl]. destruct (Hl a) as [Hla Hq].
  specialize (Hco a). unfold accounts in *. rewrite Hc, Hla.
  destruct (c_accounts (w_cache w) !! a); auto.
Qed.

(** What start-up leaves in the cache.  The balances are loaded
    from the account table before the pending events are applied to it, so every
    cached balance misses exactly what was pending when the process started. *)
Theorem InitRelayAccountCache_misses_pending (fuel : nat) (w : World) :
  sound (w_db w) → accounts w = ∅ →
  wp (InitRelayAccountCache fuel) (λ r w', r = Ok true → no_new_invalid w w' →
     ∀ a b, accounts w' !! a = Some b → b = ledger (w_db w') a - pending_sum (w_db w) a) w.
Proof.
  intros Hs Hemp. unfold InitRelayAccountCache. wp_step. wp_step; [done|]. wp_step. wp_step.
  eapply wp_mono; [by apply drain_same_ledger|].
  intros r w' Hsl _ Hno a b. destruct (Hsl Hno) as [Hc Hl]. destruct (Hl a) as [-> _].
  unfold accounts in *. rewrite Hc. simpl. rewrite Hemp, (left_id_L ∅ (∪)). intros Hb.
  unfold ledger, bal. simpl. rewrite Hb. simpl. unfold pending_sum. simpl. lia.
Qed.

(** ** What the synchroniser leaves alone

    It changes balances, statuses and MACs; what an event says and what a
    withdrawal is for stays, and so do the other tables and the caches. *)

Lemma processPending_sync_only events : frames sync_only (processPendingRelayAccountEvents events).
Proof.
  unfold processPendingRelayAccountEvents. frame_step.
  { apply (frames_weaken reads_only); [intros wa; apply wp_validate; done|]. intros wa wb [Hd Hc].
    unfold sync_only. rewrite Hd, Hc. split_and!; [done|done|apply sync_tables_refl|done]. }
  destruct a as [valid invalid]. unfold markInvalidEvents, applyMergedAccounts, markProcessedEvents,
    markProcessedWithdraws, markProcessedDeposits. frame_tac.
  all: try (apply frames_db_write; [apply _|]; intros [[] ? ? ?]; split_and!; [| |do 4 eexists; cbn; reflexivity|done];
            simpl; by rewrite ?map_update_same).
  apply frames_db_exec; [apply _|]. intros [[] ? ? ?] u d. case_bool; [|done]. intros [= _ <-].
  split_and!; [done|done|do 4 eexists; cbn; reflexivity|done].
Qed.

Lemma drain_sync_only fuel : frames sync_only (drain fuel).
Proof.
  induction fuel as [|fuel IH]; simpl; [frame_tac|]. unfold getPendingRelayAccountEvents.
  pose proof processPending_sync_only. frame_tac.
Qed.
End sync.

(** ** Witnesses

    One account with a processed event of 10 and a pending one of 5. *)
Definition demo_db : DB := empty_db
  <| db_accounts := {["0xa" := 10]} |>
  <| db_events := [
       mkRelayAccountEvent 1 0 "0xa" 10 RelayAccountEventStatusProcessed "7-1" RelayAccountEventTypeWithdrawRefund "";
       mkRelayAccountEvent 2 0 "0xa" 5 RelayAccountEventStatusPending "7-2" RelayAccountEventTypeWithdrawRefund ""] |>
  <| db_withdraws := [
       mkWithdrawRecord 1 0 "0xa" "0xb" 10 "base" WithdrawStatusFailed WithdrawLocalStatusProcessed 1 None 0 None None "";
       mkWithdrawRecord 2 0 "0xa" "0xb" 5 "base" WithdrawStatusFailed WithdrawLocalStatusProcessed 2 None 0 None None ""] |>.
Definition demo_running : World :=
  mkWorld demo_db (empty_caches <| c_accounts := {["0xa" := 15]} |>) 0 0.
Definition demo_restarted : World := mkWorld demo_db empty_caches 0 0.

Lemma demo_sound : sound demo_db.
Proof.
  split_and!.
  - by apply (bool_decide_unpack _).
  - by apply (bool_decide_unpack _).
  - intros a. unfold bal, demo_db. simpl. destruct (decide (a = "0xa")) as [->|].
    + by rewrite lookup_singleton_eq.
    + by rewrite lookup_singleton_ne.
  - intros a. unfold bal, processed_sum, processed_of, demo_db. cbn -[String.eqb].
    destruct (String.eqb_spec "0xa" a) as [<-|].
    + by rewrite lookup_singleton_eq.
    + by rewrite lookup_singleton_ne.
Qed.

Lemma demo_coherent : coherent demo_running.
Proof.
  intros a. unfold accounts, demo_running. cbn -[String.eqb].
  destruct (decide (a = "0xa")) as [->|Hne].
  - vm_compute. reflexivity.
  - rewrite lookup_singleton_ne by congruence.
    intros e [->|[->|[]%elem_of_nil]%elem_of_cons]%elem_of_cons; unfold pending_of; [done|].
    cbn [e_Address]. rewrite (proj2 (String.eqb_neq "0xa" a)) by congruence. done.
Qed.

Lemma sync_sound_witness :
  sound (w_db (snd (drain (E:=demo_env) 3 demo_running))).
Proof. apply (sync_sound (E:=demo_env) 3 demo_running). exact demo_sound. Defined.

Lemma drain_terminates_witness : fst (drain (E:=demo_env) 3 demo_running) ≠ Ok false.
Proof.
  refine (proj1 (drain_terminates (E:=demo_env) 3 demo_running _ _)); [exact demo_sound|].
  vm_compute. lia.
Defined.

Lemma sync_coherent_witness : coherent (snd (drain (E:=demo_env) 3 demo_running)).
Proof.
  apply (sync_coherent (E:=demo_env) 3 demo_running); [exact demo_sound|exact demo_coherent|].
  intros e He Hst. exfalso.
    refine (proj1 (Forall_forall (λ e, e_Status e ≠ RelayAccountEventStatusInvalid) _) _ e He Hst).
  vm_compute. repeat constructor; discriminate.
Defined.

End LedgerSync.
