(* ===== verification/Withdraw.v ===== *)
(** * Withdrawals

    A withdrawal is charged with its fee when it is requested, and later either
    fulfilled (the fee is paid to the fee address) or rejected (amount and fee
    are given back), after its charge has been applied to the account table
    (src/service/withdraw.go). *)

From S2P Require Import Prelude Models Config Delegation VestingSchedule MaxStaking Store.
From S2P Require Import Statistic Ledger LedgerCoherence LedgerSync.

Module Withdrawals.
Import Ledger LedgerCoherence LedgerSync.

(** ** Definitions *)

(** The ratio of the highest tier whose minimum the amount reaches,
    src/service/withdraw.go 27-34: the loop stops at the first tier that is not
    reached. *)
Fixpoint tierRatio (tiers : list WithdrawalFeeTierConfig) (amount : Z) (ratio : float64) : float64 :=
  match tiers with
  | [] => ratio
  | tier :: tiers' =>
      if amount <? EtherToWei (tier_MinAmount tier) then ratio
      else tierRatio tiers' amount (tier_FeeRatio tier)
  end.

(** [CalculateWithdrawalFee], src/service/withdraw.go 21-42.  [SetFloat64] gives
    a nil ratio for an infinity, whose numerator panics. *)
Definition CalculateWithdrawalFee (networkConfig : EffectiveFundingNetworkConfig) (amount : Z) : result Z :=
  let fee := EtherToWei (fn_WithdrawalFee networkConfig) in
  let ratio := tierRatio (fn_WithdrawalFeeTiers networkConfig) amount f64_zero in
  if f64_lt f64_zero ratio then
    match f64_rat ratio with
    | Some (num, den) => Ok (fee + Z.quot (amount * num) den)
    | None => Err (ErrPanic "nil rational")
    end
  else Ok fee.

Section withdraw.
Context {E : Env}.

(** The [Where] clauses of the two daily counts, src/service/withdraw.go 73-94:
    the address column, the network, today and not failed. *)
Definition counted_today (dayStart : Time) (network : string) (whose : WithdrawRecord → bool)
    (r : WithdrawRecord) : bool :=
  whose r && String.eqb (wr_Network r) network && (dayStart <=? wr_CreatedAt r) &&
  negb (bool_decide (wr_Status r = WithdrawStatusFailed)).

(** [Withdraw], src/service/withdraw.go 73-94: how many withdrawals of the
    address and of the benefit address are counted against the limit of the
    day *)
Definition checkDailyLimits (address benefitAddress network : string) (dayStart maxPerDay : Z) : M unit :=
  todayAddressCount ← db_read (λ d, count_where (counted_today dayStart network
    (λ r, String.eqb (wr_Address r) address)) (db_withdraws d));
  if maxPerDay <=? todayAddressCount then fail ErrWithdrawDailyLimitExceeded
  else
    todayBenefitCount ← db_read (λ d, count_where (counted_today dayStart network
      (λ r, String.eqb (wr_BenefitAddress r) benefitAddress)) (db_withdraws d));
    if maxPerDay <=? todayBenefitCount then fail ErrWithdrawDailyLimitExceeded else mret tt.

(** [tx.Create(record)]: the row gets the next id and its creation time. *)
Definition createWithdrawRecord (record : WithdrawRecord) : M WithdrawRecord :=
  createdAt ← now;
  db_exec (λ d,
    let r := record <| wr_ID := next_id wr_ID (db_withdraws d) |> <| wr_CreatedAt := createdAt |> in
    Ok (r, d <| db_withdraws := db_withdraws d ++ [r] |>)).

(** An update of the withdrawal with the given id. *)
Definition updateWithdraw (id : Z) (f : WithdrawRecord → WithdrawRecord) : M unit :=
  db_write (λ d, d <| db_withdraws := update_where (λ r, wr_ID r =? id) f (db_withdraws d) |>).

(** [Withdraw], src/service/withdraw.go 44-121 *)
Definition Withdraw (address benefitAddress : string) (amount : Z) (network : string) (timestamp : Z)
    (signature : string) : M WithdrawRecord :=
  match GetEffectiveFundingNetwork env_cfg network with
  | None => fail (ErrMsg "unsupported withdraw network")
  | Some networkConfig =>
      fee0 ← lift (CalculateWithdrawalFee networkConfig amount);
      let withdrawalFee :=
        if String.eqb address (Withdraw_WithdrawalFeeAddress env_cfg) ||
           String.eqb address (Dao_TaskFeeShareAddress env_cfg) then 0 else fee0 in
      let record := mkWithdrawRecord 0 0 address benefitAddress amount network WithdrawStatusPending
        WithdrawLocalStatusPending 0 None withdrawalFee (Some timestamp) (Some signature) "" in
      let totalAmount := amount + withdrawalFee in
      transaction (
        t ← now;
        checkDailyLimits address benefitAddress network (utc_day t)
          (wrap_i64 (fn_MaxWithdrawalsPerDay networkConfig));;
        r ← createWithdrawRecord record;
        charge ← chargeWithdrawFromRelayAccount (wr_ID r) address totalAmount;
        let '(eventID, commitFunc) := charge in
        updateWithdraw (wr_ID r) (λ x, x <| wr_RelayAccountEventID := eventID |>);;
        commitFunc;;
        mret (r <| wr_RelayAccountEventID := eventID |>))
  end.

(** The row of a withdrawal. *)
Definition firstWithdraw (withdrawID : Z) : M WithdrawRecord :=
  db_first (λ d, find_first (λ r, wr_ID r =? withdrawID) (db_withdraws d)).

(** [FulfillWithdraw], src/service/withdraw.go 123-176 *)
Definition FulfillWithdraw (withdrawID : Z) (txHash : string) : M unit :=
  transaction (
    record ← firstWithdraw withdrawID;
    if bool_decide (wr_Status record = WithdrawStatusSuccess) then mret tt
    else if negb (bool_decide (wr_LocalStatus record = WithdrawLocalStatusProcessed)) then
      fail ErrWithdrawRequestNotProcessedLocally
    else if negb (bool_decide (wr_Status record = WithdrawStatusPending)) then
      fail ErrWithdrawRequestNotPending
    else
      updateWithdraw withdrawID (λ r, r <| wr_Status := WithdrawStatusSuccess |>
                                        <| wr_TxHash := Some txHash |>);;
      if 0 <? wr_WithdrawalFee record then
        commitFunc ← fulfillWithdrawFeeIncome (wr_ID record) (Withdraw_WithdrawalFeeAddress env_cfg)
          (wr_WithdrawalFee record);
        commitFunc
      else mret tt).

(** [RejectWithdraw], src/service/withdraw.go 178-225 *)
Definition RejectWithdraw (withdrawID : Z) : M unit :=
  transaction (
    record ← firstWithdraw withdrawID;
    if bool_decide (wr_Status record = WithdrawStatusFailed) then mret tt
    else if negb (bool_decide (wr_LocalStatus record = WithdrawLocalStatusProcessed)) then
      fail ErrWithdrawRequestNotProcessedLocally
    else if negb (bool_decide (wr_Status record = WithdrawStatusPending)) then
      fail ErrWithdrawRequestNotPending
    else
      updateWithdraw withdrawID (λ r, r <| wr_Status := WithdrawStatusFailed |>);;
      let totalAmount := wr_Amount record + wr_WithdrawalFee record in
      commitFunc ← rejectWithdrawToRelayAccount (wr_ID record) (wr_Address record) totalAmount;
      commitFunc).

(** ** The fee *)

(** The reference: the largest tier that is reached. *)
Definition reached (amount : Z) (tier : WithdrawalFeeTierConfig) : bool :=
  EtherToWei (tier_MinAmount tier) <=? amount.

Fixpoint ascending (tiers : list WithdrawalFeeTierConfig) : Prop :=
  match tiers with
  | t1 :: ((t2 :: _) as rest) => tier_MinAmount t1 ≤ tier_MinAmount t2 ∧ ascending rest
  | _ => True
  end.

Lemma reached_head tiers amount t t' :
  ascending (t :: tiers) → reached amount t = false → t' ∈ tiers → reached amount t' = false.
Proof.
  revert t. induction tiers as [|u tiers IH]; intros t Hasc Hr Hin; [set_solver|].
  destruct Hasc as [Hle Hasc]. assert (Hu : reached amount u = false).
  { unfold reached, EtherToWei in *. simplify_bool. apply Z.leb_gt. lia. }
  apply elem_of_cons in Hin as [->|Hin]; [done|]. by eapply IH.
Qed.

Lemma tierRatio_last tiers amount r0 :
  ascending tiers →
  tierRatio tiers amount r0 =
  match last (filter (λ t, reached amount t = true) tiers) with
  | Some t => tier_FeeRatio t
  | None => r0
  end.
Proof.
  revert r0. induction tiers as [|t tiers IH]; intros r0 Hasc; [done|].
  assert (Hasc' : ascending tiers) by (destruct tiers; [done|by destruct Hasc]).
  cbn [tierRatio]. rewrite filter_cons. destruct (Z.ltb_spec amount (EtherToWei (tier_MinAmount t))) as [Hlt|Hge].
  - assert (Hr : reached amount t = false) by (unfold reached; by apply Z.leb_gt).
    rewrite decide_False by congruence.
    assert (filter (λ t, reached amount t = true) tiers = []) as ->; [|done].
    destruct (filter _ tiers) as [|u l] eqn:Hf; [done|].
    assert (u ∈ filter (λ t, reached amount t = true) tiers) as [Hu Hin]%list_elem_of_filter by (rewrite Hf; set_solver).
    by rewrite (reached_head tiers amount t u Hasc Hr Hin) in Hu.
  - rewrite decide_True by (unfold reached; by apply Z.leb_le). rewrite IH by done.
    destruct (filter _ tiers) as [|u l]; [done|]. rewrite last_cons_cons.
    destruct (last (u :: l)) eqn:Hl; [done|]. by apply last_None in Hl.
Qed.

(** With tiers listed by increasing minimum, the fee is the
    fixed fee plus the ratio of the highest tier the amount reaches, applied to
    the whole amount and rounded down; and a fee ratio below one never takes
    more than the amount on top of the fixed fee. *)
Theorem CalculateWithdrawalFee_spec (networkConfig : EffectiveFundingNetworkConfig) (amount fee : Z) :
  ascending (fn_WithdrawalFeeTiers networkConfig) → 0 ≤ amount →
  CalculateWithdrawalFee networkConfig amount = Ok fee →
  match last (filter (λ t, reached amount t = true) (fn_WithdrawalFeeTiers networkConfig)) with
  | Some t =>
      if f64_lt f64_zero (tier_FeeRatio t) then
        ∃ num den, f64_rat (tier_FeeRatio t) = Some (num, den) ∧ 0 < den ∧
          fee = EtherToWei (fn_WithdrawalFee networkConfig) + amount * num ÷ den ∧
          (0 ≤ num ≤ den →
           EtherToWei (fn_WithdrawalFee networkConfig) ≤ fee ≤
           EtherToWei (fn_WithdrawalFee networkConfig) + amount)
      else fee = EtherToWei (fn_WithdrawalFee networkConfig)
  | None => fee = EtherToWei (fn_WithdrawalFee networkConfig)
  end.
Proof.
  intros Hasc Hamt. unfold CalculateWithdrawalFee. rewrite tierRatio_last by done.
  destruct (last _) as [t|]; [|by intros [= <-]].
  destruct (f64_lt f64_zero (tier_FeeRatio t)); [|by intros [= <-]].
  destruct (f64_rat (tier_FeeRatio t)) as [[num den]|] eqn:Hr; [|done]. intros [= <-].
  pose proof (f64_rat_den _ _ _ Hr) as Hden. exists num, den. split_and!; [done|done|done|].
  intros [Hn Hle]. rewrite Z.quot_div_nonneg by nia.
  assert (0 ≤ amount * num / den) by (apply Z.div_pos; nia).
  assert (amount * num / den ≤ amount) by (apply Z.div_le_upper_bound; nia). lia.
Qed.

(** ** The cache stays coherent *)

Lemma same_updateWithdraw id f : frames ledger_same (updateWithdraw id f).
Proof. apply frames_db_write; [apply _|]. by intros w. Qed.

Lemma same_createWithdrawRecord record : frames ledger_same (createWithdrawRecord record).
Proof.
  unfold createWithdrawRecord. frame_tac. apply frames_db_exec; [apply _|].
  intros w r d [= <- <-]. done.
Qed.

Lemma same_checkDailyLimits a b n s m : frames ledger_same (checkDailyLimits a b n s m).
Proof. unfold checkDailyLimits. frame_tac. Qed.

Lemma settles_Withdraw address benefitAddress amount network timestamp signature :
  (∀ n, env_commit_fault n = false) →
  settles (Withdraw address benefitAddress amount network timestamp signature).
Proof.
  intros Hnf w Hc. unfold Withdraw. destruct (GetEffectiveFundingNetwork _ _) as [nc|]; [|by wp_step].
  wp_step. wp_step. destruct (CalculateWithdrawalFee nc amount) as [fee0|]; [|done].
  set (fee := if _ : bool then 0 else fee0). apply settles_transaction; [done| |done].
  apply body_ok_same; [frame_tac|]. intros t.
  apply body_ok_same; [apply same_checkDailyLimits|]. intros _.
  apply body_ok_same; [apply same_createWithdrawRecord|]. intros r.
  eapply body_ok_books; [apply books_chargeWithdraw|]. intros [eventID commit] δ' [-> Hcm].
  apply body_ok_same; [apply same_updateWithdraw|]. intros _.
  apply (body_ok_ext (entry address (- (amount + fee)))); [done|]. by apply body_ok_commit_ret.
Qed.

Lemma settles_FulfillWithdraw withdrawID txHash :
  (∀ n, env_commit_fault n = false) → settles (FulfillWithdraw withdrawID txHash).
Proof.
  intros Hnf. apply settles_transaction; [done|].
  apply body_ok_same; [unfold firstWithdraw; frame_tac|]. intros record.
  case_bool; [apply body_ok_ret|]. case_bool; [apply body_ok_fail|]. case_bool; [apply body_ok_fail|].
  apply body_ok_same; [apply same_updateWithdraw|]. intros _. case_bool; [|apply body_ok_ret].
  eapply body_ok_books; [apply books_fulfillWithdrawFeeIncome|]. intros c δ' [-> Hcm].
  eapply body_ok_ext; [|by apply body_ok_commit]. done.
Qed.

Lemma settles_RejectWithdraw withdrawID :
  (∀ n, env_commit_fault n = false) → settles (RejectWithdraw withdrawID).
Proof.
  intros Hnf. apply settles_transaction; [done|].
  apply body_ok_same; [unfold firstWithdraw; frame_tac|]. intros record.
  case_bool; [apply body_ok_ret|]. case_bool; [apply body_ok_fail|]. case_bool; [apply body_ok_fail|].
  apply body_ok_same; [apply same_updateWithdraw|]. intros _.
  eapply body_ok_books; [apply books_rejectWithdraw|]. intros c δ' [-> Hcm].
  eapply body_ok_ext; [|by apply body_ok_commit]. done.
Qed.

(** ** Every withdrawal is settled exactly once *)

(** The events of a withdrawal. *)
Definition withdraw_event (id : Z) (e : RelayAccountEvent) : bool :=
  String.eqb (e_Reason e) (reason2 RelayAccountEventTypeWithdraw (format_Z id)) ||
  String.eqb (e_Reason e) (reason2 RelayAccountEventTypeWithdrawRefund (format_Z id)) ||
  String.eqb (e_Reason e) (reason2 RelayAccountEventTypeWithdrawFeeIncome (format_Z id)).

(** What an event does: its type, account and amount. *)
Definition view (e : RelayAccountEvent) : RelayAccountEventType * string * Z :=
  (e_Type e, e_Address e, e_Amount e).

(** The events a withdrawal must have: the charge of amount and fee, the refund
    of both once it has failed, the fee income once it has succeeded. *)
Definition expected (r : WithdrawRecord) : list (RelayAccountEventType * string * Z) :=
  let total := wr_Amount r + wr_WithdrawalFee r in
  (RelayAccountEventTypeWithdraw, wr_Address r, total) ::
  match wr_Status r with
  | WithdrawStatusPending => []
  | WithdrawStatusFailed => [(RelayAccountEventTypeWithdrawRefund, wr_Address r, total)]
  | WithdrawStatusSuccess =>
      if 0 <? wr_WithdrawalFee r
      then [(RelayAccountEventTypeWithdrawFeeIncome, Withdraw_WithdrawalFeeAddress env_cfg, wr_WithdrawalFee r)]
      else []
  end.

Definition events_of (d : DB) (id : Z) : list (RelayAccountEventType * string * Z) :=
  map view (select_where (withdraw_event id) (db_events d)).

(** The ledger has exactly the expected events for every withdrawal, and none
    for an id that has no withdrawal. *)
Definition withdraws_settled (d : DB) : Prop :=
  NoDup (map wr_ID (db_withdraws d)) ∧ Forall (λ r, 0 < wr_ID r) (db_withdraws d) ∧
  (∀ r, r ∈ db_withdraws d → events_of d (wr_ID r) = expected r) ∧
  (∀ id, 0 < id → (∀ r, r ∈ db_withdraws d → wr_ID r ≠ id) → events_of d id = []).

Lemma type_code_range t : 0 ≤ RelayAccountEventType_code t ≤ max_u64.
Proof. by destruct t. Qed.


(** Reasons of different types or subjects are different. *)
Lemma reason2_inj t x t' y : reason2 t x = reason2 t' y → t = t' ∧ x = y.
Proof.
  unfold reason2. intros H. apply (f_equal (λ s, SplitN dash s 2)) in H.
  rewrite !SplitN_dash in H by (apply format_Z_avoids_dash, type_code_range).
  rewrite !SplitN_last in H. simplify_eq. split; [|done].
  apply format_Z_inj in H. by destruct t, t'.
Qed.

Lemma withdraw_event_new id id' ty addr amount n t :
  ty ∈ [RelayAccountEventTypeWithdraw; RelayAccountEventTypeWithdrawRefund; RelayAccountEventTypeWithdrawFeeIncome] →
  withdraw_event id (new_event n t ty (reason2 ty (format_Z id')) addr amount) = (id' =? id).
Proof.
  intros Hty. unfold withdraw_event. cbn [e_Reason new_event].
  destruct (Z.eqb_spec id' id) as [->|Hne].
  - repeat (apply elem_of_cons in Hty as [->|Hty]; [by rewrite String.eqb_refl, ?orb_true_r|]).
    by apply elem_of_nil in Hty.
  - rewrite !(proj2 (String.eqb_neq _ _)); [done|..]; intros [_ H]%reason2_inj; apply format_Z_inj in H; done.
Qed.

(** Appending an event to the table. *)
Lemma events_of_snoc d e id :
  events_of (d <| db_events := db_events d ++ [e] |>) id =
  events_of d id ++ (if withdraw_event id e then [view e] else []).
Proof.
  unfold events_of, select_where. simpl. rewrite List.filter_app, map_app. simpl.
  by destruct (withdraw_event id e).
Qed.

Lemma same_wr_id rows r r' :
  NoDup (map wr_ID rows) → r ∈ rows → r' ∈ rows → wr_ID r = wr_ID r' → r = r'.
Proof.
  induction rows as [|x rows IH]; simpl; intros Hnd; [set_solver|].
  apply NoDup_cons in Hnd as [Hn Hnd].
  assert (Hno : ∀ y, y ∈ rows → wr_ID x ≠ wr_ID y).
  { intros y Hy Heq. apply Hn. rewrite Heq. by apply elem_of_map_2. }
  intros [->|He]%elem_of_cons [->|He']%elem_of_cons Heq; [done| | |by apply IH].
  - by destruct (Hno r').
  - by destruct (Hno r).
Qed.

(** Changing one withdrawal and appending the events that go with the change. *)
Lemma settle_one d d' r f extra :
  withdraws_settled d → r ∈ db_withdraws d → (∀ x, wr_ID (f x) = wr_ID x) →
  db_withdraws d' = update_where (λ x, wr_ID x =? wr_ID r) f (db_withdraws d) →
  db_events d' = db_events d ++ extra →
  (∀ e id, e ∈ extra → withdraw_event id e = (wr_ID r =? id)) →
  expected (f r) = expected r ++ map view extra → withdraws_settled d'.
Proof.
  intros (Hnd & Hpos & Hall & Hno) Hr Hid Hw He Hex Hexp.
  assert (Hids : map wr_ID (db_withdraws d') = map wr_ID (db_withdraws d)).
  { rewrite Hw. by apply map_update_same. }
  assert (Hev : ∀ id, events_of d' id = events_of d id ++ (if wr_ID r =? id then map view extra else [])).
  { intros id. unfold events_of, select_where. rewrite He, List.filter_app, map_app. f_equal.
    clear - Hex. induction extra as [|e extra IH]; simpl; [by destruct (wr_ID r =? id)|].
    rewrite (Hex e id) by set_solver. assert (IH' := IH (λ e' id' H, Hex e' id' (list_elem_of_further _ _ _ H))).
    destruct (wr_ID r =? id); simpl; by rewrite IH'. }
  split_and!.
  - by rewrite Hids.
  - rewrite <- List.Forall_map with (f := wr_ID) (P := λ i, 0 < i), Hids, List.Forall_map. done.
  - intros x Hx. rewrite Hw in Hx. apply elem_of_update in Hx as (x0 & Hx0 & ->). rewrite Hev.
    destruct (Z.eqb_spec (wr_ID x0) (wr_ID r)) as [Heq|Hne].
    + assert (x0 = r) as -> by (by eapply same_wr_id). rewrite Hid, Z.eqb_refl, Hexp. by rewrite Hall.
    + rewrite (proj2 (Z.eqb_neq _ _)) by done. rewrite app_nil_r. by apply Hall.
  - intros id Hidp Hn. rewrite Hev, (proj2 (Z.eqb_neq (wr_ID r) id)).
    + rewrite app_nil_r. apply Hno; [done|]. intros x Hx Heq.
      assert (id ∈ map wr_ID (db_withdraws d')) as (y & Hy & Hyid)%elem_of_map_iff.
      { rewrite Hids, <- Heq. by apply elem_of_map_2. }
      by destruct (Hn y).
    + intros Heq. assert (id ∈ map wr_ID (db_withdraws d')) as (y & Hy & Hyid)%elem_of_map_iff.
      { rewrite Hids, <- Heq. by apply elem_of_map_2. }
      by destruct (Hn y).
Qed.

Lemma settled_Fulfill withdrawID txHash w :
  withdraws_settled (w_db w) → wp (FulfillWithdraw withdrawID txHash) (λ _ w', withdraws_settled (w_db w')) w.
Proof.
  intros Hs. apply wp_transaction_db; [done|]. intros w1 Hd. rewrite <- Hd in Hs. clear Hd.
  wp_step. unfold firstWithdraw. wp_step; [done|].
  destruct (find_first _ _) as [record|] eqn:Hf; [|done].
  apply find_first_Some in Hf as [Hin Hid]. simplify_bool. subst withdrawID.
  case_bool; [by wp_step|]. case_bool; [by wp_step|]. case_bool; [by wp_step|]. simplify_bool.
  assert (Hst : wr_Status record = WithdrawStatusPending) by done.
  wp_step. unfold updateWithdraw. wp_step; [done|]. destruct (Z.ltb_spec 0 (wr_WithdrawalFee record)) as [Hfee|Hfee].
  - unfold fulfillWithdrawFeeIncome, createRelayAccountEvent. wp_step. wp_step. wp_step.
    apply wp_createRelayAccountEventWithID; [done|]. intros id t w2 _ _ Hd2. wp_step. wp_step.
    apply wp_getRelayAccountFromCache; [done|]. intros b w3 _ Hd3 _. wp_step.
    unfold credit. wp_step. intros _. simpl. rewrite Hd3, Hd2.
    eapply (settle_one (w_db w1) _ record); [exact Hs|exact Hin| |reflexivity|reflexivity| |]; [done| |].
    + intros e id' ->%list_elem_of_singleton. apply withdraw_event_new. set_solver.
    + unfold expected. simpl. rewrite Hst. by rewrite (proj2 (Z.ltb_lt _ _) Hfee).
  - wp_step. intros _. simpl.
    eapply (settle_one (w_db w1) _ record _ []); [exact Hs|exact Hin| |reflexivity| | |]; [done| | |].
    + simpl. by rewrite app_nil_r.
    + set_solver.
    + unfold expected. simpl. rewrite Hst. by rewrite (proj2 (Z.ltb_ge _ _) Hfee).
Qed.

Lemma settled_Reject withdrawID w :
  withdraws_settled (w_db w) → wp (RejectWithdraw withdrawID) (λ _ w', withdraws_settled (w_db w')) w.
Proof.
  intros Hs. apply wp_transaction_db; [done|]. intros w1 Hd. rewrite <- Hd in Hs. clear Hd.
  wp_step. unfold firstWithdraw. wp_step; [done|].
  destruct (find_first _ _) as [record|] eqn:Hf; [|done].
  apply find_first_Some in Hf as [Hin Hid]. simplify_bool. subst withdrawID.
  case_bool; [by wp_step|]. case_bool; [by wp_step|]. case_bool; [by wp_step|]. simplify_bool.
  assert (Hst : wr_Status record = WithdrawStatusPending) by done.
  wp_step. unfold updateWithdraw. wp_step; [done|].
  unfold rejectWithdrawToRelayAccount, createRelayAccountEvent. wp_step. wp_step. wp_step.
  apply wp_createRelayAccountEventWithID; [done|]. intros id t w2 _ _ Hd2. wp_step. wp_step.
  apply wp_getRelayAccountFromCache; [done|]. intros b w3 _ Hd3 _. wp_step.
  unfold credit. wp_step. intros _. simpl. rewrite Hd3, Hd2.
  eapply (settle_one (w_db w1) _ record); [exact Hs|exact Hin| |reflexivity|reflexivity| |]; [done| |].
  - intros e id' ->%list_elem_of_singleton. apply withdraw_event_new. set_solver.
  - unfold expected. simpl. by rewrite Hst.
Qed.

(** A new withdrawal with its charge. *)
Lemma settle_new d d' r e :
  withdraws_settled d → wr_ID r = next_id wr_ID (db_withdraws d) → wr_Status r = WithdrawStatusPending →
  db_withdraws d' = db_withdraws d ++ [r] → db_events d' = db_events d ++ [e] →
  view e = (RelayAccountEventTypeWithdraw, wr_Address r, wr_Amount r + wr_WithdrawalFee r) →
  (∀ id, withdraw_event id e = (wr_ID r =? id)) → withdraws_settled d'.
Proof.
  intros (Hnd & Hpos & Hall & Hno) Hid Hst Hw He Hv Hex.
  assert (Hfresh : ∀ x, x ∈ db_withdraws d → wr_ID x ≠ wr_ID r).
  { intros x Hx. rewrite Hid. pose proof (next_id_fresh wr_ID _ x Hx). lia. }
  assert (Hrpos : 0 < wr_ID r) by (rewrite Hid; apply next_id_pos).
  assert (Hev : ∀ id, events_of d' id = events_of d id ++ (if wr_ID r =? id then [view e] else [])).
  { intros id. unfold events_of, select_where. rewrite He, List.filter_app, map_app. simpl. rewrite Hex.
    by destruct (wr_ID r =? id). }
  split_and!.
  - rewrite Hw, map_app. apply NoDup_app. split_and!; [done| |apply NoDup_singleton].
    intros i (x & Hx & ->)%elem_of_map_iff Hi. simpl in Hi. apply list_elem_of_singleton in Hi.
    by destruct (Hfresh x).
  - rewrite Hw. apply Forall_app. split; [done|by repeat constructor].
  - intros x Hx. rewrite Hw in Hx. rewrite Hev. apply elem_of_app in Hx as [Hx|Hx].
    + rewrite (proj2 (Z.eqb_neq _ _)), app_nil_r by (by apply not_eq_sym, Hfresh). by apply Hall.
    + apply list_elem_of_singleton in Hx as ->. rewrite Z.eqb_refl, Hno by done.
      unfold expected. by rewrite Hst, Hv.
  - intros id Hp Hn. rewrite Hev. assert (Hrid : wr_ID r ≠ id) by (apply Hn; rewrite Hw; set_solver).
    rewrite (proj2 (Z.eqb_neq _ _) Hrid), app_nil_r. apply Hno; [done|]. intros x Hx. apply Hn. rewrite Hw. set_solver.
Qed.

(** Linking the charge to the withdrawal changes nothing that matters. *)
Lemma settled_stable d d' :
  map (λ e, (e_Reason e, view e)) (db_events d') = map (λ e, (e_Reason e, view e)) (db_events d) →
  map (λ r, (wr_ID r, expected r)) (db_withdraws d') = map (λ r, (wr_ID r, expected r)) (db_withdraws d) →
  withdraws_settled d → withdraws_settled d'.
Proof.
  intros He Hw (Hnd & Hpos & Hall & Hno).
  assert (Hev : ∀ id, events_of d' id = events_of d id).
  { intros id. unfold events_of, select_where. revert He. generalize (db_events d), (db_events d').
    intros l l'. revert l. induction l' as [|e' l' IH]; intros [|e l]; simpl; try done.
    intros [= Hr Hv1 Hv2 Hv3 Hl].
    assert (withdraw_event id e' = withdraw_event id e) as -> by (unfold withdraw_event; by rewrite Hr).
    assert (view e' = view e) as Hv by (unfold view; congruence).
    destruct (withdraw_event id e); simpl; rewrite ?Hv, (IH l Hl); done. }
  assert (Hids : map wr_ID (db_withdraws d') = map wr_ID (db_withdraws d)).
  { apply (f_equal (map fst)) in Hw. by rewrite !map_map in Hw. }
  assert (Hrow : ∀ r', r' ∈ db_withdraws d' → ∃ r, r ∈ db_withdraws d ∧ wr_ID r = wr_ID r' ∧ expected r = expected r').
  { intros r' Hr'. assert ((wr_ID r', expected r') ∈ map (λ r, (wr_ID r, expected r)) (db_withdraws d')) as Hin
      by (apply (elem_of_map_2 (λ r, (wr_ID r, expected r))); done).
    rewrite Hw in Hin. apply elem_of_map_iff in Hin as (r & Hr & Heq). exists r. split; [done|].
    split; [exact (eq_sym (f_equal fst Heq))|exact (eq_sym (f_equal snd Heq))]. }
  split_and!.
  - by rewrite Hids.
  - rewrite <- List.Forall_map with (f := wr_ID) (P := λ i, 0 < i), Hids, List.Forall_map. done.
  - intros r' Hr'. destruct (Hrow r' Hr') as (r & Hr & Hid & Hexp). rewrite Hev, <- Hid, <- Hexp. auto.
  - intros id Hp Hn. rewrite Hev. apply Hno; [done|]. intros r Hr Heq.
    assert (id ∈ map wr_ID (db_withdraws d')) as (y & Hy & Hyid)%elem_of_map_iff.
    { rewrite Hids, <- Heq. by apply elem_of_map_2. }
    by destruct (Hn y).
Qed.

Lemma settled_Withdraw address benefitAddress amount network timestamp signature w :
  withdraws_settled (w_db w) →
  wp (Withdraw address benefitAddress amount network timestamp signature)
     (λ _ w', withdraws_settled (w_db w')) w.
Proof.
  intros Hs. unfold Withdraw. destruct (GetEffectiveFundingNetwork _ _) as [nc|]; [|by wp_step].
  wp_step. wp_step. destruct (CalculateWithdrawalFee nc amount) as [fee0|]; [|done].
  set (fee := if _ : bool then 0 else fee0).
  apply wp_transaction_db; [done|]. intros w1 Hd. rewrite <- Hd in Hs. clear Hd.
  wp_step. wp_step. wp_step.
  assert (Hlim : frames reads_only (checkDailyLimits address benefitAddress network (utc_day t)
    (wrap_i64 (fn_MaxWithdrawalsPerDay nc)))) by (unfold checkDailyLimits; frame_tac).
  eapply wp_mono; [apply Hlim|]. intros [[]|e] w2 [Hd2 _]; [|done].
  wp_step. unfold createWithdrawRecord. wp_step. wp_step. wp_step; [done|].
  simpl in Hd2. rewrite <- Hd2 in Hs. set (record := _ <| wr_CreatedAt := _ |>).
  wp_step. unfold chargeWithdrawFromRelayAccount. wp_step.
  apply wp_getRelayAccountFromCache; [done|]. intros b w3 _ Hd3 _. case_bool; [by wp_step|].
  wp_step. apply wp_createRelayAccountEventWithID; [done|]. intros id t1 w4 _ _ Hd4. wp_step.
  wp_step. unfold updateWithdraw. wp_step; [done|].
  assert (Hnew : withdraws_settled ((w_db w2) <| db_withdraws := db_withdraws (w_db w2) ++ [record] |>
    <| db_events := db_events (w_db w2) ++ [new_event id t1 RelayAccountEventTypeWithdraw
         (reason2 RelayAccountEventTypeWithdraw (format_Z (wr_ID record))) address (amount + fee)] |>)).
  { eapply (settle_new (w_db w2) _ record); [exact Hs|done|done|done|done|done|].
    intros id'. apply withdraw_event_new. set_solver. }
  assert (Hfin : withdraws_settled ((w_db w4) <| db_withdraws := update_where
    (λ r, wr_ID r =? wr_ID record) (λ x, x <| wr_RelayAccountEventID := id |>) (db_withdraws (w_db w4)) |>)).
  { eapply settled_stable; [| |exact Hnew].
    - simpl. by rewrite Hd4, Hd3.
    - simpl. rewrite Hd4, Hd3. simpl. by apply map_update_same. }
  wp_step. eapply wp_mono; [apply debit_commit|]. intros [[]|e] w5 [Hd5 _]; [|done].
  wp_step. intros _. by rewrite Hd5.
Qed.

(** The synchroniser only changes statuses and MACs. *)
Lemma drain_stable fuel w :
  withdraws_settled (w_db w) → wp (drain fuel) (λ _ w', withdraws_settled (w_db w')) w.
Proof.
  intros Hs. eapply wp_mono; [apply drain_sync_only|]. intros r w' (He & Hw & _).
  apply (settled_stable (w_db w)); [| |done].
  - revert He. apply map_eq_via. unfold pay_of, view. intros x y [= -> -> -> ->]. done.
  - revert Hw. apply map_eq_via. unfold withdraw_data, expected. intros x y [= -> -> -> -> ->]. done.
Qed.

(** ** Sequences of operations *)

Inductive wop :=
| OpWithdraw (address benefitAddress : string) (amount : Z) (network : string) (timestamp : Z) (signature : string)
| OpFulfill (withdrawID : Z) (txHash : string)
| OpReject (withdrawID : Z)
| OpSync (fuel : nat).

(** One request; an error goes back to the caller and the service goes on. *)
Definition run_wop (op : wop) : M unit :=
  match op with
  | OpWithdraw a b x n t s => _ ← try_ (Withdraw a b x n t s); mret tt
  | OpFulfill id h => _ ← try_ (FulfillWithdraw id h); mret tt
  | OpReject id => _ ← try_ (RejectWithdraw id); mret tt
  | OpSync fuel => _ ← try_ (drain fuel); mret tt
  end.

(** C5 (invariant): however requests, fulfilments, rejections and
    synchronisation follow each other and whatever access fails, the ledger
    holds for every withdrawal exactly the events its status calls for: one
    charge of amount and fee, one refund of the same total if and only if it was
    rejected, one fee income if and only if it was fulfilled with a fee.  A
    withdrawal is never charged, refunded or paid twice. *)
Theorem withdraws_settled_once (ops : list wop) (w : World) :
  withdraws_settled (w_db w) →
  wp (for_each ops run_wop) (λ _ w', withdraws_settled (w_db w')) w.
Proof.
  revert w. induction ops as [|op ops IH]; intros w Hs; simpl; [by wp_step|].
  wp_step.
  assert (Hop : wp (run_wop op) (λ _ w', withdraws_settled (w_db w')) w).
  { unfold run_wop. destruct op; wp_step; wp_step.
    - eapply wp_mono; [by apply settled_Withdraw|]. intros. by wp_step.
    - eapply wp_mono; [by apply settled_Fulfill|]. intros. by wp_step.
    - eapply wp_mono; [by apply settled_Reject|]. intros. by wp_step.
    - eapply wp_mono; [by apply drain_stable|]. intros. by wp_step. }
  eapply wp_mono; [exact Hop|]. intros [[]|e] w1 H1; [by apply IH|done].
Qed.
Lemma wp_checkDailyLimits address benefitAddress network dayStart maxPerDay w :
  wp (checkDailyLimits address benefitAddress network dayStart maxPerDay) (λ r w',
    w_db w' = w_db w ∧
    match r with
    | Ok _ => accounts w' = accounts w ∧
        count_where (counted_today dayStart network (λ r, String.eqb (wr_Address r) address))
          (db_withdraws (w_db w)) < maxPerDay ∧
        count_where (counted_today dayStart network (λ r, String.eqb (wr_BenefitAddress r) benefitAddress))
          (db_withdraws (w_db w)) < maxPerDay
    | Err _ => True
    end) w.
Proof.
  unfold checkDailyLimits. wp_step. wp_step; [done|]. case_bool; [by wp_step|].
  wp_step. wp_step; [done|]. case_bool; by wp_step.
Qed.

End withdraw.

(** ** Witnesses *)

Definition demo_account : World :=
  mkWorld (empty_db <| db_accounts := {["0xa" := EtherToWei 500]} |>)
    (empty_caches <| c_accounts := {["0xa" := EtherToWei 500]} |>) 0 0.

Definition demo_base : EffectiveFundingNetworkConfig :=
  default (mkEffectiveFundingNetworkConfig "" FundingTokenTypeNative "" 0 0 [] 0)
    (GetEffectiveFundingNetwork demo_config "base").

Lemma withdraws_settled_once_witness :
  let ops := [OpWithdraw "0xa" "0xb" (EtherToWei 200) "base" 0 ""; OpSync 2; OpFulfill 1 "0xtx"; OpReject 1] in
  let w' := snd (for_each ops (run_wop (E:=demo_env)) demo_account) in
  withdraws_settled (E:=demo_env) (w_db w') ∧
  events_of (w_db w') 1 = [(RelayAccountEventTypeWithdraw, "0xa", EtherToWei 251);
                           (RelayAccountEventTypeWithdrawFeeIncome, "0xfee", EtherToWei 51)].
Proof.
  intros ops w'. split; [|vm_compute; reflexivity].
  apply (withdraws_settled_once (E:=demo_env) ops demo_account).
  split_and!; [constructor|constructor| |done]. intros r Hr. by apply elem_of_nil in Hr.
Defined.

Lemma demo_account_coherent : coherent demo_account.
Proof.
  intros a. unfold accounts. simpl. destruct (decide (a = "0xa")) as [->|].
  - rewrite lookup_singleton_eq. by vm_compute.
  - rewrite lookup_singleton_ne by done. intros e He. by apply elem_of_nil in He.
Qed.


End Withdrawals.
