(* ===== verification/Vesting.v ===== *)
(** * Vesting

    Vesting records are created by signed administrator requests, released day
    by day into the relay accounts by a periodic pass, and slashed or restored
    with their node (src/service/vesting.go).  The locked amounts of the active
    records are cached per address and count toward the node's score stake
    (src/service/vesting_stake.go).  Signatures are checked with
    src/blockchain/signature.go. *)

From Stdlib Require Import Ascii.
From S2P Require Import Prelude Models Config Delegation VestingSchedule Mac MaxStaking.
From S2P Require Import Store Statistic Ledger LedgerCoherence LedgerSync.

Module Vesting.
Import Delegations VestingSchedule Mac Ledger LedgerCoherence LedgerSync.

(** ** Text helpers *)

(** [strings.TrimSpace] on ASCII text. *)
Definition is_space (c : ascii) : bool :=
  let n := N_of_ascii c in ((9 <=? n) && (n <=? 13) || (n =? 32))%N.

Fixpoint trim_left (s : string) : string :=
  match s with
  | String c r => if is_space c then trim_left r else s
  | EmptyString => s
  end.

Fixpoint trim_right (s : string) : string :=
  match s with
  | EmptyString => EmptyString
  | String c r =>
      let r' := trim_right r in
      if is_space c && String.eqb r' "" then EmptyString else String c r'
  end.

Definition TrimSpace (s : string) : string := trim_right (trim_left s).

(** [strings.TrimPrefix(s, "0x")] *)
Definition trim_0x (s : string) : string :=
  match s with
  | String "0" (String "x" r) => r
  | _ => s
  end.

Definition newline : string := String (ascii_of_N 10) EmptyString.

(** ** Inputs *)

(** [CreateVestingDelegationDetailInput], src/service/vesting.go 33-39 *)
Record DetailInput := mkDetailInput {
  di_NodeAddress : string;
  di_Network : string;
  di_TaskFee : string;
  di_EmissionAmount : string;
  di_StartTime : Z
}.

(** [CreateVestingRecordInput], src/service/vesting.go 41-49 *)
Record VestingInput := mkVestingInput {
  vi_Address : string;
  vi_TotalAmount : string;
  vi_StartTime : Z;
  vi_DurationDays : Z;
  vi_Type : string;
  vi_AdminSignature : string;
  vi_DelegationDetails : list DetailInput
}.

(** [vestingSignPayload], src/service/vesting.go 51-57 *)
Record vestingSignPayload := mkPayload {
  vp_Address : string;
  vp_TotalAmount : string;
  vp_StartTime : Z;
  vp_DurationDays : Z;
  vp_Type : string
}.

(** [isValidUint256Amount], src/service/vesting.go 59-61 *)
Definition isValidUint256Amount (amount : Z) : bool := (0 <? amount) && (amount <? 2 ^ 256).

(** [buildVestingSignMessage], src/service/vesting.go 63-72 *)
Definition buildVestingSignMessage (payload : vestingSignPayload) : string :=
  "Crynux Relay Vesting" +:+ newline +:+ "Address: " +:+ vp_Address payload
    +:+ newline +:+ "TotalAmount: " +:+ vp_TotalAmount payload
    +:+ newline +:+ "StartTime: " +:+ format_Z (vp_StartTime payload)
    +:+ newline +:+ "DurationDays: " +:+ format_Z (vp_DurationDays payload)
    +:+ newline +:+ "Type: " +:+ vp_Type payload.

(** [VestingTypeNode], [VestingTypeDelegation], [VestingTypeOther]:
    src/models/vesting.go 22-26 *)
Definition VestingTypeNode : string := "node".
Definition VestingTypeDelegation : string := "delegation".
Definition VestingTypeOther : string := "other".

(** [isValidVestingType], src/service/vesting.go 74-81 *)
Definition isValidVestingType (t : string) : bool :=
  String.eqb t VestingTypeNode || String.eqb t VestingTypeDelegation || String.eqb t VestingTypeOther.

(** [SetString(TrimSpace(s), 10)] together with the 256-bit check. *)
Definition parseAmount (s : string) : option Z :=
  match SetString (TrimSpace s) with
  | Some amount => if isValidUint256Amount amount then Some amount else None
  | None => None
  end.

(** One weekly increment of [accumulateDelegationEmissionWeeklyTotals],
    src/service/vesting.go 189-203: details of the same node (up to case) and
    week are added up under the first spelling. *)
Definition weekly_key (detail : VestingDelegationEmissionDetail) : string :=
  ToLower (vd_NodeAddress detail) +:+ "|" +:+ format_Z (vd_StartTime detail / second).

Definition accumulateDelegationEmissionWeeklyTotals (totals : gmap string (string * Time * Z))
    (details : list VestingDelegationEmissionDetail) : gmap string (string * Time * Z) :=
  foldl (λ totals detail,
    let increment := default (vd_NodeAddress detail, vd_StartTime detail, 0) (totals !! weekly_key detail) in
    let '(node, start, amount) := increment in
    <[weekly_key detail := (node, start, amount + vd_EmissionAmount detail)]> totals) totals details.

(** [UpsertNodeDelegationEmissionWeeklyTotalIncrements],
    src/models/node_delegation_emission_weekly_total.go 43-83: the rows (without
    the zero ones) are inserted, and added to the total that is already
    there.  The keys are distinct, so the order does not matter. *)
Definition upsertWeekly (totals : gmap (string * Z) Z) (increments : list (string * Time * Z))
    : gmap (string * Z) Z :=
  foldl (λ t '(node, start, amount),
    if amount =? 0 then t else <[(node, start) := default 0 (t !! (node, start)) + amount]> t) totals increments.

Section vesting.
Context {E : Env}.

(** ** Signatures *)

(** [hashPersonalMessage], src/blockchain/signature.go 81-86 *)
Definition hashPersonalMessage (message : string) : list Z :=
  env_keccak256 (bytes_of_string (String (ascii_of_N 25) "Ethereum Signed Message:" +:+ newline +:+
    format_Z (Z.of_nat (String.length message)) +:+ message)).

(** [RecoverAddress], src/blockchain/signature.go 46-79 *)
Definition RecoverAddress (message signature : string) : option string :=
  match hexutil_Decode ("0x" +:+ trim_0x signature) with
  | None => None
  | Some sigBytes =>
      if negb (Z.of_nat (length sigBytes) =? 65) then None
      else
        let v := nth 64 sigBytes 0 in
        let sigBytes := if (v =? 27) || (v =? 28) then <[64%nat := v - 27]> sigBytes else sigBytes in
        env_sig_to_address (hashPersonalMessage message) sigBytes
  end.

(** [VerifySignature], src/blockchain/signature.go 23-37 *)
Definition VerifySignature (message signature expectedAddress : string) : bool :=
  match RecoverAddress message signature with
  | None => false
  | Some recoveredAddress => EqualFold recoveredAddress expectedAddress
  end.

(** [ValidateSignatureFormat], src/blockchain/signature.go 96-113 *)
Definition ValidateSignatureFormat (signature : string) : bool :=
  let signature := trim_0x signature in
  if negb (Z.of_nat (String.length signature) =? 130) then false
  else match hexutil_Decode ("0x" +:+ signature) with None => false | Some _ => true end.

(** [ValidateAddress], src/blockchain/signature.go 88-94 *)
Definition ValidateAddress (address : string) : bool := env_is_hex_address address.

(** [normalizeVestingInput], src/service/vesting.go 83-107 *)
Definition normalizeVestingInput (input : VestingInput) : result (vestingSignPayload * Z) :=
  if negb (ValidateAddress (vi_Address input)) then Err ErrInvalidVestingAddress
  else if vi_DurationDays input =? 0 then Err ErrInvalidVestingDuration
  else
    let normalizedType := TrimSpace (vi_Type input) in
    if negb (isValidVestingType normalizedType) then Err ErrInvalidVestingType
    else
      match parseAmount (vi_TotalAmount input) with
      | None => Err ErrInvalidVestingAmount
      | Some amount =>
          Ok (mkPayload (vi_Address input) (format_Z amount) (vi_StartTime input)
                (vi_DurationDays input) normalizedType, amount)
      end.

(** [verifyVestingCreationSignature], src/service/vesting.go 109-132 *)
Definition verifyVestingCreationSignature (input : VestingInput) (payload : vestingSignPayload)
    : result unit :=
  if String.eqb (TrimSpace (vi_AdminSignature input)) "" then Err ErrInvalidVestingSignature
  else if String.eqb (TrimSpace (Admin_VestingSignerAddress env_cfg)) "" then Err ErrVestingSignerAddressNotSet
  else if negb (ValidateSignatureFormat (vi_AdminSignature input)) then Err ErrInvalidVestingSignature
  else
    match RecoverAddress (buildVestingSignMessage payload) (vi_AdminSignature input) with
    | None => Err ErrInvalidVestingSignature
    | Some recoveredSigner =>
        if EqualFold recoveredSigner (Admin_VestingSignerAddress env_cfg) then Ok tt
        else Err ErrInvalidVestingSigner
    end.

(** One turn of the loop of [normalizeVestingDelegationDetails],
    src/service/vesting.go 149-182 *)
Definition normalizeDetail (payload : vestingSignPayload) (seen : list string) (detail : DetailInput)
    : result (string * VestingDelegationEmissionDetail) :=
  if negb (ValidateAddress (di_NodeAddress detail)) then Err ErrInvalidVestingDelegationDetail
  else
    let network := TrimSpace (di_Network detail) in
    if String.eqb network "" then Err ErrInvalidVestingDelegationDetail
    else if negb (di_StartTime detail =? vp_StartTime payload) then Err ErrInvalidVestingDelegationDetail
    else
      let detailKey := ToLower (vp_Address payload) +:+ "|" +:+ ToLower (di_NodeAddress detail) +:+ "|"
                         +:+ network +:+ "|" +:+ format_Z (di_StartTime detail) in
      if bool_decide (detailKey ∈ seen) then Err ErrInvalidVestingDelegationDetail
      else
        match parseAmount (di_TaskFee detail), parseAmount (di_EmissionAmount detail) with
        | Some taskFee, Some emissionAmount =>
            Ok (detailKey, mkVestingDelegationEmissionDetail 0 (vp_Address payload) (di_NodeAddress detail)
                             network taskFee emissionAmount (time_unix (di_StartTime detail)))
        | _, _ => Err ErrInvalidVestingDelegationDetail
        end.

Fixpoint normalizeDetails (payload : vestingSignPayload) (seen : list string) (inputs : list DetailInput)
    : result (list VestingDelegationEmissionDetail) :=
  match inputs with
  | [] => Ok []
  | input :: inputs' =>
      match normalizeDetail payload seen input with
      | Err e => Err e
      | Ok (key, detail) =>
          match normalizeDetails payload (key :: seen) inputs' with
          | Err e => Err e
          | Ok details => Ok (detail :: details)
          end
      end
  end.

(** [normalizeVestingDelegationDetails], src/service/vesting.go 134-187 *)
Definition normalizeVestingDelegationDetails (input : VestingInput) (payload : vestingSignPayload)
    (totalAmount : Z) : result (list VestingDelegationEmissionDetail) :=
  if negb (String.eqb (vp_Type payload) VestingTypeDelegation) then
    match vi_DelegationDetails input with
    | [] => Ok []
    | _ :: _ => Err ErrInvalidVestingDelegationDetail
    end
  else
    match vi_DelegationDetails input with
    | [] => Err ErrInvalidVestingDelegationDetail
    | _ :: _ =>
        match normalizeDetails payload [] (vi_DelegationDetails input) with
        | Err e => Err e
        | Ok details =>
            if sumZ vd_EmissionAmount details =? totalAmount then Ok details
            else Err ErrInvalidVestingDelegationDetail
        end
    end.

(** ** The locked stake of a node *)

(** The rows that still release. *)
Definition releasing (v : VestingRecord) : bool :=
  bool_decide (v_Status v = VestingStatusActive) && negb (v_Slashed v).

(** [set], src/service/vesting_stake.go 30-41 *)
Definition stake_set (cache : gmap string (list VestingRecord)) (address : string)
    (records : list VestingRecord) : gmap string (list VestingRecord) :=
  match records with
  | [] => delete address cache
  | _ :: _ => <[address := records]> cache
  end.

(** [lockedAmount], src/service/vesting_stake.go 43-52 *)
Definition lockedAmount (cache : gmap string (list VestingRecord)) (address : string) (t : Time) : Z :=
  sumZ (λ v, LockedAmountAt v t) (default [] (cache !! address)).

(** [InitNodeVestingStakeCache], src/service/vesting_stake.go 65-88 *)
Definition InitNodeVestingStakeCache : M unit :=
  records ← db_read (λ d, select_where releasing (db_vestings d));
  let cache := foldl (λ m v, <[v_Address v := default [] (m !! v_Address v) ++ [v]]> m)
                 (∅ : gmap string (list VestingRecord)) records in
  cache_write (λ c, c <| c_vestings := Some cache |>).

(** [RefreshNodeVestingStake], src/service/vesting_stake.go 90-109 *)
Definition RefreshNodeVestingStake (address : string) : M unit :=
  records ← db_read (λ d, select_where (λ v, String.eqb (v_Address v) address && releasing v) (db_vestings d));
  cache_write (λ c, c <| c_vestings := Some (stake_set (default ∅ (c_vestings c)) address records) |>).

(** [GetNodeLockedVestingAmount], src/service/vesting_stake.go 111-116 *)
Definition GetNodeLockedVestingAmount (address : string) (t : Time) : M Z :=
  cache_read (λ c, match c_vestings c with None => 0 | Some cache => lockedAmount cache address t end).

(** [GetNodeScoreLockedEmissionAmount], src/service/vesting_stake.go 118-135 *)
Definition GetNodeScoreLockedEmissionAmount (address : string) (t : Time) : M Z :=
  lockedEmission ← GetNodeLockedVestingAmount address t;
  let coefficient := StakingScore_LockedEmissionCoefficient env_cfg in
  if f64_eq coefficient f64_one then mret lockedEmission
  else match f64_rat coefficient with
       | Some (num, den) => mret (lockedEmission * num ÷ den)
       | None => fail (ErrPanic "nil rational")
       end.

(** [GetNodeTotalStakeAmount], src/service/user_staking.go 219-221, on the
    caches *)
Definition GetNodeTotalStakeAmount (address network : string) : M Z :=
  g ← cache_read (λ c, c_delegations c !! network);
  match g with
  | Some c => mret (getNodeTotalStakeAmount c address)
  | None => fail (ErrPanic "nil delegation cache")
  end.

(** [GetNodeScoreStakeAmount], src/service/vesting_stake.go 137-147 *)
Definition GetNodeScoreStakeAmount (node : Node) (t : Time) : M Z :=
  if bool_decide (n_Status node = NodeStatusQuit) then mret 0
  else
    delegated ← GetNodeTotalStakeAmount (n_Address node) (n_Network node);
    locked ← GetNodeScoreLockedEmissionAmount (n_Address node) t;
    balance ← GetCachedRelayAccountBalance (n_Address node);
    mret (n_StakeAmount node + delegated + locked + balance).

(** [UpdateMaxStaking], src/service/selecting_prob.go 96-98, on the caches *)
Definition UpdateMaxStaking (address : string) (staking : Z) : M unit :=
  order ← ask (λ n, Ok (env_shuffle n));
  cache_write (λ c, c <| c_max := MaxStaking.update order (c_max c) address staking |>).

(** [GetNodeByAddress], src/models/node.go 100-108: the struct condition of gorm
    leaves out an empty address, and then every row matches. *)
Definition GetNodeByAddress (address : string) : M Node :=
  db_first (λ d, find_first (λ n, String.eqb address "" || String.eqb (n_Address n) address) (db_nodes d)).

(** [RefreshNodeScoreStake], src/service/vesting_stake.go 149-163 *)
Definition RefreshNodeScoreStake (address : string) (t : Time) : M unit :=
  RefreshNodeVestingStake address;;
  node ← try_ (GetNodeByAddress address);
  match node with
  | Err e => if bool_decide (e = ErrRecordNotFound) then mret tt else fail e
  | Ok node =>
      stake ← GetNodeScoreStakeAmount node t;
      UpdateMaxStaking address stake
  end.

(** [RefreshNodeVestingScoreStakes], src/service/vesting_stake.go 165-206 *)
Definition RefreshNodeVestingScoreStakes (t : Time) : M unit :=
  cached ← cache_read (λ c, map fst (map_to_list (default ∅ (c_vestings c))));
  active ← db_read (λ d, map v_Address (select_where releasing (db_vestings d)));
  nodes ← db_read (λ d, map n_Address (select_where
    (λ n, negb (bool_decide (n_Status n = NodeStatusQuit))) (db_nodes d)));
  visited ← shuffle (map (λ a, (a, 0)) (elements (list_to_set (cached ++ active ++ nodes) : gset string)));
  for_each visited (λ a, RefreshNodeScoreStake (fst a) t).

(** ** Creating records *)

(** [tx.Create(&record)]: the unique index on type, address and start time. *)
Definition createVestingRecord (record : VestingRecord) : M VestingRecord :=
  db_exec (λ d,
    if exists_where (λ v, String.eqb (v_Type v) (v_Type record) && String.eqb (v_Address v) (v_Address record) &&
                          (v_StartTime v =? v_StartTime record)) (db_vestings d)
    then Err ErrDuplicatedKey
    else
      let r := record <| v_ID := next_id v_ID (db_vestings d) |> in
      Ok (r, d <| db_vestings := db_vestings d ++ [r] |>)).

(** [tx.Create(&details)]: the unique index on user, node, network and start
    time. *)
Definition same_detail (x y : VestingDelegationEmissionDetail) : bool :=
  String.eqb (vd_UserAddress x) (vd_UserAddress y) && String.eqb (vd_NodeAddress x) (vd_NodeAddress y) &&
  String.eqb (vd_Network x) (vd_Network y) && (vd_StartTime x =? vd_StartTime y).

Fixpoint insert_details (details : list VestingDelegationEmissionDetail) (d : DB) : result (unit * DB) :=
  match details with
  | [] => Ok (tt, d)
  | x :: rest =>
      if exists_where (same_detail x) (db_vesting_details d) then Err ErrDuplicatedKey
      else insert_details rest (d <| db_vesting_details := db_vesting_details d ++ [x] |>)
  end.

(** [CreateVestingRecords], src/service/vesting.go 213-251: one input; the
    weekly totals are threaded through *)
Definition createOneVesting (totals : gmap string (string * Time * Z)) (input : VestingInput)
    : M (VestingRecord * gmap string (string * Time * Z)) :=
  normalized ← lift (normalizeVestingInput input);
  let '(payload, amount) := normalized in
  _ ← lift (verifyVestingCreationSignature input payload);
  details ← lift (normalizeVestingDelegationDetails input payload amount);
  record ← createVestingRecord (mkVestingRecord 0 (vp_Address payload) amount 0
    (time_unix (vp_StartTime payload)) (vp_DurationDays payload) (vp_Type payload)
    (vi_AdminSignature input) VestingStatusActive false);
  let details := map (λ x, x <| vd_VestingRecordID := v_ID record |>) details in
  (if bool_decide (length details = 0%nat) then mret tt else db_exec (insert_details details));;
  createVestingCreatedRelayAccountEvent record;;
  mret (record, accumulateDelegationEmissionWeeklyTotals totals details).

Fixpoint createVestings (totals : gmap string (string * Time * Z)) (inputs : list VestingInput)
    : M (list VestingRecord * gmap string (string * Time * Z)) :=
  match inputs with
  | [] => mret ([], totals)
  | input :: inputs' =>
      created ← createOneVesting totals input;
      rest ← createVestings (snd created) inputs';
      mret (fst created :: fst rest, snd rest)
  end.

(** The scores of the addresses of the new records, each once,
    src/service/vesting.go 264-274 *)
Fixpoint refreshCreated (seen : list string) (created : list VestingRecord) (t : Time) : M unit :=
  match created with
  | [] => mret tt
  | record :: created' =>
      if bool_decide (v_Address record ∈ seen) then refreshCreated seen created' t
      else
        RefreshNodeScoreStake (v_Address record) t;;
        refreshCreated (v_Address record :: seen) created' t
  end.

(** [CreateVestingRecords], src/service/vesting.go 205-276 *)
Definition CreateVestingRecords (inputs : list VestingInput) : M (list VestingRecord) :=
  if bool_decide (length inputs = 0%nat) then mret []
  else
    created ← transaction (
      result ← createVestings ∅ inputs;
      let increments := map snd (map_to_list (snd result)) in
      (if bool_decide (length increments = 0%nat) then mret tt
       else db_write (λ d, d <| db_weekly_totals := upsertWeekly (db_weekly_totals d) increments |>));;
      mret (fst result));
    t ← now;
    refreshCreated [] created t;;
    mret created.

(** ** Releasing *)

(** [hasPendingVestingReleaseEvent], src/service/vesting.go 318-333 *)
Definition hasPendingVestingReleaseEvent : M bool :=
  db_read (λ d, exists_where (λ e, bool_decide (e_Type e = RelayAccountEventTypeVestingRelease) &&
    bool_decide (e_Status e = RelayAccountEventStatusPending)) (db_events d)).

(** An update of the row with the given id. *)
Definition updateVesting (id : Z) (f : VestingRecord → VestingRecord) : M unit :=
  db_write (λ d, d <| db_vestings := update_where (λ v, v_ID v =? id) f (db_vestings d) |>).

(** [processSingleVestingRelease], src/service/vesting.go 335-386 *)
Definition processSingleVestingRelease (vestingID : Z) (t : Time) : M unit :=
  transaction (
    found ← try_ (db_first (λ d, find_first (λ v, v_ID v =? vestingID) (db_vestings d)));
    match found with
    | Err e => if bool_decide (e = ErrRecordNotFound) then fail ErrVestingRecordNotFound else fail e
    | Ok record =>
        if negb (bool_decide (v_Status record = VestingStatusActive)) then mret tt
        else if v_Slashed record then mret tt
        else
          let shouldReleased := ComputeVestingShouldReleased (v_TotalAmount record) (v_StartTime record)
            (v_DurationDays record) t in
          if shouldReleased <=? v_ReleasedAmount record then
            if v_TotalAmount record <=? v_ReleasedAmount record
            then updateVesting (v_ID record) (λ v, v <| v_Status := VestingStatusCompleted |>)
            else mret tt
          else if v_TotalAmount record <? shouldReleased then fail ErrVestingReleaseExceedsSchedule
          else
            commitFunc ← releaseVestingToRelayAccount (v_ID record) (v_Address record)
              (v_ReleasedAmount record) shouldReleased;
            let newStatus := if shouldReleased =? v_TotalAmount record
                             then VestingStatusCompleted else VestingStatusActive in
            updateVesting (v_ID record)
              (λ v, v <| v_ReleasedAmount := shouldReleased |> <| v_Status := newStatus |>);;
            commitFunc
    end).

(** The batch of records after [startID], src/service/vesting.go 294-304 *)
Definition releaseBatch (startID : Z) (batchSize : nat) (d : DB) : list VestingRecord :=
  take batchSize (select_where (λ v, releasing v && (startID <? v_ID v)) (db_vestings d)).

(** The batches, src/service/vesting.go 292-315; the result tells whether the
    loop ended by itself within [fuel] batches. *)
Fixpoint releaseLoop (fuel : nat) (startID : Z) (t : Time) (batchSize : nat) : M bool :=
  match fuel with
  | O => mret false
  | S fuel' =>
      records ← db_read (releaseBatch startID batchSize);
      if bool_decide (length records = 0%nat) then mret true
      else
        for_each records (λ record, processSingleVestingRelease (v_ID record) t);;
        releaseLoop fuel' (match last records with Some r => v_ID r | None => startID end) t batchSize
  end.

(** [ProcessDueVestingReleases], src/service/vesting.go 278-316 *)
Definition ProcessDueVestingReleases (fuel : nat) (t : Time) (batchSize : Z) : M bool :=
  let batchSize := if batchSize <=? 0 then 100 else batchSize in
  pending ← hasPendingVestingReleaseEvent;
  if (pending : bool) then mret true
  else releaseLoop fuel 0 t (Z.to_nat batchSize).

(** [GetAddressLockedVestingAmount], src/service/vesting.go 388-404 *)
Definition GetAddressLockedVestingAmount (address : string) (t : Time) : M Z :=
  records ← db_read (λ d, select_where (λ v, String.eqb (v_Address v) address && releasing v) (db_vestings d));
  mret (sumZ (λ v, LockedAmountAt v t) records).

(** ** Slashing and restoring *)

(** [SlashNodeVestingsTx], src/service/vesting.go 406-420 *)
Definition SlashNodeVestingsTx (nodeAddress : string) : M bool :=
  let p v := String.eqb (v_Address v) nodeAddress && releasing v in
  db_exec (λ d, Ok (exists_where p (db_vestings d),
    d <| db_vestings := update_where p (λ v, v <| v_Slashed := true |>) (db_vestings d) |>)).

(** [SlashNodeVestings], src/service/vesting.go 422-435 *)
Definition SlashNodeVestings (nodeAddress : string) (t : Time) : M unit :=
  refresh ← transaction (SlashNodeVestingsTx nodeAddress);
  if (refresh : bool) then RefreshNodeScoreStake nodeAddress t else mret tt.

(** [RestoreNodeVestings], src/service/vesting.go 437-465 *)
Definition RestoreNodeVestings (nodeAddress : string) (t : Time) : M unit :=
  if negb (ValidateAddress nodeAddress) then fail ErrInvalidVestingAddress
  else
    let p v := String.eqb (v_Address v) nodeAddress && v_Slashed v in
    refresh ← transaction (db_exec (λ d, Ok (exists_where p (db_vestings d),
      d <| db_vestings := update_where p (λ v, v <| v_Slashed := false |>) (db_vestings d) |>)));
    if (refresh : bool) then RefreshNodeScoreStake nodeAddress t else mret tt.

(** ** What is released is what the ledger paid

    The invariant is stated on what the tables say: for an event its type,
    reason, address and amount, for a record its id, address, total and released
    amounts. *)

Record vest_view := mkVestView { vv_ID : Z; vv_Address : string; vv_Total : Z; vv_Released : Z }.

Definition vest_of (v : VestingRecord) : vest_view :=
  mkVestView (v_ID v) (v_Address v) (v_TotalAmount v) (v_ReleasedAmount v).

(** The record and the range of a release event, read back from its reason. *)
Definition release_range (p : pay_view) : option (Z * Z * Z) :=
  if bool_decide (py_Type p = RelayAccountEventTypeVestingRelease) then
    match SplitN dash (py_Reason p) 4 with
    | [_; p1; p2; p3] =>
        match SetString p1, SetString p2, SetString p3 with
        | Some id, Some from, Some to => Some (id, from, to)
        | _, _, _ => None
        end
    | _ => None
    end
  else None.

Definition range_at (id : Z) (p : pay_view) : option (Z * Z) :=
  match release_range p with
  | Some (i, from, to) => if i =? id then Some (from, to) else None
  | None => None
  end.

Definition ranges_of (id : Z) (ps : list pay_view) : list (Z * Z) := omap (range_at id) ps.

(** The ranges follow each other without gap or overlap. *)
Fixpoint chain (from : Z) (l : list (Z * Z)) (to : Z) : Prop :=
  match l with
  | [] => from = to
  | (f, t) :: l' => f = from ∧ f < t ∧ chain t l' to
  end.

Definition paid (ps : list pay_view) (vs : list vest_view) : Prop :=
  NoDup (map vv_ID vs) ∧
  (∀ v, v ∈ vs → 0 < vv_ID v ∧ 0 ≤ vv_Released v ≤ vv_Total v ∧
                 chain 0 (ranges_of (vv_ID v) ps) (vv_Released v)) ∧
  (∀ p id from to, p ∈ ps → release_range p = Some (id, from, to) →
     ∃ v, v ∈ vs ∧ vv_ID v = id ∧ py_Address p = vv_Address v ∧ py_Amount p = to - from).

Definition vestings_paid (d : DB) : Prop := paid (map pay_of (db_events d)) (map vest_of (db_vestings d)).

Lemma chain_snoc l from to to' : chain from l to → to < to' → chain from (l ++ [(to, to')]) to'.
Proof.
  revert from. induction l as [|[f t] l IH]; intros from; simpl; [by intros ->|].
  intros (? & ? & ?) ?. auto.
Qed.

(** The paid amounts add up to the released amount. *)
Lemma chain_sum l from to : chain from l to → sumZ (λ r, snd r - fst r) l = to - from.
Proof.
  revert from. induction l as [|[f t] l IH]; intros from; simpl; [lia|].
  intros (-> & ? & Hc). rewrite (IH _ Hc). lia.
Qed.

Lemma release_range_new id a from to x :
  0 < id → 0 ≤ from → 0 ≤ to →
  release_range (mkPayView RelayAccountEventTypeVestingRelease (BuildVestingReleaseReason id from to) a x) =
  Some (id, from, to).
Proof.
  intros Hid Hf Ht. unfold release_range, BuildVestingReleaseReason. simpl py_Type. rewrite bool_decide_true by done.
  simpl py_Reason. rewrite !SplitN_dash by (apply format_Z_avoids_dash; simpl; lia).
  by rewrite SplitN_last, !SetString_format.
Qed.

Lemma ranges_of_snoc id ps p :
  ranges_of id (ps ++ [p]) = ranges_of id ps ++ match range_at id p with Some r => [r] | None => [] end.
Proof. unfold ranges_of. rewrite omap_app. simpl. by destruct (range_at id p). Qed.

Lemma ranges_of_none id ps : (∀ p, p ∈ ps → range_at id p = None) → ranges_of id ps = [].
Proof.
  intros H. unfold ranges_of. induction ps as [|p ps IH]; [done|]. simpl.
  rewrite H by (by left). apply IH. intros q Hq. apply H. by right.
Qed.

(** Events that are not releases do not matter. *)
Lemma paid_other ps vs p : release_range p = None → paid ps vs → paid (ps ++ [p]) vs.
Proof.
  intros Hp (Hnd & Hv & He). split_and!; [done| |].
  - intros v Hin. rewrite ranges_of_snoc. unfold range_at. rewrite Hp, app_nil_r. by apply Hv.
  - intros q id from to [Hq|Hq%list_elem_of_singleton]%elem_of_app Hr; [by eapply He|congruence].
Qed.

Lemma paid_new ps vs v :
  paid ps vs → 0 < vv_ID v → (∀ u, u ∈ vs → vv_ID u ≠ vv_ID v) → vv_Released v = 0 → 0 ≤ vv_Total v →
  paid ps (vs ++ [v]).
Proof.
  intros (Hnd & Hv & He) Hid Hf Hr Ht. split_and!.
  - rewrite map_app. apply NoDup_app. split_and!; [done| |apply NoDup_singleton].
    intros i (u & Hu & ->)%elem_of_map_iff Hi%list_elem_of_singleton. by destruct (Hf u).
  - intros u [Hu|Hu%list_elem_of_singleton]%elem_of_app; [by apply Hv|]. subst u. split_and!; [done|lia|lia|].
    rewrite Hr, ranges_of_none; [done|]. intros p Hp. unfold range_at.
    destruct (release_range p) as [[[i f] t]|] eqn:Hpr; [|done].
    destruct (He p i f t) as (u & Hu & Hui & _); [done|done|].
    destruct (Z.eqb_spec i (vv_ID v)); [|done]. by destruct (Hf u); [|congruence].
  - intros p id from to Hp Hpr. destruct (He p id from to Hp Hpr) as (u & Hu & ?).
    exists u. split; [set_solver|done].
Qed.

Lemma paid_release ps vs v v' a x :
  paid ps vs → v ∈ vs → vv_ID v' = vv_ID v → vv_Address v' = vv_Address v → vv_Total v' = vv_Total v →
  vv_Released v < vv_Released v' ≤ vv_Total v → a = vv_Address v → x = vv_Released v' - vv_Released v →
  paid (ps ++ [mkPayView RelayAccountEventTypeVestingRelease
                 (BuildVestingReleaseReason (vv_ID v) (vv_Released v) (vv_Released v')) a x])
       (map (λ u, if vv_ID u =? vv_ID v then v' else u) vs).
Proof.
  intros (Hnd & Hv & He) Hin Hid Hadr Htot Hrel -> ->. destruct (Hv v Hin) as (Hpos & Hb & Hch).
  set (p := mkPayView _ _ _ _).
  assert (Hp : release_range p = Some (vv_ID v, vv_Released v, vv_Released v'))
    by (apply release_range_new; lia).
  assert (Huniq : ∀ u, u ∈ vs → vv_ID u = vv_ID v → u = v).
  { intros u Hu Huv. by eapply (NoDup_map_inj vv_ID). }
  split_and!.
  - rewrite map_map. rewrite (map_ext_in _ vv_ID); [done|]. intros u _. destruct (Z.eqb_spec (vv_ID u) (vv_ID v)); congruence.
  - intros u (u0 & Hu0 & ->)%elem_of_map_iff. rewrite ranges_of_snoc. unfold range_at. rewrite Hp.
    destruct (Z.eqb_spec (vv_ID u0) (vv_ID v)) as [Heq|Hne].
    + rewrite Hid, Htot, Z.eqb_refl. split_and!; [lia|lia|lia|]. by apply chain_snoc; [|lia].
    + rewrite (proj2 (Z.eqb_neq (vv_ID v) (vv_ID u0))), app_nil_r by congruence. by apply Hv.
  - intros q id from to [Hq|Hq%list_elem_of_singleton]%elem_of_app Hqr.
    + destruct (He q id from to Hq Hqr) as (u & Hu & Hui & Hua & Hux).
      exists (if vv_ID u =? vv_ID v then v' else u). split; [by apply (elem_of_map_2 (λ u, if vv_ID u =? vv_ID v then v' else u))|].
      destruct (Z.eqb_spec (vv_ID u) (vv_ID v)) as [Heq|]; [|done]. rewrite (Huniq u Hu Heq) in *.
      split_and!; congruence.
    + subst q. rewrite Hp in Hqr. injection Hqr as <- <- <-.
      exists v'. split_and!; [|done|done|done]. apply elem_of_map_iff. exists v. by rewrite Z.eqb_refl.
Qed.

(** *** The operations keep it *)

Lemma map_vest_update id (f : VestingRecord → VestingRecord) vs :
  (∀ v, vest_of (f v) = vest_of v) → map vest_of (update_where (λ v, v_ID v =? id) f vs) = map vest_of vs.
Proof. intros Hf. apply map_update_same. auto. Qed.

Lemma paid_processSingle vestingID t w :
  vestings_paid (w_db w) →
  wp (processSingleVestingRelease vestingID t) (λ _ w', vestings_paid (w_db w')) w.
Proof.
  intros Hp. apply wp_transaction_db; [done|]. intros w1 Hd. rewrite <- Hd in Hp. clear Hd w.
  wp_step. wp_step. wp_step; [by case_bool|].
  destruct (find_first _ _) as [v|] eqn:Hf; [|done]. apply find_first_Some in Hf as [Hin Hid].
  case_bool; [by wp_step|]. destruct (v_Slashed v); [by wp_step|]. unfold updateVesting.
  set (should := ComputeVestingShouldReleased _ _ _ _).
  destruct (Z.leb_spec should (v_ReleasedAmount v)) as [|Hlt].
  { case_bool; [|by wp_step]. wp_step; [done|]. intros _. unfold vestings_paid. simpl. by rewrite map_vest_update. }
  destruct (Z.ltb_spec (v_TotalAmount v) should) as [|Hle]; [by wp_step|]. wp_step.
  unfold releaseVestingToRelayAccount. case_bool; [by wp_step|]. case_bool; [by wp_step|].
  wp_step. wp_step; [done|]. case_bool; [by wp_step|]. unfold createRelayAccountEvent. wp_step. wp_step.
  apply wp_createRelayAccountEventWithID; [done|]. intros id t1 w2 _ _ Hd2. wp_step. wp_step.
  apply wp_getRelayAccountFromCache; [done|]. intros b w3 _ Hd3 _. wp_step. wp_step. wp_step; [done|].
  unfold credit. wp_step. intros _. unfold vestings_paid. simpl. rewrite Hd3, Hd2. simpl. rewrite map_app. simpl.
  replace (map vest_of (update_where _ _ _)) with
    (map (λ u, if vv_ID u =? v_ID v then mkVestView (v_ID v) (v_Address v) (v_TotalAmount v) should else u)
       (map vest_of (db_vestings (w_db w1)))).
  { apply (paid_release _ _ (vest_of v)); simpl; try done; by apply elem_of_map_2. }
  unfold update_where. rewrite !map_map. apply map_ext_in. intros u Hu. apply list_elem_of_In in Hu.
  unfold vest_of at 1. simpl. destruct (Z.eqb_spec (v_ID u) (v_ID v)) as [He|]; [|done].
  destruct Hp as (Hnd & _). rewrite map_map in Hnd. simpl in Hnd.
  assert (u = v) as -> by (by eapply (NoDup_map_inj v_ID)). done.
Qed.

(** A pass over the releases. *)
Lemma paid_releaseLoop fuel startID t batchSize w :
  vestings_paid (w_db w) → wp (releaseLoop fuel startID t batchSize) (λ _ w', vestings_paid (w_db w')) w.
Proof.
  revert startID w. induction fuel as [|fuel IH]; intros startID w Hp; simpl; [by wp_step|].
  wp_step. wp_step; [done|]. case_bool; [by wp_step|]. wp_step.
  set (records := releaseBatch startID batchSize (w_db w)). clearbody records.
  assert (Hfor : ∀ l w1, vestings_paid (w_db w1) →
    wp (for_each l (λ record, processSingleVestingRelease (v_ID record) t)) (λ _ w', vestings_paid (w_db w')) w1).
  { clear. intros l. induction l as [|r l IHl]; intros w1 H1; simpl; [by wp_step|]. wp_step.
    eapply wp_mono; [by apply paid_processSingle|]. intros [[]|e] w2 H2; [by apply IHl|done]. }
  eapply wp_mono; [by apply Hfor|]. intros [[]|e] w2 H2; [by apply IH|done].
Qed.

(** Work that changes neither what events say nor what records say. *)
Definition pay_same (w w' : World) : Prop :=
  map pay_of (db_events (w_db w')) = map pay_of (db_events (w_db w)) ∧
  map vest_of (db_vestings (w_db w')) = map vest_of (db_vestings (w_db w)).

#[local] Instance pay_same_rel : WorldRel pay_same.
Proof. split; unfold pay_same; [done| |done|done]. intros w1 w2 w3 [-> ->] [-> ->]. done. Qed.

Lemma pay_same_paid w w' : pay_same w w' → vestings_paid (w_db w) → vestings_paid (w_db w').
Proof. unfold vestings_paid. by intros [-> ->]. Qed.

Lemma frames_RefreshNodeScoreStake P `{!WorldRel P} address t :
  (∀ w c, P w (set_cache c w)) → frames P (RefreshNodeScoreStake address t).
Proof.
  intros Hc. unfold RefreshNodeScoreStake, RefreshNodeVestingStake, UpdateMaxStaking, GetNodeByAddress,
    GetNodeScoreStakeAmount, GetNodeTotalStakeAmount, GetNodeScoreLockedEmissionAmount,
    GetNodeLockedVestingAmount, GetCachedRelayAccountBalance. frame_tac.
  all: apply frames_cache_write; intros; apply Hc.
Qed.

Lemma insert_details_only rows d d' :
  insert_details rows d = Ok (tt, d') → ∃ x, d' = d <| db_vesting_details := x |>.
Proof.
  revert d. induction rows as [|r rows IH]; intros d; simpl.
  - intros [= <-]. destruct d. eexists. cbn. reflexivity.
  - destruct (exists_where _ _); [done|]. intros [x ->]%IH. eexists. cbn. reflexivity.
Qed.

Lemma paid_createOne totals input w :
  vestings_paid (w_db w) → wp (createOneVesting totals input) (λ _ w', vestings_paid (w_db w')) w.
Proof.
  intros Hp. unfold createOneVesting. wp_step. wp_step.
  destruct (normalizeVestingInput input) as [[payload amount]|] eqn:Hn; [|done].
  assert (Hamt : 0 < amount).
  { unfold normalizeVestingInput, parseAmount in Hn. repeat case_bool; try done.
    destruct (SetString _); [|done]. repeat case_bool; try done. injection Hn as _ <-.
    unfold isValidUint256Amount in *. by simplify_bool. }
  wp_step. wp_step. destruct (verifyVestingCreationSignature _ _); [|done]. wp_step. wp_step.
  destruct (normalizeVestingDelegationDetails _ _ _) as [details|]; [|done].
  wp_step. unfold createVestingRecord. wp_step; [done|]. case_bool; [done|]. wp_step.
  set (record := _ <| v_ID := _ |>).
  set (w1 := tick _).
  assert (H1 : vestings_paid (w_db w1)).
  { unfold vestings_paid. simpl. rewrite map_app. apply paid_new; simpl; [done|apply next_id_pos| |done|lia].
    intros u (x & Hx & ->)%elem_of_map_iff. pose proof (next_id_fresh v_ID _ x Hx). simpl. lia. }
  set (rows := map _ details).
  assert (Hdet : frames pay_same (if bool_decide (length rows = 0%nat) then mret tt else db_exec (insert_details rows))).
  { case_bool; [frame_tac|]. apply frames_db_exec; [apply _|]. intros wa [] d Hi. unfold pay_same.
    by destruct (insert_details_only _ _ _ Hi) as [x ->]. }
  eapply wp_mono; [apply Hdet|]. intros [[]|e] w2 H2; [|by eapply pay_same_paid].
  apply (pay_same_paid _ _ H2) in H1. clear Hdet H2. clearbody w1 record. wp_step.
  unfold createVestingCreatedRelayAccountEvent, createRelayAccountEvent. wp_step.
  apply wp_createRelayAccountEventWithID; [by intros e w3 _ ->|]. intros id t w3 _ _ Hd3. wp_step. wp_step.
  unfold vestings_paid. rewrite Hd3. simpl. rewrite map_app. simpl. by apply paid_other.
Qed.

Lemma paid_createVestings inputs totals w :
  vestings_paid (w_db w) → wp (createVestings totals inputs) (λ _ w', vestings_paid (w_db w')) w.
Proof.
  revert totals w. induction inputs as [|input inputs IH]; intros totals w Hp; simpl; [by wp_step|].
  wp_step. eapply wp_mono; [by apply paid_createOne|]. intros [created|e] w1 H1; [|done].
  wp_step. eapply wp_mono; [by apply IH|]. intros [rest|e] w2 H2; [|done]. by wp_step.
Qed.

Lemma paid_refreshCreated seen created t : frames pay_same (refreshCreated seen created t).
Proof.
  revert seen. induction created as [|r l IH]; intros seen; simpl; [frame_tac|].
  case_bool; [apply IH|]. apply frames_bind; [apply _| |intros []; apply IH].
  by apply frames_RefreshNodeScoreStake; [apply _|].
Qed.

Lemma paid_CreateVestingRecords inputs w :
  vestings_paid (w_db w) → wp (CreateVestingRecords inputs) (λ _ w', vestings_paid (w_db w')) w.
Proof.
  intros Hp. unfold CreateVestingRecords. case_bool; [by wp_step|]. wp_step.
  eapply wp_mono; [eapply (wp_transaction_db _ vestings_paid); [done|]|].
  - intros w1 Hd. rewrite <- Hd in Hp. wp_step. eapply wp_mono; [by apply paid_createVestings|].
    intros [result|e] w2 H2; [|done]. wp_step.
    eapply (wp_mono _ (λ _ w', pay_same w2 w')).
    + case_bool; [wp_step; apply wr_refl|]. by wp_step.
    + intros [[]|e] w3 H3; [|done]. wp_step. intros _. by eapply pay_same_paid.
  - intros [created|e] w1 H1; [|done]. wp_step. wp_step. wp_step.
    eapply wp_mono; [apply paid_refreshCreated|]. intros [[]|e] w2 H2; [wp_step|]; by eapply pay_same_paid.
Qed.

(** Slashing and restoring only change a flag. *)
Lemma pay_same_SlashTx nodeAddress : frames pay_same (SlashNodeVestingsTx nodeAddress).
Proof.
  unfold SlashNodeVestingsTx. apply frames_db_exec; [apply _|]. intros w b d [= _ <-].
  split; [done|]. simpl. by rewrite map_update_same.
Qed.

Lemma pay_same_Slash nodeAddress t : frames pay_same (SlashNodeVestings nodeAddress t).
Proof.
  unfold SlashNodeVestings. apply frames_bind; [apply _| |].
  - apply frames_transaction; [apply _|apply pay_same_SlashTx].
  - intros []; [by apply frames_RefreshNodeScoreStake; [apply _|]|apply frames_ret; apply _].
Qed.

Lemma pay_same_Restore nodeAddress t : frames pay_same (RestoreNodeVestings nodeAddress t).
Proof.
  unfold RestoreNodeVestings. case_bool; [apply frames_fail; apply _|]. apply frames_bind; [apply _| |].
  - apply frames_transaction; [apply _|]. apply frames_db_exec; [apply _|]. intros w b d [= _ <-].
    split; [done|]. simpl. by rewrite map_update_same.
  - intros []; [by apply frames_RefreshNodeScoreStake; [apply _|]|apply frames_ret; apply _].
Qed.

(** *** Sequences of operations *)

Inductive vop :=
| OpCreate (inputs : list VestingInput)
| OpRelease (fuel : nat) (t : Time) (batchSize : Z)
| OpSlash (nodeAddress : string) (t : Time)
| OpRestore (nodeAddress : string) (t : Time)
| OpSyncLedger (fuel : nat).

Definition run_vop (op : vop) : M unit :=
  match op with
  | OpCreate inputs => _ ← try_ (CreateVestingRecords inputs); mret tt
  | OpRelease fuel t n => _ ← try_ (ProcessDueVestingReleases fuel t n); mret tt
  | OpSlash a t => _ ← try_ (SlashNodeVestings a t); mret tt
  | OpRestore a t => _ ← try_ (RestoreNodeVestings a t); mret tt
  | OpSyncLedger fuel => _ ← try_ (drain fuel); mret tt
  end.

Lemma sync_pay_same w w' : sync_only w w' → pay_same w w'.
Proof. intros (He & _ & (? & ? & ? & ? & Hd) & _). split; [done|]. by rewrite Hd. Qed.

Lemma paid_vop op w : vestings_paid (w_db w) → wp (run_vop op) (λ _ w', vestings_paid (w_db w')) w.
Proof.
  intros Hp. unfold run_vop. destruct op; wp_step; wp_step.
  - eapply wp_mono; [by apply paid_CreateVestingRecords|]. intros. by wp_step.
  - unfold ProcessDueVestingReleases, hasPendingVestingReleaseEvent. wp_step. wp_step; [by wp_step|].
    destruct (exists_where _ _); [by repeat wp_step|]. eapply wp_mono; [by apply paid_releaseLoop|].
    intros. by wp_step.
  - eapply wp_mono; [apply pay_same_Slash|]. intros r w' Hs. wp_step. exact (pay_same_paid _ _ Hs Hp).
  - eapply wp_mono; [apply pay_same_Restore|]. intros r w' Hs. wp_step. exact (pay_same_paid _ _ Hs Hp).
  - eapply wp_mono; [apply drain_sync_only|]. intros r w' Hs. wp_step.
    exact (pay_same_paid _ _ (sync_pay_same _ _ Hs) Hp).
Qed.

(** C6 (invariant): however vestings are created, released, slashed and restored
    and whatever access fails, the release events of every record are ranges
    that follow each other from zero without gap or overlap up to its released
    amount, each paid to the record's address with exactly the length of its
    range; the released amount never exceeds the total, and it is the sum of
    the payments. *)
Theorem vestings_paid_once (ops : list vop) (w : World) :
  vestings_paid (w_db w) →
  wp (for_each ops run_vop) (λ _ w', vestings_paid (w_db w') ∧
    ∀ v, v ∈ db_vestings (w_db w') →
      v_ReleasedAmount v = sumZ (λ r, snd r - fst r) (ranges_of (v_ID v) (map pay_of (db_events (w_db w'))))) w.
Proof.
  intros Hp. eapply wp_mono with (P := λ _ w', vestings_paid (w_db w')).
  - revert w Hp. induction ops as [|op ops IH]; intros w Hp; simpl; [by wp_step|]. wp_step.
    eapply wp_mono; [by apply paid_vop|]. intros [[]|e] w1 H1; [by apply IH|done].
  - intros _ w' Hp'. split; [done|]. intros v Hv. destruct Hp' as (_ & Hall & _).
    destruct (Hall (vest_of v)) as (_ & _ & Hch); [by apply elem_of_map_2|].
    apply chain_sum in Hch. simpl in Hch. lia.
Qed.

(** *** A pass ends, and what is due is paid *)

(** Records behind [startID] are not visited again. *)
Definition remaining (startID : Z) (d : DB) : nat :=
  length (select_where (λ v, startID <? v_ID v) (db_vestings d)).

Lemma release_keeps {A} (f : DB → A) vestingID address from to :
  (∀ d x, f (d <| db_events := x |>) = f d) →
  frames (keeps f) (releaseVestingToRelayAccount vestingID address from to).
Proof.
  intros Hf. unfold releaseVestingToRelayAccount, createRelayAccountEvent,
    createRelayAccountEventWithID, getRelayAccountFromCache. frame_tac.
  - apply frames_db_exec; [apply _|]. intros wa ra da. unfold insert_event. case_bool; [done|].
    intros [= _ <-]. apply Hf.
  - apply frames_cache_db, _.
Qed.

Lemma processSingle_ids vestingID t :
  frames (keeps (λ d, map v_ID (db_vestings d))) (processSingleVestingRelease vestingID t).
Proof.
  unfold processSingleVestingRelease, updateVesting. apply frames_transaction; [apply _|].
  apply frames_bind; [apply _|frame_tac|]. intros [record|e]; [|frame_tac].
  case_bool; [frame_tac|]. destruct (v_Slashed record); [frame_tac|]. case_bool.
  { case_bool; [|frame_tac]. apply frames_db_write; [apply _|]. intros. unfold keeps. simpl. by apply map_update_same. }
  case_bool; [frame_tac|].
  eapply frames_bind_books; [apply _|by apply release_keeps|apply books_releaseVesting|].
  intros c δ [_ Hc]. apply frames_bind; [apply _| |intros []; by eapply frames_commit; [apply _|]].
  apply frames_db_write; [apply _|]. intros. unfold keeps. simpl. by apply map_update_same.
Qed.

Lemma remaining_ids startID d d' :
  map v_ID (db_vestings d') = map v_ID (db_vestings d) → remaining startID d' = remaining startID d.
Proof.
  unfold remaining, select_where. generalize (db_vestings d), (db_vestings d'). intros l l'. revert l.
  induction l' as [|v' l' IH]; intros [|v l]; simpl; try done. intros [= Hv Hl]. rewrite Hv.
  case_bool; simpl; by rewrite (IH l).
Qed.

Lemma remaining_lt startID startID' v d :
  v ∈ db_vestings d → startID < v_ID v ≤ startID' → (remaining startID' d < remaining startID d)%nat.
Proof.
  unfold remaining, select_where. intros Hv Hid.
  assert (Hle : ∀ l, (length (List.filter (λ v, startID' <? v_ID v)%Z l) ≤
                      length (List.filter (λ v, startID <? v_ID v)%Z l))%nat).
  { induction l as [|u l IH]; simpl; [done|].
    destruct (Z.ltb_spec startID' (v_ID u)), (Z.ltb_spec startID (v_ID u)); simpl; lia. }
  induction (db_vestings d) as [|u l IH]; [set_solver|]. simpl. specialize (Hle l).
  apply elem_of_cons in Hv as [->|Hv].
  - destruct (Z.ltb_spec startID' (v_ID u)), (Z.ltb_spec startID (v_ID u)); simpl; lia.
  - specialize (IH Hv).
    destruct (Z.ltb_spec startID' (v_ID u)), (Z.ltb_spec startID (v_ID u)); simpl; lia.
Qed.

(** (termination): the periodic pass comes to an end by itself, after at most
    one more batch than there are records, whatever accesses fail: every batch
    moves past the last record it visited. *)
Theorem ProcessDueVestingReleases_terminates (fuel : nat) (t : Time) (batchSize : Z) (w : World) :
  (length (db_vestings (w_db w)) < fuel)%nat →
  fst (ProcessDueVestingReleases fuel t batchSize w) ≠ Ok false.
Proof.
  intros Hfuel.
  set (n := Z.to_nat (if batchSize <=? 0 then 100 else batchSize)).
  assert (Hn : (0 < n)%nat) by (unfold n; case_bool; lia).
  assert (Hloop : ∀ fuel startID w, (remaining startID (w_db w) < fuel)%nat →
    wp (releaseLoop fuel startID t n) (λ r _, r ≠ Ok false) w).
  { clear fuel Hfuel w. induction fuel as [|fuel IH]; intros startID w Hfuel; [lia|]. simpl.
    wp_step. wp_step; [done|]. case_bool; [by wp_step|]. wp_step.
    set (records := releaseBatch startID n (w_db w)) in *.
    assert (Hfor : frames (keeps (λ d, map v_ID (db_vestings d)))
      (for_each records (λ record, processSingleVestingRelease (v_ID record) t))).
    { apply frames_for_each; [apply _|]. intros. apply processSingle_ids. }
    eapply wp_mono; [apply Hfor|]. intros [[]|e] w1 H1; [|done]. apply IH.
    destruct (last records) as [v|] eqn:Hl; [|by apply last_None in Hl; rewrite Hl in *].
    rewrite (remaining_ids _ (w_db w) (w_db w1)) by done.
    apply last_Some_elem_of in Hl. unfold records, releaseBatch in Hl.
    apply elem_of_take in Hl as (k & Hk & _). apply list_elem_of_lookup_2 in Hk.
    apply elem_of_select in Hk as [Hv Hs]. simplify_bool.
    eapply Nat.lt_le_trans; [apply (remaining_lt startID _ v); [exact Hv|]|]; [lia|]. simpl in Hfuel. lia. }
  unfold ProcessDueVestingReleases, hasPendingVestingReleaseEvent.
  assert (Hw : wp (pending ← db_read (λ d, exists_where (λ e, bool_decide (e_Type e = RelayAccountEventTypeVestingRelease) &&
    bool_decide (e_Status e = RelayAccountEventStatusPending)) (db_events d));
    if (pending : bool) then mret true else releaseLoop fuel 0 t n) (λ r _, r ≠ Ok false) w); [|exact Hw].
  wp_step. wp_step; [done|]. destruct (exists_where _ _); [by wp_step|]. apply Hloop. simpl.
  eapply Nat.le_lt_trans; [|exact Hfuel]. apply List.filter_length_le.
Qed.

(** *** One release *)

Lemma update_unique id (f : VestingRecord → VestingRecord) v vs :
  NoDup (map v_ID vs) → v ∈ vs → v_ID v = id → f v = v → update_where (λ u, v_ID u =? id) f vs = vs.
Proof.
  intros Hnd Hv Hid Hf. unfold update_where. rewrite <- (map_id vs) at 2. apply map_ext_in.
  intros u Hu%list_elem_of_In. destruct (Z.eqb_spec (v_ID u) id) as [He|]; [|done].
  assert (u = v) as -> by (by eapply (NoDup_map_inj v_ID); [| | |congruence]). done.
Qed.

(** Processing an active record raises its released amount to
    what the schedule has released by that time (never lowers it), completes it
    exactly when everything is released, and pays the difference, and nothing
    else, to the record's address.  A slashed or completed record is left
    alone, and a failure changes nothing in the database. *)
Theorem processSingleVestingRelease_effect (v : VestingRecord) (t : Time) (w : World) :
  vestings_paid (w_db w) → v ∈ db_vestings (w_db w) →
  wp (processSingleVestingRelease (v_ID v) t) (λ r w',
    match r with
    | Err _ => w_db w' = w_db w
    | Ok _ =>
        if releasing v then
          let upto := Z.max (v_ReleasedAmount v)
            (ComputeVestingShouldReleased (v_TotalAmount v) (v_StartTime v) (v_DurationDays v) t) in
          upto ≤ v_TotalAmount v ∧
          db_vestings (w_db w') = update_where (λ u, v_ID u =? v_ID v)
            (λ u, u <| v_ReleasedAmount := upto |>
                    <| v_Status := if upto =? v_TotalAmount v then VestingStatusCompleted
                                   else VestingStatusActive |>) (db_vestings (w_db w)) ∧
          ∀ a, ledger (w_db w') a = ledger (w_db w) a +
                 (if String.eqb (v_Address v) a then upto - v_ReleasedAmount v else 0)
        else w_db w' = w_db w
    end) w.
Proof.
  intros (Hnd & Hall & _) Hin. rewrite map_map in Hnd. simpl in Hnd.
  destruct (Hall (vest_of v)) as (_ & Hrel & _); [by apply elem_of_map_2|]. simpl in Hrel.
  apply wp_transaction; [done|]. wp_step. wp_step. wp_step; [by case_bool|]. simpl w_db.
  destruct (find_first _ (db_vestings (w_db w))) as [u|] eqn:Hf; [|done].
  apply find_first_Some in Hf as [Hu Huv]. simplify_bool.
  assert (u = v) as -> by (by eapply (NoDup_map_inj v_ID)). clear Hu Huv. unfold releasing.
  case_bool_decide as Hact; simpl; [|by wp_step]. destruct (v_Slashed v); simpl; [by wp_step|].
  set (should := ComputeVestingShouldReleased _ _ _ _). unfold updateVesting.
  destruct (Z.leb_spec should (v_ReleasedAmount v)) as [Hle|Hlt].
  { rewrite Z.max_l by lia. destruct (Z.leb_spec (v_TotalAmount v) (v_ReleasedAmount v)).
    - wp_step; [done|]. split; [done|]. rewrite (proj2 (Z.eqb_eq _ _)) by lia. split_and!; [lia| |].
      + simpl. apply map_ext_in. intros u Hu%list_elem_of_In. destruct (Z.eqb_spec (v_ID u) (v_ID v)); [|done].
        assert (u = v) as -> by (by eapply (NoDup_map_inj v_ID)). by destruct v.
      + intros a. rewrite Z.sub_diag. unfold ledger, bal, pending_sum. simpl. destruct (_ =? a)%string; lia.
    - wp_step. split; [done|]. rewrite (proj2 (Z.eqb_neq _ _)) by lia. split_and!; [lia| |].
      + simpl. symmetry. apply (update_unique _ _ v); [done|done|done|]. destruct v; simpl in *. by subst.
      + intros a. rewrite Z.sub_diag. unfold ledger, bal, pending_sum. simpl. destruct (_ =? a)%string; lia. }
  rewrite Z.max_r by lia. destruct (Z.ltb_spec (v_TotalAmount v) should) as [|Hle]; [by wp_step|]. wp_step.
  unfold releaseVestingToRelayAccount. case_bool; [by wp_step|]. case_bool; [by wp_step|].
  wp_step. wp_step; [done|]. case_bool; [by wp_step|]. unfold createRelayAccountEvent. wp_step. wp_step.
  apply wp_createRelayAccountEventWithID; [done|]. intros id t1 w2 _ _ Hd2. wp_step. wp_step.
  apply wp_getRelayAccountFromCache; [done|]. intros b w3 _ Hd3 _. wp_step. wp_step. wp_step; [done|].
  unfold credit. wp_step. split; [done|]. simpl. rewrite Hd3, Hd2. split_and!; [done|done|].
  intros a. unfold ledger, bal, pending_sum. simpl. rewrite sumZ_app. simpl. unfold pending_of at 2. simpl.
  destruct (_ =? a)%string; cbn; lia.
Qed.

(** A release keeps the cached balances coherent. *)
Lemma settles_processSingle vestingID t :
  (∀ n, env_commit_fault n = false) → settles (processSingleVestingRelease vestingID t).
Proof.
  intros Hnf. apply settles_transaction; [done|]. apply body_ok_same; [frame_tac|]. intros [v|e].
  2: { case_bool; apply body_ok_fail. }
  case_bool; [apply body_ok_ret|]. destruct (v_Slashed v); [apply body_ok_ret|]. unfold updateVesting.
  assert (Hup : ∀ id f, frames ledger_same (db_write (λ d, d <| db_vestings := update_where (λ u, v_ID u =? id) f (db_vestings d) |>))).
  { intros. apply frames_db_write; [apply _|]. by intros. }
  case_bool.
  { case_bool; [|apply body_ok_ret]. apply body_ok_frame, Hup. }
  case_bool; [apply body_ok_fail|]. eapply body_ok_books; [apply books_releaseVesting|].
  intros c δ [-> Hc]. apply body_ok_same; [apply Hup|]. intros []. apply body_ok_commit.
  eapply commit_ext; [|exact Hc]. intros a. lia.
Qed.

End vesting.
(** ** Witnesses

    A record of 100 over ten days, created through a signed request. *)

Definition demo_signature : string := String.concat "" (repeat "0" 130).
Definition demo_input : VestingInput :=
  mkVestingInput "0xnode" " 100 " 0 10 "delegation" demo_signature
    [mkDetailInput "0xA" "base" "7" "60" 0; mkDetailInput "0xB" "base" "3" "40" 0].
Definition demo_vestings : World := snd (run_vop (E:=demo_env) (OpCreate [demo_input]) empty_world).
Definition demo_record : VestingRecord :=
  mkVestingRecord 1 "0xnode" 100 0 0 10 "delegation" demo_signature VestingStatusActive false.

Lemma demo_vestings_rows : db_vestings (w_db demo_vestings) = [demo_record].
Proof. vm_compute. reflexivity. Qed.

Lemma demo_vestings_paid : vestings_paid (w_db demo_vestings).
Proof.
  apply (paid_vop (E:=demo_env) (OpCreate [demo_input]) empty_world).
  split_and!; [constructor| |]; intros *; by intros ?%elem_of_nil.
Qed.

Lemma vestings_paid_once_witness :
  let ops := [OpRelease 3 (3 * day) 10; OpSyncLedger 3; OpSlash "0xnode" 0; OpRelease 3 (5 * day) 10;
              OpRestore "0xnode" 0; OpRelease 3 (20 * day) 10] in
  let w' := snd (for_each ops (run_vop (E:=demo_env)) demo_vestings) in
  vestings_paid (w_db w') ∧
  ranges_of 1 (map pay_of (db_events (w_db w'))) = [(0, 30); (30, 100)].
Proof.
  intros ops w'. split; [|vm_compute; reflexivity].
  refine (proj1 (vestings_paid_once (E:=demo_env) ops demo_vestings demo_vestings_paid)).
Defined.

Lemma ProcessDueVestingReleases_terminates_witness :
  fst (ProcessDueVestingReleases (E:=demo_env) 2 (3 * day) 10 demo_vestings) ≠ Ok false.
Proof.
  apply (ProcessDueVestingReleases_terminates (E:=demo_env) 2 (3 * day) 10 demo_vestings).
  rewrite demo_vestings_rows. simpl. lia.
Defined.

End Vesting.
