(* ===== verification/Qos.v ===== *)
(** * Quality of service

    The long-term score of a node is the average of a sliding window of task
    scores; its short-term health recovers over time, is raised by successes and
    lowered by timeouts (src/service/qos.go).  The file starts with the row
    updates of nodes that the health functions use (src/models/node.go). *)

From S2P Require Import Prelude Models Config Delegation VestingSchedule MaxStaking Store.
From S2P Require Import Statistic Ledger LedgerCoherence LedgerSync Vesting.

Module Qos.
Import Ledger LedgerCoherence Vesting.

(** ** Node rows *)

Section rows.
Context {E : Env}.

(** [Update], src/models/node.go 58-78, for values with a status: the row must
    still have the status the node has in memory; an access that fails also
    reports a changed status.  The values are assigned to the node in memory
    too, so the result is the updated node. *)
Definition nodeUpdateStatus (node : Node) (f : Node → Node) : M Node :=
  if n_ID node =? 0 then fail (ErrMsg "Node.ID cannot be 0 when update")
  else
    let p n := (n_ID n =? n_ID node) && bool_decide (n_Status n = n_Status node) in
    done ← try_ (db_exec (λ d,
      if exists_where p (db_nodes d)
      then Ok (tt, d <| db_nodes := update_where p f (db_nodes d) |>)
      else Err ErrNodeStatusChanged));
    match done with
    | Ok _ => mret (f node)
    | Err _ => fail ErrNodeStatusChanged
    end.

(** [Update], src/models/node.go 58-78, for values without a status *)
Definition nodeUpdate (node : Node) (f : Node → Node) : M Node :=
  if n_ID node =? 0 then fail (ErrMsg "Node.ID cannot be 0 when update")
  else
    db_write (λ d, d <| db_nodes := update_where (λ n, n_ID n =? n_ID node) f (db_nodes d) |>);;
    mret (f node).

(** [Sync], src/models/node.go 80-87 *)
Definition nodeSync (node : Node) : M Node :=
  db_first (λ d, find_first (λ n, n_ID n =? n_ID node) (db_nodes d)).

(** [SyncStatus], src/models/node.go 89-98 *)
Definition nodeSyncStatus (node : Node) : M Node :=
  row ← db_first (λ d, find_first (λ n, n_ID n =? n_ID node) (db_nodes d));
  mret (node <| n_Status := n_Status row |>).
End rows.

(** ** The score window *)

(** [TASK_SCORE_REWARDS] and [getTaskQosScore], src/service/qos.go 16-25 *)
Definition TASK_SCORE_REWARDS : list Z := [10; 5; 2].
Definition getTaskQosScore (order : nat) : result Z :=
  match TASK_SCORE_REWARDS !! order with
  | Some score => Ok score
  | None => Err (ErrPanic "index out of range")
  end.

(** The pool a node starts with, src/service/qos.go 41-48: its stored score
    fills all places but one. *)
Definition seedPool (node : Node) (poolSize : Z) : list Z :=
  if f64_lt f64_zero (n_QOSScore node)
  then replicate (Z.to_nat (poolSize - 1)) (f64_trunc (n_QOSScore node))
  else [].

(** A score enters the window, src/service/qos.go 49-52 *)
Definition pushScore (poolSize : Z) (pool : list Z) (qos : Z) : list Z :=
  let pool := pool ++ [qos] in
  if poolSize <? Z.of_nat (length pool) then drop 1 pool else pool.

(** The size of the window; zero stands for the default, src/service/qos.go 33-36 *)
Definition effectivePoolSize (configured : Z) : Z := if configured =? 0 then 50 else configured.

(** The average, src/service/qos.go 57-61 *)
Definition averageScore (pool : list Z) : float64 :=
  f64_div (f64_of_Z (wrap_u64 (sumZ id pool))) (f64_of_Z (Z.of_nat (length pool))).

(** [GetMaxQosScore], src/service/selecting_prob.go 92-94, with
    [globalMaxQosScore] of line 17 *)
Definition GetMaxQosScore : float64 := f64_of_Z 10.

Section qos.
Context {E : Env}.

(** [getNodeTaskQosScore], src/service/qos.go 32-62 *)
Definition getNodeTaskQosScore (node : Node) (qos : Z) : M float64 :=
  let poolSize := effectivePoolSize (QoS_ScorePoolSize env_cfg) in
  cached ← cache_read (λ c, c_qos c !! n_Address node);
  let pool := match cached with Some pool => pool | None => seedPool node poolSize end in
  let pool := pushScore poolSize pool qos in
  cache_write (λ c, c <| c_qos := <[n_Address node := pool]> (c_qos c) |>);;
  mret (averageScore pool).

(** [ShouldPermanentKickout], src/service/qos.go 64-82 *)
Definition ShouldPermanentKickout (node : Node) : M bool :=
  cached ← cache_read (λ c, c_qos c !! n_Address node);
  mret (match cached with
        | None => false
        | Some pool =>
            if Z.of_nat (length pool) <? QoS_ScorePoolSize env_cfg then false
            else f64_lt (n_QOSScore node) (QoS_KickoutThreshold env_cfg)
        end).

(** [Duration.Minutes] *)
Definition minutes (d : Duration) : float64 :=
  f64_add (f64_of_Z (Z.quot d minute)) (f64_div (f64_of_Z (Z.rem d minute)) (f64_of_Z minute)).

(** [getEffectiveHealthAt], src/service/qos.go 91-107 *)
Definition getEffectiveHealthAt (healthBase : float64) (healthUpdatedAt : option Time) (t : Time) : float64 :=
  match healthUpdatedAt with
  | None => f64_one
  | Some updatedAt =>
      let elapsed := minutes (time_sub t updatedAt) in
      let elapsed := if f64_lt elapsed f64_zero then f64_zero else elapsed in
      let hEffective := f64_add healthBase (f64_mul (f64_sub f64_one healthBase)
        (f64_sub f64_one (env_exp (f64_div (f64_neg elapsed) (QoS_RecoveryTauMinutes env_cfg))))) in
      if f64_lt f64_one hEffective then f64_one else hEffective
  end.

(** [getEffectiveHealth], src/service/qos.go 87-89 *)
Definition getEffectiveHealth (healthBase : float64) (healthUpdatedAt : option Time) : M float64 :=
  t ← now; mret (getEffectiveHealthAt healthBase healthUpdatedAt t).

(** [IsHealthExcluded], src/service/qos.go 109-115 *)
Definition IsHealthExcluded (node : Node) (t : Time) : bool :=
  if negb (n_HealthExcluded node) then false
  else f64_lt (getEffectiveHealthAt (n_HealthBase node) (n_HealthUpdatedAt node) t)
              (QoS_HealthExcludeExitThreshold env_cfg).

(** [calculatePenalizedHealth], src/service/qos.go 117-124 *)
Definition calculatePenalizedHealth (hEffective : float64) : float64 :=
  let penaltyFactor :=
    if f64_le (QoS_FirstTimeoutHealthThreshold env_cfg) hEffective
    then QoS_FirstTimeoutPenaltyFactor env_cfg else QoS_PenaltyFactor env_cfg in
  f64_mul hEffective penaltyFactor.

(** [calculateBoostedHealth], src/service/qos.go 126-132 *)
Definition calculateBoostedHealth (hEffective : float64) : float64 :=
  let hNew := f64_add hEffective (QoS_SuccessBoost env_cfg) in
  if f64_lt f64_one hNew then f64_one else hNew.

(** [calculateCombinedQos], src/service/qos.go 134-136 *)
Definition calculateCombinedQos (qosLong health : float64) : float64 := f64_mul qosLong health.

(** [ApplyHealthPenalty], src/service/qos.go 138-163 *)
Definition ApplyHealthPenalty (node : Node) : M Node :=
  t ← now;
  let hEffective := getEffectiveHealthAt (n_HealthBase node) (n_HealthUpdatedAt node) t in
  let hNew := calculatePenalizedHealth hEffective in
  let f n :=
    let n := n <| n_HealthBase := hNew |> <| n_HealthUpdatedAt := Some t |> in
    if f64_lt hNew (QoS_HealthExcludeEnterThreshold env_cfg) then n <| n_HealthExcluded := true |> else n in
  nodeUpdate node f.

(** [ApplyHealthBoost], src/service/qos.go 165-181 *)
Definition ApplyHealthBoost (node : Node) : M Node :=
  hEffective ← getEffectiveHealth (n_HealthBase node) (n_HealthUpdatedAt node);
  let hNew := calculateBoostedHealth hEffective in
  updatedAt ← now;
  nodeUpdate node (λ n, n <| n_HealthBase := hNew |> <| n_HealthUpdatedAt := Some updatedAt |>).

(** [CalculateLongTermQos], src/service/qos.go 194-197 *)
Definition CalculateLongTermQos (qosScore : float64) : float64 := f64_div qosScore GetMaxQosScore.

(** [CalculateQosComponentsAt], src/service/qos.go 229-233 *)
Definition CalculateQosComponentsAt (qosScore healthBase : float64) (healthUpdatedAt : option Time) (t : Time)
    : float64 * float64 * float64 :=
  let h := getEffectiveHealthAt healthBase healthUpdatedAt t in
  let qosLong := CalculateLongTermQos qosScore in
  (qosLong, h, calculateCombinedQos qosLong h).

(** [CalculateQosScoreAt], src/service/qos.go 189-192 *)
Definition CalculateQosScoreAt (qosScore healthBase : float64) (healthUpdatedAt : option Time) (t : Time) : float64 :=
  snd (CalculateQosComponentsAt qosScore healthBase healthUpdatedAt t).

(** [resetNodeQosScorePool], src/service/qos.go 218-222 *)
Definition resetNodeQosScorePool (address : string) : M unit :=
  cache_write (λ c, c <| c_qos := delete address (c_qos c) |>).

(** [AdjustNodeQosForJoin], src/service/qos.go 199-216 *)
Definition AdjustNodeQosForJoin (node : Node) (isNewNode : bool) : M Node :=
  if isNewNode then mret node
  else
    let rejoinQosLongFloor := QoS_RejoinQosLongFloor env_cfg in
    let qosLong := CalculateLongTermQos (n_QOSScore node) in
    if f64_le rejoinQosLongFloor qosLong then mret node
    else
      resetNodeQosScorePool (n_Address node);;
      mret (node <| n_QOSScore := f64_mul rejoinQosLongFloor GetMaxQosScore |>).

(** [getNodeQosWindowSize], src/service/qos.go 235-240 *)
Definition getNodeQosWindowSize (nodeAddress : string) : M Z :=
  cache_read (λ c, Z.of_nat (length (default [] (c_qos c !! nodeAddress)))).

(** [updateNodeQosScore], src/service/node.go 543-555 *)
Definition updateNodeQosScore (node : Node) (qos : Z) : M Node :=
  qosScore ← getNodeTaskQosScore node qos;
  nodeUpdate node (λ n, n <| n_QOSScore := qosScore |>).
End qos.

(** ** The window holds the latest scores *)

(** The last [n] elements of a list. *)
Definition latest (n : nat) (l : list Z) : list Z := drop (length l - n) l.

Lemma pushScore_latest poolSize pool l qos :
  0 < poolSize → pool = latest (Z.to_nat poolSize) l →
  pushScore poolSize pool qos = latest (Z.to_nat poolSize) (l ++ [qos]).
Proof.
  intros Hp ->. unfold pushScore, latest. rewrite !length_app, length_drop. simpl.
  destruct (Z.ltb_spec poolSize (Z.of_nat (length l - (length l - Z.to_nat poolSize) + 1))) as [Hlt|Hge].
  - rewrite <- (drop_app_le l [qos]) by lia. rewrite drop_drop. f_equal. lia.
  - rewrite <- (drop_app_le l [qos]) by lia. f_equal. lia.
Qed.

Section window.
Context {E : Env}.

(** C40 (refinement): a node that receives the scores [qs] one after another
    keeps in its window exactly the latest [poolSize] entries of its seed
    followed by [qs], and each score it reports is the average of the window at
    that moment; so the window never exceeds its configured size. *)
Theorem qos_window_refinement (node : Node) (qs : list Z) (q : Z) (w : World) :
  0 ≤ QoS_ScorePoolSize env_cfg → c_qos (w_cache w) !! n_Address node = None →
  let poolSize := effectivePoolSize (QoS_ScorePoolSize env_cfg) in
  let window := latest (Z.to_nat poolSize) (seedPool node poolSize ++ qs ++ [q]) in
  wp (for_each qs (λ x, _ ← getNodeTaskQosScore node x; mret tt);; getNodeTaskQosScore node q)
    (λ r w', r = Ok (averageScore window) ∧ c_qos (w_cache w') !! n_Address node = Some window ∧
             Z.of_nat (length window) ≤ poolSize ∧ w_db w' = w_db w) w.
Proof.
  intros Hcfg Hnone poolSize window.
  assert (Hp : 0 < poolSize) by (unfold poolSize, effectivePoolSize; case_bool; lia).
  assert (Hlen : ∀ l, Z.of_nat (length (latest (Z.to_nat poolSize) l)) ≤ poolSize).
  { intros l. unfold latest. rewrite length_drop. lia. }
  assert (Hseed : seedPool node poolSize = latest (Z.to_nat poolSize) (seedPool node poolSize)).
  { unfold latest, seedPool. case_bool; [|by rewrite drop_nil]. rewrite length_replicate.
    replace (Z.to_nat (poolSize - 1) - Z.to_nat poolSize)%nat with 0%nat by lia. done. }
  set (get w := match c_qos (w_cache w) !! n_Address node with
                | Some pool => pool | None => seedPool node poolSize end).
  assert (Hone : ∀ x w, wp (getNodeTaskQosScore node x) (λ r w',
    r = Ok (averageScore (pushScore poolSize (get w) x)) ∧
    c_qos (w_cache w') !! n_Address node = Some (pushScore poolSize (get w) x) ∧ w_db w' = w_db w) w).
  { intros x w0. unfold getNodeTaskQosScore. wp_step. wp_step. wp_step. wp_step. wp_step.
    split_and!; [done|simpl; by rewrite lookup_insert_eq|done]. }
  assert (Hall : ∀ l w, get w = latest (Z.to_nat poolSize) l →
    wp (for_each qs (λ x, _ ← getNodeTaskQosScore node x; mret tt))
      (λ r w', r = Ok tt ∧ get w' = latest (Z.to_nat poolSize) (l ++ qs) ∧ w_db w' = w_db w) w).
  { clear -Hone Hp. induction qs as [|x qs IH]; intros l w0 Hg; simpl.
    { wp_step. by rewrite app_nil_r. }
    wp_step. wp_step. eapply wp_mono; [apply Hone|]. intros r w1 (-> & Hw1 & Hd1). wp_step.
    eapply wp_mono; [apply (IH (l ++ [x]))|].
    - unfold get at 1. rewrite Hw1. by apply pushScore_latest.
    - intros r w2 (-> & Hg2 & Hd2). rewrite <- app_assoc in Hg2. split_and!; [done|done|congruence]. }
  wp_step. eapply wp_mono; [apply (Hall (seedPool node poolSize)); unfold get; by rewrite Hnone|].
  intros r w1 (-> & Hg1 & Hd1). eapply wp_mono; [apply Hone|]. intros r w2 (-> & Hw2 & Hd2).
  rewrite (pushScore_latest _ _ _ q Hp Hg1), <- app_assoc in *. split_and!; [done|done|apply Hlen|congruence].
Qed.

(** The health of a node never exceeds one, whether it recovers with time or is
    boosted. *)
Lemma health_bounded (healthBase : float64) (healthUpdatedAt : option Time) (t : Time) :
  f64_lt f64_one (getEffectiveHealthAt healthBase healthUpdatedAt t) = false ∧
  f64_lt f64_one (calculateBoostedHealth (getEffectiveHealthAt healthBase healthUpdatedAt t)) = false.
Proof.
  split.
  - unfold getEffectiveHealthAt. destruct healthUpdatedAt; [|by vm_compute].
    case_bool; [by vm_compute|done].
  - unfold calculateBoostedHealth. case_bool; [by vm_compute|done].
Qed.
End window.

(** ** Witness *)

Definition demo_node : Node :=
  mkNode 1 "base" "0xn" NodeStatusBusy "RTX" 24 (f64_of_Z 4) 3 0 0 0 400 f64_one None false 10 (Some "0xt") None.

Lemma qos_window_refinement_witness :
  c_qos (w_cache (snd ((for_each [10; 5] (λ x, _ ← getNodeTaskQosScore (E:=demo_env) demo_node x; mret tt);;
    getNodeTaskQosScore (E:=demo_env) demo_node 2) empty_world))) !! "0xn" = Some (replicate 47 4 ++ [10; 5; 2]).
Proof.
  refine (proj1 (proj2 (qos_window_refinement (E:=demo_env) demo_node [10; 5] 2 empty_world _ _))).
  - by vm_compute.
  - reflexivity.
Defined.

End Qos.
