(* ===== verification/NodeState.v ===== *)
(** * Nodes

    Starting and finishing a task on a node, pausing, resuming, quitting,
    kicking out and slashing (src/service/node.go, with the counters of active
    node names of src/service/node_name_policy.go, the queued staking
    transactions of src/blockchain/nodeStaking.go and the node handlers of
    src/api/v1/nodes/).  Log lines and metrics are left out; the scheduling
    index, which is rebuilt from the rows after an update
    (src/service/node_index.go), is not part of the state. *)

From S2P Require Import Prelude Models Config Delegation VestingSchedule Deadline MaxStaking.
From S2P Require Import Store Statistic Ledger LedgerCoherence LedgerSync Vesting Qos.

Module NodeState.
Import Deadline Ledger LedgerCoherence LedgerSync Vesting Qos.

(** ** Definitions *)

(** [BuildNodeVersion], src/service/node_name_policy.go 51-53 *)
Definition BuildNodeVersion (major minor patch : Z) : string :=
  format_Z major +:+ "." +:+ format_Z minor +:+ "." +:+ format_Z patch.

(** [BuildNodeNameKeyFromNode], src/service/node_name_policy.go 91-97: the key of
    the counters is the triple (name, memory, version); the printed form
    [%s|%d|%s] is injective because only the name can contain a bar. *)
Definition nodeNameKey (node : Node) : string * Z * string :=
  (n_GPUName node, n_GPUVram node,
   BuildNodeVersion (n_MajorVersion node) (n_MinorVersion node) (n_PatchVersion node)).

(** [IsNodeStatusActiveForNodeNameCount], src/service/node_name_policy.go 99-101 *)
Definition IsNodeStatusActiveForNodeNameCount (status : NodeStatus) : bool :=
  negb (bool_decide (status = NodeStatusQuit)) && negb (bool_decide (status = NodeStatusPaused)).

Section node.
Context {E : Env}.

(** [emitEvent], src/service/event.go 10-20 *)
Definition emitEvent (e : RelayEvent) : M unit :=
  db_write (λ d, d <| db_log := db_log d ++ [e] |>).

(** *** Task rows *)

(** [GetTaskByIDCommitment], src/models/inference_task.go 239-247: the struct
    condition of gorm leaves out an empty commitment. *)
Definition GetTaskByIDCommitment (taskIDCommitment : string) : M InferenceTask :=
  db_first (λ d, find_first (λ t, String.eqb taskIDCommitment "" ||
                                  String.eqb (t_TaskIDCommitment t) taskIDCommitment) (db_tasks d)).

(** [GetTaskGroupByTaskID], src/models/inference_task.go 259-267 *)
Definition GetTaskGroupByTaskID (taskID : string) : M (list InferenceTask) :=
  db_read (λ d, select_where (λ t, String.eqb (t_TaskID t) taskID) (db_tasks d)).

(** [Update], src/models/inference_task.go 217-237, for values with a status: the
    row must still have the status the task has in memory.  The values are
    assigned to the task in memory too. *)
Definition taskUpdateStatus (task : InferenceTask) (f : InferenceTask → InferenceTask) : M InferenceTask :=
  if t_ID task =? 0 then fail ErrTaskIDEmpty
  else
    let p t := (t_ID t =? t_ID task) && bool_decide (t_Status t = t_Status task) in
    done ← try_ (db_exec (λ d,
      if exists_where p (db_tasks d)
      then Ok (tt, d <| db_tasks := update_where p f (db_tasks d) |>)
      else Err ErrTaskStatusChanged));
    match done with
    | Ok _ => mret (f task)
    | Err _ => fail ErrTaskStatusChanged
    end.

(** [Update], src/models/inference_task.go 217-237, for values without a
    status *)
Definition taskUpdate (task : InferenceTask) (f : InferenceTask → InferenceTask) : M InferenceTask :=
  if t_ID task =? 0 then fail ErrTaskIDEmpty
  else
    db_write (λ d, d <| db_tasks := update_where (λ t, t_ID t =? t_ID task) f (db_tasks d) |>);;
    mret (f task).

(** *** The counters of active node names *)

(** [IncrementNodeNameCountTx], src/service/node_name_policy.go 348-365 *)
Definition IncrementNodeNameCountTx (node : Node) : M unit :=
  let key := nodeNameKey node in
  db_write (λ d, d <| db_name_counts :=
    <[key := match db_name_counts d !! key with Some n => n + 1 | None => 1 end]> (db_name_counts d) |>).

(** [DecrementNodeNameCountTx], src/service/node_name_policy.go 367-391: an entry
    that reaches zero is deleted. *)
Definition DecrementNodeNameCountTx (node : Node) : M unit :=
  let key := nodeNameKey node in
  affected ← db_exec (λ d,
    match db_name_counts d !! key with
    | Some n =>
        if 0 <? n then Ok (true, d <| db_name_counts := <[key := n - 1]> (db_name_counts d) |>)
        else Ok (false, d)
    | None => Ok (false, d)
    end);
  if (affected : bool) then
    db_write (λ d, d <| db_name_counts :=
      match db_name_counts d !! key with
      | Some n => if n =? 0 then delete key (db_name_counts d) else db_name_counts d
      | None => db_name_counts d
      end |>)
  else
    entry ← try_ (db_first (λ d, db_name_counts d !! key));
    match entry with
    | Err e => if bool_decide (e = ErrRecordNotFound) then fail ErrNodeNameCountEntryMissing else fail e
    | Ok _ => fail ErrNodeNameCountAlreadyZero
    end.

(** [ApplyNodeNameCountDeltaToCache], src/service/node_name_policy.go 393-407 *)
Definition ApplyNodeNameCountDeltaToCache (node : Node) (delta : Z) : M unit :=
  let key := nodeNameKey node in
  cache_write (λ c,
    match c_name_counts c with
    | None => c
    | Some counts =>
        let next := default 0 (counts !! key) + delta in
        c <| c_name_counts := Some (if next <=? 0 then delete key counts else <[key := next]> counts) |>
    end).

(** *** Leaving the network *)

(** [clearNodeModelState], src/service/node_model_state.go 283-293 *)
Definition clearNodeModelState (address : string) : M unit :=
  let other (owner : string) := negb (String.eqb owner address) in
  db_write (λ d, d <| db_node_models := select_where (λ m, other (nm_NodeAddress m)) (db_node_models d) |>);;
  db_write (λ d, d <| db_in_memory_models := select_where (λ m, other (im_NodeAddress m)) (db_in_memory_models d) |>);;
  db_write (λ d, d <| db_download_selections :=
                        select_where (λ s, other (ds_NodeAddress s)) (db_download_selections d) |>).

(** [QueueUnstake] and [QueueSlashStaking], src/blockchain/nodeStaking.go 193-230
    and 348-385 *)
Definition queueTransaction (kind : string) (nodeAddress network : string) : M Z :=
  match assoc network (Blockchains env_cfg) with
  | None => fail (ErrMsg "network not found")
  | Some blockchain =>
      createdAt ← now;
      db_exec (λ d,
        let id := next_id bt_ID (db_chain_txs d) in
        Ok (id, d <| db_chain_txs := db_chain_txs d ++
                 [newTransaction id createdAt network kind (bc_AccountAddress blockchain) (bc_NodeStaking blockchain)
                    nodeAddress [] (bc_MaxRetries blockchain)] |>))
  end.

(** [QueueUnstake], src/blockchain/nodeStaking.go 193-230 *)
Definition QueueUnstake := queueTransaction "NodeStaking::unstake".
(** [QueueSlashStaking], src/blockchain/nodeStaking.go 348-385 *)
Definition QueueSlashStaking := queueTransaction "NodeStaking::slashStaking".

(** The values a node gets when it quits, src/service/node.go 219-223 *)
Definition quitNode (n : Node) : Node :=
  n <| n_Status := NodeStatusQuit |> <| n_CurrentTaskIDCommitment := None |> <| n_StakeAmount := 0 |>.

(** [setNodeStatusQuitTx], src/service/node.go 213-260: the node in memory,
    whether it was counted as active, and the queued transaction *)
Definition setNodeStatusQuitTx (node : Node) (slashed : bool) : M (Node * bool * Z) :=
  let wasActiveBeforeQuit := IsNodeStatusActiveForNodeNameCount (n_Status node) in
  clearNodeModelState (n_Address node);;
  node' ← nodeUpdateStatus node quitNode;
  (if wasActiveBeforeQuit then DecrementNodeNameCountTx node else mret tt);;
  stakingInfo ← ask (λ n, env_staking_info n (n_Address node) (n_Network node));
  txID ← (if negb (si_Status stakingInfo =? 0) then
            if slashed then QueueSlashStaking (n_Address node) (n_Network node)
            else QueueUnstake (n_Address node) (n_Network node)
          else mret 0);
  (if slashed then _ ← SlashNodeVestingsTx (n_Address node); mret tt else mret tt);;
  emitEvent (NodeQuitEvent (n_Address node) txID (n_Network node));;
  mret (node', wasActiveBeforeQuit, txID).

(** [applyNodeQuitPostCommit], src/service/node.go 262-267 *)
Definition applyNodeQuitPostCommit (node : Node) (wasActiveBeforeQuit : bool) : M unit :=
  UpdateMaxStaking (n_Address node) 0;;
  if wasActiveBeforeQuit then ApplyNodeNameCountDeltaToCache node (-1) else mret tt.

(** [SetNodeStatusQuit], src/service/node.go 190-211 *)
Definition SetNodeStatusQuit (node : Node) (slashed : bool) : M Node :=
  quit ← transaction (setNodeStatusQuitTx node slashed);
  let '(node', wasActiveBeforeQuit, _) := quit in
  applyNodeQuitPostCommit node' wasActiveBeforeQuit;;
  (if slashed then RefreshNodeVestingStake (n_Address node) else mret tt);;
  ask (λ n, env_snapshot n (n_Address node));;
  mret node'.

(** *** Working on a task *)

(** [nodeStartTask], src/service/node.go 269-294 *)
Definition nodeStartTask (node : Node) (taskIDCommitment : string) : M Node :=
  if negb (bool_decide (n_Status node = NodeStatusAvailable)) ||
     bool_decide (is_Some (n_CurrentTaskIDCommitment node))
  then fail (ErrMsg "node is not available")
  else
    t ← now;
    if IsHealthExcluded node t then fail ErrNodeHealthExcluded
    else
      transaction (
        node' ← nodeUpdateStatus node (λ n,
          let n := n <| n_Status := NodeStatusBusy |>
                     <| n_CurrentTaskIDCommitment := Some taskIDCommitment |> in
          if n_HealthExcluded node then n <| n_HealthExcluded := false |> else n);
        mret (node' <| n_Status := NodeStatusBusy |>
                    <| n_CurrentTaskIDCommitment := Some taskIDCommitment |>
                    <| n_HealthExcluded := false |>)).

(** The kick-out branch of [nodeFinishTask], src/service/node.go 305-328 *)
Definition kickOut (node : Node) (taskIDCommitment : string) : M Node :=
  _ ← GetTaskByIDCommitment taskIDCommitment;
  quit ← transaction (
    quit ← setNodeStatusQuitTx node false;
    emitEvent (NodeKickedOutEvent (n_Address node) taskIDCommitment (n_Network node));;
    mret quit);
  let '(node', wasActiveBeforeQuit, _) := quit in
  applyNodeQuitPostCommit node' wasActiveBeforeQuit;;
  mret node'.

(** [nodeFinishTask], src/service/node.go 296-362 *)
Definition nodeFinishTask (node : Node) : M Node :=
  if negb (bool_decide (n_Status node = NodeStatusBusy) || bool_decide (n_Status node = NodeStatusPendingPause) ||
           bool_decide (n_Status node = NodeStatusPendingQuit))
  then fail (ErrMsg "illegal node status")
  else
    match n_CurrentTaskIDCommitment node with
    | None => fail (ErrMsg "task id commitment is not valid")
    | Some taskIDCommitment =>
        kickout ← ShouldPermanentKickout node;
        if (kickout : bool) then kickOut node taskIDCommitment
        else
          match n_Status node with
          | NodeStatusBusy =>
              nodeUpdateStatus node (λ n, n <| n_Status := NodeStatusAvailable |>
                                            <| n_CurrentTaskIDCommitment := None |>)
          | NodeStatusPendingQuit => SetNodeStatusQuit node false
          | NodeStatusPendingPause =>
              node' ← transaction (
                node' ← nodeUpdateStatus node (λ n, n <| n_Status := NodeStatusPaused |>
                                                      <| n_CurrentTaskIDCommitment := None |>);
                DecrementNodeNameCountTx node';;
                mret node');
              ApplyNodeNameCountDeltaToCache node' (-1);;
              mret node'
          | _ => mret node
          end
    end.

(** *** Slashing *)

(** [abortNodeCurrentTaskForSlash], src/service/node.go 471-541: the unfinished
    task of the node is aborted and refunded; the commit function is returned
    for after the transaction. *)
Definition abortNodeCurrentTaskForSlash (node : Node) : M (option (M unit)) :=
  match n_CurrentTaskIDCommitment node with
  | None => mret None
  | Some taskIDCommitment =>
      task ← GetTaskByIDCommitment taskIDCommitment;
      if negb (String.eqb (t_SelectedNode task) (n_Address node)) then fail ErrWrongNodeCurrentTask
      else if terminal (t_Status task) then mret None
      else
        let lastStatus := t_Status task in
        commitFunc ← refundTaskPaymentToRelayAccount (t_TaskIDCommitment task) (t_Creator task) (t_TaskFee task);
        task' ← taskUpdateStatus (task <| t_AbortReason := TaskAbortNodeSlashed |>)
          (λ t, t <| t_Status := TaskEndAborted |> <| t_AbortReason := TaskAbortNodeSlashed |>
                  <| t_DeadlineAt := None |>);
        emitEvent (TaskEndAbortedEvent (t_TaskIDCommitment task) (getDefaultAbortIssuer env_cfg)
                     TaskAbortNodeSlashed lastStatus);;
        (if bool_decide (lastStatus = TaskGroupValidated) && negb (String.eqb (t_TaskID task) "") then
           _ ← GetTaskGroupByTaskID (t_TaskID task); mret tt
         else mret tt);;
        mret (Some commitFunc)
  end.

(** [slashNodeTx], src/service/node.go 452-469 *)
Definition slashNodeTx (node : Node) (taskIDCommitment : string) : M (Node * bool * Z * option (M unit)) :=
  let taskIDCommitment := if String.eqb taskIDCommitment "" then "0x" else taskIDCommitment in
  postCommit ← abortNodeCurrentTaskForSlash node;
  let slashedAmount := n_StakeAmount node in
  quit ← setNodeStatusQuitTx node true;
  emitEvent (NodeSlashedEvent (n_Address node) taskIDCommitment slashedAmount (n_Network node));;
  mret (quit, postCommit).

(** What follows the transaction of a slash, src/service/node.go 378-389 and
    438-449 *)
Definition afterSlash (slashed : Node * bool * Z * option (M unit)) : M Z :=
  let '(node', wasActiveBeforeQuit, blockchainTransactionID, postCommit) := slashed in
  (match postCommit with Some commit => commit | None => mret tt end);;
  applyNodeQuitPostCommit node' wasActiveBeforeQuit;;
  RefreshNodeVestingStake (n_Address node');;
  mret blockchainTransactionID.

(** [SlashNode], src/service/node.go 364-390 *)
Definition SlashNode (node : Node) (taskIDCommitment : string) : M Z :=
  if bool_decide (n_Status node = NodeStatusQuit) then fail (ErrMsg "node has already quit")
  else
    slashed ← transaction (slashNodeTx node taskIDCommitment);
    afterSlash slashed.

(** The row of a pending slash. *)
Definition firstPendingSlash (pendingSlashID : Z) : M PendingSlash :=
  db_first (λ d, find_first (λ p, ps_ID p =? pendingSlashID) (db_pending_slashes d)).

(** [SlashPendingNode], src/service/node.go 392-450 *)
Definition SlashPendingNode (pendingSlashID : Z) : M Z :=
  _ ← firstPendingSlash pendingSlashID;
  slashed ← transaction (
    pendingSlash ← firstPendingSlash pendingSlashID;
    if ps_Slashed pendingSlash then fail ErrPendingSlashAlreadyProcessed
    else if negb (env_evidence_valid (ps_EvidenceJSON pendingSlash)) then fail (ErrMsg "invalid evidence")
    else
      node ← GetNodeByAddress (ps_NodeAddress pendingSlash);
      if bool_decide (n_Status node = NodeStatusQuit) then fail (ErrMsg "node has already quit")
      else
        slashed ← slashNodeTx node (ps_TaskIDCommitment pendingSlash);
        db_write (λ d, d <| db_pending_slashes := update_where (λ p, ps_ID p =? pendingSlashID)
          (λ _, pendingSlash <| ps_Slashed := true |>) (db_pending_slashes d) |>);;
        mret slashed);
  afterSlash slashed.

(** [createPendingSlash], src/service/slash_evidence.go 454-468 *)
Definition createPendingSlash (taskIDCommitment : string) (node : Node) (evidence : string)
    (evidenceComplete : bool) : M unit :=
  db_write (λ d, d <| db_pending_slashes := db_pending_slashes d ++
    [mkPendingSlash (next_id ps_ID (db_pending_slashes d)) false (n_Address node) (n_Network node)
       taskIDCommitment evidence evidenceComplete] |>).

(** *** The node handlers *)

(** [for range 3] of the handlers: an attempt is repeated with the current status
    when the status had changed meanwhile; the last error is returned. *)
Fixpoint attempts (n : nat) (last : error) (node : Node) (attempt : Node → M unit)
    (inMemory : Node → Node) : M unit :=
  match n with
  | O => fail last
  | S n' =>
      outcome ← try_ (attempt node);
      match outcome with
      | Ok _ => mret tt
      | Err e =>
          if bool_decide (e = ErrNodeStatusChanged) then
            node' ← nodeSyncStatus (inMemory node);
            attempts n' e node' attempt inMemory
          else fail e
      end
  end.

(** [NodePause], src/api/v1/nodes/pause.go 43-95, after the signature check *)
Definition NodePause (address : string) : M unit :=
  node ← GetNodeByAddress address;
  attempts 3 ErrDatabase node (λ node,
    match n_Status node with
    | NodeStatusAvailable =>
        node' ← transaction (
          node' ← nodeUpdateStatus node (λ n, n <| n_Status := NodeStatusPaused |>);
          DecrementNodeNameCountTx node';;
          mret node');
        ApplyNodeNameCountDeltaToCache node' (-1)
    | NodeStatusBusy =>
        _ ← nodeUpdateStatus node (λ n, n <| n_Status := NodeStatusPendingPause |>); mret tt
    | _ => fail (ErrMsg "Illegal node status")
    end) id.

(** [NodeResume], src/api/v1/nodes/resume.go 43-83, after the signature check *)
Definition NodeResume (address : string) : M unit :=
  node ← GetNodeByAddress address;
  attempts 3 ErrDatabase node (λ node,
    match n_Status node with
    | NodeStatusPaused =>
        node' ← transaction (
          node' ← nodeUpdateStatus node (λ n, n <| n_Status := NodeStatusAvailable |>);
          IncrementNodeNameCountTx node';;
          mret node');
        ApplyNodeNameCountDeltaToCache node' 1
    | _ => fail (ErrMsg "Illegal node status")
    end) id.

(** [NodeQuit], src/api/v1/nodes/quit.go 45-100, after the signature check.  A
    failed attempt to quit has already emptied the node in memory. *)
Definition NodeQuit (address : string) : M unit :=
  node ← GetNodeByAddress address;
  stakingInfo ← ask (λ n, env_staking_info n address (n_Network node));
  if si_Status stakingInfo =? 1 then fail (ErrMsg "Staking status is staked")
  else
    attempts 3 ErrDatabase node (λ node,
      match n_Status node with
      | NodeStatusAvailable | NodeStatusPaused => _ ← SetNodeStatusQuit node false; mret tt
      | NodeStatusBusy =>
          _ ← nodeUpdateStatus node (λ n, n <| n_Status := NodeStatusPendingQuit |>); mret tt
      | NodeStatusQuit | NodeStatusPendingQuit => mret tt
      | NodeStatusPendingPause => fail (ErrMsg "Illegal node status")
      end)
      (λ node, match n_Status node with
               | NodeStatusAvailable | NodeStatusPaused => quitNode node
               | _ => node
               end).

End node.
End NodeState.
