(* ===== verification/NodeNames.v ===== *)
(** * Node names: the whitelist and the counters of active nodes

    src/service/node_name_policy.go: a node is admitted by the name of its card,
    its memory and its version.  Both tables are cached; the caches are loaded on
    first use.  The keys of the Go maps are printed as [name|memory|version]; here
    they are triples (only the name can contain a bar, so the printed form is
    injective). *)

From Stdlib Require Import Ascii.
From S2P Require Import Prelude Models Config Delegation VestingSchedule Deadline MaxStaking.
From S2P Require Import Store Statistic Ledger LedgerCoherence LedgerSync Vesting Qos NodeState.

Module NodeNames.
Import Vesting NodeState.

(** [strings.Fields] on ASCII text: the maximal runs of characters that are not
    white space. *)
Fixpoint Fields_from (word : string) (s : string) : list string :=
  let flush := if String.eqb word "" then [] else [word] in
  match s with
  | EmptyString => flush
  | String c r =>
      if is_space c then flush ++ Fields_from "" r
      else Fields_from (word +:+ String c EmptyString) r
  end.
Definition Fields (s : string) : list string := Fields_from "" s.

(** [strings.Join(words, " ")] *)
Fixpoint join_spaces (words : list string) : string :=
  match words with
  | [] => ""
  | [w] => w
  | w :: words' => w +:+ " " +:+ join_spaces words'
  end.

(** [NormalizeGPUName], src/models/gpu_name.go 8-10 *)
Definition NormalizeGPUName (name : string) : string := join_spaces (Fields name).

(** [ParseNodeVersion], src/service/node_name_policy.go 55-73 *)
Definition ParseNodeVersion (version : string) : result (Z * Z * Z) :=
  match SplitN "."%char version 4 with
  | [v0; v1; v2] =>
      match ParseUint v0, ParseUint v1, ParseUint v2 with
      | Some major, Some minor, Some patch => Ok (major, minor, patch)
      | _, _, _ => Err ErrInvalidNodeNameVersion
      end
  | _ => Err ErrInvalidNodeNameVersion
  end.

(** [NormalizeNodeNameEntry], src/service/node_name_policy.go 75-89, with
    [BuildNodeNameKey] *)
Definition NormalizeNodeNameEntry (gpuName : string) (gpuVram : Z) (nodeVersion : string)
    : result (string * Z * string) :=
  let normalizedGPUName := NormalizeGPUName gpuName in
  if String.eqb normalizedGPUName "" then Err ErrInvalidNodeNameGPUName
  else match ParseNodeVersion (TrimSpace nodeVersion) with
       | Err e => Err e
       | Ok (major, minor, patch) => Ok (normalizedGPUName, gpuVram, BuildNodeVersion major minor patch)
       end.

Section names.
Context {E : Env}.

(** [RefreshNodeNameWhitelistCache] and [loadNodeNameWhitelistCacheLocked],
    src/service/node_name_policy.go 207-211 and 229-242 *)
Definition RefreshNodeNameWhitelistCache : M unit :=
  entries ← db_read db_name_whitelist;
  cache_write (λ c, c <| c_name_whitelist := Some entries |>).

(** [AddNodeNameWhitelist], src/service/node_name_policy.go 103-122 *)
Definition AddNodeNameWhitelist (gpuName : string) (gpuVram : Z) (nodeVersion : string) : M unit :=
  entry ← lift (NormalizeNodeNameEntry gpuName gpuVram nodeVersion);
  added ← db_exec (λ d, Ok (bool_decide (entry ∉ db_name_whitelist d),
                            d <| db_name_whitelist := {[entry]} ∪ db_name_whitelist d |>));
  if (added : bool) then RefreshNodeNameWhitelistCache else fail ErrNodeNameWhitelistExists.

(** [DeleteNodeNameWhitelist], src/service/node_name_policy.go 124-139 *)
Definition DeleteNodeNameWhitelist (gpuName : string) (gpuVram : Z) (nodeVersion : string) : M unit :=
  entry ← lift (NormalizeNodeNameEntry gpuName gpuVram nodeVersion);
  deleted ← db_exec (λ d, Ok (bool_decide (entry ∈ db_name_whitelist d),
                              d <| db_name_whitelist := db_name_whitelist d ∖ {[entry]} |>));
  if (deleted : bool) then RefreshNodeNameWhitelistCache else fail ErrNodeNameWhitelistMissing.

(** [ensureNodeNameWhitelistCacheLoaded], src/service/node_name_policy.go 213-227 *)
Definition ensureNodeNameWhitelistCacheLoaded : M unit :=
  loaded ← cache_read c_name_whitelist;
  match loaded with Some _ => mret tt | None => RefreshNodeNameWhitelistCache end.

(** [IsNodeNameWhitelisted], src/service/node_name_policy.go 192-205 *)
Definition IsNodeNameWhitelisted (gpuName : string) (gpuVram : Z) (nodeVersion : string) : M bool :=
  entry ← lift (NormalizeNodeNameEntry gpuName gpuVram nodeVersion);
  ensureNodeNameWhitelistCacheLoaded;;
  cache_read (λ c, bool_decide (entry ∈ default ∅ (c_name_whitelist c))).

(** [RefreshNodeNameCountCache] and [loadNodeNameCountCacheLocked],
    src/service/node_name_policy.go 311-315 and 333-346 *)
Definition RefreshNodeNameCountCache : M unit :=
  entries ← db_read db_name_counts;
  cache_write (λ c, c <| c_name_counts := Some entries |>).

(** [ensureNodeNameCountCacheLoaded], src/service/node_name_policy.go 317-332 *)
Definition ensureNodeNameCountCacheLoaded : M unit :=
  loaded ← cache_read c_name_counts;
  match loaded with Some _ => mret tt | None => RefreshNodeNameCountCache end.

(** [GetNodeNameActiveCount], src/service/node_name_policy.go 297-309 *)
Definition GetNodeNameActiveCount (gpuName : string) (gpuVram : Z) (nodeVersion : string) : M Z :=
  entry ← lift (NormalizeNodeNameEntry gpuName gpuVram nodeVersion);
  ensureNodeNameCountCacheLoaded;;
  cache_read (λ c, default 0 (default ∅ (c_name_counts c) !! entry)).
End names.
End NodeNames.
