(* ===== verification/NodeIndex.v ===== *)
(** * The node scheduling index

    src/service/node_index.go keeps one immutable entry per node that has not
    quit; matching works on a snapshot of it.  The index is passed explicitly (a
    map from address to entry).  Every change of a node goes through
    [ExecuteNodeStateUpdate], which refreshes the entries of the nodes it lists
    from the database afterwards, whether the change succeeded or not.  The model
    requirements of a task and the files a node holds
    (src/service/node_model_state.go, src/models/model_file.go) are here too;
    hashes are lists of 32 bytes. *)

From Stdlib Require Import Ascii.
From stdpp Require Import sorting.
From S2P Require Import Prelude Models Config Delegation VestingSchedule Deadline Mac ModelFiles MaxStaking.
From S2P Require Import Store Statistic Ledger LedgerCoherence LedgerSync Vesting Qos NodeState.

Module NodeIndex.
Import Mac ModelFiles Vesting Qos NodeState.

(** ** Model files *)

(** [taskModelRequirements], src/service/node_model_state.go 20-24 *)
Record taskModelRequirements := mkRequirements {
  rq_exact : list (list Z);
  rq_source : list (list Z);
  rq_cacheHash : list Z
}.

(** [newTaskModelRequirements], src/service/node_model_state.go 26-40 *)
Definition newTaskModelRequirements (task : InferenceTask) : result taskModelRequirements :=
  match DecodeHashList (t_RequiredModelFileHashes task) with
  | Err e => Err e
  | Ok exact =>
      match DecodeHashList (t_RequiredModelFileSourceHashes task) with
      | Err e => Err e
      | Ok source =>
          match Hash32FromBytes (t_RequestedModelCacheHash task) with
          | Err e => Err e
          | Ok cacheHash => Ok (mkRequirements exact source cacheHash)
          end
      end
  end.

(** [modelFilesCovered], src/service/node_model_state.go 44-56 *)
Definition modelFilesCovered (exactHeld sourceHeld : gset (list Z)) (exact source : list (list Z)) : bool :=
  forallb (λ h, bool_decide (h ∈ exactHeld)) exact && forallb (λ h, bool_decide (h ∈ sourceHeld)) source.

(** ** Entries *)

(** [NodeIndexEntry], src/service/node_index.go 21-46 *)
Record NodeIndexEntry := mkEntry {
  ix_Address : string;
  ix_Network : string;
  ix_Status : NodeStatus;
  ix_HasCurrentTask : bool;
  ix_GPUName : string;
  ix_GPUVram : Z;
  ix_MajorVersion : Z;
  ix_MinorVersion : Z;
  ix_PatchVersion : Z;
  ix_QOSScore : float64;
  ix_HealthBase : float64;
  ix_HealthUpdatedAt : option Time;
  ix_HealthExcluded : bool;
  ix_StakeAmount : Z;
  ix_OnDiskModelFileHashes : gset (list Z);
  ix_OnDiskModelFileSourceHashes : gset (list Z);
  ix_CurrentModelCacheHash : option (list Z);
  ix_CurrentModelFileHashes : gset (list Z);
  ix_CurrentModelFileSourceHashes : gset (list Z)
}.

(** [scoreNode], src/service/node_index.go 50-61 *)
Definition scoreNode (e : NodeIndexEntry) : Node :=
  mkNode 0 (ix_Network e) (ix_Address e) (ix_Status e) "" 0 (ix_QOSScore e) 0 0 0 0 (ix_StakeAmount e)
    (ix_HealthBase e) (ix_HealthUpdatedAt e) (ix_HealthExcluded e) 0 None None.

(** [holdsRequiredModelFiles], src/service/node_model_state.go 59-61 *)
Definition holdsRequiredModelFiles (e : NodeIndexEntry) (r : taskModelRequirements) : bool :=
  modelFilesCovered (ix_OnDiskModelFileHashes e) (ix_OnDiskModelFileSourceHashes e) (rq_exact r) (rq_source r).

(** [holdsRequiredModelInMemory], src/service/node_model_state.go 65-70 *)
Definition holdsRequiredModelInMemory (e : NodeIndexEntry) (r : taskModelRequirements) : bool :=
  bool_decide (ix_CurrentModelCacheHash e = Some (rq_cacheHash r)) &&
  modelFilesCovered (ix_CurrentModelFileHashes e) (ix_CurrentModelFileSourceHashes e) (rq_exact r) (rq_source r).

(** [NodeModelFileRow], src/models/node_model_files.go 14-18 *)
Record NodeModelFileRow := mkFileRow {
  nf_NodeAddress : string;
  nf_ModelFileHash : list Z;
  nf_ModelFileSourceHash : list Z
}.

(** Hashes and source hashes of rows, decoded *)
Fixpoint decodeFiles (files : list NodeModelFileRow) : result (list (list Z * list Z)) :=
  match files with
  | [] => Ok []
  | file :: files' =>
      match Hash32FromBytes (nf_ModelFileHash file), Hash32FromBytes (nf_ModelFileSourceHash file), decodeFiles files' with
      | Ok h, Ok s, Ok rest => Ok ((h, s) :: rest)
      | Err e, _, _ | _, Err e, _ | _, _, Err e => Err e
      end
  end.

(** [FileHashes], src/models/node_in_memory_model.go 36-38 *)
Definition FileHashes (m : NodeInMemoryModel) : result (list (list Z)) := DecodeHashList (im_CurrentModelFileHashes m).

(** [buildNodeIndexEntry], src/service/node_index.go 81-135; the source of a hash
    is the one of its last row. *)
Definition buildNodeIndexEntry (node : Node) (files : list NodeModelFileRow) (inMemory : option NodeInMemoryModel)
    : result NodeIndexEntry :=
  match decodeFiles files with
  | Err e => Err e
  | Ok held =>
      let entry := mkEntry (n_Address node) (n_Network node) (n_Status node)
        (bool_decide (is_Some (n_CurrentTaskIDCommitment node))) (n_GPUName node) (n_GPUVram node)
        (n_MajorVersion node) (n_MinorVersion node) (n_PatchVersion node) (n_QOSScore node) (n_HealthBase node)
        (n_HealthUpdatedAt node) (n_HealthExcluded node) (n_StakeAmount node)
        (list_to_set (map fst held)) (list_to_set (map snd held)) in
      match inMemory with
      | None => Ok (entry None ∅ ∅)
      | Some m =>
          match Hash32FromBytes (im_CurrentModelCacheHash m), FileHashes m with
          | Ok cacheHash, Ok currentFiles =>
              let sourceOf h := snd <$> find_first (λ f, bool_decide (fst f = h)) (rev held) in
              Ok (entry (Some cacheHash) (list_to_set currentFiles) (list_to_set (omap sourceOf currentFiles)))
          | Err e, _ | _, Err e => Err e
          end
      end
  end.

(** ** The inventory of nodes *)

(** The catalog row of a hash *)
Definition catalogRow (d : DB) (hash : list Z) : option ModelFile :=
  find_first (λ f, bool_decide (mf_ModelFileHash f = hash)) (db_model_files d).

(** The order of the rows: by address, then by hash *)
Definition row_le (a b : NodeModelFileRow) : Prop :=
  match String.compare (nf_NodeAddress a) (nf_NodeAddress b) with
  | Lt => True
  | Eq => bytes_le (nf_ModelFileHash a) (nf_ModelFileHash b)
  | Gt => False
  end.
#[export] Instance row_le_dec a b : Decision (row_le a b).
Proof. unfold row_le. destruct (String.compare _ _); apply _. Defined.

(** [ListNodeModelFileRows], src/models/node_model_files.go 51-66: the files of the
    given nodes, or of all, that are in the catalog *)
Definition joinRow (d : DB) (m : NodeModel) : option NodeModelFileRow :=
  f ← catalogRow d (nm_ModelFileHash m);
  Some (mkFileRow (nm_NodeAddress m) (nm_ModelFileHash m) (mf_ModelFileSourceHash f)).
Definition ListNodeModelFileRows (addresses : list string) (d : DB) : list NodeModelFileRow :=
  merge_sort row_le (omap (joinRow d)
    (select_where (λ m, bool_decide (addresses = []) || bool_decide (nm_NodeAddress m ∈ addresses)) (db_node_models d))).

(** The rows of one node among the rows read *)
Definition rowsOf (address : string) (rows : list NodeModelFileRow) : list NodeModelFileRow :=
  select_where (λ r, String.eqb (nf_NodeAddress r) address) rows.

(** The in-memory model of a node *)
Definition memoryOf (address : string) (d : DB) : option NodeInMemoryModel :=
  find_first (λ m, String.eqb (im_NodeAddress m) address) (db_in_memory_models d).

Notation index := (gmap string NodeIndexEntry).

(** ** The index *)

Section index.
Context {E : Env}.

(** [GetNodeInMemoryModel], src/models/node_in_memory_model.go 58-70 *)
Definition GetNodeInMemoryModel (address : string) : M (option NodeInMemoryModel) :=
  found ← try_ (db_first (memoryOf address));
  match found with
  | Ok m => mret (Some m)
  | Err e => if bool_decide (e = ErrRecordNotFound) then mret None else fail e
  end.

(** [refreshNodeIndexLocked], src/service/node_index.go 238-267, with
    [loadNodeModelState] for one node, 145-176 *)
Definition refreshNodeIndexLocked (ix : index) (address : string) : M index :=
  found ← try_ (db_first (λ d, find_first (λ n, String.eqb (n_Address n) address) (db_nodes d)));
  match found with
  | Err e => if bool_decide (e = ErrRecordNotFound) then mret (delete address ix) else fail e
  | Ok node =>
      if bool_decide (n_Status node = NodeStatusQuit) then mret (delete address ix)
      else
        rows ← db_read (ListNodeModelFileRows [address]);
        memory ← GetNodeInMemoryModel address;
        entry ← lift (buildNodeIndexEntry node (rowsOf address rows) memory);
        mret (<[address := entry]> ix)
  end.

(** The order in which the locks are taken. *)
Definition string_le (x y : string) : Prop := String.leb x y = true.
#[export] Instance string_le_dec : RelDecision string_le.
Proof. intros x y. unfold string_le. apply _. Defined.

(** The addresses a state update covers: sorted, without duplicates and without
    the empty address, src/service/node_index.go 302-314 *)
Definition lockedAddresses (addresses : list string) : list string :=
  merge_sort string_le (remove_dups (select_where (λ a, negb (String.eqb a "")) addresses)).

(** The refresh of the locked nodes, src/service/node_index.go 329-333: an error
    is only logged and leaves the old entry. *)
Fixpoint refreshAll (ix : index) (addresses : list string) : M index :=
  match addresses with
  | [] => mret ix
  | address :: rest =>
      refreshed ← try_ (refreshNodeIndexLocked ix address);
      refreshAll (match refreshed with Ok ix' => ix' | Err _ => ix end) rest
  end.

(** [ExecuteNodeStateUpdate], src/service/node_index.go 301-335: the result of
    the update and the index after it *)
Definition ExecuteNodeStateUpdate {A} (ix : index) (addresses : list string) (fn : M A) : M (result A * index) :=
  outcome ← try_ fn;
  ix' ← refreshAll ix (lockedAddresses addresses);
  mret (outcome, ix').

(** The loop of [InitNodeIndex], src/service/node_index.go 219-227 *)
Fixpoint indexNodes (rows : list NodeModelFileRow) (memory : list NodeInMemoryModel) (ix : index)
    (nodes : list Node) : result index :=
  match nodes with
  | [] => Ok ix
  | node :: nodes' =>
      let inMemory := find_first (λ m, String.eqb (im_NodeAddress m) (n_Address node)) (rev memory) in
      match buildNodeIndexEntry node (rowsOf (n_Address node) rows) inMemory with
      | Err e => Err e
      | Ok entry => indexNodes rows memory (<[n_Address node := entry]> ix) nodes'
      end
  end.

(** [InitNodeIndex], src/service/node_index.go 203-233, with [loadNodeModelState]
    for all nodes, 145-168 *)
Definition InitNodeIndex : M index :=
  nodes ← db_read (λ d, select_where (λ n, negb (bool_decide (n_Status n = NodeStatusQuit))) (db_nodes d));
  rows ← db_read (ListNodeModelFileRows []);
  memory ← db_read db_in_memory_models;
  lift (indexNodes rows memory ∅ nodes).

(** [SnapshotNodeIndex], src/service/node_index.go 339-349, in some order *)
Definition SnapshotNodeIndex (ix : index) : list NodeIndexEntry := map snd (map_to_list ix).

(** ** The index reflects the table *)

(** The row of an address, unless it has quit. *)
Definition present (d : DB) (a : string) : option Node :=
  match find_first (λ n, String.eqb (n_Address n) a) (db_nodes d) with
  | Some n => if bool_decide (n_Status n = NodeStatusQuit) then None else Some n
  | None => None
  end.

Lemma present_None d a : (∀ n, n ∈ db_nodes d → n_Address n ≠ a) → present d a = None.
Proof.
  intros H. unfold present. destruct (find_first _ _) as [n|] eqn:Hf; [|done].
  apply find_first_Some in Hf as [Hin Ha%String.eqb_eq]. by destruct (H n Hin).
Qed.

(** The entry that describes a node: its row, the files it holds and the model in
    its memory. *)
Definition entryAt (d : DB) (a : string) : option NodeIndexEntry :=
  node ← present d a;
  match buildNodeIndexEntry node (rowsOf a (ListNodeModelFileRows [a] d)) (memoryOf a d) with
  | Ok entry => Some entry
  | Err _ => None
  end.

Lemma entryAt_None d a : present d a = None → entryAt d a = None.
Proof. unfold entryAt. by intros ->. Qed.

Definition reflects (d : DB) (ix : index) (a : string) : Prop := ix !! a = entryAt d a.

(** The columns of the inventory hold hashes. *)
Definition inventory_ok (d : DB) : Prop :=
  Forall (λ m, is_hash (nm_ModelFileHash m)) (db_node_models d) ∧
  Forall (λ f, is_hash (mf_ModelFileSourceHash f)) (db_model_files d) ∧
  Forall (λ m, is_hash (im_CurrentModelCacheHash m) ∧ (length (im_CurrentModelFileHashes m) mod 32 = 0)%nat)
    (db_in_memory_models d).

Lemma Hash32_ok h : is_hash h → Hash32FromBytes h = Ok h.
Proof. unfold Hash32FromBytes. by intros ->. Qed.

Lemma decodeFiles_ok files :
  Forall (λ r, is_hash (nf_ModelFileHash r) ∧ is_hash (nf_ModelFileSourceHash r)) files →
  decodeFiles files = Ok (map (λ r, (nf_ModelFileHash r, nf_ModelFileSourceHash r)) files).
Proof. induction 1 as [|r files [H1 H2] _ IH]; [done|]. simpl. by rewrite !Hash32_ok, IH. Qed.

Lemma rows_hashes d addresses a : inventory_ok d →
  Forall (λ r, is_hash (nf_ModelFileHash r) ∧ is_hash (nf_ModelFileSourceHash r))
    (rowsOf a (ListNodeModelFileRows addresses d)).
Proof.
  intros (Hm & Hf & _). apply Forall_forall. intros r Hr. apply elem_of_select in Hr as [Hr _].
  unfold ListNodeModelFileRows in Hr. rewrite merge_sort_Permutation in Hr.
  apply list_elem_of_omap in Hr as (m & Hin & Hj). apply elem_of_select in Hin as [Hin _].
  unfold joinRow in Hj. apply bind_Some in Hj as (f & Hc & [= <-]). simpl.
  apply find_first_Some in Hc as [Hfin _]. rewrite Forall_forall in Hm. rewrite Forall_forall in Hf. auto.
Qed.

Lemma build_ok d addresses a b node : inventory_ok d →
  ∃ e, buildNodeIndexEntry node (rowsOf a (ListNodeModelFileRows addresses d)) (memoryOf b d) = Ok e.
Proof.
  intros Hd. unfold buildNodeIndexEntry. rewrite decodeFiles_ok by (by apply rows_hashes).
  destruct (memoryOf b d) as [m|] eqn:Hm; [|by eexists].
  apply find_first_Some in Hm as [Hm _]. destruct Hd as (_ & _ & Hd). rewrite Forall_forall in Hd.
  destruct (Hd m Hm) as [Hc Hl]. rewrite Hash32_ok by done. unfold FileHashes, DecodeHashList. rewrite Hl. simpl. by eexists.
Qed.

(** A refresh touches one entry, and leaves it right unless it reports an error. *)
Lemma wp_refreshLocked ix a w :
  wp (refreshNodeIndexLocked ix a) (λ r w', w_db w' = w_db w ∧
    match r with
    | Ok ix' => reflects (w_db w) ix' a ∧ ∀ b, b ≠ a → ix' !! b = ix !! b
    | Err _ => inventory_ok (w_db w) → (∀ n, env_fault n = false) → False
    end) w.
Proof.
  unfold refreshNodeIndexLocked, GetNodeInMemoryModel, db_first, db_read, db_exec, wp, mbind, M_bind, try_.
  destruct (env_fault _) eqn:Ef; simpl.
  { split; [done|]. intros _ H. by rewrite H in Ef. }
  assert (Hdel : ∀ b, b ≠ a → delete a ix !! b = ix !! b) by (intros b Hb; by rewrite lookup_delete_ne).
  unfold reflects, entryAt, present. destruct (find_first _ _) as [n|]; simpl.
  2: { split; [done|]. split; [by rewrite lookup_delete_eq|done]. }
  case_bool_decide as Hq; simpl.
  { split; [done|]. split; [by rewrite lookup_delete_eq|done]. }
  destruct (env_fault (S _)) eqn:Ef1; simpl.
  { split; [done|]. intros _ H. by rewrite H in Ef1. }
  destruct (env_fault (S (S _))) eqn:Ef2; simpl.
  { split; [done|]. intros _ H. by rewrite H in Ef2. }
  pose proof (build_ok (w_db w) [a] a a n) as Hok. unfold lift.
  destruct (memoryOf a (w_db w)) as [m|]; simpl;
    (destruct (buildNodeIndexEntry n _ _) as [entry|e]; simpl;
     [split; [done|]; rewrite lookup_insert_eq; split; [done|]; intros b Hb; by rewrite lookup_insert_ne
     |split; [done|]; intros Hd _; by destruct (Hok Hd)]).
Qed.

Lemma wp_refreshAll addresses ix w :
  inventory_ok (w_db w) → (∀ n, env_fault n = false) →
  wp (refreshAll ix addresses) (λ r w', w_db w' = w_db w ∧ ∃ ix', r = Ok ix' ∧
    ∀ a, if bool_decide (a ∈ addresses) then reflects (w_db w) ix' a else ix' !! a = ix !! a) w.
Proof.
  intros Hinv Hf. revert ix w Hinv. induction addresses as [|a rest IH]; intros ix w Hinv; simpl.
  { wp_step. split; [done|]. eexists. split; [done|]. done. }
  wp_step. wp_step. eapply wp_mono; [apply wp_refreshLocked|]. intros [ix'|e] w1 [Hd H]; [|by destruct H].
  destruct H as [Ha Ho]. eapply wp_mono; [apply IH; by rewrite Hd|]. intros r w2 [Hd2 (ix2 & -> & H2)].
  rewrite Hd in *. split; [congruence|]. eexists. split; [done|]. intros b. specialize (H2 b).
  destruct (decide (b ∈ rest)) as [Hb|Hb].
  - rewrite bool_decide_true in H2 by done. rewrite bool_decide_true by set_solver. done.
  - rewrite bool_decide_false in H2 by done. destruct (decide (b = a)) as [->|Hne].
    + rewrite bool_decide_true by set_solver. unfold reflects in *. by rewrite H2.
    + rewrite bool_decide_false by set_solver. rewrite H2. by apply Ho.
Qed.

Lemma elem_of_locked a addresses : a ≠ "" → a ∈ lockedAddresses addresses ↔ a ∈ addresses.
Proof.
  intros Ha. unfold lockedAddresses. rewrite merge_sort_Permutation, elem_of_remove_dups, elem_of_select.
  destruct (String.eqb_spec a ""); [done|]. simpl. tauto.
Qed.

(** C32 (refinement): as long as accesses succeed, a state update keeps the index in
    step with the tables: if every entry described its node before - row, files on
    disk and model in memory - and the update only changed nodes it lists, every
    entry describes its node after, whether or not the update itself succeeded;
    and the caller gets the result of the update. *)
Theorem index_reflects_nodes {A} (ix : index) (addresses : list string) (fn : M A) (w : World) :
  inventory_ok (w_db (snd (fn w))) → (∀ n, env_fault n = false) →
  (∀ a, a ≠ "" → reflects (w_db w) ix a) →
  (∀ a, a ≠ "" → a ∉ addresses → entryAt (w_db (snd (fn w))) a = entryAt (w_db w) a) →
  wp (ExecuteNodeStateUpdate ix addresses fn) (λ r w',
    ∃ ix', r = Ok (fst (fn w), ix') ∧ w_db w' = w_db (snd (fn w)) ∧ ∀ a, a ≠ "" → reflects (w_db w') ix' a) w.
Proof.
  intros Hinv Hf Hix Hother. unfold ExecuteNodeStateUpdate. wp_step. wp_step.
  change (wp (ix' ← refreshAll ix (lockedAddresses addresses); mret (fst (fn w), ix')) (λ r w',
    ∃ ix', r = Ok (fst (fn w), ix') ∧ w_db w' = w_db (snd (fn w)) ∧ ∀ a, a ≠ "" → reflects (w_db w') ix' a) (snd (fn w))).
  wp_step. eapply wp_mono; [by apply wp_refreshAll|]. intros r w' [Hd (ix' & -> & H)]. wp_step.
  eexists. split; [done|]. split; [done|]. intros a Ha. rewrite Hd. specialize (H a).
  case_bool_decide as Hin; [done|]. rewrite (elem_of_locked a _ Ha) in Hin.
  unfold reflects in *. rewrite H, (Hix a Ha). by rewrite (Hother a Ha Hin).
Qed.

End index.

(** A pause of the only node, which holds one file. *)
Definition demo_idle : Node :=
  mkNode 1 "base" "0xn" NodeStatusAvailable "RTX" 24 (f64_of_Z 4) 3 0 0 0 400 f64_one None false 10 None None.
Definition demo_file : list Z := replicate 32 7.
Definition demo_idle_world : World :=
  empty_world <| w_db := empty_db <| db_nodes := [demo_idle] |>
    <| db_node_models := [mkNodeModel 1 "0xn" demo_file] |>
    <| db_model_files := [mkModelFile demo_file (replicate 32 9) []] |> |>.
Definition demo_pause : M Node := nodeUpdateStatus (E:=demo_env) demo_idle (λ n, n <| n_Status := NodeStatusPaused |>).
Definition demo_index : index :=
  match InitNodeIndex (E:=demo_env) demo_idle_world with (Ok ix, _) => ix | _ => ∅ end.

Lemma index_reflects_nodes_witness :
  wp (ExecuteNodeStateUpdate (E:=demo_env) demo_index ["0xn"; ""] demo_pause)
    (λ r w', ∃ ix', r = Ok (fst (demo_pause demo_idle_world), ix') ∧
       (λ e, (ix_Status e, bool_decide (demo_file ∈ ix_OnDiskModelFileHashes e))) <$> ix' !! "0xn" =
         Some (NodeStatusPaused, true))
    demo_idle_world.
Proof.
  eapply wp_mono; [apply (index_reflects_nodes (E:=demo_env))|].
  - split; [|split]; vm_compute; repeat constructor.
  - reflexivity.
  - intros a Ha. unfold reflects. destruct (String.eqb_spec "0xn" a) as [<-|Hne]; [vm_compute; reflexivity|].
    rewrite entryAt_None by (apply present_None; intros n Hn%list_elem_of_singleton; by subst n).
    change demo_index with (<["0xn" := default (mkEntry "" "" NodeStatusQuit false "" 0 0 0 0 f64_zero f64_zero None false 0 ∅ ∅ None ∅ ∅) (demo_index !! "0xn")]> (∅ : index)).
    rewrite lookup_insert_ne, lookup_empty by done. reflexivity.
  - intros a Ha Hnot. assert (Hne : a ≠ "0xn") by (intros ->; set_solver).
    rewrite !entryAt_None; [done| |]; apply present_None; intros n Hn%list_elem_of_singleton Heq; subst n; apply Hne;
      rewrite <- Heq; vm_compute; reflexivity.
  - simpl. intros r w' (ix' & -> & Hd & Hr). exists ix'. split; [reflexivity|].
    specialize (Hr "0xn" ltac:(done)). unfold reflects in Hr. rewrite Hr, Hd. vm_compute. reflexivity.
Defined.
End NodeIndex.
