(* ===== verification/NodeModels.v ===== *)
(** * The models of nodes

    src/service/node_model_state.go and the tables it keeps: the catalog of model
    files, the files each node holds on disk, the model in its memory and the
    downloads it was asked for; and the pruning of what the whitelist forbids
    (src/service/model_whitelist.go). *)

From Stdlib Require Import Ascii.
From stdpp Require Import sorting.
From S2P Require Import Prelude Mac Json JsonDecode GoStrings Models Config Delegation MaxStaking Store.
From S2P Require Import ModelFiles TaskModels ModelWhitelist Vesting Qos NodeState NodeIndex.

Module NodeModels.
Import Mac Json JsonDecode GoStrings ModelFiles TaskModels ModelWhitelist Vesting NodeState NodeIndex.

(** ** Tables *)

(** An insert that skips rows whose key exists *)
Definition insertNew {A} (same : A → A → bool) (table : list A) (rows : list A) : list A :=
  foldl (λ t r, if existsb (same r) t then t else t ++ [r]) table rows.

Definition sameFile (a b : ModelFile) : bool := bool_decide (mf_ModelFileHash a = mf_ModelFileHash b).

(** [NewNodeModel], src/models/node.go 150-155 *)
Definition NewNodeModel (nodeAddress : string) (hash : list Z) : NodeModel := mkNodeModel 0 nodeAddress hash.

Definition sameNodeModel (a b : NodeModel) : bool :=
  String.eqb (nm_NodeAddress a) (nm_NodeAddress b) && bool_decide (nm_ModelFileHash a = nm_ModelFileHash b).

(** Rows inserted under a unique index: the statement fails as a whole. *)
Fixpoint insertNodeModels (table rows : list NodeModel) : option (list NodeModel) :=
  match rows with
  | [] => Some table
  | r :: rows' =>
      if existsb (sameNodeModel r) table then None
      else insertNodeModels (table ++ [mkNodeModel (next_id nm_ID table) (nm_NodeAddress r) (nm_ModelFileHash r)]) rows'
  end.

Section tables.
Context {E : Env}.

(** [UpsertModelFiles], src/models/model_file.go 308-315 *)
Definition UpsertModelFiles (files : list ModelFile) : M unit :=
  if bool_decide (files = []) then mret tt
  else db_write (λ d, d <| db_model_files := insertNew sameFile (db_model_files d) files |>).

(** [GetModelFiles], src/models/model_file.go 318-333 *)
Definition GetModelFiles (hashes : list (list Z)) : M (list ModelFile) :=
  if bool_decide (hashes = []) then mret []
  else db_read (λ d, select_where (λ f, bool_decide (mf_ModelFileHash f ∈ hashes)) (db_model_files d)).

(** [GetNodeModelsByNodeAddress], src/models/node.go 175-183 *)
Definition GetNodeModelsByNodeAddress (address : string) : M (list NodeModel) :=
  db_read (λ d, select_where (λ m, String.eqb (nm_NodeAddress m) address) (db_node_models d)).

(** [CreateNodeModels], src/models/node.go 166-173 *)
Definition CreateNodeModels (rows : list NodeModel) : M unit :=
  db_exec (λ d, match insertNodeModels (db_node_models d) rows with
                | Some t => Ok (tt, d <| db_node_models := t |>)
                | None => Err (ErrMsg "duplicate entry")
                end).

(** [GetNodeModel], src/models/node.go 185-196 *)
Definition GetNodeModel (address : string) (hash : list Z) : M NodeModel :=
  db_first (λ d, find_first (sameNodeModel (NewNodeModel address hash)) (db_node_models d)).

(** [DeleteNodeModelsByFileHashes], src/models/node_model_files.go 92-102 *)
Definition DeleteNodeModelsByFileHashes (address : string) (hashes : list (list Z)) : M unit :=
  if bool_decide (hashes = []) then mret tt
  else db_write (λ d, d <| db_node_models :=
    select_where (λ m, negb (String.eqb (nm_NodeAddress m) address && bool_decide (nm_ModelFileHash m ∈ hashes)))
      (db_node_models d) |>).

(** [ClearNodeInMemoryModel], src/models/node_in_memory_model.go 73-77 *)
Definition ClearNodeInMemoryModel (address : string) : M unit :=
  db_write (λ d, d <| db_in_memory_models :=
    select_where (λ m, negb (String.eqb (im_NodeAddress m) address)) (db_in_memory_models d) |>).

(** [SaveNodeInMemoryModel], src/models/node_in_memory_model.go 41-54 *)
Definition saveMemory (m : NodeInMemoryModel) (t : list NodeInMemoryModel) : list NodeInMemoryModel :=
  if existsb (λ x, String.eqb (im_NodeAddress x) (im_NodeAddress m)) t
  then map (λ x, if String.eqb (im_NodeAddress x) (im_NodeAddress m) then m else x) t
  else t ++ [m].
(** [SaveNodeInMemoryModel], src/models/node_in_memory_model.go 41-54 *)
Definition SaveNodeInMemoryModel (m : NodeInMemoryModel) : M unit :=
  db_write (λ d, d <| db_in_memory_models := saveMemory m (db_in_memory_models d) |>).

(** [GetNodeModelDownloadSelectionsByNodeAddress], src/models/node_model_files.go 242-250 *)
Definition GetNodeModelDownloadSelectionsByNodeAddress (address : string) : M (list NodeModelDownloadSelection) :=
  db_read (λ d, select_where (λ s, String.eqb (ds_NodeAddress s) address) (db_download_selections d)).

(** [DeleteNodeModelDownloadSelectionsByIDs], src/models/node_model_files.go 253-260 *)
Definition DeleteNodeModelDownloadSelectionsByIDs (ids : list Z) : M unit :=
  if bool_decide (ids = []) then mret tt
  else db_write (λ d, d <| db_download_selections :=
    select_where (λ s, negb (bool_decide (ds_ID s ∈ ids))) (db_download_selections d) |>).

(** [RequiredHashes], src/models/node_model_download_selection.go 58-66 *)
Definition RequiredHashes (s : NodeModelDownloadSelection) : result (list (list Z) * list (list Z)) :=
  match DecodeHashList (ds_RequiredModelFileHashes s) with
  | Err e => Err e
  | Ok exact => match DecodeHashList (ds_RequiredModelFileSourceHashes s) with
                | Err e => Err e
                | Ok source => Ok (exact, source)
                end
  end.

(** ** Reports of nodes *)

(** [BuildHeldModelFiles], src/service/node_model_state.go 74-103 *)
Fixpoint buildHeld (entries : list ModelFileEntry) (seen : gset (list Z)) : result (list ModelFile) :=
  match entries with
  | [] => Ok []
  | entry :: entries' =>
      let entry := Normalized entry in
      if negb (String.eqb (me_SourceType entry) "huggingface") then Err ErrInvalidModelFile
      else if String.eqb (me_Repository entry) "" then Err ErrInvalidModelFile
      else if String.eqb (me_Revision entry) "" then Err ErrInvalidModelFile
      else match NewModelFile entry with
           | Err _ => Err ErrInvalidModelFile
           | Ok file =>
               match Hash32FromBytes (mf_ModelFileHash file) with
               | Err e => Err e
               | Ok hash =>
                   if bool_decide (hash ∈ seen) then buildHeld entries' seen
                   else match buildHeld entries' ({[hash]} ∪ seen) with
                        | Err e => Err e
                        | Ok files => Ok (file :: files)
                        end
               end
           end
  end.
(** [BuildHeldModelFiles], src/service/node_model_state.go 74-103 *)
Definition BuildHeldModelFiles (entries : list ModelFileEntry) : result (list ModelFile) := buildHeld entries ∅.

(** [modelFileHashes], src/service/node_model_state.go 105-115 *)
Fixpoint decodeHashes (hashes : list (list Z)) : result (list (list Z)) :=
  match hashes with
  | [] => Ok []
  | h :: hashes' =>
      match Hash32FromBytes h, decodeHashes hashes' with
      | Ok h', Ok rest => Ok (h' :: rest)
      | Err e, _ => Err e
      | _, Err e => Err e
      end
  end.
(** [modelFileHashes], src/service/node_model_state.go 105-115 *)
Definition modelFileHashes (files : list ModelFile) : result (list (list Z)) := decodeHashes (map mf_ModelFileHash files).

(** The selections of a node that its files do not cover,
    src/service/node_model_state.go 194-203 *)
Fixpoint uncoveredSelections (exactHeld sourceHeld : gset (list Z)) (selections : list NodeModelDownloadSelection)
    : result (list Z) :=
  match selections with
  | [] => Ok []
  | s :: selections' =>
      match RequiredHashes s, uncoveredSelections exactHeld sourceHeld selections' with
      | Ok (exact, source), Ok ids =>
          Ok (if modelFilesCovered exactHeld sourceHeld exact source then ids else ds_ID s :: ids)
      | Err e, _ => Err e
      | _, Err e => Err e
      end
  end.

(** [pruneUncoveredSelections], src/service/node_model_state.go 189-205 *)
Definition pruneUncoveredSelections (address : string) (exactHeld sourceHeld : gset (list Z)) : M unit :=
  selections ← GetNodeModelDownloadSelectionsByNodeAddress address;
  uncovered ← lift (uncoveredSelections exactHeld sourceHeld selections);
  DeleteNodeModelDownloadSelectionsByIDs uncovered.

(** [replaceNodeModelFiles], src/service/node_model_state.go 119-177 *)
Definition replaceNodeModelFiles (address : string) (files : list ModelFile) : M unit :=
  files ← filterWhitelistedModelFiles files;
  UpsertModelFiles files;;
  reportedHashes ← lift (modelFileHashes files);
  let reported : gset (list Z) := list_to_set reportedHashes in
  existingModels ← GetNodeModelsByNodeAddress address;
  existingHashes ← lift (decodeHashes (map nm_ModelFileHash existingModels));
  let existing : gset (list Z) := list_to_set existingHashes in
  DeleteNodeModelsByFileHashes address (select_where (λ h, negb (bool_decide (h ∈ reported))) existingHashes);;
  let missing := map (NewNodeModel address) (select_where (λ h, negb (bool_decide (h ∈ existing))) reportedHashes) in
  (if bool_decide (missing = []) then mret tt else CreateNodeModels missing);;
  sourceHashes ← lift (decodeHashes (map mf_ModelFileSourceHash files));
  pruneUncoveredSelections address reported (list_to_set sourceHashes).

(** The guard of the reports, src/service/node_model_state.go 222-228 *)
Definition reportingNode (address : string) : M unit :=
  node ← GetNodeByAddress address;
  guard_ok (negb (bool_decide (n_Status node = NodeStatusQuit))) ErrNodeModelStateIllegal.

(** [AddNodeModelFile], src/service/node_model_state.go 208-240 *)
Definition AddNodeModelFile (ix : index) (address : string) (file : ModelFile) : M (result unit * index) :=
  rejected ← modelFileRejectedByWhitelist file;
  if (rejected : bool) then mret (Ok tt, ix)
  else
    hash ← lift (Hash32FromBytes (mf_ModelFileHash file));
    ExecuteNodeStateUpdate ix [address] (transaction (
      reportingNode address;;
      UpsertModelFiles [file];;
      found ← try_ (GetNodeModel address hash);
      match found with
      | Ok _ => mret tt
      | Err e => if bool_decide (e = ErrRecordNotFound) then CreateNodeModels [NewNodeModel address hash] else fail e
      end)).

(** [NodeInMemoryModelReport], src/service/node_model_state.go 243-248 *)
Record NodeInMemoryModelReport := mkMemoryReport {
  mr_CacheHash : list Z;
  mr_Files : list ModelFile;
  mr_CacheConfig : list Z;
  mr_ExecutionDType : string
}.

(** [NewNodeInMemoryModel], src/models/node_in_memory_model.go 26-34 *)
Definition NewNodeInMemoryModel (address : string) (cacheHash : list Z) (fileHashes : list (list Z)) (cacheConfig : list Z)
    (executionDType : string) : NodeInMemoryModel :=
  mkNodeInMemoryModel address cacheHash (EncodeHashList fileHashes) cacheConfig executionDType.

(** [SetNodeInMemoryModel], src/service/node_model_state.go 252-281 *)
Definition SetNodeInMemoryModel (ix : index) (address : string) (report : option NodeInMemoryModelReport)
    : M (result unit * index) :=
  match report with Some r => assertWhitelistedModelFiles (mr_Files r) | None => mret tt end;;
  ExecuteNodeStateUpdate ix [address] (transaction (
    reportingNode address;;
    match report with
    | None => ClearNodeInMemoryModel address
    | Some r =>
        UpsertModelFiles (mr_Files r);;
        hashes ← lift (modelFileHashes (mr_Files r));
        SaveNodeInMemoryModel (NewNodeInMemoryModel address (mr_CacheHash r) hashes (mr_CacheConfig r) (mr_ExecutionDType r))
    end)).

(** ** Executing a task *)

(** The candidates of a source, and the one in memory or the smallest,
    src/service/node_model_state.go 323-334 *)
Definition selectRevision (held : list (list Z * list Z)) (current : gset (list Z)) (source : list Z) : option (list Z) :=
  let candidates := SortedUniqueHashes (map fst (select_where (λ f, bool_decide (snd f = source)) held)) in
  match find_first (λ c, bool_decide (c ∈ current)) candidates with
  | Some c => Some c
  | None => head candidates
  end.

Fixpoint selectRevisions (held : list (list Z * list Z)) (current : gset (list Z)) (sources : list (list Z))
    : result (list (list Z)) :=
  match sources with
  | [] => Ok []
  | source :: sources' =>
      match selectRevision held current source, selectRevisions held current sources' with
      | Some h, Ok rest => Ok (h :: rest)
      | None, _ => Err errModelFileNotHeldForTask
      | _, Err e => Err e
      end
  end.

(** [resolveExecutionModelFileHashes], src/service/node_model_state.go 299-337 *)
Definition resolveExecutionModelFileHashes (r : taskModelRequirements) (files : list NodeModelFileRow)
    (current : gset (list Z)) : result (list (list Z)) :=
  match decodeFiles files with
  | Err e => Err e
  | Ok held =>
      if negb (forallb (λ h, bool_decide (h ∈ map fst held)) (rq_exact r)) then Err errModelFileNotHeldForTask
      else match selectRevisions held current (rq_source r) with
           | Err e => Err e
           | Ok selected => Ok (SortedUniqueHashes (rq_exact r ++ selected))
           end
  end.

(** [LoadModelFileEntries], src/service/node_model_state.go 341-359 *)
Fixpoint decodeEntries (files : list ModelFile) : result (gmap (list Z) ModelFileEntry) :=
  match files with
  | [] => Ok ∅
  | f :: files' =>
      match Hash32FromBytes (mf_ModelFileHash f), Entry f, decodeEntries files' with
      | Ok h, Ok e, Ok rest => Ok (if bool_decide (is_Some (rest !! h)) then rest else <[h := e]> rest)
      | Err e, _, _ => Err e
      | _, Err e, _ => Err e
      | _, _, Err e => Err e
      end
  end.
(** [LoadModelFileEntries], src/service/node_model_state.go 341-359 *)
Definition LoadModelFileEntries (hashes : list (list Z)) : M (gmap (list Z) ModelFileEntry) :=
  files ← GetModelFiles hashes;
  lift (decodeEntries files).

(** [orderedModelFileEntries], src/service/node_model_state.go 378-389 *)
Definition orderedModelFileEntries (hashes : list (list Z)) (entries : gmap (list Z) ModelFileEntry) : list ModelFileEntry :=
  omap (λ h, entries !! h) hashes.

(** [TaskExecutionModelFileEntries], src/service/node_model_state.go 363-376 *)
Definition TaskExecutionModelFileEntries (task : InferenceTask) : M (list ModelFileEntry) :=
  hashes ← lift (DecodeHashList (t_ExecutionModelFileHashes task));
  if bool_decide (hashes = []) then mret []
  else entries ← LoadModelFileEntries hashes; mret (orderedModelFileEntries hashes entries).

(** [NodeModelFileEntries], src/service/node_model_state.go 420-452 *)
Definition NodeModelFileEntries (address : string) : M (list ModelFileEntry * list ModelFileEntry) :=
  nodeModels ← GetNodeModelsByNodeAddress address;
  memory ← GetNodeInMemoryModel address;
  diskHashes ← lift (decodeHashes (map nm_ModelFileHash nodeModels));
  memoryHashes ← lift (match memory with Some m => FileHashes m | None => Ok [] end);
  entries ← LoadModelFileEntries (SortedUniqueHashes (diskHashes ++ memoryHashes));
  mret (orderedModelFileEntries diskHashes entries, orderedModelFileEntries memoryHashes entries).

(** ** Pruning what the whitelist forbids *)

(** The hashes of the forbidden files of the catalog,
    src/service/model_whitelist.go 196-219 *)
Fixpoint bannedFiles (catalog : list ModelFile) (banned : list (list Z)) : M (list (list Z)) :=
  match catalog with
  | [] => mret banned
  | file :: catalog' =>
      ok ← fileWhitelisted file;
      if (ok : bool) then bannedFiles catalog' banned
      else
        hash ← lift (Hash32FromBytes (mf_ModelFileHash file));
        bannedFiles catalog' (if bool_decide (hash ∈ banned) then banned else banned ++ [hash])
  end.

(** Whether all files are allowed, src/service/model_whitelist.go 334-346 *)
Fixpoint anyForbidden (files : list ModelFile) : M bool :=
  match files with
  | [] => mret false
  | file :: files' =>
      ok ← fileWhitelisted file;
      if (ok : bool) then anyForbidden files' else mret true
  end.

(** [inMemoryModelHasNonWhitelistedFile], src/service/model_whitelist.go 313-347 *)
Definition inMemoryModelHasNonWhitelistedFile (row : NodeInMemoryModel) (banned : list (list Z)) : M bool :=
  hashes ← lift (FileHashes row);
  if bool_decide (hashes = []) then mret false
  else if existsb (λ h, bool_decide (h ∈ banned)) hashes then mret true
  else
    files ← GetModelFiles hashes;
    if negb (Nat.eqb (length files) (length hashes)) then mret true else anyForbidden files.

(** The nodes whose memory is cleared, src/service/model_whitelist.go 236-246 *)
Fixpoint memoryToClear (rows : list NodeInMemoryModel) (banned : list (list Z)) : M (list string) :=
  match rows with
  | [] => mret []
  | row :: rows' =>
      shouldClear ← inMemoryModelHasNonWhitelistedFile row banned;
      rest ← memoryToClear rows' banned;
      mret (if (shouldClear : bool) then im_NodeAddress row :: rest else rest)
  end.

(** The loaded models that are deleted, src/service/model_whitelist.go 252-261 *)
Fixpoint forbiddenLoaded (models : list LoadedModel) : M (list Z) :=
  match models with
  | [] => mret []
  | m :: models' =>
      ok ← IsModelWhitelisted (lm_ModelID m);
      rest ← forbiddenLoaded models';
      mret (if (ok : bool) then rest else lm_ID m :: rest)
  end.

(** [pruneSelectionsForCurrentInventory], src/service/model_whitelist.go 349-377 *)
Definition pruneSelectionsForCurrentInventory (address : string) : M unit :=
  existing ← GetNodeModelsByNodeAddress address;
  hashes ← lift (decodeHashes (map nm_ModelFileHash existing));
  files ← GetModelFiles hashes;
  sources ← lift (decodeHashes (map mf_ModelFileSourceHash files));
  pruneUncoveredSelections address (list_to_set hashes) (list_to_set sources).

(** The transaction of the pruning, src/service/model_whitelist.go 269-294 *)
Definition applyPruning (banned : list (list Z)) (clearMemory addresses : list string) (loadedIDs : list Z) : M unit :=
  transaction (
    (if bool_decide (banned = []) then mret tt
     else db_write (λ d, d <| db_node_models :=
            select_where (λ m, negb (bool_decide (nm_ModelFileHash m ∈ banned))) (db_node_models d) |>));;
    for_each clearMemory ClearNodeInMemoryModel;;
    for_each addresses pruneSelectionsForCurrentInventory;;
    (if bool_decide (loadedIDs = []) then mret tt
     else db_write (λ d, d <| db_loaded_models :=
            select_where (λ m, negb (bool_decide (lm_ID m ∈ loadedIDs))) (db_loaded_models d) |>))).

(** [pruneNonWhitelistedModelInventory], src/service/model_whitelist.go 188-311 *)
Definition pruneNonWhitelistedModelInventory (ix : index) : M (result unit * index) :=
  catalog ← db_read db_model_files;
  banned ← bannedFiles catalog [];
  holders ← (if bool_decide (banned = []) then mret []
             else db_read (λ d, map nm_NodeAddress
                    (select_where (λ m, bool_decide (nm_ModelFileHash m ∈ banned)) (db_node_models d))));
  inMemoryRows ← db_read db_in_memory_models;
  clearMemory ← memoryToClear inMemoryRows banned;
  loadedModels ← db_read db_loaded_models;
  loadedIDs ← forbiddenLoaded loadedModels;
  let addresses := merge_sort string_le (remove_dups (holders ++ clearMemory)) in
  if bool_decide (addresses = []) then applyPruning banned clearMemory addresses loadedIDs;; mret (Ok tt, ix)
  else ExecuteNodeStateUpdate ix addresses (applyPruning banned clearMemory addresses loadedIDs).

(** [afterModelWhitelistCacheUpdated], src/service/model_whitelist.go 116-124 *)
Definition afterModelWhitelistCacheUpdated (ix : index) : M (result unit * index) :=
  if negb modelWhitelistEnforced then mret (Ok tt, ix) else pruneNonWhitelistedModelInventory ix.

(** [InitModelWhitelistCache], src/service/model_whitelist.go 88-96, and
    [RefreshModelWhitelistCache], which is the same *)
Definition RefreshModelWhitelistCache (ix : index) : M (result unit * index) :=
  loadModelWhitelistCacheLocked;; afterModelWhitelistCacheUpdated ix.

(** [AddModelWhitelistName], src/service/model_whitelist.go 379-398 *)
Definition AddModelWhitelistName (ix : index) (modelName : string) : M (result unit * index) :=
  normalizedName ← lift (NormalizeModelWhitelistName modelName);
  added ← db_exec (λ d, Ok (bool_decide (normalizedName ∉ db_model_whitelist d),
                            d <| db_model_whitelist := {[normalizedName]} ∪ db_model_whitelist d |>));
  if negb (added : bool) then fail ErrModelWhitelistNameExists else RefreshModelWhitelistCache ix.

(** [DeleteModelWhitelistName], src/service/model_whitelist.go 400-418 *)
Definition DeleteModelWhitelistName (ix : index) (modelName : string) : M (result unit * index) :=
  normalizedName ← lift (NormalizeModelWhitelistName modelName);
  removed ← db_exec (λ d, Ok (bool_decide (normalizedName ∈ db_model_whitelist d),
                              d <| db_model_whitelist := db_model_whitelist d ∖ {[normalizedName]} |>));
  if negb (removed : bool) then fail ErrModelWhitelistNameMissing else RefreshModelWhitelistCache ix.

End tables.
End NodeModels.
