(* ===== verification/NodeInventory.v ===== *)
(** * The inventory of model files is well formed

    What the tables of src/service/node_model_state.go hold: files are identified
    by the hash of their content, nodes hold files of the catalog, once each, and
    every column of hashes can be read.  The reports of nodes and the whitelist
    keep it so. *)

From Stdlib Require Import Ascii.
From stdpp Require Import sorting.
From S2P Require Import Prelude Mac Json JsonDecode GoStrings Models Config Delegation MaxStaking Store.
From S2P Require Import ModelFiles TaskModels ModelWhitelist Vesting Qos NodeState NodeIndex NodeModels.

Module NodeInventory.
Import Mac Json JsonDecode GoStrings ModelFiles TaskModels ModelWhitelist NodeState NodeIndex NodeModels.

(** ** The invariant *)

(** A row of the catalog is named by the hash of its content. *)
Definition file_ok (f : ModelFile) : Prop :=
  mf_ModelFileHash f = sha256 (mf_CanonicalJSON f) ∧ is_hash (mf_ModelFileSourceHash f).

Definition catalogued (d : DB) (h : list Z) : Prop := h ∈ map mf_ModelFileHash (db_model_files d).

Definition nodeKey (m : NodeModel) : string * list Z := (nm_NodeAddress m, nm_ModelFileHash m).

Definition memory_ok (d : DB) (m : NodeInMemoryModel) : Prop :=
  is_hash (im_CurrentModelCacheHash m) ∧ ∃ hs, FileHashes m = Ok hs ∧ Forall (catalogued d) hs.

(** A selection is named by the files it asks for, and active until it expires. *)
Definition selection_ok (s : NodeModelDownloadSelection) : Prop :=
  (∃ exact source, RequiredHashes s = Ok (exact, source) ∧ ds_ModelFileHash s = DistributionKey exact source) ∧
  ds_Active s = if bool_decide (ds_Status s = NodeModelDownloadSelectionExpired) then None else Some true.

Definition isActive (s : NodeModelDownloadSelection) : bool := bool_decide (is_Some (ds_Active s)).
Definition selectionKey (s : NodeModelDownloadSelection) : list Z * string := (ds_ModelFileHash s, ds_NodeAddress s).

Record inventory (d : DB) : Prop := {
  inv_files : Forall file_ok (db_model_files d);
  inv_file_keys : NoDup (map mf_ModelFileHash (db_model_files d));
  inv_nodes : Forall (λ m, catalogued d (nm_ModelFileHash m)) (db_node_models d);
  inv_node_keys : NoDup (map nodeKey (db_node_models d));
  inv_memory : Forall (memory_ok d) (db_in_memory_models d);
  inv_memory_keys : NoDup (map im_NodeAddress (db_in_memory_models d));
  inv_selections : Forall selection_ok (db_download_selections d);
  inv_selection_ids : NoDup (map ds_ID (db_download_selections d));
  inv_active : NoDup (map selectionKey (select_where isActive (db_download_selections d)))
}.

Lemma file_ok_hash f : file_ok f → is_hash (mf_ModelFileHash f).
Proof. intros [-> _]. apply sha256_length. Qed.

Lemma catalogued_hash d h : Forall file_ok (db_model_files d) → catalogued d h → is_hash h.
Proof.
  intros Hf (f & -> & Hin)%list_elem_of_fmap. rewrite Forall_forall in Hf. by apply file_ok_hash, Hf.
Qed.

(** The refresh of the index needs no more than this. *)
Lemma inventory_columns d : inventory d → inventory_ok d.
Proof.
  intros [Hf _ Hn _ Hm _ _ _ _]. split; [|split].
  - eapply Forall_impl; [exact Hn|]. intros m. by apply catalogued_hash.
  - eapply Forall_impl; [exact Hf|]. by intros f [_ ?].
  - eapply Forall_impl; [exact Hm|]. intros m [Hc (hs & Hh & _)]. split; [done|].
    unfold FileHashes, DecodeHashList in Hh. destruct (Nat.eqb_spec (length (im_CurrentModelFileHashes m) mod 32) 0); done.
Qed.

(** ** Inserts *)

Lemma insertNew_elem {A} (same : A → A → bool) rows : ∀ table r,
  r ∈ insertNew same table rows → r ∈ table ∨ r ∈ rows.
Proof.
  induction rows as [|x rows IH]; intros table r; simpl; [by left|].
  intros [Hin|Hin]%IH; [|right; set_solver].
  destruct (existsb (same x) table); [by left|].
  apply elem_of_app in Hin as [Hin|Hx%list_elem_of_singleton]; [by left|right; set_solver].
Qed.

Lemma insertNew_prefix {A} (same : A → A → bool) rows : ∀ table, table `prefix_of` insertNew same table rows.
Proof.
  induction rows as [|x rows IH]; intros table; simpl; [done|].
  etrans; [|apply IH]. destruct (existsb (same x) table); [done|]. by apply prefix_app_r.
Qed.

Lemma insertFiles_has rows : ∀ table f, f ∈ rows → mf_ModelFileHash f ∈ map mf_ModelFileHash (insertNew sameFile table rows).
Proof.
  induction rows as [|x rows IH]; intros table f; [set_solver|]. intros [->|Hin]%elem_of_cons; [|by apply IH].
  assert (H : mf_ModelFileHash x ∈ map mf_ModelFileHash (if existsb (sameFile x) table then table else table ++ [x])).
  { destruct (existsb (sameFile x) table) eqn:He.
    - apply existsb_exists in He as (y & Hy & Hs). unfold sameFile in Hs. apply bool_decide_eq_true in Hs. rewrite Hs.
      apply list_elem_of_In, in_map, Hy.
    - rewrite map_app. set_solver. }
  simpl. destruct (insertNew_prefix sameFile rows (if existsb (sameFile x) table then table else table ++ [x])) as [l Hl].
  change (mf_ModelFileHash x ∈ map mf_ModelFileHash
    (insertNew sameFile (if existsb (sameFile x) table then table else table ++ [x]) rows)).
  rewrite Hl, map_app. set_solver.
Qed.

Lemma insertFiles_NoDup rows : ∀ table,
  NoDup (map mf_ModelFileHash table) → NoDup (map mf_ModelFileHash (insertNew sameFile table rows)).
Proof.
  induction rows as [|x rows IH]; intros table Hd; simpl; [done|]. apply IH.
  destruct (existsb (sameFile x) table) eqn:He; [done|]. rewrite map_app. simpl. apply NoDup_app. split; [done|].
  split; [|by apply NoDup_singleton]. intros h (y & -> & Hy)%list_elem_of_fmap Hs%list_elem_of_singleton.
  assert (Ht : existsb (sameFile x) table = true); [|congruence].
  apply existsb_exists. exists y. split; [by apply list_elem_of_In|]. unfold sameFile. by apply bool_decide_eq_true.
Qed.

Lemma sameNodeModel_key a b : sameNodeModel a b = true ↔ nodeKey a = nodeKey b.
Proof.
  unfold sameNodeModel, nodeKey. rewrite andb_true_iff, String.eqb_eq, bool_decide_eq_true. split; [intros [-> ->]; done|by intros [= -> ->]].
Qed.

Lemma insertNodeModels_spec rows : ∀ table t, insertNodeModels table rows = Some t → NoDup (map nodeKey table) →
  NoDup (map nodeKey t) ∧ map nodeKey t = map nodeKey table ++ map nodeKey rows ∧ table `prefix_of` t.
Proof.
  induction rows as [|r rows IH]; intros table t; simpl; [intros [= ->]; by rewrite app_nil_r|].
  destruct (existsb (sameNodeModel r) table) eqn:He; [done|]. intros Ht Hd.
  destruct (IH _ _ Ht) as (H1 & H2 & H3).
  - rewrite map_app. apply NoDup_app. split; [done|]. split; [|by apply NoDup_singleton].
    intros k (y & Hk & Hy)%list_elem_of_fmap ->%list_elem_of_singleton.
    assert (Ht' : existsb (sameNodeModel r) table = true); [|congruence].
    apply existsb_exists. exists y. split; [by apply list_elem_of_In|]. by apply sameNodeModel_key.
  - split; [done|]. split.
    + rewrite H2, map_app, <- app_assoc. done.
    + etrans; [|exact H3]. by apply prefix_app_r.
Qed.

Lemma insertNodeModels_ok rows : ∀ table,
  NoDup (map nodeKey rows) → (∀ k, k ∈ map nodeKey rows → k ∉ map nodeKey table) → is_Some (insertNodeModels table rows).
Proof.
  induction rows as [|r rows IH]; intros table Hn Hd; simpl; [done|].
  apply NoDup_cons in Hn as [Hr Hn]. destruct (existsb (sameNodeModel r) table) eqn:He.
  - apply existsb_exists in He as (y & Hy & Hs%sameNodeModel_key). exfalso. apply (Hd (nodeKey r)); [set_solver|].
    rewrite Hs. by apply list_elem_of_In, in_map.
  - apply IH; [done|]. intros k Hk. rewrite map_app, not_elem_of_app. split; [apply Hd; set_solver|].
    intros ->%list_elem_of_singleton. done.
Qed.

Lemma insertNodeModels_hash rows table t m : insertNodeModels table rows = Some t → NoDup (map nodeKey table) → m ∈ t →
  m ∈ table ∨ nodeKey m ∈ map nodeKey rows.
Proof.
  intros Ht Hd Hm. destruct (insertNodeModels_spec _ _ _ Ht Hd) as (H1 & H2 & [l ->]).
  apply elem_of_app in Hm as [Hm|Hm]; [by left|right]. rewrite map_app in H2. apply app_inv_head in H2.
  rewrite <- H2. by apply list_elem_of_fmap_2.
Qed.

(** ** One table at a time *)

(** The tables of the inventory. *)
Definition stock (d : DB) :=
  (db_model_files d, db_node_models d, db_in_memory_models d, db_download_selections d).

Lemma inventory_stock d d' : stock d' = stock d → inventory d → inventory d'.
Proof.
  unfold stock. intros [= Hf Hn Hm Hs] [I1 I2 I3 I4 I5 I6 I7 I8 I9].
  assert (Hc : ∀ h, catalogued d h → catalogued d' h) by (intros h; unfold catalogued; by rewrite Hf).
  split; rewrite ?Hf, ?Hn, ?Hm, ?Hs; try done.
  - eapply Forall_impl; [exact I3|]. auto.
  - eapply Forall_impl; [exact I5|]. intros m [? (hs & ? & Hall)]. split; [done|]. exists hs. split; [done|].
    eapply Forall_impl; [exact Hall|]. auto.
Qed.

Lemma inventory_grow d files : inventory d → Forall file_ok files →
  inventory (d <| db_model_files := insertNew sameFile (db_model_files d) files |>).
Proof.
  intros [I1 I2 I3 I4 I5 I6 I7 I8 I9] Hfiles.
  assert (Hc : ∀ h, catalogued d h → catalogued (d <| db_model_files := insertNew sameFile (db_model_files d) files |>) h).
  { intros h. unfold catalogued. simpl. destruct (insertNew_prefix sameFile files (db_model_files d)) as [l ->].
    rewrite map_app. set_solver. }
  split; simpl; try done.
  - apply Forall_forall. intros f [Hf|Hf]%insertNew_elem; [by eapply Forall_forall in I1|by eapply Forall_forall in Hfiles].
  - by apply insertFiles_NoDup.
  - eapply Forall_impl; [exact I3|]. auto.
  - eapply Forall_impl; [exact I5|]. intros m [? (hs & ? & Hall)]. split; [done|]. exists hs. split; [done|].
    eapply Forall_impl; [exact Hall|]. auto.
Qed.

Lemma inventory_nodes d t : inventory d → NoDup (map nodeKey t) → Forall (λ m, catalogued d (nm_ModelFileHash m)) t →
  inventory (d <| db_node_models := t |>).
Proof. intros [I1 I2 I3 I4 I5 I6 I7 I8 I9] ? ?. by split. Qed.

Lemma inventory_memory d t : inventory d → NoDup (map im_NodeAddress t) → Forall (memory_ok d) t →
  inventory (d <| db_in_memory_models := t |>).
Proof. intros [I1 I2 I3 I4 I5 I6 I7 I8 I9] ? ?. by split. Qed.

Lemma inventory_selections d t : inventory d → Forall selection_ok t → NoDup (map ds_ID t) →
  NoDup (map selectionKey (select_where isActive t)) → inventory (d <| db_download_selections := t |>).
Proof. intros [I1 I2 I3 I4 I5 I6 I7 I8 I9] ? ? ?. by split. Qed.

Lemma Forall_select {A} (P : A → Prop) p t : Forall P t → Forall P (select_where p t).
Proof. rewrite !Forall_forall. intros H r [Hr _]%elem_of_select. auto. Qed.

Lemma select_select_comm {A} (p q : A → bool) t : select_where p (select_where q t) = select_where q (select_where p t).
Proof.
  unfold select_where. induction t as [|r t IH]; [done|]. simpl. destruct (p r) eqn:Hp, (q r) eqn:Hq; simpl; rewrite ?Hp, ?Hq, IH; done.
Qed.

Lemma inventory_fewer_nodes d p : inventory d → inventory (d <| db_node_models := select_where p (db_node_models d) |>).
Proof. intros Hd. apply inventory_nodes; [done|apply NoDup_map_select, Hd|apply Forall_select, Hd]. Qed.

Lemma inventory_fewer_memory d p : inventory d → inventory (d <| db_in_memory_models := select_where p (db_in_memory_models d) |>).
Proof. intros Hd. apply inventory_memory; [done|apply NoDup_map_select, Hd|apply Forall_select, Hd]. Qed.

Lemma inventory_fewer_selections d p :
  inventory d → inventory (d <| db_download_selections := select_where p (db_download_selections d) |>).
Proof.
  intros Hd. apply inventory_selections; [done|apply Forall_select, Hd|apply NoDup_map_select, Hd|].
  rewrite select_select_comm. apply NoDup_map_select, Hd.
Qed.

Lemma memory_keys_save m t : NoDup (map im_NodeAddress t) → NoDup (map im_NodeAddress (saveMemory m t)).
Proof.
  intros Hd. unfold saveMemory. destruct (existsb _ t) eqn:He.
  - rewrite map_map. rewrite (map_ext _ im_NodeAddress); [done|]. intros x.
    destruct (String.eqb_spec (im_NodeAddress x) (im_NodeAddress m)); congruence.
  - rewrite map_app. apply NoDup_app. split; [done|]. split; [|by apply NoDup_singleton].
    intros k (y & -> & Hy)%list_elem_of_fmap Hs%list_elem_of_singleton.
    assert (Ht : existsb (λ x, String.eqb (im_NodeAddress x) (im_NodeAddress m)) t = true); [|congruence].
    apply existsb_exists. exists y. split; [by apply list_elem_of_In|]. by apply String.eqb_eq.
Qed.

Lemma memory_save_elem m t x : x ∈ saveMemory m t → x = m ∨ x ∈ t.
Proof.
  unfold saveMemory. destruct (existsb _ t).
  - intros (y & -> & Hy)%list_elem_of_fmap. destruct (String.eqb _ _); auto.
  - intros [?| ?%list_elem_of_singleton]%elem_of_app; auto.
Qed.

(** ** Reading hashes *)

Lemma decodeHashes_ok hs : Forall is_hash hs → decodeHashes hs = Ok hs.
Proof. induction 1 as [|h hs Hh _ IH]; [done|]. simpl. by rewrite Hash32_ok, IH. Qed.

Lemma modelFileHashes_ok files : Forall file_ok files → modelFileHashes files = Ok (map mf_ModelFileHash files).
Proof.
  intros H. apply decodeHashes_ok, Forall_map. eapply Forall_impl; [exact H|]. apply file_ok_hash.
Qed.

Lemma sourceHashes_ok files : Forall file_ok files →
  decodeHashes (map mf_ModelFileSourceHash files) = Ok (map mf_ModelFileSourceHash files).
Proof. intros H. apply decodeHashes_ok, Forall_map. eapply Forall_impl; [exact H|]. by intros f [_ ?]. Qed.

Lemma nodeHashes_ok d p : inventory d →
  decodeHashes (map nm_ModelFileHash (select_where p (db_node_models d))) =
  Ok (map nm_ModelFileHash (select_where p (db_node_models d))).
Proof.
  intros Hd. apply decodeHashes_ok, Forall_map, Forall_select. eapply Forall_impl; [apply Hd|].
  intros m. apply catalogued_hash, Hd.
Qed.

Section operations.
Context {E : Env}.

(** ** The whitelist is only read *)

Lemma keepWhitelisted_world files w : snd (keepWhitelisted files w) = w.
Proof.
  revert w. induction files as [|f files IH]; intros w; [done|].
  change (snd ((ok ← fileWhitelisted f; kept ← keepWhitelisted files; mret (if (ok : bool) then f :: kept else kept)) w) = w).
  unfold fileWhitelisted, IsModelWhitelisted, lift, cache_read, mbind, M_bind.
  destruct (Entry f) as [e|]; [|done]. simpl. destruct (normalizeModelWhitelistCandidate _); [|done]. simpl.
  destruct (c_model_whitelist (w_cache w)); [|done]. simpl. specialize (IH w).
  destruct (keepWhitelisted files w) as [[k|] w']; simpl in *; by subst.
Qed.

Lemma filterWhitelisted_world files w : snd (filterWhitelistedModelFiles files w) = w.
Proof. unfold filterWhitelistedModelFiles. destruct (negb _); [done|apply keepWhitelisted_world]. Qed.

Lemma keepWhitelisted_sub files w kept : fst (keepWhitelisted files w) = Ok kept → kept `sublist_of` files.
Proof.
  revert kept. induction files as [|f files IH]; intros kept; [intros [= <-]; done|].
  change (fst ((ok ← fileWhitelisted f; kept ← keepWhitelisted files; mret (if (ok : bool) then f :: kept else kept)) w) = Ok kept
          → kept `sublist_of` f :: files).
  unfold fileWhitelisted, IsModelWhitelisted, lift, cache_read, mbind, M_bind.
  destruct (Entry f) as [e|]; [|done]. simpl. destruct (normalizeModelWhitelistCandidate _); [|done]. simpl.
  destruct (c_model_whitelist (w_cache w)); [|done]. simpl.
  destruct (keepWhitelisted files w) as [[k|] w']; [|done]. simpl. intros [= <-]. specialize (IH k eq_refl).
  destruct (allowed _ _); by constructor.
Qed.

Lemma filterWhitelisted_sub files w kept : fst (filterWhitelistedModelFiles files w) = Ok kept → kept `sublist_of` files.
Proof.
  unfold filterWhitelistedModelFiles. destruct (negb _); [intros [= <-]; done|apply keepWhitelisted_sub].
Qed.

(** ** What a node reports *)

(** An access fails only when the environment makes it fail. *)
Lemma wp_db_fault {A} (f : DB → result (A * DB)) Q w :
  (env_fault (w_step w) = true → Q (Err ErrDatabase) (tick w)) →
  match f (w_db w) with
  | Ok (a, d) => Q (Ok a) (tick (set_db d w))
  | Err e => Q (Err e) (tick w)
  end → wp (db_exec f) Q w.
Proof.
  unfold wp, db_exec. destruct (env_fault (w_step w)); [auto|]. intros _. by destruct (f (w_db w)) as [[a d]|e].
Qed.

Definition faulty : Prop := ∃ n, env_fault n = true.

(** The files of a node. *)
Definition heldBy (d : DB) (address : string) : list (list Z) :=
  map nm_ModelFileHash (select_where (λ m, String.eqb (nm_NodeAddress m) address) (db_node_models d)).

(** The selections that survive a report of a node. *)
Definition stillWanted (address : string) (exactHeld sourceHeld : gset (list Z)) (s : NodeModelDownloadSelection) : bool :=
  negb (String.eqb (ds_NodeAddress s) address) ||
  match RequiredHashes s with
  | Ok (exact, source) => modelFilesCovered exactHeld sourceHeld exact source
  | Err _ => false
  end.

Lemma uncovered_ok ex so sels : Forall selection_ok sels →
  uncoveredSelections ex so sels = Ok (map ds_ID (select_where (λ s,
    match RequiredHashes s with Ok (exact, source) => negb (modelFilesCovered ex so exact source) | Err _ => true end) sels)).
Proof.
  induction 1 as [|s sels [(e & c & Hs & _) _] _ IH]; [done|]. simpl. rewrite Hs, IH.
  destruct (modelFilesCovered ex so e c); done.
Qed.

Lemma deleted_ids (p q : NodeModelDownloadSelection → bool) sels : NoDup (map ds_ID sels) →
  select_where (λ s, negb (bool_decide (ds_ID s ∈ map ds_ID (select_where p (select_where q sels))))) sels =
  select_where (λ s, negb (p s && q s)) sels.
Proof.
  intros Hd. apply filter_ext_in. intros s Hs%list_elem_of_In. f_equal. apply eq_true_iff_eq.
  rewrite bool_decide_eq_true, andb_true_iff. split.
  - intros (s' & Hid & Hin)%list_elem_of_fmap. apply elem_of_select in Hin as [Hin Hp].
    apply elem_of_select in Hin as [Hin Hq]. by rewrite (NoDup_map_inj ds_ID sels s s' Hd).
  - intros [Hp Hq]. apply list_elem_of_fmap_2, elem_of_select. split; [|done]. by apply elem_of_select.
Qed.

Lemma wp_pruneUncovered address ex so w : inventory (w_db w) →
  wp (pruneUncoveredSelections address ex so) (λ r w', inventory (w_db w') ∧
    match r with
    | Ok _ => w_db w' = (w_db w) <| db_download_selections :=
                select_where (stillWanted address ex so) (db_download_selections (w_db w)) |>
    | Err _ => faulty ∧ w_db w' = w_db w
    end) w.
Proof.
  intros Hd. unfold pruneUncoveredSelections, GetNodeModelDownloadSelectionsByNodeAddress. wp_step.
  apply wp_db_fault; [intros Hf; split; [done|by split; [exists (w_step w)|]]|]. simpl. wp_step. wp_step.
  rewrite uncovered_ok by (apply Forall_select, Hd). unfold DeleteNodeModelDownloadSelectionsByIDs.
  set (p := λ s, match RequiredHashes s with Ok (exact, source) => negb (modelFilesCovered ex so exact source) | Err _ => true end).
  set (q := λ s, String.eqb (ds_NodeAddress s) address).
  assert (Hw : select_where (λ s, negb (bool_decide (ds_ID s ∈ map ds_ID (select_where p (select_where q (db_download_selections (w_db w)))))))
                 (db_download_selections (w_db w)) = select_where (stillWanted address ex so) (db_download_selections (w_db w))).
  { rewrite deleted_ids by apply Hd. apply filter_ext. intros s. unfold p, q, stillWanted.
    destruct (RequiredHashes s) as [[e c]|]; [destruct (modelFilesCovered ex so e c)|]; destruct (String.eqb _ _); done. }
  case_bool_decide as Hnil.
  - wp_step. rewrite <- Hw, Hnil.
    assert (Hall : select_where (λ s, negb (bool_decide (ds_ID s ∈ ([] : list Z)))) (db_download_selections (w_db w)) = db_download_selections (w_db w)).
    { unfold select_where. generalize (db_download_selections (w_db w)) as l. induction l as [|s l IH]; [done|].
      cbn [List.filter]. rewrite bool_decide_eq_false_2 by set_solver. cbn [negb]. by rewrite IH. }
    rewrite Hall. split; [by destruct w as [[] ? ? ?]|]. by destruct w as [[] ? ? ?].
  - apply wp_db_fault; [intros Hf; split; [by destruct w|]; split; [by eexists|by destruct w as [[] ? ? ?]]|].
    cbn [tick set_db]. split; [by apply (inventory_fewer_selections (w_db w))|]. simpl. by rewrite Hw.
Qed.

Lemma heldBy_key d address h : h ∈ heldBy d address ↔ (address, h) ∈ map nodeKey (db_node_models d).
Proof.
  unfold heldBy. split.
  - intros (m & -> & [Hm Ha%String.eqb_eq]%elem_of_select)%list_elem_of_fmap. subst address.
    change (nodeKey m ∈ map nodeKey (db_node_models d)). by apply list_elem_of_fmap_2.
  - intros (m & [= -> ->] & Hm)%list_elem_of_fmap. apply list_elem_of_fmap_2, elem_of_select. split; [done|]. apply String.eqb_refl.
Qed.

(** The database after an insert of files into the catalog. *)
Definition withFiles (files : list ModelFile) (d : DB) : DB :=
  d <| db_model_files := insertNew sameFile (db_model_files d) files |>.

Lemma withFiles_catalogued files d h :
  catalogued (withFiles files d) h ↔ catalogued d h ∨ h ∈ map mf_ModelFileHash files.
Proof.
  unfold catalogued, withFiles. simpl. split.
  - intros (f & -> & [Hf|Hf]%insertNew_elem)%list_elem_of_fmap; [left|right]; by apply list_elem_of_fmap_2.
  - intros [Hh|(f & -> & Hf)%list_elem_of_fmap]; [|by apply insertFiles_has].
    destruct (insertNew_prefix sameFile files (db_model_files d)) as [l ->]. rewrite map_app. set_solver.
Qed.

Lemma wp_Upsert files w :
  wp (UpsertModelFiles files) (λ r w',
    match r with Ok _ => w_db w' = withFiles files (w_db w) | Err _ => faulty ∧ w_db w' = w_db w end) w.
Proof.
  unfold UpsertModelFiles. case_bool_decide as Hn.
  - subst files. wp_step. by destruct w as [[] ? ? ?].
  - apply wp_db_fault; [intros Hf; by split; [eexists|]|done].
Qed.

(** The rows of a node among the given hashes are gone. *)
Definition withoutFiles (address : string) (hashes : list (list Z)) (d : DB) : DB :=
  d <| db_node_models := select_where (λ m, negb (String.eqb (nm_NodeAddress m) address && bool_decide (nm_ModelFileHash m ∈ hashes)))
         (db_node_models d) |>.

Lemma select_all {A} (p : A → bool) t : (∀ r, r ∈ t → p r = true) → select_where p t = t.
Proof.
  intros H. unfold select_where. induction t as [|r t IH]; [done|]. simpl. rewrite (H r) by set_solver. by rewrite IH by set_solver.
Qed.

Lemma select_none {A} (p : A → bool) t : (∀ r, r ∈ t → p r = false) → select_where p t = [].
Proof.
  intros H. unfold select_where. induction t as [|r t IH]; [done|]. simpl. rewrite (H r) by set_solver. apply IH. set_solver.
Qed.

Lemma wp_DeleteFiles address hashes w :
  wp (DeleteNodeModelsByFileHashes address hashes) (λ r w',
    match r with Ok _ => w_db w' = withoutFiles address hashes (w_db w) | Err _ => faulty ∧ w_db w' = w_db w end) w.
Proof.
  unfold DeleteNodeModelsByFileHashes. case_bool_decide as Hn.
  - subst hashes. wp_step. unfold withoutFiles. rewrite select_all; [by destruct w as [[] ? ? ?]|].
    intros m _. rewrite (bool_decide_eq_false_2 (_ ∈ [])) by set_solver. by rewrite andb_false_r.
  - apply wp_db_fault; [intros Hf; by split; [eexists|]|done].
Qed.

Lemma withoutFiles_key address hashes d k :
  k ∈ map nodeKey (db_node_models (withoutFiles address hashes d)) ↔
  k ∈ map nodeKey (db_node_models d) ∧ ¬ (fst k = address ∧ snd k ∈ hashes).
Proof.
  unfold withoutFiles. simpl. split.
  - intros (m & -> & [Hm Hp]%elem_of_select)%list_elem_of_fmap. split; [by apply list_elem_of_fmap_2|]. simpl.
    intros [Ha Hh]. rewrite (proj2 (String.eqb_eq _ _) Ha), bool_decide_eq_true_2 in Hp; done.
  - intros [(m & -> & Hm)%list_elem_of_fmap Hn]. apply list_elem_of_fmap_2, elem_of_select. split; [done|].
    simpl in Hn. destruct (String.eqb_spec (nm_NodeAddress m) address); [|done]. case_bool_decide; [|done]. tauto.
Qed.

(** The rows a node lacks are inserted: none of them exists. *)
Lemma wp_Create address missing w : inventory (w_db w) → NoDup missing → Forall (catalogued (w_db w)) missing →
  (∀ h, h ∈ missing → (address, h) ∉ map nodeKey (db_node_models (w_db w))) →
  wp (CreateNodeModels (map (NewNodeModel address) missing)) (λ r w', inventory (w_db w') ∧
    match r with
    | Ok _ => ∃ l, map nodeKey l = map (λ h, (address, h)) missing ∧
                   w_db w' = (w_db w) <| db_node_models := db_node_models (w_db w) ++ l |>
    | Err _ => faulty ∧ w_db w' = w_db w
    end) w.
Proof.
  intros Hd Hn Hc Hnew. unfold CreateNodeModels. apply wp_db_fault; [intros Hf; split; [done|]; by split; [eexists|]|].
  assert (Hk : map nodeKey (map (NewNodeModel address) missing) = map (λ h, (address, h)) missing) by (rewrite map_map; done).
  destruct (insertNodeModels_ok (map (NewNodeModel address) missing) (db_node_models (w_db w))) as [t Ht].
  { rewrite Hk. change (NoDup ((λ h : list Z, (address, h)) <$> missing)). apply NoDup_fmap_2; [intros ? ? [= ?]; done|done]. }
  { rewrite Hk. intros k (h & -> & Hh)%list_elem_of_fmap. by apply Hnew. }
  rewrite Ht. destruct (insertNodeModels_spec _ _ _ Ht (inv_node_keys _ Hd)) as (H1 & H2 & [l Hl]).
  split.
  - apply (inventory_nodes (w_db w)); [done|done|]. apply Forall_forall. intros m Hm.
    destruct (insertNodeModels_hash _ _ _ _ Ht (inv_node_keys _ Hd) Hm) as [Hm'|Hm'].
    + pose proof (inv_nodes _ Hd) as Hi. rewrite Forall_forall in Hi. by apply Hi.
    + rewrite Hk in Hm'. apply list_elem_of_fmap in Hm' as (h & [= _ ->] & Hh). by eapply Forall_forall in Hh.
  - exists l. rewrite Hl, map_app in H2. apply app_inv_head in H2. rewrite H2, Hk. split; [done|]. rewrite <- Hl. done.
Qed.

(** The inventory of a node after it reported [kept]. *)
Definition replaced (address : string) (kept : list ModelFile) (d d' : DB) : Prop :=
  (∀ h, h ∈ heldBy d' address ↔ h ∈ map mf_ModelFileHash kept) ∧
  (let other m := negb (String.eqb (nm_NodeAddress m) address) in
   select_where other (db_node_models d') = select_where other (db_node_models d)) ∧
  db_download_selections d' =
    select_where (stillWanted address (list_to_set (map mf_ModelFileHash kept)) (list_to_set (map mf_ModelFileSourceHash kept)))
      (db_download_selections d) ∧
  (∀ h, catalogued d' h ↔ catalogued d h ∨ h ∈ map mf_ModelFileHash kept) ∧
  db_in_memory_models d' = db_in_memory_models d ∧ db_loaded_models d' = db_loaded_models d.

(** Deleting what is no longer reported and inserting what is new leaves what is
    reported. *)
Lemma wp_syncRows address reported w : inventory (w_db w) → NoDup reported → Forall (catalogued (w_db w)) reported →
  let existing := heldBy (w_db w) address in
  let missing := select_where (λ h, negb (bool_decide (h ∈ (list_to_set existing : gset (list Z))))) reported in
  wp (DeleteNodeModelsByFileHashes address
        (select_where (λ h, negb (bool_decide (h ∈ (list_to_set reported : gset (list Z))))) existing);;
      if bool_decide (map (NewNodeModel address) missing = []) then mret tt else CreateNodeModels (map (NewNodeModel address) missing))
    (λ r w', inventory (w_db w') ∧
      match r with
      | Ok _ => ∃ t, w_db w' = (w_db w) <| db_node_models := t |> ∧
          (∀ h, h ∈ heldBy (w_db w') address ↔ h ∈ reported) ∧
          (let other m := negb (String.eqb (nm_NodeAddress m) address) in
           select_where other t = select_where other (db_node_models (w_db w)))
      | Err _ => faulty
      end) w.
Proof.
  intros Hd Hn Hc existing missing. set (stale := select_where _ existing).
  wp_step. eapply wp_mono; [apply wp_DeleteFiles|]. intros [[]|e] w1 H1; [|by destruct H1 as [? ->]].
  assert (Hd1 : inventory (w_db w1)) by (rewrite H1; by apply inventory_fewer_nodes).
  assert (Hstale : ∀ h, h ∈ stale ↔ h ∈ existing ∧ h ∉ reported).
  { intros h. unfold stale. rewrite elem_of_select, negb_true_iff, bool_decide_eq_false, elem_of_list_to_set. done. }
  assert (Hmiss : ∀ h, h ∈ missing ↔ h ∈ reported ∧ h ∉ existing).
  { intros h. unfold missing. rewrite elem_of_select, negb_true_iff, bool_decide_eq_false, elem_of_list_to_set. done. }
  assert (Hkeys : ∀ h, (address, h) ∈ map nodeKey (db_node_models (w_db w1)) ↔ h ∈ existing ∧ h ∈ reported).
  { intros h. rewrite H1, withoutFiles_key, <- heldBy_key. simpl. fold existing. rewrite Hstale.
    destruct (decide (h ∈ reported)); naive_solver. }
  assert (Hother : select_where (λ m, negb (String.eqb (nm_NodeAddress m) address)) (db_node_models (w_db w1)) =
                   select_where (λ m, negb (String.eqb (nm_NodeAddress m) address)) (db_node_models (w_db w))).
  { rewrite H1. unfold withoutFiles. simpl. rewrite select_select_comm. apply select_all.
    intros m [_ Hm]%elem_of_select. by destruct (String.eqb _ _). }
  case_bool_decide as Hnil.
  - wp_step. split; [done|]. exists (db_node_models (w_db w1)). rewrite H1. split; [done|]. rewrite <- H1. split; [|done].
    intros h. rewrite heldBy_key, Hkeys. split; [tauto|]. intros Hh. split; [|done].
    destruct (decide (h ∈ existing)); [done|]. apply map_eq_nil in Hnil.
    assert (Hm : h ∈ missing) by (by apply Hmiss). rewrite Hnil in Hm. set_solver.
  - eapply wp_mono; [apply wp_Create|].
    + done.
    + unfold missing, select_where. rewrite <- (map_id (List.filter _ _)). apply NoDup_map_select. by rewrite map_id.
    + apply Forall_forall. intros h [Hh _]%Hmiss. rewrite Forall_forall in Hc. specialize (Hc h Hh).
      rewrite H1. done.
    + intros h [Hh1 Hh2]%Hmiss [Hh3 _]%Hkeys. done.
    + intros [[]|e] w2 [Hd2 H2]; [|by destruct H2]. split; [done|]. destruct H2 as (l & Hl & H2).
      exists (db_node_models (w_db w1) ++ l). rewrite H2. split; [by rewrite H1|]. split.
      * intros h. rewrite heldBy_key. simpl. rewrite map_app, Hl, elem_of_app, Hkeys.
        split; [intros [[? ?]|(h' & [= <-] & [? ?]%Hmiss)%list_elem_of_fmap]; done|].
        intros Hh. destruct (decide (h ∈ existing)); [by left|right]. apply list_elem_of_fmap. exists h. split; [done|]. by apply Hmiss.
      * simpl. unfold select_where in *. rewrite List.filter_app, Hother.
        rewrite <- (app_nil_r (List.filter _ (db_node_models (w_db w)))) at 2. f_equal. apply select_none. intros m Hm.
        assert (Hk : nodeKey m ∈ map nodeKey l) by (by apply list_elem_of_fmap_2). rewrite Hl in Hk.
        apply list_elem_of_fmap in Hk as (h & [= Ha _] & _). rewrite Ha, String.eqb_refl. done.
Qed.

Lemma wp_regroup {A B C} (m : M A) (n : A → M B) (k : B → M C) Q w :
  wp (x ← m; n x) (λ r w', match r with Ok y => wp (k y) Q w' | Err e => Q (Err e) w' end) w →
  wp (x ← m; y ← n x; k y) Q w.
Proof.
  unfold wp, mbind, M_bind. destruct (m w) as [[x|e] w1]; [|done]. destruct (n x w1) as [[y|e] w2]; done.
Qed.

Lemma wp_replaceNodeModelFiles (address : string) (files : list ModelFile) (w : World) :
  inventory (w_db w) → Forall file_ok files → NoDup (map mf_ModelFileHash files) →
  wp (replaceNodeModelFiles address files) (λ r w', inventory (w_db w') ∧
    match r with
    | Ok _ => ∃ kept, fst (filterWhitelistedModelFiles files w) = Ok kept ∧ replaced address kept (w_db w) (w_db w')
    | Err e => faulty ∨ fst (filterWhitelistedModelFiles files w) = Err e
    end) w.
Proof.
  intros Hd Hf Hn. unfold replaceNodeModelFiles. wp_step. unfold wp at 1.
  rewrite filterWhitelisted_world. destruct (fst (filterWhitelistedModelFiles files w)) as [kept|e] eqn:Hk; [|by split; [|right]].
  apply filterWhitelisted_sub in Hk as Hsub.
  assert (Hfk : Forall file_ok kept).
  { apply Forall_forall. intros f Hin. rewrite Forall_forall in Hf. apply Hf. by apply (sublist_subseteq kept files). }
  assert (Hnk : NoDup (map mf_ModelFileHash kept)).
  { eapply sublist_NoDup; [exact Hn|]. by apply (fmap_sublist mf_ModelFileHash). }
  wp_step. eapply wp_mono; [apply wp_Upsert|]. intros [[]|e] w1 H1; [|destruct H1 as [? ->]; split; [done|by left]].
  assert (Hd1 : inventory (w_db w1)) by (rewrite H1; by apply inventory_grow).
  wp_step. wp_step. rewrite modelFileHashes_ok by done.
  wp_step. unfold GetNodeModelsByNodeAddress. apply wp_db_fault; [intros He; split; [done|left; by eexists]|].
  cbn [tick set_db w_db]. wp_step. wp_step. rewrite nodeHashes_ok by done. fold (heldBy (w_db w1) address).
  set (w2 := tick _). assert (H2 : w_db w2 = w_db w1) by (by destruct w1).
  cbn zeta. apply wp_regroup. eapply wp_mono; [apply (wp_syncRows address (map mf_ModelFileHash kept) w2)|].
  { by rewrite H2. }
  { done. }
  { rewrite H2, H1. apply Forall_forall. intros h Hh. apply withFiles_catalogued. by right. }
  intros [[]|e] w3 [Hd3 H3]; [|split; [done|by left]].
  destruct H3 as (t & Ht & Hheld & Hother). wp_step. wp_step. rewrite sourceHashes_ok by done.
  eapply wp_mono; [by apply wp_pruneUncovered|]. intros [[]|e] w4 [Hd4 H4]; [|split; [done|left; apply H4]].
  split; [done|]. exists kept. split; [done|]. unfold replaced. rewrite H4, Ht, H2, H1.
  split; [intros h; rewrite <- Hheld; rewrite !heldBy_key, Ht; done|].
  split; [simpl; rewrite Hother, H2, H1; done|]. split; [done|].
  split; [|done]. intros h. rewrite <- withFiles_catalogued. done.
Qed.

(** C28 (functional): what a node's report of its files does.  If the report is taken, the node holds
    exactly the reported files that the whitelist allows; the files of all other nodes are
    unchanged; of the downloads the node was asked for those remain whose files it now holds;
    and the catalog gains the reported files only.  The report is refused only when the
    whitelist check fails or an access fails; and the inventory stays well formed. *)
Theorem replaceNodeModelFiles_effect (address : string) (files : list ModelFile) (w : World) :
  inventory (w_db w) → Forall file_ok files → NoDup (map mf_ModelFileHash files) →
  wp (replaceNodeModelFiles address files) (λ r w', inventory (w_db w') ∧
    match r with
    | Ok _ => ∃ kept, fst (filterWhitelistedModelFiles files w) = Ok kept ∧ replaced address kept (w_db w) (w_db w')
    | Err e => faulty ∨ fst (filterWhitelistedModelFiles files w) = Err e
    end) w.
Proof. apply wp_replaceNodeModelFiles. Qed.

(** ** The other operations *)

Lemma NewModelFile_ok e f : NewModelFile e = Ok f → file_ok f.
Proof.
  unfold NewModelFile, ModelFileHash, ModelFileSourceHash. destruct (entryCanonicalJSON (Normalized e)) as [c|]; [|done].
  destruct (SourceCanonicalJSON (Normalized e)) as [c'|]; [|done]. intros [= <-]. split; [done|]. apply sha256_length.
Qed.

Lemma buildHeld_ok entries : ∀ seen files, buildHeld entries seen = Ok files →
  Forall file_ok files ∧ NoDup (map mf_ModelFileHash files) ∧ ∀ h, h ∈ map mf_ModelFileHash files → h ∉ seen.
Proof.
  induction entries as [|e entries IH]; intros seen files; cbn [buildHeld].
  { intros [= <-]. repeat split; [constructor|constructor|set_solver]. }
  destruct (negb _); [done|]. destruct (String.eqb _ _); [done|]. destruct (String.eqb _ _); [done|].
  destruct (NewModelFile (Normalized e)) as [f|] eqn:Hnew; [|done]. apply NewModelFile_ok in Hnew.
  rewrite Hash32_ok by (by apply file_ok_hash). case_bool_decide as Hin; [apply IH|].
  destruct (buildHeld entries _) as [fs|] eqn:Hfs; [|done]. intros [= <-]. apply IH in Hfs as (H1 & H2 & H3).
  split; [by constructor|]. split; simpl.
  - apply NoDup_cons. split; [|done]. intros Hf%H3. set_solver.
  - intros h [->|Hh]%elem_of_cons; [done|]. specialize (H3 h Hh). set_solver.
Qed.

Lemma frames_refreshLocked ix a : frames (keeps (λ d, d)) (refreshNodeIndexLocked ix a).
Proof. unfold refreshNodeIndexLocked, GetNodeInMemoryModel. keep_tac. Qed.

Lemma wp_stateUpdate {A} (P : DB → Prop) ix addresses (fn : M A) w :
  wp fn (λ _ w', P (w_db w')) w → wp (ExecuteNodeStateUpdate ix addresses fn) (λ _ w', P (w_db w')) w.
Proof.
  intros Hfn. unfold ExecuteNodeStateUpdate. wp_step. wp_step. eapply wp_mono; [exact Hfn|]. intros r w1 H1.
  assert (Hk : frames (keeps (λ d, d)) (ix' ← refreshAll ix (lockedAddresses addresses); mret (r, ix'))).
  { apply frames_bind; [apply _| |intros; apply frames_ret; apply _].
    generalize (lockedAddresses addresses) ix. intros l. induction l as [|a l IH]; intros ix0; [apply frames_ret; apply _|].
    apply frames_bind; [apply _|apply frames_try, frames_refreshLocked|intros; apply IH]. }
  eapply wp_mono; [apply Hk|]. intros r' w2 H2. unfold keeps in H2. by rewrite H2.
Qed.

Lemma wp_reporting address w (Q : result unit → World → Prop) :
  (∀ r w', w_db w' = w_db w → Q r w') → wp (reportingNode address) Q w.
Proof.
  intros H. unfold reportingNode, Vesting.GetNodeByAddress. wp_step. wp_step; [by apply H|]. destruct (find_first _ _); [|by apply H].
  apply wp_guard; intros; by apply H.
Qed.

Lemma rejected_world file w : snd (modelFileRejectedByWhitelist file w) = w.
Proof.
  unfold modelFileRejectedByWhitelist, fileWhitelisted, IsModelWhitelisted, lift, cache_read, mbind, M_bind.
  destruct (negb _); [done|]. destruct (Entry file); [|done]. simpl. destruct (normalizeModelWhitelistCandidate _); [|done].
  simpl. by destruct (c_model_whitelist (w_cache w)).
Qed.

Lemma inventory_AddNodeModelFile ix address file w : inventory (w_db w) → file_ok file →
  wp (AddNodeModelFile ix address file) (λ _ w', inventory (w_db w')) w.
Proof.
  intros Hd Hf. unfold AddNodeModelFile. wp_step. unfold wp at 1. rewrite rejected_world.
  destruct (fst _) as [[]|e]; [done| |done]. wp_step. wp_step. rewrite Hash32_ok by (by apply file_ok_hash).
  apply wp_stateUpdate. apply (wp_transaction_db _ inventory); [done|]. intros w1 H1.
  wp_step. apply wp_reporting. intros [u|e] w2 H2; [|done].
  wp_step. eapply wp_mono; [apply wp_Upsert|]. intros [u'|e] w3 H3; [|done].
  assert (Hd3 : inventory (w_db w3)) by (rewrite H3, H2, H1; apply inventory_grow; auto).
  wp_step. wp_step. unfold GetNodeModel. wp_step; [done|].
  destruct (find_first _ _) as [m|] eqn:Hfind; [intros _; exact Hd3|].
  cbn [bool_decide]. rewrite bool_decide_eq_true_2 by done.
  eapply wp_mono; [apply (wp_Create address [mf_ModelFileHash file])|].
  - done.
  - apply NoDup_singleton.
  - apply Forall_singleton. change (catalogued (w_db w3) (mf_ModelFileHash file)). rewrite H3.
    apply withFiles_catalogued. right. set_solver.
  - intros h ->%list_elem_of_singleton. change (w_db (tick w3)) with (w_db w3).
    intros (m & Hk & Hm)%list_elem_of_fmap. eapply find_first_None in Hfind; [|exact Hm].
    assert (Hs : sameNodeModel (NewNodeModel address (mf_ModelFileHash file)) m = true) by (by apply sameNodeModel_key).
    congruence.
  - intros r w4 [H4 _] _. done.
Qed.

Lemma memory_ok_new d address r files : is_hash (mr_CacheHash r) → Forall file_ok files →
  Forall (catalogued d) (map mf_ModelFileHash files) →
  memory_ok d (NewNodeInMemoryModel address (mr_CacheHash r) (map mf_ModelFileHash files) (mr_CacheConfig r) (mr_ExecutionDType r)).
Proof.
  intros Hc Hf Hall. split; [done|]. exists (SortedUniqueHashes (map mf_ModelFileHash files)). split.
  - apply DecodeHashList_Encode, Forall_map. eapply Forall_impl; [exact Hf|]. apply file_ok_hash.
  - apply Forall_forall. intros h Hh. rewrite Forall_forall in Hall. by apply Hall, SortedUniqueHashes_spec.
Qed.

Lemma inventory_SetNodeInMemoryModel ix address report w : inventory (w_db w) →
  match report with Some r => is_hash (mr_CacheHash r) ∧ Forall file_ok (mr_Files r) | None => True end →
  wp (SetNodeInMemoryModel ix address report) (λ _ w', inventory (w_db w')) w.
Proof.
  intros Hd Hr. unfold SetNodeInMemoryModel. wp_step.
  assert (Ha : frames (keeps (λ d, d)) (match report with Some r => assertWhitelistedModelFiles (mr_Files r) | None => mret tt end)).
  { destruct report as [r|]; [|apply frames_ret; apply _]. unfold assertWhitelistedModelFiles, fileWhitelisted, IsModelWhitelisted. keep_tac. }
  eapply wp_mono; [apply Ha|]. intros [u|e] w0 H0; [|by rewrite H0]. unfold keeps in H0.
  apply wp_stateUpdate. apply (wp_transaction_db _ inventory); [by rewrite H0|]. intros w1 H1.
  wp_step. apply wp_reporting. intros [u'|e] w2 H2; [|done]. destruct report as [r|].
  - destruct Hr as [Hc Hf]. wp_step. eapply wp_mono; [apply wp_Upsert|]. intros [u2|e] w3 H3; [|done].
    assert (Hd3 : inventory (w_db w3)) by (rewrite H3, H2, H1, H0; by apply inventory_grow).
    wp_step. wp_step. rewrite modelFileHashes_ok by done. unfold SaveNodeInMemoryModel. wp_step; [done|]. intros _.
    apply (inventory_memory (w_db w3)); [done|apply memory_keys_save, Hd3|].
    apply Forall_forall. intros m [->|Hm]%memory_save_elem.
    + apply memory_ok_new; [done|done|]. apply Forall_forall. intros h Hh. rewrite H3. apply withFiles_catalogued. by right.
    + pose proof (inv_memory _ Hd3) as Hi. rewrite Forall_forall in Hi. by apply Hi.
  - unfold ClearNodeInMemoryModel. wp_step; [done|]. intros _. apply (inventory_fewer_memory (w_db w2)). by rewrite H2, H1, H0.
Qed.

(** ** Pruning *)

Lemma GetModelFiles_frames P `{!WorldRel P} hs : frames P (GetModelFiles hs).
Proof. unfold GetModelFiles. keep_tac. Qed.

Lemma inventory_pruneSelections address w : inventory (w_db w) →
  wp (pruneSelectionsForCurrentInventory address) (λ _ w', inventory (w_db w') ∧
     keeps (λ d, (db_node_models d, db_in_memory_models d, db_model_files d, db_loaded_models d)) w w') w.
Proof.
  intros Hd. unfold pruneSelectionsForCurrentInventory. wp_step.
  eapply wp_mono; [apply (frames_db_read (keeps (λ d, d)))|]. unfold keeps at 1. intros [ms|e] w1 H1; [|by rewrite H1; split; [|unfold keeps; rewrite H1]].
  wp_step. wp_step. destruct (decodeHashes _) as [hs|]; [|by split; [rewrite H1|unfold keeps; rewrite H1]].
  wp_step. eapply wp_mono; [apply (GetModelFiles_frames (keeps (λ d, d)))|]. unfold keeps at 1.
  intros [fs|e] w2 H2; [|by split; [rewrite H2, H1|unfold keeps; rewrite H2, H1]].
  wp_step. wp_step. destruct (decodeHashes _) as [ss|]; [|by split; [rewrite H2, H1|unfold keeps; rewrite H2, H1]].
  eapply wp_mono; [apply wp_pruneUncovered; by rewrite H2, H1|]. unfold keeps. rewrite <- H1, <- H2.
  intros [u|e] w3 [Hd3 H3]; (split; [done|]); [by rewrite H3|]. destruct H3 as [_ ->]. done.
Qed.

End operations.

(** A node that held one file reports another one; the download it was asked for is
    not covered any more. *)
Definition demo_model (name : string) : ModelFile :=
  let U := demo_unicode in
  match NewModelFile (mkModelFileEntry "huggingface" name "r1" "" None) with
  | Ok f => f | Err _ => mkModelFile [] [] [] end.
Definition demo_old : ModelFile := Eval vm_compute in demo_model "org/old".
Definition demo_new : ModelFile := Eval vm_compute in demo_model "org/new".
Definition demo_selection : NodeModelDownloadSelection :=
  mkNodeModelDownloadSelection 1 (DistributionKey [mf_ModelFileHash demo_old] []) (mf_ModelFileHash demo_old) []
    "0xn" 8 0 100 NodeModelDownloadSelectionPending (Some true).
Definition demo_stock : World :=
  empty_world <| w_db := empty_db <| db_node_models := [mkNodeModel 1 "0xn" (mf_ModelFileHash demo_old); mkNodeModel 2 "0xm" (mf_ModelFileHash demo_old)] |>
    <| db_model_files := [demo_old] |> <| db_download_selections := [demo_selection] |> |>.

Lemma demo_old_ok : file_ok demo_old.
Proof. split; vm_compute; reflexivity. Qed.
Lemma demo_new_ok : file_ok demo_new.
Proof. split; vm_compute; reflexivity. Qed.

Lemma demo_stock_ok : inventory (w_db demo_stock).
Proof.
  split.
  - repeat constructor; apply demo_old_ok.
  - apply (bool_decide_unpack _). vm_compute. exact I.
  - repeat constructor; apply (bool_decide_unpack _); vm_compute; exact I.
  - apply (bool_decide_unpack _). vm_compute. exact I.
  - constructor.
  - constructor.
  - repeat constructor. exists [mf_ModelFileHash demo_old], []. split; vm_compute; reflexivity.
  - apply (bool_decide_unpack _). vm_compute. exact I.
  - apply (bool_decide_unpack _). vm_compute. exact I.
Qed.

Lemma replaceNodeModelFiles_effect_witness :
  wp (replaceNodeModelFiles (E:=demo_env) "0xn" [demo_new]) (λ r w', r = Ok tt ∧ inventory (w_db w') ∧
    (∀ h, h ∈ heldBy (w_db w') "0xn" ↔ h ∈ [mf_ModelFileHash demo_new]) ∧ db_download_selections (w_db w') = []) demo_stock.
Proof.
  pose proof (replaceNodeModelFiles_effect (E:=demo_env) "0xn" [demo_new] demo_stock demo_stock_ok
    (proj2 (Forall_singleton file_ok demo_new) demo_new_ok) ltac:(apply NoDup_singleton)) as H.
  unfold wp in *. assert (Hr : fst (replaceNodeModelFiles (E:=demo_env) "0xn" [demo_new] demo_stock) = Ok tt) by (vm_compute; reflexivity).
  rewrite Hr in *. destruct H as [Hi (kept & Hk & Hheld & _ & Hs & _)].
  split; [reflexivity|]. split; [exact Hi|].
  assert (Hkept : fst (filterWhitelistedModelFiles (E:=demo_env) [demo_new] demo_stock) = Ok [demo_new]) by (vm_compute; reflexivity).
  rewrite Hkept in Hk. injection Hk as <-. split; [exact Hheld|]. rewrite Hs. vm_compute. reflexivity.
Defined.

End NodeInventory.
