(* ===== verification/WhitelistEnforcement.v ===== *)
(** * The whitelist is enforced

    src/service/model_whitelist.go: what the two sets in memory decide, and that no
    node holds, on disk or in memory, a model the whitelist forbids: a change of the
    whitelist removes such models and the reports of nodes do not bring them back. *)

From Stdlib Require Import Ascii.
From stdpp Require Import sorting.
From S2P Require Import Prelude Mac Json JsonDecode GoStrings Models Config Delegation MaxStaking Store.
From S2P Require Import ModelFiles TaskModels ModelWhitelist Vesting Qos NodeState NodeIndex NodeModels NodeInventory.

Module WhitelistEnforcement.
Import Mac Json JsonDecode GoStrings ModelFiles TaskModels ModelWhitelist NodeState NodeIndex NodeModels NodeInventory.

Section enforcement.
Context {E : Env}.

(** ** Decisions *)

(** The decision on a name, on a row of the catalog *)
Definition verdictName (sets : gset string * gset string) (name : string) : result bool :=
  match normalizeModelWhitelistCandidate name with Ok n => Ok (allowed sets n) | Err e => Err e end.
Definition verdict (sets : gset string * gset string) (f : ModelFile) : result bool :=
  match Entry f with Ok e => verdictName sets (me_Repository e) | Err e => Err e end.

Lemma IsModelWhitelisted_eq name w sets : c_model_whitelist (w_cache w) = Some sets →
  IsModelWhitelisted name w = (verdictName sets name, w).
Proof.
  intros H. unfold IsModelWhitelisted, verdictName, lift, cache_read, mbind, M_bind.
  destruct (normalizeModelWhitelistCandidate name); [|done]. by rewrite H.
Qed.

Lemma fileWhitelisted_eq f w sets : c_model_whitelist (w_cache w) = Some sets → fileWhitelisted f w = (verdict sets f, w).
Proof.
  intros H. unfold fileWhitelisted, verdict, lift, mbind, M_bind. destruct (Entry f) as [e|]; [|done].
  by apply IsModelWhitelisted_eq.
Qed.

(** The hash names the description of a repository that is allowed. *)
Definition hashAllowed (sets : gset string * gset string) (h : list Z) : Prop :=
  ∃ f, file_ok f ∧ mf_ModelFileHash f = h ∧ verdict sets f = Ok true.

(** The stock holds nothing the sets forbid. *)
Record enforced (sets : gset string * gset string) (d : DB) : Prop := {
  en_disk : Forall (λ m, hashAllowed sets (nm_ModelFileHash m)) (db_node_models d);
  en_memory : Forall (λ m, ∀ hs, FileHashes m = Ok hs → Forall (hashAllowed sets) hs) (db_in_memory_models d);
  en_loaded : Forall (λ m, verdictName sets (lm_ModelID m) = Ok true) (db_loaded_models d)
}.

(** ** What is forbidden *)

Lemma wp_bannedFiles sets catalog : ∀ banned w, c_model_whitelist (w_cache w) = Some sets → Forall file_ok catalog →
  wp (bannedFiles catalog banned) (λ r w', w' = w ∧ ∀ b, r = Ok b →
    (∀ h, h ∈ banned → h ∈ b) ∧ ∀ f, f ∈ catalog → mf_ModelFileHash f ∉ b → verdict sets f = Ok true) w.
Proof.
  induction catalog as [|f catalog IH]; intros banned w Hc Hf; cbn [bannedFiles].
  { wp_step. split; [done|]. intros b [= <-]. split; [done|]. set_solver. }
  apply Forall_cons in Hf as [Hf Hfs]. wp_step. unfold wp at 1. rewrite (fileWhitelisted_eq _ _ sets Hc). cbn [fst snd].
  destruct (verdict sets f) as [[]|e] eqn:Hv; [| |done].
  - eapply wp_mono; [by apply IH|]. intros r w1 [-> H]. split; [done|]. intros b Hb. destruct (H b Hb) as [H1 H2].
    split; [done|]. intros f' [->|Hin]%elem_of_cons; [done|by apply H2].
  - wp_step. wp_step. rewrite Hash32_ok by (by apply file_ok_hash).
    eapply wp_mono; [by apply IH|]. intros r w1 [-> H]. split; [done|]. intros b Hb. destruct (H b Hb) as [H1 H2].
    assert (Hin : mf_ModelFileHash f ∈ b) by (apply H1; case_bool_decide; set_solver).
    split; [intros h Hh; apply H1; case_bool_decide; set_solver|].
    intros f' [->|Hf']%elem_of_cons; [done|by apply H2].
Qed.

Lemma wp_anyForbidden sets files w : c_model_whitelist (w_cache w) = Some sets →
  wp (anyForbidden files) (λ r w', w' = w ∧ (r = Ok false → Forall (λ f, verdict sets f = Ok true) files)) w.
Proof.
  intros Hc. induction files as [|f files IH]; cbn [anyForbidden]; [by wp_step|].
  wp_step. unfold wp at 1. rewrite (fileWhitelisted_eq _ _ sets Hc). cbn [fst snd].
  destruct (verdict sets f) as [[]|e] eqn:Hv; [|by wp_step|done].
  eapply wp_mono; [exact IH|]. intros r w1 [-> H]. split; [done|]. intros Hr. constructor; auto.
Qed.

Lemma wp_hasForbidden sets row banned w : c_model_whitelist (w_cache w) = Some sets → inventory (w_db w) → memory_ok (w_db w) row →
  wp (inMemoryModelHasNonWhitelistedFile row banned) (λ r w', reads_only w w' ∧
    (r = Ok false → ∀ hs, FileHashes row = Ok hs → Forall (hashAllowed sets) hs)) w.
Proof.
  intros Hc Hd [_ (hs & Hhs & Hcat)]. unfold inMemoryModelHasNonWhitelistedFile. wp_step. wp_step. rewrite Hhs.
  case_bool_decide as Hnil; [wp_step; split; [apply reads_only_rel|]; intros _ hs' [= <-]; by rewrite Hnil|].
  destruct (existsb _ hs); [wp_step; split; [apply reads_only_rel|done]|].
  unfold GetModelFiles. rewrite bool_decide_eq_false_2 by done. wp_step.
  wp_step; [split; [by destruct w|done]|]. cbn [w_db tick set_db].
  destruct (negb _); [wp_step; split; [by destruct w|done]|].
  eapply wp_mono; [apply (wp_anyForbidden sets); by destruct w|]. intros r w1 [-> H]. split; [by destruct w|].
  intros Hr hs' [= <-]. specialize (H Hr).
  apply Forall_forall. intros h Hh. rewrite Forall_forall in Hcat.
  destruct (proj1 (list_elem_of_fmap _ _ _) (Hcat h Hh)) as (f & -> & Hf).
  rewrite Forall_forall in H. exists f. split; [|split; [done|]].
  - pose proof (inv_files _ Hd) as Hfs. rewrite Forall_forall in Hfs. auto.
  - apply H, elem_of_select. split; [done|]. by apply bool_decide_eq_true.
Qed.

Lemma wp_memoryToClear sets rows banned : ∀ w, c_model_whitelist (w_cache w) = Some sets → inventory (w_db w) →
  Forall (memory_ok (w_db w)) rows →
  wp (memoryToClear rows banned) (λ r w', reads_only w w' ∧ ∀ clear, r = Ok clear →
    ∀ m, m ∈ rows → im_NodeAddress m ∉ clear → ∀ hs, FileHashes m = Ok hs → Forall (hashAllowed sets) hs) w.
Proof.
  induction rows as [|row rows IH]; intros w Hc Hd Hm; cbn [memoryToClear].
  { wp_step. split; [apply reads_only_rel|]. set_solver. }
  apply Forall_cons in Hm as [Hm Hms]. wp_step. eapply wp_mono; [by apply wp_hasForbidden|].
  intros [b|e] w1 [Hr H]; [|done]. wp_step. destruct Hr as [Hr1 Hr2].
  eapply wp_mono; [apply IH; by rewrite ?Hr1, ?Hr2|]. intros [rest|e] w2 [[Hr3 Hr4] H2]; [|split; [split; congruence|done]].
  wp_step. split; [split; congruence|]. intros clear [= <-] m [->|Hin]%elem_of_cons Hnot.
  - destruct b; [set_solver|]. by apply H.
  - apply (H2 rest eq_refl m Hin). destruct b; set_solver.
Qed.

Lemma wp_forbiddenLoaded sets ms w : c_model_whitelist (w_cache w) = Some sets →
  wp (forbiddenLoaded ms) (λ r w', w' = w ∧ ∀ ids, r = Ok ids →
    ∀ m, m ∈ ms → lm_ID m ∉ ids → verdictName sets (lm_ModelID m) = Ok true) w.
Proof.
  intros Hc. induction ms as [|m ms IH]; cbn [forbiddenLoaded]; [wp_step; set_solver|].
  wp_step. unfold wp at 1. rewrite (IsModelWhitelisted_eq _ _ sets Hc). cbn [fst snd].
  destruct (verdictName sets (lm_ModelID m)) as [b|e] eqn:Hv; [|done]. wp_step. eapply wp_mono; [exact IH|].
  intros [rest|e] w1 [-> H]; [|done]. wp_step. split; [done|]. intros ids [= <-] m' [->|Hin]%elem_of_cons Hnot.
  - destruct b; [done|set_solver].
  - apply (H rest eq_refl m' Hin). destruct b; set_solver.
Qed.

(** ** Pruning *)

Lemma select_true {A} (p : A → bool) t : (∀ r, p r = true) → select_where p t = t.
Proof. intros H. apply select_all. auto. Qed.

Lemma wp_clearMemory clear : ∀ w, inventory (w_db w) →
  wp (for_each clear ClearNodeInMemoryModel) (λ r w', is_ok r = true → inventory (w_db w') ∧
    w_db w' = (w_db w) <| db_in_memory_models :=
      select_where (λ m, negb (bool_decide (im_NodeAddress m ∈ clear))) (db_in_memory_models (w_db w)) |>) w.
Proof.
  induction clear as [|a clear IH]; intros w Hd; cbn [for_each].
  { wp_step. intros _. rewrite select_true by (intros m; by rewrite bool_decide_eq_false_2 by set_solver).
    split; [done|]. by destruct w as [[] ? ? ?]. }
  wp_step. unfold ClearNodeInMemoryModel at 1. wp_step; [done|]. eapply wp_mono; [apply IH; by apply (inventory_fewer_memory (w_db w))|].
  intros [u|e] w2 H2 Hr; [|done]. destruct (H2 Hr) as [Hd2 ->]. split; [by destruct (H2 Hr) as [Hi <-]|].
  cbn. f_equal. unfold select_where. generalize (db_in_memory_models (w_db w)) as l. induction l as [|m l IHl]; [done|].
  cbn [List.filter]. destruct (String.eqb_spec (im_NodeAddress m) a) as [->|Hne]; cbn [negb List.filter].
  - rewrite (bool_decide_eq_true_2 (a ∈ a :: clear)) by set_solver. done.
  - rewrite (bool_decide_ext (im_NodeAddress m ∈ a :: clear) (im_NodeAddress m ∈ clear)) by set_solver. by rewrite IHl.
Qed.

Definition rest_of (d : DB) := (db_node_models d, db_in_memory_models d, db_model_files d, db_loaded_models d).

Lemma wp_pruneSelections addresses : ∀ w, inventory (w_db w) →
  wp (for_each addresses pruneSelectionsForCurrentInventory) (λ _ w', inventory (w_db w') ∧ keeps rest_of w w') w.
Proof.
  induction addresses as [|a addresses IH]; intros w Hd; cbn [for_each]; [by wp_step|].
  wp_step. eapply wp_mono; [by apply inventory_pruneSelections|]. intros [u|e] w1 [Hd1 H1]; [|done].
  eapply wp_mono; [by apply IH|]. intros r w2 [Hd2 H2]. split; [done|]. unfold keeps, rest_of in *. congruence.
Qed.

(** The stock without what is forbidden. *)
Definition pruned (banned : list (list Z)) (clear : list string) (ids : list Z) (d d' : DB) : Prop :=
  db_node_models d' = select_where (λ m, negb (bool_decide (nm_ModelFileHash m ∈ banned))) (db_node_models d) ∧
  db_in_memory_models d' = select_where (λ m, negb (bool_decide (im_NodeAddress m ∈ clear))) (db_in_memory_models d) ∧
  db_loaded_models d' = select_where (λ m, negb (bool_decide (lm_ID m ∈ ids))) (db_loaded_models d) ∧
  db_model_files d' = db_model_files d.

Lemma wp_applyPruning banned clear addresses ids w : inventory (w_db w) →
  wp (applyPruning banned clear addresses ids) (λ r w', inventory (w_db w') ∧
    (is_ok r = true → pruned banned clear ids (w_db w) (w_db w'))) w.
Proof.
  intros Hd. unfold applyPruning. wp_step; [done|]. set (w0 := mkWorld _ _ _ _).
  assert (Hw0 : w_db w0 = w_db w) by done. wp_step.
  assert (H1 : wp (if bool_decide (banned = []) then mret tt
     else db_write (λ d, d <| db_node_models := select_where (λ m, negb (bool_decide (nm_ModelFileHash m ∈ banned))) (db_node_models d) |>))
     (λ r w', is_ok r = true → w_db w' = (w_db w) <| db_node_models :=
        select_where (λ m, negb (bool_decide (nm_ModelFileHash m ∈ banned))) (db_node_models (w_db w)) |>) w0).
  { case_bool_decide as Hn; [|wp_step; [done|]; intros _; by rewrite Hw0]. wp_step. intros _.
    rewrite select_true by (intros m; subst; by rewrite bool_decide_eq_false_2 by set_solver). by destruct w as [[] ? ? ?]. }
  eapply wp_mono; [exact H1|]. clear H1. intros [u|e] w1 H1; [|done]. specialize (H1 eq_refl).
  assert (Hd1 : inventory (w_db w1)) by (rewrite H1; by apply inventory_fewer_nodes).
  wp_step. eapply wp_mono; [by apply wp_clearMemory|]. intros [u1|e] w2 H2; [|done]. destruct (H2 eq_refl) as [Hd2 H2'].
  wp_step. eapply wp_mono; [by apply wp_pruneSelections|]. intros [u2|e] w3 [Hd3 H3]; [|done].
  unfold keeps, rest_of in H3. injection H3 as H3n H3m H3f H3l.
  assert (Hfin : ∀ w4, w_db w4 = (w_db w3) <| db_loaded_models := select_where (λ m, negb (bool_decide (lm_ID m ∈ ids))) (db_loaded_models (w_db w3)) |> →
     inventory (w_db w4) ∧ pruned banned clear ids (w_db w) (w_db w4)).
  { intros w4 H4. split; [by apply (inventory_stock (w_db w3)); [rewrite H4|]|]. unfold pruned. rewrite H4. simpl.
    rewrite H3n, H3m, H3f, H3l, H2', H1. done. }
  case_bool_decide as Hids.
  - wp_step. destruct (Hfin w3) as [Hi Hp].
    { rewrite select_true; [by destruct w3 as [[] ? ? ?]|]. intros m. subst. by rewrite bool_decide_eq_false_2 by set_solver. }
    split; [intros _ _; by split|]. split; [done|]. by intros _.
  - wp_step; [done|]. destruct (Hfin (tick (set_db ((w_db w3) <| db_loaded_models := select_where (λ m, negb (bool_decide (lm_ID m ∈ ids))) (db_loaded_models (w_db w3)) |>) w3))) as [Hi Hp]; [done|].
    split; [intros _ _; by split|]. split; [done|]. by intros _.
Qed.

Lemma hashAllowed_catalog sets d h (banned : list (list Z)) : inventory d → catalogued d h → h ∉ banned →
  (∀ f, f ∈ db_model_files d → mf_ModelFileHash f ∉ banned → verdict sets f = Ok true) → hashAllowed sets h.
Proof.
  intros Hd (f & -> & Hf)%list_elem_of_fmap Hb Hv. exists f. split; [|split; [done|by apply Hv]].
  pose proof (inv_files _ Hd) as Hfs. rewrite Forall_forall in Hfs. auto.
Qed.

Definition same_cache (w w' : World) : Prop := w_cache w' = w_cache w.
#[local] Instance same_cache_rel : WorldRel same_cache.
Proof. split; unfold same_cache; [done|congruence|done|done]. Qed.

Lemma frames_refreshAll P `{!WorldRel P} l : ∀ ix, frames P (refreshAll ix l).
Proof.
  induction l as [|a l IH]; intros ix; cbn [refreshAll]; [by apply frames_ret|].
  apply frames_bind; [done| |intros; apply IH]. apply frames_try. unfold refreshNodeIndexLocked, GetNodeInMemoryModel. keep_tac.
Qed.

Lemma frames_prune P `{!WorldRel P} ix :
  (∀ w f, P w (set_db ((w_db w) <| db_node_models := f |>) w)) →
  (∀ w f, P w (set_db ((w_db w) <| db_in_memory_models := f |>) w)) →
  (∀ w f, P w (set_db ((w_db w) <| db_download_selections := f |>) w)) →
  (∀ w f, P w (set_db ((w_db w) <| db_loaded_models := f |>) w)) →
  frames P (pruneNonWhitelistedModelInventory ix).
Proof.
  intros W1 W2 W3 W4.
  unfold pruneNonWhitelistedModelInventory.
  assert (Hi : ∀ name, frames P (IsModelWhitelisted name)) by (intros; apply frames_IsModelWhitelisted, _).
  assert (Hf : ∀ f, frames P (fileWhitelisted f)) by (intros; apply frames_fileWhitelisted, _).
  apply frames_bind; [apply _|keep_tac|]. intros catalog. apply frames_bind; [apply _| |].
  { generalize ([] : list (list Z)). induction catalog as [|f catalog IH]; intros b; cbn [bannedFiles]; [keep_tac|].
    apply frames_bind; [apply _|apply Hf|]. intros []; [apply IH|]. apply frames_bind; [apply _|keep_tac|]. intros. apply IH. }
  intros banned. apply frames_bind; [apply _|keep_tac|]. intros holders. apply frames_bind; [apply _|keep_tac|].
  intros rows. apply frames_bind; [apply _| |].
  { induction rows as [|row rows IH]; cbn [memoryToClear]; [keep_tac|]. apply frames_bind; [apply _| |].
    - unfold inMemoryModelHasNonWhitelistedFile, GetModelFiles. apply frames_bind; [apply _|keep_tac|]. intros hs.
      case_bool_decide; [keep_tac|]. destruct (existsb _ _); [keep_tac|]. apply frames_bind; [apply _|keep_tac|]. intros files.
      destruct (negb _); [keep_tac|]. induction files as [|f files IHf]; cbn [anyForbidden]; [keep_tac|].
      apply frames_bind; [apply _|apply Hf|]. intros []; [done|keep_tac].
    - intros b. apply frames_bind; [apply _|done|]. intros. keep_tac. }
  intros clear. apply frames_bind; [apply _|keep_tac|]. intros loaded. apply frames_bind; [apply _| |].
  { induction loaded as [|m loaded IH]; cbn [forbiddenLoaded]; [keep_tac|]. apply frames_bind; [apply _|apply Hi|].
    intros b. apply frames_bind; [apply _|done|]. intros. keep_tac. }
  intros ids. assert (Ha : ∀ addresses, frames P (applyPruning banned clear addresses ids)).
  { intros addresses. unfold applyPruning, ClearNodeInMemoryModel, pruneSelectionsForCurrentInventory, pruneUncoveredSelections,
      DeleteNodeModelDownloadSelectionsByIDs.
    repeat first [apply frames_db_write; [apply _|intros; cbv beta; first [apply W1|apply W2|apply W3|apply W4]] | keep_step]. }
  cbn zeta. case_bool_decide; [apply frames_bind; [apply _|apply Ha|intros; keep_tac]|].
  unfold ExecuteNodeStateUpdate. apply frames_bind; [apply _|apply frames_try, Ha|]. intros.
  apply frames_bind; [apply _|apply frames_refreshAll, _|]. intros. keep_tac.
Qed.

Lemma wp_prune sets ix w : c_model_whitelist (w_cache w) = Some sets → inventory (w_db w) →
  wp (pruneNonWhitelistedModelInventory ix) (λ r w', w_cache w' = w_cache w ∧ inventory (w_db w') ∧
    ∀ ix', r = Ok (Ok tt, ix') → enforced sets (w_db w')) w.
Proof.
  intros Hc Hd. split; [by apply (frames_prune same_cache)|]. 
  change (wp (pruneNonWhitelistedModelInventory ix) (λ r w', inventory (w_db w') ∧
    ∀ ix', r = Ok (Ok tt, ix') → enforced sets (w_db w')) w).
  unfold pruneNonWhitelistedModelInventory. wp_step. wp_step; [done|]. cbn [w_db tick set_db].
  wp_step. eapply wp_mono; [apply (wp_bannedFiles sets); [by destruct w|apply Hd]|]. intros [banned|e] w1 [-> Hb]; [|done].
  destruct (Hb banned eq_refl) as [_ Hban]. clear Hb. set (w1 := tick _).
  assert (Hw1 : reads_only w w1) by (by destruct w). clearbody w1.
  wp_step. assert (Hh : frames reads_only (if bool_decide (banned = []) then mret []
    else db_read (λ d, map nm_NodeAddress (select_where (λ m, bool_decide (nm_ModelFileHash m ∈ banned)) (db_node_models d))))) by keep_tac.
  eapply wp_mono; [apply Hh|]. intros [holders|e] w2 Hw2; [|by rewrite (proj1 Hw2), (proj1 Hw1)].
  assert (Hr2 : reads_only w w2) by (by eapply wr_trans). clear Hh Hw1 Hw2. destruct Hr2 as [Hd2 Hc2].
  wp_step. wp_step; [split; [by rewrite <- Hd2 in Hd|done]|]. set (w3 := tick _).
  assert (Hw3 : reads_only w w3) by (split; [by rewrite <- Hd2|by rewrite <- Hc2]). cbn [w_db].
  rewrite Hd2. clearbody w3. destruct Hw3 as [Hd3 Hc3].
  wp_step. eapply wp_mono; [apply (wp_memoryToClear sets); [by rewrite Hc3|by rewrite Hd3|rewrite Hd3; apply Hd]|].
  intros [clear|e] w4 [[Hd4 Hc4] Hclear]; [|split; [by rewrite Hd4, Hd3|done]]. specialize (Hclear clear eq_refl).
  wp_step. wp_step; [split; [rewrite <- Hd3, <- Hd4 in Hd; exact Hd|done]|]. set (w5 := tick _).
  assert (Hd5 : w_db w5 = w_db w) by (by rewrite <- Hd3, <- Hd4).
  assert (Hc5 : w_cache w5 = w_cache w) by (by rewrite <- Hc3, <- Hc4). cbn [w_db].
  rewrite Hd4, Hd3. clearbody w5.
  wp_step. eapply wp_mono; [apply (wp_forbiddenLoaded sets); by rewrite Hc5|].
  intros [ids|e] w6 [-> Hids]; [|split; [by rewrite Hd5|done]]. specialize (Hids ids eq_refl). cbn zeta.
  set (addresses := merge_sort _ _).
  assert (Hfin : ∀ d', pruned banned clear ids (w_db w) d' → enforced sets d').
  { intros d' (Hn & Hm & Hl & Hf). split; apply Forall_forall; intros m Hin.
    - rewrite Hn in Hin. apply elem_of_select in Hin as [Hin Hnb]. apply negb_true_iff, bool_decide_eq_false in Hnb.
      pose proof (inv_nodes _ Hd) as Hi. rewrite Forall_forall in Hi. by eapply hashAllowed_catalog; [|apply Hi| |].
    - rewrite Hm in Hin. apply elem_of_select in Hin as [Hin Hnb]. apply negb_true_iff, bool_decide_eq_false in Hnb.
      by apply (Hclear m).
    - rewrite Hl in Hin. apply elem_of_select in Hin as [Hin Hnb]. apply negb_true_iff, bool_decide_eq_false in Hnb.
      by apply (Hids m). }
  assert (Happ : wp (applyPruning banned clear addresses ids) (λ r w', inventory (w_db w') ∧ (is_ok r = true → enforced sets (w_db w'))) w5).
  { eapply wp_mono; [apply wp_applyPruning; by rewrite Hd5|]. intros r w7 [Hi Hp]. split; [done|]. intros Hr.
    apply Hfin. rewrite <- Hd5. auto. }
  case_bool_decide as Hnil.
  - wp_step. eapply wp_mono; [exact Happ|]. intros [u|e] w7 [Hi Hp]; [|done]. wp_step. split; [done|]. intros ix' _. by apply Hp.
  - unfold ExecuteNodeStateUpdate. wp_step. wp_step. eapply wp_mono; [exact Happ|]. intros r w7 [Hi Hp].
    wp_step. eapply wp_mono; [apply (frames_refreshAll (keeps (λ d, d)) _)|]. unfold keeps. intros [ix'|e] w8 H8; [|by rewrite H8].
    wp_step. rewrite H8. split; [done|]. intros ix2 [= -> _]. by apply Hp.
Qed.

(** ** Changing the whitelist *)

(** The sets in memory are those of the table, and the stock respects them. *)
Definition whitelist_holds (w : World) : Prop :=
  ∃ sets, c_model_whitelist (w_cache w) = Some sets ∧
    splitEntries (elements (db_model_whitelist (w_db w))) = Ok sets ∧ enforced sets (w_db w).

Lemma wp_Refresh ix w : inventory (w_db w) → modelWhitelistEnforced = true →
  wp (RefreshModelWhitelistCache ix) (λ r w', inventory (w_db w') ∧ (∀ ix', r = Ok (Ok tt, ix') → whitelist_holds w')) w.
Proof.
  intros Hd He. unfold RefreshModelWhitelistCache, loadModelWhitelistCacheLocked, afterModelWhitelistCacheUpdated. rewrite He. cbn [negb].
  wp_step. wp_step. wp_step; [done|]. cbn [w_db tick set_db]. wp_step. wp_step.
  destruct (splitEntries _) as [sets|e] eqn:Hs; [|done]. wp_step. set (w1 := set_cache _ _).
  split; [by apply (wp_prune sets ix w1)|]. intros ix' Hr.
  destruct (wp_prune sets ix w1 eq_refl Hd) as (Hc & _ & Hen). exists sets. split; [by rewrite Hc|]. split; [|by eapply Hen].
  assert (Hk : keeps db_model_whitelist w1 (snd (pruneNonWhitelistedModelInventory ix w1))) by (by apply frames_prune; [apply _|..]).
  unfold keeps in Hk. by rewrite Hk.
Qed.

Lemma wp_AddModelWhitelistName ix name w : inventory (w_db w) → modelWhitelistEnforced = true →
  wp (AddModelWhitelistName ix name) (λ r w', inventory (w_db w') ∧ (∀ ix', r = Ok (Ok tt, ix') → whitelist_holds w')) w.
Proof.
  intros Hd He. unfold AddModelWhitelistName. wp_step. wp_step. destruct (NormalizeModelWhitelistName name) as [n|]; [|done].
  wp_step. wp_step; [done|]. case_bool_decide; cbn [negb]; [|split; [by apply (inventory_stock (w_db w))|done]]. apply wp_Refresh; [|done].
  by apply (inventory_stock (w_db w)).
Qed.

Lemma wp_DeleteModelWhitelistName ix name w : inventory (w_db w) → modelWhitelistEnforced = true →
  wp (DeleteModelWhitelistName ix name) (λ r w', inventory (w_db w') ∧ (∀ ix', r = Ok (Ok tt, ix') → whitelist_holds w')) w.
Proof.
  intros Hd He. unfold DeleteModelWhitelistName. wp_step. wp_step. destruct (NormalizeModelWhitelistName name) as [n|]; [|done].
  wp_step. wp_step; [done|]. case_bool_decide; cbn [negb]; [|split; [by apply (inventory_stock (w_db w))|done]]. apply wp_Refresh; [|done].
  by apply (inventory_stock (w_db w)).
Qed.

(** ** Reports *)

Lemma keepWhitelisted_permitted sets w files : c_model_whitelist (w_cache w) = Some sets → ∀ kept,
  fst (keepWhitelisted files w) = Ok kept → Forall (λ f, verdict sets f = Ok true) kept.
Proof.
  intros Hc. induction files as [|f files IH]; intros kept; cbn [keepWhitelisted]; [intros [= <-]; constructor|].
  unfold mbind, M_bind. rewrite (fileWhitelisted_eq _ _ sets Hc). destruct (verdict sets f) as [b|] eqn:Hv; [|done].
  pose proof (keepWhitelisted_world files w) as Hw.
  destruct (keepWhitelisted files w) as [[k|] w'] eqn:Hk; [|done]. intros [= <-]. specialize (IH k eq_refl).
  destruct b; [by constructor|done].
Qed.

Lemma enforced_replaced sets address kept d d' : enforced sets d → replaced address kept d d' →
  Forall file_ok kept → Forall (λ f, verdict sets f = Ok true) kept → enforced sets d'.
Proof.
  intros [H1 H2 H3] (Hheld & Hother & _ & _ & Hm & Hl) Hf Hv. split; [|by rewrite Hm|by rewrite Hl].
  apply Forall_forall. intros m Hin. destruct (String.eqb_spec (nm_NodeAddress m) address) as [Ha|Ha].
  - assert (Hh : nm_ModelFileHash m ∈ heldBy d' address).
    { apply list_elem_of_fmap_2, elem_of_select. split; [done|]. by apply String.eqb_eq. }
    apply Hheld, list_elem_of_fmap in Hh as (f & Hh & Hf'). rewrite Forall_forall in Hf. rewrite Forall_forall in Hv.
    exists f. auto.
  - assert (Hm' : m ∈ select_where (λ m, negb (String.eqb (nm_NodeAddress m) address)) (db_node_models d')).
    { apply elem_of_select. split; [done|]. by apply negb_true_iff, String.eqb_neq. }
    rewrite Hother in Hm'. apply elem_of_select in Hm' as [Hm' _]. rewrite Forall_forall in H1. auto.
Qed.

(** The part of the world the enforcement depends on. *)
Definition holding (d : DB) := (db_node_models d, db_in_memory_models d, db_loaded_models d).
Lemma enforced_holding sets d d' : holding d' = holding d → enforced sets d → enforced sets d'.
Proof. unfold holding. intros [= Hn Hm Hl] [H1 H2 H3]. split; by rewrite ?Hn, ?Hm, ?Hl. Qed.

Lemma wp_replace_enforced sets address files w : c_model_whitelist (w_cache w) = Some sets → modelWhitelistEnforced = true →
  inventory (w_db w) → enforced sets (w_db w) → Forall file_ok files → NoDup (map mf_ModelFileHash files) →
  wp (replaceNodeModelFiles address files) (λ r w', inventory (w_db w') ∧ (is_ok r = true → enforced sets (w_db w'))) w.
Proof.
  intros Hc He Hd Hen Hf Hn. eapply wp_mono; [by apply wp_replaceNodeModelFiles|]. intros [u|e] w' [Hd' H]; [|done].
  split; [done|]. intros _. destruct H as (kept & Hk & Hr). apply filterWhitelisted_sub in Hk as Hsub.
  eapply enforced_replaced; [exact Hen|exact Hr| |].
  - apply Forall_forall. intros f Hin. rewrite Forall_forall in Hf. apply Hf. by apply (sublist_subseteq kept files).
  - unfold filterWhitelistedModelFiles in Hk. rewrite He in Hk. cbn [negb] in Hk. eapply keepWhitelisted_permitted; [exact Hc|exact Hk].
Qed.

Lemma rejected_eq file w sets : c_model_whitelist (w_cache w) = Some sets → modelWhitelistEnforced = true →
  modelFileRejectedByWhitelist file w = (match verdict sets file with Ok b => Ok (negb b) | Err e => Err e end, w).
Proof.
  intros Hc He. unfold modelFileRejectedByWhitelist. rewrite He. cbn [negb]. unfold mbind, M_bind.
  rewrite (fileWhitelisted_eq _ _ sets Hc). by destruct (verdict sets file).
Qed.

Lemma wp_Add_enforced sets ix address file w : c_model_whitelist (w_cache w) = Some sets → modelWhitelistEnforced = true →
  inventory (w_db w) → enforced sets (w_db w) → file_ok file →
  wp (AddNodeModelFile ix address file) (λ _ w', enforced sets (w_db w')) w.
Proof.
  intros Hc He Hd Hen Hf. unfold AddNodeModelFile. wp_step. unfold wp at 1. rewrite (rejected_eq _ _ sets Hc He). cbn [fst snd].
  destruct (verdict sets file) as [[]|e] eqn:Hv; cbn [negb]; [|done|done].
  wp_step. wp_step. rewrite Hash32_ok by (by apply file_ok_hash).
  apply wp_stateUpdate. apply (wp_transaction_db _ (enforced sets)); [done|]. intros w1 H1.
  wp_step. apply wp_reporting. intros [u|e] w2 H2; [|done].
  wp_step. eapply wp_mono; [apply wp_Upsert|]. intros [u'|e] w3 H3; [|done].
  assert (He3 : enforced sets (w_db w3)) by (rewrite H3, H2, H1; by apply (enforced_holding sets (w_db w))).
  wp_step. wp_step. unfold GetNodeModel. wp_step; [done|].
  destruct (find_first _ _) as [m|] eqn:Hfind; [intros _; exact He3|]. rewrite bool_decide_eq_true_2 by done.
  assert (Hd3 : inventory (w_db w3)) by (rewrite H3, H2, H1; apply inventory_grow; auto).
  unfold CreateNodeModels. wp_step; [done|]. cbn [map].
  destruct (insertNodeModels _ _) as [t|] eqn:Ht; [|done]. intros _.
  destruct He3 as [E1 E2 E3]. split; [|exact E2|exact E3]. apply Forall_forall. intros m Hm.
  destruct (insertNodeModels_hash _ _ _ _ Ht (inv_node_keys _ Hd3) Hm) as [Hm'|Hm'].
  - rewrite Forall_forall in E1. auto.
  - apply list_elem_of_singleton in Hm'. injection Hm' as _ Hh. rewrite Hh. by exists file.
Qed.

Lemma wp_assert_permitted sets files w : c_model_whitelist (w_cache w) = Some sets → modelWhitelistEnforced = true →
  wp (assertWhitelistedModelFiles files) (λ r w', w' = w ∧ (is_ok r = true → Forall (λ f, verdict sets f = Ok true) files)) w.
Proof.
  intros Hc He. unfold assertWhitelistedModelFiles. rewrite He. cbn [negb].
  induction files as [|f files IH]; cbn [for_each]; [by wp_step|]. wp_step. wp_step. unfold wp at 1.
  rewrite (fileWhitelisted_eq _ _ sets Hc). cbn [fst snd]. destruct (verdict sets f) as [[]|] eqn:Hv; [|done|done].
  apply wp_guard; [intros _|done]. eapply wp_mono; [exact IH|]. intros r w1 [-> H]. split; [done|]. intros Hr. constructor; auto.
Qed.

Lemma wp_SetMemory_enforced sets ix address report w : c_model_whitelist (w_cache w) = Some sets → modelWhitelistEnforced = true →
  enforced sets (w_db w) → match report with Some r => Forall file_ok (mr_Files r) | None => True end →
  wp (SetNodeInMemoryModel ix address report) (λ _ w', enforced sets (w_db w')) w.
Proof.
  intros Hc He Hen Hr. unfold SetNodeInMemoryModel. wp_step.
  apply (wp_mono _ (λ r w', w' = w ∧ (is_ok r = true →
    match report with Some r => Forall (λ f, verdict sets f = Ok true) (mr_Files r) | None => True end))).
  { destruct report as [r|]; [by apply wp_assert_permitted|]. by wp_step. }
  intros [u|e] w0 [-> Hperm]; [|done]. specialize (Hperm eq_refl).
  apply wp_stateUpdate. apply (wp_transaction_db _ (enforced sets)); [done|]. intros w1 H1.
  wp_step. apply wp_reporting. intros [u'|e] w2 H2; [|done]. destruct report as [r|].
  - wp_step. eapply wp_mono; [apply wp_Upsert|]. intros [u2|e] w3 H3; [|done].
    assert (He3 : enforced sets (w_db w3)) by (rewrite H3, H2, H1; by apply (enforced_holding sets (w_db w))).
    wp_step. wp_step. rewrite modelFileHashes_ok by done. unfold SaveNodeInMemoryModel. wp_step; [done|]. intros _.
    destruct He3 as [E1 E2 E3]. split; [exact E1| |exact E3]. apply Forall_forall. intros m Hm. cbn in Hm.
    apply memory_save_elem in Hm as [->|Hm]; [|rewrite Forall_forall in E2; by apply E2].
    intros hs. unfold FileHashes, NewNodeInMemoryModel. cbn [im_CurrentModelFileHashes].
    rewrite DecodeHashList_Encode by (apply Forall_map; eapply Forall_impl; [exact Hr|apply file_ok_hash]). intros [= <-].
    apply Forall_forall. intros h Hh. apply SortedUniqueHashes_spec, list_elem_of_fmap in Hh as (f & -> & Hin).
    rewrite Forall_forall in Hr. rewrite Forall_forall in Hperm. exists f. auto.
  - unfold ClearNodeInMemoryModel. wp_step; [done|]. intros _.
    assert (He2 : enforced sets (w_db w2)) by (by rewrite H2, H1). destruct He2 as [E1 E2 E3].
    split; [exact E1|by apply Forall_select|exact E3].
Qed.

(** ** What the sets decide *)

(** An entry of the whitelist covers a name: it is the name, or "owner/*" for a
    name "owner/..." that is not a URL. *)
Definition covers (entry name : string) : Prop :=
  entry = name ∨
  (isURL name = false ∧ ∃ owner rest, slash ∉ owner ∧ chars name = owner ++ slash :: rest ∧ chars entry = owner ++ [slash; star]).

Lemma cutAt_Some c s a b : cutAt c s = Some (a, b) ↔ s = a ++ c :: b ∧ c ∉ a.
Proof.
  revert a. induction s as [|x s IH]; intros a; simpl.
  { split; [done|]. intros [H _]. by destruct a. }
  destruct (Ascii.eqb_spec c x) as [->|Hne].
  - split; [intros [= <- <-]; split; [done|set_solver]|]. intros [H Hn]. destruct a as [|y a]; [by injection H as <-|].
    injection H as <- _. set_solver.
  - destruct (cutAt c s) as [[a' b']|].
    + split.
      * intros [= <- <-]. destruct (proj1 (IH a') eq_refl) as [-> Hn]. split; [done|set_solver].
      * intros [H Hn]. destruct a as [|y a]; [by injection H|]. injection H as <- H.
        assert (Ha : Some (a', b') = Some (a, b)) by (apply IH; split; [done|set_solver]). injection Ha as <- <-. done.
    + split; [done|]. intros [H Hn]. destruct a as [|y a]; [by injection H|]. injection H as <- H.
      assert (Ha : None = Some (a, b)) by (apply IH; split; [done|set_solver]). done.
Qed.

Lemma Cut_Some n c owner rest : Cut n c = Some (owner, rest) ↔ chars n = chars owner ++ c :: chars rest ∧ c ∉ chars owner.
Proof.
  unfold Cut. rewrite <- cutAt_Some. destruct (cutAt c (chars n)) as [[a b]|]; [|done].
  split; [intros [= <- <-]; by rewrite !chars_text|]. intros [= -> ->]. by rewrite !text_chars.
Qed.

Lemma text_eqb s t : String.eqb s t = true ↔ chars s = chars t.
Proof. rewrite String.eqb_eq. split; [by intros ->|]. intros H. by rewrite <- (text_chars s), H, text_chars. Qed.

Lemma ContainsChar_spec s c : ContainsChar s c = true ↔ c ∈ chars s.
Proof.
  unfold ContainsChar. rewrite existsb_exists, list_elem_of_In. split.
  - intros (x & Hx & <-%Ascii.eqb_eq). done.
  - intros H. exists c. split; [done|]. apply Ascii.eqb_refl.
Qed.

Lemma owner_Some e o : validateModelWhitelistEntry e = true →
  organizationOwnerFromWildcard e = Some o ↔ chars e = chars o ++ [slash; star] ∧ slash ∉ chars o.
Proof.
  intros Hv. unfold organizationOwnerFromWildcard, validateModelWhitelistEntry in *. split.
  - destruct (isURL e); [done|]. destruct (Cut e slash) as [[a b]|] eqn:Hc; [|done]. apply Cut_Some in Hc as [Hc Hn].
    destruct (negb (String.eqb a "") && String.eqb b "*" && negb (ContainsChar a star)) eqn:Hb; [|done]. intros [= <-].
    apply andb_true_iff in Hb as [[_ Hb%String.eqb_eq]%andb_true_iff _]. subst b. done.
  - intros [He Hn]. assert (Hs : ContainsChar e star = true) by (apply ContainsChar_spec; rewrite He; set_solver).
    rewrite Hs in Hv. destruct (isURL e); [done|]. cbn [negb] in Hv.
    assert (Hc : Cut e slash = Some (o, "*")) by (by apply Cut_Some). rewrite Hc in Hv |- *.
    apply negb_true_iff, orb_false_iff in Hv as [[-> Hv2%negb_false_iff]%orb_false_iff ->]. by rewrite Hv2.
Qed.

Lemma NormalizeModelWhitelistName_valid name e : NormalizeModelWhitelistName name = Ok e → validateModelWhitelistEntry e = true.
Proof.
  unfold NormalizeModelWhitelistName. destruct (normalizeModelWhitelistCandidate name) as [n|]; [|done].
  destruct (validateModelWhitelistEntry n) eqn:Hv; [|done]. by intros [= <-].
Qed.

Lemma splitEntries_spec names : ∀ exact orgs, splitEntries names = Ok (exact, orgs) →
  (∀ x, x ∈ exact ↔ ∃ entry, entry ∈ names ∧ NormalizeModelWhitelistName entry = Ok x ∧ organizationOwnerFromWildcard x = None) ∧
  (∀ o, o ∈ orgs ↔ ∃ entry e, entry ∈ names ∧ NormalizeModelWhitelistName entry = Ok e ∧ organizationOwnerFromWildcard e = Some o).
Proof.
  induction names as [|name names IH]; intros exact orgs; cbn [splitEntries].
  { intros [= <- <-]. set_solver. }
  destruct (NormalizeModelWhitelistName name) as [n|] eqn:Hn; [|done].
  destruct (splitEntries names) as [[ex og]|]; [|done]. destruct (IH ex og eq_refl) as [H1 H2].
  setoid_rewrite elem_of_cons. destruct (organizationOwnerFromWildcard n) as [o|] eqn:Ho; intros [= <- <-]; split; intros x;
    rewrite ?elem_of_union, ?elem_of_singleton, ?H1, ?H2; naive_solver congruence.
Qed.

Lemma allowed_spec exact orgs n names : splitEntries names = Ok (exact, orgs) →
  allowed (exact, orgs) n = true ↔ ∃ entry e, entry ∈ names ∧ NormalizeModelWhitelistName entry = Ok e ∧ covers e n.
Proof.
  intros Hs. destruct (splitEntries_spec _ _ _ Hs) as [H1 H2]. unfold allowed, covers. cbn [fst snd].
  rewrite orb_true_iff, bool_decide_eq_true, andb_true_iff, negb_true_iff. split.
  - intros [(entry & Hin & He & _)%H1|[Hu Hm]]; [by exists entry, n; split; [|split; [|left]]|].
    destruct (Cut n slash) as [[o rest]|] eqn:Hc; [|done]. apply Cut_Some in Hc as [Hc Hno].
    apply andb_true_iff in Hm as [_ (entry & e & Hin & He & Ho)%bool_decide_eq_true%H2]. exists entry, e. split; [done|].
    split; [done|]. right. split; [done|]. apply owner_Some in Ho as [Ho _]; [|by eapply NormalizeModelWhitelistName_valid].
    by exists (chars o), (chars rest).
  - assert (Horg : ∀ entry e o rest, entry ∈ names → NormalizeModelWhitelistName entry = Ok e → isURL n = false →
      organizationOwnerFromWildcard e = Some o → chars n = chars o ++ slash :: rest →
      isURL n = false ∧ match Cut n slash with Some (owner, _) => negb (String.eqb owner "") && bool_decide (owner ∈ orgs) | None => false end = true).
    { intros entry e o rest Hin He Hu Ho Hn. split; [done|]. pose proof Ho as Ho'.
      apply owner_Some in Ho' as [_ Hno]; [|by eapply NormalizeModelWhitelistName_valid].
      assert (Hc : Cut n slash = Some (o, text rest)) by (apply Cut_Some; by rewrite chars_text). rewrite Hc.
      apply andb_true_iff. split; [|apply bool_decide_eq_true, H2; eauto].
      unfold organizationOwnerFromWildcard in Ho. destruct (isURL e); [done|]. destruct (Cut e slash) as [[a b]|]; [|done].
      destruct (String.eqb_spec a ""); [done|]. destruct (_ && _ && _); [|done]. injection Ho as <-. by apply negb_true_iff, String.eqb_neq. }
    intros (entry & e & Hin & He & [->|(Hu & owner & rest & Hno & Hn & Hchars)]).
    + destruct (organizationOwnerFromWildcard n) as [o|] eqn:Ho; [right|left; apply H1; eauto].
      assert (Hu : isURL n = false) by (unfold organizationOwnerFromWildcard in Ho; by destruct (isURL n)).
      pose proof Ho as Ho'. apply owner_Some in Ho' as [Ho' _]; [|by eapply NormalizeModelWhitelistName_valid]. by eapply Horg.
    + right. eapply (Horg entry e (text owner)); [done|done|done| |by rewrite chars_text].
      apply owner_Some; [by eapply NormalizeModelWhitelistName_valid|]. by rewrite chars_text.
Qed.

(** C29 (refinement): the sets in memory implement the table.  Once the whitelist is loaded, a check of a
    name that is not empty always gives an answer, and the answer is yes exactly when an
    entry of the table, in normal form, is the normal form of the name or is "owner/*" for
    the part before its first slash; URLs are matched by exact entries only. *)
Theorem whitelist_decides (name n : string) (w : World) : normalizeModelWhitelistCandidate name = Ok n →
  wp loadModelWhitelistCacheLocked (λ r w', r = Ok tt →
    ∃ b, IsModelWhitelisted name w' = (Ok b, w') ∧
      (b = true ↔ ∃ entry e, entry ∈ db_model_whitelist (w_db w) ∧ NormalizeModelWhitelistName entry = Ok e ∧ covers e n)) w.
Proof.
  intros Hn. unfold loadModelWhitelistCacheLocked. wp_step. wp_step; [done|]. cbn [w_db tick set_db]. wp_step. wp_step.
  destruct (splitEntries _) as [[exact orgs]|] eqn:Hs; [|done]. wp_step. intros _. eexists. split.
  - rewrite (IsModelWhitelisted_eq _ _ (exact, orgs)) by done. unfold verdictName. by rewrite Hn.
  - rewrite (allowed_spec exact orgs n _ Hs). setoid_rewrite elem_of_elements. done.
Qed.

End enforcement.

Definition demo_listed : World :=
  empty_world <| w_db := empty_db <| db_model_whitelist := {["org/*"; "Other/Model"]} |> |>.

Lemma whitelist_decides_witness :
  let w' := snd (loadModelWhitelistCacheLocked (E:=demo_env) demo_listed) in
  (∃ b, IsModelWhitelisted (E:=demo_env) " Org/X " w' = (Ok b, w') ∧ b = true) ∧
  (∃ b, IsModelWhitelisted (E:=demo_env) "other/x" w' = (Ok b, w') ∧ b = false).
Proof.
  intros w'.
  assert (Hr : fst (loadModelWhitelistCacheLocked (E:=demo_env) demo_listed) = Ok tt) by (vm_compute; reflexivity).
  destruct (whitelist_decides (E:=demo_env) " Org/X " "org/x" demo_listed ltac:(vm_compute; reflexivity) Hr) as (b1 & H1 & C1).
  destruct (whitelist_decides (E:=demo_env) "other/x" "other/x" demo_listed ltac:(vm_compute; reflexivity) Hr) as (b2 & H2 & C2).
  split; [exists b1|exists b2]; (split; [exact H1 || exact H2|]).
  - apply C1. exists "org/*", "org/*". split; [set_solver|]. split; [vm_compute; reflexivity|]. right.
    split; [reflexivity|]. exists (chars "org"), (chars "x"). split; [|split; reflexivity]. apply (bool_decide_unpack _). vm_compute. exact I.
  - destruct b2; [|reflexivity]. exfalso.
    destruct (proj1 C2 eq_refl) as (entry & e & Hin & He & Hcov). clear H1 H2 C1 C2.
    apply elem_of_union in Hin as [->%elem_of_singleton| ->%elem_of_singleton]; vm_compute in He; injection He as <-;
      destruct Hcov as [Hcov|(_ & owner & rest & Hno & Hn & Hc)]; try discriminate Hcov.
    + destruct owner as [|c0 [|c1 [|c2 [|c3 owner]]]]; try discriminate Hc; vm_compute in Hc, Hn; congruence.
    + apply (f_equal (@rev ascii)) in Hc. rewrite rev_app_distr in Hc. vm_compute in Hc. discriminate Hc.
Defined.
End WhitelistEnforcement.
