(* ===== verification/ChainEvents.v ===== *)
(** * Contract events

    src/service/blockchain_processor.go, the handlers of the events of the
    staking contracts: stakes of nodes, delegations, delegator shares, and the
    jobs that slash the delegations of a slashed node in batches.  Parsing a log
    is generated code (a parameter of [Env]); an address of a parsed event is the
    text its [Hex] method prints.  The refresh of the scheduling index around a
    node update is [ExecuteNodeStateUpdate] of [NodeIndex.v], which only reads the
    database. *)

From S2P Require Import Prelude Models Config Delegation VestingSchedule Deadline MaxStaking.
From S2P Require Import Store Statistic Ledger LedgerCoherence LedgerSync Vesting Qos NodeState.

Module ChainEvents.
Import Delegations Ledger Vesting Qos NodeState.

(** ** Definitions *)

(** A row of the delegations table by its unique key, src/models/Delegation.go
    10-17 *)
Definition isDelegation (delegatorAddress nodeAddress network : string) (r : Delegation) : bool :=
  String.eqb (dl_DelegatorAddress r) delegatorAddress && String.eqb (dl_NodeAddress r) nodeAddress &&
  String.eqb (dl_Network r) network.

(** The row of a current delegation. *)
Definition currentDelegation (delegatorAddress nodeAddress network : string) (d : DB) : option Delegation :=
  find_first (λ r, isDelegation delegatorAddress nodeAddress network r && negb (dl_Slashed r)) (db_delegations d).

(** The upsert of a delegation, src/service/blockchain_processor.go 728-740 *)
Definition upsertDelegation (delegatorAddress nodeAddress : string) (amount : Z) (network : string)
    (rows : list Delegation) : list Delegation :=
  let p := isDelegation delegatorAddress nodeAddress network in
  if exists_where p rows
  then update_where p (λ r, r <| dl_Amount := amount |> <| dl_Slashed := false |>) rows
  else rows ++ [mkDelegation delegatorAddress nodeAddress amount false network].

(** An unfinished job of a node, the latest first,
    src/models/delegated_slash.go 43-55 *)
Definition unfinishedJob (nodeAddress network : string) (d : DB) : option DelegatedSlashJob :=
  last (select_where (λ j, String.eqb (sj_NodeAddress j) nodeAddress && String.eqb (sj_Network j) network &&
                           negb (bool_decide (sj_Status j = DelegatedSlashJobStatusCompleted))) (db_slash_jobs d)).

(** The zero hash as [Hex] prints it. *)
Definition zeroHashHex : string := "0x0000000000000000000000000000000000000000000000000000000000000000".

(** The columns that identify the chain event of a job,
    src/service/blockchain_processor.go 1009-1010 *)
Definition slashEventOf (txHash : string) (logIndex : Z) : option (string * Z) :=
  if String.eqb txHash zeroHashHex then None else Some (txHash, logIndex).

(** A transaction that is still under way, src/models/blockchain_transaction.go
    17-22 *)
Definition isOpen (tx : BlockchainTransaction) : bool :=
  bool_decide (bt_Status tx = TransactionStatusPending) || bool_decide (bt_Status tx = TransactionStatusSent).

(** The row and its unique key, src/service/blockchain_processor.go 913-925: a
    row with the same chain event is kept. *)
Definition insertSlashRecord (r : DelegatedStakingSlashRecord) (rows : list DelegatedStakingSlashRecord)
    : list DelegatedStakingSlashRecord :=
  if exists_where (λ x, String.eqb (sr_Network x) (sr_Network r) && String.eqb (sr_SlashTxHash x) (sr_SlashTxHash r) &&
                        (sr_LogIndex x =? sr_LogIndex r)) rows
  then rows else rows ++ [r].

Section events.
Context {E : Env}.

(** [UpdateDelegation] and [UnstakeDelegation], src/service/user_staking.go
    203-209, on the caches *)
Definition changeDelegations (f : gmap string delegationCache → result (gmap string delegationCache)) : M unit :=
  g ← cache_read c_delegations;
  g' ← lift (f g);
  cache_write (λ c, c <| c_delegations := g' |>).

(** [SetDelegatorShare], src/service/delegator_share.go 59-61 *)
Definition SetDelegatorShare (nodeAddress network : string) (share : Z) : M unit :=
  cache_write (λ c, c <| c_shares := share_set (c_shares c) nodeAddress network share |>).

(** [First] where a missing row is no error. *)
Definition firstOrNone {A} (m : M A) : M (option A) :=
  found ← try_ m;
  match found with
  | Ok x => mret (Some x)
  | Err e => if bool_decide (e = ErrRecordNotFound) then mret None else fail e
  end.

(** [getNodeForChainEvent], src/service/blockchain_processor.go 519-533 *)
Definition getNodeForChainEvent (address network : string) : M (option Node) :=
  node ← firstOrNone (GetNodeByAddress address);
  match node with
  | None => mret None
  | Some node => mret (if negb (String.eqb (n_Network node) network) then None else Some node)
  end.

(** [getNodeForDelegationEvent], src/service/blockchain_processor.go 535-545 *)
Definition getNodeForDelegationEvent (address : string) : M (option Node) :=
  firstOrNone (GetNodeByAddress address).

(** The stake of a node counts, src/service/blockchain_processor.go 578-579,
    757, 814-815 *)
Definition refreshMaxStaking (node : Node) (nodeAddress : string) : M unit :=
  t ← now;
  totalStakeAmount ← GetNodeScoreStakeAmount node t;
  UpdateMaxStaking nodeAddress totalStakeAmount.

(** [nodeStaked], src/service/blockchain_processor.go 547-585 *)
Definition nodeStaked (address : string) (stakingAmount : Z) (network : string) : M unit :=
  found ← getNodeForChainEvent address network;
  match found with
  | None => mret tt
  | Some node =>
      if bool_decide (n_Status node = NodeStatusQuit) then mret tt
      else
        transaction (
          db_write (λ d, d <| db_nodes := update_where (λ n, n_ID n =? n_ID node)
                                (λ n, n <| n_StakeAmount := stakingAmount |>) (db_nodes d) |>);;
          emitEvent (NodeStakingEvent address stakingAmount network));;
        refreshMaxStaking (node <| n_StakeAmount := stakingAmount |>) address
  end.

(** The loop of [nodeTryUnstaked], src/service/blockchain_processor.go 611-643: a
    changed status is read again and no error once the attempts are used up. *)
Fixpoint unstakeAttempts (n : nat) (node : Node) : M unit :=
  match n with
  | O => mret tt
  | S n' =>
      let again (inMemory : Node) (outcome : result unit) :=
        match outcome with
        | Ok _ => mret tt
        | Err e =>
            if bool_decide (e = ErrNodeStatusChanged)
            then node' ← nodeSyncStatus inMemory; unstakeAttempts n' node'
            else fail e
        end in
      match n_Status node with
      | NodeStatusAvailable | NodeStatusPaused =>
          outcome ← try_ (_ ← SetNodeStatusQuit node false; mret tt);
          again (quitNode node) outcome
      | NodeStatusBusy =>
          outcome ← try_ (_ ← nodeUpdateStatus node (λ n, n <| n_Status := NodeStatusPendingQuit |>); mret tt);
          again node outcome
      | _ => mret tt
      end
  end.

(** [nodeTryUnstaked], src/service/blockchain_processor.go 587-652 *)
Definition nodeTryUnstaked (address network : string) (blockTime : Time) : M unit :=
  found ← firstOrNone (GetNodeByAddress address);
  match found with
  | None => mret tt
  | Some node =>
      if negb (String.eqb (n_Network node) network) then mret tt
      else if blockTime <? n_JoinTime node then mret tt
      else unstakeAttempts 3 node
  end.

(** [updateDelegatedStaking], src/service/blockchain_processor.go 713-767 *)
Definition updateDelegatedStaking (delegatorAddress nodeAddress : string) (amount : Z) (network : string) : M unit :=
  found ← getNodeForDelegationEvent nodeAddress;
  match found with
  | None => mret tt
  | Some node =>
      transaction (
        db_write (λ d, d <| db_delegations := upsertDelegation delegatorAddress nodeAddress amount network (db_delegations d) |>);;
        emitEvent (DelegatorStakingEvent delegatorAddress nodeAddress amount network));;
      changeDelegations (λ g, UpdateDelegation g delegatorAddress nodeAddress amount network);;
      (if String.eqb (n_Network node) network then refreshMaxStaking node nodeAddress else mret tt);;
      ask (λ n, env_snapshot n nodeAddress)
  end.

(** The transaction of [unstakeDelegatedStaking], whether a row was deleted,
    src/service/blockchain_processor.go 785-806 *)
Definition deleteDelegation (delegatorAddress nodeAddress network : string) : M bool :=
  found ← firstOrNone (db_first (currentDelegation delegatorAddress nodeAddress network));
  match found with
  | None => mret false
  | Some userStaking =>
      db_write (λ d, d <| db_delegations :=
        select_where (λ r, negb (isDelegation delegatorAddress nodeAddress network r)) (db_delegations d) |>);;
      emitEvent (DelegatorUnstakingEvent delegatorAddress nodeAddress (dl_Amount userStaking) network);;
      mret true
  end.

(** [unstakeDelegatedStaking], src/service/blockchain_processor.go 769-826 *)
Definition unstakeDelegatedStaking (delegatorAddress nodeAddress network : string) : M unit :=
  found ← getNodeForDelegationEvent nodeAddress;
  match found with
  | None => mret tt
  | Some node =>
      unstaked ← transaction (deleteDelegation delegatorAddress nodeAddress network);
      (if (unstaked : bool) then
         changeDelegations (λ g, UnstakeDelegation g delegatorAddress nodeAddress network);;
         if String.eqb (n_Network node) network then refreshMaxStaking node nodeAddress else mret tt
       else mret tt);;
      ask (λ n, env_snapshot n nodeAddress)
  end.

(** [changeNodeDelegatorShare], src/service/blockchain_processor.go 828-867 *)
Definition changeNodeDelegatorShare (nodeAddress : string) (share : Z) (network : string) : M unit :=
  found ← getNodeForChainEvent nodeAddress network;
  match found with
  | None => mret tt
  | Some node =>
      if bool_decide (n_Status node = NodeStatusQuit) then mret tt
      else
        transaction (
          db_write (λ d, d <| db_nodes := update_where
            (λ n, String.eqb (n_Address n) nodeAddress && String.eqb (n_Network n) network)
            (λ n, n <| n_DelegatorShare := share |>) (db_nodes d) |>);;
          emitEvent (NodeDelegatorShareChangedEvent nodeAddress share network));;
        SetDelegatorShare nodeAddress network share;;
        ask (λ n, env_snapshot n nodeAddress)
  end.
(** *** Slashing the delegations of a node *)

(** The transaction of [slashDelegatedStaking],
    src/service/blockchain_processor.go 904-951 *)
Definition slashDelegationTx (delegatorAddress nodeAddress : string) (amount : Z) (txHash : string)
    (blockNumber logIndex : Z) (network : string) : M unit :=
  job ← firstOrNone (db_first (unfinishedJob nodeAddress network));
  db_write (λ d, d <| db_slash_records := insertSlashRecord
    (mkSlashRecord (sj_ID <$> job) nodeAddress delegatorAddress network amount txHash blockNumber logIndex)
    (db_slash_records d) |>);;
  delegation ← firstOrNone (db_first (currentDelegation delegatorAddress nodeAddress network));
  match delegation with
  | None => fail (ErrMsg "missing current delegation for delegated slash")
  | Some _ =>
      db_write (λ d, d <| db_delegations := update_where (isDelegation delegatorAddress nodeAddress network)
        (λ r, r <| dl_Amount := amount |> <| dl_Slashed := true |>) (db_delegations d) |>);;
      emitEvent (DelegatedStakingSlashedEvent delegatorAddress nodeAddress amount network)
  end.

(** [slashDelegatedStaking], src/service/blockchain_processor.go 894-979 *)
Definition slashDelegatedStaking (delegatorAddress nodeAddress : string) (amount : Z) (txHash : string)
    (blockNumber logIndex : Z) (network : string) : M unit :=
  transaction (slashDelegationTx delegatorAddress nodeAddress amount txHash blockNumber logIndex network);;
  changeDelegations (λ g, UnstakeDelegation g delegatorAddress nodeAddress network);;
  found ← firstOrNone (GetNodeByAddress nodeAddress);
  (match found with
   | Some node => if String.eqb (n_Network node) network then refreshMaxStaking node nodeAddress else mret tt
   | None => UpdateMaxStaking nodeAddress 0
   end);;
  ask (λ n, env_snapshot n nodeAddress).

(** [getOrCreateDelegatedSlashJob], src/service/blockchain_processor.go 981-1022 *)
Definition getOrCreateDelegatedSlashJob (nodeAddress txHash : string) (logIndex : Z) (network : string) : M DelegatedSlashJob :=
  eventJob ← (match slashEventOf txHash logIndex with
              | None => mret None
              | Some event =>
                  firstOrNone (db_first (λ d, find_first (λ j, String.eqb (sj_Network j) network &&
                    bool_decide (sj_NodeSlashEvent j = Some event)) (db_slash_jobs d)))
              end);
  match eventJob with
  | Some job => mret job
  | None =>
      unfinished ← firstOrNone (db_first (unfinishedJob nodeAddress network));
      match unfinished with
      | Some job => mret job
      | None =>
          db_exec (λ d,
            let job := mkDelegatedSlashJob (next_id sj_ID (db_slash_jobs d)) nodeAddress network
              DelegatedSlashJobStatusPending None (slashEventOf txHash logIndex) in
            Ok (job, d <| db_slash_jobs := db_slash_jobs d ++ [job] |>))
      end
  end.

(** [hasOpenDelegatedSlashBatchTransaction],
    src/service/blockchain_processor.go 1098-1122 *)
Definition hasOpenDelegatedSlashBatchTransaction (job : DelegatedSlashJob) : M bool :=
  match sj_LatestBatchTransactionID job with
  | None => mret false
  | Some id =>
      found ← firstOrNone (db_first (λ d, find_first (λ tx, bt_ID tx =? id) (db_chain_txs d)));
      match found with
      | None => mret false
      | Some transaction =>
          if isOpen transaction then mret true
          else
            retryTransactions ← db_read (λ d, select_where
              (λ tx, bool_decide (bt_RetryTransactionID tx = Some (bt_ID transaction))) (db_chain_txs d));
            mret (existsb isOpen retryTransactions)
      end
  end.

(** [SlashNodeDelegations], src/blockchain/delegatedStaking.go 118-159 *)
Definition SlashNodeDelegations (nodeAddress : string) (delegators : list string) (network : string) : M Z :=
  if bool_decide (delegators = []) then fail (ErrMsg "delegator batch is empty")
  else
    match assoc network (Blockchains env_cfg) with
    | None => fail (ErrMsg "network not found")
    | Some blockchain =>
        createdAt ← now;
        db_exec (λ d,
          let id := next_id bt_ID (db_chain_txs d) in
          Ok (id, d <| db_chain_txs := db_chain_txs d ++
            [newTransaction id createdAt network "DelegatedStaking::slashNodeDelegations" (bc_AccountAddress blockchain)
               (bc_DelegatedStaking blockchain) nodeAddress delegators (bc_MaxRetries blockchain)] |>))
    end.

(** [tx.Model(&currentJob).Updates] *)
Definition updateJob (id : Z) (f : DelegatedSlashJob → DelegatedSlashJob) : M unit :=
  db_write (λ d, d <| db_slash_jobs := update_where (λ j, sj_ID j =? id) f (db_slash_jobs d) |>).

(** The transaction of [sendNextDelegatedSlashBatch],
    src/service/blockchain_processor.go 1048-1081 *)
Definition nextBatchTx (job : DelegatedSlashJob) (delegatorAddresses : list string) : M unit :=
  currentJob ← db_first (λ d, find_first (λ j, sj_ID j =? sj_ID job) (db_slash_jobs d));
  if bool_decide (sj_Status currentJob = DelegatedSlashJobStatusCompleted) then mret tt
  else
    open ← hasOpenDelegatedSlashBatchTransaction currentJob;
    if (open : bool) then mret tt
    else if bool_decide (delegatorAddresses = []) then
      updateJob (sj_ID currentJob) (λ j, j <| sj_Status := DelegatedSlashJobStatusCompleted |>)
    else
      txID ← SlashNodeDelegations (sj_NodeAddress job) delegatorAddresses (sj_Network job);
      updateJob (sj_ID currentJob) (λ j, j <| sj_Status := DelegatedSlashJobStatusProcessing |>
                                           <| sj_LatestBatchTransactionID := Some txID |>).

(** [sendNextDelegatedSlashBatch], src/service/blockchain_processor.go 1024-1096 *)
Definition sendNextDelegatedSlashBatch (job : DelegatedSlashJob) : M unit :=
  match assoc (sj_Network job) (Blockchains env_cfg) with
  | None => fail (ErrMsg "network not found")
  | Some blockchainConfig =>
      let batchSize := bc_DelegatedStakingSlashBatchSize blockchainConfig in
      if batchSize =? 0 then fail (ErrMsg "delegated staking slash batch size not configured")
      else
        delegatorAddresses ← ask (λ n, env_staking_page n (sj_NodeAddress job) (sj_Network job) batchSize);
        transaction (nextBatchTx job delegatorAddresses)
  end.

(** [createOrResumeDelegatedSlashJob], src/service/blockchain_processor.go 869-892 *)
Definition createOrResumeDelegatedSlashJob (nodeAddress txHash : string) (logIndex : Z) (network : string) : M unit :=
  found ← getNodeForChainEvent nodeAddress network;
  match found with
  | None => mret tt
  | Some _ =>
      t ← now;
      SlashNodeVestings nodeAddress t;;
      job ← getOrCreateDelegatedSlashJob nodeAddress txHash logIndex network;
      sendNextDelegatedSlashBatch job
  end.

(** *** The logs of a receipt *)

(** One turn of [processNodeStakingReceiptLogsWithParsers],
    src/service/blockchain_processor.go 483-514, with the handlers of 365-375; a
    log that no parser accepts is skipped. *)
Definition processNodeStakingLog (network : string) (blockTime : Time) (l : ReceiptLog) : M unit :=
  match env_node_staking_log l with
  | None => mret tt
  | Some (NodeStaked nodeAddress stakedBalance) => nodeStaked nodeAddress stakedBalance network
  | Some (NodeTryUnstaked nodeAddress) => nodeTryUnstaked nodeAddress network blockTime
  | Some (NodeSlashed nodeAddress txHash logIndex) => createOrResumeDelegatedSlashJob nodeAddress txHash logIndex network
  end.

(** [processNodeStakingReceiptLogs], src/service/blockchain_processor.go 462-474 *)
Definition processNodeStakingReceiptLogs (logs : list ReceiptLog) (network : string) (blockTime : Time) : M unit :=
  for_each logs (processNodeStakingLog network blockTime).

(** One turn of the loop of [processDelegatedStakingReceiptLogs]: the node whose
    delegation was slashed, src/service/blockchain_processor.go 669-695 *)
Definition processDelegatedStakingLog (network : string) (l : ReceiptLog) : M (option string) :=
  match env_delegated_staking_log l with
  | None => mret None
  | Some (DelegatorStaked delegator node amount) => updateDelegatedStaking delegator node amount network;; mret None
  | Some (DelegatorUnstaked delegator node) => unstakeDelegatedStaking delegator node network;; mret None
  | Some (NodeDelegatorShareChanged node share) => changeNodeDelegatorShare node share network;; mret None
  | Some (DelegatorSlashed delegator node amount txHash blockNumber logIndex) =>
      slashDelegatedStaking delegator node amount txHash blockNumber logIndex network;; mret (Some node)
  end.

(** The next batch of a node whose delegations were slashed,
    src/service/blockchain_processor.go 697-708 *)
Definition continueSlash (network nodeAddress : string) : M unit :=
  job ← firstOrNone (db_first (unfinishedJob nodeAddress network));
  match job with
  | None => mret tt
  | Some job => sendNextDelegatedSlashBatch job
  end.

(** [processDelegatedStakingReceiptLogs], src/service/blockchain_processor.go 667-711 *)
Definition processDelegatedStakingReceiptLogs (logs : list ReceiptLog) (network : string) : M unit :=
  slashed ← map_m (processDelegatedStakingLog network) logs;
  slashedNodes ← shuffle (map (λ a, (a, 0)) (remove_dups (omap id slashed)));
  for_each (map fst slashedNodes) (continueSlash network).
End events.

(** ** The delegation cache mirrors the table *)

(** The amount of a current delegation. *)
Definition delegated (delegator node network : string) (rows : list Delegation) : option Z :=
  dl_Amount <$> find_first (λ r, isDelegation delegator node network r && negb (dl_Slashed r)) rows.

(** The cache of every configured network implements the current delegations of
    the table. *)
Definition mirrors_of (rows : list Delegation) (g : gmap string delegationCache) : Prop :=
  ∀ network c, g !! network = Some c →
  ∃ D, refines c D ∧ ∀ delegator node, D !! (delegator, node) = delegated delegator node network rows.

Definition mirrors (w : World) : Prop := mirrors_of (db_delegations (w_db w)) (c_delegations (w_cache w)).

(** What neither touches. *)
Definition same_delegations (w w' : World) : Prop :=
  (db_delegations (w_db w'), c_delegations (w_cache w')) = (db_delegations (w_db w), c_delegations (w_cache w)).

#[export] Instance same_delegations_rel : WorldRel same_delegations.
Proof. split; unfold same_delegations; [done|congruence|done|]. intros w w1 s d [= _ H] _. simpl. by rewrite H. Qed.

Lemma same_mirrors w w' : same_delegations w w' → mirrors w → mirrors w'.
Proof. unfold same_delegations, mirrors. by intros [= -> ->]. Qed.

Lemma isDelegation_true d n net r :
  isDelegation d n net r = true ↔ dl_DelegatorAddress r = d ∧ dl_NodeAddress r = n ∧ dl_Network r = net.
Proof. unfold isDelegation. rewrite !andb_true_iff, !String.eqb_eq. naive_solver. Qed.

Lemma isDelegation_other d n net d' n' net' r :
  (d', n', net') ≠ (d, n, net) → isDelegation d n net r = true → isDelegation d' n' net' r = false.
Proof. rewrite isDelegation_true. intros Hne (<- & <- & <-). apply not_true_iff_false. rewrite isDelegation_true. naive_solver. Qed.

Section rows.
Context (d n net : string) (rows : list Delegation).

Lemma delegated_upsert a d' n' net' :
  delegated d' n' net' (upsertDelegation d n a net rows) =
  if decide ((d', n', net') = (d, n, net)) then Some a else delegated d' n' net' rows.
Proof.
  unfold delegated, upsertDelegation. case_decide as Heq.
  - injection Heq as -> -> ->. destruct (exists_where _ _) eqn:He.
    + destruct (find_update_some (isDelegation d n net) (λ r, isDelegation d n net r && negb (dl_Slashed r))
        (λ r, r <| dl_Amount := a |> <| dl_Slashed := false |>) rows) as [r ->]; [| |done|done].
      * intros r Hr. simpl. rewrite andb_true_r. exact Hr.
      * intros r [Hr _]%andb_true_iff. done.
    + rewrite find_app, find_none; [|intros r Hr; rewrite exists_where_false in He; by rewrite (He r Hr)].
      unfold find_first, isDelegation. simpl. by rewrite !String.eqb_refl.
  - destruct (exists_where _ _) eqn:He.
    + rewrite find_update_other; [done|]. intros r Hr. pose proof (isDelegation_other _ _ _ _ _ _ r Heq Hr) as Ho.
      rewrite Ho. split; [done|]. simpl. unfold isDelegation in *. simpl. by rewrite Ho.
    + rewrite find_app. assert (Hl : isDelegation d' n' net' (mkDelegation d n a false net) = false).
      { eapply isDelegation_other; [done|]. by apply isDelegation_true. }
      unfold find_first. simpl. rewrite Hl. simpl. by destruct (List.find _ rows).
Qed.

Lemma delegated_delete d' n' net' :
  delegated d' n' net' (select_where (λ r, negb (isDelegation d n net r)) rows) =
  if decide ((d', n', net') = (d, n, net)) then None else delegated d' n' net' rows.
Proof.
  unfold delegated. case_decide as Heq.
  - injection Heq as -> -> ->. rewrite find_none; [done|]. intros r [_ Hr]%elem_of_select. apply negb_true_iff in Hr. by rewrite Hr.
  - rewrite find_select_other; [done|]. intros r [Hr _]%andb_true_iff. apply negb_true_iff, not_true_iff_false. intros H.
    by rewrite (isDelegation_other _ _ _ _ _ _ r Heq H) in Hr.
Qed.

Lemma delegated_slash a d' n' net' :
  delegated d' n' net' (update_where (isDelegation d n net) (λ r, r <| dl_Amount := a |> <| dl_Slashed := true |>) rows) =
  if decide ((d', n', net') = (d, n, net)) then None else delegated d' n' net' rows.
Proof.
  unfold delegated. case_decide as Heq.
  - injection Heq as -> -> ->. rewrite find_update_none; [done| |]; intros r Hr; [simpl; by rewrite andb_false_r|by apply andb_true_iff in Hr as [? _]].
  - rewrite find_update_other; [done|]. intros r Hr. pose proof (isDelegation_other _ _ _ _ _ _ r Heq Hr) as Ho.
    rewrite Ho. split; [done|]. simpl. unfold isDelegation in *. simpl. by rewrite Ho.
Qed.

Lemma mirrors_update a g :
  mirrors_of rows g →
  match UpdateDelegation g d n a net with
  | Ok g' => mirrors_of (upsertDelegation d n a net rows) g'
  | Err _ => mirrors_of (upsertDelegation d n a net rows) g
  end.
Proof.
  intros Hm. unfold UpdateDelegation. destruct (g !! net) as [c|] eqn:Hg.
  - intros net' c' [[<- <-]|[Hne Hc]]%lookup_insert_Some.
    + destruct (Hm _ _ Hg) as (D & HR & HD). exists (spec_update D d n a). split; [by apply update_refines|].
      intros d' n'. rewrite delegated_upsert. unfold spec_update. rewrite lookup_insert, HD.
      repeat case_decide; naive_solver.
    + destruct (Hm _ _ Hc) as (D & HR & HD). exists D. split; [done|]. intros d' n'. rewrite delegated_upsert, HD.
      case_decide; naive_solver.
  - intros net' c' Hc. destruct (Hm _ _ Hc) as (D & HR & HD). exists D. split; [done|]. intros d' n'.
    rewrite delegated_upsert, HD. case_decide; naive_solver.
Qed.

Lemma mirrors_unstake rows' g :
  mirrors_of rows g → is_Some (delegated d n net rows) →
  (∀ d' n' net', delegated d' n' net' rows' =
    if decide ((d', n', net') = (d, n, net)) then None else delegated d' n' net' rows) →
  match UnstakeDelegation g d n net with
  | Ok g' => mirrors_of rows' g'
  | Err _ => mirrors_of rows' g
  end.
Proof.
  intros Hm Hs Hrows. unfold UnstakeDelegation.
  assert (Hother : ∀ net' c', g !! net' = Some c' → net' ≠ net →
    ∃ D, refines c' D ∧ ∀ d' n', D !! (d', n') = delegated d' n' net' rows').
  { intros net' c' Hc Hne. destruct (Hm _ _ Hc) as (D & HR & HD). exists D. split; [done|]. intros d' n'.
    rewrite Hrows, HD. case_decide; naive_solver. }
  destruct (g !! net) as [c|] eqn:Hg; [|intros net' c' Hc; apply Hother; [done|congruence]].
  destruct (Hm _ _ Hg) as (D & HR & HD). pose proof (unstake_refines c D d n HR) as Hu.
  destruct (unstake c d n) as [c'|]; [|exfalso; rewrite HD in Hu; rewrite Hu in Hs; by destruct Hs].
  intros net' c'' [[<- <-]|[Hne Hc]]%lookup_insert_Some; [|by apply Hother].
  exists (spec_unstake D d n). split; [done|]. intros d' n'. rewrite Hrows. unfold spec_unstake.
  rewrite lookup_delete, HD. repeat case_decide; naive_solver.
Qed.
End rows.

Section mirror.
Context {E : Env}.

(** The first row of a lookup, read without an effect. *)
Lemma wp_firstOrNone {A} (f : DB → option A) Q w :
  (∀ e, Q (Err e) (tick w)) → Q (Ok (f (w_db w))) (tick (set_db (w_db w) w)) → Q (Ok (f (w_db w))) (tick w) →
  wp (firstOrNone (db_first f)) Q w.
Proof.
  intros He Ho Hn. unfold firstOrNone. wp_step. wp_step. wp_step; [rewrite bool_decide_eq_false_2 by done; wp_step; apply He|].
  destruct (f (w_db w)); [exact Ho|]. rewrite bool_decide_eq_true_2 by done. exact Hn.
Qed.

Lemma wp_changeDelegations f Q w :
  match f (c_delegations (w_cache w)) with
  | Ok g' => Q (Ok tt) (set_cache ((w_cache w) <| c_delegations := g' |>) w)
  | Err e => Q (Err e) w
  end → wp (changeDelegations f) Q w.
Proof. intros H. unfold changeDelegations. wp_step. wp_step. wp_step. wp_step. destruct (f _); [wp_step; exact H|exact H]. Qed.

Lemma same_refreshMaxStaking node a : frames same_delegations (refreshMaxStaking node a).
Proof. keep_tac. Qed.
Lemma same_getNode a : frames same_delegations (getNodeForDelegationEvent a).
Proof. keep_tac. Qed.

(** A computation after which the caches still mirror the table, however it
    ends. *)
Definition mirroring {A} (m : M A) : Prop := ∀ w, mirrors w → wp m (λ _ w', mirrors w') w.

Lemma mirroring_same {A} (m : M A) : frames same_delegations m → mirroring m.
Proof. intros H w Hw. eapply wp_mono; [apply H|]. intros r w' H'. simpl. exact (same_mirrors _ _ H' Hw). Qed.

Lemma mirroring_bind {A B} (m : M A) (k : A → M B) : mirroring m → (∀ a, mirroring (k a)) → mirroring (m ≫= k).
Proof. intros Hm Hk w Hw. wp_step. eapply wp_mono; [by apply Hm|]. intros [a|e] w1 H1; [by apply Hk|done]. Qed.

Lemma mirroring_for_each {A} (l : list A) f : (∀ x, mirroring (f x)) → mirroring (for_each l f).
Proof. intros Hf. induction l as [|x l IH]; [by intros w|]. by apply mirroring_bind. Qed.

Lemma mirroring_map_m {A B} (f : A → M B) l : (∀ x, mirroring (f x)) → mirroring (map_m f l).
Proof.
  intros Hf. induction l as [|x l IH]; [by intros w|]. apply mirroring_bind; [done|]. intros y.
  apply mirroring_bind; [done|]. by intros ys w.
Qed.

(** A transaction that changes the table, followed by the change of the caches. *)
Lemma mirroring_commit {A B} (m : M A) (change : A → M unit) (rest : A → M B) :
  (∀ w, mirrors w → wp m (λ r w', c_delegations (w_cache w') = c_delegations (w_cache w) ∧
     ∀ a, r = Ok a → ∀ s depth, wp (change a) (λ _ w'', mirrors w'') (mkWorld (w_db w') (w_cache w') s depth)) w) →
  (∀ a, mirroring (rest a)) →
  mirroring (a ← transaction m; change a;; rest a).
Proof.
  intros Hm Hr w Hw. wp_step. apply wp_transaction; [done|]. eapply wp_mono; [apply Hm; done|].
  intros [a|e] w1 [Hc H1]; simpl in *.
  - split; [intros _ _; unfold mirrors; simpl; by rewrite Hc|]. wp_step. eapply wp_mono; [by apply H1|].
    intros [[]|e] w2 H2; [by apply Hr|done].
  - unfold mirrors. simpl. by rewrite Hc.
Qed.

Lemma mirroring_update d n a net : mirroring (updateDelegatedStaking d n a net).
Proof.
  unfold updateDelegatedStaking. apply mirroring_bind; [apply mirroring_same, same_getNode|]. intros [node|]; [|by intros w].
  apply (mirroring_commit _ (λ _, changeDelegations (λ g, UpdateDelegation g d n a net)) (λ _, _)).
  - intros w Hw. unfold emitEvent. wp_step. wp_step; [done|]. wp_step; [done|]. split; [done|]. intros u _ s depth.
    apply wp_changeDelegations. simpl. pose proof (mirrors_update d n net _ a _ Hw) as Hu.
    destruct (UpdateDelegation _ _ _ _ _); exact Hu.
  - intros _. apply mirroring_same. frame_tac; apply same_refreshMaxStaking.
Qed.

(** The change of the caches after the row of a current delegation is gone. *)
Lemma wp_unstake_cache d n net rows' w s depth db cache :
  mirrors w → is_Some (currentDelegation d n net (w_db w)) → db_delegations db = rows' →
  c_delegations cache = c_delegations (w_cache w) →
  (∀ d' n' net', delegated d' n' net' rows' =
    if decide ((d', n', net') = (d, n, net)) then None else delegated d' n' net' (db_delegations (w_db w))) →
  wp (changeDelegations (λ g, UnstakeDelegation g d n net)) (λ _ w', mirrors w') (mkWorld db cache s depth).
Proof.
  intros Hw [r Hr] Hd Hc Hrows. apply wp_changeDelegations. simpl. rewrite Hc.
  assert (Hs : is_Some (delegated d n net (db_delegations (w_db w)))).
  { unfold currentDelegation in Hr. unfold delegated. rewrite Hr. eauto. }
  pose proof (mirrors_unstake d n net _ rows' _ Hw Hs Hrows) as Hu. unfold mirrors. simpl. rewrite Hd.
  destruct (UnstakeDelegation _ _ _ _); simpl; [exact Hu|]. by rewrite Hc.
Qed.

Lemma mirroring_unstake d n net : mirroring (unstakeDelegatedStaking d n net).
Proof.
  unfold unstakeDelegatedStaking. apply mirroring_bind; [apply mirroring_same, same_getNode|]. intros [node|]; [|by intros w].
  apply (mirroring_commit _ (λ unstaked : bool, if unstaked then
    changeDelegations (λ g, UnstakeDelegation g d n net);;
    (if String.eqb (n_Network node) net then refreshMaxStaking node n else mret tt) else mret tt) (λ _, _)).
  - intros w Hw. unfold deleteDelegation, emitEvent. wp_step. apply wp_firstOrNone; [done| |].
    all: destruct (currentDelegation d n net (w_db w)) as [row|] eqn:Hrow;
      [|wp_step; split; [done|]; intros b [= <-] s depth; done].
    all: wp_step; wp_step; [done|]; wp_step; wp_step; [done|]; wp_step; split; [done|]; intros b [= <-] s depth; wp_step.
    all: eapply wp_mono; [eapply (wp_unstake_cache d n net); [exact Hw|by rewrite Hrow|reflexivity|done|apply delegated_delete]|].
    all: intros [[]|e] w2 H2; [|done]; case_bool; [apply mirroring_same; [apply same_refreshMaxStaking|done]|done].
  - intros b. apply mirroring_same. frame_tac.
Qed.

Lemma mirroring_slash d n a tx block i net : mirroring (slashDelegatedStaking d n a tx block i net).
Proof.
  unfold slashDelegatedStaking.
  apply (mirroring_commit _ (λ _, changeDelegations (λ g, UnstakeDelegation g d n net)) (λ _, _)).
  - intros w Hw. unfold slashDelegationTx, emitEvent. wp_step. apply wp_firstOrNone; [done| |].
    all: wp_step; wp_step; [done|]; wp_step; apply wp_firstOrNone; [done| |]; simpl.
    all: destruct (currentDelegation _ _ _ _) as [row|] eqn:Hrow; [|by wp_step].
    all: wp_step; wp_step; [done|]; wp_step; [done|]; split; [done|]; intros [] _ s depth.
    all: eapply wp_mono; [eapply (wp_unstake_cache d n net); [exact Hw| |reflexivity|done|apply delegated_slash]|done].
    all: unfold currentDelegation in *; simpl in Hrow; by rewrite Hrow.
  - intros []. apply mirroring_same. keep_tac.
Qed.

Lemma mirroring_log net l : mirroring (processDelegatedStakingLog net l).
Proof.
  unfold processDelegatedStakingLog. destruct (env_delegated_staking_log l) as [[]|]; [| | | |by intros w];
    apply mirroring_bind; try by intros ? w.
  - apply mirroring_update.
  - apply mirroring_unstake.
  - apply mirroring_same. keep_tac.
  - apply mirroring_slash.
Qed.

Lemma same_unstakeAttempts n node : frames same_delegations (unstakeAttempts n node).
Proof. revert node. induction n as [|n IH]; intros node; simpl; keep_tac; auto. Qed.
#[local] Hint Resolve same_unstakeAttempts : relay.

Lemma same_SlashVestings a t : frames same_delegations (SlashNodeVestings a t).
Proof. keep_tac. Qed.
#[local] Hint Resolve same_SlashVestings : relay.

Lemma mirroring_nodeLog net t l : mirroring (processNodeStakingLog net t l).
Proof. apply mirroring_same. unfold processNodeStakingLog. keep_tac. Qed.

Lemma mirroring_continue net a : mirroring (continueSlash net a).
Proof. apply mirroring_same. keep_tac. Qed.
End mirror.

(** ** Batches of a slash job *)

Section batches.
Context {E : Env}.

(** The latest batch of a job, or a retry of it, is under way. *)
Definition batchOpen (job : DelegatedSlashJob) (d : DB) : bool :=
  match sj_LatestBatchTransactionID job ≫= λ id, find_first (λ tx, bt_ID tx =? id) (db_chain_txs d) with
  | None => false
  | Some tx => isOpen tx || existsb isOpen (select_where (λ x, bool_decide (bt_RetryTransactionID x = Some (bt_ID tx))) (db_chain_txs d))
  end.

Lemma wp_hasOpen job w :
  wp (hasOpenDelegatedSlashBatchTransaction job)
    (λ r w', w_db w' = w_db w ∧ ∀ b, r = Ok b → b = batchOpen job (w_db w)) w.
Proof.
  unfold hasOpenDelegatedSlashBatchTransaction, batchOpen. destruct (sj_LatestBatchTransactionID job) as [id|]; simpl.
  2: { wp_step. by split; [|intros b [= <-]]. }
  wp_step. apply wp_firstOrNone; [done| |]; (destruct (find_first _ _) as [tx|]; [|wp_step; by split; [|intros b [= <-]]]).
  all: destruct (isOpen tx); simpl; [wp_step; by split; [|intros b [= <-]]|].
  all: wp_step; wp_step; [done|]; wp_step; by split; [|intros b [= <-]].
Qed.

(** What a call may do to the database. *)
Definition batch_step (job : DelegatedSlashJob) (d d' : DB) : Prop :=
  ∃ current, find_first (λ j, sj_ID j =? sj_ID job) (db_slash_jobs d) = Some current ∧
    sj_Status current ≠ DelegatedSlashJobStatusCompleted ∧ batchOpen current d = false ∧
    ∃ n size delegators, env_staking_page n (sj_NodeAddress job) (sj_Network job) size = Ok delegators ∧ 0 ≠ size ∧
    let update f := update_where (λ j, sj_ID j =? sj_ID job) f (db_slash_jobs d) in
    match delegators with
    | [] => d' = d <| db_slash_jobs := update (λ j, j <| sj_Status := DelegatedSlashJobStatusCompleted |>) |>
    | _ :: _ => ∃ tx, bt_CallNode tx = sj_NodeAddress job ∧ bt_CallDelegators tx = delegators ∧
        bt_Network tx = sj_Network job ∧ bt_Status tx = TransactionStatusPending ∧ (∀ x, x ∈ db_chain_txs d → bt_ID x ≠ bt_ID tx) ∧
        d' = d <| db_chain_txs := db_chain_txs d ++ [tx] |>
               <| db_slash_jobs := update (λ j, j <| sj_Status := DelegatedSlashJobStatusProcessing |>
                                                  <| sj_LatestBatchTransactionID := Some (bt_ID tx) |>) |>
    end.

(** A call that continues a slash job changes the database only in one of two
    ways, and only when the job is unfinished and neither its latest batch nor a
    retry of it is under way: it completes the job, when the contract reports no
    remaining delegation, or it queues one transaction for exactly the delegators
    the contract reported and records it as the latest batch of the job, both
    or neither. *)
Theorem slash_batch_effect (job : DelegatedSlashJob) (w : World) :
  wp (sendNextDelegatedSlashBatch job) (λ r w',
    w_db w' = w_db w ∨ (r = Ok tt ∧ batch_step job (w_db w) (w_db w'))) w.
Proof.
  unfold sendNextDelegatedSlashBatch. destruct (assoc _ _) as [cfg|] eqn:Hcfg; [|wp_step; by left]. case_bool; [wp_step; by left|].
  wp_step. unfold wp at 1, ask. simpl. destruct (env_staking_page _ _ _ _) as [page|] eqn:Hpage; [|by left].
  apply wp_transaction; [by left|]. unfold nextBatchTx. wp_step. wp_step; [by left|]. simpl.
  destruct (find_first _ _) as [current|] eqn:Hjob; [|by left]. case_bool; [wp_step; by split; [intros|]; left|].
  wp_step. eapply wp_mono; [apply wp_hasOpen|]. simpl. intros [open|e] w1 [Hd Ho]; [|by left]. specialize (Ho _ eq_refl).
  destruct open; [wp_step; split; [intros|]; left; simpl; congruence|].
  pose proof (proj2 (find_first_Some _ _ _ Hjob)) as Hid. apply Z.eqb_eq in Hid. unfold updateJob. case_bool.
  - wp_step; [by left|]. simpl. split; [by left|]. right. split; [done|]. exists current. split_and!; [done|done|done|].
    do 3 eexists. split_and!; [exact Hpage|lia|]. subst page. rewrite Hd, Hid. reflexivity.
  - wp_step. unfold SlashNodeDelegations. case_bool; [done|]. rewrite Hcfg. wp_step. wp_step. wp_step; [by left|]. simpl.
    wp_step; [by left|]. simpl. split; [by left|]. right. split; [done|]. exists current. split_and!; [done|done|done|].
    do 3 eexists. split_and!; [exact Hpage|lia|]. destruct page as [|a page]; [done|].
    exists (newTransaction (next_id bt_ID (db_chain_txs (w_db w))) t (sj_Network job)
      "DelegatedStaking::slashNodeDelegations" (bc_AccountAddress cfg) (bc_DelegatedStaking cfg) (sj_NodeAddress job) (a :: page)
      (bc_MaxRetries cfg)).
    split_and!; [done..| |by rewrite Hd, Hid]. simpl. intros x Hx Heq. apply (next_id_fresh bt_ID) in Hx. lia.
Qed.
End batches.
End ChainEvents.
