(* ===== verification/ChainProcessor.v ===== *)
(** * The chain processors

    src/service/blockchain_processor.go: one processor per network reads the next
    blocks (or, on networks for deposits and withdrawals only, the next logs of
    the token), books the deposits, passes contract events on to [ChainEvents.v]
    and moves the cursor of the network.  Transaction hashes and addresses are the
    texts their [Hex] methods print; the header and the transaction hashes of a
    block are one request here.  The ticker is a sequence of calls. *)

From S2P Require Import Prelude Models Config Delegation VestingSchedule Deadline Mac MaxStaking.
From S2P Require Import Store Statistic Ledger LedgerCoherence LedgerSync Vesting Qos NodeState ChainEvents.

Module ChainProcessor.
Import Mac Delegations Ledger LedgerCoherence LedgerSync Vesting Qos NodeState ChainEvents.

(** ** Definitions *)

(** [isTransferToRelayAccountDepositAddress],
    src/service/blockchain_processor.go 1139-1141 *)
Definition isTransferToRelayAccountDepositAddress (transfer : TransactionTransfer) (depositAddress : string) : bool :=
  match tf_To transfer with Some to => EqualFold to depositAddress | None => false end.

(** [filterReceiptLogsByContract], src/service/blockchain_processor.go 388-400 *)
Definition filterReceiptLogsByContract (logs : list ReceiptLog) (nodeStaking delegatedStaking : string)
    : list ReceiptLog * list ReceiptLog :=
  let isNode l := EqualFold (log_Address l) nodeStaking in
  (select_where isNode logs,
   select_where (λ l, negb (isNode l) && EqualFold (log_Address l) delegatedStaking) logs).

Section processor.
Context {E : Env}.

(** [parseERC20DepositLog], src/service/blockchain_processor.go 244-270: the
    sender and the amount of a matching log *)
Definition parseERC20DepositLog (tokenAddress depositAddress : string) (l : ReceiptLog) : option (string * Z) :=
  match log_Topics l with
  | [topic0; topic1; topic2] =>
      if negb (String.eqb topic0 env_erc20TransferTopic) || negb (EqualFold (log_Address l) tokenAddress) ||
         negb (String.eqb topic2 (env_addressTopic depositAddress))
      then None
      else
        let amount := be_number (log_Data l) in
        if amount <=? 0 then None
        else
          let fromAddress := env_topicAddress topic1 in
          if String.eqb fromAddress zeroAddressHex then None else Some (fromAddress, amount)
  | _ => None
  end.

(** A receipt that must exist. *)
Definition transactionReceipt (network txHash : string) : M Receipt :=
  receipt ← ask (λ n, env_receipt n network txHash);
  match receipt with Some receipt => mret receipt | None => fail (ErrMsg "not found") end.

(** [GetRelayAccountDepositEvent], src/models/relay_account.go 76-88 *)
Definition GetRelayAccountDepositEvent (txHash network : string) : M (option RelayAccountEvent) :=
  let reason := reason3 RelayAccountEventTypeDeposit txHash network in
  firstOrNone (db_first (λ d, find_first (λ e, String.eqb (e_Reason e) reason) (db_events d))).

(** A deposit is booked once, src/service/blockchain_processor.go 286-300 and
    409-431 *)
Definition bookDeposit (txHash from : string) (amount : Z) (network : string) : M unit :=
  event ← GetRelayAccountDepositEvent txHash network;
  match event with
  | Some _ => mret tt
  | None =>
      commitFunc ← depositRelayAccount txHash from amount network;
      commitFunc
  end.

(** [processERC20DepositLog], src/service/blockchain_processor.go 272-303 *)
Definition processERC20DepositLog (network tokenAddress : string) (l : ReceiptLog) : M unit :=
  match parseERC20DepositLog tokenAddress (RelayAccount_DepositAddress env_cfg) l with
  | None => mret tt
  | Some (fromAddress, amount) =>
      receipt ← transactionReceipt network (log_TxHash l);
      if negb (rc_Status receipt =? 1) then mret tt
      else bookDeposit (log_TxHash l) fromAddress amount network
  end.

(** [processERC20DepositLogs], src/service/blockchain_processor.go 212-242 *)
Definition processERC20DepositLogs (network tokenAddress : string) (startBlock endBlock : Z) : M unit :=
  logs ← ask (λ n, env_filter_logs n network startBlock endBlock);
  for_each logs (processERC20DepositLog network tokenAddress).

(** [processRelayAccountDepositTransfer], src/service/blockchain_processor.go 402-431 *)
Definition processRelayAccountDepositTransfer (transfer : TransactionTransfer) (receipt : Receipt) (network : string) : M unit :=
  if negb (rc_Status receipt =? 1) then mret tt
  else bookDeposit (tf_Hash transfer) (tf_From transfer) (default 0 (tf_Value transfer)) network.

(** [processTransactionTransfer], src/service/blockchain_processor.go 1125-1137 *)
Definition processTransactionTransfer (transfer : TransactionTransfer) (receipt : Receipt) (network : string) : M unit :=
  let depositAddress := RelayAccount_DepositAddress env_cfg in
  if negb (isTransferToRelayAccountDepositAddress transfer depositAddress) then mret tt
  else if negb (isRelayAccountDepositTransfer transfer depositAddress) then mret tt
  else processRelayAccountDepositTransfer transfer receipt network.

(** [processTransactionReceiptLogs], src/service/blockchain_processor.go 345-386 *)
Definition processTransactionReceiptLogs (receipt : Receipt) (network : string) (blockTime : Time) : M unit :=
  if negb (rc_Status receipt =? 1) then mret tt
  else
    match assoc network (Blockchains env_cfg) with
    | None => fail (ErrMsg "network not found")
    | Some blockchainCfg =>
        let '(nodeStakingLogs, delegatedStakingLogs) :=
          filterReceiptLogsByContract (rc_Logs receipt) (bc_NodeStaking blockchainCfg) (bc_DelegatedStaking blockchainCfg) in
        (if negb (bool_decide (nodeStakingLogs = []))
         then processNodeStakingReceiptLogs nodeStakingLogs network blockTime else mret tt);;
        if negb (bool_decide (delegatedStakingLogs = []))
        then processDelegatedStakingReceiptLogs delegatedStakingLogs network else mret tt
    end.

(** One transaction of a block, src/service/blockchain_processor.go 320-339 *)
Definition processTransaction (network : string) (blockTime : Time) (txHash : string) : M unit :=
  if negb (env_is_hex_hash txHash) then fail (ErrMsg "invalid transaction hash")
  else
    receipt ← transactionReceipt network txHash;
    found ← ask (λ n, env_transfer n network txHash);
    match found with
    | None => fail (ErrMsg "not found")
    | Some transfer =>
        processTransactionReceiptLogs receipt network blockTime;;
        processTransactionTransfer transfer receipt network
    end.

(** [processBlock], src/service/blockchain_processor.go 306-343 *)
Definition processBlock (network : string) (blockNum : Z) : M unit :=
  block ← ask (λ n, env_block n network blockNum);
  let '(txHashes, blockTime) := block in
  for_each txHashes (processTransaction network blockTime).

(** The loop over the blocks, src/service/blockchain_processor.go 135-141: the
    last block that was processed *)
Fixpoint processBlocks (n : nat) (network : string) (blockNum processedBlock : Z) : M Z :=
  match n with
  | O => mret processedBlock
  | S n' =>
      outcome ← try_ (processBlock network blockNum);
      match outcome with
      | Err _ => mret processedBlock
      | Ok _ => processBlocks n' network (blockNum + 1) blockNum
      end
  end.

(** [GetBlockchainCursor], src/models/blockchain_cursor.go 17-33 *)
Definition GetBlockchainCursor (network : string) (startBlockNum : Z) : M Z :=
  db_exec (λ d, match db_cursors d !! network with
                | Some last => Ok (last, d)
                | None => Ok (startBlockNum, d <| db_cursors := <[network := startBlockNum]> (db_cursors d) |>)
                end).

(** The update of the cursor, src/service/blockchain_processor.go 144-149 and
    191-196 *)
Definition setCursor (network : string) (processedBlock : Z) : M unit :=
  db_write (λ d, d <| db_cursors := <[network := processedBlock]> (db_cursors d) |>).

(** [processNodeNetworkBlockRange], src/service/blockchain_processor.go 102-152 *)
Definition processNodeNetworkBlockRange (network : string) : M unit :=
  latestBlockNum ← ask (λ n, env_block_number n network);
  match assoc network (Blockchains env_cfg) with
  | None => fail (ErrMsg "network not found")
  | Some networkConfig =>
      cursor ← GetBlockchainCursor network (bc_StartBlockNum networkConfig);
      if latestBlockNum <=? cursor then mret tt
      else
        let startBlock := cursor + 1 in
        let endBlock := if 10 <? latestBlockNum - startBlock then startBlock + 10 else latestBlockNum in
        processedBlock ← processBlocks (Z.to_nat (endBlock - startBlock + 1)) network startBlock cursor;
        setCursor network processedBlock
  end.

(** [processDepositWithdrawNetworkBlockRange],
    src/service/blockchain_processor.go 155-199 *)
Definition processDepositWithdrawNetworkBlockRange (network : string) : M unit :=
  latestBlockNum ← ask (λ n, env_block_number n network);
  match assoc network (DepositWithdrawNetworks env_cfg) with
  | None => fail (ErrMsg "deposit withdraw network not found")
  | Some networkConfig =>
      cursor ← GetBlockchainCursor network (dw_StartBlockNum networkConfig);
      if latestBlockNum <=? cursor then mret tt
      else
        let startBlock := cursor + 1 in
        if dw_LogBlockRange networkConfig =? 0 then fail (ErrMsg "log block range not configured")
        else
          let endBlock := if dw_LogBlockRange networkConfig <? latestBlockNum - startBlock + 1
                          then startBlock + dw_LogBlockRange networkConfig - 1 else latestBlockNum in
          processERC20DepositLogs network (dw_TokenAddress networkConfig) startBlock endBlock;;
          setCursor network endBlock
  end.
End processor.

(** ** Booking a deposit *)

Section booking.
Context {E : Env}.

(** The transaction of a deposit. *)
Definition depositTx (txHash from : string) (amount : Z) (network : string) : M unit :=
  createdEventID ← createRelayAccountEventWithID RelayAccountEventTypeDeposit
    (reason3 RelayAccountEventTypeDeposit txHash network) from amount;
  db_write (λ d, d <| db_deposits := db_deposits d ++
    [mkDepositRecord (next_id dr_ID (db_deposits d)) from amount network txHash createdEventID
       DepositLocalStatusPending] |>).

(** The commit function of a deposit runs at once. *)
Lemma book_now txHash from amount network w :
  (commitFunc ← depositRelayAccount txHash from amount network; commitFunc) w =
  (transaction (depositTx txHash from amount network);; _ ← getRelayAccountFromCache from; credit from amount) w.
Proof.
  unfold depositRelayAccount. fold (depositTx txHash from amount network). unfold mbind, M_bind.
  destruct (transaction _ w) as [[[]|e] w1]; [|done]. by destruct (getRelayAccountFromCache from w1) as [[]].
Qed.

Lemma frames_book P `{!WorldRel P} h f a net :
  frames P (depositTx h f a net) → frames P (getRelayAccountFromCache f) → frames P (credit f a) →
  frames P (bookDeposit h f a net).
Proof.
  intros H1 H2 H3. unfold bookDeposit, GetRelayAccountDepositEvent, firstOrNone. frame_step; [frame_tac|]. frame_step; [frame_tac|].
  intros w. unfold wp. rewrite book_now. revert w. change (frames P (transaction (depositTx h f a net);; _ ← getRelayAccountFromCache f; credit f a)).
  frame_tac; auto.
Qed.

Lemma same_book h f a net : frames same_delegations (bookDeposit h f a net).
Proof.
  apply frames_book; [apply _|keep_tac|keep_tac|keep_tac]. unfold insert_event in *.
  repeat case_match; simplify_eq. exact eq_refl.
Qed.
End booking.

(** ** Delegations *)

Section mirror.
Context {E : Env}.

Lemma mirroring_processTransaction net t h : mirroring (processTransaction net t h).
Proof.
  unfold processTransaction. case_bool; [by intros w|].
  apply mirroring_bind; [apply mirroring_same; keep_tac|]. intros receipt.
  apply mirroring_bind; [apply mirroring_same; keep_tac|]. intros [transfer|]; [|by intros w].
  apply mirroring_bind.
  - unfold processTransactionReceiptLogs. case_bool; [by intros w|]. destruct (assoc _ _) as [cfg|]; [|by intros w].
    destruct (filterReceiptLogsByContract _ _ _) as [l1 l2]. apply mirroring_bind.
    + case_bool; [|by intros w]. apply mirroring_for_each. intros l. apply mirroring_nodeLog.
    + intros []. case_bool; [|by intros w]. unfold processDelegatedStakingReceiptLogs.
      apply mirroring_bind; [apply mirroring_map_m; intros l; apply mirroring_log|]. intros slashed.
      apply mirroring_bind; [apply mirroring_same; frame_tac|]. intros nodes.
      apply mirroring_for_each. intros a. apply mirroring_continue.
  - intros []. apply mirroring_same. unfold processTransactionTransfer, processRelayAccountDepositTransfer. frame_tac.
    apply same_book.
Qed.

(** C17: while the processor of a node network scans, the delegation cache of every
    network implements the current (not slashed) rows of the delegations table,
    whatever the contract events are, wherever an access fails and wherever the
    scan stops. *)
Theorem delegations_mirror (network : string) (w : World) :
  mirrors w → wp (processNodeNetworkBlockRange network) (λ _ w', mirrors w') w.
Proof.
  assert (Hblocks : ∀ n b p, mirroring (processBlocks n network b p)).
  { induction n as [|n IH]; intros b p; simpl; [by intros w'|]. apply mirroring_bind.
    - intros w' Hw'. wp_step. eapply wp_mono; [apply mirroring_bind; [apply mirroring_same; frame_tac| |exact Hw']|done].
      intros [txs t]. apply mirroring_for_each. intros h. apply mirroring_processTransaction.
    - intros [_|e]; [apply IH|by intros w']. }
  revert w. unfold processNodeNetworkBlockRange. apply mirroring_bind; [apply mirroring_same; frame_tac|]. intros latest.
  destruct (assoc _ _) as [cfg|]; [|by intros w]. apply mirroring_bind; [apply mirroring_same; keep_tac|]. intros cursor.
  case_bool; [by intros w|]. apply mirroring_bind; [apply Hblocks|]. intros processed. apply mirroring_same. keep_tac.
Qed.
End mirror.

(** ** Deposits *)

(** The texts before and after a common end. *)
Lemma append_inj_r (x y z : string) : x +:+ z = y +:+ z → x = y.
Proof.
  assert (Hlen : ∀ s, String.length (s +:+ z) = (String.length s + String.length z)%nat) by (induction s; simpl; auto).
  revert y. induction x as [|c x IH]; intros [|c' y] H; [done| | |].
  - apply (f_equal String.length) in H. rewrite !Hlen in H. simpl in H. lia.
  - apply (f_equal String.length) in H. rewrite !Hlen in H. simpl in H. lia.
  - injection H as -> H. by rewrite (IH y H).
Qed.

(** A chain whose blocks do not change any more: the transactions and the token
    logs of a block, the receipt and the transfer of a transaction. *)
Record Chain := mkChain {
  ch_txs : Z → list string;
  ch_logs : Z → list ReceiptLog;
  ch_receipt : string → Receipt;
  ch_transfer : string → TransactionTransfer
}.

(** The two kinds of network. *)
Inductive kind := NodeNetwork (cfg : SystemBlockchainConfig) | FundingNetwork (cfg : DepositWithdrawNetworkConfig).

Section deposits.
Context {E : Env} (network : string) (ch : Chain) (k : kind).

Definition blocks_from (first last : Z) : list Z := map (λ i, first + Z.of_nat i) (seq 0 (Z.to_nat (last - first + 1))).

(** The node answers with this chain, or with an error. *)
Record answers : Prop := {
  ans_block : ∀ n num txs t, env_block n network num = Ok (txs, t) → txs = ch_txs ch num;
  ans_receipt : ∀ n h r, env_receipt n network h = Ok (Some r) → r = ch_receipt ch h;
  ans_transfer : ∀ n h tr, env_transfer n network h = Ok (Some tr) → tr = ch_transfer ch h;
  ans_logs : ∀ n first last logs, env_filter_logs n network first last = Ok logs →
    logs = concat (map (ch_logs ch) (blocks_from first last))
}.

(** The deposits of a block: transaction, sender and amount. *)
Definition native_deposit (h : string) : option (string * string * Z) :=
  let tr := ch_transfer ch h in
  if (rc_Status (ch_receipt ch h) =? 1) && isRelayAccountDepositTransfer tr (RelayAccount_DepositAddress env_cfg)
  then Some (tf_Hash tr, tf_From tr, default 0 (tf_Value tr)) else None.
Definition token_deposit (tokenAddress : string) (l : ReceiptLog) : option (string * string * Z) :=
  match parseERC20DepositLog tokenAddress (RelayAccount_DepositAddress env_cfg) l with
  | Some (from, amount) => if rc_Status (ch_receipt ch (log_TxHash l)) =? 1 then Some (log_TxHash l, from, amount) else None
  | None => None
  end.
Definition deposits_in (num : Z) : list (string * string * Z) :=
  match k with
  | NodeNetwork _ => omap native_deposit (ch_txs ch num)
  | FundingNetwork cfg => omap (token_deposit (dw_TokenAddress cfg)) (ch_logs ch num)
  end.

Definition depositReason (h : string) : string := reason3 RelayAccountEventTypeDeposit h network.

Lemma depositReason_inj h h' : depositReason h = depositReason h' → h = h'.
Proof. unfold depositReason, reason3. intros H%(inj (String.app _))%(inj (String.app _)). by apply append_inj_r in H. Qed.

(** An event that books a deposit of the chain. *)
Definition genuine (e : RelayAccountEvent) : Prop :=
  ∀ h, e_Reason e = depositReason h → ∃ num, (h, e_Address e, e_Amount e) ∈ deposits_in num.

(** Only such events are added, with reasons of their own; the cursors stay. *)
Definition booking (w w' : World) : Prop :=
  db_cursors (w_db w') = db_cursors (w_db w) ∧
  ∃ new, db_events (w_db w') = db_events (w_db w) ++ new ∧ Forall genuine new ∧
    (NoDup (map e_Reason (db_events (w_db w))) → NoDup (map e_Reason (db_events (w_db w')))).

#[export] Instance booking_rel : WorldRel booking.
Proof.
  split.
  - intros w. split; [done|]. exists []. by rewrite app_nil_r.
  - intros w1 w2 w3 [Hc (n1 & H1 & Hg1 & Hn1)] [Hc' (n2 & H2 & Hg2 & Hn2)]. split; [congruence|]. exists (n1 ++ n2).
    rewrite H2, H1, app_assoc in *. split_and!; [done|by apply Forall_app|]. intros H. by apply Hn2, Hn1.
  - intros w s d _. split; [done|]. exists []. by rewrite app_nil_r.
  - intros w w1 s d _ _. split; [done|]. exists []. by rewrite app_nil_r.
Qed.

Lemma booking_same {A} (m : M A) : frames (keeps (λ d, (db_events d, db_cursors d))) m → frames booking m.
Proof.
  intros H. eapply frames_weaken; [exact H|]. intros w w' [= He Hc]. split; [done|]. exists []. by rewrite app_nil_r, He.
Qed.

(** A deposit with this transaction hash is booked. *)
Definition recorded (h : string) (w : World) : Prop := depositReason h ∈ map e_Reason (db_events (w_db w)).

Lemma recorded_booking h w w' : booking w w' → recorded h w → recorded h w'.
Proof. intros [_ (new & He & _)]. unfold recorded. rewrite He, map_app. set_solver. Qed.

Lemma same_cache_load a : frames (keeps (λ d, (db_events d, db_cursors d))) (getRelayAccountFromCache a).
Proof. keep_tac. Qed.

Lemma wp_depositTx h f a num w :
  (h, f, a) ∈ deposits_in num →
  wp (depositTx h f a network) (λ r w', booking w w' ∧ (r = Ok tt → recorded h w')) w.
Proof.
  intros Hd. unfold depositTx. wp_step. apply wp_createRelayAccountEventWithID.
  { intros e w' _ He. split; [|done]. split; [by rewrite He|]. exists []. by rewrite app_nil_r, He. }
  intros id t w1 _ Hfresh H1. fold (depositReason h) in *.
  assert (Hb : ∀ w2, db_events (w_db w2) = db_events (w_db w1) → db_cursors (w_db w2) = db_cursors (w_db w1) →
    booking w w2 ∧ recorded h w2).
  { intros w2 He Hc. rewrite H1 in He, Hc. simpl in He, Hc. split.
    - split; [done|]. eexists. split_and!; [exact He| |].
      + apply Forall_singleton. intros h' <-%depositReason_inj. by exists num.
      + rewrite He, map_app. intros Hn. apply NoDup_app. split_and!; [done| |apply NoDup_singleton].
        intros r (x & Hx & ->)%elem_of_map_iff. simpl. rewrite list_elem_of_singleton. by apply Hfresh.
    - unfold recorded. rewrite He, map_app. set_solver. }
  wp_step; [split; [|done]|split; [|intros _]]; by apply Hb.
Qed.

Lemma wp_book h f a num w :
  (h, f, a) ∈ deposits_in num →
  wp (bookDeposit h f a network) (λ r w', booking w w' ∧ (r = Ok tt → recorded h w')) w.
Proof.
  intros Hd. unfold bookDeposit, GetRelayAccountDepositEvent. fold (depositReason h). wp_step.
  assert (Hnew : ∀ w1, w_db w1 = w_db w →
    wp (commitFunc ← depositRelayAccount h f a network; commitFunc) (λ r w', booking w w' ∧ (r = Ok tt → recorded h w')) w1).
  { intros w1 H1. unfold wp. rewrite book_now. fold (wp (transaction (depositTx h f a network);; _ ← getRelayAccountFromCache f; credit f a)
      (λ r w', booking w w' ∧ (r = Ok tt → recorded h w')) w1).
    assert (Hfail : ∀ w2, w_db w2 = w_db w → booking w w2).
    { intros w2 H2. split; [by rewrite H2|]. exists []. by rewrite app_nil_r, H2. }
    wp_step. apply wp_transaction; [split; [by apply Hfail|done]|]. eapply wp_mono; [by eapply wp_depositTx|]. simpl.
    intros [[]|e] w2 [Hb Hr]; [|split; [by apply Hfail|done]]. split; [split; [by apply Hfail|done]|].
    specialize (Hr eq_refl). assert (Hb2 : booking w w2) by (unfold booking in *; simpl in Hb; by rewrite <- H1).
    set (w3 := mkWorld _ _ _ _). assert (Hb3 : booking w w3) by done. assert (Hr3 : recorded h w3) by done.
    clearbody w3. wp_step. eapply wp_mono; [apply (booking_same _ (same_cache_load f))|].
    intros [b|e] w4 H4; [|split; [by eapply wr_trans|done]]. unfold credit. wp_step. split; [by eapply wr_trans|]. intros _.
    by eapply (recorded_booking h w3). }
  apply wp_firstOrNone; [split; [|done]| |]; [by apply (wr_tick booking)| |];
    (destruct (find_first _ _) as [ev|] eqn:Hfind; [|by apply Hnew]); wp_step.
  all: apply find_first_Some in Hfind as [Hin Hr]; simplify_bool; split.
  all: try (intros _; unfold recorded; rewrite <- Hr; by apply elem_of_map_2).
  all: split; [done|]; exists []; by rewrite app_nil_r.
Qed.

(** *** The contract events book nothing *)

Notation books_nothing m := (frames (keeps (λ d, (db_events d, db_cursors d))) m).

Lemma nothing_attempts n node : books_nothing (unstakeAttempts n node).
Proof. revert node. induction n as [|n IH]; intros node; simpl; keep_tac; auto. Qed.
#[local] Hint Resolve nothing_attempts : relay.

Lemma nothing_SlashVestings a t : books_nothing (SlashNodeVestings a t).
Proof. keep_tac. Qed.
#[local] Hint Resolve nothing_SlashVestings : relay.

Lemma nothing_nodeLog net t l : books_nothing (processNodeStakingLog net t l).
Proof. unfold processNodeStakingLog. keep_tac. Qed.
Lemma nothing_delegationLog net l : books_nothing (processDelegatedStakingLog net l).
Proof. unfold processDelegatedStakingLog. keep_tac. Qed.
Lemma nothing_continue net a : books_nothing (continueSlash net a).
Proof. keep_tac. Qed.
#[local] Hint Resolve nothing_nodeLog nothing_delegationLog nothing_continue : relay.

Lemma nothing_receiptLogs rc net t : books_nothing (processTransactionReceiptLogs rc net t).
Proof.
  unfold processTransactionReceiptLogs, processNodeStakingReceiptLogs, processDelegatedStakingReceiptLogs.
  frame_tac.
Qed.

(** *** Scanning *)

Hypothesis Hans : answers.

Definition block_recorded (num : Z) (w : World) : Prop :=
  ∀ h f a, (h, f, a) ∈ deposits_in num → recorded h w.

Lemma block_recorded_booking num w w' : booking w w' → block_recorded num w → block_recorded num w'.
Proof. intros Hb H h f a Hd. eapply recorded_booking; [done|]. by eapply H. Qed.

(** A computation that books, and when it succeeds [R] holds. *)
Definition scans {A} (R : A → World → Prop) (m : M A) : Prop :=
  ∀ w, wp m (λ r w', booking w w' ∧ ∀ a, r = Ok a → R a w') w.

Lemma scans_frames {A} (R : A → World → Prop) (m : M A) : frames booking m → (∀ a w, R a w) → scans R m.
Proof. intros Hm HR w. eapply wp_mono; [apply Hm|]. intros r w' H. split; [done|]. auto. Qed.

Lemma scans_bind {A B} (m : M A) (f : A → M B) P R :
  scans P m → (∀ a w, P a w → wp (f a) (λ r w', booking w w' ∧ ∀ b, r = Ok b → R b w') w) → scans R (m ≫= f).
Proof.
  intros Hm Hf w. wp_step. eapply wp_mono; [apply Hm|]. intros [a|e] w1 [H1 HP]; [|done].
  eapply wp_mono; [apply Hf; by apply HP|]. intros r w2 [H2 HR]. split; [by eapply wr_trans|done].
Qed.

Lemma scans_for_each {A} (R : A → World → Prop) (f : A → M unit) l :
  (∀ x w w', booking w w' → R x w → R x w') → (∀ x, x ∈ l → scans (λ _, R x) (f x)) →
  scans (λ _ w, ∀ x, x ∈ l → R x w) (for_each l f).
Proof.
  intros Hmono Hf. induction l as [|x l IH]; simpl.
  - intros w. wp_step. split; [apply wr_refl|]. intros. set_solver.
  - eapply scans_bind; [apply Hf; set_solver|]. intros [] w Hx. eapply wp_mono; [apply IH; intros y Hy; apply Hf; set_solver|].
    intros r w' [Hb H]. split; [done|]. intros [] Hr y [->|Hy]%elem_of_cons; [by eapply Hmono|by eapply H].
Qed.

Lemma scans_receipt h : scans (λ r _, r = ch_receipt ch h) (transactionReceipt network h).
Proof.
  intros w. unfold transactionReceipt. wp_step. unfold wp at 1, ask. simpl.
  destruct (env_receipt _ _ _) as [[r|]|e] eqn:Hr; simpl; (split; [apply (wr_tick booking)|]); try done.
  intros a [= <-]. by eapply ans_receipt.
Qed.

Lemma deposit_to tr a : isRelayAccountDepositTransfer tr a = true → isTransferToRelayAccountDepositAddress tr a = true.
Proof.
  unfold isRelayAccountDepositTransfer, isTransferToRelayAccountDepositAddress.
  destruct (tf_To tr), (tf_Value tr); try done. by intros [[? _]%andb_true_iff _]%andb_true_iff.
Qed.

Lemma scans_native t num h :
  (∃ cfg, k = NodeNetwork cfg) → h ∈ ch_txs ch num →
  scans (λ _ w, ∀ h' f a, native_deposit h = Some (h', f, a) → recorded h' w) (processTransaction network t h).
Proof.
  intros [cfg Hk] Hh. unfold processTransaction. case_bool; [intros w; wp_step; by split; [apply wr_refl|]|].
  eapply scans_bind; [apply scans_receipt|]. intros receipt w ->. revert w.
  eapply (scans_bind _ _ (λ o _, ∀ tr, o = Some tr → tr = ch_transfer ch h)).
  { intros w. unfold wp, ask. simpl. split; [apply (wr_tick booking)|]. intros o Ho tr ->. by eapply ans_transfer. }
  intros [tr|] w Htr; [|wp_step; by split; [apply wr_refl|]]. rewrite (Htr tr eq_refl). clear Htr tr. revert w.
  eapply (scans_bind _ _ (λ _ _, True)); [apply scans_frames; [apply booking_same, nothing_receiptLogs|done]|]. intros [] w _.
  unfold processTransactionTransfer, processRelayAccountDepositTransfer, native_deposit.
  destruct (negb (isTransferToRelayAccountDepositAddress _ _)) eqn:Hto.
  { wp_step. split; [apply wr_refl|]. intros [] _ h' f a. destruct (_ && _) eqn:Hb; [|done].
    apply andb_true_iff in Hb as [_ Hb%deposit_to]. by rewrite Hb in Hto. }
  destruct (isRelayAccountDepositTransfer _ _) eqn:Hdep; simpl.
  2: { wp_step. rewrite andb_false_r. by split; [apply wr_refl|]. }
  destruct (rc_Status _ =? 1) eqn:Hst; simpl; [|wp_step; by split; [apply wr_refl|]].
  eapply wp_mono; [eapply (wp_book _ _ _ num)|].
  - unfold deposits_in. rewrite Hk. apply list_elem_of_omap. exists h. split; [done|]. unfold native_deposit. by rewrite Hst, Hdep.
  - intros r w' [Hb Hr]. split; [done|]. intros [] Ho h' f a [= <- <- <-]. by apply Hr.
Qed.

Lemma scans_processBlock num : (∃ cfg, k = NodeNetwork cfg) → scans (λ _, block_recorded num) (processBlock network num).
Proof.
  intros Hk. unfold processBlock. eapply (scans_bind _ _ (λ b _, fst b = ch_txs ch num)).
  { intros w. unfold wp, ask. simpl. split; [apply (wr_tick booking)|]. intros [txs t] Ho. by eapply ans_block. }
  intros [txs t] w Htxs. simpl in Htxs. subst txs.
  eapply wp_mono; [apply (scans_for_each (λ h w, ∀ h' f a, native_deposit h = Some (h', f, a) → recorded h' w))|].
  - intros h w1 w2 Hb H h' f a Hd. eapply recorded_booking; [done|]. by eapply H.
  - intros h Hh. by eapply scans_native.
  - intros r w' [Hb H]. split; [done|]. intros [] Hr h f a Hd. unfold deposits_in in Hd. destruct Hk as [cfg ->].
    apply list_elem_of_omap in Hd as (x & Hx & Hd). by eapply (H tt).
Qed.

Lemma scans_processBlocks n b : (∃ cfg, k = NodeNetwork cfg) →
  scans (λ last w, b - 1 ≤ last ∧ ∀ num, b ≤ num ≤ last → block_recorded num w) (processBlocks n network b (b - 1)).
Proof.
  intros Hk. revert b. induction n as [|n IH]; intros b w; simpl.
  { wp_step. split; [apply wr_refl|]. intros a [= <-]. split; [lia|]. intros num Hn. lia. }
  wp_step. wp_step. eapply wp_mono; [by apply scans_processBlock|]. intros [[]|e] w1 [Hb H1].
  - replace b with (b + 1 - 1) at 2 by lia. eapply wp_mono; [apply IH|]. intros r w2 [Hb2 H2].
    split; [by eapply wr_trans|]. intros last Hr. destruct (H2 last Hr) as [Hl Hn]. split; [lia|]. intros num Hnum.
    destruct (decide (num = b)) as [->|Hne]; [|apply Hn; lia]. eapply block_recorded_booking; [done|]. by apply (H1 tt).
  - wp_step. split; [done|]. intros a [= <-]. split; [lia|]. intros num Hn. lia.
Qed.

Lemma scans_token cfg num l :
  k = FundingNetwork cfg → l ∈ ch_logs ch num →
  scans (λ _ w, ∀ h f a, token_deposit (dw_TokenAddress cfg) l = Some (h, f, a) → recorded h w)
    (processERC20DepositLog network (dw_TokenAddress cfg) l).
Proof.
  intros Hk Hl. unfold processERC20DepositLog, token_deposit.
  destruct (parseERC20DepositLog _ _ _) as [[from amount]|] eqn:Hp; [|intros w; wp_step; by split; [apply wr_refl|]].
  eapply scans_bind; [apply scans_receipt|]. intros receipt w ->.
  destruct (rc_Status _ =? 1) eqn:Hst; simpl; [|wp_step; by split; [apply wr_refl|]].
  eapply wp_mono; [eapply (wp_book _ _ _ num)|].
  - unfold deposits_in. rewrite Hk. apply list_elem_of_omap. exists l. split; [done|]. unfold token_deposit. by rewrite Hp, Hst.
  - intros r w' [Hb Hr]. split; [done|]. intros [] Ho h' f a [= <- <- <-]. by apply Hr.
Qed.

Lemma elem_of_blocks first last num : num ∈ blocks_from first last ↔ first ≤ num ≤ last.
Proof.
  unfold blocks_from. rewrite elem_of_map_iff. split.
  - intros (i & Hi%elem_of_seq & ->). lia.
  - intros Hn. exists (Z.to_nat (num - first)). rewrite elem_of_seq. lia.
Qed.

Lemma scans_logs cfg first last :
  k = FundingNetwork cfg →
  scans (λ _ w, ∀ num, first ≤ num ≤ last → block_recorded num w)
    (processERC20DepositLogs network (dw_TokenAddress cfg) first last).
Proof.
  intros Hk. unfold processERC20DepositLogs.
  eapply (scans_bind _ _ (λ logs _, logs = concat (map (ch_logs ch) (blocks_from first last)))).
  { intros w. unfold wp, ask. simpl. split; [apply (wr_tick booking)|]. intros logs Ho. by eapply ans_logs. }
  intros logs w ->. assert (Hin : ∀ l, l ∈ concat (map (ch_logs ch) (blocks_from first last)) ↔ ∃ num, first ≤ num ≤ last ∧ l ∈ ch_logs ch num).
  { intros l. rewrite list_elem_of_In, in_concat. setoid_rewrite in_map_iff. setoid_rewrite <- list_elem_of_In.
    setoid_rewrite elem_of_blocks. naive_solver. }
  eapply wp_mono; [apply (scans_for_each (λ l w, ∀ h f a, token_deposit (dw_TokenAddress cfg) l = Some (h, f, a) → recorded h w))|].
  - intros l w1 w2 Hb H h f a Hd. eapply recorded_booking; [done|]. by eapply H.
  - intros l (num & _ & Hl)%Hin. by eapply scans_token.
  - intros r w' [Hb H]. split; [done|]. intros [] Hr num Hnum h f a Hd. unfold deposits_in in Hd. rewrite Hk in Hd.
    apply list_elem_of_omap in Hd as (l & Hl & Hd). eapply (H tt Hr); [|done]. apply Hin. eauto.
Qed.

(** *** The cursor *)

Definition scan : M unit :=
  match k with
  | NodeNetwork _ => processNodeNetworkBlockRange network
  | FundingNetwork _ => processDepositWithdrawNetworkBlockRange network
  end.
Definition configured : Prop :=
  match k with
  | NodeNetwork cfg => assoc network (Blockchains env_cfg) = Some cfg
  | FundingNetwork cfg => assoc network (DepositWithdrawNetworks env_cfg) = Some cfg
  end.
Definition startBlockNum : Z :=
  match k with NodeNetwork cfg => bc_StartBlockNum cfg | FundingNetwork cfg => dw_StartBlockNum cfg end.

(** No two events have the same reason; a deposit event of the network books a
    deposit of the chain, with its sender and amount; every deposit up to the
    cursor is booked. *)
Record deposits_ok (w : World) : Prop := {
  dep_unique : NoDup (map e_Reason (db_events (w_db w)));
  dep_genuine : Forall genuine (db_events (w_db w));
  dep_scanned : ∀ last, db_cursors (w_db w) !! network = Some last →
    ∀ num, startBlockNum < num ≤ last → block_recorded num w
}.

Lemma ok_booking w w' : booking w w' → deposits_ok w → deposits_ok w'.
Proof.
  intros Hb [Hu Hg Hs]. pose proof Hb as [Hc (new & He & Hn & Hu')]. split; [by apply Hu'|by rewrite He; apply Forall_app|].
  rewrite Hc. intros last Hl num Hnum. eapply block_recorded_booking; [done|]. by eapply Hs.
Qed.

Lemma ok_cursor w w' last :
  deposits_ok w → db_events (w_db w') = db_events (w_db w) → db_cursors (w_db w') !! network = Some last →
  (∀ num, startBlockNum < num ≤ last → block_recorded num w) → deposits_ok w'.
Proof.
  intros [Hu Hg Hs] He Hc Hl. split; rewrite ?He; [done|done|]. rewrite Hc. intros last' [= <-] num Hnum h f a Hd.
  unfold recorded. rewrite He. by eapply Hl.
Qed.

Lemma wp_cursor w (Q : result Z → World → Prop) :
  deposits_ok w → (∀ e w', deposits_ok w' → Q (Err e) w') →
  (∀ c w', deposits_ok w' → db_cursors (w_db w') !! network = Some c → Q (Ok c) w') →
  wp (GetBlockchainCursor network startBlockNum) Q w.
Proof.
  intros Hw He Ho. unfold GetBlockchainCursor. wp_step; [apply He; by destruct Hw|].
  destruct (db_cursors (w_db w) !! network) as [c|] eqn:Hc; (apply Ho; simpl; [|by rewrite ?lookup_insert_eq]).
  - by destruct Hw.
  - eapply ok_cursor; [done|done|apply lookup_insert_eq|]. intros num Hn. lia.
Qed.

(** Advancing the cursor over recorded blocks. *)
Lemma wp_setCursor c last w :
  deposits_ok w → db_cursors (w_db w) !! network = Some c → (∀ num, c < num ≤ last → block_recorded num w) →
  wp (setCursor network last) (λ _ w', deposits_ok w') w.
Proof.
  intros Hw Hc Hl. unfold setCursor. wp_step; [by destruct Hw|]. eapply ok_cursor; [done|done|apply lookup_insert_eq|].
  intros num Hn. destruct (decide (num ≤ c)); [|apply Hl; lia]. eapply dep_scanned; [done|done|lia].
Qed.

Lemma wp_scanNode cfg w :
  k = NodeNetwork cfg → assoc network (Blockchains env_cfg) = Some cfg → deposits_ok w →
  wp (processNodeNetworkBlockRange network) (λ _ w', deposits_ok w') w.
Proof.
  intros Hk Hcfg Hw. unfold processNodeNetworkBlockRange. wp_step. wp_step. destruct r as [latest|e]; [|by destruct Hw].
  rewrite Hcfg. wp_step. replace (bc_StartBlockNum cfg) with startBlockNum by (unfold startBlockNum; by rewrite Hk).
  apply wp_cursor; [by destruct Hw|done|]. intros c w1 H1 Hc. case_bool; [by wp_step|]. wp_step.
  replace c with (c + 1 - 1) at 5 by lia. eapply wp_mono; [apply scans_processBlocks; eauto|].
  intros [last|e] w2 [Hb H2]; [|by eapply ok_booking]. destruct (H2 _ eq_refl) as [_ Hl].
  eapply (wp_setCursor c); [by eapply ok_booking|by destruct Hb as [-> _]|]. intros num Hn. apply Hl. lia.
Qed.

Lemma wp_scanLogs cfg w :
  k = FundingNetwork cfg → assoc network (DepositWithdrawNetworks env_cfg) = Some cfg → deposits_ok w →
  wp (processDepositWithdrawNetworkBlockRange network) (λ _ w', deposits_ok w') w.
Proof.
  intros Hk Hcfg Hw. unfold processDepositWithdrawNetworkBlockRange. wp_step. wp_step. destruct r as [latest|e]; [|by destruct Hw].
  rewrite Hcfg. wp_step. replace (dw_StartBlockNum cfg) with startBlockNum by (unfold startBlockNum; by rewrite Hk).
  apply wp_cursor; [by destruct Hw|done|]. intros c w1 H1 Hc. case_bool; [by wp_step|]. case_bool; [by wp_step|].
  set (last := if _ <? _ then _ else _). wp_step. eapply wp_mono; [by apply scans_logs|].
  intros [[]|e] w2 [Hb H2]; [|by eapply ok_booking].
  eapply (wp_setCursor c); [by eapply ok_booking|by destruct Hb as [-> _]|]. intros num Hn. apply (H2 tt); [done|lia].
Qed.

Lemma wp_scan w : configured → deposits_ok w → wp scan (λ _ w', deposits_ok w') w.
Proof.
  intros Hcfg Hw. assert (H : (∃ cfg, k = NodeNetwork cfg) ∨ ∃ cfg, k = FundingNetwork cfg) by (destruct k; eauto).
  unfold configured, scan in *. destruct H as [[cfg Hk]|[cfg Hk]]; rewrite Hk in Hcfg |- *.
  - by eapply wp_scanNode.
  - by eapply wp_scanLogs.
Qed.

(** A step of the relay: a call of the processor, or anything else that leaves the
    cursor and the events it finds (up to their status) and only adds events that
    are not deposits of this network. *)
Inductive chain_step : World → World → Prop :=
| scan_step w : chain_step w (snd (scan w))
| other_step w w' old new :
    db_cursors (w_db w') !! network = db_cursors (w_db w) !! network →
    db_events (w_db w') = old ++ new → map pay_of old = map pay_of (db_events (w_db w)) →
    (∀ e h, e ∈ new → e_Reason e ≠ depositReason h) → NoDup (map e_Reason (db_events (w_db w'))) →
    chain_step w w'.

Lemma ok_other w w' old new :
  db_cursors (w_db w') !! network = db_cursors (w_db w) !! network →
  db_events (w_db w') = old ++ new → map pay_of old = map pay_of (db_events (w_db w)) →
  (∀ e h, e ∈ new → e_Reason e ≠ depositReason h) → NoDup (map e_Reason (db_events (w_db w'))) →
  deposits_ok w → deposits_ok w'.
Proof.
  intros Hc He Hp Hn Hu [_ Hg Hs]. split; [done| |].
  - rewrite He. apply Forall_app. split; apply Forall_forall; intros e Hin h Hr; [|by eapply Hn in Hr].
    apply (elem_of_map_2 pay_of) in Hin. rewrite Hp in Hin. apply elem_of_map_iff in Hin as (e0 & Hin & Heq).
    rewrite Forall_forall in Hg. unfold pay_of in Heq. injection Heq as _ Hr' Ha Ham. rewrite Ha, Ham.
    apply (Hg e0 Hin). congruence.
  - rewrite Hc. intros last Hl num Hnum h f a Hd. specialize (Hs last Hl num Hnum h f a Hd). unfold recorded in *.
    rewrite He, map_app. apply elem_of_app. left.
    rewrite (map_eq_via pay_of e_Reason old (db_events (w_db w))); [done| |done]. by intros x y [= _ ? _ _].
Qed.

End deposits.

(** ** A slash is not repeatable *)

Section replay.
Context {E : Env} (network : string) (cfg : SystemBlockchainConfig).
Context (delegator node : string) (amount : Z) (txHash : string) (blockNumber logIndex : Z).

Notation slash := (slashDelegatedStaking delegator node amount txHash blockNumber logIndex network).
Notation gone w := (delegated delegator node network (db_delegations (w_db w)) = None).

(** The computation fails and leaves the database. *)
Definition refuses {A} (m : M A) (w : World) : Prop := wp m (λ r w', is_ok r = false ∧ w_db w' = w_db w) w.

Lemma refuses_bind {A B} (m : M A) (k : A → M B) w :
  wp m (λ r w', w_db w' = w_db w ∧ ∀ a, r = Ok a → refuses (k a) w') w → refuses (m ≫= k) w.
Proof.
  intros Hm. unfold refuses. wp_step. eapply wp_mono; [exact Hm|]. intros [a|e] w1 [Hd H1]; [|done].
  specialize (H1 a eq_refl). unfold refuses in H1. eapply wp_mono; [exact H1|]. intros r w2 [Hr H2]. split; [done|congruence].
Qed.

Lemma refuses_first {A B} (m : M A) (k : A → M B) w : refuses m w → refuses (m ≫= k) w.
Proof. unfold refuses. intros Hm. wp_step. eapply wp_mono; [exact Hm|]. by intros [a|e] w1 [Hr Hd]. Qed.

Lemma wp_slashTx w :
  wp (slashDelegationTx delegator node amount txHash blockNumber logIndex network)
    (λ r w', if is_ok r then ¬ gone w ∧ gone w' else True) w.
Proof.
  unfold slashDelegationTx, emitEvent. wp_step. apply wp_firstOrNone; [done| |]; wp_step; wp_step; try done;
    wp_step; apply wp_firstOrNone; try done; simpl.
  all: destruct (currentDelegation _ _ _ _) as [row|] eqn:Hrow; [|by wp_step].
  all: wp_step; wp_step; [done|]; wp_step; [done|]; simpl; (split; [|eapply eq_trans; [apply delegated_slash|by rewrite decide_True]]).
  all: unfold currentDelegation in Hrow; simpl in Hrow; unfold delegated; by rewrite Hrow.
Qed.

Lemma slash_refuses w : gone w → refuses slash w.
Proof.
  intros Hg. apply refuses_first. unfold refuses. apply wp_transaction; [done|]. eapply wp_mono; [apply wp_slashTx|].
  intros [[]|e] w1; simpl; [|done]. by intros [Hn _].
Qed.

Lemma slash_leaves_gone w : wp slash (λ _ w', w_db w' = w_db w ∨ gone w') w.
Proof.
  unfold slashDelegatedStaking. wp_step. apply wp_transaction; [by left|]. eapply wp_mono; [apply wp_slashTx|].
  intros [[]|e] w1; simpl; [|by left]. intros [_ Hg]. split; [by left|]. set (w2 := mkWorld _ _ _ _).
  assert (Hg2 : gone w2) by done. clearbody w2. revert w2 Hg2.
  assert (Hframe : frames (keeps db_delegations) (changeDelegations (λ g, UnstakeDelegation g delegator node network);;
    found ← firstOrNone (GetNodeByAddress node);
    (match found with
     | Some node0 => if String.eqb (n_Network node0) network then refreshMaxStaking node0 node else mret tt
     | None => UpdateMaxStaking node 0
     end);; ask (λ n, env_snapshot n node))) by keep_tac.
  intros w2 Hg2. eapply wp_mono; [apply Hframe|]. unfold keeps. intros r w3 H3. right. by rewrite H3.
Qed.

(** The first transaction of the next block has a receipt whose first log of the
    delegation contract, after no log of the node contract, is this slash. *)
Context (cursor : Z) (hash : string) (l : ReceiptLog).
Hypothesis Hcfg : assoc network (Blockchains env_cfg) = Some cfg.
Hypothesis Hlog : env_delegated_staking_log l = Some (DelegatorSlashed delegator node amount txHash blockNumber logIndex).
Hypothesis Hblock : ∀ n txs t, env_block n network (cursor + 1) = Ok (txs, t) → head txs = Some hash.
Hypothesis Hreceipt : ∀ n r, env_receipt n network hash = Ok (Some r) →
  rc_Status r = 1 ∧ ∃ more, filterReceiptLogsByContract (rc_Logs r) (bc_NodeStaking cfg) (bc_DelegatedStaking cfg) = ([], l :: more).

Lemma refuses_transaction t w : gone w → refuses (processTransaction network t hash) w.
Proof.
  intros Hg. unfold processTransaction. case_bool; [by split|]. apply refuses_bind. unfold transactionReceipt. wp_step.
  unfold wp at 1, ask. simpl. destruct (env_receipt _ _ _) as [[r|]|e] eqn:Hr; [|by split|by split]. split; [done|].
  intros a [= <-]. destruct (Hreceipt _ _ Hr) as [Hst [more Hlogs]]. apply refuses_bind. unfold wp. simpl. split; [done|].
  intros [tr|] _; [|by split]. apply refuses_first. unfold processTransactionReceiptLogs. rewrite Hst, Hcfg, Hlogs. simpl.
  apply refuses_bind. wp_step. split; [done|]. intros [] _. unfold processDelegatedStakingReceiptLogs. cbn [map_m].
  do 2 apply refuses_first. unfold processDelegatedStakingLog. rewrite Hlog. by apply refuses_first, slash_refuses.
Qed.

Lemma refuses_block w : gone w → refuses (processBlock network (cursor + 1)) w.
Proof.
  intros Hg. unfold processBlock. apply refuses_bind. unfold wp, ask. simpl. split; [done|]. intros [txs t] Hb.
  apply Hblock in Hb. destruct txs as [|h txs]; [done|]. injection Hb as ->. simpl. by apply refuses_first, refuses_transaction.
Qed.

End replay.

(** ** Concrete chains *)

(** The environment of the other witnesses with the network "base" at block 12:
    every block [num] has the transactions [txs num]. *)
Definition chain_env (fault : nat → bool) (ch : Chain) (parse : ReceiptLog → option DelegatedStakingLog) : Env := {|
  env_cfg := env_cfg (Env:=demo_env);
  env_fault := fault;
  env_commit_fault := λ _, false;
  env_now := env_now (Env:=demo_env);
  env_shuffle := λ _ x, x;
  env_shuffle_perm := λ _ x, Permutation_refl x;
  env_exp := env_exp (Env:=demo_env);
  env_client := env_client (Env:=demo_env);
  env_receipt := λ _ _ h, Ok (Some (ch_receipt ch h));
  env_transfer := λ _ _ h, Ok (Some (ch_transfer ch h));
  env_staking_info := env_staking_info (Env:=demo_env);
  env_delegator_share := env_delegator_share (Env:=demo_env);
  env_staking_infos := env_staking_infos (Env:=demo_env);
  env_erc20TransferTopic := env_erc20TransferTopic (Env:=demo_env);
  env_addressTopic := env_addressTopic (Env:=demo_env);
  env_topicAddress := env_topicAddress (Env:=demo_env);
  env_keccak256 := env_keccak256 (Env:=demo_env);
  env_sig_to_address := env_sig_to_address (Env:=demo_env);
  env_is_hex_address := env_is_hex_address (Env:=demo_env);
  env_pubkey_address := env_pubkey_address (Env:=demo_env);
  env_vrf_verify := env_vrf_verify (Env:=demo_env);
  env_admission := env_admission (Env:=demo_env);
  env_execution_plan := env_execution_plan (Env:=demo_env);
  env_evidence := env_evidence (Env:=demo_env);
  env_snapshot := env_snapshot (Env:=demo_env);
  env_evidence_valid := env_evidence_valid (Env:=demo_env);
  env_block_number := λ _ _, Ok 12;
  env_block := λ _ _ num, Ok (ch_txs ch num, num * second);
  env_filter_logs := λ _ _ first last, Ok (concat (map (ch_logs ch) (blocks_from first last)));
  env_staking_page := env_staking_page (Env:=demo_env);
  env_node_staking_log := env_node_staking_log (Env:=demo_env);
  env_delegated_staking_log := parse;
  env_is_hex_hash := env_is_hex_hash (Env:=demo_env);
  env_unicode := env_unicode (Env:=demo_env);
  env_float64_text := env_float64_text (Env:=demo_env);
  env_order := env_order (Env:=demo_env);
  env_order_perm := env_order_perm (Env:=demo_env);
  env_sample := env_sample (Env:=demo_env);
  env_sample_range := env_sample_range (Env:=demo_env);
  env_sample_weighted := env_sample_weighted (Env:=demo_env)
|}.

(** Block 11 deposits 5 and delegates 7 to a node. *)
Definition demo_node_row : Node :=
  mkNode 1 "base" "0xn" NodeStatusAvailable "RTX" 24 f64_one 3 0 0 0 400 f64_one None false 10 None None.
Definition demo_log : ReceiptLog := mkReceiptLog "0xDelegatedStaking" [] [] "0xt1" 11 0.
Definition demo_chain : Chain :=
  mkChain (λ num, if num =? 11 then ["0xt1"] else []) (λ _, [])
    (λ _, mkReceipt 1 [demo_log]) (λ h, mkTransactionTransfer h "0xalice" (Some "0xdeposit") (Some 5) []).
Definition demo_chain_env (fault : nat → bool) : Env :=
  chain_env fault demo_chain (λ _, Some (DelegatorStaked "0xbob" "0xn" 7)).
Definition demo_chain_world : World :=
  mkWorld (empty_db <| db_nodes := [demo_node_row] |>)
    (empty_caches <| c_delegations := newDelegationCaches ["base"] |>) 0 0.
Definition demo_scan (fault : nat → bool) (w : World) : World :=
  snd (processNodeNetworkBlockRange (E:=demo_chain_env fault) "base" w).
Definition no_fault : nat → bool := λ _, false.

Lemma demo_mirrors : mirrors demo_chain_world.
Proof.
  intros network c Hc. exists ∅. assert (c = emptyCache) as ->.
  { change ((<["base" := emptyCache]> ∅ : gmap string delegationCache) !! network = Some c) in Hc. apply lookup_insert_Some in Hc as [[_ <-]|[_ Hc]]; [done|].
    by rewrite lookup_empty in Hc. }
  split; [apply refines_empty|]. intros. by rewrite lookup_empty.
Qed.

Lemma delegations_mirror_witness :
  let w' := demo_scan no_fault demo_chain_world in
  mirrors w' ∧ delegated "0xbob" "0xn" "base" (db_delegations (w_db w')) = Some 7.
Proof.
  split; [|vm_compute; reflexivity].
  apply (delegations_mirror (E:=demo_chain_env no_fault) "base" demo_chain_world demo_mirrors).
Defined.

Definition demo_blockchain : SystemBlockchainConfig :=
  match Blockchains demo_config with (_, cfg) :: _ => cfg | [] => mkSystemBlockchainConfig "" 0 0 [] 0 0 "" "" 0 0 0 0 0 0 end.

Lemma demo_answers fault : answers (E:=demo_chain_env fault) "base" demo_chain.
Proof. split; simpl; intros; congruence. Qed.


(** A block whose only transaction slashes the delegation of 7, scanned for the
    second time. *)
Definition slash_chain : Chain :=
  mkChain (λ num, if num =? 11 then ["0xt1"] else []) (λ _, [])
    (λ _, mkReceipt 1 [demo_log]) (λ h, mkTransactionTransfer h "0xrelay" None None []).
Definition slash_env : Env := chain_env no_fault slash_chain (λ _, Some (DelegatorSlashed "0xbob" "0xn" 7 "0xt1" 11 0)).
Definition slashed_world : World :=
  empty_world <| w_db := empty_db <| db_delegations := [mkDelegation "0xbob" "0xn" 7 true "base"] |>
                                  <| db_cursors := {["base" := 10]} |> |>.


(** A deposit can be missing from the cached balance for as long as the
    process runs.  Booking first commits the event and then loads the account;
    when the load fails, the block is scanned again, but a deposit whose event
    exists is skipped without an effect.  On a chain with one deposit of 5 and one
    failing access the cursor passes the deposit, the tables owe 5, and the
    account, once loaded, has a cached balance of 0. *)
Theorem deposit_missing_from_cache :
  (∀ (E : Env) h f a network w, recorded network h w →
     wp (bookDeposit h f a network) (λ _ w', w_db w' = w_db w ∧ w_cache w' = w_cache w) w) ∧
  (let scan := demo_scan (Nat.eqb 20) in
   let w := scan (scan demo_chain_world) in
   let w' := snd (getRelayAccountFromCache (E:=demo_chain_env (Nat.eqb 20)) "0xalice" w) in
   db_cursors (w_db w) !! "base" = Some 12 ∧ ledger (w_db w) "0xalice" = 5 ∧
   c_accounts (w_cache w') !! "0xalice" = Some 0).
Proof.
  split; [|vm_compute; done]. intros E h f a network w (e & Hin & He)%elem_of_map_iff.
  unfold bookDeposit, GetRelayAccountDepositEvent. fold (depositReason network h). wp_step.
  assert (Hf : ∃ x, find_first (λ x, String.eqb (e_Reason x) (depositReason network h)) (db_events (w_db w)) = Some x).
  { destruct (find_first _ _) as [x|] eqn:Hx; [by exists x|]. pose proof (find_first_None _ _ e Hx Hin) as Hn.
    simpl in Hn. rewrite <- He in Hn. by rewrite String.eqb_refl in Hn. }
  destruct Hf as [x Hx]. apply wp_firstOrNone; [done| |]; rewrite Hx; by wp_step.
Qed.
End ChainProcessor.
