(* ===== verification/TaskStatus.v ===== *)
(** * The life of a task

    Every status change of an inference task (src/service/task_status.go): the
    guards, the row update that requires the previous status, the ledger events,
    the work on the node, the emitted event, and the commit functions at the end
    of the transaction.  Metrics, logs, traces and execution snapshots are left
    out. *)

From Stdlib Require Import Ascii.
From S2P Require Import Prelude Models Config Delegation VestingSchedule Deadline MaxStaking.
From S2P Require Import Store Statistic Ledger LedgerCoherence LedgerSync Vesting Qos.
From S2P Require Import NodeState.

Module TaskStatus.
Import Deadline Ledger LedgerCoherence LedgerSync Vesting Qos NodeState.

(** ** Definitions *)

(** [VersionNumbers], src/models/inference_task.go 173-191; a malformed version
    ends the process. *)
Definition VersionNumbers (task : InferenceTask) : result (Z * Z * Z) :=
  match SplitN "."%char (t_TaskVersion task) 4 with
  | [v0; v1; v2] =>
      match ParseUint v0, ParseUint v1, ParseUint v2 with
      | Some major, Some minor, Some patch => Ok (major, minor, patch)
      | _, _, _ => Err (ErrPanic "Task version is invalid")
      end
  | _ => Err (ErrPanic "Task version is invalid")
  end.

(** [isNodeVersionValidForTask], src/service/task_status.go 90-93 *)
Definition isNodeVersionValidForTask (node : Node) (version : Z * Z * Z) : bool :=
  let '(major, minor, patch) := version in
  (n_MajorVersion node =? major) &&
  ((minor <? n_MinorVersion node) || ((n_MinorVersion node =? minor) && (patch <=? n_PatchVersion node))).

(** [shouldUpdateNodeQosScoreOnAbort], src/service/task_status.go 581-585 *)
Definition shouldUpdateNodeQosScoreOnAbort (task : InferenceTask) : bool :=
  bool_decide (is_Some (t_QOSScore task)) &&
  negb (bool_decide (t_AbortReason task = TaskAbortCreatorValidationTimeout)) &&
  negb (bool_decide (t_AbortReason task = TaskAbortResultUploadTimeout)).

(** A payment of [SetTaskStatusEndSuccess], src/service/task_status.go 743-748 *)
Record taskPayment := mkTaskPayment {
  pm_taskIDCommitment : string;
  pm_address : string;
  pm_payment : Z;
  pm_network : string
}.

(** The loop over the valid tasks of a group, src/service/task_status.go 772-786:
    [QuoRem] truncates, and the sum of the remainders goes to the last task. *)
Fixpoint splitGroupPayments (network_of : string → string) (totalScore totalRem : Z)
    (validTasks : list InferenceTask) : list taskPayment :=
  match validTasks with
  | [] => []
  | t :: rest =>
      let product := t_TaskFee t * wrap_i64 (default 0 (t_QOSScore t)) in
      let payment := Z.quot product totalScore in
      let totalRem := totalRem + Z.rem product totalScore in
      let payment := match rest with [] => payment + totalRem | _ :: _ => payment end in
      mkTaskPayment (t_TaskIDCommitment t) (t_SelectedNode t) payment (network_of (t_SelectedNode t))
        :: splitGroupPayments network_of totalScore totalRem rest
  end.

(** The tasks of a group that are paid, src/service/task_status.go 756-763 *)
Definition validGroupTask (t : InferenceTask) : bool :=
  bool_decide (t_Status t = TaskGroupValidated) || bool_decide (t_Status t = TaskEndGroupRefund).

Definition groupScore (tasks : list InferenceTask) : Z :=
  wrap_u64 (sumZ (λ t, default 0 (t_QOSScore t)) tasks).

Section task.
Context {E : Env}.

(** [AddTotalTask], src/models/network.go 26-42: the first insertion stores the
    zero value of the counter. *)
Definition AddTotalTask : M unit :=
  db_write (λ d, d <| db_total_tasks :=
    Some (match db_total_tasks d with Some n => n + 1 | None => 0 end) |>).

(** [Create], src/models/inference_task.go 208-215: the commitment column has a
    unique index. *)
Definition createTaskRow (task : InferenceTask) : M InferenceTask :=
  db_exec (λ d,
    if exists_where (λ t, String.eqb (t_TaskIDCommitment t) (t_TaskIDCommitment task)) (db_tasks d)
    then Err ErrDuplicatedKey
    else
      let t := task <| t_ID := next_id t_ID (db_tasks d) |> in
      Ok (t, d <| db_tasks := db_tasks d ++ [t] |>)).

(** [CreateTask], src/service/task_status.go 23-64 *)
Definition CreateTask (task : InferenceTask) : M InferenceTask :=
  priced ← ask (λ n, env_admission n task);
  let task := task <| t_Priority := fst priced |> <| t_Pricing := snd priced |> in
  let task := match GetQueueDeadline env_cfg task with
              | Some deadline => task <| t_DeadlineAt := Some deadline |>
              | None => task
              end in
  balance ← getRelayAccountFromCache (t_Creator task);
  if balance <? t_TaskFee task then fail ErrInsufficientRelayAccount
  else
    task' ← transaction (
      task' ← createTaskRow task;
      AddTotalTask;;
      createRelayAccountEvent RelayAccountEventTypeTaskPayment
        (reason2 RelayAccountEventTypeTaskPayment (t_TaskIDCommitment task)) (t_Creator task) (t_TaskFee task);;
      mret task');
    cache_write (λ c, c <| c_accounts := alter (λ b, b - t_TaskFee task) (t_Creator task) (c_accounts c) |>);;
    mret task'.

(** [MarkTaskDelivered], src/service/task_status.go 66-88 *)
Definition MarkTaskDelivered (task : InferenceTask) : M InferenceTask :=
  if bool_decide (is_Some (t_DeliveredTime task)) then mret task
  else
    deliveredTime ← now;
    let p t := (t_ID t =? t_ID task) && negb (bool_decide (is_Some (t_DeliveredTime t))) in
    affected ← db_exec (λ d, Ok (exists_where p (db_tasks d),
      d <| db_tasks := update_where p (λ t, t <| t_DeliveredTime := Some deliveredTime |>) (db_tasks d) |>));
    mret (if (affected : bool) then task <| t_DeliveredTime := Some deliveredTime |> else task).

(** The row values of a started task, src/service/task_status.go 152-165 *)
Definition startValues (node : Node) (plan : ExecutionPlan) (startTime : Time) (timeout : Z)
    (capture : bool) (t : InferenceTask) : InferenceTask :=
  let t := t <| t_SelectedNode := n_Address node |> <| t_StartTime := Some startTime |>
             <| t_Timeout := timeout |> <| t_Status := TaskStarted |>
             <| t_ModelSwtiched := ep_ModelSwitched plan |>
             <| t_DeadlineAt := Some (time_add startTime (seconds timeout)) |>
             <| t_ExecutionGPU := n_GPUName node |> <| t_ExecutionGPUVRAM := n_GPUVram node |>
             <| t_ExecutionModelFileHashes := ep_ModelFileHashes plan |> in
  if capture then t <| t_EstimatedCompletionTime := Some (time_add startTime (ep_PredictedExecution plan)) |>
  else t.

(** [SetTaskStatusStarted], src/service/task_status.go 95-214 *)
Definition SetTaskStatusStarted (task : InferenceTask) (originNode : Node) : M (InferenceTask * Node) :=
  if negb (bool_decide (t_Status task = TaskQueued)) then fail errWrongTaskStatus
  else
    node ← nodeSync originNode;
    t ← now;
    if IsHealthExcluded node t then fail ErrNodeHealthExcluded
    else
      version ← lift (VersionNumbers task);
      if negb (isNodeVersionValidForTask node version)
      then fail (ErrMsg "node version is not compatible with task")
      else
        plan ← ask (λ n, env_execution_plan n task node);
        startTime ← now;
        let capture := UsesRelayOwnedTimeouts (t_TaskType task) in
        let timeout := if capture then ep_ComputedTimeout plan else t_Timeout task in
        started ← transaction (
          task' ← taskUpdateStatus task (startValues node plan startTime timeout capture);
          node' ← nodeStartTask node (t_TaskIDCommitment task);
          emitEvent (TaskStartedEvent (t_TaskIDCommitment task) (n_Address node));;
          mret (task', node'));
        mret started.

(** [checkTaskSelectedNode], src/service/task_status.go 216-225 *)
Definition checkTaskSelectedNode (task : InferenceTask) : M Node :=
  node ← GetNodeByAddress (t_SelectedNode task);
  if bool_decide (n_CurrentTaskIDCommitment node = Some (t_TaskIDCommitment task)) then mret node
  else fail ErrWrongNodeCurrentTask.

(** [SetTaskStatusScoreReady], src/service/task_status.go 243-282 *)
Definition SetTaskStatusScoreReady (task : InferenceTask) : M InferenceTask :=
  if negb (bool_decide (t_Status task = TaskStarted)) then fail errWrongTaskStatus
  else
    _ ← checkTaskSelectedNode task;
    scoreReadyTime ← now;
    deadlineAt ← lift (getTaskTransitionDeadline env_cfg task TaskScoreReady scoreReadyTime);
    transaction (
      task' ← taskUpdateStatus task (λ t, t <| t_Status := TaskScoreReady |> <| t_Score := t_Score task |>
        <| t_ExecutionDType := t_ExecutionDType task |> <| t_ScoreReadyTime := Some scoreReadyTime |>
        <| t_DeadlineAt := deadlineAt |>);
      emitEvent (TaskScoreReadyEvent (t_TaskIDCommitment task) (t_SelectedNode task) (t_Score task));;
      mret task').

(** [SetTaskStatusErrorReported], src/service/task_status.go 284-319 *)
Definition SetTaskStatusErrorReported (task : InferenceTask) : M InferenceTask :=
  if negb (bool_decide (t_Status task = TaskStarted)) then fail errWrongTaskStatus
  else
    _ ← checkTaskSelectedNode task;
    scoreReadyTime ← now;
    deadlineAt ← lift (getTaskTransitionDeadline env_cfg task TaskErrorReported scoreReadyTime);
    transaction (
      task' ← taskUpdateStatus task (λ t, t <| t_Status := TaskErrorReported |>
        <| t_TaskError := t_TaskError task |> <| t_ScoreReadyTime := Some scoreReadyTime |>
        <| t_DeadlineAt := deadlineAt |>);
      emitEvent (TaskErrorReportedEvent (t_TaskIDCommitment task) (t_SelectedNode task) (t_TaskError task));;
      mret task').

(** [SetTaskStatusValidated], src/service/task_status.go 321-359 *)
Definition SetTaskStatusValidated (task : InferenceTask) : M InferenceTask :=
  if negb (bool_decide (t_Status task = TaskScoreReady)) then fail errWrongTaskStatus
  else
    _ ← checkTaskSelectedNode task;
    validatedTime ← now;
    deadlineAt ← lift (getTaskTransitionDeadline env_cfg task TaskValidated validatedTime);
    transaction (
      task' ← taskUpdateStatus task (λ t, t <| t_Status := TaskValidated |> <| t_TaskID := t_TaskID task |>
        <| t_ValidatedTime := Some validatedTime |> <| t_DeadlineAt := deadlineAt |>);
      emitEvent (TaskValidatedEvent (t_TaskIDCommitment task) (t_SelectedNode task));;
      mret task').

(** The score of a validated or aborted task goes to its node,
    src/service/task_status.go 387-391, 510-514 and 649-653 *)
Definition scoreNode (task : InferenceTask) (node : Node) : M Node :=
  match t_QOSScore task with
  | Some score => updateNodeQosScore node (wrap_u64 score)
  | None => mret node
  end.

(** [SetTaskStatusGroupValidated], src/service/task_status.go 361-417 *)
Definition SetTaskStatusGroupValidated (task : InferenceTask) : M InferenceTask :=
  if negb (bool_decide (t_Status task = TaskScoreReady)) then fail errWrongTaskStatus
  else
    node ← checkTaskSelectedNode task;
    validatedTime ← now;
    deadlineAt ← lift (getTaskTransitionDeadline env_cfg task TaskGroupValidated validatedTime);
    transaction (
      task' ← taskUpdateStatus task (λ t, t <| t_Status := TaskGroupValidated |> <| t_TaskID := t_TaskID task |>
        <| t_ValidatedTime := Some validatedTime |> <| t_QOSScore := t_QOSScore task |>
        <| t_DeadlineAt := deadlineAt |>);
      _ ← scoreNode task node;
      emitEvent (TaskValidatedEvent (t_TaskIDCommitment task) (t_SelectedNode task));;
      mret task').

(** [setTaskStatusEndInvalidatedWithEvidence], src/service/task_status.go 457-488 *)
Definition setTaskStatusEndInvalidatedWithEvidence (task : InferenceTask) (node : Node) (evidence : string)
    (evidenceComplete passiveSlashMode : bool) : M InferenceTask :=
  transaction (
    validatedTime ← now;
    task' ← taskUpdateStatus task (λ t, t <| t_Status := TaskEndInvalidated |> <| t_TaskID := t_TaskID task |>
      <| t_ValidatedTime := Some validatedTime |> <| t_QOSScore := Some 0 |> <| t_DeadlineAt := None |>);
    emitEvent (TaskEndInvalidatedEvent (t_TaskIDCommitment task) (t_SelectedNode task));;
    (if passiveSlashMode then
       createPendingSlash (t_TaskIDCommitment task) node evidence evidenceComplete;;
       _ ← nodeFinishTask node; mret tt
     else
       _ ← SlashNode node (t_TaskIDCommitment task); mret tt);;
    mret task').

(** [passiveSlashMode] of the configuration. *)
Definition passiveSlashMode : bool := default false (Task_PassiveSlashMode env_cfg).

(** The statuses an invalidation accepts, src/service/task_status.go 421 and
    445 *)
Definition invalidatable (status : TaskStatus) : bool :=
  bool_decide (status = TaskScoreReady) || bool_decide (status = TaskEndAborted) ||
  bool_decide (status = TaskErrorReported).

(** [SetTaskStatusEndInvalidatedWithEvidence], src/service/task_status.go 439-455 *)
Definition SetTaskStatusEndInvalidatedWithEvidence (task : InferenceTask) (evidence : string)
    (evidenceComplete : bool) : M InferenceTask :=
  if negb (invalidatable (t_Status task)) then fail errWrongTaskStatus
  else
    node ← checkTaskSelectedNode task;
    setTaskStatusEndInvalidatedWithEvidence task node evidence evidenceComplete passiveSlashMode.

(** [SetTaskStatusEndInvalidated], src/service/task_status.go 419-437 *)
Definition SetTaskStatusEndInvalidated (task : InferenceTask) : M InferenceTask :=
  if negb (invalidatable (t_Status task)) then fail errWrongTaskStatus
  else
    node ← checkTaskSelectedNode task;
    built ← ask (λ n, env_evidence n task node);
    setTaskStatusEndInvalidatedWithEvidence task node (fst built) (snd built) passiveSlashMode.

(** [SetTaskStatusEndGroupRefund], src/service/task_status.go 490-579 *)
Definition SetTaskStatusEndGroupRefund (task : InferenceTask) : M InferenceTask :=
  if negb (bool_decide (t_Status task = TaskScoreReady)) then fail errWrongTaskStatus
  else
    node ← checkTaskSelectedNode task;
    transaction (
      commitFunc ← refundTaskPaymentToRelayAccount (t_TaskIDCommitment task) (t_Creator task) (t_TaskFee task);
      node ← scoreNode task node;
      validatedTime ← now;
      task' ← taskUpdateStatus task (λ t, t <| t_Status := TaskEndGroupRefund |> <| t_TaskID := t_TaskID task |>
        <| t_ValidatedTime := Some validatedTime |> <| t_QOSScore := t_QOSScore task |> <| t_DeadlineAt := None |>);
      node ← ApplyHealthBoost node;
      _ ← nodeFinishTask node;
      emitEvent (TaskEndGroupRefundEvent (t_TaskIDCommitment task) (t_SelectedNode task));;
      commitFunc;;
      mret task').

(** The abort reasons of a missed deadline, src/service/task_status.go 620-622 *)
Definition timeoutReason (r : TaskAbortReason) : bool :=
  bool_decide (r = TaskAbortTimeout) || bool_decide (r = TaskAbortCreatorValidationTimeout) ||
  bool_decide (r = TaskAbortResultUploadTimeout).

(** The node of an aborted task, src/service/task_status.go 614-630: a task whose
    node works on something else is aborted without it, unless a deadline was
    missed. *)
Definition abortedNode (task : InferenceTask) : M (option Node) :=
  if String.eqb (t_SelectedNode task) "" then mret None
  else
    checked ← try_ (checkTaskSelectedNode task);
    match checked with
    | Ok node => mret (Some node)
    | Err e =>
        if bool_decide (e = ErrWrongNodeCurrentTask) then
          if timeoutReason (t_AbortReason task) then fail e else mret None
        else fail e
    end.

(** Who gets the fee, src/service/task_status.go 632-642 *)
Definition settleAborted (task : InferenceTask) (node : option Node) : M (M unit) :=
  if bool_decide (t_AbortReason task = TaskAbortCreatorValidationTimeout) then
    match node with
    | None => fail (ErrMsg "creator validation timeout task has no active selected node")
    | Some node => sendTaskIncome (t_TaskIDCommitment task) (n_Address node) (t_TaskFee task)
                     (t_TaskType task) (n_Network node)
    end
  else refundTaskPaymentToRelayAccount (t_TaskIDCommitment task) (t_Creator task) (t_TaskFee task).

(** What happens to the node, src/service/task_status.go 648-692 *)
Definition finishAborted (task : InferenceTask) (node : Node) : M unit :=
  node ← (if shouldUpdateNodeQosScoreOnAbort task then scoreNode task node else mret node);
  let penalizeExecutionTimeout := bool_decide (t_AbortReason task = TaskAbortTimeout) &&
    (bool_decide (t_Status task = TaskStarted) || bool_decide (t_Status task = TaskParametersUploaded)) in
  let penalizeResultUploadTimeout := bool_decide (t_AbortReason task = TaskAbortResultUploadTimeout) in
  node ← (if penalizeExecutionTimeout || penalizeResultUploadTimeout then ApplyHealthPenalty node else mret node);
  _ ← nodeFinishTask node;
  mret tt.

(** [SetTaskStatusEndAborted], src/service/task_status.go 587-729 *)
Definition SetTaskStatusEndAborted (task : InferenceTask) (aboutIssuer : string) : M InferenceTask :=
  if bool_decide (t_Status task = TaskEndAborted) then mret task
  else if terminal (t_Status task) then fail errWrongTaskStatus
  else
    transaction (
      node ← abortedNode task;
      commitFunc ← settleAborted task node;
      task' ← taskUpdateStatus task (λ t, t <| t_Status := TaskEndAborted |> <| t_TaskID := t_TaskID task |>
        <| t_AbortReason := t_AbortReason task |> <| t_ValidatedTime := t_ValidatedTime task |>
        <| t_QOSScore := t_QOSScore task |> <| t_DeadlineAt := None |>);
      (match node with Some node => finishAborted task node | None => mret tt end);;
      emitEvent (TaskEndAbortedEvent (t_TaskIDCommitment task) aboutIssuer (t_AbortReason task) (t_Status task));;
      commitFunc;;
      mret task').

(** The payments of a finished task, src/service/task_status.go 738-795: the
    whole fee to its node, or the fees of the group in proportion to the
    scores.  [QuoRem] by a zero score panics. *)
Definition taskPayments (task : InferenceTask) (node : Node) : M (TaskStatus * list taskPayment) :=
  tasks ← GetTaskGroupByTaskID (t_TaskID task);
  if (1 <? Z.of_nat (length tasks)) then
    let validTasks := select_where validGroupTask tasks in
    nodes ← db_read (λ d, select_where (λ n, bool_decide (n_Address n ∈ map t_SelectedNode validTasks)) (db_nodes d));
    let network_of a := match find_first (λ n, String.eqb (n_Address n) a) (rev nodes) with
                        | Some n => n_Network n | None => "" end in
    let totalScore := groupScore validTasks in
    if (totalScore =? 0) && negb (bool_decide (length validTasks = 0%nat))
    then fail (ErrPanic "division by zero")
    else mret (TaskEndGroupSuccess, splitGroupPayments network_of totalScore 0 validTasks)
  else
    mret (TaskEndSuccess, [mkTaskPayment (t_TaskIDCommitment task) (t_SelectedNode task) (t_TaskFee task)
                             (n_Network node)]).

(** The commit functions of all payments, in order. *)
Fixpoint sendPayments (taskType : TaskType) (payments : list taskPayment) : M (list (M unit)) :=
  match payments with
  | [] => mret []
  | p :: rest =>
      commitFunc ← sendTaskIncome (pm_taskIDCommitment p) (pm_address p) (pm_payment p) taskType (pm_network p);
      commitFuncs ← sendPayments taskType rest;
      mret (commitFunc :: commitFuncs)
  end.

(** [SetTaskStatusEndSuccess], src/service/task_status.go 731-871 *)
Definition SetTaskStatusEndSuccess (task : InferenceTask) : M InferenceTask :=
  node ← checkTaskSelectedNode task;
  paid ← taskPayments task node;
  let '(status, payments) := paid in
  transaction (
    commitFuncs ← sendPayments (t_TaskType task) payments;
    uploadedTime ← now;
    task' ← taskUpdateStatus task (λ t, t <| t_Status := status |>
      <| t_ResultUploadedTime := Some uploadedTime |> <| t_DeadlineAt := None |>);
    node ← ApplyHealthBoost node;
    _ ← nodeFinishTask node;
    emitEvent (if bool_decide (status = TaskEndSuccess)
               then TaskEndSuccessEvent (t_TaskIDCommitment task) (t_SelectedNode task)
               else TaskEndGroupSuccessEvent (t_TaskIDCommitment task) (t_SelectedNode task));;
    for_each commitFuncs id;;
    mret task').
End task.

End TaskStatus.
