(* ===== verification/Payments.v ===== *)
(** * Paying for tasks

    How the fee of a finished task is shared out
    (src/service/relay_account.go 910-1018) and how the fee of a validation group
    is divided among its members (src/service/task_status.go 744-790). *)

From S2P Require Import Prelude Models Config Delegation VestingSchedule Deadline MaxStaking.
From S2P Require Import Store Statistic Ledger LedgerCoherence LedgerSync Vesting Qos NodeState TaskStatus.

Module Payments.
Import Delegations Statistic Ledger LedgerCoherence LedgerSync NodeState TaskStatus.

(** ** The members of a group *)

Definition score (t : InferenceTask) : Z := default 0 (t_QOSScore t).

(** The members have the same fee and scores that add up to [S]. *)
Record group_of (fee S : Z) (tasks : list InferenceTask) : Prop := {
  gr_fee : ∀ t, t ∈ tasks → t_TaskFee t = fee;
  gr_score : ∀ t, t ∈ tasks → 0 ≤ score t;
  gr_total : sumZ score tasks = S;
  gr_range : 0 < S < 2 ^ 63
}.

Lemma score_le tasks t : (∀ t, t ∈ tasks → 0 ≤ score t) → t ∈ tasks → score t ≤ sumZ score tasks.
Proof. intros H Ht. by apply sumZ_elem_le. Qed.

(** The division with the carried remainders. *)
Lemma split_total network_of S rem tasks :
  0 < S → (∀ t, t ∈ tasks → 0 ≤ t_TaskFee t ∧ 0 ≤ score t < 2 ^ 63) → tasks ≠ [] →
  sumZ pm_payment (splitGroupPayments network_of S rem tasks) =
  rem + sumZ (λ t, t_TaskFee t * score t / S + (t_TaskFee t * score t) mod S) tasks.
Proof.
  intros HS. revert rem. induction tasks as [|t tasks IH]; intros rem Ht Hne; [done|]. cbn [splitGroupPayments]. rewrite !sumZ_cons.
  destruct (Ht t ltac:(set_solver)) as [Hf Hs]. fold (score t). rewrite (wrap_i64_small (score t)) by (unfold min_i64, max_i64; lia).
  assert (Hp : 0 ≤ t_TaskFee t * score t) by nia.
  rewrite Z.quot_div_nonneg, Z.rem_mod_nonneg by lia. destruct tasks as [|u tasks]; [cbn; lia|].
  cbn [pm_payment]. rewrite IH; [lia| |done]. intros x Hx. apply Ht. set_solver.
Qed.

Lemma division_sum fee S tasks :
  0 < S → S * sumZ (λ t, fee * score t / S) tasks + sumZ (λ t, (fee * score t) mod S) tasks = fee * sumZ score tasks.
Proof.
  intros HS. rewrite <- !sumZ_mul, <- sumZ_plus. apply sumZ_ext. intros t _. symmetry. apply Z.div_mod. lia.
Qed.

Lemma split_addresses network_of S rem tasks :
  map pm_address (splitGroupPayments network_of S rem tasks) = map t_SelectedNode tasks.
Proof. revert rem. induction tasks as [|t tasks IH]; intros rem; [done|]. cbn [splitGroupPayments map]. by rewrite IH. Qed.

Lemma split_nonneg network_of S rem tasks p :
  0 < S → 0 ≤ rem → (∀ t, t ∈ tasks → 0 ≤ t_TaskFee t ∧ 0 ≤ score t < 2 ^ 63) →
  p ∈ splitGroupPayments network_of S rem tasks → 0 ≤ pm_payment p.
Proof.
  intros HS. revert rem. induction tasks as [|t tasks IH]; intros rem Hr Ht; cbn [splitGroupPayments]; [set_solver|].
  destruct (Ht t ltac:(set_solver)) as [Hf Hs]. fold (score t). rewrite (wrap_i64_small (score t)) by (unfold min_i64, max_i64; lia).
  assert (Hp : 0 ≤ t_TaskFee t * score t) by nia. rewrite Z.quot_div_nonneg, Z.rem_mod_nonneg by lia.
  pose proof (Z.mod_pos_bound (t_TaskFee t * score t) S HS). pose proof (Z.div_pos (t_TaskFee t * score t) S Hp HS).
  intros [->|Hin]%elem_of_cons; [destruct tasks; simpl; lia|]. eapply IH; [|intros x Hx; apply Ht; set_solver|exact Hin]. lia.
Qed.

(** C10: a validation group is paid its fee and the leftovers of the division on
    top: with equal fees and scores adding up to [S] the payments sum up to the
    fee plus [(S - 1)] times a [1/S]-th of the remainders, because the remainders
    of [fee * score / S] are added without dividing them by [S].  No payment is
    negative, every member is paid to its node in order, and the excess is less
    than [S] for each member. *)
Theorem group_payment_total network_of fee S tasks :
  group_of fee S tasks → 0 ≤ fee →
  let payments := splitGroupPayments network_of (groupScore tasks) 0 tasks in
  let total := sumZ pm_payment payments in
  map pm_address payments = map t_SelectedNode tasks ∧
  (∀ p, p ∈ payments → 0 ≤ pm_payment p) ∧
  S * (total - fee) = (S - 1) * sumZ (λ t, (fee * score t) mod S) tasks ∧
  fee ≤ total < fee + S * Z.of_nat (length tasks).
Proof.
  intros [Hfee Hsc Htot HS] Hf. assert (Hg : groupScore tasks = S).
  { unfold groupScore. change (wrap_u64 (sumZ score tasks) = S). rewrite Htot. apply wrap_u64_small. unfold max_u64. lia. }
  assert (Hbounds : ∀ t, t ∈ tasks → 0 ≤ t_TaskFee t ∧ 0 ≤ score t < 2 ^ 63).
  { intros t Ht. rewrite (Hfee t Ht). pose proof (score_le tasks t Hsc Ht). specialize (Hsc t Ht). lia. }
  assert (Hne : tasks ≠ []) by (intros ->; cbn in Htot; lia).
  intros payments total. split_and!; [apply split_addresses|intros p; apply split_nonneg; [rewrite Hg|..]; (lia || done)|..].
  all: set (R := sumZ (λ t, (fee * score t) mod S) tasks) in *.
  all: assert (Ht : total = sumZ (λ t, fee * score t / S) tasks + R) by
    (unfold total, payments; rewrite Hg, split_total by (done || lia); rewrite (sumZ_ext _ (λ t, fee * score t / S + (fee * score t) mod S)),
       sumZ_plus by (intros t Hin; by rewrite (Hfee t Hin)); unfold R; lia).
  all: assert (Hx : S * sumZ (λ t, fee * score t / S) tasks + R = fee * S) by
    (unfold R; rewrite division_sum, Htot by lia; done).
  - lia.
  - assert (0 ≤ R) by (apply sumZ_nonneg; intros t _; apply Z.mod_pos_bound; lia). nia.
  - assert (R ≤ (S - 1) * Z.of_nat (length tasks)).
    { unfold R. clear -HS. induction tasks as [|t tasks IH]; [cbn; lia|]. rewrite sumZ_cons. cbn [length].
      pose proof (Z.mod_pos_bound (fee * score t) S ltac:(lia)). lia. }
    destruct tasks as [|t tasks]; [done|]. cbn [length] in *. nia.
Qed.

(** A fee of 100 for scores 10, 5 and 2: 132 are paid. *)
Definition demo_scored (id : Z) (node : string) (q : Z) : InferenceTask :=
  mkTask id "0x" "0xc" "" "" TaskEndGroupRefund TaskTypeSD "3.0.0" "" [] 100 100 4 "" 0 100 0 TaskAbortReasonNone
    TaskErrorNone "" (Some q) node "" 0 "" false None None None None None None None None [] [] [] false unpriced.
Definition demo_members : list InferenceTask := [demo_scored 1 "0xa" 10; demo_scored 2 "0xb" 5; demo_scored 3 "0xc" 2].

Lemma group_payment_total_witness :
  let payments := splitGroupPayments (λ _, "base") (groupScore demo_members) 0 demo_members in
  map pm_address payments = ["0xa"; "0xb"; "0xc"] ∧ 17 * (sumZ pm_payment payments - 100) = 16 * 34.
Proof.
  destruct (group_payment_total (λ _, "base") 100 17 demo_members) as (Ha & _ & Hs & _); [|lia|split; [exact Ha|exact Hs]].
  split; [| |reflexivity|lia]; intros t Ht; repeat (apply elem_of_cons in Ht as [->|Ht]; [vm_compute; done|]); set_solver.
Defined.

(** ** The income of one task *)

Section income.
Context {E : Env}.

Lemma insert_events_appends es d u d' :
  insert_events es d = Ok (u, d') → ∃ evs, db_events d' = db_events d ++ evs ∧ map pay_of evs = map pay_of es.
Proof.
  revert d. induction es as [|e es IH]; intros d; simpl.
  - intros [= _ <-]. exists []. by rewrite app_nil_r.
  - unfold insert_event. destruct (exists_where _ _); [done|]. intros (evs & He & Hp)%IH. simpl in He.
    rewrite <- app_assoc in He. eexists. split; [exact He|]. simpl. by rewrite Hp.
Qed.

(** The fees of the delegators of a node. *)
Lemma delegatorFees_nonneg total stakings fees d f :
  delegatorFees total stakings = Ok fees → 0 ≤ total → (∀ x, x ∈ stakings → 0 ≤ snd x) → (d, f) ∈ fees → 0 ≤ f.
Proof.
  unfold delegatorFees. set (T := sumZ snd stakings). destruct (T =? 0) eqn:HT; [done|]. intros Hfees Ht Hnn.
  assert (HT0 : 0 < T) by (pose proof (sumZ_nonneg snd stakings Hnn); lia).
  set (fee s := (total * s - (total * s) mod Z.abs T) / T) in *.
  assert (Hfee : ∀ s, 0 ≤ s → 0 ≤ fee s ∧ T * fee s ≤ total * s).
  { intros s Hs. unfold fee. rewrite Z.abs_eq by lia. replace (total * s - (total * s) mod T) with (total * s / T * T)
      by (pose proof (Z.div_mod (total * s) T); lia).
    rewrite Z.div_mul by lia. split; [apply Z.div_pos; nia|apply Z.mul_div_le; lia]. }
  assert (Hsum : T * sumZ snd (map (λ us, (us.1, fee us.2)) stakings) ≤ total * T).
  { replace (total * T) with (sumZ (λ x, total * snd x) stakings) by (unfold T; apply sumZ_mul).
    rewrite sumZ_map, <- sumZ_mul. apply sumZ_le. intros x Hx. by apply Hfee, Hnn. }
  assert (Hall : ∀ d' f', (d', f') ∈ map (λ us, (us.1, fee us.2)) stakings → 0 ≤ f').
  { intros d' f' (x & Hx & [= _ ->])%elem_of_map_iff. by apply Hfee, Hnn. }
  assert (Hle : sumZ snd (map (λ us, (us.1, fee us.2)) stakings) ≤ total) by (apply (Z.mul_le_mono_pos_l _ _ T); lia).
  destruct (map _ stakings) as [|[d0 f0] rest]; simplify_eq; [set_solver|].
  intros [[= -> ->]|Hin]%elem_of_cons; [|eapply (Hall d); set_solver]. specialize (Hall d0 f0 ltac:(set_solver)).
  rewrite sumZ_cons in Hle. cbn in Hle. lia.
Qed.

(** Percentages and stakes are in range. *)
Record income_ok (address network : string) (w : World) : Prop := {
  io_percent : 0 ≤ Dao_TaskFeeSharePercent env_cfg ≤ 100;
  io_share : 0 ≤ share_get (c_shares (w_cache w)) address network ≤ 100;
  io_stakes : ∀ c d s, c_delegations (w_cache w) !! network = Some c → getDelegationsOfNode c address !! d = Some s → 0 ≤ s
}.

(** What is written for a split. *)
Definition income_pays (taskIDCommitment address : string) (dao node : Z) (fees : list (string * Z)) : list pay_view :=
  map pay_of (incomeEvents taskIDCommitment address dao node fees).

Lemma wp_split address amount network (Q : result (Z * Z * Z * list (string * Z)) → World → Prop) w :
  (∀ e w', w_db w' = w_db w → Q (Err e) w') →
  (∀ dao node total fees w', w_db w' = w_db w → dao = amount * Dao_TaskFeeSharePercent env_cfg / 100 →
     dao + node + sumZ snd fees = amount →
     (0 ≤ amount → income_ok address network w → 0 ≤ dao ∧ 0 ≤ node ∧ ∀ d f, (d, f) ∈ fees → 0 ≤ f) →
     Q (Ok (dao, node, total, fees)) w') →
  wp (splitTaskIncome address amount network) Q w.
Proof.
  intros He Ho. unfold splitTaskIncome, GetDelegatorShare. set (dao := amount * _ / 100). wp_step. wp_step.
  assert (Hdao : 0 ≤ amount → income_ok address network w → 0 ≤ dao ≤ amount).
  { intros Ha [Hp _ _]. unfold dao. split; [apply Z.div_pos; nia|]. apply Z.div_le_upper_bound; nia. }
  assert (Hnone : ∀ w', w_db w' = w_db w → Q (Ok (dao, amount - dao, 0, [])) w').
  { intros w' Hd. apply Ho; [done|done|cbn; lia|]. intros Ha Hi. specialize (Hdao Ha Hi). split_and!; [lia|lia|set_solver]. }
  case_bool; [wp_step; by apply Hnone|]. wp_step. unfold GetDelegationsOfNode. wp_step. wp_step.
  destruct (c_delegations (w_cache w) !! network) as [c|] eqn:Hc; [|by apply He]. wp_step.
  case_bool; [wp_step; by apply Hnone|]. wp_step. apply wp_shuffle. intros l' Hl'. wp_step. wp_step.
  set (total := (amount - dao) * _ / 100). destruct (delegatorFees total l') as [fees|e] eqn:Ef; [|by apply He]. wp_step.
  assert (Hsum : sumZ snd fees = total).
  { eapply delegatorFees_sum; [exact Ef|]. intros ->. apply delegatorFees_cons in Ef. destruct l'; [|done].
    apply Permutation_nil_l in Hl'. symmetry in Hl'. by apply map_to_list_empty_iff in Hl'. }
  apply Ho; [done|done|lia|]. intros Ha Hi. specialize (Hdao Ha Hi). destruct Hi as [_ Hsh Hst].
  assert (Htot : 0 ≤ total ≤ amount - dao).
  { unfold total. split; [apply Z.div_pos; nia|]. apply Z.div_le_upper_bound; nia. }
  split_and!; [lia|lia|]. intros d f Hf. eapply delegatorFees_nonneg; [exact Ef|lia| |exact Hf].
  intros [d' s] Hx. rewrite Hl' in Hx. apply elem_of_map_to_list in Hx. by eapply Hst.
Qed.

Lemma frames_stats_events address node total network events taskType :
  frames (keeps db_events) (addNodeEarning address node total;; for_each events (addEventEarnings address network);;
    addNodeIncentive address (WeiToEther_float node) taskType).
Proof. keep_tac. Qed.

Lemma frames_load_events events :
  frames (keeps db_events) (map_m (λ event, getRelayAccountFromCache (e_Address event)) events).
Proof. keep_tac. Qed.

Lemma pays_amount (es es' : list RelayAccountEvent) : map pay_of es = map pay_of es' → sumZ e_Amount es = sumZ e_Amount es'.
Proof. intros H. apply (f_equal (sumZ py_Amount)) in H. by rewrite !sumZ_map in H. Qed.

(** C11: when the income of a task is booked, the events it adds share out exactly
    the payment: the DAO gets its percentage rounded down, the delegators and the
    node the rest, one event each; with percentages up to 100 and stakes that are
    not negative no share is negative, whatever the order in which the delegators
    are visited. *)
Theorem task_income_conserved taskIDCommitment address amount taskType network (w : World) :
  wp (sendTaskIncome taskIDCommitment address amount taskType network) (λ r w', is_ok r = true →
    ∃ events dao node fees, db_events (w_db w') = db_events (w_db w) ++ events ∧
      map pay_of events = income_pays taskIDCommitment address dao node fees ∧
      sumZ e_Amount events = amount ∧ dao = amount * Dao_TaskFeeSharePercent env_cfg / 100 ∧
      (0 ≤ amount → income_ok address network w → ∀ e, e ∈ events → 0 ≤ e_Amount e)) w.
Proof.
  unfold sendTaskIncome. wp_step. apply wp_split; [done|]. intros dao node total fees w1 Hd1 Hdao Hsum Hnn. wp_step.
  apply wp_stamp_all. intros stamped w2 Hs2 HF. destruct Hs2 as (_ & He2 & _).
  assert (Hpay : map pay_of stamped = income_pays taskIDCommitment address dao node fees).
  { unfold income_pays. clear -HF. induction HF as [|e e' es es' [t ->] _ IH]; [done|]. simpl. by rewrite IH. }
  clear HF. wp_step. eapply (wp_mono _ (λ r w3, is_ok r = true →
    ∃ events, db_events (w_db w3) = db_events (w_db w) ++ events ∧ map pay_of events = map pay_of stamped)).
  - apply wp_transaction; [done|]. wp_step. unfold createRelayAccountEvents. wp_step; [done|]. simpl.
    destruct (insert_events stamped (w_db w2)) as [[[] d]|e] eqn:Hi; [|done].
    apply insert_events_appends in Hi as (events & Hev & Hp). eapply wp_mono; [apply (frames_stats_events address node total network stamped taskType)|].
    unfold keeps. simpl. intros [[]|e] w3 H3; [|done]. split; [done|]. intros _. exists events. rewrite H3, Hev, He2, Hd1. done.
  - intros [[]|e] w3 H3; [|done]. destruct (H3 eq_refl) as (events & Hev & Hp). wp_step.
    eapply wp_mono; [apply (frames_load_events stamped)|]. unfold keeps. intros [bs|e] w4 H4; [|done]. wp_step. intros _.
    exists events, dao, node, fees. rewrite H4. rewrite Hpay in Hp. split_and!; [done|done| |done|].
    + rewrite (pays_amount _ _ Hp). fold (incomeEvents taskIDCommitment address dao node fees). rewrite incomeEvents_amount. lia.
    + intros Ha Hi e He. specialize (Hnn Ha Hi). apply (elem_of_map_2 pay_of) in He. rewrite Hp in He.
      unfold income_pays in He. apply elem_of_map_iff in He as (e' & He' & Heq). unfold pay_of in Heq. injection Heq as _ _ _ ->.
      unfold incomeEvents in He'. apply elem_of_app in He' as [(x & Hx & ->)%elem_of_map_iff|He']; [destruct x; by eapply Hnn|].
      repeat (apply elem_of_cons in He' as [->|He']; [simpl; lia|]). set_solver.
Qed.
End income.
End Payments.
