(* ===== verification/Assignment.v ===== *)
(** * Tasks and the nodes that run them

    The invariant that ties the two state machines together: a node works on a
    task exactly when the task is running on that node.  A comment of
    [SetTaskStatusEndAborted] relies on it ("any path that clears a node's
    current task also ends that task in the same transaction",
    src/service/task_status.go 617-619). *)

From S2P Require Import Prelude Models Config Delegation VestingSchedule Deadline MaxStaking.
From S2P Require Import Store Statistic Ledger LedgerCoherence LedgerSync Vesting Qos.
From S2P Require Import NodeState TaskStatus.

Module Assignment.
Import Deadline Statistic Ledger LedgerCoherence LedgerSync Vesting Qos NodeState TaskStatus.

(** ** The invariant *)

Record tview := mkTView { tv_ID : Z; tv_Commitment : string; tv_Selected : string; tv_Status : TaskStatus }.
Record nview := mkNView { nv_ID : Z; nv_Address : string; nv_Status : NodeStatus; nv_Current : option string }.

#[export] Instance tview_eq_dec : EqDecision tview.
Proof. solve_decision. Defined.

#[export] Instance eta_tview : Eta tview := λ r,
  mkTView (tv_ID r) (tv_Commitment r) (tv_Selected r) (tv_Status r).
#[export] Instance eta_nview : Eta nview := λ r,
  mkNView (nv_ID r) (nv_Address r) (nv_Status r) (nv_Current r).

Definition tview_of (t : InferenceTask) : tview :=
  mkTView (t_ID t) (t_TaskIDCommitment t) (t_SelectedNode t) (t_Status t).
Definition nview_of (n : Node) : nview :=
  mkNView (n_ID n) (n_Address n) (n_Status n) (n_CurrentTaskIDCommitment n).

(** A task that is on a node, and a node that is on a task. *)
Definition running (s : TaskStatus) : bool := negb (terminal s) && negb (bool_decide (s = TaskQueued)).
Definition working (s : NodeStatus) : bool :=
  bool_decide (s = NodeStatusBusy) || bool_decide (s = NodeStatusPendingPause) ||
  bool_decide (s = NodeStatusPendingQuit).

(** The status changes of docs/task_validation_and_slashing.md ("Task
    Lifecycle"). *)
Definition lifecycle (s s' : TaskStatus) : bool :=
  match s, s' with
  | TaskQueued, (TaskStarted | TaskEndAborted)
  | TaskStarted, (TaskScoreReady | TaskErrorReported | TaskEndAborted)
  | TaskParametersUploaded, TaskEndAborted
  | TaskScoreReady, (TaskValidated | TaskGroupValidated | TaskEndInvalidated | TaskEndGroupRefund | TaskEndAborted)
  | TaskErrorReported, (TaskEndInvalidated | TaskEndAborted)
  | (TaskValidated | TaskGroupValidated), (TaskEndSuccess | TaskEndGroupSuccess | TaskEndAborted) => true
  | _, _ => false
  end.
Definition next (s s' : TaskStatus) : Prop := lifecycle s s' = true.

Lemma next_not_queued s s' : next s s' → s' ≠ TaskQueued.
Proof. by destruct s, s'. Qed.
Lemma next_not_terminal s s' : next s s' → terminal s = false.
Proof. by destruct s, s'. Qed.
Lemma abort_next s : terminal s = false → next s TaskEndAborted.
Proof. by destruct s. Qed.

Lemma rtc_queued s : rtc next s TaskQueued → s = TaskQueued.
Proof. intros [?|(s1 & _ & H)]%rtc_inv_r; [done|]. by apply next_not_queued in H. Qed.
Lemma rtc_terminal s s' : rtc next s s' → terminal s = true → s' = s.
Proof. intros [?|(s1 & H & _)]%rtc_inv Ht; [done|]. apply next_not_terminal in H. congruence. Qed.

(** What a task row becomes: it moves along the life cycle, and the node is
    chosen when it leaves the queue. *)
Definition evolve (t t' : tview) : Prop :=
  tv_ID t' = tv_ID t ∧ tv_Commitment t' = tv_Commitment t ∧ rtc next (tv_Status t) (tv_Status t') ∧
  (tv_Selected t' = tv_Selected t ∨ tv_Status t = TaskQueued ∧ tv_Status t' ≠ TaskQueued).
Definition evolves (ts ts' : list tview) : Prop := ∀ t, t ∈ ts → ∃ t', t' ∈ ts' ∧ evolve t t'.

#[export] Instance evolve_preorder : PreOrder evolve.
Proof.
  split.
  - intros t. repeat split; [reflexivity|by left].
  - intros t1 t2 t3 (Hi & Hc & Hs & Hsel) (Hi' & Hc' & Hs' & Hsel'). split_and!; [congruence|congruence|by etrans|].
    destruct Hsel as [Hsel|[Hq Hnq]].
    + destruct Hsel' as [Hsel'|[Hq Hnq]]; [left; congruence|right]. rewrite Hq in Hs. by apply rtc_queued in Hs.
    + right. split; [done|]. intros Hq3. rewrite Hq3 in Hs'. by apply rtc_queued in Hs'.
Qed.

#[export] Instance evolves_preorder : PreOrder evolves.
Proof.
  split.
  - intros ts t Ht. exists t. by split.
  - intros ts1 ts2 ts3 H12 H23 t Ht. destruct (H12 t Ht) as (t' & Ht' & He). destruct (H23 t' Ht') as (t'' & ? & ?).
    exists t''. split; [done|by etrans].
Qed.

Lemma update_evolves (p : tview → bool) f ts :
  (∀ t, t ∈ ts → p t = true → evolve t (f t)) → evolves ts (update_where p f ts).
Proof.
  intros Hf t Ht. exists (if p t then f t else t). split; [apply elem_of_update; eauto|].
  destruct (p t) eqn:Hp; [by apply Hf|done].
Qed.

(** The invariant, with the two exceptions of the middle of a transaction: the
    task [ending] has ended but its node still points to it, the task [starting]
    has started but its node does not point to it yet. *)
Definition assigned (ending starting : option string) (ts : list tview) (ns : list nview) : Prop :=
  (NoDup (map tv_ID ts) ∧ NoDup (map tv_Commitment ts) ∧ "" ∉ map tv_Commitment ts) ∧
  (NoDup (map nv_ID ns) ∧ NoDup (map nv_Address ns) ∧ "" ∉ map nv_Address ns) ∧
  (∀ n, n ∈ ns → is_Some (nv_Current n) ↔ working (nv_Status n) = true) ∧
  (∀ n c, n ∈ ns → nv_Current n = Some c → ∃ t, t ∈ ts ∧ tv_Commitment t = c ∧
     tv_Selected t = nv_Address n ∧ (running (tv_Status t) = true ∨ ending = Some c)) ∧
  (∀ t, t ∈ ts → running (tv_Status t) = true → ending ≠ Some (tv_Commitment t) ∧
     (starting = Some (tv_Commitment t) ∨
      ∃ n, n ∈ ns ∧ nv_Address n = tv_Selected t ∧ nv_Current n = Some (tv_Commitment t))).

Definition assigned_in (ending starting : option string) (d : DB) : Prop :=
  assigned ending starting (map tview_of (db_tasks d)) (map nview_of (db_nodes d)).

Abbreviation well_assigned := (assigned_in None None).

(** ** The steps of the two machines, on the views *)

Lemma map_update_view {A B} (v : A → B) (p : A → bool) (p' : B → bool) f f' l :
  (∀ r, p r = p' (v r)) → (∀ r, p r = true → v (f r) = f' (v r)) →
  map v (update_where p f l) = update_where p' f' (map v l).
Proof.
  intros Hp Hf. unfold update_where. rewrite !map_map. apply map_ext. intros r.
  rewrite <- Hp. destruct (p r) eqn:Hpr; [by apply Hf|done].
Qed.

Section steps.
Implicit Types (ts : list tview) (ns : list nview).

(** Rows that keep their key, address and task. *)
Lemma assigned_nodes e s ts ns (p : nview → bool) (g : nview → nview) :
  assigned e s ts ns →
  (∀ n, n ∈ ns → p n = true → nv_ID (g n) = nv_ID n ∧ nv_Address (g n) = nv_Address n ∧
     nv_Current (g n) = nv_Current n ∧ working (nv_Status (g n)) = working (nv_Status n)) →
  assigned e s ts (update_where p g ns).
Proof.
  intros (Ht & (Hi & Ha & Hne) & Hw & Hn & Htn) Hg.
  assert (Hrow : ∀ n, n ∈ ns → let n' := if p n then g n else n in
    nv_ID n' = nv_ID n ∧ nv_Address n' = nv_Address n ∧ nv_Current n' = nv_Current n ∧
    working (nv_Status n') = working (nv_Status n)).
  { intros n Hin. destruct (p n) eqn:Hp; [by apply Hg|done]. }
  split; [done|]. split.
  { unfold update_where. rewrite !map_map. split.
    - rewrite (map_ext_in _ nv_ID); [done|]. intros n Hin%list_elem_of_In. apply (Hrow n Hin).
    - rewrite (map_ext_in _ nv_Address); [done|]. intros n Hin%list_elem_of_In. apply (Hrow n Hin). }
  split; [|split].
  - intros n (n0 & Hin & ->)%elem_of_update. destruct (Hrow n0 Hin) as (_ & _ & -> & ->). by apply Hw.
  - intros n c (n0 & Hin & ->)%elem_of_update. destruct (Hrow n0 Hin) as (_ & -> & -> & _). by apply Hn.
  - intros t Hin Hr. destruct (Htn t Hin Hr) as [He [Hs|(n & Hnin & Hadr & Hcur)]]; [by auto|].
    split; [done|]. right. exists (if p n then g n else n).
    destruct (Hrow n Hnin) as (_ & -> & -> & _). split; [|done]. apply elem_of_update. eauto.
Qed.

(** Rows that keep their key, node and whether they run. *)
Lemma assigned_tasks e s ts ns (p : tview → bool) (f : tview → tview) :
  assigned e s ts ns →
  (∀ t, t ∈ ts → p t = true → tv_ID (f t) = tv_ID t ∧ tv_Commitment (f t) = tv_Commitment t ∧
     tv_Selected (f t) = tv_Selected t ∧ running (tv_Status (f t)) = running (tv_Status t)) →
  assigned e s (update_where p f ts) ns.
Proof.
  intros ((Hi & Hc & Hne0) & Hns & Hw & Hn & Htn) Hf.
  assert (Hrow : ∀ t, t ∈ ts → let t' := if p t then f t else t in
    tv_ID t' = tv_ID t ∧ tv_Commitment t' = tv_Commitment t ∧ tv_Selected t' = tv_Selected t ∧
    running (tv_Status t') = running (tv_Status t)).
  { intros t Hin. destruct (p t) eqn:Hp; [by apply Hf|done]. }
  split; [|split; [done|split; [done|split]]].
  - unfold update_where. rewrite !map_map. split.
    + rewrite (map_ext_in _ tv_ID); [done|]. intros t Hin%list_elem_of_In. apply (Hrow t Hin).
    + rewrite (map_ext_in _ tv_Commitment); [done|]. intros t Hin%list_elem_of_In. apply (Hrow t Hin).
  - intros n c Hin Hcur. destruct (Hn n c Hin Hcur) as (t & Htin & Hcm & Hsel & Hrun).
    exists (if p t then f t else t). destruct (Hrow t Htin) as (_ & -> & -> & ->).
    split; [apply elem_of_update; eauto|done].
  - intros t (t0 & Hin & ->)%elem_of_update. destruct (Hrow t0 Hin) as (_ & -> & -> & ->). by apply Htn.
Qed.

Section one_task.
Context (ts : list tview) (ns : list nview) (t : tview) (s' : TaskStatus).
Let here (u : tview) : bool := (tv_ID u =? tv_ID t) && bool_decide (tv_Status u = tv_Status t).

Lemma here_unique u : NoDup (map tv_ID ts) → t ∈ ts → u ∈ ts → here u = true → u = t.
Proof. intros Hnd Ht Hu Hh. unfold here in Hh. simplify_bool. by eapply (NoDup_map_inj tv_ID). Qed.

Lemma here_self : here t = true.
Proof. unfold here. by rewrite Z.eqb_refl, bool_decide_true. Qed.

Lemma update_keys (f : tview → tview) :
  (∀ u, tv_ID (f u) = tv_ID u ∧ tv_Commitment (f u) = tv_Commitment u) →
  map tv_ID (update_where here f ts) = map tv_ID ts ∧
  map tv_Commitment (update_where here f ts) = map tv_Commitment ts.
Proof.
  intros Hf. split; apply map_update_same; intros u _; apply Hf.
Qed.

(** A running task ends. *)
Lemma assigned_end (f : tview → tview) :
  assigned None None ts ns → t ∈ ts →
  (∀ u, tv_ID (f u) = tv_ID u ∧ tv_Commitment (f u) = tv_Commitment u ∧ tv_Selected (f u) = tv_Selected u ∧
        running (tv_Status (f u)) = false) →
  assigned (Some (tv_Commitment t)) None (update_where here f ts) ns.
Proof.
  intros ((Hi & Hc & Hne0) & Hns & Hw & Hn & Htn) Ht Hf. destruct (update_keys f) as [Hi' Hc']; [intros u; by destruct (Hf u) as (? & ? & _)|].
  split; [by rewrite Hi', Hc'|]. split; [done|]. split; [done|]. split.
  - intros n c Hin Hcur. destruct (Hn n c Hin Hcur) as (u & Hu & Hcm & Hsel & Hrun).
    exists (if here u then f u else u). split; [apply elem_of_update; eauto|].
    destruct (here u) eqn:Hh.
    + destruct (Hf u) as (_ & -> & -> & _). split_and!; [done|done|]. right.
      by rewrite <- Hcm, (here_unique u Hi Ht Hu Hh).
    + split_and!; [done|done|]. left. by destruct Hrun.
  - intros u (u0 & Hu & ->)%elem_of_update Hr. destruct (here u0) eqn:Hh.
    { destruct (Hf u0) as (_ & _ & _ & Hf'). congruence. }
    destruct (Htn u0 Hu Hr) as [_ Hex]. split; [|done]. intros [= Heq].
    assert (u0 = t) as -> by (by eapply (NoDup_map_inj tv_Commitment)). by rewrite here_self in Hh.
Qed.

(** A queued task starts on the node with address [a]. *)
Lemma assigned_begin (f : tview → tview) a :
  assigned None None ts ns → t ∈ ts → running (tv_Status t) = false →
  (∀ u, tv_ID (f u) = tv_ID u ∧ tv_Commitment (f u) = tv_Commitment u ∧ tv_Selected (f u) = a) →
  assigned None (Some (tv_Commitment t)) (update_where here f ts) ns.
Proof.
  intros ((Hi & Hc & Hne0) & Hns & Hw & Hn & Htn) Ht Hq Hf. destruct (update_keys f) as [Hi' Hc']; [intros u; by destruct (Hf u) as (? & ? & _)|].
  split; [by rewrite Hi', Hc'|]. split; [done|]. split; [done|]. split.
  - intros n c Hin Hcur. destruct (Hn n c Hin Hcur) as (u & Hu & Hcm & Hsel & [Hrun|]); [|done].
    exists u. split; [|by auto]. apply elem_of_update. exists u. split; [done|].
    destruct (here u) eqn:Hh; [|done]. rewrite (here_unique u Hi Ht Hu Hh) in Hrun. congruence.
  - intros u (u0 & Hu & ->)%elem_of_update Hr. split; [done|]. destruct (here u0) eqn:Hh.
    + left. destruct (Hf u0) as (_ & -> & _). by rewrite (here_unique u0 Hi Ht Hu Hh).
    + destruct (Htn u0 Hu Hr) as [_ [?|Hex]]; [done|by right].
Qed.
End one_task.

Section one_node.
Context (ts : list tview) (ns : list nview) (n : nview).
Let there (m : nview) : bool := (nv_ID m =? nv_ID n) && bool_decide (nv_Status m = nv_Status n).

Lemma there_unique m : NoDup (map nv_ID ns) → n ∈ ns → m ∈ ns → there m = true → m = n.
Proof. intros Hnd Hn Hm Hh. unfold there in Hh. simplify_bool. by eapply (NoDup_map_inj nv_ID). Qed.

Lemma there_self : there n = true.
Proof. unfold there. by rewrite Z.eqb_refl, bool_decide_true. Qed.

Lemma update_nkeys (g : nview → nview) :
  (∀ m, nv_ID (g m) = nv_ID m ∧ nv_Address (g m) = nv_Address m) →
  map nv_ID (update_where there g ns) = map nv_ID ns ∧
  map nv_Address (update_where there g ns) = map nv_Address ns.
Proof. intros Hg. split; apply map_update_same; intros m _; apply Hg. Qed.

(** The node of the ended task is released. *)
Lemma assigned_release (g : nview → nview) c :
  assigned (Some c) None ts ns → n ∈ ns → nv_Current n = Some c →
  (∀ m, nv_ID (g m) = nv_ID m ∧ nv_Address (g m) = nv_Address m ∧ nv_Current (g m) = None ∧
        working (nv_Status (g m)) = false) →
  assigned None None ts (update_where there g ns).
Proof.
  intros ((Hti & Htc & Hne1) & (Hi & Ha & Hne2) & Hw & Hn & Htn) Hin Hcur Hg.
  destruct (update_nkeys g) as [Hi' Ha']; [intros m; by destruct (Hg m) as (? & ? & _)|].
  split; [done|]. split; [by rewrite Hi', Ha'|]. split; [|split].
  - intros m (m0 & Hm & ->)%elem_of_update. destruct (there m0); [|by apply Hw].
    destruct (Hg m0) as (_ & _ & -> & ->). split; [by intros []|done].
  - intros m c' (m0 & Hm & ->)%elem_of_update Hcm. destruct (there m0) eqn:Hh.
    { destruct (Hg m0) as (_ & _ & Hno & _). congruence. }
    destruct (Hn m0 c' Hm Hcm) as (t & Ht & Htcm & Hsel & [Hr|[= ->]]); [by eauto 10|]. exfalso.
    destruct (Hn n c' Hin Hcur) as (t' & Ht' & Htcm' & Hsel' & _).
    assert (t' = t) as -> by (by eapply (NoDup_map_inj tv_Commitment); [| | |congruence]).
    assert (m0 = n) as -> by (by eapply (NoDup_map_inj nv_Address); [| | |congruence]).
    by rewrite there_self in Hh.
  - intros t Ht Hr. destruct (Htn t Ht Hr) as [Hne [?|(m & Hm & Hma & Hmc)]]; [done|]. split; [done|]. right.
    exists m. split; [|done]. apply elem_of_update. exists m. split; [done|].
    destruct (there m) eqn:Hh; [|done]. rewrite (there_unique m Hi Hin Hm Hh) in Hmc. congruence.
Qed.

(** The chosen node takes the started task. *)
Lemma assigned_take (g : nview → nview) c t :
  assigned None (Some c) ts ns → n ∈ ns → nv_Current n = None →
  t ∈ ts → tv_Commitment t = c → tv_Selected t = nv_Address n → running (tv_Status t) = true →
  (∀ m, nv_ID (g m) = nv_ID m ∧ nv_Address (g m) = nv_Address m ∧ nv_Current (g m) = Some c ∧
        working (nv_Status (g m)) = true) →
  assigned None None ts (update_where there g ns).
Proof.
  intros ((Hti & Htc & Hne1) & (Hi & Ha & Hne2) & Hw & Hn & Htn) Hin Hcur Ht Htcm Hsel Hrun Hg.
  destruct (update_nkeys g) as [Hi' Ha']; [intros m; by destruct (Hg m) as (? & ? & _)|].
  split; [done|]. split; [by rewrite Hi', Ha'|]. split; [|split].
  - intros m (m0 & Hm & ->)%elem_of_update. destruct (there m0); [|by apply Hw].
    destruct (Hg m0) as (_ & _ & -> & ->). by split; [|eauto].
  - intros m c' (m0 & Hm & ->)%elem_of_update Hcm. destruct (there m0) eqn:Hh.
    + destruct (Hg m0) as (_ & Hadr & Hsome & _). rewrite Hsome in Hcm. injection Hcm as <-.
      exists t. rewrite Hadr, (there_unique m0 Hi Hin Hm Hh). auto.
    + destruct (Hn m0 c' Hm Hcm) as (u & Hu & ? & ? & [?|?]); [by eauto 10|done].
  - intros u Hu Hr. split; [done|]. right. destruct (Htn u Hu Hr) as [_ [[= Heq]|(m & Hm & Hma & Hmc)]].
    + assert (u = t) as -> by (by eapply (NoDup_map_inj tv_Commitment); [| | |congruence]).
      exists (g n). destruct (Hg n) as (_ & -> & -> & _). split_and!; [|done|by rewrite Htcm].
      apply elem_of_update. exists n. by rewrite there_self.
    + exists m. split; [|done]. apply elem_of_update. exists m. split; [done|].
      destruct (there m) eqn:Hh; [|done]. rewrite (there_unique m Hi Hin Hm Hh) in Hmc. congruence.
Qed.
End one_node.

(** A new queued task. *)
Lemma assigned_new ts ns t :
  assigned None None ts ns → (∀ u, u ∈ ts → tv_ID u ≠ tv_ID t) → (∀ u, u ∈ ts → tv_Commitment u ≠ tv_Commitment t) →
  tv_Commitment t ≠ "" → running (tv_Status t) = false → assigned None None (ts ++ [t]) ns.
Proof.
  intros ((Hi & Hc & Hne0) & Hns & Hw & Hn & Htn) Hfi Hfc Hne Hq. split; [|split; [done|split; [done|split]]].
  - rewrite !map_app. split_and!; [| |set_solver]; apply NoDup_app; (split_and!; [done| |apply NoDup_singleton]).
    + intros i (u & Hu & ->)%elem_of_map_iff He%list_elem_of_singleton. by destruct (Hfi u).
    + intros i (u & Hu & ->)%elem_of_map_iff He%list_elem_of_singleton. by destruct (Hfc u).
  - intros n c Hin Hcur. destruct (Hn n c Hin Hcur) as (u & Hu & ?). exists u. split; [set_solver|done].
  - intros u [Hu|Hu%list_elem_of_singleton]%elem_of_app Hr; [by apply Htn|]. subst u. congruence.
Qed.
End steps.

(** ** Work that does not touch the assignment *)

Definition same_assign (w w' : World) : Prop :=
  map tview_of (db_tasks (w_db w')) = map tview_of (db_tasks (w_db w)) ∧
  map nview_of (db_nodes (w_db w')) = map nview_of (db_nodes (w_db w)).

#[export] Instance same_assign_rel : WorldRel same_assign.
Proof. split; unfold same_assign; [done| |done|done]. intros w1 w2 w3 [-> ->] [-> ->]. done. Qed.

#[export] Instance same_assign_db : DbRel same_assign.
Proof. intros w w' Hd. unfold same_assign. by rewrite Hd. Qed.

Lemma same_assign_in e s w w' : same_assign w w' → assigned_in e s (w_db w) → assigned_in e s (w_db w').
Proof. unfold assigned_in. by intros [-> ->]. Qed.

Section ops.
Context {E : Env}.

(** A task and a node in memory that agree with their rows. *)
Definition task_in (task : InferenceTask) (d : DB) : Prop := tview_of task ∈ map tview_of (db_tasks d).
#[local] Instance task_in_dec task d : Decision (task_in task d).
Proof. unfold task_in. apply _. Defined.
Definition node_in (node : Node) (d : DB) : Prop := nview_of node ∈ map nview_of (db_nodes d).

(** A task in memory from which its row has moved on. *)
Definition evolves_in (d d' : DB) : Prop := evolves (map tview_of (db_tasks d)) (map tview_of (db_tasks d')).
Definition known (task : InferenceTask) (d : DB) : Prop :=
  ∃ t, t ∈ map tview_of (db_tasks d) ∧ evolve (tview_of task) t.

Lemma known_evolves task d d' : known task d → evolves_in d d' → known task d'.
Proof. intros (t & Ht & He) Hd. destruct (Hd t Ht) as (t' & Ht' & He'). exists t'. split; [done|by etrans]. Qed.
Lemma task_in_known task d : task_in task d → known task d.
Proof. intros Ht. by exists (tview_of task). Qed.

(** The row has the status the task has in memory. *)
Definition current (task : InferenceTask) (d : DB) : Prop :=
  ∃ t, t ∈ map tview_of (db_tasks d) ∧ tv_ID t = t_ID task ∧ tv_Status t = t_Status task.

Lemma known_in e s task d : assigned_in e s d → known task d → current task d → task_in task d.
Proof.
  intros ((Hi & _) & _) (t & Ht & Hid & Hcm & Hst & Hsel) (t' & Ht' & Hid' & Hst').
  assert (t' = t) as -> by (by eapply (NoDup_map_inj tv_ID); [| | |simpl in *; congruence]).
  unfold task_in. destruct t as [i c sl st]. destruct Hsel as [Hsel|[Hq Hnq]]; simpl in *; [|congruence].
  unfold tview_of. by rewrite <- Hid, <- Hcm, <- Hsel, <- Hst'.
Qed.

Lemma same_assign_current task w w' : same_assign w w' → current task (w_db w') → current task (w_db w).
Proof. unfold current. by intros [-> _]. Qed.

Lemma same_task_in task w w' : same_assign w w' → task_in task (w_db w) → task_in task (w_db w').
Proof. unfold task_in. by intros [-> _]. Qed.
Lemma same_node_in node w w' : same_assign w w' → node_in node (w_db w) → node_in node (w_db w').
Proof. unfold node_in. by intros [_ ->]. Qed.

Lemma stats_same_assign w w' : stats_only w w' → same_assign w w'.
Proof. intros [_ (ne & us & ue & ni & Hd)]. unfold same_assign. by rewrite Hd. Qed.

Lemma frames_stats_assign {A} (m : M A) : frames stats_only m → frames same_assign m.
Proof. intros Hm. eapply frames_weaken; [exact Hm|apply stats_same_assign]. Qed.

Lemma frames_write_assign f :
  (∀ d, db_tasks (f d) = db_tasks d ∧ db_nodes (f d) = db_nodes d) → frames same_assign (db_write f).
Proof.
  intros Hf. apply frames_db_write; [apply _|]. intros w. unfold same_assign. simpl.
  by destruct (Hf (w_db w)) as [-> ->].
Qed.

Lemma frames_emit e : frames same_assign (emitEvent e).
Proof. by apply frames_write_assign. Qed.

Lemma frames_getRelayAccount a : frames same_assign (getRelayAccountFromCache a).
Proof. unfold getRelayAccountFromCache. frame_tac. apply frames_cache_db, _. Qed.

Lemma frames_createEvent t r a x : frames same_assign (createRelayAccountEvent t r a x).
Proof.
  unfold createRelayAccountEvent, createRelayAccountEventWithID. frame_tac.
  apply frames_db_exec; [apply _|]. intros wa ra da. unfold insert_event. case_bool; [done|]. by intros [= _ <-].
Qed.

Lemma insert_events_only es d u d' : insert_events es d = Ok (u, d') → ∃ x, d' = d <| db_events := x |>.
Proof.
  revert d. induction es as [|e es IH]; intros d; simpl.
  - intros [= _ <-]. destruct d. eexists. cbn. reflexivity.
  - unfold insert_event. destruct (exists_where _ _); [done|]. intros [x ->]%IH. eexists. cbn. reflexivity.
Qed.

#[local] Hint Resolve frames_stats_assign frames_emit frames_getRelayAccount frames_createEvent : relay.

Lemma frames_refund c a x : frames same_assign (refundTaskPaymentToRelayAccount c a x).
Proof. unfold refundTaskPaymentToRelayAccount. frame_tac. Qed.

Lemma frames_income c a x ty net : frames same_assign (sendTaskIncome c a x ty net).
Proof.
  unfold sendTaskIncome, splitTaskIncome, GetDelegatorShare, GetDelegationsOfNode, createRelayAccountEvents,
    addEventEarnings, stamp. frame_tac.
  apply frames_db_exec; [apply _|]. intros wa ra da Hi. unfold same_assign.
  by destruct (insert_events_only _ _ _ _ Hi) as [x' ->].
Qed.

Lemma frames_clearModels a : frames same_assign (clearNodeModelState a).
Proof. unfold clearNodeModelState. frame_tac; by apply frames_write_assign. Qed.

Lemma frames_Increment n : frames same_assign (IncrementNodeNameCountTx n).
Proof. by apply frames_write_assign. Qed.

Lemma frames_Decrement n : frames same_assign (DecrementNodeNameCountTx n).
Proof.
  unfold DecrementNodeNameCountTx. frame_tac; [|by apply frames_write_assign].
  apply frames_db_exec; [apply _|]. intros wa ra da. unfold same_assign.
  destruct (db_name_counts _ !! _); [case_bool|]; by intros [= _ <-].
Qed.

Lemma frames_delta n x : frames same_assign (ApplyNodeNameCountDeltaToCache n x).
Proof. apply frames_cache_db, _. Qed.

Lemma frames_maxStaking a x : frames same_assign (UpdateMaxStaking a x).
Proof. unfold UpdateMaxStaking. frame_tac. apply frames_cache_db, _. Qed.

Lemma frames_postQuit n b : frames same_assign (applyNodeQuitPostCommit n b).
Proof.
  unfold applyNodeQuitPostCommit. apply frames_bind; [apply _|apply frames_maxStaking|]. intros [].
  case_bool; [apply frames_delta|apply frames_ret; apply _].
Qed.

Lemma frames_refreshVesting a : frames same_assign (RefreshNodeVestingStake a).
Proof. unfold RefreshNodeVestingStake. frame_tac. apply frames_cache_db, _. Qed.

Lemma frames_slashVestings a : frames same_assign (SlashNodeVestingsTx a).
Proof. unfold SlashNodeVestingsTx. apply frames_db_exec; [apply _|]. intros w b d [= _ <-]. by split. Qed.

Lemma frames_queue k a net : frames same_assign (queueTransaction k a net).
Proof.
  unfold queueTransaction. case_match; [|frame_tac]. apply frames_bind; [apply _|frame_tac|]. intros createdAt.
  apply frames_db_exec; [apply _|]. intros w i d [= _ <-]. by split.
Qed.

Lemma frames_pendingSlash c n e b : frames same_assign (createPendingSlash c n e b).
Proof. by apply frames_write_assign. Qed.

#[local] Hint Resolve frames_refund frames_income frames_clearModels frames_Increment frames_Decrement frames_delta
  frames_maxStaking frames_postQuit frames_refreshVesting frames_slashVestings frames_queue frames_pendingSlash : relay.

(** Row updates that keep the views. *)
Definition view_kept (node node' : Node) : Prop := nview_of node' = nview_of node.

Lemma wp_nodeUpdate node f (Q : result Node → World → Prop) w :
  (∀ n, nview_of (f n) = nview_of n) →
  (∀ e w', same_assign w w' → Q (Err e) w') →
  (∀ w', same_assign w w' → Q (Ok (f node)) w') →
  wp (nodeUpdate node f) Q w.
Proof.
  intros Hf He Ho. unfold nodeUpdate. case_bool; [wp_step; apply He, wr_refl|]. wp_step.
  wp_step; [apply He, wr_tick; apply _|]. wp_step. apply Ho. split; [done|]. simpl.
  rewrite map_update_same; [done|]. auto.
Qed.

Lemma wp_scoreNode task node (Q : result Node → World → Prop) w :
  (∀ e w', same_assign w w' → Q (Err e) w') →
  (∀ node' w', same_assign w w' → nview_of node' = nview_of node → Q (Ok node') w') →
  wp (scoreNode task node) Q w.
Proof.
  intros He Ho. unfold scoreNode, updateNodeQosScore, getNodeTaskQosScore.
  destruct (t_QOSScore task) as [q|]; [|by wp_step; apply Ho; [apply wr_refl|]].
  wp_step. wp_step. wp_step. wp_step. wp_step. wp_step.
  by apply wp_nodeUpdate; [done|intros; apply He|intros; by apply Ho].
Qed.

Lemma wp_boost node (Q : result Node → World → Prop) w :
  (∀ e w', same_assign w w' → Q (Err e) w') →
  (∀ node' w', same_assign w w' → nview_of node' = nview_of node → Q (Ok node') w') →
  wp (ApplyHealthBoost node) Q w.
Proof.
  intros He Ho. unfold ApplyHealthBoost, getEffectiveHealth. wp_step. wp_step. wp_step. wp_step. wp_step. wp_step.
  by apply wp_nodeUpdate; [done|intros; apply He|intros; by apply Ho].
Qed.

Lemma wp_penalty node (Q : result Node → World → Prop) w :
  (∀ e w', same_assign w w' → Q (Err e) w') →
  (∀ node' w', same_assign w w' → nview_of node' = nview_of node → Q (Ok node') w') →
  wp (ApplyHealthPenalty node) Q w.
Proof.
  intros He Ho. unfold ApplyHealthPenalty. wp_step. wp_step. set (f := λ n : Node, _).
  assert (Hf : ∀ n, nview_of (f n) = nview_of n) by (intros n; unfold f; by case_bool).
  by apply wp_nodeUpdate; [done|intros; apply He|intros; by apply Ho].
Qed.

(** ** The row updates on the views *)

Definition here (t : tview) (u : tview) : bool := (tv_ID u =? tv_ID t) && bool_decide (tv_Status u = tv_Status t).
Definition there (n : nview) (m : nview) : bool := (nv_ID m =? nv_ID n) && bool_decide (nv_Status m = nv_Status n).

Definition tasks_step (task : InferenceTask) (f : tview → tview) (w w' : World) : Prop :=
  map tview_of (db_tasks (w_db w')) = update_where (here (tview_of task)) f (map tview_of (db_tasks (w_db w))) ∧
  map nview_of (db_nodes (w_db w')) = map nview_of (db_nodes (w_db w)).
Definition nodes_step (node : Node) (g : nview → nview) (w w' : World) : Prop :=
  map tview_of (db_tasks (w_db w')) = map tview_of (db_tasks (w_db w)) ∧
  map nview_of (db_nodes (w_db w')) = update_where (there (nview_of node)) g (map nview_of (db_nodes (w_db w))).

Lemma wp_taskUpdateStatus task f f' (Q : result InferenceTask → World → Prop) w :
  (∀ t, tview_of (f t) = f' (tview_of t)) →
  (∀ e w', w_db w' = w_db w → Q (Err e) w') →
  (∀ w', current task (w_db w) → tasks_step task f' w w' → Q (Ok (f task)) w') →
  wp (taskUpdateStatus task f) Q w.
Proof.
  intros Hf He Ho. unfold taskUpdateStatus. case_bool; [by wp_step; apply He|]. wp_step. wp_step.
  wp_step; [by wp_step; apply He|]. destruct (exists_where _ _) eqn:Hex; [|by wp_step; apply He].
  wp_step. apply Ho.
  - apply exists_where_true in Hex as (t & Ht & Hp). simplify_bool. exists (tview_of t).
    split; [by apply elem_of_map_2|done].
  - split; [|done]. simpl. apply map_update_view; [|by intros; apply Hf]. intros t. done.
Qed.

Lemma wp_nodeUpdateStatus node g g' (Q : result Node → World → Prop) w :
  (∀ n, nview_of (g n) = g' (nview_of n)) →
  (∀ e w', w_db w' = w_db w → Q (Err e) w') →
  (∀ w', nodes_step node g' w w' → Q (Ok (g node)) w') →
  wp (nodeUpdateStatus node g) Q w.
Proof.
  intros Hf He Ho. unfold nodeUpdateStatus. case_bool; [by wp_step; apply He|]. wp_step. wp_step.
  wp_step; [by wp_step; apply He|]. destruct (exists_where _ _); [|by wp_step; apply He].
  wp_step. apply Ho. split; [done|]. simpl. apply map_update_view; [|by intros; apply Hf].
  intros n. done.
Qed.

(** A node gives up its task. *)
Definition frees (g : nview → nview) : Prop := ∀ m,
  nv_ID (g m) = nv_ID m ∧ nv_Address (g m) = nv_Address m ∧ nv_Current (g m) = None ∧
  working (nv_Status (g m)) = false.

Definition released (node : Node) (w w' : World) : Prop := ∃ g, frees g ∧ nodes_step node g w w'.

Lemma nodes_step_l node g w w1 w' : same_assign w w1 → nodes_step node g w1 w' → nodes_step node g w w'.
Proof. unfold same_assign, nodes_step. by intros [-> ->]. Qed.
Lemma nodes_step_r node g w w1 w' : nodes_step node g w w1 → same_assign w1 w' → nodes_step node g w w'.
Proof. unfold same_assign, nodes_step. by intros [<- <-] [-> ->]. Qed.
Lemma released_l node w w1 w' : same_assign w w1 → released node w1 w' → released node w w'.
Proof. intros Hs (g & Hg & Hst). exists g. split; [done|by eapply nodes_step_l]. Qed.
Lemma released_r node w w1 w' : released node w w1 → same_assign w1 w' → released node w w'.
Proof. intros (g & Hg & Hst) Hs. exists g. split; [done|by eapply nodes_step_r]. Qed.

Lemma released_view node node' w w' : nview_of node' = nview_of node → released node' w w' → released node w w'.
Proof. intros Hv (g & Hg & Hst). exists g. split; [done|]. unfold nodes_step in *. by rewrite Hv in Hst. Qed.

Lemma frees_set s : working s = false → frees (λ n, n <| nv_Status := s |> <| nv_Current := None |>).
Proof. by intros Hs m. Qed.

(** What follows a successful step without touching the assignment. *)
Lemma wp_same_assign {A} (m : M A) w0 (P : World → World → Prop) w :
  frames same_assign m → (∀ w', same_assign w w' → P w0 w') → wp m (λ _ w', P w0 w') w.
Proof. intros Hm HP. eapply wp_mono; [apply Hm|]. intros. by apply HP. Qed.

Lemma wp_setNodeStatusQuitTx node slashed w :
  wp (setNodeStatusQuitTx node slashed)
     (λ r w', match r with
              | Ok (node', _, _) => released node w w' ∧ n_Address node' = n_Address node
              | Err _ => True end) w.
Proof.
  unfold setNodeStatusQuitTx. wp_step. eapply wp_mono; [apply frames_clearModels|].
  intros [[]|e] w1 H1; [|done]. wp_step.
  eapply (wp_nodeUpdateStatus _ _ (λ n, n <| nv_Status := NodeStatusQuit |> <| nv_Current := None |>));
    [done|done|]. intros w2 H2.
  assert (Hrest : released node w w2).
  { eapply released_l; [exact H1|]. eexists. split; [|exact H2]. by apply frees_set. }
  wp_step. eapply wp_mono; [apply (frames_if same_assign); auto with relay typeclass_instances|].
  intros [[]|e] w3 H3; [|done]. wp_step. wp_step. destruct r as [info|]; [|done]. wp_step.
  eapply (wp_mono _ (λ _ w', same_assign w3 w')).
  { repeat case_bool; unfold QueueSlashStaking, QueueUnstake; [| |wp_step; by split].
    all: eapply wp_mono; [apply frames_queue|intros; assumption]. }
  intros [txID|e] w4 H4; [|done]. wp_step. eapply (wp_mono _ (λ _ w', same_assign w4 w')).
  { case_bool; [|wp_step; apply wr_refl]. wp_step. eapply wp_mono; [apply frames_slashVestings|].
    intros [b|e] w5 H5; [by wp_step|exact H5]. }
  intros [[]|e] w5 H5; [|done]. wp_step. eapply wp_mono; [apply frames_emit|].
  intros [[]|e] w6 H6; [|done]. wp_step. split; [|done]. eapply released_r; [exact Hrest|].
  eapply wr_trans; [exact H3|]. eapply wr_trans; [exact H4|]. eapply wr_trans; [exact H5|exact H6].
Qed.

Lemma same_tick (w w' : World) s d : same_assign w w' → same_assign w (mkWorld (w_db w') (w_cache w') s d).
Proof. done. Qed.

Lemma wp_SetNodeStatusQuit node slashed w :
  wp (SetNodeStatusQuit node slashed) (λ r w', is_ok r = true → released node w w') w.
Proof.
  unfold SetNodeStatusQuit. wp_step. wp_step; [done|]. eapply wp_mono; [apply wp_setNodeStatusQuitTx|].
  intros [[[node' b] tx]|e] w1 H1; [|done]. destruct H1 as [H1 _]. split; [done|]. wp_step.
  eapply wp_mono; [apply frames_postQuit|]. intros [[]|e] w2 H2; [|done]. wp_step.
  eapply wp_mono; [apply (frames_if same_assign); auto with relay typeclass_instances|].
  intros [[]|e] w3 H3; [|done]. wp_step. wp_step. destruct r as [[]|]; [|done]. wp_step.
  intros _. eapply released_r; [exact H1|]. eapply wr_trans; [exact H2|exact H3].
Qed.

Lemma wp_nodeFinishTask node w :
  wp (nodeFinishTask node) (λ r w', is_ok r = true → released node w w') w.
Proof.
  unfold nodeFinishTask. case_bool; [by wp_step|].
  destruct (n_CurrentTaskIDCommitment node) as [c|]; [|by wp_step]. wp_step.
  unfold ShouldPermanentKickout. wp_step. wp_step. wp_step. case_match.
  { unfold kickOut, GetTaskByIDCommitment. wp_step. wp_step; [done|].
    destruct (find_first _ _); [|done]. wp_step. wp_step; [done|]. wp_step.
    eapply wp_mono; [apply wp_setNodeStatusQuitTx|]. intros [[[node' b] tx]|e] w1 H1; [|done]. destruct H1 as [H1 _].
    wp_step. eapply wp_mono; [apply frames_emit|]. intros [[]|e] w2 H2; [|done]. wp_step. split; [done|]. wp_step.
    eapply wp_mono; [apply frames_postQuit|]. intros [[]|e] w3 H3; [|done]. wp_step. intros _.
    eapply released_r; [exact H1|]. eapply wr_trans; [exact H2|exact H3]. }
  destruct (n_Status node) eqn:Hst; try discriminate Heqb.
  - eapply (wp_nodeUpdateStatus _ _ (λ n, n <| nv_Status := NodeStatusAvailable |> <| nv_Current := None |>));
      [done|done|]. intros w2 H2 _. eexists. split; [|exact H2]. by apply frees_set.
  - wp_step. wp_step; [done|]. wp_step.
    eapply (wp_nodeUpdateStatus _ _ (λ n, n <| nv_Status := NodeStatusPaused |> <| nv_Current := None |>));
      [done|done|]. intros w2 H2. wp_step. eapply wp_mono; [apply frames_Decrement|].
    intros [[]|e] w3 H3; [|done]. wp_step. split; [done|]. wp_step. eapply wp_mono; [apply frames_delta|].
    intros [[]|e] w4 H4; [|done]. wp_step. intros _. eapply released_r.
    + eexists. split; [|exact H2]. by apply frees_set.
    + eapply wr_trans; [exact H3|exact H4].
  - apply wp_SetNodeStatusQuit.
Qed.

(** ** The operations *)

(** The databases an operation may lead to from [d]. *)
Definition good (d d' : DB) : Prop := well_assigned d' ∧ evolves_in d d'.

Lemma evolves_in_refl d : evolves_in d d.
Proof. unfold evolves_in. reflexivity. Qed.
Lemma good_refl d : well_assigned d → good d d.
Proof. split; [done|apply evolves_in_refl]. Qed.
Lemma good_trans d1 d2 d3 : good d1 d2 → good d2 d3 → good d1 d3.
Proof. intros [_ H1] [H2 H3]. split; [done|]. unfold evolves_in in *. by etrans. Qed.
Lemma same_assign_good d w w' : same_assign w w' → good d (w_db w) → good d (w_db w').
Proof. intros Hs [Ha He]. split; [by eapply same_assign_in|]. destruct Hs as [Ht _]. unfold evolves_in. by rewrite Ht. Qed.
Lemma same_assign_goods w w' : same_assign w w' → well_assigned (w_db w) → good (w_db w) (w_db w').
Proof. intros Hs Ha. by eapply same_assign_good, good_refl. Qed.

(** A step from the database [d] that is all or nothing: it fails and leaves the
    database as it was, or it succeeds and keeps the invariant. *)
Definition moves {A} (d : DB) (m : M A) (w : World) : Prop :=
  wp m (λ r w', match r with Ok _ => good d (w_db w') | Err _ => w_db w' = d end) w.

Lemma wp_moves {A} d (m : M A) (Q : result A → World → Prop) w :
  moves d m w → (∀ a w', good d (w_db w') → Q (Ok a) w') → (∀ e w', w_db w' = d → Q (Err e) w') → wp m Q w.
Proof. intros Hm Ho He. unfold moves in Hm. eapply wp_mono; [apply Hm|]. intros [a|e] w'; [apply Ho|apply He]. Qed.

(** A transaction moves when its body keeps the invariant whenever it succeeds. *)
Lemma moves_transaction {A} (body : M A) w :
  (∀ w1, w_db w1 = w_db w → wp body (λ r w', is_ok r = true → good (w_db w) (w_db w')) w1) →
  moves (w_db w) (transaction body) w.
Proof.
  intros Hb. apply wp_transaction; [done|]. eapply wp_mono; [by apply Hb|].
  intros [a|e] w1 H1; [|done]. split; [done|]. by apply H1.
Qed.

Definition becomes (s : TaskStatus) (u : tview) : tview := u <| tv_Status := s |>.

Lemma step_evolves task s w w' :
  next (t_Status task) s → tasks_step task (becomes s) w w' → evolves_in (w_db w) (w_db w').
Proof.
  intros Hn [Ht _]. unfold evolves_in. rewrite Ht. apply update_evolves. intros t _ Hh. unfold here in Hh. simplify_bool.
  split_and!; [done|done| |by left]. apply rtc_once. simpl in *. by rewrite H0.
Qed.

(** The task of a node. *)
Lemma node_task e d node task :
  assigned_in e None d → node_in node d → n_CurrentTaskIDCommitment node = Some (t_TaskIDCommitment task) →
  task_in task d → running (t_Status task) = true ∨ e = Some (t_TaskIDCommitment task).
Proof.
  intros ((_ & Htc & _) & _ & _ & Hnt & _) Hn Hc Ht. destruct (Hnt _ _ Hn Hc) as (t & Hin & Hcm & _ & Hr).
  assert (t = tview_of task) as -> by (by eapply (NoDup_map_inj tv_Commitment)). done.
Qed.

(** The end of a task and the release of its node. *)
Lemma end_and_release task node w w1 w2 s :
  well_assigned (w_db w) → known task (w_db w) → current task (w_db w) → node_in node (w_db w) →
  n_CurrentTaskIDCommitment node = Some (t_TaskIDCommitment task) → running s = false →
  (running (t_Status task) = true → next (t_Status task) s) →
  tasks_step task (becomes s) w w1 → released node w1 w2 → good (w_db w) (w_db w2).
Proof.
  intros Ha Hk Hcu Hn Hcur Hs Hnx Hst (g & Hg & Ht2 & Hn2). assert (Ht : task_in task (w_db w)) by (by eapply known_in).
  destruct (node_task _ _ _ _ Ha Hn Hcur Ht) as [Hr|]; [|done]. split.
  - destruct Hst as [Ht1 Hn1]. unfold assigned_in in *. rewrite Ht2, Hn2, Ht1, Hn1.
    eapply (assigned_release _ _ (nview_of node) g (t_TaskIDCommitment task)); [|done|done|done].
    by apply (assigned_end _ _ (tview_of task)).
  - unfold evolves_in. rewrite Ht2. by apply (step_evolves task s); [apply Hnx|].
Qed.

(** A task that keeps running or keeps not running. *)
Lemma stays e task w w1 s :
  assigned_in e None (w_db w) → running s = running (t_Status task) → next (t_Status task) s →
  tasks_step task (becomes s) w w1 → assigned_in e None (w_db w1) ∧ evolves_in (w_db w) (w_db w1).
Proof.
  intros Ha Hr Hnx Hst. split; [|by eapply step_evolves]. destruct Hst as [Ht1 Hn1].
  unfold assigned_in in *. rewrite Ht1, Hn1. apply assigned_tasks; [done|].
  intros u Hu Hh. unfold here in Hh. simplify_bool. split_and!; [done|done|done|].
  simpl. rewrite Hr. destruct u. simpl in *. by subst.
Qed.

(** The selected node of a task, when it works on it. *)
Lemma wp_checkTaskSelectedNode task (Q : result Node → World → Prop) w :
  (∀ e w', reads_only w w' → Q (Err e) w') →
  (∀ node w', reads_only w w' → node_in node (w_db w) →
     n_CurrentTaskIDCommitment node = Some (t_TaskIDCommitment task) → Q (Ok node) w') →
  wp (checkTaskSelectedNode task) Q w.
Proof.
  intros He Ho. unfold checkTaskSelectedNode, GetNodeByAddress. wp_step. wp_step; [by apply He|].
  destruct (find_first _ _) as [node|] eqn:Hf; [|by apply He].
  apply find_first_Some in Hf as [Hin _]. case_bool; wp_step; [|by apply He].
  apply Ho; [by split|by apply elem_of_map_2|done].
Qed.

Lemma well_in w w' : w_db w' = w_db w → well_assigned (w_db w) → well_assigned (w_db w').
Proof. by intros ->. Qed.

(** A ledger operation of the body, and the commit function it returns. *)
Lemma frames_known {B} w0 (m : M (M unit)) (R : M unit → (string → Z) → Prop) (k : M unit → M B) Q :
  frames same_assign m → books m R →
  (∀ c w1, same_assign w0 w1 → (∃ δ, R c δ) → wp (k c) (λ r w', is_ok r = true → Q w') w1) →
  wp (m ≫= k) (λ r w', is_ok r = true → Q w') w0.
Proof.
  intros Hm Hb Hk. wp_step.
  assert (H : wp m (λ r w', same_assign w0 w' ∧ match r with Ok a => ∃ δ, R a δ | Err _ => True end) w0).
  { pose proof (Hm w0) as H1. pose proof (Hb w0) as H2. unfold wp in *. split; [done|].
    destruct (fst (m w0)) as [a|]; [|done]. destruct H2 as [_ (δ & Hδ & _)]. eauto. }
  eapply wp_mono; [exact H|]. intros [c|e] w1 [H1 H2]; [by apply Hk|done].
Qed.

(** *** Moving forward *)

Lemma moves_check {A} d task (k : Node → M A) w :
  w_db w = d →
  (∀ node w1, w_db w1 = d → node_in node d →
     n_CurrentTaskIDCommitment node = Some (t_TaskIDCommitment task) → moves d (k node) w1) →
  moves d (checkTaskSelectedNode task ≫= k) w.
Proof.
  intros Hd Hk. unfold moves. wp_step. apply wp_checkTaskSelectedNode; [by intros e w' [-> _]|].
  intros node w1 [Hd1 _] Hn Hc. apply Hk; congruence.
Qed.

(** The common shape of the transitions that leave the task on its node. *)
Lemma moves_forward d task f s (rest : InferenceTask → M InferenceTask) w :
  w_db w = d → well_assigned d → running s = running (t_Status task) → next (t_Status task) s →
  (∀ t, tview_of (f t) = becomes s (tview_of t)) → (∀ t, frames same_assign (rest t)) →
  moves d (transaction (task' ← taskUpdateStatus task f; rest task')) w.
Proof.
  intros <- Ha Hr Hnx Hf Hrest. apply moves_transaction. intros w1 Hd. wp_step.
  apply (wp_taskUpdateStatus _ _ (becomes s)); [done|done|]. intros w2 _ H2.
  eapply wp_mono; [apply Hrest|]. intros r w3 H3 _. eapply same_assign_good; [exact H3|].
  rewrite <- Hd in Ha |- *. by eapply stays.
Qed.

Ltac forward_tac Hst s :=
  unfold moves; wp_step; wp_step; wp_step; wp_step;
  destruct (getTaskTransitionDeadline _ _ _ _) as [dl|]; [|done];
  apply (moves_forward _ _ _ s); [done|done|by rewrite Hst|by rewrite Hst|done|].

Lemma moves_ScoreReady task w : well_assigned (w_db w) → moves (w_db w) (SetTaskStatusScoreReady task) w.
Proof.
  intros Ha. unfold SetTaskStatusScoreReady. case_bool_decide as Hst; [|done]. apply moves_check; [done|].
  intros node w1 Hd _ _. forward_tac Hst TaskScoreReady. intros t0. frame_tac.
Qed.

Lemma moves_ErrorReported task w : well_assigned (w_db w) → moves (w_db w) (SetTaskStatusErrorReported task) w.
Proof.
  intros Ha. unfold SetTaskStatusErrorReported. case_bool_decide as Hst; [|done]. apply moves_check; [done|].
  intros node w1 Hd _ _. forward_tac Hst TaskErrorReported. intros t0. frame_tac.
Qed.

Lemma moves_Validated task w : well_assigned (w_db w) → moves (w_db w) (SetTaskStatusValidated task) w.
Proof.
  intros Ha. unfold SetTaskStatusValidated. case_bool_decide as Hst; [|done]. apply moves_check; [done|].
  intros node w1 Hd _ _. forward_tac Hst TaskValidated. intros t0. frame_tac.
Qed.

Lemma frames_score task node : frames same_assign (scoreNode task node).
Proof. intros w. by apply wp_scoreNode. Qed.

Lemma moves_GroupValidated task w : well_assigned (w_db w) → moves (w_db w) (SetTaskStatusGroupValidated task) w.
Proof.
  intros Ha. unfold SetTaskStatusGroupValidated. case_bool_decide as Hst; [|done]. apply moves_check; [done|].
  intros node w1 Hd _ _. forward_tac Hst TaskGroupValidated. intros t0. frame_tac; apply frames_score.
Qed.

(** *** Ending *)

Lemma tasks_step_l task f w w1 w' : same_assign w w1 → tasks_step task f w1 w' → tasks_step task f w w'.
Proof. unfold same_assign, tasks_step. by intros [-> ->]. Qed.

Lemma moves_GroupRefund task w :
  well_assigned (w_db w) → known task (w_db w) → moves (w_db w) (SetTaskStatusEndGroupRefund task) w.
Proof.
  intros Ha Ht. unfold SetTaskStatusEndGroupRefund. case_bool_decide as Hst; [|done]. apply moves_check; [done|].
  intros node w1 Hd Hn Hc. rewrite <- Hd. apply moves_transaction. intros w2 Hd2. rewrite <- Hd, <- Hd2 in *. clear w w1 Hd Hd2.
  eapply (frames_known w2); [apply frames_refund|apply books_refundTaskPayment|].
  intros commitFunc w3 H3 (δ & _ & Hcf). wp_step. apply wp_scoreNode; [done|]. intros node1 w4 H4 Hv1.
  wp_step. wp_step. wp_step.
  apply (wp_taskUpdateStatus _ _ (becomes TaskEndGroupRefund)); [done|done|]. intros w5 Hcu H5.
  wp_step. apply wp_boost; [done|]. intros node2 w6 H6 Hv2. wp_step.
  eapply wp_mono; [apply wp_nodeFinishTask|]. intros [node3|e] w7 H7; [|done]. specialize (H7 eq_refl).
  wp_step. eapply wp_mono; [apply frames_emit|]. intros [[]|e] w8 H8; [|done]. wp_step.
  eapply wp_mono; [eapply (frames_commit same_assign); exact Hcf|]. intros [[]|e] w9 H9; [|done]. wp_step. intros _.
  eapply same_assign_good; [eapply wr_trans; [exact H8|exact H9]|].
  eapply (end_and_release task node w2 w5 _ TaskEndGroupRefund);
    [exact Ha|exact Ht| |exact Hn|exact Hc|done|by rewrite Hst| |].
  - eapply same_assign_current; [|exact Hcu]. eapply wr_trans; [exact H3|exact H4].
  - eapply tasks_step_l; [eapply wr_trans; [exact H3|exact H4]|exact H5].
  - eapply released_view; [|eapply released_l; [exact H6|exact H7]]. congruence.
Qed.

(** The commit functions of several payments. *)
Lemma frames_payments ty ps : frames same_assign (sendPayments ty ps).
Proof.
  induction ps as [|p ps IH]; simpl; [frame_tac|]. frame_tac.
Qed.

Lemma wp_payments ty ps w :
  wp (sendPayments ty ps) (λ r w', same_assign w w' ∧
    match r with Ok cs => Forall (λ c, ∃ δ, credits c δ) cs | Err _ => True end) w.
Proof.
  revert w. induction ps as [|p ps IH]; intros w; simpl; [wp_step; split; [apply wr_refl|constructor]|].
  wp_step. eapply (wp_mono _ (λ r w1, same_assign w w1 ∧ match r with Ok c => ∃ δ, credits c δ | Err _ => True end)).
  { pose proof (frames_income (pm_taskIDCommitment p) (pm_address p) (pm_payment p) ty (pm_network p) w) as H1.
    pose proof (books_sendTaskIncome (pm_taskIDCommitment p) (pm_address p) (pm_payment p) ty (pm_network p) w) as H2.
    unfold wp in *. split; [exact H1|]. destruct (sendTaskIncome _ _ _ _ _ w) as [[c|e] w1]; [|done].
    destruct H2 as [_ (δ & [Hc _] & _)]. by exists δ. }
  intros [c|e] w1 [H1 Hc]; [|done]. destruct Hc as [δ Hc]. wp_step.
  eapply wp_mono; [apply IH|]. intros [cs|e] w2 [H3 H4]; [wp_step|].
  - split; [by eapply wr_trans|]. constructor; [by exists δ|done].
  - split; [by eapply wr_trans|done].
Qed.

Lemma frames_commits cs :
  Forall (λ c : M unit, ∃ δ, credits c δ) cs → frames same_assign (for_each cs id).
Proof.
  induction 1 as [|c cs [δ Hc] _ IH]; simpl; [frame_tac|]. apply frames_bind; [apply _| |intros []; exact IH].
  eapply (frames_commit same_assign). by apply credits_commit.
Qed.

Lemma moves_EndSuccess task w :
  well_assigned (w_db w) → known task (w_db w) → t_Status task = TaskValidated ∨ t_Status task = TaskGroupValidated →
  moves (w_db w) (SetTaskStatusEndSuccess task) w.
Proof.
  intros Ha Ht Hv. unfold SetTaskStatusEndSuccess. apply moves_check; [done|].
  intros node w1 Hd Hn Hc. unfold moves. wp_step.
  assert (Hpay : wp (taskPayments task node) (λ r w', w_db w' = w_db w ∧
    match r with Ok (s, _) => s = TaskEndSuccess ∨ s = TaskEndGroupSuccess | Err _ => True end) w1).
  { unfold taskPayments, GetTaskGroupByTaskID. wp_step. wp_step; [by rewrite <- Hd|]. case_bool; [|by wp_step; auto].
    wp_step. wp_step; [by rewrite <- Hd|]. case_bool; wp_step; auto. }
  eapply wp_mono; [exact Hpay|]. intros [[s ps]|e] w2 [Hd2 Hs]; [|done]. rewrite <- Hd2.
  apply moves_transaction. intros w3 Hd3. rewrite <- Hd2, <- Hd3 in *. clear w w1 w2 Hd Hd2 Hd3 Hpay. wp_step.
  eapply wp_mono; [apply wp_payments|]. intros [cs|e] w4 [H4 Hcs]; [|done]. wp_step. wp_step. wp_step.
  apply (wp_taskUpdateStatus _ _ (becomes s)); [done|done|]. intros w5 Hcu H5.
  wp_step. apply wp_boost; [done|]. intros node2 w6 H6 Hv2. wp_step.
  eapply wp_mono; [apply wp_nodeFinishTask|]. intros [node3|e] w7 H7; [|done]. specialize (H7 eq_refl).
  wp_step. eapply wp_mono; [apply frames_emit|]. intros [[]|e] w8 H8; [|done]. wp_step.
  eapply wp_mono; [by apply frames_commits|]. intros [[]|e] w9 H9; [|done]. wp_step. intros _.
  eapply same_assign_good; [eapply wr_trans; [exact H8|exact H9]|].
  eapply (end_and_release task node w3 w5 _ s); [exact Ha|exact Ht| |exact Hn|exact Hc|by destruct Hs as [-> | ->]| | |].
  - eapply same_assign_current; [exact H4|exact Hcu].
  - intros _. by destruct Hv as [-> | ->], Hs as [-> | ->].
  - eapply tasks_step_l; [exact H4|exact H5].
  - eapply released_view; [|eapply released_l; [exact H6|exact H7]]. exact Hv2.
Qed.

(** *** Aborting *)

Lemma frames_settle task node : frames same_assign (settleAborted task node).
Proof. unfold settleAborted. frame_tac. Qed.

Lemma books_settle task node : books (settleAborted task node) commit_of.
Proof.
  unfold settleAborted. case_bool; [destruct node as [n|]|].
  - intros w. eapply wp_mono; [apply books_sendTaskIncome|]. intros [c|e] w' [Hl H]; [|done].
    split; [done|]. destruct H as (δ & [Hc _] & Ho). exists δ. split; [by apply credits_commit|done].
  - intros w. wp_step. split; [apply wr_refl|done].
  - intros w. eapply wp_mono; [apply books_refundTaskPayment|]. intros [c|e] w' [Hl H]; [|done].
    split; [done|]. destruct H as (δ & [_ Hc] & Ho). by exists δ.
Qed.

(** A running task is on the node its row names. *)
Lemma running_has_node d task :
  well_assigned d → task_in task d → running (t_Status task) = true →
  t_SelectedNode task ≠ "" ∧
  ∀ node, node ∈ db_nodes d → n_Address node = t_SelectedNode task →
    n_CurrentTaskIDCommitment node = Some (t_TaskIDCommitment task).
Proof.
  intros (_ & (_ & Hna & Hne) & _ & _ & Htn) Ht Hr.
  destruct (Htn _ Ht Hr) as [_ [?|(n & Hn & Hadr & Hcur)]]; [done|]. simpl in Hadr, Hcur. split.
  - intros He. apply Hne. rewrite <- He, <- Hadr. by apply elem_of_map_2.
  - intros node Hin Ha. assert (nview_of node = n) as <-; [|done].
    eapply (NoDup_map_inj nv_Address); [exact Hna|by apply elem_of_map_2|done|simpl; congruence].
Qed.

Lemma wp_abortedNode task w :
  well_assigned (w_db w) →
  wp (abortedNode task) (λ r w', w_db w' = w_db w ∧
    match r with
    | Ok (Some node) => node_in node (w_db w) ∧ n_CurrentTaskIDCommitment node = Some (t_TaskIDCommitment task)
    | Ok None => task_in task (w_db w) → running (t_Status task) = false
    | Err _ => True
    end) w.
Proof.
  intros Ha. unfold abortedNode. destruct (decide (task_in task (w_db w) ∧ running (t_Status task) = true)) as [[Ht Hr]|Hno].
  - destruct (running_has_node _ _ Ha Ht Hr) as [Hne Hnode]. destruct (String.eqb_spec (t_SelectedNode task) ""); [done|].
    wp_step. wp_step. unfold checkTaskSelectedNode, GetNodeByAddress. wp_step.
    wp_step; [by repeat (case_bool || wp_step)|].
    destruct (find_first _ _) as [node|] eqn:Hf; [|by repeat (case_bool || wp_step)].
    apply find_first_Some in Hf as [Hin Hp]. apply orb_true_iff in Hp as [Hp|Hp]; simplify_bool; [done|].
    rewrite bool_decide_true by (by apply Hnode). repeat wp_step. split; [done|].
    split; [by apply elem_of_map_2|by apply Hnode].
  - assert (Hr : task_in task (w_db w) → running (t_Status task) = false).
    { intros Ht. destruct (running _) eqn:Hr; [by destruct Hno|done]. }
    case_bool; [by wp_step|]. wp_step. wp_step. apply wp_checkTaskSelectedNode.
    + intros e w' [Hd _]. case_bool; [case_bool|]; by wp_step.
    + intros node w' [Hd _] Hn Hc. by wp_step.
Qed.

Lemma wp_finishAborted task node w :
  wp (finishAborted task node) (λ r w', is_ok r = true → released node w w') w.
Proof.
  unfold finishAborted. wp_step.
  eapply (wp_mono _ (λ r w1, match r with Ok n1 => same_assign w w1 ∧ nview_of n1 = nview_of node | Err _ => True end)).
  { case_bool; [|by wp_step]. by apply wp_scoreNode. }
  intros [n1|e] w1 H1; [|done]. destruct H1 as [H1 Hv1]. wp_step.
  eapply (wp_mono _ (λ r w2, match r with Ok n2 => same_assign w1 w2 ∧ nview_of n2 = nview_of n1 | Err _ => True end)).
  { case_bool; [|by wp_step]. by apply wp_penalty. }
  intros [n2|e] w2 H2; [|done]. destruct H2 as [H2 Hv2]. wp_step.
  eapply wp_mono; [apply wp_nodeFinishTask|]. intros [n3|e] w3 H3; [|done]. wp_step. intros _.
  eapply released_view; [|eapply released_l; [|by apply H3]]; [congruence|by eapply wr_trans].
Qed.

Lemma moves_EndAborted task issuer w :
  well_assigned (w_db w) → known task (w_db w) → moves (w_db w) (SetTaskStatusEndAborted task issuer) w.
Proof.
  intros Ha Hk. unfold SetTaskStatusEndAborted. case_bool_decide; [unfold moves; wp_step; by apply good_refl|].
  case_bool; [by unfold moves; wp_step|]. apply moves_transaction. intros w1 Hd. rewrite <- Hd in Ha, Hk |- *. clear w Hd.
  wp_step. eapply wp_mono; [by apply wp_abortedNode|]. intros [node|e] w2 [Hd2 Hnode]; [|done].
  rewrite <- Hd2 in *. clear w1 Hd2.
  eapply (frames_known w2); [apply frames_settle|apply books_settle|].
  intros commitFunc w3 H3 (δ & Hcf). wp_step.
  set (f := λ t : InferenceTask, _).
  apply (wp_taskUpdateStatus _ _ (becomes TaskEndAborted)); [done|done|]. intros w5 Hcu3 H5'.
  assert (Hcu : current task (w_db w2)) by (by eapply same_assign_current).
  assert (H5 : tasks_step task (becomes TaskEndAborted) w2 w5) by (eapply tasks_step_l; [exact H3|exact H5']).
  assert (Hnx : next (t_Status task) TaskEndAborted) by (by apply abort_next). wp_step.
  eapply (wp_mono _ (λ r w', is_ok r = true → good (w_db w2) (w_db w'))).
  - destruct node as [node|].
    + destruct Hnode as [Hn Hc]. eapply wp_mono; [apply wp_finishAborted|]. intros r w6 H6 Hok.
      eapply (end_and_release task node w2 w5 w6 TaskEndAborted); auto.
    + wp_step. intros _. eapply stays; [done| |exact Hnx|exact H5]. rewrite Hnode; [done|by eapply known_in].
  - intros [[]|e] w6 H6; [|done]. specialize (H6 eq_refl). wp_step.
    eapply wp_mono; [apply frames_emit|]. intros [[]|e] w8 H8; [|done]. wp_step.
    eapply wp_mono; [eapply (frames_commit same_assign); exact Hcf|]. intros [[]|e] w9 H9; [|done]. wp_step. intros _.
    eapply same_assign_good; [eapply wr_trans; [exact H8|exact H9]|done].
Qed.

(** *** Leaving and slashing *)

(** A node without a task leaves. *)
Lemma leaves node w w' :
  well_assigned (w_db w) → node_in node (w_db w) → n_CurrentTaskIDCommitment node = None →
  released node w w' → good (w_db w) (w_db w').
Proof.
  intros Ha Hn Hc (g & Hg & Ht1 & Hn1). split; [|unfold evolves_in; by rewrite Ht1].
  unfold assigned_in in *. rewrite Ht1, Hn1. apply assigned_nodes; [done|].
  intros m Hm Hh. destruct (Hg m) as (? & ? & -> & ->). split_and!; [done|done| |];
    destruct Ha as (_ & (Hi & _) & Hw & _); rewrite (there_unique _ (nview_of node) m Hi Hn Hm Hh); [done|].
  destruct (working _) eqn:Hwk; [|done]. apply (Hw _ Hn) in Hwk as [c Hwk]. simpl in Hwk. congruence.
Qed.

(** The row a node's task has. *)
Lemma current_row e d node c task :
  assigned_in e None d → node_in node d → n_CurrentTaskIDCommitment node = Some c →
  find_first (λ t, String.eqb c "" || String.eqb (t_TaskIDCommitment t) c) (db_tasks d) = Some task →
  task_in task d ∧ t_TaskIDCommitment task = c ∧ (running (t_Status task) = true ∨ e = Some c).
Proof.
  intros ((_ & Htc & Hne) & _ & _ & Hnt & _) Hn Hc [Hin Hp]%find_first_Some.
  destruct (Hnt _ _ Hn Hc) as (t & Ht & Htcm & _ & Hr).
  assert (c ≠ "") as Hce by (intros ->; apply Hne; rewrite <- Htcm; by apply elem_of_map_2).
  apply orb_true_iff in Hp as [Hp|Hp]; simplify_bool; [done|].
  assert (tview_of task = t) as <-.
  { eapply (NoDup_map_inj tv_Commitment); [exact Htc|by apply elem_of_map_2|done|simpl; congruence]. }
  split_and!; [by apply elem_of_map_2|done|done].
Qed.

(** The unfinished task of a node that is slashed has ended, and the node still
    points to it. *)
Lemma wp_abortForSlash e node w :
  assigned_in e None (w_db w) → node_in node (w_db w) → (e = None ∨ e = n_CurrentTaskIDCommitment node) →
  wp (abortNodeCurrentTaskForSlash node) (λ r w',
    match r with
    | Ok post => assigned_in (n_CurrentTaskIDCommitment node) None (w_db w') ∧ node_in node (w_db w') ∧
                 evolves_in (w_db w) (w_db w') ∧ match post with Some c => ∃ δ, commit_of c δ | None => True end
    | Err _ => True
    end) w.
Proof.
  intros Ha Hn He. unfold abortNodeCurrentTaskForSlash.
  destruct (n_CurrentTaskIDCommitment node) as [c|] eqn:Hc; [|wp_step; split; [by destruct He as [->| ->]|split; [done|split; [apply evolves_in_refl|done]]]].
  unfold GetTaskByIDCommitment. wp_step. wp_step; [done|]. destruct (find_first _ _) as [task|] eqn:Hf; [|done].
  destruct (current_row _ _ _ _ _ Ha Hn Hc Hf) as (Ht & Hcm & Hr). case_bool; [done|]. case_bool.
  { wp_step. split; [|split; [done|split; [apply evolves_in_refl|done]]]. destruct Hr as [Hr| ->]; [|done].
    unfold running in Hr. by rewrite Heqb0 in Hr. }
  wp_step. match goal with |- wp _ _ ?x => set (w1 := x) end.
  assert (H : wp (refundTaskPaymentToRelayAccount (t_TaskIDCommitment task) (t_Creator task) (t_TaskFee task))
    (λ r w', same_assign w1 w' ∧ match r with Ok c => ∃ δ, commit_of c δ | Err _ => True end) w1).
  { pose proof (frames_refund (t_TaskIDCommitment task) (t_Creator task) (t_TaskFee task) w1) as H1.
    pose proof (books_refundTaskPayment (t_TaskIDCommitment task) (t_Creator task) (t_TaskFee task) w1) as H2.
    unfold wp in *. split; [done|]. destruct (fst _) as [cf|]; [|done]. destruct H2 as [_ (δ & [_ Hδ] & _)]. eauto. }
  eapply wp_mono; [exact H|]. intros [cf|err] w2 [H2 Hcf]; [|done]. wp_step.
  apply (wp_taskUpdateStatus _ _ (becomes TaskEndAborted)); [done|done|]. intros w3 _ H3. wp_step.
  eapply wp_mono; [apply frames_emit|]. intros [[]|err] w4 H4; [|done]. wp_step.
  eapply (wp_mono _ (λ _ w', same_assign w4 w')).
  { case_bool; [|by wp_step]. unfold GetTaskGroupByTaskID. wp_step. wp_step; [|wp_step]; by split. }
  intros [[]|err] w5 H5; [|done]. wp_step.
  assert (Hnx : next (t_Status task) TaskEndAborted) by (by apply abort_next).
  assert (Hst : tasks_step task (becomes TaskEndAborted) w w3).
  { eapply (tasks_step_l task _ w w2); [exact H2|exact H3]. }
  assert (Hs : same_assign w3 w5) by (by eapply wr_trans).
  split_and!; [eapply same_assign_in; [exact Hs|]|eapply same_node_in; [exact Hs|]| |done].
  - destruct Hr as [Hr| ->].
    + destruct He as [->|Hee].
      * destruct Hst as [Ht1 Hn1]. unfold assigned_in. rewrite Ht1, Hn1, <- Hcm. by apply assigned_end.
      * exfalso. destruct Ha as (_ & _ & _ & _ & Htn). destruct (Htn _ Ht Hr) as [Hne _]. apply Hne. simpl. congruence.
    + eapply (stays _ task w w3 TaskEndAborted); [exact Ha| |exact Hnx|exact Hst].
      destruct (running (t_Status task)) eqn:Hr; [|done]. destruct Ha as (_ & _ & _ & _ & Htn).
      destruct (Htn _ Ht Hr) as [Hne _]. destruct Hne. simpl. by rewrite Hcm.
  - destruct Hst as [_ Hn1]. unfold node_in. by rewrite Hn1.
  - destruct Hs as [Hs _]. unfold evolves_in. rewrite Hs. by apply (step_evolves task TaskEndAborted).
Qed.

Lemma wp_slashNodeTx e node c w :
  assigned_in e None (w_db w) → node_in node (w_db w) → (e = None ∨ e = n_CurrentTaskIDCommitment node) →
  wp (slashNodeTx node c) (λ r w',
    match r with
    | Ok (_, post) => good (w_db w) (w_db w') ∧ match post with Some c => ∃ δ, commit_of c δ | None => True end
    | Err _ => True
    end) w.
Proof.
  intros Ha Hn He. unfold slashNodeTx. wp_step. eapply wp_mono; [by eapply wp_abortForSlash|].
  intros [post|err] w1 H1; [|done]. destruct H1 as (Ha1 & Hn1 & He1 & Hpost). wp_step.
  eapply wp_mono; [apply wp_setNodeStatusQuitTx|]. intros [[[node' b] tx]|err] w2 H2; [|done]. destruct H2 as [H2 _].
  wp_step. eapply wp_mono; [apply frames_emit|]. intros [[]|err] w3 H3; [|done]. wp_step. split; [|done].
  eapply same_assign_good; [exact H3|]. destruct (n_CurrentTaskIDCommitment node) as [cc|] eqn:Hc.
  2: { eapply good_trans; [by split|by eapply leaves]. }
  destruct H2 as (g & Hg & Ht2 & Hn2). split; [|unfold evolves_in; by rewrite Ht2].
  unfold assigned_in in *. rewrite Ht2, Hn2. by apply (assigned_release _ _ (nview_of node) g cc).
Qed.

Lemma frames_afterSlash nd b tx post :
  match post with Some c => ∃ δ, commit_of c δ | None => True end →
  frames same_assign (afterSlash (nd, b, tx, post)).
Proof.
  intros Hp. unfold afterSlash. frame_tac. destruct Hp as [δ Hp]. eapply (frames_commit same_assign); exact Hp.
Qed.

Lemma wp_SlashNode e node c w :
  assigned_in e None (w_db w) → node_in node (w_db w) → (e = None ∨ e = n_CurrentTaskIDCommitment node) →
  wp (SlashNode node c) (λ r w', (is_ok r = true → good (w_db w) (w_db w')) ∧
                                 (w_db w' = w_db w ∨ good (w_db w) (w_db w'))) w.
Proof.
  intros Ha Hn He. unfold SlashNode. case_bool; [wp_step; by split; [|left]|]. wp_step.
  wp_step; [by split; [|left]|]. eapply wp_mono; [by eapply wp_slashNodeTx|].
  intros [[[[nd b] tx] post]|err] w1 H1; [|by split; [|left]]. destruct H1 as [H1 Hpost].
  split; [by split; [|left]|]. eapply wp_mono; [by apply frames_afterSlash|]. intros r w2 H2.
  assert (Hw : good (w_db w) (w_db w2)) by (eapply same_assign_good; [exact H2|exact H1]). by split; [|right].
Qed.

(** *** Invalidating *)

Lemma moves_invalidate task node evidence complete passive w :
  well_assigned (w_db w) → known task (w_db w) → node_in node (w_db w) → invalidatable (t_Status task) = true →
  n_CurrentTaskIDCommitment node = Some (t_TaskIDCommitment task) →
  moves (w_db w) (setTaskStatusEndInvalidatedWithEvidence task node evidence complete passive) w.
Proof.
  intros Ha Hk Hn Hinv Hc. unfold setTaskStatusEndInvalidatedWithEvidence. apply moves_transaction. intros w1 Hd.
  rewrite <- Hd in Ha, Hk, Hn |- *. clear w Hd. wp_step. wp_step. wp_step.
  apply (wp_taskUpdateStatus _ _ (becomes TaskEndInvalidated)); [done|done|]. intros w2 Hcu H2. wp_step.
  assert (Ht : task_in task (w_db w1)) by (by eapply (known_in _ _ _ (w_db w1))).
  assert (Hnx : next (t_Status task) TaskEndInvalidated).
  { destruct (node_task _ _ _ _ Ha Hn Hc Ht) as [Hr|]; [|done]. by destruct (t_Status task). }
  eapply wp_mono; [apply frames_emit|]. intros [[]|err] w3 H3; [|done]. wp_step.
  eapply (wp_mono _ (λ r w', is_ok r = true → good (w_db w1) (w_db w'))); [|intros [[]|] w4 H4; [by wp_step|done]].
  assert (Hst : tasks_step task (becomes TaskEndInvalidated) w1 w2) by exact H2.
  case_bool.
  - wp_step. eapply wp_mono; [apply frames_pendingSlash|]. intros [[]|err] w4 H4; [|done]. wp_step.
    eapply wp_mono; [apply wp_nodeFinishTask|]. intros [nd|err] w5 H5; [|done]. wp_step. intros _.
    eapply (end_and_release task node w1 w2 w5 TaskEndInvalidated); [done|done|exact Hcu|done|done|done|done|exact Hst|].
    eapply released_l; [|by apply H5]. by eapply wr_trans.
  - assert (He : evolves_in (w_db w1) (w_db w3)).
    { destruct H3 as [H3 _]. unfold evolves_in. rewrite H3. by apply (step_evolves task TaskEndInvalidated). }
    wp_step. destruct Hst as [Ht2 Hn2].
    eapply wp_mono; [apply (wp_SlashNode (Some (t_TaskIDCommitment task)))|].
    + eapply same_assign_in; [exact H3|]. unfold assigned_in in *. rewrite Ht2, Hn2. by apply (assigned_end _ _ (tview_of task)).
    + eapply same_node_in; [exact H3|]. unfold node_in in *. by rewrite Hn2.
    + by right.
    + intros [tx|err] w4 [H4 _]; [|done]. wp_step. intros _. destruct (H4 eq_refl) as [H5 H6].
      split; [done|]. unfold evolves_in in *. by etrans.
Qed.

Lemma moves_EndInvalidatedWithEvidence task evidence complete w :
  well_assigned (w_db w) → known task (w_db w) →
  moves (w_db w) (SetTaskStatusEndInvalidatedWithEvidence task evidence complete) w.
Proof.
  intros Ha Ht. unfold SetTaskStatusEndInvalidatedWithEvidence. case_bool; [by unfold moves; wp_step|].
  apply moves_check; [done|]. intros node w1 Hd Hn Hc. rewrite <- Hd in *. by apply moves_invalidate.
Qed.

Lemma moves_EndInvalidated task w :
  well_assigned (w_db w) → known task (w_db w) → moves (w_db w) (SetTaskStatusEndInvalidated task) w.
Proof.
  intros Ha Ht. unfold SetTaskStatusEndInvalidated. case_bool; [by unfold moves; wp_step|].
  apply moves_check; [done|]. intros node w1 Hd Hn Hc. unfold moves. wp_step. wp_step. destruct r as [built|]; [|done].
  rewrite <- Hd in *. by apply (moves_invalidate _ _ _ _ _ (tick w1)).
Qed.

(** *** Starting and creating *)

Definition takes (c : string) (n : nview) : nview := n <| nv_Status := NodeStatusBusy |> <| nv_Current := Some c |>.

Lemma wp_nodeStartTask node c w :
  wp (nodeStartTask node c) (λ r w', is_ok r = true →
    n_CurrentTaskIDCommitment node = None ∧ nodes_step node (takes c) w w') w.
Proof.
  unfold nodeStartTask. case_bool; [by wp_step|]. wp_step. wp_step. case_bool; [by wp_step|].
  wp_step; [done|]. wp_step. eapply (wp_nodeUpdateStatus _ _ (takes c)); [|done|].
  { intros n. by destruct (n_HealthExcluded node). }
  intros w1 H1. wp_step. split; [done|]. intros _. split; [|exact H1].
  destruct (n_CurrentTaskIDCommitment node); [|done]. by destruct H0.
Qed.

Lemma moves_Started task origin w :
  well_assigned (w_db w) → known task (w_db w) → moves (w_db w) (SetTaskStatusStarted task origin) w.
Proof.
  intros Ha Ht. unfold SetTaskStatusStarted. case_bool; [by unfold moves; wp_step|].
  unfold moves, nodeSync. wp_step. wp_step; [done|]. destruct (find_first _ _) as [node|] eqn:Hf; [|done].
  apply find_first_Some in Hf as [Hin _]. wp_step. wp_step. case_bool; [by wp_step|]. wp_step. wp_step.
  destruct (VersionNumbers task) as [v|]; [|done]. case_bool; [by wp_step|]. wp_step. wp_step.
  destruct r as [plan|]; [|done]. wp_step. wp_step. wp_step.
  match goal with |- wp (transaction ?b) _ ?x => assert (Hm : moves (w_db w) (transaction b) x) end.
  2: { eapply wp_moves; [exact Hm| |done]. intros. by wp_step. }
  match goal with |- moves _ ?m ?x => assert (Hx : ∀ w0, w_db w0 = w_db w → moves (w_db w) m w0); [|by apply Hx] end.
  intros w0 Hd0. rewrite <- Hd0 in *. clear w Hd0. apply moves_transaction. intros w1 Hd.
  rewrite <- Hd in Ha, Ht, Hin |- *. clear w0 Hd. wp_step. set (f := startValues _ _ _ _ _).
  assert (Hf : ∀ u, tview_of (f u) = (tview_of u) <| tv_Selected := n_Address node |> <| tv_Status := TaskStarted |>).
  { intros u. unfold f, startValues. by destruct (UsesRelayOwnedTimeouts _). }
  apply (wp_taskUpdateStatus _ _ (λ u, u <| tv_Selected := n_Address node |> <| tv_Status := TaskStarted |>) _ w1 Hf);
    [done|]. intros w2 Hcu [Ht2 Hn2]. wp_step. apply (known_in None None _ (w_db w1)) in Ht; [|done|done].
  eapply wp_mono; [apply wp_nodeStartTask|]. intros [node'|e] w3 H3; [|done]. destruct (H3 eq_refl) as [Hc [Ht3 Hn3]].
  wp_step. eapply wp_mono; [apply frames_emit|]. intros [[]|e] w4 H4; [|done]. wp_step. intros _.
  eapply same_assign_good; [exact H4|]. split.
  2: { unfold evolves_in. rewrite Ht3, Ht2. apply update_evolves. intros u _ Hh. unfold here in Hh. simplify_bool.
       simpl in H0. rewrite Heqb in H0. split_and!; [done|done|apply rtc_once; simpl; by rewrite H0|by right]. }
  unfold assigned_in in *. rewrite Ht3, Hn3, Ht2, Hn2.
  eapply (assigned_take _ _ (nview_of node) (takes (t_TaskIDCommitment task)) (t_TaskIDCommitment task)
    (tview_of (f task))); [|by apply elem_of_map_2|done| |by rewrite Hf|by rewrite Hf|by rewrite Hf|done].
  - eapply (assigned_begin _ _ (tview_of task) _ (n_Address node)); [exact Ha|exact Ht|by simpl; rewrite Heqb|done].
  - apply elem_of_update. exists (tview_of task). split; [exact Ht|]. unfold here.
    by rewrite Z.eqb_refl, bool_decide_true, Hf.
Qed.

Lemma assigned_create d task d' :
  well_assigned d → t_Status task = TaskQueued → t_TaskIDCommitment task ≠ "" →
  exists_where (λ t, String.eqb (t_TaskIDCommitment t) (t_TaskIDCommitment task)) (db_tasks d) = false →
  db_nodes d' = db_nodes d → db_tasks d' = db_tasks d ++ [task <| t_ID := next_id t_ID (db_tasks d) |>] →
  good d d'.
Proof.
  intros Ha Hq Hne Hfresh Hn Ht. split.
  2: { intros t Hin. exists t. split; [|done]. rewrite Ht, map_app. set_solver. }
  unfold assigned_in. rewrite Hn, Ht, map_app. simpl. apply assigned_new; [done| | |done|].
  - intros u (t & Hin & ->)%elem_of_map_iff. simpl. pose proof (next_id_fresh t_ID _ _ Hin). lia.
  - intros u (t & Hin & ->)%elem_of_map_iff. simpl. intros He.
    apply exists_where_false with (r := t) in Hfresh; [|done]. by apply String.eqb_neq in Hfresh.
  - simpl. by rewrite Hq.
Qed.

Lemma moves_CreateTask task w :
  well_assigned (w_db w) → t_Status task = TaskQueued → t_TaskIDCommitment task ≠ "" →
  moves (w_db w) (CreateTask task) w.
Proof.
  intros Ha Hq Hne. unfold CreateTask, moves. wp_step. wp_step. destruct r as [priority|]; [|done].
  set (task1 := match GetQueueDeadline _ _ with Some _ => _ | None => _ end).
  assert (Hv : t_Status task1 = TaskQueued ∧ t_TaskIDCommitment task1 ≠ "").
  { unfold task1. by destruct (GetQueueDeadline _ _). }
  clearbody task1. destruct Hv as [Hq1 Hne1]. unfold getRelayAccountFromCache. wp_step.
  eapply (wp_mono _ (λ _ w', w_db w' = w_db w)).
  { wp_step. wp_step. case_match; [by wp_step|]. wp_step. wp_step; [done|]. wp_step. wp_step. by wp_step. }
  intros [balance|e] w1 Hd; [|done]. case_bool; [by wp_step|]. wp_step.
  match goal with |- wp (transaction ?b) _ ?x => assert (Hm : moves (w_db w) (transaction b) x) end.
  2: { eapply wp_moves; [exact Hm| |done]. intros. wp_step. wp_step. by wp_step. }
  rewrite <- Hd. apply moves_transaction. intros w2 Hd2. rewrite <- Hd in Ha. rewrite <- Hd2 in Ha |- *. clear w w1 Hd Hd2.
  unfold createTaskRow, AddTotalTask. wp_step. wp_step; [done|]. case_bool; [done|]. wp_step. wp_step; [done|]. wp_step.
  eapply wp_mono; [apply frames_createEvent|]. intros [[]|e] w3 H3; [|done]. wp_step. intros _.
  eapply same_assign_good; [exact H3|]. by eapply (assigned_create (w_db w2) task1).
Qed.

(** *** The operations that may fail after their transaction *)

(** [safe m w]: whether it succeeds or fails, [m] keeps the invariant. *)
Definition safe {A} (m : M A) (w : World) : Prop :=
  well_assigned (w_db w) → wp m (λ _ w', good (w_db w) (w_db w')) w.

Lemma safe_moves {A} (m : M A) w : (well_assigned (w_db w) → moves (w_db w) m w) → safe m w.
Proof. intros Hm Ha. eapply wp_moves; [by apply Hm|done|]. intros e w' ->. by apply good_refl. Qed.

Lemma safe_frames {A} (m : M A) w : frames same_assign m → safe m w.
Proof. intros Hm Ha. eapply wp_mono; [apply Hm|]. intros r w' H. by apply same_assign_goods. Qed.

Lemma safe_ret {A} (a : A) w : safe (mret a) w.
Proof. intros Ha. by apply good_refl. Qed.
Lemma safe_fail {A} e w : safe (fail e : M A) w.
Proof. intros Ha. by apply good_refl. Qed.
#[local] Hint Resolve safe_ret safe_fail : core.

Lemma safe_bind {A B} (m : M A) (k : A → M B) w : safe m w → (∀ a w', safe (k a) w') → safe (m ≫= k) w.
Proof.
  intros Hm Hk Ha. wp_step. eapply wp_mono; [by apply Hm|]. intros [a|e] w' H; [|done].
  eapply wp_mono; [apply Hk, H|]. intros r w2 H2. by eapply good_trans.
Qed.

Lemma safe_try {A} (m : M A) w : safe m w → safe (try_ m) w.
Proof. intros Hm Ha. wp_step. by apply Hm. Qed.

Lemma safe_transaction {A} (m : M A) w : (∀ w1, safe m w1) → safe (transaction m) w.
Proof.
  intros Hm Ha. apply (wp_transaction_db _ (good (w_db w))); [by apply good_refl|]. intros w1 Hd.
  rewrite <- Hd. eapply wp_mono; [apply Hm; by rewrite Hd|]. done.
Qed.

Lemma safe_for_each {A} (l : list A) (f : A → M unit) w : (∀ x w', safe (f x) w') → safe (for_each l f) w.
Proof. intros Hf. revert w. induction l as [|x l IH]; intros w; simpl; [done|]. by apply safe_bind. Qed.

(** A row update of a node that only changes its status, for another of the same
    kind. *)
Lemma safe_status node s w :
  working s = working (n_Status node) →
  safe (nodeUpdateStatus node (λ n, n <| n_Status := s |>)) w.
Proof.
  intros Hs Ha. apply (wp_nodeUpdateStatus _ _ (λ n, n <| nv_Status := s |>)); [done|intros e w' ->; by apply good_refl|].
  intros w' [Ht Hn]. split; [|unfold evolves_in; by rewrite Ht]. unfold assigned_in in *. rewrite Ht, Hn. apply assigned_nodes; [done|].
  intros m _ Hh. unfold there in Hh. simplify_bool. split_and!; [done|done|done|]. simpl.
  destruct m. simpl in *. by subst.
Qed.

Lemma idle_leaves node w w' :
  well_assigned (w_db w) → working (n_Status node) = false → released node w w' → good (w_db w) (w_db w').
Proof.
  intros Ha Hs (g & Hg & Ht1 & Hn1). split; [|unfold evolves_in; by rewrite Ht1]. unfold assigned_in in *. rewrite Ht1, Hn1. apply assigned_nodes; [done|].
  intros m Hm Hh. unfold there in Hh. simplify_bool. destruct (Hg m) as (? & ? & -> & ->).
  assert (Hwk : working (nv_Status m) = false) by (destruct m; simpl in *; by subst).
  split_and!; [done|done| |done]. destruct Ha as (_ & _ & Hw & _). specialize (Hw _ Hm).
  rewrite Hwk in Hw. destruct (nv_Current m) as [c|]; [|done]. destruct Hw as [Hw _]. by discriminate Hw.
Qed.

Lemma safe_Quit node slashed w : working (n_Status node) = false → safe (SetNodeStatusQuit node slashed) w.
Proof.
  intros Hs Ha. pose proof (good_refl _ Ha) as Hr. unfold SetNodeStatusQuit. wp_step. wp_step; [exact Hr|].
  eapply wp_mono; [apply wp_setNodeStatusQuitTx|]. intros [[[node' b] tx]|e] w1 H1; [|exact Hr]. destruct H1 as [H1 _].
  split; [intros; exact Hr|]. assert (Hw : good (w_db w) (w_db w1)) by (eapply idle_leaves; [exact Ha|exact Hs|exact H1]).
  eapply wp_mono; [match goal with |- wp ?m _ ?x => apply (safe_frames m x) end; [frame_tac|apply Hw]|].
  intros r w2 H2. eapply good_trans; [exact Hw|exact H2].
Qed.

Lemma safe_attempts n last node attempt inMemory w :
  (∀ node w', safe (attempt node) w') → safe (attempts n last node attempt inMemory) w.
Proof.
  intros Hat. revert last node w. induction n as [|n IH]; intros last node w; simpl; [done|].
  apply safe_bind; [by apply safe_try|]. intros [[]|e] w1; [done|]. case_bool; [|done].
  apply safe_bind; [apply safe_frames; unfold nodeSyncStatus; frame_tac|]. auto.
Qed.

Lemma safe_GetNode a w : safe (GetNodeByAddress a) w.
Proof. apply safe_frames. unfold GetNodeByAddress. frame_tac. Qed.

Lemma safe_NodePause address w : safe (NodePause address) w.
Proof.
  unfold NodePause. apply safe_bind; [apply safe_GetNode|]. intros node w1. apply safe_attempts. clear.
  intros node w. destruct (n_Status node) eqn:Hst; try done; apply safe_bind.
  - apply safe_transaction. intros w1. apply safe_bind; [apply safe_status; by rewrite Hst|]. intros. apply safe_frames.
    frame_tac.
  - intros. apply safe_frames. frame_tac.
  - apply safe_status; by rewrite Hst.
  - done.
Qed.

Lemma safe_NodeResume address w : safe (NodeResume address) w.
Proof.
  unfold NodeResume. apply safe_bind; [apply safe_GetNode|]. intros node w1. apply safe_attempts. clear.
  intros node w. destruct (n_Status node) eqn:Hst; try done; apply safe_bind.
  - apply safe_transaction. intros w1. apply safe_bind; [apply safe_status; by rewrite Hst|]. intros. apply safe_frames.
    frame_tac.
  - intros. apply safe_frames. frame_tac.
Qed.

Lemma safe_NodeQuit address w : safe (NodeQuit address) w.
Proof.
  unfold NodeQuit. apply safe_bind; [apply safe_GetNode|]. intros node w1.
  apply safe_bind; [apply safe_frames; frame_tac|]. intros info w2. case_bool; [done|]. apply safe_attempts. clear.
  intros node w. destruct (n_Status node) eqn:Hst; try done; (apply safe_bind; [|done]).
  1, 3: apply safe_Quit; by rewrite Hst.
  apply safe_status; by rewrite Hst.
Qed.

Lemma safe_SlashNode node c w : node_in node (w_db w) → safe (SlashNode node c) w.
Proof.
  intros Hn Ha. eapply wp_mono; [apply (wp_SlashNode None); auto|]. intros r w' [_ [->|H]]; [by apply good_refl|done].
Qed.

Lemma safe_SlashPendingNode id w : safe (SlashPendingNode id) w.
Proof.
  unfold SlashPendingNode. apply safe_bind; [apply safe_frames; unfold firstPendingSlash; frame_tac|].
  intros _ w1 Ha. pose proof (good_refl _ Ha) as Hr. wp_step. wp_step; [exact Hr|]. unfold firstPendingSlash.
  wp_step. wp_step; [exact Hr|]. destruct (find_first _ _) as [ps|]; [|exact Hr]. case_bool; [exact Hr|].
  case_bool; [exact Hr|]. unfold GetNodeByAddress. wp_step. wp_step; [exact Hr|].
  destruct (find_first _ _) as [node|] eqn:Hf; [|exact Hr].
  apply find_first_Some in Hf as [Hin _]. case_bool; [exact Hr|]. wp_step.
  eapply wp_mono; [apply (wp_slashNodeTx None); [exact Ha|by apply elem_of_map_2|by left]|].
  intros [[[[nd b] tx] post]|err] w2 H2; [|exact Hr]. destruct H2 as [H2 Hpost].
  wp_step. wp_step; [exact Hr|]. wp_step. split; [intros; exact Hr|].
  eapply wp_mono; [by apply frames_afterSlash|]. intros r w3 H3. eapply same_assign_good; [exact H3|exact H2].
Qed.

Lemma safe_MarkTaskDelivered task w : safe (MarkTaskDelivered task) w.
Proof.
  apply safe_frames. unfold MarkTaskDelivered. frame_tac. apply frames_db_exec; [apply _|].
  intros w1 b d [= _ <-]. split; [|done]. simpl. by rewrite map_update_same.
Qed.

End ops.

End Assignment.
