(* ===== verification/Matching.v ===== *)
(** * Task matching

    src/service/task_matching.go: one round of the scheduler pages through the
    queued tasks in the order of their priority, gives each task a node drawn
    from the candidates of a snapshot of the node index that are not reserved
    yet, and then starts the pairs.  Candidate sets are shared between tasks with
    the same requirement signature.  src/service/selecting_prob.go computes the
    sampling weights. *)

From Stdlib Require Import Ascii.
From stdpp Require Import sorting.
From S2P Require Import Prelude Paging Models Config Delegation VestingSchedule Deadline Mac.
From S2P Require Import MaxStaking Store ModelWhitelist Statistic Ledger LedgerCoherence LedgerSync Vesting Qos.
From S2P Require Import NodeState NodeNames NodeIndex TaskStatus Assignment.

Module Matching.
Import Mac Deadline Statistic Ledger LedgerCoherence LedgerSync Vesting Qos NodeState NodeNames NodeIndex TaskStatus ModelWhitelist.

(** ** Definitions *)

(** *** Sampling weights *)

(** [NodeSelectingProb], src/service/selecting_prob.go 20-25 *)
Record NodeSelectingProb := mkProb {
  pb_ScoreStakeAmount : Z;
  pb_StakingScore : float64;
  pb_QOSScore : float64;
  pb_ProbWeight : float64
}.

(** The precision of a [big.Float] set from an integer, and the conversion back to
    float64; the exponent range of [big.Float] is that of [int32]. *)
Definition big_prec (z : Z) : Z := Z.max 64 (Z.log2 (Z.abs z) + 1).
Definition big_emax : Z := 2 ^ 31.
Definition big_to_f64 (f : spec_float) : float64 :=
  match f with
  | S754_finite s m e => binary_normalize 53 1024 (if s then Z.neg m else Z.pos m) e false
  | f => f
  end.

(** [CalculateStakingScore], src/service/selecting_prob.go 78-86: quotient and
    square root are rounded to the larger of the two precisions. *)
Definition CalculateStakingScore (staking maxStaking : Z) : float64 :=
  if maxStaking =? 0 then f64_zero
  else
    let prec := Z.max (big_prec staking) (big_prec maxStaking) in
    let num x := binary_normalize (big_prec x) big_emax x 0 false in
    big_to_f64 (SFsqrt prec big_emax (SFdiv prec big_emax (num staking) (num maxStaking))).

(** [CalculateSelectingProb], src/service/selecting_prob.go 66-76 *)
Definition CalculateSelectingProb (staking maxStaking : Z) (qosScore : float64) : float64 * float64 * float64 :=
  let stakingProb := CalculateStakingScore staking maxStaking in
  let prob := if f64_eq stakingProb f64_zero || f64_eq qosScore f64_zero then f64_zero
              else f64_div (f64_mul stakingProb qosScore) (f64_add stakingProb qosScore) in
  (stakingProb, qosScore, prob).

(** *** Requirements *)

Definition bar (s r : string) : string := s +:+ String "|" r.

(** [requirementSignature], src/service/task_matching.go 43-48 *)
Definition requirementSignature (task : InferenceTask) : string :=
  bar (format_Z (TaskType_code (t_TaskType task)))
  (bar (format_Z (t_MinVRAM task))
  (bar (t_RequiredGPU task)
  (bar (format_Z (t_RequiredGPUVRAM task))
  (bar (t_TaskVersion task)
  (bar (hex_bytes (t_RequiredModelFileHashes task))
  (bar (hex_bytes (t_RequiredModelFileSourceHashes task))
  (bar (hex_bytes (t_RequestedModelCacheHash task))
  (if t_RequireLinuxCuda task then "true" else "false")))))))).

(** [entryMatchesTaskVersion], src/service/task_matching.go 50-54 *)
Definition entryMatchesTaskVersion (entry : NodeIndexEntry) (version : Z * Z * Z) : bool :=
  let '(major, minor, patch) := version in
  (ix_MajorVersion entry =? major) &&
  ((minor <? ix_MinorVersion entry) || ((ix_MinorVersion entry =? minor) && (patch <=? ix_PatchVersion entry))).

(** [platformFromGPUName], src/service/task_matching.go 70-76 *)
Definition platformFromGPUName (gpuName : string) : string :=
  match SplitN "+"%char gpuName 2 with [_; platform] => TrimSpace platform | _ => "" end.

(** [isDarwinGPUName], src/service/task_matching.go 56-62 *)
Definition isDarwinGPUName (gpuName : string) : bool :=
  match SplitN "+"%char gpuName 2 with [_; platform] => String.eqb (TrimSpace platform) "Darwin" | _ => true end.

(** [isLinuxCudaPlatform], src/service/task_matching.go 80-83 *)
Definition isLinuxCudaPlatform (gpuName : string) : bool :=
  String.eqb (platformFromGPUName gpuName) "docker" || String.eqb (platformFromGPUName gpuName) "Linux".

(** The conditions on a node, src/service/task_matching.go 107-122 *)
Definition gpuSuits (task : InferenceTask) (entry : NodeIndexEntry) : bool :=
  (negb (t_RequireLinuxCuda task) || isLinuxCudaPlatform (ix_GPUName entry)) &&
  (if negb (String.eqb (t_RequiredGPU task) "") then
     String.eqb (ix_GPUName entry) (t_RequiredGPU task) && (ix_GPUVram entry =? t_RequiredGPUVRAM task)
   else
     (t_MinVRAM task <=? ix_GPUVram entry) &&
     negb (bool_decide (t_TaskType task = TaskTypeLLM) && isDarwinGPUName (ix_GPUName entry))).

(** A node that can take a task, src/service/task_matching.go 97-99 and 307-309 *)
Definition isIdle (entry : NodeIndexEntry) : bool :=
  bool_decide (ix_Status entry = NodeStatusAvailable) && negb (ix_HasCurrentTask entry).

(** One candidate: the entry, its score and its weight; the source keeps three
    slices of the same length. *)
Record candidate := mkCandidate {
  cd_entry : NodeIndexEntry;
  cd_score : float64;
  cd_prob : NodeSelectingProb
}.

(** [matchingCandidateSet], src/service/task_matching.go 25-29 *)
Notation matchingCandidateSet := (list candidate).

(** [matchedPair], src/service/task_matching.go 32-39, without the trace *)
Record matchedPair := mkPair {
  pr_task : InferenceTask;
  pr_nodeAddress : string;
  pr_matchedAt : Time
}.

(** [modelLocalityWeight], src/service/task_matching.go 21: the float64 nearest to
    1.3 *)
Definition modelLocalityWeight : float64 := binary_normalize 53 1024 5854679515581645 (-52) false.

(** *** The order of the queue *)

(** [ORDER BY priority DESC, id ASC], src/service/task_matching.go 299 *)
Definition queueOrder (t1 t2 : InferenceTask) : Prop :=
  t_Priority t2 < t_Priority t1 ∨ (t_Priority t1 = t_Priority t2 ∧ t_ID t1 ≤ t_ID t2).
#[export] Instance queueOrder_dec : RelDecision queueOrder.
Proof. intros t1 t2. unfold queueOrder. apply _. Defined.

(** The condition that skips the pages before, src/service/task_matching.go
    291-296 *)
Definition afterTask (cursor : option (Z * Z)) (task : InferenceTask) : bool :=
  match cursor with
  | None => true
  | Some (lastPriority, lastID) =>
      (t_Priority task <? lastPriority) || ((t_Priority task =? lastPriority) && (lastID <? t_ID task))
  end.

Definition isQueued (task : InferenceTask) : bool := bool_decide (t_Status task = TaskQueued).

(** The rows of a page, src/service/task_matching.go 289-299 *)
Definition queuedPage (cursor : option (Z * Z)) (limit : Z) (tasks : list InferenceTask) : list InferenceTask :=
  take (Z.to_nat limit) (merge_sort queueOrder (select_where (λ t, isQueued t && afterTask cursor t) tasks)).

(** [hasUnreservedEligibleNode], src/service/task_matching.go 305-316 *)
Definition hasUnreservedEligibleNode (entries : list NodeIndexEntry) (reserved : gset string) : bool :=
  existsb (λ e, isIdle e && negb (bool_decide (ix_Address e ∈ reserved))) entries.

(** The state of a round, src/service/task_matching.go 326-329 *)
Record matchRound := mkRound {
  mr_reserved : gset string;
  mr_candidateSets : gmap string matchingCandidateSet;
  mr_pairs : list matchedPair
}.

Section matching.
Context {E : Env}.

(** [filterIndexEntriesForTaskAt], src/service/task_matching.go 92-124 *)
Definition filterIndexEntriesForTaskAt (task : InferenceTask) (entries : list NodeIndexEntry) (t : Time)
    : result (list NodeIndexEntry) :=
  match VersionNumbers task with
  | Err e => Err e
  | Ok version =>
      Ok (select_where (λ entry,
        isIdle entry && negb (IsHealthExcluded (NodeIndex.scoreNode entry) t) &&
        entryMatchesTaskVersion entry version && gpuSuits task entry) entries)
  end.

(** One turn of the loop of [filterIndexEntriesByNodeNamePolicy],
    src/service/task_matching.go 134-155 *)
Definition allowedByNodeNamePolicy (entry : NodeIndexEntry) : M bool :=
  let nodeVersion := BuildNodeVersion (ix_MajorVersion entry) (ix_MinorVersion entry) (ix_PatchVersion entry) in
  allowed ← (if Task_NodeNameWhitelistEnabled env_cfg
             then IsNodeNameWhitelisted (ix_GPUName entry) (ix_GPUVram entry) nodeVersion else mret true);
  if negb allowed then mret false
  else if 0 <? Task_MinimumNodeNameNumber env_cfg then
    count ← GetNodeNameActiveCount (ix_GPUName entry) (ix_GPUVram entry) nodeVersion;
    mret (Task_MinimumNodeNameNumber env_cfg <=? count)
  else mret true.

Fixpoint keepAllowed (entries : list NodeIndexEntry) : M (list NodeIndexEntry) :=
  match entries with
  | [] => mret []
  | entry :: rest =>
      allowed ← allowedByNodeNamePolicy entry;
      kept ← keepAllowed rest;
      mret (if (allowed : bool) then entry :: kept else kept)
  end.

(** [filterIndexEntriesByNodeNamePolicy], src/service/task_matching.go 126-158 *)
Definition filterIndexEntriesByNodeNamePolicy (entries : list NodeIndexEntry) : M (list NodeIndexEntry) :=
  if (Task_MinimumNodeNameNumber env_cfg =? 0) && negb (Task_NodeNameWhitelistEnabled env_cfg)
  then mret entries else keepAllowed entries.

(** [GetMaxStaking], src/service/selecting_prob.go 88-90 *)
Definition GetMaxStaking : M Z :=
  cache_read (λ c, MaxStaking.get (EtherToWei (Task_StakeAmount env_cfg)) (c_max c)).

(** [CalculateNodeSelectingProb], src/service/selecting_prob.go 47-64 *)
Definition CalculateNodeSelectingProb (node : Node) (t : Time) : M NodeSelectingProb :=
  scoreStakeAmount ← (if bool_decide (n_Status node = NodeStatusQuit) then mret 0 else GetNodeScoreStakeAmount node t);
  let qosScore := CalculateQosScoreAt (n_QOSScore node) (n_HealthBase node) (n_HealthUpdatedAt node) t in
  maxStaking ← GetMaxStaking;
  let '(stakingScore, qosScore, probWeight) := CalculateSelectingProb scoreStakeAmount maxStaking qosScore in
  mret (mkProb scoreStakeAmount stakingScore qosScore (if IsHealthExcluded node t then f64_zero else probWeight)).

(** [buildMatchingCandidateSet], src/service/task_matching.go 163-204 *)
Definition buildMatchingCandidateSet (task : InferenceTask) (entries : list NodeIndexEntry) : M matchingCandidateSet :=
  t ← now;
  filtered0 ← lift (filterIndexEntriesForTaskAt task entries t);
  filtered ← filterIndexEntriesByNodeNamePolicy filtered0;
  probs ← map_m (λ entry, CalculateNodeSelectingProb (NodeIndex.scoreNode entry) t) filtered;
  requirements ← lift (newTaskModelRequirements task);
  mret (map (λ ep,
    let score := pb_ProbWeight (snd ep) in
    mkCandidate (fst ep)
      (if holdsRequiredModelInMemory (fst ep) requirements then f64_mul score modelLocalityWeight else score) (snd ep))
    (select_where (λ ep, holdsRequiredModelFiles (fst ep) requirements) (zip filtered probs))).

(** [sampleCandidateIndex], src/service/task_matching.go 208-217 *)
Definition sampleCandidateIndex (scores : list float64) : M Z :=
  match scores with
  | [] => mret (-1)
  | _ :: _ => ask (λ n, Ok (Z.of_nat (default 0%nat (env_sample n scores))))
  end.

(** [matchTaskFromCandidateSet], src/service/task_matching.go 245-283 *)
Definition matchTaskFromCandidateSet (task : InferenceTask) (set : matchingCandidateSet) (reserved : gset string)
    : M (option matchedPair) :=
  let available := select_where (λ c, negb (bool_decide (ix_Address (cd_entry c) ∈ reserved))) set in
  if bool_decide (length available = 0%nat) then mret None
  else
    idx ← sampleCandidateIndex (map cd_score available);
    if idx <? 0 then mret None
    else
      matchedAt ← now;
      match available !! Z.to_nat idx with
      | Some c => mret (Some (mkPair task (ix_Address (cd_entry c)) matchedAt))
      | None => fail (ErrPanic "index out of range")
      end.

(** [fetchQueuedTaskPage], src/service/task_matching.go 285-303 *)
Definition fetchQueuedTaskPage (cursor : option (Z * Z)) (limit : Z) : M (list InferenceTask) :=
  db_read (λ d, queuedPage cursor limit (db_tasks d)).

(** The candidate set of a task, shared by its signature,
    src/service/task_matching.go 363-371 *)
Definition candidateSetOf (entries : list NodeIndexEntry) (st : matchRound) (task : InferenceTask)
    : M (matchingCandidateSet * matchRound) :=
  let signature := requirementSignature task in
  match mr_candidateSets st !! signature with
  | Some set => mret (set, st)
  | None =>
      set ← buildMatchingCandidateSet task entries;
      mret (set, mkRound (mr_reserved st) (<[signature := set]> (mr_candidateSets st)) (mr_pairs st))
  end.

(** One task of a page, src/service/task_matching.go 344-378 *)
Definition matchOne (entries : list NodeIndexEntry) (t : Time) (st : matchRound) (task : InferenceTask) : M matchRound :=
  if isQueuedTaskTimedOut env_cfg task t then mret st
  else
    checked ← (if Task_ModelWhitelistEnabled env_cfg
               then try_ (CheckTaskModelsWhitelisted task) else mret (Ok tt));
    match checked with
    | Err e =>
        if negb (bool_decide (e = ErrModelNotWhitelisted)) then fail e
        else
          SetTaskStatusEndAborted (task <| t_AbortReason := TaskAbortModelNotAllowed |>) "relay";;
          mret st
    | Ok _ =>
        found ← candidateSetOf entries st task;
        let '(set, st') := found in
        pair ← matchTaskFromCandidateSet task set (mr_reserved st');
        mret (match pair with
              | None => st'
              | Some p => mkRound ({[pr_nodeAddress p]} ∪ mr_reserved st') (mr_candidateSets st') (mr_pairs st' ++ [p])
              end)
    end.

(** The tasks of a page; an error ends the round with the pairs found so far. *)
Fixpoint matchTasks (entries : list NodeIndexEntry) (t : Time) (st : matchRound) (tasks : list InferenceTask)
    : M (matchRound * result unit) :=
  match tasks with
  | [] => mret (st, Ok tt)
  | task :: tasks' =>
      outcome ← try_ (matchOne entries t st task);
      match outcome with
      | Ok st' => matchTasks entries t st' tasks'
      | Err e => mret (st, Err e)
      end
  end.

(** The pages, src/service/task_matching.go 335-388; the second component tells
    whether the loop ended by itself. *)
Fixpoint matchPages (fuel : nat) (entries : list NodeIndexEntry) (cursor : option (Z * Z)) (st : matchRound)
    : M (matchRound * result bool) :=
  match fuel with
  | O => mret (st, Ok false)
  | S fuel' =>
      let batchSize := TaskMatching_BatchSize env_cfg in
      page ← try_ (fetchQueuedTaskPage cursor batchSize);
      match page with
      | Err e => mret (st, Err e)
      | Ok [] => mret (st, Ok true)
      | Ok (task :: tasks') =>
          let tasks := task :: tasks' in
          t ← now;
          matched ← matchTasks entries t st tasks;
          let '(st', outcome) := matched in
          match outcome with
          | Err e => mret (st', Err e)
          | Ok _ =>
              if Z.of_nat (length tasks) <? batchSize then mret (st', Ok true)
              else if negb (hasUnreservedEligibleNode entries (mr_reserved st')) then mret (st', Ok true)
              else
                let lastTask := List.last tasks task in
                matchPages fuel' entries (Some (t_Priority lastTask, t_ID lastTask)) st'
          end
      end
  end.

(** [startMatchedPair], src/service/task_matching.go 416-444: the error is only
    logged. *)
Definition startMatchedPair (pair : matchedPair) : M unit :=
  _ ← try_ (node ← GetNodeByAddress (pr_nodeAddress pair); SetTaskStatusStarted (pr_task pair) node);
  mret tt.

(** [startMatchedPairs], src/service/task_matching.go 401-414, in some order *)
Definition startMatchedPairs (pairs : list matchedPair) : M unit := for_each pairs startMatchedPair.

(** [runMatchingRound], src/service/task_matching.go 322-394: the number of pairs
    and the error *)
Definition runMatchingRound (fuel : nat) (entries : list NodeIndexEntry) : M (Z * result bool) :=
  matched ← matchPages fuel entries None (mkRound ∅ ∅ []);
  let '(st, outcome) := matched in
  let n := Z.of_nat (length (mr_pairs st)) in
  match outcome with
  | Err e => mret (n, Err e)
  | Ok ended => startMatchedPairs (mr_pairs st);; mret (n, Ok ended)
  end.
End matching.

(** ** The signature determines the candidates *)

Fixpoint bars (s : string) : nat :=
  match s with
  | EmptyString => 0
  | String c r => (if Ascii.eqb c "|" then 1 else 0) + bars r
  end.

Lemma bars_bar s r : bars (bar s r) = (bars s + S (bars r))%nat.
Proof. unfold bar. induction s as [|c s IH]; simpl; [done|]. rewrite IH. lia. Qed.

(** Two texts with the same number of bars before the split are split alike. *)
Lemma bar_inj s1 s2 r1 r2 : bars s1 = bars s2 → bar s1 r1 = bar s2 r2 → s1 = s2 ∧ r1 = r2.
Proof.
  unfold bar. revert s2. induction s1 as [|c s1 IH]; intros [|c' s2]; simpl; intros Hb Heq; simplify_eq; try done.
  destruct (IH s2) as [-> ->]; [|done|done]. destruct (Ascii.eqb c' "|"); lia.
Qed.

Lemma avoids_bars s : avoids "|" s = true → bars s = 0%nat.
Proof.
  induction s as [|c s IH]; simpl; [done|]. intros [Hc Hs]%andb_true_iff. apply negb_true_iff in Hc.
  rewrite Hc. by apply IH.
Qed.

Lemma bars_format z : bars (format_Z z) = 0%nat.
Proof. apply avoids_bars. unfold format_Z. case_bool; simpl; by apply format_N_avoids. Qed.

Lemma bars_hex bs : Forall is_byte bs → bars (hex_bytes bs) = 0%nat.
Proof.
  assert (Hd : ∀ n, 0 ≤ n < 16 → Ascii.eqb (hex_digit n) "|" = false).
  { intros n Hn. apply Ascii.eqb_neq. intros Heq. pose proof (hex_value_digit n Hn) as Hv. by rewrite Heq in Hv. }
  induction 1 as [|b bs Hb _ IH]; [done|]. unfold is_byte in Hb. cbn [hex_bytes bars].
  rewrite !Hd, IH; [done|apply Z.mod_pos_bound; lia|].
  split; [apply Z.div_pos; lia|apply Z.div_lt_upper_bound; lia].
Qed.

Lemma version_avoids task v : VersionNumbers task = Ok v → avoids "|" (t_TaskVersion task) = true.
Proof.
  unfold VersionNumbers. cbn [SplitN]. destruct (cut "." _) as [[x y]|] eqn:H1; [|done].
  destruct (cut "." y) as [[x' y']|] eqn:H2; [|done]. destruct (cut "." y') as [[]|]; [done|].
  destruct (ParseUint x) eqn:Hx, (ParseUint x') eqn:Hx', (ParseUint y') eqn:Hy; try done. intros _.
  apply cut_Some in H1, H2. rewrite H1, avoids_app, H2. cbn [avoids]. rewrite avoids_app. cbn [avoids].
  by rewrite !(ParseUint_avoids "|" _ _ eq_refl Hx), (ParseUint_avoids "|" _ _ eq_refl Hx'), (ParseUint_avoids "|" _ _ eq_refl Hy).
Qed.

(** A row as task creation writes it: a version of three numbers, hashes of
    bytes. *)
Definition well_formed (t : InferenceTask) : Prop :=
  is_ok (VersionNumbers t) = true ∧ Forall is_byte (t_RequiredModelFileHashes t) ∧
  Forall is_byte (t_RequiredModelFileSourceHashes t) ∧ Forall is_byte (t_RequestedModelCacheHash t).

(** What the candidates of a task depend on. *)
Definition requirements_of (t : InferenceTask) : TaskType * Z * string * Z * string * (list Z * list Z * list Z) * bool :=
  (t_TaskType t, t_MinVRAM t, t_RequiredGPU t, t_RequiredGPUVRAM t, t_TaskVersion t,
   (t_RequiredModelFileHashes t, t_RequiredModelFileSourceHashes t, t_RequestedModelCacheHash t), t_RequireLinuxCuda t).

Lemma hex_inj x y : Forall is_byte x → Forall is_byte y → hex_bytes x = hex_bytes y → x = y.
Proof. intros Hx Hy H. pose proof (unhex_hex x Hx) as Hu. rewrite H, unhex_hex in Hu by done. by simplify_eq. Qed.

Lemma signature_requirements t1 t2 :
  well_formed t1 → well_formed t2 → requirementSignature t1 = requirementSignature t2 →
  requirements_of t1 = requirements_of t2.
Proof.
  intros (Hv1 & Ha1 & Hb1 & Hc1) (Hv2 & Ha2 & Hb2 & Hc2) H. unfold requirementSignature in H.
  assert (Hver : ∀ t, is_ok (VersionNumbers t) = true → bars (t_TaskVersion t) = 0%nat).
  { intros t Ht. destruct (VersionNumbers t) eqn:Hv; [|done]. by eapply avoids_bars, version_avoids. }
  apply bar_inj in H as [Hty H]; [|by rewrite !bars_format]. apply bar_inj in H as [Hmin H]; [|by rewrite !bars_format].
  assert (Hflag : ∀ t, bars (if t_RequireLinuxCuda t then "true" else "false") = 0%nat) by (intros t; by destruct (t_RequireLinuxCuda t)).
  apply bar_inj in H as [Hgpu H].
  2: { apply (f_equal bars) in H. rewrite !bars_bar, !bars_format, !Hver, !bars_hex, !Hflag in H by done. lia. }
  apply bar_inj in H as [Hvr H]; [|by rewrite !bars_format].
  apply bar_inj in H as [Hve H]; [|by rewrite !Hver]. apply bar_inj in H as [Hx H]; [|by rewrite !bars_hex].
  apply bar_inj in H as [Hy H]; [|by rewrite !bars_hex]. apply bar_inj in H as [Hz H]; [|by rewrite !bars_hex].
  apply format_Z_inj in Hty, Hmin, Hvr. apply hex_inj in Hx, Hy, Hz; [|done..]. unfold requirements_of.
  rewrite Hmin, Hgpu, Hvr, Hve, Hx, Hy, Hz. f_equal; [|by destruct (t_RequireLinuxCuda t1), (t_RequireLinuxCuda t2)].
  by destruct (t_TaskType t1), (t_TaskType t2).
Qed.

Section shared.
Context {E : Env}.

Lemma requirements_filter t1 t2 entries t :
  requirements_of t1 = requirements_of t2 →
  filterIndexEntriesForTaskAt t1 entries t = filterIndexEntriesForTaskAt t2 entries t.
Proof.
  unfold requirements_of, filterIndexEntriesForTaskAt, VersionNumbers. intros [= H1 H2 H3 H4 H5 H6 H7 H8 H9]. rewrite H5.
  assert (Hg : ∀ e, gpuSuits t1 e = gpuSuits t2 e) by (intros e; unfold gpuSuits; by rewrite H1, H2, H3, H4, H9).
  repeat case_match; simplify_eq; try done; f_equal; apply select_ext; intros e _; by rewrite Hg.
Qed.

(** Sharing a candidate set between tasks with the same signature is the same
    as computing it for each: for rows as task creation writes them the printed
    signature determines everything the set depends on, although a required card
    name may contain the separator. *)
Theorem requirementSignature_sound (t1 t2 : InferenceTask) (entries : list NodeIndexEntry) (w : World) :
  well_formed t1 → well_formed t2 → requirementSignature t1 = requirementSignature t2 →
  buildMatchingCandidateSet t1 entries w = buildMatchingCandidateSet t2 entries w.
Proof.
  intros Hw1 Hw2 Hs. pose proof (signature_requirements _ _ Hw1 Hw2 Hs) as H.
  assert (Hr : newTaskModelRequirements t1 = newTaskModelRequirements t2).
  { unfold requirements_of in H. unfold newTaskModelRequirements. injection H as _ _ _ _ _ -> -> -> _. done. }
  unfold buildMatchingCandidateSet, mbind, M_bind. simpl. by rewrite (requirements_filter _ _ _ _ H), Hr.
Qed.
End shared.

(** Queued tasks for a card whose name contains the separator. *)
Definition demo_queued (id priority vram : Z) (gpu : string) : InferenceTask :=
  mkTask id "0x" "0xc" "" "" TaskQueued TaskTypeSD "3.0.0" "" [] 100 100 vram gpu 0 10 priority TaskAbortReasonNone
    TaskErrorNone "" None "" "" 0 "" false None None None None None None None None [] [] (replicate 32 0) false unpriced.

Lemma demo_well_formed id priority vram gpu : well_formed (demo_queued id priority vram gpu).
Proof. split_and!; [reflexivity|constructor|constructor|]. apply Forall_replicate. unfold is_byte. lia. Qed.

Lemma requirementSignature_sound_witness :
  buildMatchingCandidateSet (E:=demo_env) (demo_queued 1 5 4 "A|8|3") [] empty_world =
  buildMatchingCandidateSet (E:=demo_env) (demo_queued 2 9 4 "A|8|3") [] empty_world.
Proof. apply (requirementSignature_sound (E:=demo_env)); [apply demo_well_formed|apply demo_well_formed|reflexivity]. Defined.
End Matching.
