(* ===== verification/MatchingRound.v ===== *)
(** * A round of task matching

    What [runMatchingRound] promises (src/service/task_matching.go, modelled in
    [Matching.v]): the pairs it finds are sound for any snapshot of the node
    index, and the greedy pass through the queue leaves no task behind that a free
    node of the snapshot could take. *)

From Stdlib Require Import Ascii.
From stdpp Require Import sorting.
From S2P Require Import Prelude Paging Models Config Delegation VestingSchedule Deadline Mac.
From S2P Require Import MaxStaking Store ModelWhitelist Statistic Ledger LedgerCoherence LedgerSync Vesting Qos.
From S2P Require Import NodeState NodeNames NodeIndex TaskStatus Assignment Matching.

Module MatchingRound.
Import Mac Deadline Statistic Ledger LedgerCoherence LedgerSync Vesting Qos NodeState NodeNames NodeIndex TaskStatus.
Import Matching.

Section round.
Context {E : Env}.

(** Nothing but the status columns of the task rows changes. *)
Definition task_key (t : InferenceTask) : Z * Z * (TaskType * Z * string * Z * string * (list Z * list Z * list Z) * bool) :=
  (t_ID t, t_Priority t, requirements_of t).
Definition task_keys (d : DB) := map task_key (db_tasks d).

Lemma keys_taskUpdateStatus task f :
  (∀ t, task_key (f t) = task_key t) → frames (keeps task_keys) (taskUpdateStatus task f).
Proof.
  intros Hf. unfold taskUpdateStatus. frame_tac. apply frames_db_exec; [apply _|]. intros w a d.
  case_match; [|done]. intros [= _ <-]. unfold keeps, task_keys. simpl. apply map_update_same. auto.
Qed.
#[local] Hint Extern 1 (frames _ (taskUpdateStatus _ _)) => apply keys_taskUpdateStatus; reflexivity : relay.

Lemma keys_event t r a x : frames (keeps task_keys) (createRelayAccountEvent t r a x).
Proof. keep_tac. unfold insert_event in *. by repeat case_match; simplify_eq. Qed.
#[local] Hint Resolve keys_event : relay.

Lemma keys_refund a b n : frames (keeps task_keys) (refundTaskPaymentToRelayAccount a b n).
Proof. keep_tac. Qed.

Lemma keys_stats (m : M unit) : frames stats_only m → frames (keeps task_keys) m.
Proof.
  intros H. eapply frames_weaken; [exact H|]. intros w w' (_ & ne & us & ue & ni & Hd). unfold keeps. by rewrite Hd.
Qed.
#[local] Hint Resolve keys_refund keys_stats : relay.

Lemma keys_income a b n c d : frames (keeps task_keys) (sendTaskIncome a b n c d).
Proof.
  keep_tac. match goal with H : insert_events _ _ = _ |- _ => destruct (Assignment.insert_events_only _ _ _ _ H) as [x ->] end. done.
Qed.
Lemma keys_finish n : frames (keeps task_keys) (nodeFinishTask n).
Proof. keep_tac. Qed.
#[local] Hint Resolve keys_income keys_finish : relay.

Lemma keys_settle t n : frames (keeps task_keys) (settleAborted t n).
Proof. unfold settleAborted. frame_tac. Qed.
Lemma keys_finishAborted t n : frames (keeps task_keys) (finishAborted t n).
Proof. unfold finishAborted. keep_tac. Qed.
#[local] Hint Resolve keys_finishAborted : relay.

Lemma keys_EndAborted t s : frames (keeps task_keys) (SetTaskStatusEndAborted t s).
Proof.
  unfold SetTaskStatusEndAborted. frame_step; [frame_tac|]. frame_step; [frame_tac|]. frame_step. frame_step; [keep_tac|].
  apply frames_bind_commit; [apply _|apply keys_settle|apply Assignment.books_settle|]. intros c δ Hc.
  frame_tac; [keep_tac|]. by eapply (frames_commit (keeps task_keys)).
Qed.

(** What a round may do to the database. *)
Definition round_rel (w w' : World) : Prop :=
  task_keys (w_db w') = task_keys (w_db w) ∧
  (Task_ModelWhitelistEnabled env_cfg = false → w_db w' = w_db w ∧ later w w').

#[export] Instance round_rel_rel : WorldRel round_rel.
Proof.
  split; unfold round_rel, later; simpl; [done| |done|naive_solver lia].
  intros w1 w2 w3 [-> H1] [-> H2]. split; [done|]. intros H. destruct (H1 H), (H2 H). split; [congruence|lia].
Qed.

Lemma round_same w w' : w_db w' = w_db w → later w w' → round_rel w w'.
Proof. intros Hd Hl. split; [by rewrite Hd|done]. Qed.

(** The rows are as task creation writes them, with distinct ids. *)
Definition rows_ok (d : DB) : Prop := NoDup (map t_ID (db_tasks d)) ∧ Forall well_formed (db_tasks d).

Lemma well_formed_ext t1 t2 : requirements_of t1 = requirements_of t2 → well_formed t1 → well_formed t2.
Proof.
  unfold requirements_of, well_formed, VersionNumbers. intros [= _ _ _ _ Hv Ha Hb Hc _]. by rewrite Hv, Ha, Hb, Hc.
Qed.

Lemma rows_ok_keys d d' : task_keys d' = task_keys d → rows_ok d → rows_ok d'.
Proof.
  intros Hk [Hn Hw]. unfold task_keys in Hk. split.
  - rewrite <- (map_map task_key (λ k, fst (fst k))), Hk, map_map. exact Hn.
  - apply Forall_forall. intros t' Ht'. apply (elem_of_map_2 task_key) in Ht'. rewrite Hk in Ht'.
    apply elem_of_map_iff in Ht' as (t & Ht & Heq). rewrite Forall_forall in Hw.
    eapply well_formed_ext; [|by apply Hw]. by apply (f_equal snd) in Heq.
Qed.

(** The strict order of the queue. *)
Definition precedes (t1 t2 : InferenceTask) : Prop :=
  t_Priority t2 < t_Priority t1 ∨ (t_Priority t1 = t_Priority t2 ∧ t_ID t1 < t_ID t2).

(** A node fits a task. *)
Definition suits (t : InferenceTask) (e : NodeIndexEntry) : Prop :=
  isIdle e = true ∧ gpuSuits t e = true ∧
  (∃ version, VersionNumbers t = Ok version ∧ entryMatchesTaskVersion e version = true) ∧
  (∃ r, newTaskModelRequirements t = Ok r ∧ holdsRequiredModelFiles e r = true).

Lemma suits_ext t1 t2 e : requirements_of t1 = requirements_of t2 → suits t1 e → suits t2 e.
Proof.
  unfold suits, requirements_of, gpuSuits, VersionNumbers, newTaskModelRequirements.
  intros [= H1 H2 H3 H4 H5 H6 H7 H8 H9]. by rewrite H1, H2, H3, H4, H5, H6, H7, H8, H9.
Qed.

(** No policy on node names is configured. *)
Definition names_free : Prop := Task_MinimumNodeNameNumber env_cfg = 0 ∧ Task_NodeNameWhitelistEnabled env_cfg = false.

Definition candidates_of (entries : list NodeIndexEntry) (t : InferenceTask) (set : matchingCandidateSet) : Prop :=
  (∀ c, c ∈ set → cd_entry c ∈ entries ∧ suits t (cd_entry c)) ∧
  (names_free → ∀ e, e ∈ entries → suits t e → ix_HealthExcluded e = false → e ∈ map cd_entry set).

Lemma wp_keepAllowed entries w :
  wp (keepAllowed entries) (λ r _, ∀ l, r = Ok l → ∀ e, e ∈ l → e ∈ entries) w.
Proof.
  revert w. induction entries as [|e entries IH]; intros w; simpl.
  { wp_step. intros l [= <-]. done. }
  wp_step. eapply (wp_mono _ (λ _ _, True)); [done|]. intros [b|err] w1 _; [|done].
  wp_step. eapply wp_mono; [apply IH|]. intros [l|err] w2 H; [|done]. wp_step. intros l' [= <-] x Hx.
  specialize (H l eq_refl x). destruct b; set_solver.
Qed.

Lemma wp_policy entries w :
  wp (filterIndexEntriesByNodeNamePolicy entries)
    (λ r _, ∀ l, r = Ok l → (∀ e, e ∈ l → e ∈ entries) ∧ (names_free → l = entries)) w.
Proof.
  unfold filterIndexEntriesByNodeNamePolicy, names_free. case_bool; simplify_bool.
  - wp_step. intros l [= <-]. done.
  - eapply wp_mono; [apply wp_keepAllowed|]. intros r w' H l Hl. split; [by apply H|]. intros [H1 H2].
    rewrite H1, H2 in *. done.
Qed.
Lemma wp_and {A} (m : M A) P Q w : wp m P w → wp m Q w → wp m (λ r w', P r w' ∧ Q r w') w.
Proof. by split. Qed.

Lemma wp_build t entries w :
  wp (buildMatchingCandidateSet t entries) (λ r _, ∀ set, r = Ok set → candidates_of entries t set) w.
Proof.
  unfold buildMatchingCandidateSet. wp_step. wp_step. wp_step. wp_step. unfold filterIndexEntriesForTaskAt.
  destruct (VersionNumbers t) as [version|] eqn:Hv; [|done]. wp_step.
  eapply wp_mono; [apply wp_policy|]. intros [filtered|e] w1 Hpol; [|done]. wp_step.
  destruct (Hpol _ eq_refl) as [Hin Hall]. clear Hpol.
  eapply wp_mono; [apply wp_map_m_length|]. intros [probs|e] w2 Hlen; [|done]. specialize (Hlen _ eq_refl).
  wp_step. wp_step. destruct (newTaskModelRequirements t) as [r|] eqn:Hr; [|done]. wp_step. intros set [= <-]. split.
  - intros c Hc. apply elem_of_map_iff in Hc as ([e p] & [Hep Hf]%elem_of_select & ->). simpl in *.
    apply elem_of_zip_l, Hin, elem_of_select in Hep as [He Hs]. simplify_bool. split; [done|].
    unfold suits. split_and!; eauto.
  - intros Hfree e He (Hi & Hg & (v' & Hv' & Hmatch) & r' & Hr' & Hf) Hx.
    rewrite Hv in Hv'. rewrite Hr in Hr'. simplify_eq.
    assert (He' : e ∈ filtered).
    { rewrite (Hall Hfree). apply elem_of_select. split; [done|]. unfold IsHealthExcluded. simpl.
      by rewrite Hi, Hx, Hmatch, Hg. }
    apply list_elem_of_lookup in He' as [i Hi']. destruct (lookup_lt_is_Some_2 probs i) as [p Hp].
    { rewrite Hlen. by eapply lookup_lt_Some. }
    rewrite map_map. apply elem_of_map_iff. exists (e, p). split; [|done]. apply elem_of_select. split; [|done].
    apply list_elem_of_lookup. exists i. rewrite lookup_zip_with. by rewrite Hi', Hp.
Qed.

Lemma frames_keepAllowed P `{!WorldRel P} entries :
  (∀ e, frames P (allowedByNodeNamePolicy e)) → frames P (keepAllowed entries).
Proof. intros H. induction entries as [|e entries IH]; simpl; frame_tac; auto. Qed.

Lemma same_build t entries : frames (keeps id) (buildMatchingCandidateSet t entries).
Proof.
  assert (H : ∀ l, frames (keeps id) (keepAllowed l)) by (intros; apply frames_keepAllowed; [apply _|]; intros; keep_tac).
  keep_tac.
Qed.
Lemma later_build t entries : frames later (buildMatchingCandidateSet t entries).
Proof.
  assert (H : ∀ l, frames later (keepAllowed l)) by (intros; apply frames_keepAllowed; [apply _|]; intros; keep_tac).
  keep_tac.
Qed.
Lemma wp_matchTask t set reserved w :
  wp (matchTaskFromCandidateSet t set reserved)
    (λ r w', w_db w' = w_db w ∧ later w w' ∧
       match r with
       | Err _ => False
       | Ok None => ∀ c, c ∈ set → ix_Address (cd_entry c) ∈ reserved
       | Ok (Some p) => pr_task p = t ∧ pr_nodeAddress p ∉ reserved ∧
           ∃ c, c ∈ set ∧ ix_Address (cd_entry c) = pr_nodeAddress p
       end) w.
Proof.
  unfold matchTaskFromCandidateSet. set (available := select_where _ set).
  assert (Hav : ∀ c, c ∈ available ↔ c ∈ set ∧ ix_Address (cd_entry c) ∉ reserved).
  { intros c. unfold available. rewrite elem_of_select, negb_true_iff, bool_decide_eq_false. done. }
  case_bool_decide as Hlen.
  { wp_step. split_and!; [done|unfold later; lia|]. intros c Hc. apply dec_stable. intros Hn.
    apply nil_length_inv in Hlen. assert (c ∈ available) by by apply Hav. rewrite Hlen in *. set_solver. }
  wp_step. unfold sampleCandidateIndex. destruct (map cd_score available) as [|s ss] eqn:Hss.
  { apply (f_equal length) in Hss. rewrite length_map in Hss. done. }
  unfold wp at 1, ask. simpl. set (i := default 0%nat (env_sample (w_step w) (s :: ss))).
  assert (Hi : (i < length available)%nat).
  { rewrite <- (length_map cd_score), Hss. unfold i. destruct (env_sample _ _) eqn:Hs; simpl; [|lia].
    by apply env_sample_range in Hs. }
  replace (Z.of_nat i <? 0) with false by (symmetry; lia). wp_step. wp_step. rewrite Nat2Z.id.
  destruct (lookup_lt_is_Some_2 available i Hi) as [c Hc]. rewrite Hc. wp_step.
  split_and!; [done|unfold later; simpl; lia|done| |].
  - apply list_elem_of_lookup_2, Hav in Hc as [_ Hc]. done.
  - exists c. apply list_elem_of_lookup_2, Hav in Hc as [Hc _]. done.
Qed.

(** What holds of the state of a round after the tasks [seen]. *)
Record good (entries : list NodeIndexEntry) (seen : list InferenceTask) (st : matchRound) : Prop := {
  good_reserved : mr_reserved st = list_to_set (map pr_nodeAddress (mr_pairs st));
  good_nodup : NoDup (map pr_nodeAddress (mr_pairs st));
  good_tasks : sublist (map pr_task (mr_pairs st)) seen;
  good_suits : ∀ p, p ∈ mr_pairs st →
    ∃ e, e ∈ entries ∧ ix_Address e = pr_nodeAddress p ∧ suits (pr_task p) e;
  good_sets : ∀ s set, mr_candidateSets st !! s = Some set →
    ∃ t, well_formed t ∧ requirementSignature t = s ∧ candidates_of entries t set
}.

(** A node of the snapshot that suits the task went to a task before it. *)
Definition taken (st : matchRound) (task : InferenceTask) (e : NodeIndexEntry) : Prop :=
  ∃ p, p ∈ mr_pairs st ∧ pr_nodeAddress p = ix_Address e ∧ precedes (pr_task p) task.

(** The task was due at one of the clock readings [lo..hi-1], or has a node, or all
    the nodes it could take went to tasks before it. *)
Definition served (entries : list NodeIndexEntry) (lo hi : nat) (st : matchRound) (task : InferenceTask) : Prop :=
  (∃ n, (lo ≤ n < hi)%nat ∧ isQueuedTaskTimedOut env_cfg task (env_now n) = true) ∨
  task ∈ map pr_task (mr_pairs st) ∨
  (∀ e, e ∈ entries → suits task e → ix_HealthExcluded e = false → taken st task e).

Lemma sublist_elem {A} (l l' : list A) x : sublist l l' → x ∈ l → x ∈ l'.
Proof. intros H Hx. by eapply elem_of_submseteq, sublist_submseteq. Qed.

(** The round goes on: no pair is given up. *)
Definition extends (st st' : matchRound) : Prop := sublist (mr_pairs st) (mr_pairs st').

Lemma served_mono entries lo hi hi' st st' task :
  (hi ≤ hi')%nat → extends st st' → served entries lo hi st task → served entries lo hi' st' task.
Proof.
  intros Hh Hx [(n & Hn & Ht)|[Ht|Ht]]; [left|right; left|right; right].
  - exists n. split; [lia|done].
  - apply elem_of_map_iff in Ht as (p & Hp & ->). apply elem_of_map_2. by eapply sublist_elem.
  - intros e He Hs Hex. destruct (Ht e He Hs Hex) as (p & Hp & H). exists p. split; [by eapply sublist_elem|done].
Qed.

Lemma requirements_candidates entries t1 t2 set :
  requirements_of t1 = requirements_of t2 → candidates_of entries t1 set → candidates_of entries t2 set.
Proof.
  intros H [Hs Hc]. split.
  - intros c Hin. destruct (Hs c Hin). split; [done|]. by eapply suits_ext.
  - intros Hf e He Hsu. apply Hc; [done|done|]. by eapply suits_ext.
Qed.
(** The candidate set of a task is one of its requirements, built or shared. *)
Lemma wp_candidateSetOf entries seen st task w :
  good entries seen st → well_formed task →
  wp (candidateSetOf entries st task)
    (λ r w', w_db w' = w_db w ∧ later w w' ∧
       ∀ set st', r = Ok (set, st') → candidates_of entries task set ∧ good entries seen st' ∧ mr_pairs st' = mr_pairs st) w.
Proof.
  intros [Hr Hn Ht Hs Hsets] Hwf. unfold candidateSetOf. destruct (mr_candidateSets st !! _) as [set|] eqn:Hset.
  - wp_step. split_and!; [done|unfold later; lia|]. intros set' st' [= <- <-]. split_and!; [|done|done].
    apply Hsets in Hset as (t & Hwt & Heq & Hc). eapply requirements_candidates; [|done].
    by apply signature_requirements.
  - wp_step. eapply wp_mono; [apply wp_and; [apply wp_build|apply wp_and; [apply same_build|apply later_build]]|].
    intros [set|e] w1 (Hc & Hd & Hl); [|done]. wp_step. split_and!; [done|done|]. intros set' st' [= <- <-].
    specialize (Hc _ eq_refl). split_and!; [done| |done]. split; simpl; try done.
    intros s set' [[<- <-]|[_ H]]%lookup_insert_Some; [by exists task|by apply Hsets].
Qed.

Lemma sorted_snoc_precedes seen task x : StronglySorted precedes (seen ++ [task]) → x ∈ seen → precedes x task.
Proof. intros (H & _ & _)%StronglySorted_app Hx. apply H; [done|set_solver]. Qed.

Lemma sublist_snoc {A} (l l' : list A) x : sublist l l' → sublist l (l' ++ [x]).
Proof. intros H. etrans; [exact H|]. by apply sublist_inserts_r. Qed.

Lemma good_skip entries seen st task : good entries seen st → good entries (seen ++ [task]) st.
Proof. intros []. split; try done. by apply sublist_snoc. Qed.

Definition place (entries : list NodeIndexEntry) (st : matchRound) (task : InferenceTask) : M matchRound :=
  found ← candidateSetOf entries st task;
  let '(set, st') := found in
  pair ← matchTaskFromCandidateSet task set (mr_reserved st');
  mret (match pair with
        | None => st'
        | Some p => mkRound ({[pr_nodeAddress p]} ∪ mr_reserved st') (mr_candidateSets st') (mr_pairs st' ++ [p])
        end).

Lemma good_pair entries seen st task set p c :
  good entries seen st → candidates_of entries task set → pr_task p = task → pr_nodeAddress p ∉ mr_reserved st →
  c ∈ set → ix_Address (cd_entry c) = pr_nodeAddress p →
  good entries (seen ++ [task])
    (mkRound ({[pr_nodeAddress p]} ∪ mr_reserved st) (mr_candidateSets st) (mr_pairs st ++ [p])).
Proof.
  intros [Hr Hn Ht Hs Hsets] [Hc _] <- Hfree Hin Ha. split; simpl; rewrite ?map_app; simpl; try done.
  - rewrite Hr, list_to_set_app_L. simpl. set_solver.
  - apply NoDup_app. split_and!; [done| |apply NoDup_singleton]. rewrite Hr in Hfree. set_solver.
  - by apply sublist_app.
  - intros q [Hq| ->%list_elem_of_singleton]%elem_of_app; [by apply Hs|]. exists (cd_entry c).
    destruct (Hc c Hin). done.
Qed.

(** All the candidates of a task are reserved. *)
Lemma reserved_taken entries seen st task set :
  good entries seen st → candidates_of entries task set → StronglySorted precedes (seen ++ [task]) → names_free →
  (∀ c, c ∈ set → ix_Address (cd_entry c) ∈ mr_reserved st) →
  ∀ e, e ∈ entries → suits task e → ix_HealthExcluded e = false → taken st task e.
Proof.
  intros [Hr Hn Ht Hs Hsets] [_ Hc] Hsort Hfree Hres e He Hsu Hex. specialize (Hc Hfree e He Hsu Hex).
  apply elem_of_map_iff in Hc as (c & Hc & ->). apply Hres in Hc. rewrite Hr in Hc.
  apply elem_of_list_to_set, elem_of_map_iff in Hc as (p & Hp & Heq). exists p. split_and!; [done|done|].
  eapply sorted_snoc_precedes; [done|]. eapply sublist_elem; [done|]. by apply elem_of_map_2.
Qed.

(** What one task does to the round. *)
Definition steps_to entries seen lo st task w (r : result matchRound) (w' : World) : Prop :=
  round_rel w w' ∧
  ∀ st', r = Ok st' → good entries (seen ++ [task]) st' ∧ extends st st' ∧
    (names_free → Task_ModelWhitelistEnabled env_cfg = false → served entries lo (w_step w') st' task).

Lemma wp_place entries seen st lo task w :
  good entries seen st → well_formed task → StronglySorted precedes (seen ++ [task]) →
  wp (place entries st task) (steps_to entries seen lo st task w) w.
Proof.
  intros Hg Hwf Hsort. unfold place. wp_step. eapply wp_mono; [by eapply wp_candidateSetOf|].
  intros [[set st']|e] w1 (Hd1 & Hl1 & Hres); [|by split; [apply round_same|]].
  destruct (Hres _ _ eq_refl) as (Hc & Hg' & Hpairs). clear Hres. wp_step.
  eapply wp_mono; [apply wp_matchTask|]. intros [[p|]|e] w2 (Hd2 & Hl2 & Hp); [| |done]; wp_step.
  all: split; [apply round_same; [congruence|by eapply (wr_trans (P:=later))]|]; intros st2 [= <-].
  - destruct Hp as (Ht & Hfree & c & Hin & Ha). split_and!; [by eapply good_pair| |].
    + unfold extends. simpl. rewrite Hpairs. by apply sublist_inserts_r.
    + intros _ _. right; left. simpl. rewrite map_app. set_solver.
  - split_and!; [by apply good_skip|by unfold extends; rewrite Hpairs|]. intros Hfree _. right; right.
    by eapply reserved_taken.
Qed.

(** One task; the clock was read at step [n]. *)
Lemma wp_matchOne entries seen st n lo task w :
  good entries seen st → well_formed task → StronglySorted precedes (seen ++ [task]) →
  (Task_ModelWhitelistEnabled env_cfg = false → lo ≤ n < w_step w)%nat →
  wp (matchOne entries (env_now n) st task) (steps_to entries seen lo st task w) w.
Proof.
  intros Hg Hwf Hsort Hlo. unfold matchOne. fold (place entries st task).
  assert (Hplace : ∀ w1, round_rel w w1 → wp (place entries st task) (steps_to entries seen lo st task w) w1).
  { intros w1 Hd. eapply wp_mono; [by apply wp_place|]. intros r w2 (Hd' & H). split; [by eapply wr_trans|done]. }
  assert (Hskip : good entries (seen ++ [task]) st ∧ extends st st) by (split; [by apply good_skip|by unfold extends]).
  destruct (isQueuedTaskTimedOut _ _ _) eqn:Hdue.
  { wp_step. split; [apply wr_refl|]. intros st' [= <-]. split_and!; [apply Hskip|apply Hskip|].
    intros _ Hwl. left. exists n. auto. }
  wp_step. destruct (Task_ModelWhitelistEnabled env_cfg) eqn:Hwl; [|wp_step; apply Hplace; apply wr_refl].
  wp_step. eapply wp_mono; [apply (ModelWhitelist.frames_CheckTask round_rel)|].
  intros [[]|e] w0 H0; simpl; [by apply Hplace|]. case_bool.
  { wp_step. split; [exact H0|done]. }
  wp_step. eapply wp_mono; [apply keys_EndAborted|]. intros r w1 Hk.
  assert (Hrel : round_rel w w1) by (apply (wr_trans _ w0); [exact H0|split; [exact Hk|by rewrite Hwl]]).
  destruct r; [wp_step|]; (split; [apply Hrel|]); [|done].
  intros st' [= <-]. split_and!; [apply Hskip|apply Hskip|by rewrite Hwl].
Qed.

Lemma good_more entries seen more st : good entries seen st → good entries (seen ++ more) st.
Proof. intros []. split; try done. etrans; [done|]. by apply sublist_inserts_r. Qed.

(** The tasks of a page. *)
Lemma wp_matchTasks entries n lo tasks seen st w :
  good entries seen st → Forall well_formed tasks → StronglySorted precedes (seen ++ tasks) →
  (Task_ModelWhitelistEnabled env_cfg = false → lo ≤ n < w_step w)%nat →
  wp (matchTasks entries (env_now n) st tasks)
    (λ r w', round_rel w w' ∧ ∃ st' o, r = Ok (st', o) ∧ good entries (seen ++ tasks) st' ∧ extends st st' ∧
       (is_ok o = true → names_free → Task_ModelWhitelistEnabled env_cfg = false →
        ∀ x, x ∈ tasks → served entries lo (w_step w') st' x)) w.
Proof.
  revert seen st w. induction tasks as [|task tasks IH]; intros seen st w Hg Hwf Hsort Hlo; cbn [matchTasks].
  { wp_step. split; [apply wr_refl|]. exists st, (Ok tt). rewrite app_nil_r. split_and!; [done|done|by unfold extends|set_solver]. }
  apply Forall_cons in Hwf as [Hwt Hwf]. rewrite cons_middle, app_assoc in *. pose proof Hsort as (_ & Hsort1 & _)%StronglySorted_app.
  wp_step. wp_step. eapply wp_mono; [by eapply wp_matchOne|]. intros [st1|e] w1 [Hrel H].
  - destruct (H st1 eq_refl) as (Hg1 & Hx1 & Hs1). eapply wp_mono; [apply (IH (seen ++ [task]) st1 w1); try done|].
    { intros Hwl. destruct Hrel as [_ Hl]. destruct (Hl Hwl) as [_ Hl']. specialize (Hlo Hwl). unfold later in Hl'. lia. }
    intros r w2 [Hrel2 (st2 & o & Hr & Hg2 & Hx2 & Hs2)]. split; [by eapply wr_trans|]. exists st2, o.
    split_and!; [done|done|by unfold extends in *; etrans|]. intros Ho Hf Hwl x [->|Hin]%elem_of_cons; [|by apply Hs2].
    eapply served_mono; [|done|by apply Hs1]. destruct Hrel2 as [_ Hl]. by destruct (Hl Hwl).
  - wp_step. split; [done|]. exists st, (Err e). split_and!; [done|by do 2 apply good_more|by unfold extends|done].
Qed.

(** The rows behind the cursor, in the order of the queue. *)
Definition behind (cursor : option (Z * Z)) (d : DB) : list InferenceTask :=
  merge_sort queueOrder (select_where (λ t, isQueued t && afterTask cursor t) (db_tasks d)).

#[local] Instance queueOrder_trans : Transitive queueOrder.
Proof. intros x y z. unfold queueOrder. lia. Qed.
#[local] Instance queueOrder_total : Total queueOrder.
Proof. intros x y. unfold queueOrder. lia. Qed.

Lemma elem_of_behind cursor d x :
  x ∈ behind cursor d ↔ x ∈ db_tasks d ∧ isQueued x = true ∧ afterTask cursor x = true.
Proof. unfold behind. by rewrite merge_sort_Permutation, elem_of_select, andb_true_iff. Qed.

Lemma behind_ids cursor d : rows_ok d → NoDup (map t_ID (behind cursor d)).
Proof.
  intros [Hn _]. unfold behind.
  rewrite (Permutation_map t_ID (merge_sort_Permutation queueOrder _)). by apply NoDup_map_select.
Qed.

Lemma sorted_strict l : StronglySorted queueOrder l → NoDup (map t_ID l) → StronglySorted precedes l.
Proof.
  induction 1 as [|x l Hs IH Hx]; simpl; [constructor|]. intros [Hn Hd]%NoDup_cons. constructor; [by apply IH|].
  rewrite Forall_forall in *. intros y Hy. specialize (Hx y Hy). assert (t_ID x ≠ t_ID y).
  { intros Heq. apply Hn. rewrite Heq. by apply elem_of_map_2. }
  unfold queueOrder, precedes in *. lia.
Qed.

Lemma behind_sorted cursor d : rows_ok d → StronglySorted precedes (behind cursor d).
Proof. intros H. apply sorted_strict; [apply StronglySorted_merge_sort; apply _|by apply behind_ids]. Qed.

(** The last row of a page becomes the cursor. *)
Lemma behind_after cursor d l1 x l2 :
  rows_ok d → behind cursor d = l1 ++ x :: l2 → behind (Some (t_Priority x, t_ID x)) d = l2.
Proof.
  intros Hok Hb. assert (Hx : x ∈ behind cursor d) by (rewrite Hb; set_solver).
  apply elem_of_behind in Hx as (Hx & Hq & Ha). pose proof Hok as [Hid _]. unfold behind in *.
  rewrite <- (sorted_after queueOrder (select_where (λ t, isQueued t && afterTask cursor t) (db_tasks d)))
    with (l1 := l1) (x := x) (p := afterTask (Some (t_Priority x, t_ID x))); [|..].
  - rewrite select_select. f_equal. apply select_ext. intros y _. simpl. destruct (isQueued y); simpl; [|done].
    destruct cursor as [[pr i]|]; simpl in *; [|done]. lia.
  - eapply (NoDup_fmap_1 t_ID). by apply NoDup_map_select.
  - intros y z [Hy _]%elem_of_select [Hz _]%elem_of_select H1 H2. eapply NoDup_map_inj; [exact Hid|done|done|].
    unfold queueOrder in *. lia.
  - done.
  - intros y [Hy _]%elem_of_select. simpl. unfold queueOrder. split.
    + intros H. split; [lia|]. intros ->. lia.
    + intros [H Hne]. assert (t_ID x ≠ t_ID y) by (intros Heq; by eapply Hne, NoDup_map_inj). lia.
Qed.

(** A row the round has fetched. *)
Definition fetched (w : World) (x : InferenceTask) : Prop :=
  isQueued x = true ∧ task_key x ∈ task_keys (w_db w) ∧
  (Task_ModelWhitelistEnabled env_cfg = false → x ∈ db_tasks (w_db w)).

Lemma fetched_rel w w' x : round_rel w w' → fetched w' x → fetched w x.
Proof. intros [Hk Hd] (Hq & Hx & Hi). split_and!; [done|by rewrite <- Hk|]. intros Hwl. destruct (Hd Hwl) as [<- _]. auto. Qed.

(** Everything behind the cursor comes after what was seen. *)
Definition cursor_after (cursor : option (Z * Z)) (seen : list InferenceTask) : Prop :=
  ∀ x y, x ∈ seen → afterTask cursor y = true → precedes x y.

Lemma page_next cursor seen d limit task tasks :
  rows_ok d → StronglySorted precedes seen → cursor_after cursor seen →
  queuedPage cursor limit (db_tasks d) = task :: tasks →
  let lastTask := List.last (task :: tasks) task in
  StronglySorted precedes (seen ++ task :: tasks) ∧
  cursor_after (Some (t_Priority lastTask, t_ID lastTask)) (seen ++ task :: tasks) ∧
  behind cursor d = (task :: tasks) ++ behind (Some (t_Priority lastTask, t_ID lastTask)) d.
Proof.
  intros Hok Hs Hc Hpage lastTask. unfold queuedPage in Hpage. fold (behind cursor d) in Hpage.
  pose proof (take_drop (Z.to_nat limit) (behind cursor d)) as Hsplit. rewrite Hpage in Hsplit.
  pose proof (behind_sorted cursor d Hok) as Hb. rewrite <- Hsplit in Hb. apply StronglySorted_app in Hb as (_ & Hb & _).
  assert (Hin : ∀ y, y ∈ task :: tasks → afterTask cursor y = true).
  { intros y Hy. assert (Hy' : y ∈ behind cursor d) by (rewrite <- Hsplit; set_solver). by apply elem_of_behind in Hy' as (_ & _ & ?). }
  pose proof (app_removelast_last task (l := task :: tasks) ltac:(done)) as Hlast. fold lastTask in Hlast.
  split_and!.
  - apply StronglySorted_app. split_and!; [|done|done]. intros x y Hx Hy. apply Hc; [done|]. by apply Hin.
  - intros x y Hx Hy. assert (Hxl : x = lastTask ∨ precedes x lastTask).
    { apply elem_of_app in Hx as [Hx|Hx]; [right; apply Hc; [done|]; apply Hin; rewrite Hlast; set_solver|].
      rewrite Hlast in Hx, Hb. apply elem_of_app in Hx as [Hx|Hx%list_elem_of_singleton]; [|by left]. right.
      by eapply sorted_snoc_precedes. }
    simpl in Hy. destruct Hxl as [->|Hxl]; unfold precedes in *; lia.
  - rewrite <- Hsplit. f_equal. symmetry. eapply (behind_after cursor d (removelast (task :: tasks))); [done|].
    rewrite <- Hsplit at 1. rewrite Hlast at 1. by rewrite <- app_assoc.
Qed.

Lemma unreserved_taken entries seen st x :
  good entries seen st → hasUnreservedEligibleNode entries (mr_reserved st) = false →
  (∀ y, y ∈ seen → precedes y x) → ∀ e, e ∈ entries → suits x e → taken st x e.
Proof.
  intros [Hr Hn Ht Hs Hsets] Hno Hprec e He (Hi & _). assert (Hres : ix_Address e ∈ mr_reserved st).
  { apply dec_stable. intros Hnr. apply not_true_iff_false in Hno. apply Hno, existsb_exists. exists e.
    split; [by apply list_elem_of_In|]. by rewrite Hi, bool_decide_eq_false_2. }
  rewrite Hr in Hres. apply elem_of_list_to_set, elem_of_map_iff in Hres as (p & Hp & Heq). exists p.
  split_and!; [done|done|]. apply Hprec. eapply sublist_elem; [done|]. by apply elem_of_map_2.
Qed.

(** What the pages from a cursor on do to the round: the pairs stay sound, and
    when the loop ends by itself every task behind the cursor is served. *)
Definition pages_to entries lo (fuel : nat) cursor (seen : list InferenceTask) st w (r : result (matchRound * result bool)) (w' : World) : Prop :=
  round_rel w w' ∧ ∃ st' o, r = Ok (st', o) ∧ extends st st' ∧
    (∃ seen', good entries seen' st' ∧ StronglySorted precedes seen' ∧ ∀ x, x ∈ seen' → x ∈ seen ∨ fetched w x) ∧
    (0 < TaskMatching_BatchSize env_cfg → names_free → Task_ModelWhitelistEnabled env_cfg = false →
     (length (behind cursor (w_db w)) < fuel)%nat → ∀ b, o = Ok b →
     b = true ∧ ∀ x, x ∈ behind cursor (w_db w) → served entries lo (w_step w') st' x).

Lemma page_rows cursor limit d x :
  x ∈ queuedPage cursor limit (db_tasks d) → x ∈ db_tasks d ∧ isQueued x = true.
Proof.
  intros Hx. assert (Hb : x ∈ behind cursor d) by (unfold queuedPage in Hx; by eapply sublist_elem; [apply sublist_take|]).
  by apply elem_of_behind in Hb as (? & ? & _).
Qed.

Lemma behind_nil cursor limit d : 0 < limit → queuedPage cursor limit (db_tasks d) = [] → behind cursor d = [].
Proof.
  intros Hl H. unfold queuedPage in H. fold (behind cursor d) in H. destruct (behind cursor d); [done|].
  destruct (Z.to_nat limit) eqn:?; [lia|done].
Qed.

Lemma behind_short cursor limit d l :
  queuedPage cursor limit (db_tasks d) = l → Z.of_nat (length l) < limit → behind cursor d = l.
Proof.
  intros <- Hl. unfold queuedPage in *. fold (behind cursor d) in *. rewrite length_take in Hl. symmetry. apply take_ge. lia.
Qed.

(** A page that yields no task ends the loop. *)
Lemma pages_none entries lo fuel cursor seen st w o w' :
  good entries seen st → StronglySorted precedes seen → round_rel w w' →
  (∀ b, o = Ok b → 0 < TaskMatching_BatchSize env_cfg → b = true ∧ behind cursor (w_db w) = []) →
  pages_to entries lo (S fuel) cursor seen st w (Ok (st, o)) w'.
Proof.
  intros Hg Hs Hrel Ho. split; [done|]. exists st, o. split_and!; [done|by unfold extends|exists seen; eauto|].
  intros Hb _ _ _ b Hob. destruct (Ho b Hob Hb) as [-> ->]. set_solver.
Qed.

(** After a page: the loop ends, or goes on behind the last row of the page. *)
Section page.
Context (entries : list NodeIndexEntry) (lo fuel : nat) (cursor next : option (Z * Z)) (seen page : list InferenceTask).
Context (st st2 : matchRound) (w w2 : World).
Hypothesis Hrel : round_rel w w2.
Hypothesis Hext : extends st st2.
Hypothesis Hgood : good entries (seen ++ page) st2.
Hypothesis Hsort : StronglySorted precedes (seen ++ page).
Hypothesis Hfetch : ∀ x, x ∈ page → fetched w x.
Hypothesis Hbehind : behind cursor (w_db w) = page ++ behind next (w_db w).
Hypothesis Hpage : page ≠ [].

Lemma seen_fetched x : x ∈ seen ++ page → x ∈ seen ∨ fetched w x.
Proof. intros [Hx|Hx]%elem_of_app; [by left|right; by apply Hfetch]. Qed.

Lemma pages_stop o :
  (∀ b, o = Ok b → b = true ∧ (names_free → Task_ModelWhitelistEnabled env_cfg = false →
     ∀ x, x ∈ behind cursor (w_db w) → served entries lo (w_step w2) st2 x)) →
  pages_to entries lo (S fuel) cursor seen st w (Ok (st2, o)) w2.
Proof.
  intros Ho. split; [done|]. exists st2, o. split_and!; [done|done|exists (seen ++ page); eauto using seen_fetched|].
  intros _ Hf Hwl _ b Hb. destruct (Ho b Hb) as [-> H]. split; [done|]. by apply H.
Qed.

Lemma pages_on r w3 :
  (names_free → Task_ModelWhitelistEnabled env_cfg = false → ∀ x, x ∈ page → served entries lo (w_step w2) st2 x) →
  pages_to entries lo fuel next (seen ++ page) st2 w2 r w3 → pages_to entries lo (S fuel) cursor seen st w r w3.
Proof.
  intros Hs2 [Hr3 (st3 & o3 & -> & Hx3 & (seen3 & Hg3 & Hs3 & Hf3) & Hend3)].
  split; [by eapply wr_trans|]. exists st3, o3. split_and!; [done|by unfold extends in *; etrans| |].
  { exists seen3. split_and!; [done|done|]. intros x Hx. destruct (Hf3 x Hx) as [H|H]; [by apply seen_fetched|right].
    by eapply fetched_rel. }
  intros Hbs Hf Hwl Hlen b Hob. destruct (proj2 Hrel Hwl) as [Hd _]. rewrite Hd in Hend3.
  assert (Hlen' : (length (behind next (w_db w)) < fuel)%nat).
  { rewrite Hbehind, length_app in Hlen. destruct page; [done|]. simpl in Hlen. lia. }
  destruct (Hend3 Hbs Hf Hwl Hlen' b Hob) as [-> Hrest].
  split; [done|]. rewrite Hbehind. intros x [Hx|Hx]%elem_of_app; [|by apply Hrest].
  eapply served_mono; [|exact Hx3|by apply Hs2]. by destruct (proj2 Hr3 Hwl).
Qed.
End page.

Lemma wp_matchPages entries lo fuel cursor seen st w :
  good entries seen st → rows_ok (w_db w) → StronglySorted precedes seen → cursor_after cursor seen →
  (Task_ModelWhitelistEnabled env_cfg = false → lo ≤ w_step w)%nat →
  wp (matchPages fuel entries cursor st) (pages_to entries lo fuel cursor seen st w) w.
Proof.
  revert cursor seen st w. induction fuel as [|fuel IH]; intros cursor seen st w Hg Hok Hs Hc Hlo; cbn [matchPages].
  { wp_step. split; [apply wr_refl|]. exists st, (Ok false). split_and!; [done|by unfold extends| |lia]. exists seen. eauto. }
  wp_step. wp_step. unfold fetchQueuedTaskPage. wp_step; [by apply pages_none; [..|apply (wr_tick round_rel)|]|].
  set (w1 := tick _). assert (Hr1 : round_rel w w1) by (apply (wr_steps (P:=round_rel) w); simpl; lia).
  destruct (queuedPage cursor (TaskMatching_BatchSize env_cfg) (db_tasks (w_db w))) as [|task tasks] eqn:Hpage.
  { apply pages_none; [done..|]. intros b [= <-] Hb. split; [done|]. by eapply behind_nil. }
  destruct (page_next _ seen _ _ _ _ Hok Hs Hc Hpage) as (Hs' & Hc' & Hbehind).
  set (page := task :: tasks) in *. set (lastTask := List.last page task) in *.
  wp_step. unfold wp at 1, now. cbn [fst snd]. fold (tick w1). wp_step.
  assert (Hfetch : ∀ x, x ∈ page → fetched w x ∧ well_formed x).
  { intros x Hx. rewrite <- Hpage in Hx. apply page_rows in Hx as [Hx Hq]. destruct Hok as [_ Hwf].
    rewrite Forall_forall in Hwf. split; [split_and!; [done|by apply elem_of_map_2|done]|by apply Hwf]. }
  eapply wp_mono; [apply (wp_matchTasks entries (w_step w1) lo page seen st (tick w1)); [done| |done|]|].
  { apply Forall_forall. intros x Hx. by apply Hfetch. }
  { intros Hwl. specialize (Hlo Hwl). unfold w1. simpl. lia. }
  intros r w2 [Hr2 (st2 & o & -> & Hg2 & Hx2 & Hs2)].
  assert (Hr : round_rel w w2) by (eapply wr_trans; [exact Hr1|]; eapply wr_trans; [apply (wr_tick round_rel)|exact Hr2]).
  assert (Hne : page ≠ []) by done. clearbody page lastTask. clear Hr1 Hr2 w1.
  assert (Hstop : ∀ o', (∀ b, o' = Ok b → b = true ∧ (names_free → Task_ModelWhitelistEnabled env_cfg = false →
     ∀ x, x ∈ behind cursor (w_db w) → served entries lo (w_step w2) st2 x)) →
    pages_to entries lo (S fuel) cursor seen st w (Ok (st2, o')) w2).
  { intros o'. apply (pages_stop entries lo fuel cursor seen page); try done. intros x Hx. by apply Hfetch. }
  destruct o as [[]|e]; [|wp_step; by apply Hstop].
  destruct (_ <? _) eqn:Hshort.
  { wp_step. apply Hstop. intros b [= <-]. split; [done|]. intros Hf Hwl. rewrite (behind_short _ _ _ _ Hpage) by lia. by apply Hs2. }
  destruct (hasUnreservedEligibleNode _ _) eqn:Hno; simpl.
  - eapply wp_mono; [apply (IH _ (seen ++ page) st2 w2); [done|by eapply rows_ok_keys; [apply Hr|]|done|done|]|].
    { intros Hwl. destruct (proj2 Hr Hwl) as [_ Hl]. specialize (Hlo Hwl). unfold later in Hl. lia. }
    intros r w3. eapply (pages_on entries lo fuel cursor); try eassumption; [intros x Hx; by apply Hfetch|by apply Hs2].
  - wp_step. apply Hstop. intros b [= <-]. split; [done|]. intros Hf Hwl. rewrite Hbehind.
    intros x [Hx|Hx]%elem_of_app; [by apply Hs2|]. apply elem_of_behind in Hx as (_ & _ & Hx).
    right; right. intros e He Hsu _. eapply unreserved_taken; [exact Hg2|exact Hno| |exact He|exact Hsu].
    intros y Hy. by apply Hc'.
Qed.

Lemma sorted_sublist {A} (R : relation A) l l' : sublist l l' → StronglySorted R l' → StronglySorted R l.
Proof.
  induction 1 as [|x l l' Hl IH|x l l' Hl IH]; [done| |]; intros [Hs Hx]%StronglySorted_inv; [|by apply IH].
  constructor; [by apply IH|]. rewrite Forall_forall in *. intros y Hy. apply Hx. by eapply sublist_elem.
Qed.

Definition newRound : matchRound := mkRound ∅ ∅ [].

Lemma good_new entries : good entries [] newRound.
Proof. split; simpl; [done|constructor|done|set_solver|done]. Qed.

(** C24: whatever the snapshot of the index, the policies and the faults, the pairs
    of a round are sound: no node is given twice, the tasks come in the strict
    order of the queue (so no task is given twice), each is a queued row of the
    table, and each node is one of the snapshot that is available, holds the
    model files and satisfies the version, platform, card and memory requirements
    of its task. *)
Theorem matching_round_sound (fuel : nat) (entries : list NodeIndexEntry) (w : World) :
  rows_ok (w_db w) →
  wp (matchPages fuel entries None newRound) (λ r _, ∃ st outcome, r = Ok (st, outcome) ∧
    NoDup (map pr_nodeAddress (mr_pairs st)) ∧ StronglySorted precedes (map pr_task (mr_pairs st)) ∧
    ∀ p, p ∈ mr_pairs st →
      isQueued (pr_task p) = true ∧ task_key (pr_task p) ∈ task_keys (w_db w) ∧
      ∃ e, e ∈ entries ∧ ix_Address e = pr_nodeAddress p ∧ suits (pr_task p) e) w.
Proof.
  intros Hok. eapply wp_mono; [apply (wp_matchPages entries 0 fuel None [] newRound w); [apply good_new|done|constructor|by intros ? ? ?%elem_of_nil|lia]|].
  intros r w' [_ (st & o & -> & _ & (seen & [Hr Hn Ht Hs _] & Hsort & Hf) & _)]. exists st, o.
  split_and!; [done|done|by eapply sorted_sublist|]. intros p Hp.
  destruct (Hf (pr_task p)) as [?|(Hq & Hk & _)]; [|set_solver|by eauto].
  eapply sublist_elem; [exact Ht|]. by apply elem_of_map_2.
Qed.

End round.

(** Two nodes, three tasks. *)
Definition demo_entry (address : string) (vram : Z) : NodeIndexEntry :=
  mkEntry address "base" NodeStatusAvailable false "RTX+docker" vram 3 0 1 f64_one f64_one None false 400 ∅ ∅ None ∅ ∅.
Definition demo_entries : list NodeIndexEntry := [demo_entry "0xa" 24; demo_entry "0xb" 8].
Definition demo_queue : World :=
  mkWorld (empty_db <| db_tasks := [demo_queued 1 5 4 ""; demo_queued 2 9 16 ""; demo_queued 3 9 20 ""] |>)
    (empty_caches <| c_delegations := Delegations.newDelegationCaches ["base"] |>) 0 0.
Definition demo_pairs (r : result (matchRound * result bool)) : list (Z * string) :=
  match r with Ok (st, _) => map (λ p, (t_ID (pr_task p), pr_nodeAddress p)) (mr_pairs st) | Err _ => [] end.

Lemma demo_rows : rows_ok (w_db demo_queue).
Proof.
  split; [apply (bool_decide_unpack _); vm_compute; exact I|].
  repeat (constructor; [apply demo_well_formed|]). constructor.
Qed.

Lemma matching_round_sound_witness :
  ∃ st outcome, demo_pairs (Ok (st, outcome)) = [(2, "0xa"); (1, "0xb")] ∧
    NoDup (map pr_nodeAddress (mr_pairs st)) ∧ StronglySorted precedes (map pr_task (mr_pairs st)).
Proof.
  destruct (matching_round_sound (E:=demo_env) 4 demo_entries demo_queue demo_rows) as (st & o & Hr & Hn & Hs & _).
  exists st, o. split; [|done]. apply (f_equal demo_pairs) in Hr. rewrite <- Hr. vm_compute. reflexivity.
Defined.

End MatchingRound.
