(* ===== verification/ValidateTask.v ===== *)
(** * Validation

    The checks of the task id commitment and of the VRF proof, the validation of
    one task, and the validation of a group of three (src/service/validate_task.go,
    with src/utils/vrf.go and src/utils/hamming.go).  Keccak, the elliptic curve
    and the VRF are fields of the environment.  The records of the validation log,
    the calibration samples and the node index are left out. *)

From Stdlib Require Import Ascii.
From stdpp Require Import sorting.
From S2P Require Import Prelude Models Config Delegation VestingSchedule Deadline Mac.
From S2P Require Import MaxStaking Store Statistic Ledger LedgerCoherence LedgerSync Vesting.
From S2P Require Import Qos NodeState TaskStatus Assignment.

Module ValidateTask.
Import Mac Deadline Statistic Ledger LedgerCoherence LedgerSync Vesting Qos NodeState TaskStatus Assignment.

(** ** Definitions *)

(** [checkGroupExecutionModelFiles], src/service/validate_task.go 32-47 *)
Fixpoint checkGroupExecutionModelFiles (reference : option InferenceTask) (tasks : list InferenceTask) : result unit :=
  match tasks with
  | [] => Ok tt
  | task :: rest =>
      if bool_decide (t_Status task = TaskEndAborted) then checkGroupExecutionModelFiles reference rest
      else
        match reference with
        | None => checkGroupExecutionModelFiles (Some task) rest
        | Some r =>
            if negb (bool_decide (t_ExecutionModelFileHashes r = t_ExecutionModelFileHashes task))
            then Err ErrInconsistentExecutionModelFiles
            else checkGroupExecutionModelFiles reference rest
        end
  end.

(** [VrfNeedValidation], src/utils/vrf.go 5-9 *)
Definition VrfNeedValidation (vrfNumber : list Z) : bool := be_number vrfNumber mod 100 =? 0.

(** [OnesCount8] of math/bits *)
Definition OnesCount8 (x : Z) : Z :=
  sumZ (λ i, if Z.testbit x i then 1 else 0) [0; 1; 2; 3; 4; 5; 6; 7].

(** [HammingDistance], src/utils/hamming.go 7-17, for slices of the same length *)
Definition HammingDistance (a b : list Z) : Z := sumZ (λ xy, OnesCount8 (Z.lxor (fst xy) (snd xy))) (zip a b).

(** The loop of [checkHammingDistance], src/service/validate_task.go 153-158 *)
Fixpoint blocksClose (n : nat) (h1 h2 : list Z) (threshold : Z) : bool :=
  match n with
  | O => true
  | S n' => (HammingDistance (take 8 h1) (take 8 h2) <? threshold) && blocksClose n' (drop 8 h1) (drop 8 h2) threshold
  end.

(** [checkHammingDistance], src/service/validate_task.go 148-161 *)
Definition checkHammingDistance (h1 h2 : list Z) (threshold : Z) : bool :=
  if negb (bool_decide (length h1 = length h2)) || negb (bool_decide ((length h1 mod 8)%nat = 0%nat)) then false
  else blocksClose (length h1 / 8) h1 h2 threshold.

(** [compareTaskScore], src/service/validate_task.go 163-184; [MustDecode] panics
    on a malformed score. *)
Definition compareTaskScore (task1 task2 : InferenceTask) (threshold : Z) : result bool :=
  if negb (bool_decide (t_TaskType task1 = t_TaskType task2)) then Ok false
  else if negb (bool_decide (t_Status task1 = t_Status task2)) then Ok false
  else if bool_decide (t_Status task1 = TaskScoreReady) then
    match t_TaskType task1 with
    | TaskTypeSD | TaskTypeSDFTLora =>
        match hexutil_Decode (t_Score task1), hexutil_Decode (t_Score task2) with
        | Some h1, Some h2 => Ok (checkHammingDistance h1 h2 threshold)
        | _, _ => Err (ErrPanic "invalid hex string")
        end
    | TaskTypeLLM => Ok (String.eqb (t_Score task1) (t_Score task2))
    end
  else Ok true.

(** The first loop of [assignValidationGroupQosScores],
    src/service/validate_task.go 186-198: [getTaskQosScore] indexes the rewards by
    the rank. *)
Fixpoint rankTasks (order : nat) (tasks : list InferenceTask) : result (list InferenceTask) :=
  match tasks with
  | [] => Ok []
  | task :: rest =>
      if negb (bool_decide (t_Status task = TaskEndAborted)) then
        match getTaskQosScore order, rankTasks (S order) rest with
        | Ok score, Ok rest' => Ok (task <| t_QOSScore := Some (wrap_i64 score) |> :: rest')
        | Err e, _ | _, Err e => Err e
        end
      else
        match rankTasks order rest with
        | Ok rest' => Ok (task <| t_QOSScore := Some 0 |> :: rest')
        | Err e => Err e
        end
  end.

Definition finished (tasks : list InferenceTask) : list InferenceTask :=
  select_where (λ t, negb (bool_decide (t_Status t = TaskEndAborted))) tasks.

(** [assignValidationGroupQosScores], src/service/validate_task.go 186-204 *)
Definition assignValidationGroupQosScores (tasks : list InferenceTask) : result (list InferenceTask) :=
  match rankTasks 0 tasks with
  | Ok tasks' =>
      Ok (if bool_decide (length (finished tasks) = 0%nat)
          then map (λ t, t <| t_QOSScore := None |>) tasks' else tasks')
  | Err e => Err e
  end.

(** [shouldPersistValidationGroupTimeoutQos], src/service/validate_task.go 206-211 *)
Definition shouldPersistValidationGroupTimeoutQos (task : InferenceTask) : bool :=
  bool_decide (t_Status task = TaskEndAborted) && bool_decide (t_AbortReason task = TaskAbortTimeout) &&
  bool_decide (is_Some (t_QOSScore task)) && negb (String.eqb (t_SelectedNode task) "").

(** [groupHasCreatorValidationTimeout], src/service/validate_task.go 234-242 *)
Definition groupHasCreatorValidationTimeout (tasks : list InferenceTask) : bool :=
  exists_where (λ t, bool_decide (t_Status t = TaskEndAborted) &&
                     bool_decide (t_AbortReason t = TaskAbortCreatorValidationTimeout)) tasks.

(** The orders the group is sorted by, src/service/validate_task.go 340-342 and
    399-406 *)
Definition byID (t1 t2 : InferenceTask) : Prop := t_ID t1 ≤ t_ID t2.
#[export] Instance byID_dec : RelDecision byID.
Proof. intros t1 t2. unfold byID. apply _. Defined.

Definition byTime (t1 t2 : InferenceTask) : Prop :=
  ExecutionTime t1 < ExecutionTime t2 ∨ (ExecutionTime t1 = ExecutionTime t2 ∧ t_ID t1 ≤ t_ID t2).
#[export] Instance byTime_dec : RelDecision byTime.
Proof. intros t1 t2. unfold byTime. apply _. Defined.

(** *** The decision *)

Notation statusMap := (gmap string TaskStatus).

(** The statuses when two tasks finished, src/service/validate_task.go 418-422 *)
Definition decideTwo (threshold : Z) (t0 t1 : InferenceTask) (next : statusMap) : result statusMap :=
  match compareTaskScore t0 t1 threshold with
  | Err e => Err e
  | Ok same =>
      Ok (if same && bool_decide (t_Status t0 = TaskScoreReady)
          then <[t_TaskIDCommitment t1 := TaskEndGroupRefund]> (<[t_TaskIDCommitment t0 := TaskGroupValidated]> next)
          else next)
  end.

(** The statuses when all three finished, src/service/validate_task.go 423-450,
    from the outcome of the three comparisons *)
Definition decideThree (same1 same2 same3 : bool) (t0 t1 t2 : InferenceTask) (next : statusMap) : statusMap :=
  let pair (a b : InferenceTask) next :=
    if bool_decide (t_Status a = TaskScoreReady)
    then <[t_TaskIDCommitment b := TaskEndGroupRefund]> (<[t_TaskIDCommitment a := TaskGroupValidated]> next)
    else next in
  if same1 then
    let next := pair t0 t1 next in
    if same2 then <[t_TaskIDCommitment t2 := TaskEndGroupRefund]> next
    else <[t_TaskIDCommitment t2 := TaskEndInvalidated]> next
  else if same2 then
    <[t_TaskIDCommitment t1 := TaskEndInvalidated]> (pair t0 t2 next)
  else if same3 then
    <[t_TaskIDCommitment t0 := TaskEndInvalidated]> (pair t1 t2 next)
  else next.

(** The statuses of a group, src/service/validate_task.go 409-450 *)
Definition decideGroup (threshold : Z) (tasks : list InferenceTask) : result statusMap :=
  let next := foldl (λ m t, <[t_TaskIDCommitment t := TaskEndAborted]> m) ∅ tasks in
  match finished tasks with
  | [t0; t1] => decideTwo threshold t0 t1 next
  | [t0; t1; t2] =>
      match compareTaskScore t0 t1 threshold, compareTaskScore t0 t2 threshold, compareTaskScore t1 t2 threshold with
      | Ok same1, Ok same2, Ok same3 => Ok (decideThree same1 same2 same3 t0 t1 t2 next)
      | Err e, _, _ | _, Err e, _ | _, _, Err e => Err e
      end
  | _ => Ok next
  end.

Section validate.
Context {E : Env}.

(** [validateTaskID], src/service/validate_task.go 49-64 *)
Definition validateTaskID (taskID nonce taskIDCommitment : string) : result unit :=
  match hexutil_Decode taskID, hexutil_Decode nonce with
  | Some taskIDBytes, Some nonceBytes =>
      let hash := env_keccak256 (taskIDBytes ++ nonceBytes) in
      if String.eqb (hexutil_Encode hash) taskIDCommitment then Ok tt else Err (ErrMsg "task id incorrect")
  | _, _ => Err (ErrMsg "invalid hex string")
  end.

(** [validateVRFProof], src/service/validate_task.go 66-109 *)
Definition validateVRFProof (samplingSeed vrfProof publicKey creator : string) (grouped : bool) : result unit :=
  match hexutil_Decode samplingSeed with
  | None => Err (ErrMsg "invalid sampling seed")
  | Some samplingSeedBytes =>
  match hexutil_Decode publicKey with
  | None => Err (ErrMsg "invalid public key")
  | Some pkBytes =>
  if negb (bool_decide (length pkBytes = 64%nat)) then Err (ErrMsg "invalid public key")
  else
  match hexutil_Decode vrfProof with
  | None => Err (ErrMsg "invalid vrf proof")
  | Some vrfProofBytes =>
  if negb (bool_decide (length vrfProofBytes = 81%nat)) then Err (ErrMsg "invalid vrf proof")
  else
  let pkBytes := 0x04 :: pkBytes in
  match env_pubkey_address pkBytes with
  | None => Err (ErrMsg "invalid public key")
  | Some address =>
  if negb (String.eqb address creator) then Err (ErrMsg "not task creator")
  else
  match env_vrf_verify pkBytes samplingSeedBytes vrfProofBytes with
  | None => Err (ErrMsg "invalid vrf proof")
  | Some beta =>
      let needValidation := VrfNeedValidation beta in
      if grouped && negb needValidation then Err (ErrMsg "task is not selected for validation")
      else if negb grouped && needValidation then Err (ErrMsg "task is selected for validation")
      else Ok tt
  end end end end end.

(** [ValidateSingleTask], src/service/validate_task.go 111-145 *)
Definition ValidateSingleTask (originTask : InferenceTask) (taskID vrfProof publicKey : string) : M InferenceTask :=
  let task := originTask in
  lift (validateTaskID taskID (t_Nonce task) (t_TaskIDCommitment task));;
  lift (validateVRFProof (t_SamplingSeed task) vrfProof publicKey (t_Creator task) false);;
  if negb (String.eqb (t_TaskID task) "") && negb (String.eqb (t_TaskID task) taskID)
  then fail (ErrMsg "task id conflicts with completed validation")
  else if bool_decide (t_Status task = TaskValidated) || bool_decide (t_Status task = TaskEndSuccess) ||
          (bool_decide (t_Status task = TaskEndAborted) && bool_decide (t_AbortReason task = TaskAbortErrorReported))
  then fail ErrValidationAlreadyApplied
  else if negb (bool_decide (t_Status task = TaskScoreReady) || bool_decide (t_Status task = TaskErrorReported))
  then fail (ErrMsg "illegal task state")
  else
    let task := task <| t_TaskID := taskID |> in
    if bool_decide (t_Status task = TaskScoreReady) then SetTaskStatusValidated task
    else
      t ← now;
      SetTaskStatusEndAborted (task <| t_AbortReason := TaskAbortErrorReported |> <| t_ValidatedTime := Some t |>)
        (t_Creator task).

(** [persistValidationGroupAbortedTaskQos], src/service/validate_task.go 213-227 *)
Definition persistValidationGroupAbortedTaskQos (task : InferenceTask) : M InferenceTask :=
  (if shouldPersistValidationGroupTimeoutQos task then
     node ← GetNodeByAddress (t_SelectedNode task);
     _ ← updateNodeQosScore node (wrap_u64 (default 0 (t_QOSScore task)));
     mret tt
   else mret tt);;
  taskUpdate task (λ t, t <| t_QOSScore := t_QOSScore task |> <| t_TaskID := t_TaskID task |>).

(** [lockValidationGroupTasks], src/service/validate_task.go 244-278 *)
Definition lockValidationGroupTasks (tasks : list InferenceTask) : M (list InferenceTask) :=
  if negb (bool_decide (length tasks = 3%nat)) then fail (ErrMsg "task group size is not 3")
  else
    records ← db_read (λ d, select_where (λ r, bool_decide (t_ID r ∈ map t_ID tasks)) (db_tasks d));
    if negb (bool_decide (length records = length tasks)) then fail (ErrMsg "task group records are incomplete")
    else
      map_m (λ task,
        match find_first (λ r, t_ID r =? t_ID task) (rev records) with
        | Some r => mret r
        | None => fail (ErrMsg "task group records are incomplete")
        end) tasks.

(** [refreshValidationGroupTasksForFinalUpdate], src/service/validate_task.go 280-304 *)
Definition refreshValidationGroupTasksForFinalUpdate (tasks : list InferenceTask) (taskID : string)
    : M (list InferenceTask) :=
  refreshedTasks ← lockValidationGroupTasks tasks;
  if negb (exists_where (λ t, negb (String.eqb (t_TaskID t) taskID)) refreshedTasks) then fail ErrValidationAlreadyApplied
  else if groupHasCreatorValidationTimeout refreshedTasks then fail (ErrMsg "task group validation expired")
  else if exists_where (λ t, negb (bool_decide (t_Status t = TaskScoreReady)) &&
            negb (bool_decide (t_Status t = TaskErrorReported)) && negb (bool_decide (t_Status t = TaskEndAborted)))
            refreshedTasks
  then fail (ErrMsg "illegal task state")
  else mret refreshedTasks.

(** [buildInvalidatedTaskSlashEvidence], src/service/validate_task.go 306-326 *)
Fixpoint buildInvalidatedTaskSlashEvidence (tasks : list InferenceTask) (nextStatusMap : statusMap)
    (acc : gmap string (string * bool)) : M (gmap string (string * bool)) :=
  match tasks with
  | [] => mret acc
  | task :: rest =>
      if negb (bool_decide (nextStatusMap !! t_TaskIDCommitment task = Some TaskEndInvalidated))
      then buildInvalidatedTaskSlashEvidence rest nextStatusMap acc
      else
        node ← checkTaskSelectedNode task;
        built ← ask (λ n, env_evidence n task node);
        buildInvalidatedTaskSlashEvidence rest nextStatusMap (<[t_TaskIDCommitment task := built]> acc)
  end.

(** The body of the last loop, src/service/validate_task.go 470-512 *)
Definition applyMember (nextStatusMap : statusMap) (evidence : gmap string (string * bool)) (finishedCount : nat)
    (task : InferenceTask) : M InferenceTask :=
  match nextStatusMap !! t_TaskIDCommitment task with
  | Some TaskEndInvalidated =>
      match evidence !! t_TaskIDCommitment task with
      | None => fail (ErrMsg "missing prebuilt slash evidence")
      | Some (doc, complete) => SetTaskStatusEndInvalidatedWithEvidence task doc complete
      end
  | Some TaskGroupValidated => SetTaskStatusGroupValidated task
  | Some TaskEndGroupRefund => SetTaskStatusEndGroupRefund task
  | _ =>
      if negb (bool_decide (t_Status task = TaskEndAborted)) then
        t ← now;
        SetTaskStatusEndAborted
          (task <| t_AbortReason := if (finishedCount <? 2)%nat then TaskAbortGroupTimeout else TaskAbortIncorrectResult |>
                <| t_ValidatedTime := Some t |>) (t_Creator task)
      else persistValidationGroupAbortedTaskQos task
  end.

(** The proofs of the members, src/service/validate_task.go 347-358 *)
Fixpoint checkGroupProofs (samplingSeed taskID vrfProof publicKey : string) (tasks : list InferenceTask) : result unit :=
  match tasks with
  | [] => Ok tt
  | task :: rest =>
      match validateTaskID taskID (t_Nonce task) (t_TaskIDCommitment task) with
      | Err e => Err e
      | Ok _ =>
          match validateVRFProof samplingSeed vrfProof publicKey (t_Creator task) true with
          | Err e => Err e
          | Ok _ =>
              if negb (String.eqb (t_TaskID task) "") && negb (String.eqb (t_TaskID task) taskID)
              then Err (ErrMsg "task id conflicts with completed validation")
              else checkGroupProofs samplingSeed taskID vrfProof publicKey rest
          end
      end
  end.

(** The transaction, src/service/validate_task.go 385-514 *)
Definition applyGroup (tasks : list InferenceTask) (taskID : string) : M (list InferenceTask) :=
  tasks ← refreshValidationGroupTasksForFinalUpdate tasks taskID;
  let tasks := map (λ t, t <| t_TaskID := taskID |>) tasks in
  lift (checkGroupExecutionModelFiles None tasks);;
  let tasks := merge_sort byTime tasks in
  tasks ← lift (assignValidationGroupQosScores tasks);
  nextStatusMap ← lift (decideGroup (Task_DistanceThreshold env_cfg) tasks);
  evidence ← buildInvalidatedTaskSlashEvidence tasks nextStatusMap ∅;
  map_m (applyMember nextStatusMap evidence (length (finished tasks))) tasks.

(** [ValidateTaskGroup], src/service/validate_task.go 328-539 *)
Definition ValidateTaskGroup (originTasks : list InferenceTask) (taskID vrfProof publicKey : string)
    : M (list InferenceTask) :=
  if negb (bool_decide (length originTasks = 3%nat)) then fail (ErrMsg "task group size is not 3")
  else
    let tasks := merge_sort byID originTasks in
    if groupHasCreatorValidationTimeout tasks then fail (ErrMsg "task group validation expired")
    else
      let samplingSeed := match tasks with t :: _ => t_SamplingSeed t | [] => "" end in
      lift (checkGroupProofs samplingSeed taskID vrfProof publicKey tasks);;
      if negb (exists_where (λ t, negb (String.eqb (t_TaskID t) taskID)) tasks) then fail ErrValidationAlreadyApplied
      else transaction (applyGroup tasks taskID).

End validate.
(** ** Properties *)

(** *** Comparing scores *)

Lemma HammingDistance_comm a b : HammingDistance a b = HammingDistance b a.
Proof.
  unfold HammingDistance. revert b. induction a as [|x a IH]; intros [|y b]; simpl; [done|done|done|].
  by rewrite Z.lxor_comm, IH.
Qed.

Lemma blocksClose_comm n h1 h2 thr : blocksClose n h1 h2 thr = blocksClose n h2 h1 thr.
Proof. revert h1 h2. induction n as [|n IH]; intros h1 h2; simpl; [done|]. by rewrite HammingDistance_comm, IH. Qed.

Lemma checkHammingDistance_comm h1 h2 thr : checkHammingDistance h1 h2 thr = checkHammingDistance h2 h1 thr.
Proof.
  unfold checkHammingDistance. destruct (decide (length h1 = length h2)) as [He|Hne].
  - rewrite He. case_bool; [done|]. apply blocksClose_comm.
  - rewrite (bool_decide_false (length h1 = length h2)), (bool_decide_false (length h2 = length h1)) by congruence. done.
Qed.

(** The comparison does not depend on the order of the two tasks, except for which
    malformed score makes it panic. *)
Lemma compareTaskScore_comm t1 t2 thr : compareTaskScore t1 t2 thr = compareTaskScore t2 t1 thr.
Proof.
  unfold compareTaskScore.
  destruct (decide (t_TaskType t1 = t_TaskType t2)) as [Ht|Ht]; [|by rewrite (bool_decide_false (t_TaskType t1 = _)), (bool_decide_false (t_TaskType t2 = _)) by congruence].
  rewrite (bool_decide_true (t_TaskType t1 = _)), (bool_decide_true (t_TaskType t2 = _)) by congruence. simpl.
  destruct (decide (t_Status t1 = t_Status t2)) as [Hs|Hs]; [|by rewrite (bool_decide_false (t_Status t1 = _)), (bool_decide_false (t_Status t2 = _)) by congruence].
  rewrite (bool_decide_true (t_Status t1 = _)), (bool_decide_true (t_Status t2 = t_Status t1)) by congruence. simpl. rewrite <- Hs, <- Ht.
  case_bool; [|done]. destruct (t_TaskType t1).
  all: try (by rewrite String.eqb_sym).
  all: destruct (hexutil_Decode (t_Score t1)), (hexutil_Decode (t_Score t2)); try done; by rewrite checkHammingDistance_comm.
Qed.

(** *** The verdict on a group *)

Lemma initial_aborted tasks (m : statusMap) c s :
  foldl (λ m t, <[t_TaskIDCommitment t := TaskEndAborted]> m) m tasks !! c = Some s →
  s = TaskEndAborted ∨ m !! c = Some s.
Proof.
  revert m. induction tasks as [|t tasks IH]; intros m; simpl; [by right|].
  intros [?|[[_ <-]|[_ ?]]%lookup_insert_Some]%IH; auto.
Qed.

Lemma finished_sub tasks t : t ∈ finished tasks → t ∈ tasks ∧ t_Status t ≠ TaskEndAborted.
Proof. intros [Hin Hp]%elem_of_select. simplify_bool. done. Qed.

(** The members of a group: different rows have different commitments. *)
Definition distinct (tasks : list InferenceTask) : Prop := NoDup (map t_TaskIDCommitment tasks).

Lemma distinct_eq tasks t u :
  distinct tasks → t ∈ tasks → u ∈ tasks → t_TaskIDCommitment t = t_TaskIDCommitment u → t = u.
Proof. intros. by eapply (NoDup_map_inj t_TaskIDCommitment). Qed.

(** [agree threshold a b]: the scores match. *)
Definition agree (threshold : Z) (a b : InferenceTask) : Prop := compareTaskScore a b threshold = Ok true.
Definition differ (threshold : Z) (a b : InferenceTask) : Prop := compareTaskScore a b threshold = Ok false.

Lemma agree_sym thr a b : agree thr a b → agree thr b a.
Proof. unfold agree. by rewrite compareTaskScore_comm. Qed.
Lemma differ_sym thr a b : differ thr a b → differ thr b a.
Proof. unfold differ. by rewrite compareTaskScore_comm. Qed.

Lemma agree_status thr a b : agree thr a b → t_Status a = t_Status b.
Proof. unfold agree, compareTaskScore. repeat case_bool_decide; simpl; done. Qed.

Lemma finished_distinct tasks t0 t1 t2 :
  distinct tasks → finished tasks = [t0; t1; t2] →
  (t0 ∈ tasks ∧ t1 ∈ tasks ∧ t2 ∈ tasks) ∧
  t_TaskIDCommitment t0 ≠ t_TaskIDCommitment t1 ∧ t_TaskIDCommitment t0 ≠ t_TaskIDCommitment t2 ∧
  t_TaskIDCommitment t1 ≠ t_TaskIDCommitment t2.
Proof.
  intros Hd Hf. assert (Hin : ∀ t, t ∈ [t0; t1; t2] → t ∈ tasks).
  { intros t Ht. rewrite <- Hf in Ht. by apply finished_sub in Ht as [? _]. }
  pose proof (NoDup_map_select t_TaskIDCommitment (λ t, negb (bool_decide (t_Status t = TaskEndAborted))) tasks Hd) as Hnd.
  unfold finished in Hf. rewrite Hf in Hnd. simpl in Hnd.
  apply NoDup_cons in Hnd as [H0 Hnd]. apply NoDup_cons in Hnd as [H1 _].
  split; [split_and!; apply Hin; set_solver|]. split_and!; set_solver.
Qed.

Lemma finished_distinct2 tasks t0 t1 :
  distinct tasks → finished tasks = [t0; t1] →
  (t0 ∈ tasks ∧ t1 ∈ tasks) ∧ t_TaskIDCommitment t0 ≠ t_TaskIDCommitment t1.
Proof.
  intros Hd Hf. assert (Hin : ∀ t, t ∈ [t0; t1] → t ∈ tasks).
  { intros t Ht. rewrite <- Hf in Ht. by apply finished_sub in Ht as [? _]. }
  pose proof (NoDup_map_select t_TaskIDCommitment (λ t, negb (bool_decide (t_Status t = TaskEndAborted))) tasks Hd) as Hnd.
  unfold finished in Hf. rewrite Hf in Hnd. simpl in Hnd. apply NoDup_cons in Hnd as [H0 Hnd].
  split; [split; apply Hin; set_solver|set_solver].
Qed.

(** What the verdict says of a member, without the bookkeeping of the map. *)
Lemma decide_three_inv tasks thr next t0 t1 t2 :
  distinct tasks → finished tasks = [t0; t1; t2] → decideGroup thr tasks = Ok next →
  ∃ s1 s2 s3, compareTaskScore t0 t1 thr = Ok s1 ∧ compareTaskScore t0 t2 thr = Ok s2 ∧
    compareTaskScore t1 t2 thr = Ok s3 ∧
    (s1 = true → t_Status t0 = TaskScoreReady → next !! t_TaskIDCommitment t1 = Some TaskEndGroupRefund) ∧
    (s1 = false → s2 = true → t_Status t0 = TaskScoreReady → next !! t_TaskIDCommitment t2 = Some TaskEndGroupRefund) ∧
    (s1 = false → s2 = false → s3 = true → t_Status t1 = TaskScoreReady →
       next !! t_TaskIDCommitment t2 = Some TaskEndGroupRefund) ∧
    ∀ c s, next !! c = Some s → s ≠ TaskEndAborted →
      (s1 = true ∧ s2 = true ∧ c = t_TaskIDCommitment t2 ∧ s = TaskEndGroupRefund) ∨
      (s1 = true ∧ s2 = false ∧ c = t_TaskIDCommitment t2 ∧ s = TaskEndInvalidated) ∨
      (s1 = true ∧ t_Status t0 = TaskScoreReady ∧ c = t_TaskIDCommitment t1 ∧ s = TaskEndGroupRefund) ∨
      (s1 = true ∧ t_Status t0 = TaskScoreReady ∧ c = t_TaskIDCommitment t0 ∧ s = TaskGroupValidated) ∨
      (s1 = false ∧ s2 = true ∧ c = t_TaskIDCommitment t1 ∧ s = TaskEndInvalidated) ∨
      (s1 = false ∧ s2 = true ∧ t_Status t0 = TaskScoreReady ∧ c = t_TaskIDCommitment t2 ∧ s = TaskEndGroupRefund) ∨
      (s1 = false ∧ s2 = true ∧ t_Status t0 = TaskScoreReady ∧ c = t_TaskIDCommitment t0 ∧ s = TaskGroupValidated) ∨
      (s1 = false ∧ s2 = false ∧ s3 = true ∧ c = t_TaskIDCommitment t0 ∧ s = TaskEndInvalidated) ∨
      (s1 = false ∧ s2 = false ∧ s3 = true ∧ t_Status t1 = TaskScoreReady ∧ c = t_TaskIDCommitment t2 ∧ s = TaskEndGroupRefund) ∨
      (s1 = false ∧ s2 = false ∧ s3 = true ∧ t_Status t1 = TaskScoreReady ∧ c = t_TaskIDCommitment t1 ∧ s = TaskGroupValidated).
Proof.
  intros Hd Hf. unfold decideGroup. rewrite Hf.
  destruct (compareTaskScore t0 t1 thr) as [s1|]; [|done]. destruct (compareTaskScore t0 t2 thr) as [s2|]; [|done].
  destruct (compareTaskScore t1 t2 thr) as [s3|]; [|done]. intros [= <-]. exists s1, s2, s3. 
  pose proof (finished_distinct _ _ _ _ Hd Hf) as (_ & Hne01 & Hne02 & Hne12).
  split_and!; [done|done|done| | | |].
  1-3: intros; subst; unfold decideThree; rewrite bool_decide_true by done; repeat case_bool;
       by rewrite ?lookup_insert_ne, ?lookup_insert_eq by congruence.
  intros c s Hl Hs. unfold decideThree in Hl.
  destruct s1, s2, s3; repeat case_bool_decide;
    repeat match goal with
    | H : <[_:=_]> _ !! _ = Some _ |- _ => apply lookup_insert_Some in H as [[? ?]|[? H]]; subst
    | H : foldl _ _ _ !! _ = Some _ |- _ => apply initial_aborted in H as [?|H]; [done|by rewrite lookup_empty in H]
    end; tauto.
Qed.


(** C9: a member that is validated submitted a score, at least one other member
    submitted a score that agrees and has its fee refunded, and no other member is
    validated: the group is paid once. *)
Theorem group_validates_one (threshold : Z) (tasks : list InferenceTask) (next : statusMap) (t : InferenceTask) :
  distinct tasks → decideGroup threshold tasks = Ok next → t ∈ tasks →
  next !! t_TaskIDCommitment t = Some TaskGroupValidated →
  t_Status t = TaskScoreReady ∧
  (∃ b, b ∈ tasks ∧ b ≠ t ∧ agree threshold t b ∧ next !! t_TaskIDCommitment b = Some TaskEndGroupRefund) ∧
  (∀ u, u ∈ tasks → next !! t_TaskIDCommitment u = Some TaskGroupValidated → u = t).
Proof.
  intros Hd Hdec Ht Hl. destruct (finished tasks) as [|t0 [|t1 [|t2 [|]]]] eqn:Hf.
  1, 2, 5: revert Hdec; unfold decideGroup; rewrite Hf; intros [= <-];
    by apply initial_aborted in Hl as [?|Hl]; [|rewrite lookup_empty in Hl].
  - pose proof (finished_distinct2 _ _ _ Hd Hf) as ((H0 & H1) & Hne). revert Hdec. unfold decideGroup, decideTwo. rewrite Hf.
    destruct (compareTaskScore t0 t1 threshold) as [s|] eqn:Hs; [|done]. intros [= <-].
    destruct (s && bool_decide (t_Status t0 = TaskScoreReady)) eqn:Hb.
    2: by apply initial_aborted in Hl as [?|Hl]; [|rewrite lookup_empty in Hl].
    simplify_bool. assert (Huniq : ∀ u, u ∈ tasks → (<[t_TaskIDCommitment t1:=TaskEndGroupRefund]>
      (<[t_TaskIDCommitment t0:=TaskGroupValidated]> (foldl (λ m t, <[t_TaskIDCommitment t := TaskEndAborted]> m) ∅ tasks)
        : statusMap)) !! t_TaskIDCommitment u = Some TaskGroupValidated → u = t0).
    { intros u Hu [[_ ?]|[_ [[He _]|[_ Hx]]%lookup_insert_Some]]%lookup_insert_Some; [done|by eapply distinct_eq|].
      by apply initial_aborted in Hx as [?|Hx]; [|rewrite lookup_empty in Hx]. }
    assert (t = t0) as -> by (by apply Huniq). split_and!; [done| |done].
    exists t1. rewrite lookup_insert_eq. subst s. split_and!; [done|congruence|done|done].
  - pose proof (finished_distinct _ _ _ _ Hd Hf) as ((H0 & H1 & H2) & Hne01 & Hne02 & Hne12).
    destruct (decide_three_inv _ _ _ _ _ _ Hd Hf Hdec) as (s1 & s2 & s3 & Hs1 & Hs2 & Hs3 & Hr1 & Hr2 & Hr3 & Hcases).
    assert (Hwin : ∀ u, u ∈ tasks → next !! t_TaskIDCommitment u = Some TaskGroupValidated →
      t_Status u = TaskScoreReady ∧ ((u = t0 ∧ (s1 = true ∨ s1 = false ∧ s2 = true)) ∨
                                     (u = t1 ∧ s1 = false ∧ s2 = false ∧ s3 = true))).
    { intros u Hu Hlu. destruct (Hcases _ _ Hlu) as [Hc|[Hc|[Hc|[Hc|[Hc|[Hc|[Hc|[Hc|[Hc|Hc]]]]]]]]]; [done|..];
        destruct_and! Hc; try done.
      1, 2: assert (u = t0) as -> by (by eapply distinct_eq); tauto.
      assert (u = t1) as -> by (by eapply distinct_eq); tauto. }
    destruct (Hwin t Ht Hl) as [Hst Hwho]. split; [done|]. split.
    + destruct Hwho as [[-> [->|[-> ->]]]|(-> & -> & -> & ->)]; [exists t1|exists t2|exists t2];
        split_and!; try done; try congruence; auto.
    + intros u Hu Hlu. destruct (Hwin u Hu Hlu) as [_ Hwho']. naive_solver.
Qed.

(** *** Assignment *)

Section assignment.
Context {E : Env}.

Lemma moves_ValidateSingleTask task taskID vrfProof publicKey w :
  well_assigned (w_db w) → known task (w_db w) →
  moves (w_db w) (ValidateSingleTask task taskID vrfProof publicKey) w.
Proof.
  intros Ha Hk. unfold ValidateSingleTask, moves. wp_step. wp_step. destruct (validateTaskID _ _ _) as [[]|]; [|done].
  wp_step. wp_step. destruct (validateVRFProof _ _ _ _ _) as [[]|]; [|done].
  case_bool; [done|]. case_bool; [done|]. case_bool; [done|]. case_bool; [by apply moves_Validated|].
  wp_step. wp_step. by apply (moves_EndAborted _ _ (tick w)).
Qed.

Lemma frames_persist task : frames same_assign (persistValidationGroupAbortedTaskQos task).
Proof.
  unfold persistValidationGroupAbortedTaskQos, GetNodeByAddress, taskUpdate. frame_tac.
  - intros w. unfold updateNodeQosScore, getNodeTaskQosScore. wp_step. wp_step. wp_step. wp_step. wp_step. wp_step.
    apply wp_nodeUpdate; [done|by intros|by intros].
  - apply frames_db_write; [apply _|]. intros w. unfold same_assign. simpl. by rewrite map_update_same.
Qed.

(** What a step of the transaction leads to, when it succeeds. *)
Definition leads {A} (m : M A) (w : World) : Prop := wp m (λ r w', is_ok r = true → good (w_db w) (w_db w')) w.

Lemma moves_leads {A} (m : M A) w : moves (w_db w) m w → leads m w.
Proof. intros Hm. by eapply wp_moves; [exact Hm| |]. Qed.

Lemma leads_applyMember next evidence n task w :
  well_assigned (w_db w) → known task (w_db w) → leads (applyMember next evidence n task) w.
Proof.
  intros Ha Hk. unfold applyMember.
  assert (Hdefault : leads (if negb (bool_decide (t_Status task = TaskEndAborted)) then
    t ← now; SetTaskStatusEndAborted
      (task <| t_AbortReason := if (n <? 2)%nat then TaskAbortGroupTimeout else TaskAbortIncorrectResult |>
            <| t_ValidatedTime := Some t |>) (t_Creator task)
    else persistValidationGroupAbortedTaskQos task) w).
  { case_bool; [unfold leads; wp_step; wp_step; by apply (moves_leads _ (tick w)), (moves_EndAborted _ _ (tick w))|].
    unfold leads. eapply wp_mono; [apply frames_persist|]. intros r w' H _. by apply same_assign_goods. }
  destruct (next !! t_TaskIDCommitment task) as [s|]; [|done]. destruct s; try done.
  - by apply moves_leads, moves_GroupValidated.
  - destruct (evidence !! _) as [[doc complete]|]; [|done]. by apply moves_leads, moves_EndInvalidatedWithEvidence.
  - by apply moves_leads, moves_GroupRefund.
Qed.

Lemma leads_members next evidence n tasks w :
  well_assigned (w_db w) → Forall (λ t, known t (w_db w)) tasks → leads (map_m (applyMember next evidence n) tasks) w.
Proof.
  intros Ha Hk. revert w Ha Hk. induction tasks as [|t tasks IH]; intros w Ha Hk.
  { unfold leads. simpl. wp_step. intros _. by apply good_refl. }
  apply Forall_cons in Hk as [Ht Hk]. unfold leads. simpl. wp_step.
  eapply wp_mono; [by apply leads_applyMember|]. intros [t'|e] w1 H1; [|done]. specialize (H1 eq_refl). wp_step.
  eapply wp_mono; [apply IH; [apply H1|]|].
  - eapply Forall_impl; [exact Hk|]. intros u Hu. eapply known_evolves; [exact Hu|apply H1].
  - intros [ts|e] w2 H2; [|done]. wp_step. intros _. eapply good_trans; [exact H1|by apply H2].
Qed.

Lemma wp_map_m_rows {A B} (f : A → M B) l (P : World → Prop) (Q : B → Prop) w :
  (∀ x w, x ∈ l → P w → wp (f x) (λ r w', P w' ∧ match r with Ok y => Q y | Err _ => True end) w) → P w →
  wp (map_m f l) (λ r w', P w' ∧ match r with Ok ys => length ys = length l ∧ Forall Q ys | Err _ => True end) w.
Proof.
  revert w. induction l as [|x l IH]; intros w Hf Hw; simpl; [by wp_step|]. wp_step.
  eapply wp_mono; [apply Hf; [set_solver|done]|]. intros [y|e] w1 [Hw1 Hy]; [|done]. wp_step.
  eapply wp_mono; [apply IH; [|done]; intros; apply Hf; [set_solver|done]|].
  intros [ys|e] w2 [Hw2 Hys]; [|done]. destruct Hys as [Hlen Hys]. wp_step.
  split; [done|]. split; [simpl; congruence|by constructor].
Qed.

Lemma wp_refresh tasks taskID w :
  wp (refreshValidationGroupTasksForFinalUpdate tasks taskID) (λ r w', w_db w' = w_db w ∧
    match r with Ok ts => length ts = 3%nat ∧ Forall (λ t, t ∈ db_tasks (w_db w) ∧ t_ID t ∈ map t_ID tasks) ts
               | Err _ => True end) w.
Proof.
  unfold refreshValidationGroupTasksForFinalUpdate, lockValidationGroupTasks. wp_step. case_bool; [by wp_step|].
  wp_step. wp_step; [done|]. case_bool; [by wp_step|].
  eapply wp_mono; [apply (wp_map_m_rows _ _ (λ w', w_db w' = w_db w) (λ t, t ∈ db_tasks (w_db w) ∧ t_ID t ∈ map t_ID tasks)); [|done]|].
  - intros task w1 Htask Hw1. destruct (find_first _ _) as [r|] eqn:Hf; wp_step; [|done]. split; [done|].
    apply find_first_Some in Hf as [Hin Hp]. simplify_bool. apply list_elem_of_In, in_rev, list_elem_of_In in Hin.
    apply elem_of_select in Hin as [? _]. split; [done|]. rewrite Hp. by apply elem_of_map_2.
  - intros [ts|e] w1 [Hd Hrows]; [|done]. destruct Hrows as [Hlen Hts]. repeat case_bool; wp_step; try done. by rewrite Hlen.
Qed.

(** Ranking only changes the scores. *)
Section rank.
Context {B : Type} (g : InferenceTask → B) (Hg : ∀ t q, g (t <| t_QOSScore := q |>) = g t).

Lemma rankTasks_keeps n tasks tasks' : rankTasks n tasks = Ok tasks' → map g tasks' = map g tasks.
Proof.
  revert n tasks'. induction tasks as [|t tasks IH]; intros n tasks'; simpl; [by intros [= <-]|]. case_bool.
  - destruct (getTaskQosScore n); [|done]. destruct (rankTasks (S n) tasks) as [ts|] eqn:Hr; [|done].
    intros [= <-]. simpl. f_equal; [apply Hg|by eapply IH].
  - destruct (rankTasks n tasks) as [ts|] eqn:Hr; [|done]. intros [= <-]. simpl. f_equal; [apply Hg|by eapply IH].
Qed.

Lemma assignQos_keeps tasks tasks' : assignValidationGroupQosScores tasks = Ok tasks' → map g tasks' = map g tasks.
Proof.
  unfold assignValidationGroupQosScores. destruct (rankTasks 0 tasks) as [ts|] eqn:Hr; [|done]. intros [= <-].
  rewrite <- (rankTasks_keeps _ _ _ Hr). case_bool; [|done]. rewrite map_map. apply map_ext. intros. apply Hg.
Qed.
End rank.

Lemma known_views tasks d :
  Forall (λ t, t ∈ map tview_of (db_tasks d)) (map tview_of tasks) → Forall (λ t, known t d) tasks.
Proof. intros H%Forall_map. eapply Forall_impl; [exact H|]. intros t Ht. by apply task_in_known. Qed.

Lemma moves_ValidateTaskGroup tasks taskID vrfProof publicKey w :
  well_assigned (w_db w) → moves (w_db w) (ValidateTaskGroup tasks taskID vrfProof publicKey) w.
Proof.
  intros Ha. unfold ValidateTaskGroup. case_bool; [done|]. case_bool; [done|]. unfold moves. wp_step. wp_step.
  destruct (checkGroupProofs _ _ _ _ _) as [[]|]; [|done]. case_bool; [done|].
  apply moves_transaction. intros w1 Hd. rewrite <- Hd in *. clear w Hd. unfold applyGroup. wp_step.
  eapply wp_mono; [apply wp_refresh|]. intros [ts|e] w2 [Hd2 Hts]; [|done]. destruct Hts as [_ Hts].
  rewrite <- Hd2 in *. clear w1 Hd2. wp_step. wp_step. destruct (checkGroupExecutionModelFiles _ _) as [[]|]; [|done]. wp_step. wp_step.
  destruct (assignValidationGroupQosScores _) as [ts'|] eqn:Hq; [|done]. wp_step. wp_step.
  destruct (decideGroup _ _) as [next|]; [|done]. wp_step.
  eapply (wp_mono _ (λ _ w3, w_db w3 = w_db w2)).
  { assert (Hb : ∀ l acc, frames (keeps (λ d, d)) (buildInvalidatedTaskSlashEvidence l next acc)).
    { induction l as [|t l IH]; intros acc; simpl; [frame_tac|].
      unfold checkTaskSelectedNode, GetNodeByAddress. frame_tac; apply IH. }
    apply Hb. }
  intros [evidence|e] w3 Hd3; [|done]. rewrite <- Hd3 in *. clear w2 Hd3. apply leads_members; [done|].
  apply known_views. rewrite (assignQos_keeps tview_of (λ _ _, eq_refl) _ _ Hq). apply Forall_forall. intros v (t & Ht & ->)%elem_of_map_iff.
  rewrite merge_sort_Permutation in Ht. apply elem_of_map_iff in Ht as (t0 & Ht0 & ->).
  rewrite Forall_forall in Hts. apply Hts in Ht0 as [Ht0 _]. change (tview_of t0 ∈ map tview_of (db_tasks (w_db w3))). by apply elem_of_map_2.
Qed.
End assignment.

(** *** A group of error reports *)

Section errors.
Context {E : Env}.

(** Three error reports of the same kind of task agree, and the last is to be
    refunded. *)
Lemma decide_errors thr ty t0 t1 t2 :
  Forall (λ t, t_Status t = TaskErrorReported ∧ t_TaskType t = ty) [t0; t1; t2] →
  ∃ next, decideGroup thr [t0; t1; t2] = Ok next ∧ next !! t_TaskIDCommitment t2 = Some TaskEndGroupRefund.
Proof.
  intros HF. apply Forall_cons in HF as [[H0 T0] HF]. apply Forall_cons in HF as [[H1 T1] HF].
  apply Forall_cons in HF as [[H2 T2] _]. unfold decideGroup, finished, select_where. simpl.
  rewrite !H0, !H1, !H2. simpl. unfold compareTaskScore. rewrite T0, T1, T2, H0, H1, H2.
  rewrite !(bool_decide_true (ty = ty)) by done. simpl. eexists. split; [reflexivity|]. apply lookup_insert_eq.
Qed.

(** C33: three members that all reported an error agree with each other, so the
    last of them is to be refunded as a duplicate; but a refund requires a score.
    So the transaction always fails, and such a group is never closed by
    validation. *)
Theorem error_group_never_validates (tasks : list InferenceTask) (ty : TaskType) (taskID vrfProof publicKey : string)
    (w : World) :
  (∀ t, t ∈ db_tasks (w_db w) → t_ID t ∈ map t_ID tasks → t_Status t = TaskErrorReported ∧ t_TaskType t = ty) →
  wp (ValidateTaskGroup tasks taskID vrfProof publicKey) (λ r w', is_ok r = false ∧ w_db w' = w_db w) w.
Proof.
  intros Herr. unfold ValidateTaskGroup. case_bool; [done|]. case_bool; [done|]. wp_step. wp_step.
  destruct (checkGroupProofs _ _ _ _ _) as [[]|]; [|done]. case_bool; [done|]. wp_step; [done|].
  unfold applyGroup. wp_step. eapply wp_mono; [apply wp_refresh|].
  intros [ts|e] w1 [Hd1 Hts]; [|done]. destruct Hts as [Hlen Hts]. wp_step. wp_step.
  destruct (checkGroupExecutionModelFiles _ _) as [[]|]; [|done]. wp_step. wp_step.
  destruct (assignValidationGroupQosScores _) as [ts'|] eqn:Hq; [|done]. wp_step. wp_step.
  assert (HF : Forall (λ t, t_Status t = TaskErrorReported ∧ t_TaskType t = ty) ts').
  { apply (Forall_map (λ t, (t_Status t, t_TaskType t)) (λ p, p.1 = TaskErrorReported ∧ p.2 = ty)).
    rewrite (assignQos_keeps (λ t, (t_Status t, t_TaskType t)) (λ _ _, eq_refl) _ _ Hq). apply Forall_map.
    apply Forall_forall. intros t Ht. rewrite merge_sort_Permutation in Ht. apply elem_of_map_iff in Ht as (t0 & Ht0 & ->).
    rewrite Forall_forall in Hts. destruct (Hts _ Ht0) as [Hin Hid]. rewrite merge_sort_Permutation in Hid. exact (Herr t0 Hin Hid). }
  assert (Hlen' : length ts' = 3%nat).
  { pose proof (assignQos_keeps (λ _, tt) (λ _ _, eq_refl) _ _ Hq) as Hl%(f_equal length).
    rewrite !length_map, merge_sort_Permutation, length_map in Hl. congruence. }
  destruct ts' as [|t0 [|t1 [|t2 [|]]]]; try done.
  destruct (decide_errors (Task_DistanceThreshold env_cfg) ty t0 t1 t2 HF) as (next & -> & Hnext). wp_step.
  match goal with |- wp _ ?Q _ => assert (Hfail : ∀ e w', Q (Err e) w') by done end.
  match goal with |- wp ?m ?Q ?w2 => apply (wp_mono m (λ _ _, True) Q w2); [done|] end.
  intros [evidence|e] w3 _; [|done].
  assert (H2 : t_Status t2 = TaskErrorReported) by (by apply Forall_cons in HF as [_ [_ [[] _]%Forall_cons]%Forall_cons]).
  assert (Hlast : ∀ ev n, applyMember next ev n t2 = fail errWrongTaskStatus).
  { intros ev n. unfold applyMember. rewrite Hnext. unfold SetTaskStatusEndGroupRefund. by rewrite H2. }
  simpl. wp_step. eapply wp_mono with (P := λ _ _, True); [done|]. intros [x0|e] w4 _; [|done]. wp_step. wp_step.
  eapply wp_mono with (P := λ _ _, True); [done|]. intros [x1|e] w5 _; [|done]. wp_step. wp_step. rewrite Hlast. by wp_step.
Qed.
End errors.

(** ** Concrete groups *)

(** A member of the group with task id [0x01]; the commitment is what [demo_env]
    hashes the id and the nonce to. *)
Definition demo_member (id : Z) (commitment nonce node : string) (s : TaskStatus) (ty : TaskType) (score : string) : InferenceTask :=
  mkTask id commitment "0xcreator" "0x00" nonce s ty "1.0.0" "" [] 600 0 0 "" 0 100 0
    TaskAbortReasonNone TaskErrorNone score None node "RTX" 24 "" false None None (Some 0) (Some second)
    None (Some ((5 + id) * second)) None None [] [] [] false unpriced.

Definition demo_group (s : TaskStatus) (ty : TaskType) (scores : list string) : list InferenceTask :=
  [demo_member 1 "0x01" "0x" "0xn1" s ty (nth 0 scores ""); demo_member 2 "0x02" "0x00" "0xn2" s ty (nth 1 scores "");
   demo_member 3 "0x03" "0x0000" "0xn3" s ty (nth 2 scores "")].

Definition demo_busy (id : Z) (address commitment : string) : Node :=
  demo_node <| n_ID := id |> <| n_Address := address |> <| n_CurrentTaskIDCommitment := Some commitment |>.

Definition demo_group_world (s : TaskStatus) (ty : TaskType) (scores : list string) : World :=
  mkWorld (empty_db <| db_accounts := {["0xcreator" := 1000]} |> <| db_tasks := demo_group s ty scores |>
             <| db_nodes := [demo_busy 1 "0xn1" "0x01"; demo_busy 2 "0xn2" "0x02"; demo_busy 3 "0xn3" "0x03"] |>)
    (empty_caches <| c_accounts := {["0xcreator" := 1000]} |>) 0 0.

Definition demo_proof : string := hexutil_Encode (replicate 81 0).
Definition demo_key : string := hexutil_Encode (replicate 64 0).

Definition demo_validate (s : TaskStatus) (ty : TaskType) (scores : list string) : result (list InferenceTask) * World :=
  ValidateTaskGroup (E:=demo_env) (demo_group s ty scores) "0x01" demo_proof demo_key (demo_group_world s ty scores).

Lemma error_group_never_validates_witness :
  is_ok (fst (demo_validate TaskErrorReported TaskTypeLLM [])) = false.
Proof.
  apply (error_group_never_validates (E:=demo_env) (demo_group TaskErrorReported TaskTypeLLM []) TaskTypeLLM "0x01"
           demo_proof demo_key (demo_group_world TaskErrorReported TaskTypeLLM [])).
  intros t Ht _. vm_compute in Ht. repeat (apply elem_of_cons in Ht as [-> | Ht]; [done|]). by apply elem_of_nil in Ht.
Defined.

(** Although such a validation fails and the database is rolled back, the
    refunds of the first two members have already been added to the creator's
    cached balance: it gains 200 that no event backs, and can be repeated. *)
Theorem error_group_inflates_cache :
  let before := demo_group_world TaskErrorReported TaskTypeLLM [] in
  let '(r, w') := demo_validate TaskErrorReported TaskTypeLLM [] in
  r = Err errWrongTaskStatus ∧ db_events (w_db w') = [] ∧ db_events (w_db before) = [] ∧
  c_accounts (w_cache before) !! "0xcreator" = Some 1000 ∧
  c_accounts (w_cache w') !! "0xcreator" = Some 1200 ∧
  map t_Status (db_tasks (w_db w')) = [TaskErrorReported; TaskErrorReported; TaskErrorReported].
Proof. vm_compute. done. Qed.

(** Closeness of image hashes is not transitive, and the verdict depends on the
    order: here the slowest member agrees with the second, the second agrees with
    the first, and the slowest is invalidated. *)
Theorem slashed_despite_agreement :
  let scores := ["0x0000000000000000"; "0x000000000000000f"; "0x00000000000000ff"] in
  let tasks := demo_group TaskScoreReady TaskTypeSD scores in
  (∀ t1 t2, tasks !! 1%nat = Some t1 → tasks !! 2%nat = Some t2 → agree (Task_DistanceThreshold demo_config) t1 t2) ∧
  match decideGroup (Task_DistanceThreshold demo_config) tasks with
  | Ok next => next !! "0x03" = Some TaskEndInvalidated ∧ next !! "0x02" = Some TaskEndGroupRefund
  | Err _ => False
  end.
Proof.
  split; [|by vm_compute]. intros t1 t2 H1 H2. injection H1 as <-. injection H2 as <-. by vm_compute.
Qed.

Definition demo_verdict (scores : list string) : statusMap :=
  match decideGroup 5 (demo_group TaskScoreReady TaskTypeLLM scores) with Ok next => next | Err _ => ∅ end.


Lemma group_validates_one_witness :
  demo_verdict ["0xaa"; "0xaa"; "0xaa"] !! "0x01" = Some TaskGroupValidated ∧
  ∃ b, b ∈ demo_group TaskScoreReady TaskTypeLLM ["0xaa"; "0xaa"; "0xaa"] ∧
    demo_verdict ["0xaa"; "0xaa"; "0xaa"] !! t_TaskIDCommitment b = Some TaskEndGroupRefund.
Proof.
  split; [by vm_compute|].
  destruct (group_validates_one 5 (demo_group TaskScoreReady TaskTypeLLM ["0xaa"; "0xaa"; "0xaa"])
    (demo_verdict ["0xaa"; "0xaa"; "0xaa"]) (demo_member 1 "0x01" "0x" "0xn1" TaskScoreReady TaskTypeLLM "0xaa"))
    as (_ & (b & Hb & _ & _ & Hl) & _).
  - unfold distinct. vm_compute. apply (bool_decide_unpack _). vm_compute. exact I.
  - vm_compute. reflexivity.
  - apply (list_elem_of_lookup_2 _ 0). reflexivity.
  - vm_compute. reflexivity.
  - exists b. auto.
Defined.

End ValidateTask.
