(* ===== verification/Handlers.v ===== *)
(** * The task handlers and the timeout scan

    The requests that drive the life of a task
    (src/api/v1/inference_tasks/{create_task,submit_score,report_task_error,
    abort_task,validate_task,upload_result}.go), the administrator's slash
    (src/api/v2/admin/delegated_slash.go) and the background scan that aborts
    overdue tasks (src/service/start_task.go).  A handler starts after its
    signature check, with the address of the signer; parsing a request and
    reading and writing files are left out. *)

From stdpp Require Import sorting.
From S2P Require Import Prelude Paging Models Config Delegation VestingSchedule Deadline Mac.
From S2P Require Import MaxStaking Store Statistic Ledger LedgerCoherence LedgerSync Vesting.
From S2P Require Import Qos NodeState TaskStatus Assignment ValidateTask.

Module Handlers.
Import Mac Deadline Statistic Ledger LedgerCoherence LedgerSync Vesting Qos NodeState TaskStatus Assignment ValidateTask.

(** ** Definitions *)

Section handlers.
Context {E : Env}.

(** [SyncStatus], src/models/inference_task.go 193-206 *)
Definition taskSyncStatus (task : InferenceTask) : M InferenceTask :=
  if t_ID task =? 0 then fail ErrTaskIDEmpty
  else
    row ← db_first (λ d, find_first (λ t, t_ID t =? t_ID task) (db_tasks d));
    mret (task <| t_Status := t_Status row |> <| t_AbortReason := t_AbortReason row |>).

(** The errors a handler retries after: the status of the task or of the node
    changed meanwhile. *)
Definition statusChanged (e : error) : bool :=
  bool_decide (e = ErrTaskStatusChanged) || bool_decide (e = ErrNodeStatusChanged).

(** [for range 3] of the task handlers.  A failed attempt may have assigned its
    values to the task in memory, but all of them are overwritten by the next
    attempt, except the status and the abort reason, which are read again. *)
Fixpoint retryTask (n : nat) (last : error) (retryable : error → bool) (recheck : InferenceTask → M unit)
    (attempt : InferenceTask → M InferenceTask) (task : InferenceTask) : M InferenceTask :=
  match n with
  | O => fail last
  | S n' =>
      outcome ← try_ (attempt task);
      match outcome with
      | Ok task' => mret task'
      | Err e =>
          if retryable e then
            task' ← taskSyncStatus task;
            recheck task';;
            retryTask n' e retryable recheck attempt task'
          else fail e
      end
  end.

(** [GetTaskByIDCommitment] as the handlers report it. *)
Definition loadTask (taskIDCommitment : string) : M InferenceTask :=
  found ← try_ (GetTaskByIDCommitment taskIDCommitment);
  match found with
  | Ok task => mret task
  | Err e => if bool_decide (e = ErrRecordNotFound) then fail (ErrMsg "Task not found") else fail e
  end.

(** [SubmitScore], src/api/v1/inference_tasks/submit_score.go 30-89; the data type
    is given trimmed and in lower case. *)
Definition SubmitScore (address taskIDCommitment score executionDType : string) : M InferenceTask :=
  task ← loadTask taskIDCommitment;
  if negb (bool_decide (t_Status task = TaskStarted)) then fail (ErrMsg "Illegal task state")
  else if negb (String.eqb (t_SelectedNode task) address) then fail (ErrMsg "Signer not allowed")
  else
    match hexutil_Decode score with
    | None => fail (ErrMsg "invalid score")
    | Some scoreBytes =>
        if (bool_decide (t_TaskType task = TaskTypeSD) || bool_decide (t_TaskType task = TaskTypeSDFTLora)) &&
           negb (bool_decide ((length scoreBytes mod 8)%nat = 0%nat))
        then fail (ErrMsg "invalid score")
        else
          retryTask 3 ErrDatabase statusChanged (λ _, mret tt) SetTaskStatusScoreReady
            (task <| t_Score := score |> <| t_ExecutionDType := executionDType |>)
    end.

(** [ReportTaskError], src/api/v1/inference_tasks/report_task_error.go 27-75 *)
Definition ReportTaskError (address taskIDCommitment : string) (taskError : TaskError) : M InferenceTask :=
  task ← loadTask taskIDCommitment;
  if negb (bool_decide (t_Status task = TaskStarted)) then fail (ErrMsg "Illegal task state")
  else if negb (String.eqb (t_SelectedNode task) address) then fail (ErrMsg "Signer not allowed")
  else
    retryTask 3 ErrDatabase statusChanged (λ _, mret tt) SetTaskStatusErrorReported
      (task <| t_TaskError := taskError |>).

(** [AbortTask], src/api/v1/inference_tasks/abort_task.go 27-81 *)
Definition AbortTask (address taskIDCommitment : string) (abortReason : TaskAbortReason) : M InferenceTask :=
  task ← loadTask taskIDCommitment;
  if negb (String.eqb address (t_Creator task)) then fail (ErrMsg "Signer not allowed")
  else if negb (bool_decide (abortReason = TaskAbortCreatorCancelled)) then fail (ErrMsg "Abort reason not allowed")
  else if negb (bool_decide (t_Status task = TaskQueued)) then fail (ErrMsg "Task can no longer be cancelled")
  else
    retryTask 3 ErrDatabase (λ e, bool_decide (e = ErrTaskStatusChanged))
      (λ task, guard_ok (bool_decide (t_Status task = TaskQueued)) (ErrMsg "Task can no longer be cancelled"))
      (λ task, SetTaskStatusEndAborted (task <| t_AbortReason := abortReason |>) address) task.

(** [ValidateTask], src/api/v1/inference_tasks/validate_task.go 28-90: the loop of
    attempts on the tasks of the request *)
Fixpoint validateAttempts (n : nat) (last : error) (taskID vrfProof publicKey : string) (tasks : list InferenceTask)
    : M unit :=
  match n with
  | O => fail last
  | S n' =>
      outcome ← try_ (match tasks with
                      | [task] => _ ← ValidateSingleTask task taskID vrfProof publicKey; mret tt
                      | _ => _ ← ValidateTaskGroup tasks taskID vrfProof publicKey; mret tt
                      end);
      match outcome with
      | Ok _ => mret tt
      | Err e =>
          if bool_decide (e = ErrValidationAlreadyApplied) then mret tt
          else if statusChanged e then
            tasks' ← map_m taskSyncStatus tasks;
            validateAttempts n' e taskID vrfProof publicKey tasks'
          else fail e
      end
  end.

(** [ValidateTask], src/api/v1/inference_tasks/validate_task.go 28-90; the
    arguments of a stored task are never empty. *)
Definition ValidateTask (address : string) (taskIDCommitments : list string) (taskID vrfProof publicKey : string)
    : M unit :=
  if negb (bool_decide (length taskIDCommitments = 1%nat)) && negb (bool_decide (length taskIDCommitments = 3%nat))
  then fail (ErrMsg "TaskIDCommitments length incorrect")
  else
    tasks ← map_m (λ c,
      task ← GetTaskByIDCommitment c;
      if negb (String.eqb (t_Creator task) address) then fail (ErrMsg "Signer not allowed") else mret task)
      taskIDCommitments;
    validateAttempts 3 ErrDatabase taskID vrfProof publicKey tasks.

(** [UploadResult], src/api/v1/inference_tasks/upload_result.go 64-160 and 250-272:
    the signer, the status and the score of the uploaded files are checked, and a
    validated task ends in success.  The files themselves, the evidence of a
    slashed group (161-249) and the calibration are left out. *)
Definition UploadResult (address taskIDCommitment uploadedScore : string) : M InferenceTask :=
  task ← loadTask taskIDCommitment;
  if negb (String.eqb (t_SelectedNode task) address) then fail (ErrMsg "Signer not allowed")
  else if negb (bool_decide (t_Status task = TaskValidated)) && negb (bool_decide (t_Status task = TaskGroupValidated)) &&
          negb (bool_decide (t_Status task = TaskEndInvalidated)) && negb (bool_decide (t_Status task = TaskEndGroupRefund))
  then fail (ErrMsg "Task not validated")
  else if negb (String.eqb (t_Score task) uploadedScore) then fail (ErrMsg "Wrong result files uploaded")
  else if bool_decide (t_Status task = TaskValidated) || bool_decide (t_Status task = TaskGroupValidated) then
    retryTask 3 ErrDatabase statusChanged (λ _, mret tt) SetTaskStatusEndSuccess task
  else mret task.

(** [TriggerNodeSlash], src/api/v2/admin/delegated_slash.go 102-142, for an address
    in checksum form *)
Definition TriggerNodeSlash (nodeAddress : string) (pendingSlashID : Z) : M Z :=
  if negb (pendingSlashID =? 0) then SlashPendingNode pendingSlashID
  else if negb (env_is_hex_address nodeAddress) then fail (ErrMsg "invalid node address")
  else
    node ← GetNodeByAddress nodeAddress;
    SlashNode node "".

(** *** Overdue tasks *)

(** [abortTimedOutTask], src/service/start_task.go 240-267 *)
Fixpoint abortTimedOutTask (n : nat) (last : error) (task : InferenceTask) (abortIssuer : string) : M unit :=
  match n with
  | O => fail last
  | S n' =>
      match GetTaskDeadline env_cfg task, t_DeadlineAt task with
      | Some (_, _, _, abortReason), Some deadlineAt =>
          t ← now;
          if t <? deadlineAt then mret tt
          else
            outcome ← try_ (SetTaskStatusEndAborted (task <| t_AbortReason := abortReason |>) abortIssuer);
            match outcome with
            | Ok _ => mret tt
            | Err e =>
                if statusChanged e then
                  task' ← GetTaskByIDCommitment (t_TaskIDCommitment task);
                  abortTimedOutTask n' e task' abortIssuer
                else fail e
            end
      | _, _ => mret tt
      end
  end.

(** [abortTimedOutTasks], src/service/start_task.go 269-282: the errors are only
    logged. *)
Definition abortTimedOutTasks (tasks : list InferenceTask) (abortIssuer : string) : M unit :=
  for_each tasks (λ task, _ ← try_ (abortTimedOutTask 3 ErrDatabase task abortIssuer); mret tt).

(** [taskDeadlineCursor], src/service/start_task.go 284-288 *)
Record taskDeadlineCursor := mkCursor { cu_Status : TaskStatus; cu_DeadlineAt : Time; cu_ID : Z }.

(** The condition of the query of [getDueTaskDeadlines], src/service/start_task.go
    306-313 *)
Definition afterCursor (cursor : option taskDeadlineCursor) (task : InferenceTask) (deadlineAt : Time) : bool :=
  match cursor with
  | None => true
  | Some c =>
      let s := TaskStatus_code (t_Status task) in
      let cs := TaskStatus_code (cu_Status c) in
      (cs <? s) || ((s =? cs) && (cu_DeadlineAt c <? deadlineAt)) ||
      ((s =? cs) && (deadlineAt =? cu_DeadlineAt c) && (cu_ID c <? t_ID task))
  end.

(** A row that is due, src/service/start_task.go 291-305 *)
Definition isDue (t : Time) (task : InferenceTask) : bool :=
  negb (terminal (t_Status task)) &&
  match t_DeadlineAt task with Some deadlineAt => deadlineAt <=? t | None => false end.

(** [ORDER BY status ASC, deadline_at ASC, id ASC], src/service/start_task.go
    314-317 *)
Definition dueOrder (t1 t2 : InferenceTask) : Prop :=
  let key t := (TaskStatus_code (t_Status t), default 0 (t_DeadlineAt t), t_ID t) in
  let '(s1, d1, i1) := key t1 in
  let '(s2, d2, i2) := key t2 in
  s1 < s2 ∨ (s1 = s2 ∧ (d1 < d2 ∨ (d1 = d2 ∧ i1 ≤ i2))).
#[export] Instance dueOrder_dec : RelDecision dueOrder.
Proof. intros t1 t2. unfold dueOrder. apply _. Defined.

(** The rows the query returns, src/service/start_task.go 303-318 *)
Definition duePage (t : Time) (limit : Z) (cursor : option taskDeadlineCursor) (tasks : list InferenceTask)
    : list InferenceTask :=
  take (Z.to_nat limit) (merge_sort dueOrder
    (select_where (λ task, isDue t task && afterCursor cursor task (default 0 (t_DeadlineAt task))) tasks)).

(** [getDueTaskDeadlines], src/service/start_task.go 290-319 *)
Definition getDueTaskDeadlines (t : Time) (limit : Z) (cursor : option taskDeadlineCursor) : M (list InferenceTask) :=
  db_read (λ d, duePage t limit cursor (db_tasks d)).

(** The cursor after a page, src/service/start_task.go 343-352 *)
Definition cursorOf (task : InferenceTask) : taskDeadlineCursor :=
  mkCursor (t_Status task) (default 0 (t_DeadlineAt task)) (t_ID task).

(** One tick of [processTaskTimeouts], src/service/start_task.go 321-359, from one
    cursor to the next *)
Definition timeoutTick (cursor : option taskDeadlineCursor) : M (option taskDeadlineCursor) :=
  t ← now;
  let abortIssuer := getDefaultAbortIssuer env_cfg in
  if String.eqb abortIssuer "" then mret cursor
  else
    found ← try_ (getDueTaskDeadlines t (Task_TimeoutQueryBatchSize env_cfg) cursor);
    match found with
    | Err _ => mret cursor
    | Ok tasks =>
        let cursor' := cursorOf <$> last tasks in
        abortTimedOutTasks tasks abortIssuer;;
        mret cursor'
    end.

(** ** The handlers keep the assignment *)

Lemma row_known task d : task ∈ db_tasks d → known task d.
Proof. intros Ht. apply task_in_known. by apply elem_of_map_2. Qed.

Lemma wp_GetTask c (Q : result InferenceTask → World → Prop) w :
  (∀ e w', reads_only w w' → Q (Err e) w') →
  (∀ task w', reads_only w w' → task ∈ db_tasks (w_db w) → Q (Ok task) w') →
  wp (GetTaskByIDCommitment c) Q w.
Proof.
  intros He Ho. unfold GetTaskByIDCommitment. wp_step; [by apply He|].
  destruct (find_first _ _) as [t|] eqn:Hf; [|by apply He]. apply find_first_Some in Hf as [Hin _]. by apply Ho.
Qed.

Lemma wp_loadTask c (Q : result InferenceTask → World → Prop) w :
  (∀ e w', reads_only w w' → Q (Err e) w') →
  (∀ task w', reads_only w w' → task ∈ db_tasks (w_db w) → Q (Ok task) w') →
  wp (loadTask c) Q w.
Proof.
  intros He Ho. unfold loadTask. wp_step. wp_step. apply wp_GetTask.
  - intros e w' Hr. case_bool; wp_step; by apply He.
  - intros task w' Hr Hin. wp_step. by apply Ho.
Qed.

(** Reading the status again from an unchanged database gives the same view. *)
Lemma wp_sync task (Q : result InferenceTask → World → Prop) w :
  well_assigned (w_db w) → task_in task (w_db w) →
  (∀ e w', w_db w' = w_db w → Q (Err e) w') →
  (∀ task' w', w_db w' = w_db w → tview_of task' = tview_of task → Q (Ok task') w') →
  wp (taskSyncStatus task) Q w.
Proof.
  intros Ha Ht He Ho. unfold taskSyncStatus. case_bool; [by wp_step; apply He|]. wp_step. wp_step; [by apply He|].
  destruct (find_first _ _) as [row|] eqn:Hf; [|by apply He]. wp_step. apply Ho; [done|].
  apply find_first_Some in Hf as [Hin Hid]. simplify_bool.
  assert (tview_of row = tview_of task) as Hv.
  { destruct Ha as ((Hi & _) & _). eapply (NoDup_map_inj tv_ID); [exact Hi|by apply elem_of_map_2|exact Ht|done]. }
  injection Hv as Hi Hc Hs Hst. unfold tview_of. simpl. by rewrite Hst.
Qed.

(** A retry loop moves when its attempts do. *)
Lemma moves_retry n last retryable recheck attempt task w :
  well_assigned (w_db w) → task_in task (w_db w) →
  (∀ t, frames reads_only (recheck t)) →
  (∀ t w', w_db w' = w_db w → tview_of t = tview_of task → moves (w_db w) (attempt t) w') →
  moves (w_db w) (retryTask n last retryable recheck attempt task) w.
Proof.
  intros Ha Ht Hre Hat. remember (w_db w) as d eqn:Hd.
  assert (Hgo : ∀ last t w', w_db w' = d → tview_of t = tview_of task →
    moves d (retryTask n last retryable recheck attempt t) w'); [|by apply Hgo].
  clear Hd w last. induction n as [|n IH]; intros last t w Hd Hv; simpl; [done|].
  unfold moves. wp_step. wp_step. eapply wp_moves; [by apply Hat|intros; by wp_step|].
  intros e w1 Hd1. case_bool; [|done]. wp_step. unfold task_in in *. rewrite <- Hv in Ht.
  apply wp_sync; [by rewrite Hd1|by unfold task_in; rewrite Hd1|by intros ? ? ->|].
  intros t' w2 Hd2 Hv2. wp_step. eapply wp_mono; [apply Hre|]. intros [[]|e'] w3 [Hd3 _]; [|congruence].
  apply IH; congruence.
Qed.

Lemma safe_load {A} c (k : InferenceTask → M A) w :
  (∀ task w1, w_db w1 = w_db w → well_assigned (w_db w1) → task ∈ db_tasks (w_db w1) → moves (w_db w1) (k task) w1) →
  safe (loadTask c ≫= k) w.
Proof.
  intros Hk. apply safe_moves. intros Ha. unfold moves. wp_step.
  apply wp_loadTask; [by intros e w' [-> _]|]. intros task w' [Hd _] Hin. rewrite <- Hd in *. by apply Hk.
Qed.

Lemma view_in task t d : task ∈ db_tasks d → tview_of t = tview_of task → task_in t d.
Proof. intros Hin Hv. unfold task_in. rewrite Hv. by apply elem_of_map_2. Qed.
Lemma view_known task t d : task ∈ db_tasks d → tview_of t = tview_of task → known t d.
Proof. intros Hin Hv. by apply task_in_known, (view_in task). Qed.

Lemma frames_retry_none : ∀ t : InferenceTask, frames reads_only (mret tt : M unit).
Proof. intros. frame_tac. Qed.

Lemma safe_SubmitScore address c score dtype w : safe (SubmitScore address c score dtype) w.
Proof.
  apply safe_load. intros task w1 _ Ha Hin. case_bool; [done|]. case_bool; [done|]. case_match; [|done].
  case_bool; [done|]. apply (moves_retry _ _ _ _ _ _ w1); [done|by apply (view_in task)|apply frames_retry_none|].
  intros t w' Hd _. rewrite <- Hd in *. by apply moves_ScoreReady.
Qed.

Lemma safe_ReportTaskError address c err w : safe (ReportTaskError address c err) w.
Proof.
  apply safe_load. intros task w1 _ Ha Hin. case_bool; [done|]. case_bool; [done|].
  apply (moves_retry _ _ _ _ _ _ w1); [done|by apply (view_in task)|apply frames_retry_none|].
  intros t w' Hd _. rewrite <- Hd in *. by apply moves_ErrorReported.
Qed.

Lemma safe_AbortTask address c reason w : safe (AbortTask address c reason) w.
Proof.
  apply safe_load. intros task w1 _ Ha Hin. case_bool; [done|]. case_bool; [done|]. case_bool; [done|].
  apply (moves_retry _ _ _ _ _ _ w1); [done|by apply (view_in task)|intros; frame_tac|].
  intros t w' Hd Hv. rewrite <- Hd in *. apply moves_EndAborted; [done|]. by apply (view_known task).
Qed.

Lemma safe_UploadResult address c score w : safe (UploadResult address c score) w.
Proof.
  apply safe_load. intros task w1 _ Ha Hin. case_bool; [done|]. case_bool; [done|]. case_bool; [done|].
  case_bool; [|unfold moves; wp_step; by apply good_refl].
  apply (moves_retry _ _ _ _ _ _ w1); [done|by apply (view_in task)|apply frames_retry_none|].
  intros t w' Hd Hv. rewrite <- Hd in *. apply moves_EndSuccess; [done|by apply (view_known task)|].
  injection Hv as _ _ _ ->. apply orb_true_iff in Heqb2 as [?|?]; simplify_bool; auto.
Qed.

Lemma safe_TriggerNodeSlash address id w : safe (TriggerNodeSlash address id) w.
Proof.
  unfold TriggerNodeSlash. case_bool; [apply safe_SlashPendingNode|]. case_bool; [apply safe_fail|].
  intros Ha. pose proof (good_refl _ Ha) as Hr. wp_step. unfold GetNodeByAddress. wp_step; [exact Hr|].
  destruct (find_first _ _) as [node|] eqn:Hf; [|exact Hr]. apply find_first_Some in Hf as [Hin _].
  match goal with |- wp _ _ ?w1 => apply (safe_SlashNode node "" w1) end; [|exact Ha].
  by apply elem_of_map_2.
Qed.

Lemma moves_abortTimedOut n last task issuer w :
  well_assigned (w_db w) → known task (w_db w) → moves (w_db w) (abortTimedOutTask n last task issuer) w.
Proof.
  intros Ha. revert last task w Ha. induction n as [|n IH]; intros last task w Ha Hk; simpl; [done|].
  assert (Hret : moves (w_db w) (mret tt : M unit) w) by (unfold moves; wp_step; by apply good_refl).
  destruct (GetTaskDeadline _ _) as [[[[? ?] ?] reason]|]; [|done]. destruct (t_DeadlineAt task); [|done].
  unfold moves. wp_step. wp_step. case_bool; [exact Hret|]. wp_step. wp_step.
  eapply wp_moves; [by apply (moves_EndAborted _ _ (tick w))|intros; by wp_step|].
  intros e w1 Hd1. change (w_db w1 = w_db w) in Hd1. case_bool; [|exact Hd1]. wp_step.
  apply wp_GetTask; [intros ? ? [-> _]; exact Hd1|].
  intros t2 w2 [Hd2 _] Hin. rewrite <- Hd2 in *. rewrite <- Hd1 in *. apply IH; [done|by apply row_known].
Qed.

Lemma safe_abortTimedOutTasks tasks issuer w :
  Forall (λ t, known t (w_db w)) tasks → safe (abortTimedOutTasks tasks issuer) w.
Proof.
  unfold abortTimedOutTasks. revert w. induction tasks as [|t tasks IH]; intros w Hk Ha; simpl; [by apply good_refl|].
  apply Forall_cons in Hk as [Ht Hk]. wp_step. wp_step. wp_step.
  assert (Hs : safe (abortTimedOutTask 3 ErrDatabase t issuer) w) by (apply safe_moves; intros; by apply moves_abortTimedOut).
  eapply wp_mono; [by apply Hs|]. intros r w1 H1. wp_step.
  eapply wp_mono; [apply IH; [|apply H1]|].
  - eapply Forall_impl; [exact Hk|]. intros u Hu. eapply known_evolves; [exact Hu|apply H1].
  - intros r' w2 H2. eapply good_trans; [exact H1|exact H2].
Qed.

Lemma safe_timeoutTick cursor w : safe (timeoutTick cursor) w.
Proof.
  intros Ha. pose proof (good_refl _ Ha) as Hr. unfold timeoutTick. wp_step. wp_step. case_bool; [exact Hr|].
  wp_step. wp_step. unfold getDueTaskDeadlines, duePage. wp_step; [exact Hr|]. wp_step.
  match goal with |- wp (abortTimedOutTasks ?l ?i) _ ?w1 => assert (Hs : safe (abortTimedOutTasks l i) w1) end.
  { apply safe_abortTimedOutTasks. apply Forall_take, Forall_forall. intros u Ht. rewrite merge_sort_Permutation in Ht.
    apply elem_of_select in Ht as [Ht _]. by apply row_known. }
  eapply wp_mono; [apply Hs, Ha|]. intros [[]|e] w1 H1; [by wp_step|done].
Qed.

Lemma wp_syncs tasks w :
  well_assigned (w_db w) → Forall (λ t, task_in t (w_db w)) tasks →
  wp (map_m taskSyncStatus tasks) (λ r w', w_db w' = w_db w ∧
    match r with Ok ts => Forall (λ t, task_in t (w_db w)) ts | Err _ => True end) w.
Proof.
  intros Ha HF. assert (H : wp (map_m taskSyncStatus tasks) (λ r w', w_db w' = w_db w ∧
    match r with Ok ts => length ts = length tasks ∧ Forall (λ t, task_in t (w_db w)) ts | Err _ => True end) w).
  { apply (wp_map_m_rows _ _ (λ w', w_db w' = w_db w)); [|done]. intros t w1 Ht Hd1. rewrite Forall_forall in HF.
    apply wp_sync; rewrite ?Hd1; [done|by apply HF|done|]. intros t' w2 Hd2 Hv. split; [done|].
    unfold task_in. rewrite Hv. by apply HF. }
  eapply wp_mono; [exact H|]. intros [ts|e] w' [Hd Hts]; [|done]. by destruct Hts.
Qed.

Lemma moves_validateAttempts n last taskID vrfProof publicKey tasks w :
  well_assigned (w_db w) → Forall (λ t, task_in t (w_db w)) tasks →
  moves (w_db w) (validateAttempts n last taskID vrfProof publicKey tasks) w.
Proof.
  revert last tasks w. induction n as [|n IH]; intros last tasks w Ha HF; simpl; [done|].
  unfold moves. wp_step. wp_step.
  match goal with |- wp ?m _ _ => assert (Hm : moves (w_db w) m w) end.
  { assert (Hgroup : ∀ l, moves (w_db w) (_ ← ValidateTaskGroup l taskID vrfProof publicKey; mret tt) w).
    { intros l. unfold moves. wp_step. eapply wp_moves; [by apply moves_ValidateTaskGroup|intros; by wp_step|done]. }
    destruct tasks as [|t [|]]; [done| |done]. apply Forall_cons in HF as [Ht _]. unfold moves. wp_step.
    eapply wp_moves; [by apply moves_ValidateSingleTask, task_in_known|intros; by wp_step|done]. }
  eapply wp_moves; [exact Hm|intros; by wp_step|]. intros e w1 Hd1.
  case_bool; [wp_step; rewrite Hd1; by apply good_refl|]. case_bool; [|done]. wp_step.
  rewrite <- Hd1 in *. eapply wp_mono; [by apply wp_syncs|]. intros [ts|e'] w2 [Hd2 Hts]; [|done].
  rewrite <- Hd2 in *. by apply IH.
Qed.

Lemma safe_ValidateTask address cs taskID vrfProof publicKey w : safe (ValidateTask address cs taskID vrfProof publicKey) w.
Proof.
  unfold ValidateTask. case_bool; [apply safe_fail|]. apply safe_moves. intros Ha. unfold moves. wp_step.
  match goal with |- wp (map_m ?f ?l) _ _ =>
    assert (Hload : wp (map_m f l) (λ r w', w_db w' = w_db w ∧
      match r with Ok ts => length ts = length l ∧ Forall (λ t, task_in t (w_db w)) ts | Err _ => True end) w) end.
  { apply (wp_map_m_rows _ _ (λ w', w_db w' = w_db w)); [|done]. intros c w1 _ Hd1. wp_step.
    apply wp_GetTask; [intros e w2 [-> _]; done|]. intros t w2 [Hd2 _] Hin. rewrite Hd1 in *.
    case_bool; wp_step; [done|]. split; [done|]. by apply elem_of_map_2. }
  eapply wp_mono; [exact Hload|]. intros [ts|e] w1 [Hd1 Hts]; [|done]. destruct Hts as [_ Hts].
  rewrite <- Hd1 in *. by apply moves_validateAttempts.
Qed.

(** ** Who may drive a task *)

End handlers.

(** ** A sweep of the scan visits every overdue task once *)

(** The pages of successive ticks while the table does not change, until an empty
    page resets the cursor. *)
Fixpoint sweep (n : nat) (t : Time) (limit : Z) (cursor : option taskDeadlineCursor) (tasks : list InferenceTask)
    : list InferenceTask :=
  match n with
  | O => []
  | S n' =>
      let page := duePage t limit cursor tasks in
      match last page with
      | None => []
      | Some x => page ++ sweep n' t limit (Some (cursorOf x)) tasks
      end
  end.

Section sweep.
Context (t : Time) (limit : Z) (tasks : list InferenceTask).
Hypothesis Hlimit : 0 < limit.
Hypothesis Hids : NoDup (map t_ID tasks).

Let due := merge_sort dueOrder (select_where (isDue t) tasks).

#[local] Instance dueOrder_trans : Transitive dueOrder.
Proof. intros x y z. unfold dueOrder. lia. Qed.
#[local] Instance dueOrder_total : Total dueOrder.
Proof. intros x y. unfold dueOrder. lia. Qed.

Lemma due_sorted : StronglySorted dueOrder due.
Proof. apply StronglySorted_merge_sort; apply _. Qed.

Lemma due_elem x : x ∈ due ↔ x ∈ tasks ∧ isDue t x = true.
Proof. unfold due. by rewrite merge_sort_Permutation, elem_of_select. Qed.

Lemma due_antisym x y : x ∈ tasks → y ∈ tasks → dueOrder x y → dueOrder y x → x = y.
Proof. intros Hx Hy H1 H2. eapply (NoDup_map_inj t_ID); [exact Hids|done|done|]. unfold dueOrder in *. lia. Qed.

(** Beyond the cursor of [x] lie exactly the tasks that follow [x]. *)
Lemma after_iff x y : x ∈ tasks → y ∈ tasks →
  afterCursor (Some (cursorOf x)) y (default 0 (t_DeadlineAt y)) = true ↔ dueOrder x y ∧ x ≠ y.
Proof.
  intros Hx Hy. assert (Hid : t_ID x = t_ID y → x = y) by (by eapply (NoDup_map_inj t_ID)).
  unfold afterCursor, cursorOf, dueOrder. simpl. rewrite !orb_true_iff, !andb_true_iff, !Z.ltb_lt, !Z.eqb_eq.
  split; [intros H; split; [lia|intros ->; lia]|]. intros [H Hne].
  assert (t_ID x ≠ t_ID y) by (intros ?; by apply Hne, Hid). lia.
Qed.

Lemma page_after l1 x l2 : due = l1 ++ x :: l2 → duePage t limit (Some (cursorOf x)) tasks = take (Z.to_nat limit) l2.
Proof.
  intros Hdue. unfold duePage. f_equal. rewrite <- select_select.
  assert (Hx : x ∈ tasks) by (apply (due_elem x); rewrite Hdue; set_solver).
  apply (sorted_after dueOrder _ (NoDup_fmap_1 t_ID _ (NoDup_map_select t_ID _ _ Hids))) with (l1 := l1) (x := x).
  - intros y z [Hy _]%elem_of_select [Hz _]%elem_of_select. by apply due_antisym.
  - exact Hdue.
  - intros y [Hy _]%elem_of_select. by apply after_iff.
Qed.

Lemma page_first : duePage t limit None tasks = take (Z.to_nat limit) due.
Proof.
  unfold duePage, due. do 2 f_equal. apply select_ext. intros y _. by rewrite andb_true_r.
Qed.

Lemma sweep_after n l1 x l2 :
  due = l1 ++ x :: l2 → (length l2 < n)%nat → sweep n t limit (Some (cursorOf x)) tasks = l2.
Proof.
  revert l1 x l2. induction n as [|n IH]; intros l1 x l2 Hdue Hn; [lia|]. simpl. rewrite (page_after _ _ _ Hdue).
  destruct (last (take (Z.to_nat limit) l2)) as [y|] eqn:Hl.
  - destruct (take_last _ _ _ Hl) as (q & l2' & -> & ->).
    rewrite (IH (l1 ++ x :: q) y l2'); [by rewrite <- app_assoc|by rewrite Hdue, <- app_assoc|].
    rewrite length_app in Hn. simpl in Hn. lia.
  - apply take_last_None in Hl; [done|lia].
Qed.

(** C15: with a positive batch size, a sweep over an unchanged table visits every
    overdue task exactly once, in the order of status, deadline and id, whatever
    the batch size; then the cursor is reset. *)
Theorem sweep_complete (n : nat) :
  (length due < n)%nat → sweep n t limit None tasks = due ∧ due ≡ₚ select_where (isDue t) tasks.
Proof.
  intros Hn. split; [|apply merge_sort_Permutation]. destruct n as [|n]; [lia|]. simpl. rewrite page_first.
  destruct (last (take (Z.to_nat limit) due)) as [y|] eqn:Hl.
  - destruct (take_last _ _ _ Hl) as (q & l2 & Hd & ->). rewrite (sweep_after n q y l2 Hd); [by rewrite Hd, <- app_assoc|].
    rewrite Hd, length_app in Hn. simpl in Hn. lia.
  - apply take_last_None in Hl; [by rewrite Hl|lia].
Qed.
End sweep.

Lemma sweep_complete_witness :
  map t_ID (sweep 4 (100 * second) 2 None (map (λ t, t <| t_DeadlineAt := Some ((10 - t_ID t) * second) |>)
    (demo_group TaskScoreReady TaskTypeLLM ["0xaa"; "0xaa"; "0xaa"]))) = [3; 2; 1].
Proof.
  rewrite (proj1 (sweep_complete (100 * second) 2 (map (λ t, t <| t_DeadlineAt := Some ((10 - t_ID t) * second) |>)
    (demo_group TaskScoreReady TaskTypeLLM ["0xaa"; "0xaa"; "0xaa"])) ltac:(lia)
    ltac:(apply (bool_decide_unpack _); vm_compute; exact I) 4 ltac:(vm_compute; lia))).
  vm_compute. reflexivity.
Defined.

End Handlers.
