(* ===== verification/System.v ===== *)
(** * The relay as a whole

    Requests of nodes, creators and administrators and the background scan,
    interleaved in any order and with any faults.  A request that works on a task
    reads the row first and acts later, on its own copy; meanwhile other requests
    change the row.  The copies held by the requests in progress are part of the
    state, and the copies are arbitrarily stale: what makes this safe is that
    every status change requires the row to have the status of the copy. *)

From S2P Require Import Prelude Models Config Delegation VestingSchedule Deadline Mac.
From S2P Require Import MaxStaking Store Statistic Ledger LedgerCoherence LedgerSync Vesting.
From S2P Require Import Qos NodeState TaskStatus Assignment ValidateTask Handlers.

Module System.
Import Deadline Statistic Ledger LedgerCoherence LedgerSync Vesting Qos NodeState TaskStatus Assignment ValidateTask Handlers.

(** ** Requests *)

(** The operations of src/service/task_status.go on a copy. *)
Inductive taskOp :=
| OpStarted (originNode : Node)
| OpScoreReady
| OpErrorReported
| OpValidated
| OpGroupValidated
| OpInvalidated
| OpGroupRefund
| OpAborted (issuer : string)
| OpEndSuccess
| OpDelivered.

Inductive request :=
| ReqCreate (task : InferenceTask)
| ReqLoad (taskIDCommitment : string)
| ReqSync (copy : nat)
| ReqTask (op : taskOp) (copy : nat) (edit : InferenceTask → InferenceTask)
| ReqValidateSingle (copy : nat) (taskID vrfProof publicKey : string)
| ReqValidateGroup (copies : list InferenceTask) (taskID vrfProof publicKey : string)
| ReqSubmitScore (address taskIDCommitment score executionDType : string)
| ReqReportTaskError (address taskIDCommitment : string) (taskError : TaskError)
| ReqAbortTask (address taskIDCommitment : string) (reason : TaskAbortReason)
| ReqValidateTask (address : string) (taskIDCommitments : list string) (taskID vrfProof publicKey : string)
| ReqUploadResult (address taskIDCommitment uploadedScore : string)
| ReqNodePause (address : string)
| ReqNodeResume (address : string)
| ReqNodeQuit (address : string)
| ReqSlash (nodeAddress : string) (pendingSlashID : Z)
| ReqTimeouts (cursor : option taskDeadlineCursor).

Record Sys := mkSys { sy_world : World; sy_copies : list InferenceTask }.

Section system.
Context {E : Env}.

Definition runTaskOp (op : taskOp) (task : InferenceTask) : M unit :=
  match op with
  | OpStarted originNode => _ ← SetTaskStatusStarted task originNode; mret tt
  | OpScoreReady => _ ← SetTaskStatusScoreReady task; mret tt
  | OpErrorReported => _ ← SetTaskStatusErrorReported task; mret tt
  | OpValidated => _ ← SetTaskStatusValidated task; mret tt
  | OpGroupValidated => _ ← SetTaskStatusGroupValidated task; mret tt
  | OpInvalidated => _ ← SetTaskStatusEndInvalidated task; mret tt
  | OpGroupRefund => _ ← SetTaskStatusEndGroupRefund task; mret tt
  | OpAborted issuer => _ ← SetTaskStatusEndAborted task issuer; mret tt
  | OpEndSuccess =>
      (* the status check of the only caller, src/api/v1/inference_tasks/upload_result.go 250 *)
      if bool_decide (t_Status task = TaskValidated) || bool_decide (t_Status task = TaskGroupValidated)
      then _ ← SetTaskStatusEndSuccess task; mret tt else mret tt
  | OpDelivered => _ ← MarkTaskDelivered task; mret tt
  end.

(** A caller sets values of its copy, but not its key, node or status. *)
Definition harmless (edit : InferenceTask → InferenceTask) (task : InferenceTask) : bool :=
  bool_decide (tview_of (edit task) = tview_of task).

Definition unit_of {A} (m : M A) : M unit := _ ← m; mret tt.

(** What a request does, and the copy it takes. *)
Definition runRequest (copies : list InferenceTask) (req : request) : M (list InferenceTask) :=
  match req with
  | ReqCreate task =>
      (* the handler builds a queued task and requires a commitment,
         src/api/v1/inference_tasks/create_task.go 20-30 and 165-190 *)
      if bool_decide (t_Status task = TaskQueued) && negb (String.eqb (t_TaskIDCommitment task) "")
      then unit_of (CreateTask task);; mret [] else mret []
  | ReqLoad c => task ← GetTaskByIDCommitment c; mret [task]
  | ReqSync i =>
      match copies !! i with
      | None => mret []
      | Some task =>
          task' ← taskSyncStatus task;
          (* a caller whose task has left the queue gives up,
             src/api/v1/inference_tasks/abort_task.go 65-72 *)
          if bool_decide (t_Status task = TaskQueued) && negb (bool_decide (t_Status task' = TaskQueued))
          then mret [] else mret [task']
      end
  | ReqTask op i edit =>
      match copies !! i with
      | None => mret []
      | Some task => if harmless edit task then runTaskOp op (edit task);; mret [] else mret []
      end
  | ReqValidateSingle i taskID vrfProof publicKey =>
      match copies !! i with
      | None => mret []
      | Some task => unit_of (ValidateSingleTask task taskID vrfProof publicKey);; mret []
      end
  | ReqValidateGroup tasks taskID vrfProof publicKey =>
      unit_of (ValidateTaskGroup tasks taskID vrfProof publicKey);; mret []
  | ReqSubmitScore a c s d => unit_of (SubmitScore a c s d);; mret []
  | ReqReportTaskError a c e => unit_of (ReportTaskError a c e);; mret []
  | ReqAbortTask a c r => unit_of (AbortTask a c r);; mret []
  | ReqValidateTask a cs taskID vrfProof publicKey => ValidateTask a cs taskID vrfProof publicKey;; mret []
  | ReqUploadResult a c s => unit_of (UploadResult a c s);; mret []
  | ReqNodePause a => NodePause a;; mret []
  | ReqNodeResume a => NodeResume a;; mret []
  | ReqNodeQuit a => NodeQuit a;; mret []
  | ReqSlash a i => unit_of (TriggerNodeSlash a i);; mret []
  | ReqTimeouts cursor => unit_of (timeoutTick cursor);; mret []
  end.

(** A request that fails has done what it did before failing. *)
Definition step (sys : Sys) (req : request) : Sys :=
  let '(r, w') := runRequest (sy_copies sys) req (sy_world sys) in
  mkSys w' (match r with Ok new => sy_copies sys ++ new | Err _ => sy_copies sys end).

Definition run (sys : Sys) (reqs : list request) : Sys := foldl step sys reqs.

(** ** The invariant of the system *)

Definition sound (d : DB) (sys : Sys) : Prop :=
  good d (w_db (sy_world sys)) ∧ Forall (λ t, known t (w_db (sy_world sys))) (sy_copies sys).

Lemma safe_unit {A} (m : M A) w : safe m w → safe (unit_of m) w.
Proof. intros Hm. apply safe_bind; [done|intros; apply safe_ret]. Qed.

Lemma safe_taskOp op task w : known task (w_db w) → safe (runTaskOp op task) w.
Proof.
  intros Hk. destruct op; simpl; [..|apply safe_unit, safe_MarkTaskDelivered].
  all: try (apply safe_unit, safe_moves; intros Ha).
  - by apply moves_Started.
  - by apply moves_ScoreReady.
  - by apply moves_ErrorReported.
  - by apply moves_Validated.
  - by apply moves_GroupValidated.
  - by apply moves_EndInvalidated.
  - by apply moves_GroupRefund.
  - by apply moves_EndAborted.
  - case_bool; [|apply safe_ret]. apply safe_unit, safe_moves. intros Ha. apply moves_EndSuccess; [done|done|].
    apply orb_true_iff in Heqb as [?|?]; simplify_bool; auto.
Qed.

(** A request keeps the database good and takes only copies that are known. *)
Definition serves (m : M (list InferenceTask)) (w : World) : Prop :=
  wp m (λ r w', good (w_db w) (w_db w') ∧
    match r with Ok new => Forall (λ t, known t (w_db w')) new | Err _ => True end) w.

Lemma serves_nothing w : well_assigned (w_db w) → serves (mret []) w.
Proof. intros Ha. unfold serves. wp_step. split; [by apply good_refl|constructor]. Qed.

Lemma serves_safe (m : M unit) w : well_assigned (w_db w) → safe m w → serves (m;; mret []) w.
Proof.
  intros Ha Hm. unfold serves. wp_step. eapply wp_mono; [by apply Hm|]. intros [[]|e] w' Hg; [wp_step|]; by split.
Qed.

Lemma serves_sync task w :
  well_assigned (w_db w) → known task (w_db w) → serves (task' ← taskSyncStatus task;
    if bool_decide (t_Status task = TaskQueued) && negb (bool_decide (t_Status task' = TaskQueued))
    then mret [] else mret [task']) w.
Proof.
  intros Ha (v & Hv & Hev). pose proof (good_refl _ Ha) as Hr. unfold serves, taskSyncStatus. wp_step.
  case_bool; [by wp_step|]. wp_step. wp_step; [by split|]. destruct (find_first _ _) as [row|] eqn:Hf; [|by split].
  apply find_first_Some in Hf as [Hin Hid]. simplify_bool. wp_step. simpl.
  destruct (bool_decide (t_Status task = TaskQueued) && negb (bool_decide (t_Status row = TaskQueued))) eqn:Hq;
    wp_step; (split; [exact Hr|]); [done|]. apply Forall_singleton.
  destruct Hev as (Hi & Hc & _ & Hsel).
  assert (v = tview_of row) as ->.
  { destruct Ha as ((Hids & _) & _). eapply (NoDup_map_inj tv_ID); [exact Hids|done|by apply elem_of_map_2|].
    simpl in *. congruence. }
  apply task_in_known. unfold task_in. destruct Hsel as [Hsel|[Hq1 Hq2]].
  - replace (tview_of _) with (tview_of row); [by apply elem_of_map_2|]. unfold tview_of in *. simpl in *. congruence.
  - simpl in *. by rewrite !bool_decide_true in Hq by done; rewrite bool_decide_false in Hq by done.
Qed.

Lemma serves_request copies req w :
  well_assigned (w_db w) → Forall (λ t, known t (w_db w)) copies → serves (runRequest copies req) w.
Proof.
  intros Ha Hk. assert (Hcopy : ∀ i task, copies !! i = Some task → known task (w_db w)).
  { intros i task Hi. by eapply Forall_lookup_1 in Hk. }
  destruct req as [task|c|i|op i edit|i ? ? ?|tasks ? ? ?|? ? ? ?|? ? ?|? ? ?|? ? ? ? ?|? ? ?|?|?|?|? ?|cursor]; simpl.
  - case_bool; [|by apply serves_nothing]. apply serves_safe; [done|]. apply safe_unit, safe_moves. intros _.
    by apply moves_CreateTask.
  - unfold serves. wp_step. apply wp_GetTask; [intros e w' [-> _]; by split; [apply good_refl|]|].
    intros task w' [Hd _] Hin. wp_step. rewrite Hd. split; [by apply good_refl|].
    apply Forall_singleton. by apply row_known.
  - destruct (copies !! i) as [task|] eqn:Hi; [|by apply serves_nothing]. apply serves_sync; [done|by eapply Hcopy].
  - destruct (copies !! i) as [task|] eqn:Hi; [|by apply serves_nothing].
    destruct (harmless edit task) eqn:Hh; [|by apply serves_nothing]. unfold harmless in Hh. simplify_bool.
    apply serves_safe; [done|]. apply safe_taskOp. destruct (Hcopy _ _ Hi) as (v & Hv & He). exists v. by rewrite Hh.
  - destruct (copies !! i) as [task|] eqn:Hi; [|by apply serves_nothing]. apply serves_safe; [done|].
    apply safe_unit, safe_moves. intros _. apply moves_ValidateSingleTask; [done|by eapply Hcopy].
  - apply serves_safe; [done|]. apply safe_unit, safe_moves. intros _. by apply moves_ValidateTaskGroup.
  - apply serves_safe; [done|]. apply safe_unit, safe_SubmitScore.
  - apply serves_safe; [done|]. apply safe_unit, safe_ReportTaskError.
  - apply serves_safe; [done|]. apply safe_unit, safe_AbortTask.
  - apply serves_safe; [done|]. apply safe_ValidateTask.
  - apply serves_safe; [done|]. apply safe_unit, safe_UploadResult.
  - apply serves_safe; [done|]. apply safe_NodePause.
  - apply serves_safe; [done|]. apply safe_NodeResume.
  - apply serves_safe; [done|]. apply safe_NodeQuit.
  - apply serves_safe; [done|]. apply safe_unit, safe_TriggerNodeSlash.
  - apply serves_safe; [done|]. apply safe_unit, safe_timeoutTick.
Qed.

Lemma sound_step d sys req : sound d sys → sound d (step sys req).
Proof.
  intros [Hg Hk]. destruct Hg as [Ha Hd]. pose proof (serves_request (sy_copies sys) req _ Ha Hk) as Hs.
  unfold serves, wp, step in *. destruct (runRequest _ _ _) as [r w']. simpl in *. destruct Hs as [Hg' Hnew].
  split; simpl; [by eapply good_trans|].
  assert (Hold : Forall (λ t, known t (w_db w')) (sy_copies sys)).
  { eapply Forall_impl; [exact Hk|]. intros t Ht. eapply known_evolves; [exact Ht|apply Hg']. }
  destruct r; [by apply Forall_app|done].
Qed.

Lemma sound_run d sys reqs : sound d sys → sound d (run sys reqs).
Proof.
  unfold run. revert sys. induction reqs as [|req reqs IH]; intros sys Hs; simpl; [done|]. by apply IH, sound_step.
Qed.

(** ** What the invariant says *)

(** A task that has not ended and is not queued. *)
Definition runs (t : InferenceTask) : Prop := terminal (t_Status t) = false ∧ t_Status t ≠ TaskQueued.

(** The tables agree: rows are unique, a node is busy exactly when it has a
    current task, and a node has a current task exactly when that task is running
    on it. *)
Definition consistent (d : DB) : Prop := well_assigned d.

Lemma runs_running t : runs t ↔ running (t_Status t) = true.
Proof. unfold runs, running. destruct (t_Status t); simpl; naive_solver. Qed.

(** C1: whatever requests are served, in whatever order, however stale the copies
    they act on and wherever the database fails: if at the start the nodes and the
    running tasks are matched, they still are.  So a path that clears a node's
    current task also ends that task, as the comment of src/service/task_status.go
    617-619 says. *)
Theorem assignment_invariant (w : World) (reqs : list request) :
  consistent (w_db w) →
  let d := w_db (sy_world (run (mkSys w []) reqs)) in
  (∀ n c, n ∈ db_nodes d → n_CurrentTaskIDCommitment n = Some c →
     working (n_Status n) = true ∧
     ∃ t, t ∈ db_tasks d ∧ t_TaskIDCommitment t = c ∧ t_SelectedNode t = n_Address n ∧ runs t) ∧
  (∀ t, t ∈ db_tasks d → runs t →
     ∃ n, n ∈ db_nodes d ∧ n_Address n = t_SelectedNode t ∧ n_CurrentTaskIDCommitment n = Some (t_TaskIDCommitment t)) ∧
  (∀ n m c, n ∈ db_nodes d → m ∈ db_nodes d → n_CurrentTaskIDCommitment n = Some c →
     n_CurrentTaskIDCommitment m = Some c → n_ID n = n_ID m).
Proof.
  intros Ha d. assert (Hs : sound (w_db w) (run (mkSys w []) reqs)) by (apply sound_run; by split; [apply good_refl|]).
  destruct Hs as [[Hd _] _]. fold d in Hd. destruct Hd as ((Hti & Htc & _) & (Hni & Hna & _) & Hw & Hn & Htn).
  assert (Hnode : ∀ n c, n ∈ db_nodes d → n_CurrentTaskIDCommitment n = Some c →
    ∃ t, t ∈ db_tasks d ∧ t_TaskIDCommitment t = c ∧ t_SelectedNode t = n_Address n ∧ runs t).
  { intros n c Hin Hc. destruct (Hn (nview_of n) c) as (v & Hv & Hcm & Hsel & [Hr|]); [by apply elem_of_map_2|done| |done].
    apply elem_of_map_iff in Hv as (t & Ht & ->). exists t. by rewrite runs_running. }
  split_and!.
  - intros n c Hin Hc. split; [|by apply Hnode]. apply (Hw (nview_of n)); [by apply elem_of_map_2|]. simpl. by rewrite Hc.
  - intros t Ht Hr%runs_running. destruct (Htn (tview_of t)) as [_ [?|(v & Hv & Hadr & Hc)]]; [by apply elem_of_map_2|done|done|].
    apply elem_of_map_iff in Hv as (n & Hin & ->). by exists n.
  - intros n m c Hin Him Hcn Hcm. destruct (Hnode n c Hin Hcn) as (t & Ht & Htc1 & Hsel & _).
    destruct (Hnode m c Him Hcm) as (t' & Ht' & Htc2 & Hsel' & _).
    assert (tview_of t = tview_of t') as Heq.
    { eapply (NoDup_map_inj tv_Commitment); [exact Htc|by apply elem_of_map_2|by apply elem_of_map_2|simpl; congruence]. }
    assert (nview_of n = nview_of m) as Heq2; [|by injection Heq2].
    eapply (NoDup_map_inj nv_Address); [exact Hna|by apply elem_of_map_2|by apply elem_of_map_2|].
    injection Heq. simpl. congruence.
Qed.

End system.

(** ** Witnesses *)

(** A creator with 1000, a free node, and one task from creation to its paid
    result. *)
Definition demo_free : Node := demo_node <| n_Status := NodeStatusAvailable |> <| n_CurrentTaskIDCommitment := None |>.
Definition demo_start : World :=
  mkWorld (empty_db <| db_accounts := {["0xcreator" := 1000]} |> <| db_nodes := [demo_free] |>)
    (empty_caches <| c_accounts := {["0xcreator" := 1000]} |>) 0 0.
Definition demo_task : InferenceTask :=
  (demo_member 0 "0x01" "0x" "" TaskQueued TaskTypeLLM "") <| t_SamplingSeed := "0x01" |> <| t_TaskVersion := "3.0.0" |>.
Definition demo_requests : list request :=
  [ReqCreate demo_task; ReqLoad "0x01"; ReqTask (OpStarted demo_free) 0 id; ReqSubmitScore "0xn" "0x01" "0xaa" "fp16";
   ReqTask (OpAborted "0xcreator") 0 id;
   ReqValidateTask "0xcreator" ["0x01"] "0x01" demo_proof demo_key; ReqUploadResult "0xn" "0x01" "0xaa"].
Definition demo_run (n : nat) : Sys := run (E:=demo_env) (mkSys demo_start []) (take n demo_requests).

Lemma demo_start_consistent : consistent (w_db demo_start).
Proof.
  unfold consistent, assigned_in, assigned. simpl. split; [split_and!; [constructor|constructor|set_solver]|].
  split; [split_and!; [apply NoDup_singleton|apply NoDup_singleton|set_solver]|]. split_and!.
  - intros n ->%list_elem_of_singleton. split; [intros [c [=]]|done].
  - by intros n c ->%list_elem_of_singleton.
  - by intros t ?%elem_of_nil.
Qed.

(** The whole path: the task ends in success and the node is free again; the stale
    cancellation in the middle changes nothing. *)
Example demo_run_end :
  map t_Status (db_tasks (w_db (sy_world (demo_run 7)))) = [TaskEndSuccess] ∧
  map n_Status (db_nodes (w_db (sy_world (demo_run 7)))) = [NodeStatusAvailable].
Proof. vm_compute. done. Qed.

Lemma assignment_invariant_witness :
  ∃ t, t ∈ db_tasks (w_db (sy_world (demo_run 5))) ∧ t_TaskIDCommitment t = "0x01" ∧ runs t.
Proof.
  destruct (assignment_invariant (E:=demo_env) demo_start (take 5 demo_requests) demo_start_consistent) as (H & _ & _).
  destruct (H (demo_node <| n_CurrentTaskIDCommitment := Some "0x01" |>) "0x01") as (_ & t & Ht & Hc & _ & Hr).
  - apply (list_elem_of_lookup_2 _ 0). vm_compute. reflexivity.
  - reflexivity.
  - exists t. auto.
Defined.

End System.
