(* ===== verification/Balances.v ===== *)
(** * Balances under any traffic

    The cached balances, from which the relay decides what a creator can spend
    and an owner withdraw, against the ledger (the account table and the events
    that are not applied yet), when tasks, withdrawals and vesting releases are
    served in any order. *)

From S2P Require Import Prelude Models Config Delegation VestingSchedule Deadline Mac.
From S2P Require Import MaxStaking Store Statistic Ledger LedgerCoherence LedgerSync Withdraw.
From S2P Require Import Vesting Qos NodeState TaskStatus Assignment ValidateTask Handlers.
From S2P Require Import System.

Module Balances.
Import Deadline Statistic Ledger LedgerCoherence LedgerSync Withdrawals Vesting Qos NodeState TaskStatus Assignment
  ValidateTask Handlers System.

Section balances.
Context {E : Env}.

(** ** Work outside the ledger *)

Lemma same_write f :
  (∀ d, db_accounts (f d) = db_accounts d ∧ db_events (f d) = db_events d) → frames ledger_same (db_write f).
Proof.
  intros Hf. apply frames_db_write; [apply _|]. intros w. unfold ledger_same. simpl. by destruct (Hf (w_db w)) as [-> ->].
Qed.

Lemma same_exec {A} (f : DB → result (A * DB)) :
  (∀ d a d', f d = Ok (a, d') → db_accounts d' = db_accounts d ∧ db_events d' = db_events d) →
  frames ledger_same (db_exec f).
Proof.
  intros Hf. apply frames_db_exec; [apply _|]. intros w a d' Hd. unfold ledger_same. simpl.
  by destruct (Hf _ _ _ Hd) as [-> ->].
Qed.

Lemma same_cache f : (∀ c, c_accounts (f c) = c_accounts c) → frames ledger_same (cache_write f).
Proof. intros Hf. apply frames_cache_write. intros w. split_and!; [done|done|]. unfold accounts. simpl. by rewrite Hf. Qed.

Lemma same_emit e : frames ledger_same (emitEvent e).
Proof. by apply same_write. Qed.

Lemma same_taskUpdateStatus task f : frames ledger_same (taskUpdateStatus task f).
Proof.
  unfold taskUpdateStatus. frame_tac. apply same_exec. intros d a d'. destruct (exists_where _ _); [|done].
  by intros [= _ <-].
Qed.

Lemma same_nodeUpdateStatus node f : frames ledger_same (nodeUpdateStatus node f).
Proof.
  unfold nodeUpdateStatus. frame_tac. apply same_exec. intros d a d'. destruct (exists_where _ _); [|done].
  by intros [= _ <-].
Qed.

Lemma same_nodeUpdate node f : frames ledger_same (nodeUpdate node f).
Proof. unfold nodeUpdate. frame_tac. by apply same_write. Qed.

#[local] Hint Resolve same_emit same_taskUpdateStatus same_nodeUpdateStatus same_nodeUpdate : relay.

Lemma same_names n x :
  frames ledger_same (IncrementNodeNameCountTx n) ∧ frames ledger_same (DecrementNodeNameCountTx n) ∧
  frames ledger_same (ApplyNodeNameCountDeltaToCache n x).
Proof.
  split_and!; [by apply same_write| |].
  - unfold DecrementNodeNameCountTx. frame_tac; [|by apply same_write]. apply same_exec. intros d a d'.
    destruct (db_name_counts d !! _); [case_bool|]; by intros [= _ <-].
  - apply same_cache. intros c. by destruct (c_name_counts c).
Qed.
Lemma same_Increment n : frames ledger_same (IncrementNodeNameCountTx n).
Proof. apply (same_names n 0). Qed.
Lemma same_Decrement n : frames ledger_same (DecrementNodeNameCountTx n).
Proof. apply (same_names n 0). Qed.
Lemma same_delta n x : frames ledger_same (ApplyNodeNameCountDeltaToCache n x).
Proof. apply same_names. Qed.

Lemma same_clear a : frames ledger_same (clearNodeModelState a).
Proof. unfold clearNodeModelState. frame_tac; by apply same_write. Qed.
Lemma same_max a x : frames ledger_same (UpdateMaxStaking a x).
Proof. unfold UpdateMaxStaking. frame_tac. by apply same_cache. Qed.
Lemma same_refresh a : frames ledger_same (RefreshNodeVestingStake a).
Proof. unfold RefreshNodeVestingStake. frame_tac. apply same_cache. intros c. by repeat case_match. Qed.
Lemma same_queue k a net : frames ledger_same (queueTransaction k a net).
Proof.
  unfold queueTransaction. case_match; [|frame_tac]. apply frames_bind; [apply _|frame_tac|]. intros createdAt.
  apply same_exec. by intros d i d' [= _ <-].
Qed.
Lemma same_slashVestings a : frames ledger_same (SlashNodeVestingsTx a).
Proof. apply same_exec. by intros d i d' [= _ <-]. Qed.

#[local] Hint Resolve same_Increment same_Decrement same_delta same_clear same_max same_refresh same_queue
  same_slashVestings : relay.

Lemma same_quitTx node slashed : frames ledger_same (setNodeStatusQuitTx node slashed).
Proof. unfold setNodeStatusQuitTx, QueueSlashStaking, QueueUnstake. frame_tac. Qed.
Lemma same_postQuit node b : frames ledger_same (applyNodeQuitPostCommit node b).
Proof. unfold applyNodeQuitPostCommit. frame_tac. Qed.
#[local] Hint Resolve same_quitTx same_postQuit : relay.

Lemma same_Quit node slashed : frames ledger_same (SetNodeStatusQuit node slashed).
Proof. unfold SetNodeStatusQuit. frame_tac. Qed.
#[local] Hint Resolve same_Quit : relay.

Lemma same_finish node : frames ledger_same (nodeFinishTask node).
Proof. unfold nodeFinishTask, ShouldPermanentKickout, kickOut, GetTaskByIDCommitment. frame_tac. Qed.
Lemma same_start node c : frames ledger_same (nodeStartTask node c).
Proof. unfold nodeStartTask. frame_tac. Qed.
Lemma same_score task node : frames ledger_same (scoreNode task node).
Proof.
  unfold scoreNode, updateNodeQosScore, getNodeTaskQosScore. frame_tac. apply same_cache. intros c. by repeat case_match.
Qed.
Lemma same_boost node : frames ledger_same (ApplyHealthBoost node).
Proof. unfold ApplyHealthBoost, getEffectiveHealth. frame_tac. Qed.
Lemma same_penalty node : frames ledger_same (ApplyHealthPenalty node).
Proof. unfold ApplyHealthPenalty. frame_tac. Qed.
Lemma same_check task : frames ledger_same (checkTaskSelectedNode task).
Proof. unfold checkTaskSelectedNode, GetNodeByAddress. frame_tac. Qed.
#[local] Hint Resolve same_finish same_start same_score same_boost same_penalty same_check : relay.

(** ** Operations that settle *)

Hypothesis no_commit_fault : ∀ n, env_commit_fault n = false.

Lemma ledger_same_coherent w w' : ledger_same w w' → coherent w → coherent w'.
Proof.
  intros (Ha & He & Hc) Hco a. specialize (Hco a). rewrite Hc. unfold ledger, bal, pending_sum, quiet in *.
  by rewrite Ha, He.
Qed.

Lemma settles_same {A} (m : M A) : frames ledger_same m → settles m.
Proof. intros Hm w Hc. eapply wp_mono; [apply Hm|]. intros r w' Hs.
  eapply ledger_same_coherent; [exact Hs|exact Hc]. Qed.

Lemma settles_bind {A B} (m : M A) (k : A → M B) : settles m → (∀ a, settles (k a)) → settles (m ≫= k).
Proof.
  intros Hm Hk w Hc. wp_step. eapply wp_mono; [by apply Hm|]. intros [a|e] w1 H1; [by apply Hk|done].
Qed.

Lemma settles_try {A} (m : M A) : settles m → settles (try_ m).
Proof. intros Hm w Hc. wp_step. by apply Hm. Qed.
Lemma settles_ret {A} (a : A) : settles (mret a : M A).
Proof. intros w Hc. by wp_step. Qed.
Lemma settles_fail {A} e : settles (fail e : M A).
Proof. intros w Hc. by wp_step. Qed.

Lemma books_settle_credits task node : books (settleAborted task node) credits.
Proof.
  unfold settleAborted. case_bool; [destruct node as [n|]|].
  - eapply books_weaken; [apply books_sendTaskIncome|]. by intros c δ [? _].
  - intros w. wp_step. split; [apply wr_refl|done].
  - apply books_refund_credits.
Qed.

(** A body that books, works outside the ledger, and commits at the end. *)
Lemma body_commit_last {A} c δ (m : M unit) (a : A) :
  credits c δ → frames ledger_same m → body_ok (λ x, 0 + δ x) (m;; c;; mret a).
Proof.
  intros Hc Hm. apply body_ok_same; [done|]. intros _.
  apply (body_ok_ext δ); [done|]. by apply body_ok_commit_ret, credits_commit.
Qed.

Lemma same_abortedNode task : frames ledger_same (abortedNode task).
Proof. unfold abortedNode. frame_tac. Qed.
Lemma same_finishAborted task node : frames ledger_same (finishAborted task node).
Proof. unfold finishAborted. frame_tac. Qed.
#[local] Hint Resolve same_abortedNode same_finishAborted : relay.

Lemma settles_EndAborted task issuer : settles (SetTaskStatusEndAborted task issuer).
Proof.
  unfold SetTaskStatusEndAborted. case_bool; [apply settles_ret|]. case_bool; [apply settles_fail|].
  apply settles_transaction; [done|]. apply body_ok_same; [frame_tac|]. intros node.
  eapply body_ok_books; [apply books_settle_credits|]. intros c δ Hc.
  apply body_ok_same; [frame_tac|]. intros task'. apply body_ok_same; [frame_tac|]. intros _. by apply body_commit_last; [|frame_tac].
Qed.

Lemma settles_GroupRefund task : settles (SetTaskStatusEndGroupRefund task).
Proof.
  unfold SetTaskStatusEndGroupRefund. case_bool; [apply settles_fail|]. apply settles_bind; [apply settles_same; frame_tac|].
  intros node. apply settles_transaction; [done|]. eapply body_ok_books; [apply books_refund_credits|]. intros c δ Hc.
  do 5 (apply body_ok_same; [frame_tac|]; intros ?). by apply body_commit_last; [|frame_tac].
Qed.

Definition books_all (cs : list (M unit)) (δ : string → Z) : Prop := credits (for_each cs id) δ.

Lemma credits_nothing : books_all [] (λ _, 0).
Proof.
  intros w. simpl. wp_step. split_and!; [done|done|]. intros a. destruct (accounts w !! a); simpl; [f_equal; lia|done].
Qed.

Lemma books_payments ty ps : books (sendPayments ty ps) books_all.
Proof.
  induction ps as [|p ps IH]; simpl.
  { intros w. wp_step. split; [apply wr_refl|]. exists (λ _, 0). split; [apply credits_nothing|apply owes_start]. }
  eapply (books_bind _ _ _ (λ c δ b δ', ∃ cs, b = c :: cs ∧ books_all cs δ')); [apply books_sendTaskIncome| |].
  - intros c δ _ w. wp_step. eapply wp_mono; [apply IH|]. intros [cs|e] w1 [Hl Ho]; [|done]. wp_step. split; [done|].
    destruct Ho as (δ' & Hc & Ho). exists δ'. split; [by exists cs|done].
  - intros c δ b δ' [Hc _] (cs & -> & Hcs). by apply credits_seq.
Qed.

Lemma settles_EndSuccess task : settles (SetTaskStatusEndSuccess task).
Proof.
  unfold SetTaskStatusEndSuccess. apply settles_bind; [apply settles_same; frame_tac|]. intros node.
  apply settles_bind; [apply settles_same; unfold taskPayments, GetTaskGroupByTaskID; frame_tac|]. intros [status payments].
  apply settles_transaction; [done|]. eapply body_ok_books; [apply books_payments|]. intros cs δ Hc.
  do 4 (apply body_ok_same; [frame_tac|]; intros ?). by apply body_commit_last; [|frame_tac].
Qed.

Lemma posts_after {A B} (m : M A) (k : A → M B) l δ :
  frames ledger_same m → (∀ a, posts (k a) l δ) → posts (m ≫= k) l δ.
Proof.
  intros Hm Hk w. wp_step. eapply wp_mono; [apply Hm|]. intros [a|e] w1 (Ha & He & Hc); [|by split].
  eapply wp_mono; [apply Hk|]. intros r w2 [[Ha2 Hc2] Hp]. split; [split; congruence|]. intros Hok b.
  specialize (Hp Hok b). unfold pending_sum, quiet in *. by rewrite He in Hp.
Qed.

Lemma failed_transaction {A} (m : M A) w : wp (transaction m) (λ r w', is_ok r = false → w_db w' = w_db w) w.
Proof.
  apply wp_transaction; [done|]. eapply (wp_mono _ (λ _ _, True)); [done|]. by intros [a|e] w1 _.
Qed.

(** A transaction that posts for a cached address, and what follows it. *)
Lemma wp_post_then {A B} (m : M A) address x (k : A → M B) w :
  posts (transaction m) [address] (entry address x) → coherent w → is_Some (accounts w !! address) →
  (∀ a w1, owes w (entry address x) w1 → wp (k a) (λ _ w', coherent w') w1) →
  wp (transaction m ≫= k) (λ _ w', coherent w') w.
Proof.
  intros Hp Hc Hs Hk. wp_step.
  assert (H1 : wp (transaction m) (λ r w', loads w w' ∧ (is_ok r = true → owes w (entry address x) w')) w).
  { apply (wp_posts_cached (transaction m) address x _ w w Hp); [apply wr_refl|done|done|by intros|by intros]. }
  pose proof (failed_transaction m w) as H2. unfold wp at 1 in H1. unfold wp at 1 in H2. unfold wp at 1.
  destruct (transaction m w) as [[a|e] w1]; simpl in *; destruct H1 as [Hl Ho]; [by apply Hk, Ho|].
  eapply loads_coherent; [exact Hc|exact Hl|by apply H2|done].
Qed.

Lemma settles_CreateTask task : settles (CreateTask task).
Proof.
  unfold CreateTask. apply settles_bind; [apply settles_same; frame_tac|]. intros priority.
  set (task1 := match GetQueueDeadline _ _ with Some _ => _ | None => _ end). clearbody task1. intros w Hc. wp_step.
  apply wp_getRelayAccountFromCache; [intros e w1 Hl Hd; by eapply loads_coherent|].
  intros b w1 Hl Hd Hb. assert (Hc1 : coherent w1) by (by eapply loads_coherent). case_bool; [done|].
  assert (Hp : posts (transaction (
      task' ← createTaskRow task1; AddTotalTask;;
      createRelayAccountEvent RelayAccountEventTypeTaskPayment
        (reason2 RelayAccountEventTypeTaskPayment (t_TaskIDCommitment task1)) (t_Creator task1) (t_TaskFee task1);;
      mret task')) [t_Creator task1] (entry (t_Creator task1) (- t_TaskFee task1))).
  { apply posts_transaction, posts_after; [apply same_exec; intros d t d'; case_bool; [done|by intros [= _ <-]]|].
    intros t. apply posts_after; [by apply same_write|]. intros _. apply posts_then; [|intros; frame_tac].
    apply (posts_createRelayAccountEvent RelayAccountEventTypeTaskPayment). }
  eapply wp_post_then; [exact Hp|done|by exists b|]. intros task' w2 Ho. wp_step. wp_step. wp_step.
  eapply (owes_settle w1 _ w2); [done|exact Ho|done|]. intros a. unfold accounts. simpl. apply alter_entry. lia.
Qed.

(** *** Slashing *)

Definition books_post (post : option (M unit)) (δ : string → Z) : Prop :=
  match post with Some c => credits c δ | None => δ = λ _, 0 end.

Lemma books_then {A B} (m : M A) (k : A → M B) (R : A → (string → Z) → Prop) (R' : B → (string → Z) → Prop) :
  books m R →
  (∀ a w, wp (k a) (λ r w', ledger_same w w' ∧ match r with Ok b => ∀ δ, R a δ → R' b δ | Err _ => True end) w) →
  books (m ≫= k) R'.
Proof.
  intros Hm Hk w. wp_step. eapply wp_mono; [apply Hm|]. intros [a|e] w1 [Hl Ho]; [|done].
  destruct Ho as (δ & HR & Ho). eapply wp_mono; [apply Hk|]. intros r w2 [Hs Hr].
  split; [eapply wr_trans; [exact Hl|by apply ledger_same_loads]|]. destruct r as [b|]; [|done].
  exists δ. split; [by apply Hr|by eapply owes_same].
Qed.

Lemma books_abortForSlash node : books (abortNodeCurrentTaskForSlash node) books_post.
Proof.
  assert (Hnone : books (mret None : M (option (M unit))) books_post).
  { intros w. wp_step. split; [apply wr_refl|]. exists (λ _, 0). split; [done|apply owes_start]. }
  unfold abortNodeCurrentTaskForSlash. destruct (n_CurrentTaskIDCommitment node) as [c|]; [|done].
  intros w. wp_step. unfold GetTaskByIDCommitment. wp_step; [split; [apply wr_tick; apply _|done]|].
  destruct (find_first _ _) as [task|]; [|split; [apply wr_tick; apply _|done]].
  match goal with |- wp ?m _ ?w1 => assert (Hb : books m books_post); [|exact (Hb w1)] end.
  case_bool; [intros w1; wp_step; split; [apply wr_refl|done]|]. case_bool; [done|].
  eapply books_then; [apply books_refund_credits|]. intros cf w1. wp_step.
  eapply wp_mono; [apply same_taskUpdateStatus|]. intros [t|e] w2 H2; [|done]. wp_step.
  eapply wp_mono; [apply same_emit|]. intros [[]|e] w3 H3; [|split; [by eapply wr_trans|done]]. wp_step.
  eapply (wp_mono _ (λ _ w', ledger_same w3 w')).
  { case_bool; [|wp_step; apply wr_refl]. unfold GetTaskGroupByTaskID. wp_step. wp_step; [|wp_step]; by split. }
  intros [[]|e] w4 H4; [wp_step|]; (split; [eapply wr_trans; [exact H2|]; eapply wr_trans; [exact H3|exact H4]|done]).
Qed.

Definition books_slashed (r : Node * bool * Z * option (M unit)) (δ : string → Z) : Prop := books_post (snd r) δ.

Lemma books_slashNodeTx node c : books (slashNodeTx node c) books_slashed.
Proof.
  unfold slashNodeTx. eapply books_then; [apply books_abortForSlash|]. intros post w. wp_step.
  eapply wp_mono; [apply same_quitTx|]. intros [q|e] w1 H1; [|done]. wp_step.
  eapply wp_mono; [apply same_emit|]. intros [[]|e] w2 H2; [|split; [by eapply wr_trans|done]]. wp_step.
  split; [by eapply wr_trans|done].
Qed.

(** The refund of a slashed node's task reaches the cache after the transaction. *)
Lemma settles_afterSlash {A} (m : M A) (k : A → Node * bool * Z * option (M unit)) :
  books m (λ a δ, books_slashed (k a) δ) → settles (transaction m ≫= λ a, afterSlash (k a)).
Proof.
  intros Hm w Hc. wp_step. pose proof (books_transaction m _ Hm w) as H1. pose proof (failed_transaction m w) as H2.
  unfold wp at 1 in H1. unfold wp at 1 in H2. unfold wp at 1.
  destruct (transaction m w) as [[a|e] w1]; simpl in *; destruct H1 as [Hl Ho].
  2: { eapply loads_coherent; [exact Hc|exact Hl|by apply H2|done]. }
  destruct Ho as (δ & HR & Ho). unfold books_slashed in HR. destruct (k a) as [[[nd b] tx] post]. simpl in HR.
  unfold afterSlash. wp_step. assert (Hrest : ∀ w2, coherent w2 →
    wp (applyNodeQuitPostCommit nd b;; RefreshNodeVestingStake (n_Address nd);; mret tx) (λ _ w', coherent w') w2).
  { intros w2 Hc2. apply settles_same; [frame_tac|done]. }
  destruct post as [c|].
  - eapply wp_mono; [apply HR|]. intros r w2 (-> & Hd & Hcell). apply Hrest. by eapply owes_settle.
  - wp_step. apply Hrest. cbn in HR. rewrite HR in Ho. by apply (body_ok_ret tt w w1 Hc).
Qed.

Lemma settles_SlashNode node c : settles (SlashNode node c).
Proof.
  unfold SlashNode. case_bool; [apply settles_fail|].
  apply (settles_afterSlash (slashNodeTx node c) id). apply books_slashNodeTx.
Qed.

Lemma settles_SlashPendingNode id : settles (SlashPendingNode id).
Proof.
  unfold SlashPendingNode. apply settles_bind; [apply settles_same; unfold firstPendingSlash; frame_tac|]. intros _.
  apply (settles_afterSlash _ (λ r, r)). intros w. unfold firstPendingSlash, GetNodeByAddress. wp_step.
  wp_step; [split; [apply wr_tick; apply _|done]|]. destruct (find_first _ _) as [ps|]; [|split; [apply wr_tick; apply _|done]].
  match goal with |- wp ?m _ ?w1 => assert (Hb : books m books_slashed); [|exact (Hb w1)] end.
  assert (Hfail : ∀ e, books (fail e : M (Node * bool * Z * option (M unit))) books_slashed).
  { intros e w1. wp_step. split; [apply wr_refl|done]. }
  case_bool; [done|]. case_bool; [done|]. intros w1. wp_step. wp_step; [split; [apply wr_tick; apply _|done]|].
  destruct (find_first _ _) as [node|]; [|split; [apply wr_tick; apply _|done]].
  match goal with |- wp ?m _ ?w1 => assert (Hb : books m books_slashed); [|exact (Hb w1)] end.
  case_bool; [done|]. eapply books_then; [apply books_slashNodeTx|]. intros r w2. wp_step. wp_step; [by split|]. wp_step.
  by split.
Qed.

(** ** Handlers *)

#[local] Hint Resolve settles_ret settles_fail settles_EndAborted settles_EndSuccess settles_GroupRefund : relay.

Lemma same_sync task : frames ledger_same (taskSyncStatus task).
Proof. unfold taskSyncStatus. frame_tac. Qed.
Lemma same_GetTask c : frames ledger_same (GetTaskByIDCommitment c).
Proof. unfold GetTaskByIDCommitment. frame_tac. Qed.
Lemma same_load c : frames ledger_same (loadTask c).
Proof. unfold loadTask. frame_tac; apply same_GetTask. Qed.
Lemma same_GetNode a : frames ledger_same (GetNodeByAddress a).
Proof. unfold GetNodeByAddress. frame_tac. Qed.
#[local] Hint Resolve same_sync same_GetTask same_load same_GetNode : relay.

Lemma settles_retry n last retryable recheck attempt task :
  (∀ t, frames ledger_same (recheck t)) → (∀ t, settles (attempt t)) →
  settles (retryTask n last retryable recheck attempt task).
Proof.
  intros Hre Hat. revert last task. induction n as [|n IH]; intros last task; simpl; [apply settles_fail|].
  apply settles_bind; [by apply settles_try|]. intros [t|e]; [apply settles_ret|]. case_bool; [|apply settles_fail].
  apply settles_bind; [apply settles_same; frame_tac|]. intros t. apply settles_bind; [by apply settles_same|]. intros _. apply IH.
Qed.

(** The status changes that move no money. *)
Lemma same_Started task node : frames ledger_same (SetTaskStatusStarted task node).
Proof. unfold SetTaskStatusStarted, nodeSync. frame_tac. Qed.
Lemma same_ScoreReady task : frames ledger_same (SetTaskStatusScoreReady task).
Proof. unfold SetTaskStatusScoreReady. frame_tac. Qed.
Lemma same_ErrorReported task : frames ledger_same (SetTaskStatusErrorReported task).
Proof. unfold SetTaskStatusErrorReported. frame_tac. Qed.
Lemma same_Validated task : frames ledger_same (SetTaskStatusValidated task).
Proof. unfold SetTaskStatusValidated. frame_tac. Qed.
Lemma same_GroupValidated task : frames ledger_same (SetTaskStatusGroupValidated task).
Proof. unfold SetTaskStatusGroupValidated. frame_tac. Qed.
Lemma same_Delivered task : frames ledger_same (MarkTaskDelivered task).
Proof. unfold MarkTaskDelivered. frame_tac. apply same_exec. by intros d b d' [= _ <-]. Qed.

Ltac after_load := apply settles_bind; [apply settles_same; frame_tac|]; intros task;
  repeat (case_bool; [apply settles_fail|]).

Lemma settles_SubmitScore a c s d : settles (SubmitScore a c s d).
Proof.
  unfold SubmitScore. after_load. case_match; [|apply settles_fail]. case_bool; [apply settles_fail|].
  apply settles_retry; intros t; [frame_tac|apply settles_same, same_ScoreReady].
Qed.

Lemma settles_ReportTaskError a c e : settles (ReportTaskError a c e).
Proof. unfold ReportTaskError. after_load. apply settles_retry; intros t; [frame_tac|apply settles_same, same_ErrorReported]. Qed.

Lemma settles_AbortTask a c r : settles (AbortTask a c r).
Proof. unfold AbortTask. after_load. apply settles_retry; intros t; [frame_tac|apply settles_EndAborted]. Qed.

Lemma settles_UploadResult a c s : settles (UploadResult a c s).
Proof.
  unfold UploadResult. after_load. case_bool; [|apply settles_ret].
  apply settles_retry; intros t; [frame_tac|apply settles_EndSuccess].
Qed.

Lemma settles_ValidateSingleTask task i p k : settles (ValidateSingleTask task i p k).
Proof.
  unfold ValidateSingleTask. do 2 (apply settles_bind; [apply settles_same; frame_tac|]; intros _).
  repeat (case_bool; [apply settles_fail|]). case_bool; [apply settles_same, same_Validated|].
  apply settles_bind; [apply settles_same; frame_tac|]. intros t. apply settles_EndAborted.
Qed.

(** Reading the status of one task again gives one task. *)
Lemma settles_validateOne n last i p k task : settles (validateAttempts n last i p k [task]).
Proof.
  revert last task. induction n as [|n IH]; intros last task; simpl; [apply settles_fail|].
  apply settles_bind; [apply settles_try, settles_bind; [apply settles_ValidateSingleTask|intros; apply settles_ret]|].
  intros [[]|e]; [apply settles_ret|]. case_bool; [apply settles_ret|]. case_bool; [|apply settles_fail].
  intros w Hc. do 2 wp_step. eapply wp_mono; [apply same_sync|]. intros [t|e'] w1 Hs; cycle 1.
  { eapply ledger_same_coherent; [exact Hs|exact Hc]. }
  do 3 wp_step. apply IH. eapply ledger_same_coherent; [exact Hs|exact Hc].
Qed.

Lemma settles_abortTimedOut n last task issuer : settles (abortTimedOutTask n last task issuer).
Proof.
  revert last task. induction n as [|n IH]; intros last task; simpl; [apply settles_fail|].
  destruct (GetTaskDeadline _ _) as [[[[? ?] ?] reason]|]; [|apply settles_ret].
  destruct (t_DeadlineAt task); [|apply settles_ret]. apply settles_bind; [apply settles_same; frame_tac|]. intros t1.
  case_bool; [apply settles_ret|]. apply settles_bind; [apply settles_try, settles_EndAborted|].
  intros [t2|e]; [apply settles_ret|]. case_bool; [|apply settles_fail].
  apply settles_bind; [apply settles_same; frame_tac|]. intros t3. apply IH.
Qed.

Lemma settles_for_each {A} (l : list A) (f : A → M unit) : (∀ x, settles (f x)) → settles (for_each l f).
Proof. intros Hf. induction l as [|x l IH]; simpl; [apply settles_ret|]. by apply settles_bind. Qed.

Lemma settles_timeoutTick cursor : settles (timeoutTick cursor).
Proof.
  unfold timeoutTick, getDueTaskDeadlines, abortTimedOutTasks. apply settles_bind; [apply settles_same; frame_tac|]. intros t.
  case_bool; [apply settles_ret|]. apply settles_bind; [apply settles_same; frame_tac|]. intros [tasks|e]; [|apply settles_ret].
  apply settles_bind; [|intros; apply settles_ret]. apply settles_for_each. intros task.
  apply settles_bind; [apply settles_try, settles_abortTimedOut|intros; apply settles_ret].
Qed.

Lemma same_attempts n last node attempt inMemory :
  (∀ node, frames ledger_same (attempt node)) → frames ledger_same (attempts n last node attempt inMemory).
Proof.
  intros Hat. revert last node. induction n as [|n IH]; intros last node; simpl; [frame_tac|].
  unfold nodeSyncStatus. frame_tac.
Qed.

Lemma same_node_handlers a :
  frames ledger_same (NodePause a) ∧ frames ledger_same (NodeResume a) ∧ frames ledger_same (NodeQuit a).
Proof.
  unfold NodePause, NodeResume, NodeQuit. split_and!; frame_tac; apply same_attempts; intros node; frame_tac.
Qed.

Lemma settles_TriggerNodeSlash a i : settles (TriggerNodeSlash a i).
Proof.
  unfold TriggerNodeSlash. case_bool; [apply settles_SlashPendingNode|]. case_bool; [apply settles_fail|].
  apply settles_bind; [apply settles_same; frame_tac|]. intros node. apply settles_SlashNode.
Qed.

(** ** Traffic *)

Inductive traffic :=
| OnTask (req : request)
| OnWithdraw (address benefitAddress : string) (amount : Z) (network : string) (timestamp : Z) (signature : string)
| OnFulfill (withdrawID : Z) (txHash : string)
| OnReject (withdrawID : Z)
| OnRelease (vestingID : Z) (t : Time).

Definition serve (sys : Sys) (x : traffic) : Sys :=
  match x with
  | OnTask req => step sys req
  | OnWithdraw a b n net t s => mkSys (snd (Withdraw a b n net t s (sy_world sys))) (sy_copies sys)
  | OnFulfill i h => mkSys (snd (FulfillWithdraw i h (sy_world sys))) (sy_copies sys)
  | OnReject i => mkSys (snd (RejectWithdraw i (sy_world sys))) (sy_copies sys)
  | OnRelease i t => mkSys (snd (processSingleVestingRelease i t (sy_world sys))) (sy_copies sys)
  end.

(** Group validations are left out: see [error_group_inflates_cache]. *)
Definition groupless (x : traffic) : bool :=
  match x with
  | OnTask (ReqValidateGroup _ _ _ _) => false
  | OnTask (ReqValidateTask _ cs _ _ _) => bool_decide (length cs = 1%nat)
  | OnTask (ReqTask OpInvalidated _ _) => false
  | _ => true
  end.

Lemma settles_unit {A} (m : M A) : settles m → settles (unit_of m).
Proof. intros Hm. apply settles_bind; [done|intros; apply settles_ret]. Qed.

Lemma settles_then {A} (m : M unit) (a : A) : settles m → settles (m;; mret a).
Proof. intros Hm. apply settles_bind; [done|intros; apply settles_ret]. Qed.

Lemma settles_taskOp op task : op ≠ OpInvalidated → settles (runTaskOp op task).
Proof.
  intros Hop. destruct op; simpl; try done; try apply settles_unit.
  - apply settles_same, same_Started.
  - apply settles_same, same_ScoreReady.
  - apply settles_same, same_ErrorReported.
  - apply settles_same, same_Validated.
  - apply settles_same, same_GroupValidated.
  - apply settles_GroupRefund.
  - apply settles_EndAborted.
  - case_bool; [apply settles_unit, settles_EndSuccess|apply settles_ret].
  - apply settles_same, same_Delivered.
Qed.

Lemma settles_ValidateTask a c i p k : settles (ValidateTask a [c] i p k).
Proof.
  unfold ValidateTask. case_bool; [apply settles_fail|]. cbn [map_m]. intros w Hc. do 3 wp_step.
  eapply wp_mono; [apply same_GetTask|].
  intros [t|e] w1 Hs; cycle 1. { eapply ledger_same_coherent; [exact Hs|exact Hc]. }
  assert (Hc1 : coherent w1) by (eapply ledger_same_coherent; [exact Hs|exact Hc]).
  case_bool; [done|]. do 3 wp_step. exact (settles_validateOne _ _ _ _ _ _ w1 Hc1).
Qed.

Lemma settles_request copies req : groupless (OnTask req) = true → settles (runRequest copies req).
Proof.
  intros Hg. destruct req as [task|c|i|op i edit|i ? ? ?|tasks ? ? ?|? ? ? ?|? ? ?|? ? ?|? cs ? ? ?|? ? ?|?|?|?|? ?|cursor]; simpl.
  - case_bool; [|apply settles_ret]. apply settles_then, settles_unit, settles_CreateTask.
  - apply settles_same. frame_tac.
  - case_match; [|apply settles_ret]. apply settles_same. frame_tac.
  - case_match; [|apply settles_ret]. case_bool; [|apply settles_ret]. apply settles_then, settles_taskOp. by intros ->.
  - case_match; [|apply settles_ret]. apply settles_then, settles_unit, settles_ValidateSingleTask.
  - done.
  - apply settles_then, settles_unit, settles_SubmitScore.
  - apply settles_then, settles_unit, settles_ReportTaskError.
  - apply settles_then, settles_unit, settles_AbortTask.
  - simpl in Hg. simplify_bool. destruct cs as [|c [|]]; [done| |done]. apply settles_then, settles_ValidateTask.
  - apply settles_then, settles_unit, settles_UploadResult.
  - apply settles_then, settles_same. apply (same_node_handlers address).
  - apply settles_then, settles_same. apply (proj1 (proj2 (same_node_handlers address))).
  - apply settles_then, settles_same. apply (proj2 (proj2 (same_node_handlers address))).
  - apply settles_then, settles_unit, settles_TriggerNodeSlash.
  - apply settles_then, settles_unit, settles_timeoutTick.
Qed.

Lemma serve_coherent sys x : groupless x = true → coherent (sy_world sys) → coherent (sy_world (serve sys x)).
Proof.
  intros Hg Hc. destruct x as [req|? ? ? ? ? ?|? ?|?|? ?]; simpl.
  - unfold step. pose proof (settles_request (sy_copies sys) req Hg (sy_world sys) Hc) as Hs. unfold wp in Hs.
    by destruct (runRequest _ _ _).
  - by apply settles_Withdraw.
  - by apply settles_FulfillWithdraw.
  - by apply settles_RejectWithdraw.
  - by apply settles_processSingle.
Qed.
End balances.


Lemma demo_start_coherent : coherent demo_start.
Proof.
  intros a. unfold accounts, demo_start. simpl. destruct (decide (a = "0xcreator")) as [->|Hne].
  - rewrite lookup_singleton_eq. by vm_compute.
  - rewrite lookup_singleton_ne by done. intros e He. by apply elem_of_nil in He.
Qed.

Definition demo_traffic : list traffic := map OnTask demo_requests.

End Balances.
