(* ===== verification/Emission.v ===== *)
(** * Token emission

    src/service/emission.go (weeks, the emission schedule, circulating supply),
    emission_chart.go (emission by week) and emission_estimate.go (the estimate of
    the current week).  Times are nanoseconds since 1970; [time.Parse] of the
    configured start is a parameter. *)

From S2P Require Import Prelude Models Config Delegation VestingSchedule MaxStaking Store Vesting.

Module Emission.
Import Vesting.

(** ** Definitions *)

(** *** The schedule *)

Definition emissionWeeksPerYear : Z := 52.
Definition maxEmissionYear : Z := 20.
Definition defaultChartWeeks : Z := 24.
Definition maxChartWeeks : Z := 260.
Definition emissionWeekDuration : Duration := 7 * 24 * hour.
Definition cnxTotalSupplyCNX : Z := 8617333262.
Definition year0TreasuryAllocationPercent : Z := 6.
Definition bootstrapNodeAllocationPercent : Z := 80.
Definition bootstrapTreasuryAllocationPercent : Z := 20.
Definition year1NodeBootstrapTargetCNX : Z := 74318067.
Definition year1NodeReleasedBeforeTransitionCNX : Z := 16240159.
Definition year1TransitionFirstEmissionWeekIndex : Z := 9.
Definition year1TransitionEmissionCount : Z := emissionWeeksPerYear - year1TransitionFirstEmissionWeekIndex.
Definition bootstrapFinalWeekRemainderCNX : Z := 24.

(** [weeklyEmissionCNXByYear], src/service/emission.go 43-48 *)
Definition weeklyEmissionCNXByYear : list Z :=
  [1786492; 2727986; 3042483; 3101410; 3010312; 2827694; 2592055; 2330245; 2061165; 1797889;
   1549089; 1320097; 1113750; 931051; 771710; 634560; 517890; 419687; 337827; 270197].

(** [weeklyBootstrapEmissionCNX], src/service/emission.go 274-284: the integer
    division of Go truncates *)
Definition weeklyBootstrapEmissionCNX (weekIndex : Z) : Z :=
  let yearIndex := Z.quot weekIndex emissionWeeksPerYear + 1 in
  if (yearIndex <? 1) || (maxEmissionYear <? yearIndex) then 0
  else
    let weeklyEmission := default 0 (weeklyEmissionCNXByYear !! Z.to_nat (yearIndex - 1)) in
    if weekIndex =? maxEmissionYear * emissionWeeksPerYear - 1
    then weeklyEmission + bootstrapFinalWeekRemainderCNX else weeklyEmission.

(** [nodeBootstrapEmissionCNX], src/service/emission.go 254-272 *)
Definition nodeBootstrapEmissionCNX (weekIndex : Z) : Z :=
  let yearIndex := Z.quot weekIndex emissionWeeksPerYear + 1 in
  if (yearIndex <? 1) || (maxEmissionYear <? yearIndex) then 0
  else if yearIndex =? 1 then
    if weekIndex <? year1TransitionFirstEmissionWeekIndex then 0
    else
      let remaining := year1NodeBootstrapTargetCNX - year1NodeReleasedBeforeTransitionCNX in
      let base := Z.quot remaining year1TransitionEmissionCount in
      if weekIndex =? emissionWeeksPerYear - 1 then base + Z.rem remaining year1TransitionEmissionCount else base
  else Z.quot (weeklyBootstrapEmissionCNX weekIndex * bootstrapNodeAllocationPercent) 100.

(** [cnxToWei], src/service/emission.go 296-298 *)
Definition cnxToWei (amount : Z) : Z := EtherToWei amount.

(** [supplyPercent], src/service/emission.go 291-294 *)
Definition supplyPercent (totalSupply percent : Z) : Z := totalSupply * percent / 100.

(** [GetCNXTotalSupply], src/service/emission.go 130-132 *)
Definition GetCNXTotalSupply : Z := cnxToWei cnxTotalSupplyCNX.

(** *** Weeks *)

(** [EmissionWeekInfo], src/service/emission.go 50-57 *)
Record EmissionWeekInfo := mkWeekInfo {
  wi_WeekIndex : Z;
  wi_YearIndex : Z;
  wi_WeekStartDate : Time;
  wi_WeekEndDate : Time;
  wi_WeeklyEmissionCNX : Z;
  wi_NodeEmissionPoolCNX : Z
}.

(** [EmissionChartRange], src/service/emission.go 59-64 *)
Record EmissionChartRange := mkChartRange {
  cr_MainnetWeekStart : Time;
  cr_RangeStart : Time;
  cr_RangeEnd : Time;
  cr_WeekStarts : list Time
}.

(** [int(t.Sub(start) / emissionWeekDuration)], src/service/emission.go 72: the
    difference saturates *)
Definition weeksBetween (start t : Time) : Z := Z.quot (sat_i64 (t - start)) emissionWeekDuration.

(** [start.Add(time.Duration(n) * emissionWeekDuration)],
    src/service/emission.go 83 *)
Definition addWeeks (start : Time) (n : Z) : Time := start + wrap_i64 (n * emissionWeekDuration).

(** The week with an index, src/service/emission.go 83-96 *)
Definition weekInfo (startDate : Time) (weekIndex yearIndex : Z) : EmissionWeekInfo :=
  let weekStart := addWeeks startDate weekIndex in
  mkWeekInfo weekIndex yearIndex weekStart (weekStart + emissionWeekDuration)
    (weeklyBootstrapEmissionCNX weekIndex) (nodeBootstrapEmissionCNX weekIndex).

Section weeks.
Context (parseRFC3339 : string → option Time).

(** [ParseMainnetAlignedWeekStart], src/service/emission.go 185-195, also
    [parseMainnetStartDate] *)
Definition ParseMainnetAlignedWeekStart (raw : string) : result Time :=
  if String.eqb raw "" then Err ErrMainnetStartTimeNotSet
  else match parseRFC3339 raw with
       | None => Err ErrInvalidMainnetStart
       | Some t => Ok (utc_day t)
       end.

(** [GetPreviousEmissionWeekInfo], src/service/emission.go 66-97 *)
Definition GetPreviousEmissionWeekInfo (now : Time) (mainnetStartTime : string) : result EmissionWeekInfo :=
  match ParseMainnetAlignedWeekStart mainnetStartTime with
  | Err e => Err e
  | Ok startDate =>
      let completedWeeks := weeksBetween startDate now in
      if completedWeeks <=? 0 then Err ErrNoCompletedEmissionWeek
      else
        let weekIndex := completedWeeks - 1 in
        let yearIndex := Z.quot weekIndex emissionWeeksPerYear + 1 in
        if (yearIndex <? 1) || (maxEmissionYear <? yearIndex) then Err ErrEmissionWeekOutOfRange
        else Ok (weekInfo startDate weekIndex yearIndex)
  end.

(** [GetCurrentEmissionWeekInfo], src/service/emission.go 99-128 *)
Definition GetCurrentEmissionWeekInfo (now : Time) (mainnetStartTime : string) : result EmissionWeekInfo :=
  match ParseMainnetAlignedWeekStart mainnetStartTime with
  | Err e => Err e
  | Ok startDate =>
      let elapsedWeeks := Z.max 0 (weeksBetween startDate now) in
      let yearIndex := Z.quot elapsedWeeks emissionWeeksPerYear + 1 in
      if (yearIndex <? 1) || (maxEmissionYear <? yearIndex) then Err ErrEmissionWeekOutOfRange
      else Ok (weekInfo startDate elapsedWeeks yearIndex)
  end.

(** [ClampChartWeeks], src/service/emission.go 197-206 *)
Definition ClampChartWeeks (weeks : option Z) : result Z :=
  let value := default defaultChartWeeks weeks in
  if (value <=? 0) || (maxChartWeeks <? value) then Err ErrInvalidChartWeeks else Ok value.

(** [BuildEmissionChartRange], src/service/emission.go 208-238 *)
Definition BuildEmissionChartRange (now : Time) (mainnetStartTime : string) (weeks : Z) : result EmissionChartRange :=
  if (weeks <=? 0) || (maxChartWeeks <? weeks) then Err ErrInvalidChartWeeks
  else match ParseMainnetAlignedWeekStart mainnetStartTime with
       | Err e => Err e
       | Ok mainnetWeekStart =>
           let elapsedWeeks := Z.max 0 (weeksBetween mainnetWeekStart now) in
           let currentWeekStart := addWeeks mainnetWeekStart elapsedWeeks in
           let rangeStart := currentWeekStart + wrap_i64 (- (weeks - 1) * emissionWeekDuration) in
           Ok (mkChartRange mainnetWeekStart rangeStart (currentWeekStart + emissionWeekDuration)
                 (map (λ i, addWeeks rangeStart (Z.of_nat i)) (seq 0 (Z.to_nat weeks))))
       end.

(** [AlignToMainnetEmissionWeekStart], src/service/emission.go 240-248 *)
Definition AlignToMainnetEmissionWeekStart (vestingStartTime mainnetWeekStart : Time) : option Time :=
  if vestingStartTime <? mainnetWeekStart then None
  else Some (addWeeks mainnetWeekStart (weeksBetween mainnetWeekStart vestingStartTime)).

(** *** Circulating supply *)

(** The weeks that are over, src/service/emission.go 151-155 *)
Definition completedWeeks (startDate now : Time) : Z :=
  Z.min (weeksBetween startDate now) (maxEmissionYear * emissionWeeksPerYear).

(** What the treasury gets of a week, src/service/emission.go 168-169 *)
Definition treasuryWeek (weekIndex : Z) : Z :=
  Z.quot (weeklyBootstrapEmissionCNX weekIndex * bootstrapTreasuryAllocationPercent) 100.

(** The loop over the weeks, src/service/emission.go 167-171 *)
Definition treasuryEmission (weeks : Z) : Z :=
  sumZ (λ i, cnxToWei (treasuryWeek (Z.of_nat i))) (seq 0 (Z.to_nat weeks)).

(** [GetCNXCirculatingSupply], src/service/emission.go 134-177 *)
Definition GetCNXCirculatingSupply `{E : Env} (now : Time) (mainnetStartTime : string) : M Z :=
  startDate ← lift (ParseMainnetAlignedWeekStart mainnetStartTime);
  if now <? startDate then mret 0
  else
    let totalSupply := GetCNXTotalSupply in
    let year0Unlocked := supplyPercent totalSupply year0TreasuryAllocationPercent in
    vestingRecords ← db_read db_vestings;
    let circulating := year0Unlocked + sumZ v_ReleasedAmount vestingRecords +
                       treasuryEmission (completedWeeks startDate now) in
    mret (if totalSupply <? circulating then totalSupply else circulating).
End weeks.

(** *** Emission by week, src/service/emission_chart.go *)

(** [t.Unix()] *)
Definition Unix (t : Time) : Z := t / second.

(** The key of the bucket of an item with the given start, if it has one:
    src/service/emission_chart.go 25-31 *)
Definition bucketOf (chartRange : EmissionChartRange) (startTime : Time) : option Z :=
  match AlignToMainnetEmissionWeekStart startTime (cr_MainnetWeekStart chartRange) with
  | None => None
  | Some alignedStart =>
      if (alignedStart <? cr_RangeStart chartRange) || negb (alignedStart <? cr_RangeEnd chartRange) then None
      else Some (Unix alignedStart)
  end.

(** [bucketSums] with a zero for every week, src/service/emission_chart.go
    18-22 *)
Definition zeroBuckets (chartRange : EmissionChartRange) : gmap Z Z :=
  foldl (λ m weekStart, <[Unix weekStart := 0]> m) ∅ (cr_WeekStarts chartRange).

(** [bucket.Add(bucket, amount)] when the bucket exists,
    src/service/emission_chart.go 32-36 *)
Definition addToBucket (bucketSums : gmap Z Z) (key : option Z) (amount : Z) : gmap Z Z :=
  match key with
  | None => bucketSums
  | Some k => match bucketSums !! k with
              | None => bucketSums
              | Some bucket => <[k := bucket + amount]> bucketSums
              end
  end.

(** The sums read back week by week, src/service/emission_chart.go 39-43; every
    week has a bucket. *)
Definition readBuckets (chartRange : EmissionChartRange) (bucketSums : gmap Z Z) : list Z :=
  map (λ weekStart, default 0 (bucketSums !! Unix weekStart)) (cr_WeekStarts chartRange).

(** The common body of the three builders, for items with a start and an
    amount. *)
Definition buildSeries {A} (startTime : A → Time) (amount : A → Z) (items : list A)
    (chartRange : EmissionChartRange) : list Z * list Z :=
  let bucketSums :=
    foldl (λ m x, addToBucket m (bucketOf chartRange (startTime x)) (amount x)) (zeroBuckets chartRange) items in
  (map Unix (cr_WeekStarts chartRange), readBuckets chartRange bucketSums).

(** [BuildEmissionIncomeSeries], src/service/emission_chart.go 15-46 *)
Definition BuildEmissionIncomeSeries (records : list VestingRecord) (chartRange : EmissionChartRange)
    : list Z * list Z :=
  buildSeries v_StartTime v_TotalAmount records chartRange.

(** [BuildDelegationEmissionIncomeSeries], src/service/emission_chart.go 48-79 *)
Definition BuildDelegationEmissionIncomeSeries (details : list VestingDelegationEmissionDetail)
    (chartRange : EmissionChartRange) : list Z * list Z :=
  buildSeries vd_StartTime vd_EmissionAmount details chartRange.

(** [NodeDelegationEmissionWeeklyTotal],
    src/models/node_delegation_emission_weekly_total.go 12-19 *)
Record NodeDelegationEmissionWeeklyTotal := mkWeeklyTotal {
  nw_NodeAddress : string;
  nw_StartTime : Time;
  nw_EmissionAmount : Z
}.

(** [BuildNodeDelegationEmissionIncomeSeries], src/service/emission_chart.go
    81-112 *)
Definition BuildNodeDelegationEmissionIncomeSeries (totals : list NodeDelegationEmissionWeeklyTotal)
    (chartRange : EmissionChartRange) : list Z * list Z :=
  buildSeries nw_StartTime nw_EmissionAmount totals chartRange.

(** [TypedEmissionIncomeSeries], src/service/emission_chart.go 9-13 *)
Record TypedEmissionIncomeSeries := mkTypedSeries {
  ts_Timestamps : list Z;
  ts_NodeEmissionIncome : list Z;
  ts_DelegationEmissionIncome : list Z
}.

(** One record of the typed series, src/service/emission_chart.go 128-150: it
    goes to the buckets of its type *)
Definition addTyped (chartRange : EmissionChartRange) (sums : gmap Z Z * gmap Z Z) (record : VestingRecord)
    : gmap Z Z * gmap Z Z :=
  let '(node, delegation) := sums in
  let key := bucketOf chartRange (v_StartTime record) in
  if String.eqb (v_Type record) VestingTypeNode then (addToBucket node key (v_TotalAmount record), delegation)
  else if String.eqb (v_Type record) VestingTypeDelegation then
    (node, addToBucket delegation key (v_TotalAmount record))
  else (node, delegation).

(** [BuildTypedEmissionIncomeSeries], src/service/emission_chart.go 114-162 *)
Definition BuildTypedEmissionIncomeSeries (records : list VestingRecord) (chartRange : EmissionChartRange)
    : TypedEmissionIncomeSeries :=
  let '(node, delegation) :=
    foldl (addTyped chartRange) (zeroBuckets chartRange, zeroBuckets chartRange) records in
  mkTypedSeries (map Unix (cr_WeekStarts chartRange)) (readBuckets chartRange node) (readBuckets chartRange delegation).

(** ** Properties *)

(** *** The schedule *)

Lemma weeks_total : sumZ (λ i, weeklyBootstrapEmissionCNX (Z.of_nat i)) (seq 0 1040) = 1723466652.
Proof. vm_compute. reflexivity. Qed.

Lemma week_parts (i : nat) :
  0 ≤ weeklyBootstrapEmissionCNX (Z.of_nat i) ≤ 3101410 ∧ 0 ≤ nodeBootstrapEmissionCNX (Z.of_nat i).
Proof.
  destruct (decide (i < 1040)%nat) as [Hi|Hi].
  - assert (forallb (λ i, (0 <=? weeklyBootstrapEmissionCNX (Z.of_nat i)) &&
      (weeklyBootstrapEmissionCNX (Z.of_nat i) <=? 3101410) && (0 <=? nodeBootstrapEmissionCNX (Z.of_nat i)))
      (seq 0 1040) = true) as H by (vm_compute; reflexivity).
    rewrite forallb_forall in H. specialize (H i). rewrite in_seq in H. lia.
  - assert (20 ≤ Z.quot (Z.of_nat i) 52).
    { apply Z.quot_le_lower_bound; lia. }
    unfold weeklyBootstrapEmissionCNX, nodeBootstrapEmissionCNX, emissionWeeksPerYear, maxEmissionYear.
    destruct (Z.ltb_spec 20 (Z.quot (Z.of_nat i) 52 + 1)); [|lia]. rewrite orb_true_r. lia.
Qed.

(** From the second year on the two parts of a week add up to the week, up to
    the rounding of each. *)
Lemma week_split (i : nat) : (52 ≤ i < 1040)%nat →
  weeklyBootstrapEmissionCNX (Z.of_nat i) - 1 ≤
  nodeBootstrapEmissionCNX (Z.of_nat i) + treasuryWeek (Z.of_nat i) ≤ weeklyBootstrapEmissionCNX (Z.of_nat i).
Proof.
  intros Hi.
  assert (forallb (λ i, let s := nodeBootstrapEmissionCNX (Z.of_nat i) + treasuryWeek (Z.of_nat i) in
    (weeklyBootstrapEmissionCNX (Z.of_nat i) - 1 <=? s) && (s <=? weeklyBootstrapEmissionCNX (Z.of_nat i)))
    (seq 52 988) = true) as H by (vm_compute; reflexivity).
  rewrite forallb_forall in H. specialize (H i). rewrite in_seq in H. cbv zeta in H. lia.
Qed.

Lemma first_year_nodes :
  year1NodeReleasedBeforeTransitionCNX + sumZ (λ i, nodeBootstrapEmissionCNX (Z.of_nat i)) (seq 0 52) =
  year1NodeBootstrapTargetCNX.
Proof. vm_compute. reflexivity. Qed.

Lemma weeksBetween_mono start t t' : t ≤ t' → weeksBetween start t ≤ weeksBetween start t'.
Proof.
  intros Ht. unfold weeksBetween. apply Z.quot_le_mono; [reflexivity|]. apply sat_i64_mono. lia.
Qed.

Lemma weeksBetween_nonneg start t : start ≤ t → 0 ≤ weeksBetween start t.
Proof.
  intros Ht. unfold weeksBetween. apply Z.quot_pos; [|reflexivity]. apply sat_i64_nonneg. lia.
Qed.

Lemma treasuryEmission_mono m n : m ≤ n → treasuryEmission m ≤ treasuryEmission n.
Proof.
  intros Hmn. unfold treasuryEmission.
  replace (Z.to_nat n) with (Z.to_nat m + (Z.to_nat n - Z.to_nat m))%nat by lia.
  rewrite seq_app, sumZ_app.
  assert (∀ l, 0 ≤ sumZ (λ i, cnxToWei (treasuryWeek (Z.of_nat i))) l) as Hnn;
    [|specialize (Hnn (seq (0 + Z.to_nat m) (Z.to_nat n - Z.to_nat m))); lia].
  intros l. apply sumZ_nonneg. intros i _. unfold cnxToWei, EtherToWei, treasuryWeek.
  pose proof (week_parts i) as [[? _] _]. apply Z.mul_nonneg_nonneg; [|done].
  apply Z.quot_pos; [|done]. by apply Z.mul_nonneg_nonneg.
Qed.

(** The circulating supply as a function of the start, the time and what has
    been released. *)
Definition circulating (start now : Time) (released : Z) : Z :=
  if now <? start then 0
  else Z.min GetCNXTotalSupply
    (supplyPercent GetCNXTotalSupply year0TreasuryAllocationPercent + released +
     treasuryEmission (completedWeeks start now)).

Lemma circulating_bounds start now released :
  0 ≤ released → 0 ≤ circulating start now released ≤ GetCNXTotalSupply.
Proof.
  intros Hr. unfold circulating. destruct (now <? start); [by vm_compute|].
  assert (0 ≤ treasuryEmission (completedWeeks start now)).
  { destruct (decide (0 ≤ completedWeeks start now)) as [Hc|Hc].
    - by apply (treasuryEmission_mono 0).
    - unfold treasuryEmission. by rewrite Z2Nat.nonpos by lia. }
  assert (0 ≤ supplyPercent GetCNXTotalSupply year0TreasuryAllocationPercent) by (by vm_compute).
  assert (0 ≤ GetCNXTotalSupply) by (by vm_compute). lia.
Qed.

Lemma circulating_mono start t t' released released' :
  t ≤ t' → 0 ≤ released ≤ released' → circulating start t released ≤ circulating start t' released'.
Proof.
  intros Ht Hr. destruct (Z.ltb_spec t start) as [Hlt|Hge].
  - unfold circulating at 1. rewrite (proj2 (Z.ltb_lt t start)) by done. apply circulating_bounds. lia.
  - unfold circulating. rewrite !(proj2 (Z.ltb_ge _ start)) by lia.
    pose proof (weeksBetween_mono start t t' Ht).
    pose proof (treasuryEmission_mono (completedWeeks start t) (completedWeeks start t')).
    unfold completedWeeks in *. lia.
Qed.

Lemma Ok_inj {A} (a b : A) : Ok a = Ok b → a = b.
Proof. congruence. Qed.

Lemma GetCNXCirculatingSupply_value `{E : Env} parse t s (w w' : World) c :
  GetCNXCirculatingSupply parse t s w = (Ok c, w') →
  ∃ start, ParseMainnetAlignedWeekStart parse s = Ok start ∧
    c = circulating start t (sumZ v_ReleasedAmount (db_vestings (w_db w))).
Proof.
  intros H.
  assert (wp (GetCNXCirculatingSupply parse t s) (λ r _, r = Ok c → ∃ start,
    ParseMainnetAlignedWeekStart parse s = Ok start ∧
    c = circulating start t (sumZ v_ReleasedAmount (db_vestings (w_db w)))) w) as Hwp.
  { unfold GetCNXCirculatingSupply. wp_step. wp_step.
    destruct (ParseMainnetAlignedWeekStart parse s) as [start|e]; [|done].
    unfold circulating. destruct (t <? start) eqn:Ht.
    { wp_step. intros Hc%Ok_inj. exists start. by rewrite Ht. }
    wp_step. wp_step; [done|]. cbn beta iota. wp_step. intros Hc%Ok_inj. exists start. rewrite Ht.
    split; [done|]. rewrite <- Hc. destruct (Z.ltb_spec GetCNXTotalSupply
      (supplyPercent GetCNXTotalSupply year0TreasuryAllocationPercent + sumZ v_ReleasedAmount (db_vestings (w_db w)) +
       treasuryEmission (completedWeeks start t))); lia. }
  unfold wp in Hwp. rewrite H in Hwp. by apply Hwp.
Qed.

(** The emission schedule adds up: the weeks of the twenty years emit a fifth
    of the total supply exactly (rounded down); what the nodes got before the transition
    and the weeks of the first year make the first-year target exactly; from the
    second year on the parts of the nodes and of the treasury add up to the week
    or miss it by the rounding of one.  The reported circulating supply lies between zero
    and the total supply and never decreases as time passes and vesting
    records are released. *)
Theorem emission_supply `{E : Env} parse s t t' (w1 w1' w2 w2' : World) c1 c2 :
  (∀ v, v ∈ db_vestings (w_db w1) → 0 ≤ v_ReleasedAmount v) →
  sumZ v_ReleasedAmount (db_vestings (w_db w1)) ≤ sumZ v_ReleasedAmount (db_vestings (w_db w2)) →
  t ≤ t' →
  GetCNXCirculatingSupply parse t s w1 = (Ok c1, w1') →
  GetCNXCirculatingSupply parse t' s w2 = (Ok c2, w2') →
  0 ≤ c1 ∧ c1 ≤ c2 ∧ c2 ≤ GetCNXTotalSupply ∧
  sumZ (λ i, weeklyBootstrapEmissionCNX (Z.of_nat i)) (seq 0 1040) = cnxTotalSupplyCNX / 5 ∧
  year1NodeReleasedBeforeTransitionCNX + sumZ (λ i, nodeBootstrapEmissionCNX (Z.of_nat i)) (seq 0 52) =
    year1NodeBootstrapTargetCNX ∧
  ∀ i, (52 ≤ i < 1040)%nat →
    weeklyBootstrapEmissionCNX (Z.of_nat i) - 1 ≤
    nodeBootstrapEmissionCNX (Z.of_nat i) + treasuryWeek (Z.of_nat i) ≤ weeklyBootstrapEmissionCNX (Z.of_nat i).
Proof.
  intros Hnn Hrel Ht H1 H2.
  apply GetCNXCirculatingSupply_value in H1 as (start & Hp & ->).
  apply GetCNXCirculatingSupply_value in H2 as (start' & Hp' & ->).
  rewrite Hp in Hp'. injection Hp' as <-.
  assert (0 ≤ sumZ v_ReleasedAmount (db_vestings (w_db w1))) by (by apply sumZ_nonneg).
  split_and!.
  - by apply circulating_bounds.
  - by apply circulating_mono.
  - apply circulating_bounds. lia.
  - apply weeks_total.
  - apply first_year_nodes.
  - exact week_split.
Qed.

(** *** Emission by week *)

(** What the items that start in the week of [weekStart], at or after the start
    of the mainnet, are worth. *)
Definition emittedIn {A} (startTime : A → Time) (amount : A → Z) (mainnet weekStart : Time) (items : list A) : Z :=
  sumZ (λ x, if (mainnet <=? startTime x) && (weekStart <=? startTime x) && (startTime x <? weekStart + emissionWeekDuration)
             then amount x else 0) items.

(** The weeks of a chart: [weeks] consecutive weeks, whole weeks away from the start of
    the mainnet. *)
Record chart_ok (r : EmissionChartRange) (weeks : Z) : Prop := {
  chart_phase : ∃ k, cr_RangeStart r = cr_MainnetWeekStart r + k * emissionWeekDuration;
  chart_day : (second | cr_MainnetWeekStart r);
  chart_end : cr_RangeEnd r = cr_RangeStart r + weeks * emissionWeekDuration;
  chart_last : cr_RangeEnd r - cr_MainnetWeekStart r ≤ max_i64;
  chart_weeks : cr_WeekStarts r =
    map (λ i, cr_RangeStart r + Z.of_nat i * emissionWeekDuration) (seq 0 (Z.to_nat weeks))
}.

Lemma week_value : emissionWeekDuration = 604800 * second.
Proof. reflexivity. Qed.

Lemma weeksBetween_small start t :
  start ≤ t → t - start ≤ max_i64 → weeksBetween start t = (t - start) / emissionWeekDuration.
Proof.
  intros H1 H2. unfold weeksBetween. rewrite sat_i64_small by (unfold min_i64; lia).
  apply Z.quot_div_nonneg; [lia|reflexivity].
Qed.

Lemma addWeeks_small start n :
  min_i64 ≤ n * emissionWeekDuration ≤ max_i64 → addWeeks start n = start + n * emissionWeekDuration.
Proof. intros. unfold addWeeks. by rewrite wrap_i64_small. Qed.

Lemma weeksBetween_saturated start t : max_i64 < t - start → weeksBetween start t = max_i64 / emissionWeekDuration.
Proof.
  intros H. unfold weeksBetween, sat_i64. rewrite Z.min_l by lia. by vm_compute.
Qed.

Lemma last_week start :
  addWeeks start (max_i64 / emissionWeekDuration) = start + max_i64 / emissionWeekDuration * emissionWeekDuration.
Proof. apply addWeeks_small. by vm_compute. Qed.

(** An item goes to the week of a chart in which it starts. *)
Lemma bucket_week r weeks i t : chart_ok r weeks → (i < Z.to_nat weeks)%nat →
  let weekStart := cr_RangeStart r + Z.of_nat i * emissionWeekDuration in
  bucketOf r t = Some (Unix weekStart) ↔
  cr_MainnetWeekStart r ≤ t ∧ weekStart ≤ t < weekStart + emissionWeekDuration.
Proof.
  intros [[k Hk] [d Hd] Hend Hlast _] Hi weekStart. subst weekStart. pose proof week_value as HW.
  assert (0 < second) as Hs by reflexivity.
  unfold bucketOf, AlignToMainnetEmissionWeekStart.
  destruct (Z.ltb_spec t (cr_MainnetWeekStart r)) as [Hlt|Hge]; [split; [done|lia]|].
  assert (∀ q, (cr_MainnetWeekStart r + q * emissionWeekDuration) / second = d + q * 604800) as Hdiv.
  { intros q. rewrite Hd, HW. rewrite Z.mul_assoc, <- Z.mul_add_distr_r. apply Z.div_mul. lia. }
  set (W := emissionWeekDuration) in *. set (m := cr_MainnetWeekStart r) in *.
  assert (0 < W) as HWp by reflexivity.
  destruct (Z.le_gt_cases (t - m) max_i64) as [Hsmall|Hbig].
  - rewrite weeksBetween_small by done. fold W m. pose proof (addWeeks_small m) as HX. fold W in HX.
    clearbody W m. pose proof (Z.mod_pos_bound (t - m) W HWp). pose proof (Z.div_mod (t - m) W ltac:(lia)) as Hdm.
    set (q := (t - m) / W) in *.
    assert (0 ≤ q) by (apply Z.div_pos; lia).
    assert (min_i64 ≤ q * W ≤ max_i64) as Hfit by (unfold min_i64; split; lia).
    rewrite HX by done.
    rewrite Hk, Hend, Hk. unfold Unix.
    replace (m + k * W + Z.of_nat i * W) with (m + (k + Z.of_nat i) * W) by lia.
    assert ((m + (k + Z.of_nat i) * W ≤ t < m + (k + Z.of_nat i) * W + W) ↔ q = k + Z.of_nat i) as ->.
    { split; [|intros Heq; rewrite <- Heq; lia]. intros Ht. symmetry.
      apply (Z.div_unique_pos _ _ _ (t - m - (k + Z.of_nat i) * W)); lia. }
    replace (m + k * W + weeks * W) with (m + (k + weeks) * W) by lia. rewrite !Hdiv.
    assert (∀ a b, (m + a * W <? m + b * W) = (a <? b)) as Hcmp.
    { intros a b. destruct (Z.ltb_spec a b), (Z.ltb_spec (m + a * W) (m + b * W)); nia. }
    rewrite !Hcmp.
    destruct (Z.ltb_spec q k), (Z.ltb_spec q (k + weeks)); simpl; split; intros Hx; try lia; try discriminate.
    + split; [lia|]. injection Hx. lia.
    + f_equal. lia.
  - split; cycle 1.
    { intros [_ [_ Ht]]. assert ((Z.of_nat i + 1) * W ≤ weeks * W) by (apply Z.mul_le_mono_nonneg_r; lia). lia. }
    intros Hx. exfalso.
    rewrite (weeksBetween_saturated m t) in Hx by lia.
    assert (cr_RangeEnd r ≤ addWeeks m (max_i64 / W)) as Hle.
    { unfold W at 1. rewrite last_week. fold W. rewrite Hend, Hk in Hlast |- *.
      assert (k + weeks ≤ max_i64 / W); [|nia]. apply Z.div_le_lower_bound; lia. }
    rewrite (proj2 (Z.ltb_ge _ (cr_RangeEnd r))) in Hx by done. rewrite orb_true_r in Hx. done.
Qed.

Lemma zeroBuckets_lookup r weekStart : weekStart ∈ cr_WeekStarts r → zeroBuckets r !! Unix weekStart = Some 0.
Proof.
  intros Hin. unfold zeroBuckets.
  assert (∀ l (m : gmap Z Z), m !! Unix weekStart = Some 0 ∨ weekStart ∈ l →
    foldl (λ m weekStart, <[Unix weekStart := 0]> m) m l !! Unix weekStart = Some 0) as H.
  { induction l as [|x l IH]; intros m [Hm|Hx]; simpl; [done|by apply not_elem_of_nil in Hx| |]; apply IH.
    - left. destruct (decide (Unix x = Unix weekStart)) as [->|];
        [by rewrite lookup_insert_eq|by rewrite lookup_insert_ne].
    - apply elem_of_cons in Hx as [->|Hx]; [left; by rewrite lookup_insert_eq|by right]. }
  apply H. by right.
Qed.

Lemma addToBucket_lookup m key amount k :
  addToBucket m key amount !! k = (λ b, b + if bool_decide (key = Some k) then amount else 0) <$> m !! k.
Proof.
  unfold addToBucket. destruct key as [k'|]; cycle 1.
  { destruct (m !! k); simpl; [|done]. by rewrite Z.add_0_r. }
  destruct (decide (k' = k)) as [->|Hne].
  - rewrite bool_decide_true by done. destruct (m !! k) eqn:Hk; simpl; [by rewrite lookup_insert_eq|done].
  - rewrite bool_decide_false by congruence.
    assert ((λ b, b + 0) <$> m !! k = m !! k) as -> by (destruct (m !! k); simpl; [by rewrite Z.add_0_r|done]).
    destruct (m !! k'); [by rewrite lookup_insert_ne|done].
Qed.

Lemma buckets_lookup {A} r (startTime : A → Time) amount items m k :
  foldl (λ m x, addToBucket m (bucketOf r (startTime x)) (amount x)) m items !! k =
  (λ b, b + sumZ (λ x, if bool_decide (bucketOf r (startTime x) = Some k) then amount x else 0) items) <$> m !! k.
Proof.
  revert m. induction items as [|x items IH]; intros m; simpl.
  - destruct (m !! k); simpl; [by rewrite Z.add_0_r|done].
  - rewrite IH, addToBucket_lookup, <- option_fmap_compose. destruct (m !! k); simpl; [|done]. f_equal. lia.
Qed.

(** The buckets of a chart read back are the emission of each week. *)
Lemma buckets_exact {A} r weeks (startTime : A → Time) amount items : chart_ok r weeks →
  readBuckets r (foldl (λ m x, addToBucket m (bucketOf r (startTime x)) (amount x)) (zeroBuckets r) items) =
  map (λ weekStart, emittedIn startTime amount (cr_MainnetWeekStart r) weekStart items) (cr_WeekStarts r).
Proof.
  intros Hok. apply map_ext_in. intros weekStart Hin%list_elem_of_In.
  rewrite buckets_lookup, zeroBuckets_lookup by done. simpl. unfold emittedIn. apply sumZ_ext. intros x _.
  rewrite (chart_weeks r weeks Hok) in Hin. apply elem_of_map_iff in Hin as (i & Hi & ->).
  apply elem_of_seq in Hi. pose proof (bucket_week r weeks i (startTime x) Hok ltac:(lia)) as Hb. cbv zeta in Hb.
  destruct (decide (bucketOf r (startTime x) = Some (Unix (cr_RangeStart r + Z.of_nat i * emissionWeekDuration)))) as [He|He].
  - rewrite bool_decide_true by done. apply Hb in He as (H1 & H2 & H3).
    apply Z.leb_le in H1, H2. apply Z.ltb_lt in H3. by rewrite H1, H2, H3.
  - rewrite bool_decide_false by done. destruct (_ && _ && _) eqn:Hc; [|done].
    exfalso. apply He, Hb. rewrite !andb_true_iff, !Z.leb_le, Z.ltb_lt in Hc. tauto.
Qed.

Definition hasType (t : string) (v : VestingRecord) : bool := String.eqb (v_Type v) t.

Lemma typed_split r records node delegation :
  foldl (addTyped r) (node, delegation) records =
  (foldl (λ m x, addToBucket m (bucketOf r (v_StartTime x)) (v_TotalAmount x)) node
     (select_where (hasType VestingTypeNode) records),
   foldl (λ m x, addToBucket m (bucketOf r (v_StartTime x)) (v_TotalAmount x)) delegation
     (select_where (hasType VestingTypeDelegation) records)).
Proof.
  revert node delegation. induction records as [|v records IH]; intros node delegation; [done|].
  cbn [foldl]. unfold select_where. cbn [List.filter]. fold (select_where (A:=VestingRecord)).
  assert (addTyped r (node, delegation) v =
    (if hasType VestingTypeNode v then addToBucket node (bucketOf r (v_StartTime v)) (v_TotalAmount v) else node,
     if hasType VestingTypeDelegation v then addToBucket delegation (bucketOf r (v_StartTime v)) (v_TotalAmount v)
     else delegation)) as ->.
  { unfold addTyped, hasType. destruct (String.eqb_spec (v_Type v) VestingTypeNode) as [->|]; [done|].
    by destruct (String.eqb (v_Type v) VestingTypeDelegation). }
  rewrite IH. by destruct (hasType VestingTypeNode v), (hasType VestingTypeDelegation v).
Qed.

(** The weeks a chart is built for. *)
Lemma BuildEmissionChartRange_ok parse t s weeks r :
  BuildEmissionChartRange parse t s weeks = Ok r →
  t - cr_MainnetWeekStart r ≤ max_i64 - emissionWeekDuration →
  0 < weeks ∧ chart_ok r weeks ∧
  cr_RangeEnd r - emissionWeekDuration ≤ Z.max t (cr_MainnetWeekStart r) < cr_RangeEnd r.
Proof.
  unfold BuildEmissionChartRange, ParseMainnetAlignedWeekStart.
  destruct (Z.leb_spec weeks 0) as [|Hw]; [done|]. destruct (Z.ltb_spec maxChartWeeks weeks) as [|Hmax]; [done|].
  simpl. destruct (String.eqb s ""); [done|]. destruct (parse s) as [start|]; [|done].
  intros Hr%Ok_inj. subst r. cbn [cr_MainnetWeekStart cr_RangeStart cr_RangeEnd cr_WeekStarts].
  assert ((second | utc_day start)) as Hsec.
  { unfold utc_day. apply Z.divide_mul_r. by exists 86400. }
  generalize (utc_day start), Hsec. clear start Hsec. intros m Hsec Ht.
  assert (0 < emissionWeekDuration) as HWp by reflexivity.
  assert (maxChartWeeks * emissionWeekDuration ≤ max_i64) as Hfit by (by vm_compute).
  assert (emissionWeekDuration ≤ max_i64) as Hone by (by vm_compute).
  set (e := Z.max 0 (weeksBetween m t)).
  assert (e * emissionWeekDuration ≤ Z.max t m - m < (e + 1) * emissionWeekDuration) as He.
  { subst e. destruct (Z.le_gt_cases m t) as [Hle|Hgt].
    - rewrite weeksBetween_small by lia. pose proof (Z.mod_pos_bound (t - m) emissionWeekDuration HWp).
      pose proof (Z.div_mod (t - m) emissionWeekDuration ltac:(lia)).
      rewrite Z.max_r by (apply Z.div_pos; lia). rewrite Z.max_l by lia. lia.
    - rewrite Z.max_l; [rewrite Z.max_r by lia; lia|].
      unfold weeksBetween. apply Z.opp_nonneg_nonpos. rewrite <- Z.quot_opp_l by lia.
      apply Z.quot_pos; [|lia]. pose proof (sat_i64_mono (t - m) 0 ltac:(lia)) as Hm. rewrite (sat_i64_small 0) in Hm by done. lia. }
  assert (0 ≤ e) as He0 by lia. clearbody e.
  rewrite (addWeeks_small m e) by (unfold min_i64; nia).
  rewrite (wrap_i64_small (- (weeks - 1) * emissionWeekDuration)) by (unfold min_i64; unfold max_i64 in *; nia).
  split; [done|]. split; [split; cbn [cr_MainnetWeekStart cr_RangeStart cr_RangeEnd cr_WeekStarts]|lia].
  - exists (e - (weeks - 1)). lia.
  - done.
  - lia.
  - lia.
  - apply map_ext_in. intros i Hi%in_seq. apply addWeeks_small. unfold min_i64. nia.
Qed.

(** C38 — A chart has one entry per requested week, the weeks are consecutive, and the last one is the
    running week (the first week of the mainnet before its start).  Each of the four
    series gives for every week exactly the sum of the items that start in it (of
    the node or delegation type, for the typed series): no item is lost at a boundary or
    counted twice, whatever the order of the items and however far outside the
    chart or the range of a 64-bit duration they start. *)
Theorem emission_series_exact parse t s weeks r records details totals :
  BuildEmissionChartRange parse t s weeks = Ok r →
  t - cr_MainnetWeekStart r ≤ max_i64 - emissionWeekDuration →
  let times := map Unix (cr_WeekStarts r) in
  let byWeek {A} (startTime : A → Time) amount items :=
    map (λ weekStart, emittedIn startTime amount (cr_MainnetWeekStart r) weekStart items) (cr_WeekStarts r) in
  length (cr_WeekStarts r) = Z.to_nat weeks ∧
  cr_WeekStarts r = map (λ i, cr_RangeStart r + Z.of_nat i * emissionWeekDuration) (seq 0 (Z.to_nat weeks)) ∧
  cr_RangeEnd r = cr_RangeStart r + weeks * emissionWeekDuration ∧
  cr_RangeEnd r - emissionWeekDuration ≤ Z.max t (cr_MainnetWeekStart r) < cr_RangeEnd r ∧
  BuildEmissionIncomeSeries records r = (times, byWeek v_StartTime v_TotalAmount records) ∧
  BuildDelegationEmissionIncomeSeries details r = (times, byWeek vd_StartTime vd_EmissionAmount details) ∧
  BuildNodeDelegationEmissionIncomeSeries totals r = (times, byWeek nw_StartTime nw_EmissionAmount totals) ∧
  BuildTypedEmissionIncomeSeries records r =
    mkTypedSeries times
      (byWeek v_StartTime v_TotalAmount (select_where (hasType VestingTypeNode) records))
      (byWeek v_StartTime v_TotalAmount (select_where (hasType VestingTypeDelegation) records)).
Proof.
  intros Hr Ht times byWeek. destruct (BuildEmissionChartRange_ok _ _ _ _ _ Hr Ht) as (Hpos & Hok & Hnow).
  split; [|split_and!]; [| |by apply (chart_end r weeks)|lia|lia|..].
  - rewrite (chart_weeks r weeks Hok), length_map, length_seq. done.
  - apply (chart_weeks r weeks Hok).
  - unfold BuildEmissionIncomeSeries, buildSeries. f_equal. by apply (buckets_exact r weeks).
  - unfold BuildDelegationEmissionIncomeSeries, buildSeries. f_equal. by apply (buckets_exact r weeks).
  - unfold BuildNodeDelegationEmissionIncomeSeries, buildSeries. f_equal. by apply (buckets_exact r weeks).
  - unfold BuildTypedEmissionIncomeSeries. rewrite typed_split. f_equal; by apply (buckets_exact r weeks).
Qed.

(** The parser of a demonstration: every text is the start of 2026-06-01. *)
Definition demo_parse (_ : string) : option Time := Some (20605 * day).

Definition demo_vested : World :=
  mkWorld (empty_db <| db_vestings := [mkVestingRecord 1 "0xa" 1000 400 (20605 * day) 10 "node" "" VestingStatusActive false] |>)
    empty_caches 0 0.

Definition demo_chart : EmissionChartRange :=
  match BuildEmissionChartRange demo_parse (20620 * day) "2026-06-01T00:00:00Z" 4 with
  | Ok r => r
  | Err _ => mkChartRange 0 0 0 []
  end.

(** Two weeks after the start: one week before the start, two whole weeks and the running
    one; an item at the last instant of a week and one at the first of the next. *)
Lemma emission_series_exact_witness :
  let item t := mkVestingRecord 1 "0xa" 1000 0 t 10 "node" "" VestingStatusActive false in
  BuildEmissionIncomeSeries [item (20612 * day); item (20612 * day - 1); item (20613 * day); item (20600 * day)] demo_chart
  = (map Unix (cr_WeekStarts demo_chart), [0; 1000; 2000; 0]).
Proof.
  intros item.
  assert (BuildEmissionChartRange demo_parse (20620 * day) "2026-06-01T00:00:00Z" 4 = Ok demo_chart) as Hr by reflexivity.
  pose proof (emission_series_exact demo_parse (20620 * day) "2026-06-01T00:00:00Z" 4 demo_chart
    [item (20612 * day); item (20612 * day - 1); item (20613 * day); item (20600 * day)] [] [] Hr ltac:(by vm_compute)) as H.
  cbv zeta in H. destruct H as (_ & _ & _ & _ & -> & _). vm_compute. reflexivity.
Defined.
End Emission.
