(* ===== verification/EmissionEstimate.v ===== *)
(** * Estimates of the running emission week

    src/service/emission_estimate.go: a snapshot of the task fees of the running
    week, grouped by node, user and delegation, from which the emission of each
    party is estimated.  The snapshot is published by replacing a global pointer; a
    refresh that fails leaves the published one. *)

From S2P Require Import Prelude Models Config Delegation MaxStaking Store Vesting Emission.

Module EmissionEstimate.
Import Vesting Emission.

(** ** Definitions *)

(** [EmissionEstimateResult], src/service/emission_estimate.go 13-18 *)
Record EmissionEstimateResult := mkEstimate {
  er_EstimatedEmission : Z;
  er_EmissionWeekStart : Z;
  er_EmissionWeekEnd : Z;
  er_EstimateUpdatedAt : Z
}.

(** [currentEmissionEstimateSnapshot], src/service/emission_estimate.go 20-30 *)
Record currentEmissionEstimateSnapshot := mkEstimateSnapshot {
  sn_totalTaskFee : Z;
  sn_operatorTaskFeeByNode : gmap string Z;
  sn_delegationTaskFeeByNode : gmap string Z;
  sn_delegationTaskFeeByUser : gmap string Z;
  sn_delegationTaskFeeByUserNodeNetwork : gmap string Z;
  sn_nodeEmissionPoolCNX : Z;
  sn_emissionWeekStart : Time;
  sn_emissionWeekEnd : Time;
  sn_updatedAt : Time
}.

#[export] Instance eta_estimate_snapshot : Eta currentEmissionEstimateSnapshot := λ r,
  mkEstimateSnapshot (sn_totalTaskFee r) (sn_operatorTaskFeeByNode r) (sn_delegationTaskFeeByNode r)
    (sn_delegationTaskFeeByUser r) (sn_delegationTaskFeeByUserNodeNetwork r) (sn_nodeEmissionPoolCNX r)
    (sn_emissionWeekStart r) (sn_emissionWeekEnd r) (sn_updatedAt r).

(** [time.Time{}]: the first instant of year 1 *)
Definition zero_time : Time := -62135596800 * second.

(** [newCurrentEmissionEstimateSnapshot], src/service/emission_estimate.go
    54-62 *)
Definition newCurrentEmissionEstimateSnapshot : currentEmissionEstimateSnapshot :=
  mkEstimateSnapshot 0 ∅ ∅ ∅ ∅ 0 zero_time zero_time zero_time.

(** [Where("time >= ? AND time < ?")], src/service/emission_estimate.go 83: the
    all-time rows have no time *)
Definition inWeek (info : EmissionWeekInfo) (t : option Time) : bool :=
  match t with
  | None => false
  | Some t => (wi_WeekStartDate info <=? t) && (t <? wi_WeekEndDate info)
  end.

(** [GROUP BY key], src/service/emission_estimate.go 84: one group per key, in no
    particular order; [SUM] adds up a column of a group, and the sum arrives as
    text *)
Definition groupBy {A K} `{Countable K} (key : A → K) (rows : list A) : list (K * list A) :=
  map_to_list (foldr (λ x (m : gmap K (list A)), <[key x := x :: default [] (m !! key x)]> m) ∅ rows).

(** [parsePositiveEmissionTaskFee], src/service/emission_estimate.go 211-217 *)
Definition parsePositiveEmissionTaskFee (raw : string) : Z :=
  match SetString raw with
  | None => 0
  | Some taskFee => if taskFee <=? 0 then 0 else taskFee
  end.

(** [userNodeNetworkEmissionEstimateKey], src/service/emission_estimate.go
    219-221 *)
Definition userNodeNetworkEmissionEstimateKey (userAddress nodeAddress network : string) : string :=
  userAddress +:+ String (Ascii.ascii_of_N 0) (nodeAddress +:+ String (Ascii.ascii_of_N 0) network).

(** A positive sum is stored under its key, src/service/emission_estimate.go
    89-91 *)
Definition storeFee (m : gmap string Z) (key : string) (fee : Z) : gmap string Z :=
  if 0 <? fee then <[key := fee]> m else m.

(** The loop over the nodes, src/service/emission_estimate.go 87-97: the sums of the
    operators count for the total *)
Definition addNodeRow (s : currentEmissionEstimateSnapshot) (row : string * list NodeEarning)
    : currentEmissionEstimateSnapshot :=
  let operatorTaskFee := parsePositiveEmissionTaskFee (format_Z (sumZ ne_OperatorEarning (snd row))) in
  let s1 := s <| sn_operatorTaskFeeByNode := storeFee (sn_operatorTaskFeeByNode s) (fst row) operatorTaskFee |>
              <| sn_totalTaskFee := if 0 <? operatorTaskFee then sn_totalTaskFee s + operatorTaskFee
                                    else sn_totalTaskFee s |> in
  let delegatorTaskFee := parsePositiveEmissionTaskFee (format_Z (sumZ ne_DelegatorEarning (snd row))) in
  s1 <| sn_delegationTaskFeeByNode := storeFee (sn_delegationTaskFeeByNode s1) (fst row) delegatorTaskFee |>.

(** The loop over the users, src/service/emission_estimate.go 107-113: their sums
    count for the total *)
Definition addUserRow (s : currentEmissionEstimateSnapshot) (row : string * list UserEarning)
    : currentEmissionEstimateSnapshot :=
  let taskFee := parsePositiveEmissionTaskFee (format_Z (sumZ ue_Earning (snd row))) in
  s <| sn_delegationTaskFeeByUser := storeFee (sn_delegationTaskFeeByUser s) (fst row) taskFee |>
    <| sn_totalTaskFee := if 0 <? taskFee then sn_totalTaskFee s + taskFee else sn_totalTaskFee s |>.

(** The loop over the delegations, src/service/emission_estimate.go 123-128 *)
Definition addUserNodeNetworkRow (s : currentEmissionEstimateSnapshot)
    (row : string * string * string * list UserStakingEarning) : currentEmissionEstimateSnapshot :=
  let '(userAddress, nodeAddress, network, rows) := row in
  let taskFee := parsePositiveEmissionTaskFee (format_Z (sumZ us_Earning rows)) in
  s <| sn_delegationTaskFeeByUserNodeNetwork :=
        storeFee (sn_delegationTaskFeeByUserNodeNetwork s)
          (userNodeNetworkEmissionEstimateKey userAddress nodeAddress network) taskFee |>.

Section estimate.
Context {E : Env} (parseRFC3339 : string → option Time).

(** [RefreshCurrentEmissionEstimateSnapshot], src/service/emission_estimate.go
    68-136: the result is the snapshot that is published *)
Definition RefreshCurrentEmissionEstimateSnapshot (t : Time) (mainnetStartTime : string)
    : M currentEmissionEstimateSnapshot :=
  info ← lift (GetCurrentEmissionWeekInfo parseRFC3339 t mainnetStartTime);
  let snapshot := newCurrentEmissionEstimateSnapshot
    <| sn_nodeEmissionPoolCNX := wi_NodeEmissionPoolCNX info |>
    <| sn_emissionWeekStart := wi_WeekStartDate info |>
    <| sn_emissionWeekEnd := wi_WeekEndDate info |>
    <| sn_updatedAt := t |> in
  nodeRows ← db_read (λ d, select_where (λ r, inWeek info (ne_Time r)) (db_node_earnings d));
  let snapshot1 := foldl addNodeRow snapshot (groupBy ne_NodeAddress nodeRows) in
  userRows ← db_read (λ d, select_where (λ r, inWeek info (ue_Time r)) (db_user_earnings d));
  let snapshot2 := foldl addUserRow snapshot1 (groupBy ue_UserAddress userRows) in
  userNodeNetworkRows ← db_read (λ d, select_where (λ r, inWeek info (us_Time r)) (db_user_staking_earnings d));
  mret (foldl addUserNodeNetworkRow snapshot2
    (groupBy (λ r, (us_UserAddress r, us_NodeAddress r, us_Network r)) userNodeNetworkRows)).
End estimate.

(** [estimateFromSnapshot], src/service/emission_estimate.go 189-209 *)
Definition estimateFromSnapshot (snapshot : currentEmissionEstimateSnapshot)
    (scopeTaskFee : currentEmissionEstimateSnapshot → option Z) : EmissionEstimateResult :=
  let result e := mkEstimate e (Unix (sn_emissionWeekStart snapshot)) (Unix (sn_emissionWeekEnd snapshot))
                    (Unix (sn_updatedAt snapshot)) in
  match scopeTaskFee snapshot with
  | None => result 0
  | Some taskFee =>
      if (taskFee =? 0) || (sn_totalTaskFee snapshot =? 0) then result 0
      else result (taskFee * sn_nodeEmissionPoolCNX snapshot / sn_totalTaskFee snapshot)
  end.

(** [GetNodeOperatorEmissionEstimate], src/service/emission_estimate.go 138-142 *)
Definition GetNodeOperatorEmissionEstimate snapshot (nodeAddress : string) : EmissionEstimateResult :=
  estimateFromSnapshot snapshot (λ s, sn_operatorTaskFeeByNode s !! nodeAddress).

(** [GetNodeDelegationEmissionEstimate], src/service/emission_estimate.go
    144-148 *)
Definition GetNodeDelegationEmissionEstimate snapshot (nodeAddress : string) : EmissionEstimateResult :=
  estimateFromSnapshot snapshot (λ s, sn_delegationTaskFeeByNode s !! nodeAddress).

(** [GetUserDelegationEmissionEstimate], src/service/emission_estimate.go
    177-181 *)
Definition GetUserDelegationEmissionEstimate snapshot (userAddress : string) : EmissionEstimateResult :=
  estimateFromSnapshot snapshot (λ s, sn_delegationTaskFeeByUser s !! userAddress).

(** [GetSingleDelegationEmissionEstimate], src/service/emission_estimate.go
    183-187 *)
Definition GetSingleDelegationEmissionEstimate snapshot (userAddress nodeAddress network : string)
    : EmissionEstimateResult :=
  estimateFromSnapshot snapshot (λ s, sn_delegationTaskFeeByUserNodeNetwork s !!
    userNodeNetworkEmissionEstimateKey userAddress nodeAddress network).

Definition weeklyTaskFeeMinElapsed : Duration := 24 * hour.
Definition weeklyTaskFeeMaxElapsed : Duration := 7 * 24 * hour.

(** [GetNodeDelegationWeeklyTaskFeeEstimate], src/service/emission_estimate.go
    155-175 *)
Definition GetNodeDelegationWeeklyTaskFeeEstimate (snapshot : currentEmissionEstimateSnapshot)
    (nodeAddress : string) : Z :=
  match sn_delegationTaskFeeByNode snapshot !! nodeAddress with
  | None => 0
  | Some taskFee =>
      if taskFee <=? 0 then 0
      else
        let elapsed := time_sub (sn_updatedAt snapshot) (sn_emissionWeekStart snapshot) in
        let elapsed1 := if elapsed <? weeklyTaskFeeMinElapsed then weeklyTaskFeeMinElapsed else elapsed in
        let elapsed2 := if weeklyTaskFeeMaxElapsed <? elapsed1 then weeklyTaskFeeMaxElapsed else elapsed1 in
        taskFee * Z.quot weeklyTaskFeeMaxElapsed second / Z.quot elapsed2 second
  end.

(** ** Properties *)

Lemma parsePositive_format z : parsePositiveEmissionTaskFee (format_Z z) = Z.max 0 z.
Proof. unfold parsePositiveEmissionTaskFee. rewrite SetString_format. destruct (Z.leb_spec z 0); lia. Qed.

(** *** Groups *)

Section groups.
Context {A K : Type} `{Countable K} (key : A → K).

(** The rows of one key. *)
Definition rowsOf (k : K) (rows : list A) : list A := List.filter (λ x, bool_decide (key x = k)) rows.

Lemma groups_lookup rows k :
  (foldr (λ x (m : gmap K (list A)), <[key x := x :: default [] (m !! key x)]> m) ∅ rows) !! k =
  match rowsOf k rows with [] => None | xs => Some xs end.
Proof.
  induction rows as [|x rows IH]; [simpl; by rewrite lookup_empty|]. cbn [foldr].
  unfold rowsOf in *. cbn [List.filter]. destruct (decide (key x = k)) as [<-|Hne].
  - rewrite lookup_insert_eq, bool_decide_true, IH by done. by destruct (List.filter _ rows).
  - by rewrite lookup_insert_ne, bool_decide_false by done.
Qed.

Lemma groupBy_elem rows k xs : (k, xs) ∈ groupBy key rows → xs = rowsOf k rows.
Proof.
  unfold groupBy. rewrite elem_of_map_to_list, groups_lookup. by destruct (rowsOf k rows); intros [= <-].
Qed.

Lemma groupBy_missing rows k : k ∉ map fst (groupBy key rows) → rowsOf k rows = [].
Proof.
  intros Hk. destruct (rowsOf k rows) as [|x xs] eqn:Hr; [done|]. destruct Hk.
  apply elem_of_map_iff. exists (k, x :: xs). split; [|done].
  unfold groupBy. rewrite elem_of_map_to_list, groups_lookup. by rewrite Hr.
Qed.

Lemma groupBy_keys rows k : k ∈ map fst (groupBy key rows) → k ∈ map key rows.
Proof.
  intros ([k' xs] & Hin & ->)%elem_of_map_iff. unfold groupBy in Hin. rewrite elem_of_map_to_list, groups_lookup in Hin.
  simpl. destruct (rowsOf k' rows) as [|x xs'] eqn:Hr; [done|].
  assert (In x (rowsOf k' rows)) as Hx by (rewrite Hr; by left). apply filter_In in Hx as [Hx Hk].
  apply bool_decide_eq_true in Hk as <-. apply elem_of_map_2. by apply list_elem_of_In.
Qed.

Lemma groupBy_NoDup rows : NoDup (map fst (groupBy key rows)).
Proof. unfold groupBy. apply NoDup_fst_map_to_list. Qed.
End groups.

(** A table of positive fees: the fee of a key is the positive part of what its group
    adds up to, and the total is the sum of the table. *)
Section fees.
Context {A K : Type} `{Countable K} (key : A → K) (amount : A → Z) (name : K → string).

Definition feeOf (rows : list A) (k : K) : Z := Z.max 0 (sumZ amount (rowsOf key k rows)).

Definition storeRow (m : gmap string Z) (row : K * list A) : gmap string Z :=
  storeFee m (name (fst row)) (Z.max 0 (sumZ amount (snd row))).

Lemma storeFee_default m a b fee :
  0 ≤ fee → m !! b = None → default 0 (storeFee m b fee !! a) = if bool_decide (a = b) then fee else default 0 (m !! a).
Proof.
  intros Hfee Hb. unfold storeFee. destruct (Z.ltb_spec 0 fee).
  - destruct (decide (a = b)) as [->|]; [by rewrite lookup_insert_eq, bool_decide_true|].
    by rewrite lookup_insert_ne, bool_decide_false by done.
  - destruct (decide (a = b)) as [->|]; [|by rewrite bool_decide_false].
    rewrite bool_decide_true, Hb by done. simpl. lia.
Qed.

Lemma storeFee_sum m b fee : 0 ≤ fee → m !! b = None → map_sum (storeFee m b fee) = map_sum m + fee.
Proof.
  intros Hfee Hb. unfold storeFee. destruct (Z.ltb_spec 0 fee); [|lia].
  rewrite map_sum_insert_None by done. lia.
Qed.

Lemma storeFee_None m a b fee : a ≠ b → m !! a = None → storeFee m b fee !! a = None.
Proof. intros. unfold storeFee. destruct (0 <? fee); [by rewrite lookup_insert_ne|done]. Qed.

Lemma storeFee_pos m b fee : map_Forall (λ _ v, 0 < v) m → map_Forall (λ _ v, 0 < v) (storeFee m b fee).
Proof. intros. unfold storeFee. destruct (Z.ltb_spec 0 fee); [by apply map_Forall_insert_2|done]. Qed.

(** What a list of groups stores. *)
Lemma store_rows l m :
  NoDup (map (λ row, name (fst row)) l) → (∀ row, row ∈ l → m !! name (fst row) = None) →
  (∀ row, row ∈ l → default 0 (foldl storeRow m l !! name (fst row)) = Z.max 0 (sumZ amount (snd row))) ∧
  (∀ a, a ∉ map (λ row, name (fst row)) l → foldl storeRow m l !! a = m !! a) ∧
  map_sum (foldl storeRow m l) = map_sum m + sumZ (λ row, Z.max 0 (sumZ amount (snd row))) l ∧
  (map_Forall (λ _ v, 0 < v) m → map_Forall (λ _ v, 0 < v) (foldl storeRow m l)).
Proof.
  revert m. induction l as [|row l IH]; intros m Hnd Hm; [split_and!; [set_solver|done|simpl; lia|done]|].
  cbn [map] in Hnd. apply NoDup_cons in Hnd as [Hn Hnd]. cbn [foldl].
  assert (m !! name (fst row) = None) as Hrow by (apply Hm; set_solver).
  destruct (IH (storeRow m row) Hnd) as (H1 & H2 & H3 & H4).
  { intros row' Hrow'. apply storeFee_None; [|apply Hm; set_solver].
    intros Heq. apply Hn. rewrite <- Heq. by apply (elem_of_map_2 (λ row, name (fst row))). }
  split_and!.
  - intros row' [->|Hrow']%elem_of_cons; [|by apply H1]. rewrite H2 by done.
    unfold storeRow. rewrite storeFee_default by (done || lia). by rewrite bool_decide_true.
  - intros a Ha. cbn [map] in Ha. apply not_elem_of_cons in Ha as [Ha Ha']. rewrite H2 by done.
    unfold storeRow, storeFee. destruct (0 <? _); [by rewrite lookup_insert_ne|done].
  - rewrite H3. unfold storeRow at 1. rewrite storeFee_sum by (done || lia). cbn [sumZ foldr].
    fold (sumZ (λ row, Z.max 0 (sumZ amount (snd row))) l). unfold sumZ. simpl. lia.
  - intros Hpos. by apply H4, storeFee_pos.
Qed.

(** The table of the groups of some rows, when the names of the keys are distinct. *)
Lemma store_groups rows k :
  (∀ k', k' ∈ k :: map fst (groupBy key rows) → ∀ k'', k'' ∈ k :: map fst (groupBy key rows) →
    name k' = name k'' → k' = k'') →
  default 0 (foldl storeRow ∅ (groupBy key rows) !! name k) = feeOf rows k.
Proof.
  intros Hinj.
  destruct (store_rows (groupBy key rows) ∅) as (H1 & H2 & _ & _).
  { rewrite <- (map_map fst name). apply (NoDup_fmap_2_strong name); [|apply groupBy_NoDup].
    intros x y Hx Hy. by apply Hinj; right. }
  { intros. apply lookup_empty. }
  destruct (decide (k ∈ map fst (groupBy key rows))) as [Hk|Hk].
  - apply elem_of_map_iff in Hk as ([k' xs] & Hk & ->). rewrite (H1 _ Hk). unfold feeOf.
    by rewrite (groupBy_elem key rows _ _ Hk).
  - rewrite H2; [|].
    + rewrite lookup_empty. unfold feeOf. by rewrite (groupBy_missing key rows k Hk).
    + intros (row & Hrow & Heq)%elem_of_map_iff. apply Hk.
      assert (fst row ∈ map fst (groupBy key rows)) as Hin by (by apply (elem_of_map_2 fst)).
      rewrite (Hinj k ltac:(left) (fst row) ltac:(by right) Heq). done.
Qed.
End fees.

(** The sum of a table over distinct keys is at most its total, and is its total
    when no key is left out. *)
Lemma indicator_sum (k : string) v ks : NoDup ks →
  sumZ (λ k', if bool_decide (k' = k) then v else 0) ks = if bool_decide (k ∈ ks) then v else 0.
Proof.
  induction 1 as [|k' ks Hk' Hnd IH]; [done|].
  transitivity ((if bool_decide (k' = k) then v else 0) + sumZ (λ k', if bool_decide (k' = k) then v else 0) ks); [done|].
  rewrite IH. destruct (decide (k' = k)) as [->|Hne].
  - rewrite (bool_decide_true (k = k)), (bool_decide_false (k ∈ ks)), (bool_decide_true (k ∈ k :: ks)) by set_solver. lia.
  - rewrite (bool_decide_false (k' = k)) by done. rewrite (bool_decide_ext (k ∈ k' :: ks) (k ∈ ks)) by set_solver. done.
Qed.

Lemma sum_keys (m : gmap string Z) ks :
  map_Forall (λ _ v, 0 < v) m → NoDup ks →
  0 ≤ sumZ (λ k, default 0 (m !! k)) ks ≤ map_sum m ∧
  ((∀ k, is_Some (m !! k) → k ∈ ks) → sumZ (λ k, default 0 (m !! k)) ks = map_sum m).
Proof.
  intros Hpos Hnd. induction m as [|k v m Hk IH] using map_ind.
  { rewrite sumZ_zero by (intros; by rewrite lookup_empty). done. }
  apply map_Forall_insert in Hpos as [Hv Hpos]; [|done]. rewrite map_sum_insert_None by done.
  assert (sumZ (λ k', default 0 (<[k:=v]> m !! k')) ks =
    (if bool_decide (k ∈ ks) then v else 0) + sumZ (λ k', default 0 (m !! k')) ks) as ->.
  { rewrite <- indicator_sum, <- sumZ_plus by done. apply sumZ_ext. intros k' _. destruct (decide (k' = k)) as [->|].
    - rewrite lookup_insert_eq, bool_decide_true, Hk by done. simpl. lia.
    - rewrite lookup_insert_ne, bool_decide_false by done. lia. }
  destruct (IH Hpos) as [IH1 IH2]. split; [case_bool_decide; lia|]. intros Hall.
  rewrite bool_decide_true by (apply Hall; by rewrite lookup_insert_eq).
  rewrite IH2; [done|]. intros k' Hk'. apply Hall. destruct (decide (k' = k)) as [->|]; [by rewrite lookup_insert_eq|].
  by rewrite lookup_insert_ne.
Qed.

Lemma counted_fee (b : Z) fee : 0 ≤ fee → (if 0 <? fee then b + fee else b) = b + fee.
Proof. destruct (Z.ltb_spec 0 fee); lia. Qed.

(** The snapshot after each loop. *)
Lemma nodeRows_snapshot s l : foldl addNodeRow s l =
  s <| sn_operatorTaskFeeByNode := foldl (storeRow ne_OperatorEarning (λ k, k)) (sn_operatorTaskFeeByNode s) l |>
    <| sn_delegationTaskFeeByNode := foldl (storeRow ne_DelegatorEarning (λ k, k)) (sn_delegationTaskFeeByNode s) l |>
    <| sn_totalTaskFee := sn_totalTaskFee s + sumZ (λ row, Z.max 0 (sumZ ne_OperatorEarning (snd row))) l |>.
Proof.
  revert s. induction l as [|row l IH]; intros s; cbn [foldl].
  - destruct s. simpl. by rewrite Z.add_0_r.
  - rewrite IH. unfold addNodeRow. rewrite !parsePositive_format, counted_fee by lia. destruct s. simpl.
    unfold storeRow at 2 5. simpl. f_equal. lia.
Qed.

Lemma userRows_snapshot s l : foldl addUserRow s l =
  s <| sn_delegationTaskFeeByUser := foldl (storeRow ue_Earning (λ k, k)) (sn_delegationTaskFeeByUser s) l |>
    <| sn_totalTaskFee := sn_totalTaskFee s + sumZ (λ row, Z.max 0 (sumZ ue_Earning (snd row))) l |>.
Proof.
  revert s. induction l as [|row l IH]; intros s; cbn [foldl].
  - destruct s. simpl. by rewrite Z.add_0_r.
  - rewrite IH. unfold addUserRow. rewrite !parsePositive_format, counted_fee by lia. destruct s. simpl.
    unfold storeRow at 2. simpl. f_equal. lia.
Qed.

Definition singleName (k : string * string * string) : string :=
  let '(user, node, network) := k in userNodeNetworkEmissionEstimateKey user node network.

Lemma userNodeNetworkRows_snapshot s l : foldl addUserNodeNetworkRow s l =
  s <| sn_delegationTaskFeeByUserNodeNetwork :=
        foldl (storeRow us_Earning singleName) (sn_delegationTaskFeeByUserNodeNetwork s) l |>.
Proof.
  revert s. induction l as [|[[[u n] net] rows] l IH]; intros s; cbn [foldl]; [by destruct s|].
  rewrite IH. unfold addUserNodeNetworkRow. rewrite parsePositive_format. by destruct s.
Qed.

Lemma singleName_inj u n net u' n' net' :
  avoids (Ascii.ascii_of_N 0) u = true → avoids (Ascii.ascii_of_N 0) u' = true →
  avoids (Ascii.ascii_of_N 0) n = true → avoids (Ascii.ascii_of_N 0) n' = true →
  singleName (u, n, net) = singleName (u', n', net') → (u, n, net) = (u', n', net').
Proof.
  unfold singleName, userNodeNetworkEmissionEstimateKey. generalize (Ascii.ascii_of_N 0) as c.
  intros c Hu Hu' Hn Hn' H. pose proof (cut_avoids c u (n +:+ String c net) Hu) as H1.
  rewrite H, cut_avoids in H1 by done. injection H1 as -> H1.
  pose proof (cut_avoids c n net Hn) as H2. rewrite <- H1, cut_avoids in H2 by done. by injection H2 as -> ->.
Qed.
(** The rows of a week. *)
Definition nodeRowsIn (info : EmissionWeekInfo) (d : DB) : list NodeEarning :=
  select_where (λ r, inWeek info (ne_Time r)) (db_node_earnings d).
Definition userRowsIn (info : EmissionWeekInfo) (d : DB) : list UserEarning :=
  select_where (λ r, inWeek info (ue_Time r)) (db_user_earnings d).
Definition stakingRowsIn (info : EmissionWeekInfo) (d : DB) : list UserStakingEarning :=
  select_where (λ r, inWeek info (us_Time r)) (db_user_staking_earnings d).
Definition stakingKey (r : UserStakingEarning) : string * string * string :=
  (us_UserAddress r, us_NodeAddress r, us_Network r).

(** The snapshot of a week. *)
Definition snapshotOf (info : EmissionWeekInfo) (t : Time) (d : DB) : currentEmissionEstimateSnapshot :=
  let nodes := groupBy ne_NodeAddress (nodeRowsIn info d) in
  let users := groupBy ue_UserAddress (userRowsIn info d) in
  mkEstimateSnapshot
    (sumZ (λ row, Z.max 0 (sumZ ne_OperatorEarning (snd row))) nodes +
     sumZ (λ row, Z.max 0 (sumZ ue_Earning (snd row))) users)
    (foldl (storeRow ne_OperatorEarning (λ k, k)) ∅ nodes)
    (foldl (storeRow ne_DelegatorEarning (λ k, k)) ∅ nodes)
    (foldl (storeRow ue_Earning (λ k, k)) ∅ users)
    (foldl (storeRow us_Earning singleName) ∅ (groupBy stakingKey (stakingRowsIn info d)))
    (wi_NodeEmissionPoolCNX info) (wi_WeekStartDate info) (wi_WeekEndDate info) t.

Lemma Refresh_value `{E : Env} parse t s (w w' : World) sn :
  RefreshCurrentEmissionEstimateSnapshot parse t s w = (Ok sn, w') →
  ∃ info, GetCurrentEmissionWeekInfo parse t s = Ok info ∧ w_db w' = w_db w ∧ sn = snapshotOf info t (w_db w).
Proof.
  intros H.
  assert (wp (RefreshCurrentEmissionEstimateSnapshot parse t s) (λ r w', r = Ok sn → ∃ info,
    GetCurrentEmissionWeekInfo parse t s = Ok info ∧ w_db w' = w_db w ∧ sn = snapshotOf info t (w_db w)) w) as Hwp;
    [|unfold wp in Hwp; rewrite H in Hwp; by apply Hwp].
  unfold RefreshCurrentEmissionEstimateSnapshot. wp_step. wp_step.
  destruct (GetCurrentEmissionWeekInfo parse t s) as [info|e]; [|done].
  do 3 (wp_step; wp_step; [done|]; cbn beta iota zeta). wp_step. intros Hsn%Ok_inj. exists info.
  split; [done|]. split; [done|]. rewrite <- Hsn.
  rewrite userNodeNetworkRows_snapshot, userRows_snapshot, nodeRows_snapshot. reflexivity.
Qed.

Lemma estimate_value snapshot scope :
  er_EstimatedEmission (estimateFromSnapshot snapshot scope) =
  default 0 (scope snapshot) * sn_nodeEmissionPoolCNX snapshot / sn_totalTaskFee snapshot.
Proof.
  unfold estimateFromSnapshot. destruct (scope snapshot) as [fee|]; simpl; [|by rewrite Zdiv_0_l].
  destruct (Z.eqb_spec fee 0) as [->|]; [by rewrite Zdiv_0_l|].
  destruct (Z.eqb_spec (sn_totalTaskFee snapshot) 0) as [->|]; [by rewrite Zdiv_0_r|done].
Qed.
Lemma week_pool parse t s info : GetCurrentEmissionWeekInfo parse t s = Ok info → 0 ≤ wi_NodeEmissionPoolCNX info.
Proof.
  unfold GetCurrentEmissionWeekInfo. destruct (ParseMainnetAlignedWeekStart parse s) as [start|]; [|done].
  set (e := Z.max 0 (weeksBetween start t)). assert (0 ≤ e) as He by lia. clearbody e.
  destruct (_ || _); [done|]. intros Hi%Ok_inj. subst info. cbn [weekInfo wi_NodeEmissionPoolCNX].
  replace e with (Z.of_nat (Z.to_nat e)) by lia. apply week_parts.
Qed.

(** Rounding down the shares of a pool never gives out more than the pool, and
    keeps back at most one per share. *)
Lemma shares {A B} (fee : A → Z) (fee' : B → Z) l l' pool total :
  0 ≤ pool → 0 < total →
  (sumZ fee l + sumZ fee' l' ≤ total →
    sumZ (λ x, fee x * pool / total) l + sumZ (λ x, fee' x * pool / total) l' ≤ pool) ∧
  (sumZ fee l + sumZ fee' l' = total →
    pool ≤ sumZ (λ x, fee x * pool / total) l + sumZ (λ x, fee' x * pool / total) l' +
           Z.of_nat (length l) + Z.of_nat (length l')).
Proof.
  intros Hp Ht.
  assert (∀ C (g : C → Z) k, total * sumZ (λ x, g x * pool / total) k ≤ pool * sumZ g k ≤
    total * (sumZ (λ x, g x * pool / total) k + Z.of_nat (length k))) as Hsh.
  { intros C g k. induction k as [|x k IH]; cbn [sumZ foldr length]; [lia|]. fold (sumZ g k).
    fold (sumZ (λ x, g x * pool / total) k). pose proof (Z.mod_pos_bound (g x * pool) total Ht).
    pose proof (Z.div_mod (g x * pool) total ltac:(lia)). unfold sumZ in *. simpl. lia. }
  pose proof (Hsh A fee l). pose proof (Hsh B fee' l'). split; intros Hs; nia.
Qed.

(** Scaling to a whole week multiplies by at least one and at most seven. *)
Lemma weekly_fee_bounds sn n (fee := default 0 (sn_delegationTaskFeeByNode sn !! n)) :
  0 ≤ fee → fee ≤ GetNodeDelegationWeeklyTaskFeeEstimate sn n ≤ 7 * fee.
Proof.
  subst fee. unfold GetNodeDelegationWeeklyTaskFeeEstimate.
  destruct (sn_delegationTaskFeeByNode sn !! n) as [fee|]; simpl; [|lia]. intros Hfee.
  destruct (Z.leb_spec fee 0); [lia|]. generalize (time_sub (sn_updatedAt sn) (sn_emissionWeekStart sn)) as e. intros e.
  change weeklyTaskFeeMinElapsed with (86400 * second). change weeklyTaskFeeMaxElapsed with (604800 * second).
  change (Z.quot (604800 * second) second) with 604800.
  set (e2 := if 604800 * second <? _ then _ else _).
  assert (86400 * second ≤ e2 ≤ 604800 * second) as He.
  { subst e2. assert (0 < second) by reflexivity. destruct (Z.ltb_spec e (86400 * second)).
    - destruct (Z.ltb_spec (604800 * second) (86400 * second)); lia.
    - destruct (Z.ltb_spec (604800 * second) e); lia. }
  clearbody e2. assert (86400 ≤ Z.quot e2 second ≤ 604800) as Hq.
  { split; [apply Z.quot_le_lower_bound|apply Z.quot_le_upper_bound]; (reflexivity || lia). }
  split; [apply Z.div_le_lower_bound|apply Z.div_le_upper_bound]; nia.
Qed.
(** A table keyed by the group key itself. *)
Lemma plain_table {A} (key : A → string) (amount : A → Z) rows :
  let m := foldl (storeRow amount (λ k, k)) ∅ (groupBy key rows) in
  (∀ k, default 0 (m !! k) = feeOf key amount rows k) ∧
  map_sum m = sumZ (λ row, Z.max 0 (sumZ amount (snd row))) (groupBy key rows) ∧
  map_Forall (λ _ v, 0 < v) m ∧
  (∀ k, is_Some (m !! k) → rowsOf key k rows ≠ []).
Proof.
  intros m. assert (NoDup (map (λ row, fst row) (groupBy key rows))) as Hnd by apply groupBy_NoDup.
  destruct (store_rows amount (λ k, k) (groupBy key rows) ∅) as (_ & H2 & H3 & H4);
    [exact Hnd|intros; apply lookup_empty|].
  split_and!.
  - intros k. by apply (store_groups key amount (λ k, k)).
  - unfold m. rewrite H3. by rewrite Z.add_0_l.
  - apply H4, map_Forall_empty.
  - intros k [v Hv] Hnil. fold m in H2. rewrite (H2 k) in Hv; [by rewrite lookup_empty in Hv|].
    intros ([k' xs] & Hin & ->)%elem_of_map_iff. pose proof Hin as Hx%(groupBy_elem key). simpl in Hnil. rewrite Hnil in Hx.
    subst xs. unfold groupBy in Hin. rewrite elem_of_map_to_list, groups_lookup, Hnil in Hin. done.
Qed.

Lemma rowsOf_covered {A} (key : A → string) rows (ks : list string) k :
  (∀ r, r ∈ rows → key r ∈ ks) → rowsOf key k rows ≠ [] → k ∈ ks.
Proof.
  intros Hall Hne. destruct (rowsOf key k rows) as [|x xs] eqn:Hr; [done|].
  assert (In x (rowsOf key k rows)) as Hx by (rewrite Hr; by left). apply filter_In in Hx as [Hx Hk].
  apply bool_decide_eq_true in Hk as <-. apply Hall. by apply list_elem_of_In.
Qed.

Lemma estimates_sum sn (f : string → EmissionEstimateResult) (table : currentEmissionEstimateSnapshot → gmap string Z) l :
  (∀ k, f k = estimateFromSnapshot sn (λ s, table s !! k)) →
  sumZ (λ k, er_EstimatedEmission (f k)) l =
  sumZ (λ k, default 0 (table sn !! k) * sn_nodeEmissionPoolCNX sn / sn_totalTaskFee sn) l.
Proof. intros Hf. apply sumZ_ext. intros k _. by rewrite Hf, estimate_value. Qed.

(** C39 — After a refresh the estimates are those of the running week, computed
    from the earnings rows of that week only: the operator of a node and the users get the share
    of the emission pool that their fees have in all fees, rounded down; the estimate of a node's
    delegators and of a single delegation uses the same total (for a single delegation
    as long as no stored address contains a zero byte, which separates the parts of its key).
    Over any nodes and users the estimates of the operators and of the users never exceed the pool,
    and over all that earned in the week they miss it by at most one CNX per party.
    The fee scaled to a whole week is at least the fee so far and at most seven times as much. *)
Theorem emission_estimates_within_pool `{E : Env} parse t s (w w' : World) sn :
  RefreshCurrentEmissionEstimateSnapshot parse t s w = (Ok sn, w') →
  ∃ info, GetCurrentEmissionWeekInfo parse t s = Ok info ∧ w_db w' = w_db w ∧
  let pool := wi_NodeEmissionPoolCNX info in
  let total := sn_totalTaskFee sn in
  let operator n := feeOf ne_NodeAddress ne_OperatorEarning (nodeRowsIn info (w_db w)) n in
  let delegators n := feeOf ne_NodeAddress ne_DelegatorEarning (nodeRowsIn info (w_db w)) n in
  let user u := feeOf ue_UserAddress ue_Earning (userRowsIn info (w_db w)) u in
  let single k := feeOf stakingKey us_Earning (stakingRowsIn info (w_db w)) k in
  let operatorEstimate n := er_EstimatedEmission (GetNodeOperatorEmissionEstimate sn n) in
  let userEstimate u := er_EstimatedEmission (GetUserDelegationEmissionEstimate sn u) in
  (∀ n, operatorEstimate n = operator n * pool / total) ∧
  (∀ u, userEstimate u = user u * pool / total) ∧
  (∀ n, er_EstimatedEmission (GetNodeDelegationEmissionEstimate sn n) = delegators n * pool / total) ∧
  (∀ u n net,
    (∀ k, k ∈ (u, n, net) :: map stakingKey (stakingRowsIn info (w_db w)) →
      avoids (Ascii.ascii_of_N 0) (fst (fst k)) = true ∧ avoids (Ascii.ascii_of_N 0) (snd (fst k)) = true) →
    er_EstimatedEmission (GetSingleDelegationEmissionEstimate sn u n net) = single (u, n, net) * pool / total) ∧
  (∀ nodes users, NoDup nodes → NoDup users →
    sumZ operatorEstimate nodes + sumZ userEstimate users ≤ pool ∧
    (0 < total →
     (∀ r, r ∈ nodeRowsIn info (w_db w) → ne_NodeAddress r ∈ nodes) →
     (∀ r, r ∈ userRowsIn info (w_db w) → ue_UserAddress r ∈ users) →
     pool ≤ sumZ operatorEstimate nodes + sumZ userEstimate users + Z.of_nat (length nodes) + Z.of_nat (length users))) ∧
  (∀ n, delegators n ≤ GetNodeDelegationWeeklyTaskFeeEstimate sn n ≤ 7 * delegators n).
Proof.
  intros (info & Hinfo & Hdb & ->)%Refresh_value. exists info. split; [done|]. split; [done|].
  destruct (plain_table ne_NodeAddress ne_OperatorEarning (nodeRowsIn info (w_db w))) as (Ho & Hos & Hop & Hok).
  destruct (plain_table ne_NodeAddress ne_DelegatorEarning (nodeRowsIn info (w_db w))) as (Hd & _).
  destruct (plain_table ue_UserAddress ue_Earning (userRowsIn info (w_db w))) as (Hu & Hus & Hup & Huk).
  pose proof (week_pool _ _ _ _ Hinfo) as Hpool.
  cbv zeta. split_and!.
  - intros n. unfold GetNodeOperatorEmissionEstimate. rewrite estimate_value. cbn beta. by rewrite <- Ho.
  - intros u. unfold GetUserDelegationEmissionEstimate. rewrite estimate_value. cbn beta. by rewrite <- Hu.
  - intros n. unfold GetNodeDelegationEmissionEstimate. rewrite estimate_value. cbn beta. by rewrite <- Hd.
  - intros u n net Hnul. unfold GetSingleDelegationEmissionEstimate. rewrite estimate_value. cbn beta. f_equal. f_equal.
    apply (store_groups stakingKey us_Earning singleName (stakingRowsIn info (w_db w)) (u, n, net)).
    assert (∀ k, k ∈ (u, n, net) :: map fst (groupBy stakingKey (stakingRowsIn info (w_db w))) →
      avoids (Ascii.ascii_of_N 0) (fst (fst k)) = true ∧ avoids (Ascii.ascii_of_N 0) (snd (fst k)) = true) as Hav.
    { intros k [->|Hk]%elem_of_cons; [apply Hnul; by left|]. apply Hnul. right. by apply groupBy_keys. }
    intros [[u1 n1] t1] [Hu1 Hn1]%Hav [[u2 n2] t2] [Hu2 Hn2]%Hav. by apply singleName_inj.
  - intros nodes users Hn Hus'. set (total := sn_totalTaskFee (snapshotOf info t (w_db w))).
    destruct (sum_keys _ nodes Hop Hn) as [Hnle Hneq]. destruct (sum_keys _ users Hup Hus') as [Hule Hueq].
    assert (total = map_sum (sn_operatorTaskFeeByNode (snapshotOf info t (w_db w))) +
                    map_sum (sn_delegationTaskFeeByUser (snapshotOf info t (w_db w)))) as Htot.
    { cbn [snapshotOf sn_operatorTaskFeeByNode sn_delegationTaskFeeByUser]. by rewrite Hos, Hus. }
    set (sn := snapshotOf info t (w_db w)) in *.
    rewrite (estimates_sum sn (GetNodeOperatorEmissionEstimate sn) sn_operatorTaskFeeByNode nodes),
      (estimates_sum sn (GetUserDelegationEmissionEstimate sn) sn_delegationTaskFeeByUser users) by done.
    fold total. subst sn. cbn [snapshotOf sn_operatorTaskFeeByNode sn_delegationTaskFeeByUser sn_nodeEmissionPoolCNX] in Htot |- *.
    destruct (decide (total = 0)) as [H0|H0].
    { rewrite H0. rewrite !sumZ_zero by (intros; by rewrite Zdiv_0_r). split; [done|lia]. }
    destruct (shares (λ n, default 0 (foldl (storeRow ne_OperatorEarning (λ k, k)) ∅
        (groupBy ne_NodeAddress (nodeRowsIn info (w_db w))) !! n))
      (λ u, default 0 (foldl (storeRow ue_Earning (λ k, k)) ∅ (groupBy ue_UserAddress (userRowsIn info (w_db w))) !! u))
      nodes users (wi_NodeEmissionPoolCNX info) total Hpool ltac:(lia)) as [Hup' Hlow].
    split; [apply Hup'; lia|]. intros _ Hcn Hcu. apply Hlow. rewrite Htot, Hneq, Hueq; [done| |].
    + intros k Hk. apply Huk in Hk. by apply (rowsOf_covered ue_UserAddress (userRowsIn info (w_db w))).
    + intros k Hk. apply Hok in Hk. by apply (rowsOf_covered ne_NodeAddress (nodeRowsIn info (w_db w))).
  - intros n. rewrite <- Hd. apply (weekly_fee_bounds (snapshotOf info t (w_db w))). cbn [snapshotOf sn_delegationTaskFeeByNode]. rewrite Hd.
    unfold feeOf. lia.
Qed.
(** Ten weeks after the start: two nodes and one delegator earned in the week. *)
Definition demo_earned : World :=
  mkWorld (empty_db
    <| db_node_earnings := [mkNodeEarning "0xa" 70 20 (Some (20676 * day)); mkNodeEarning "0xa" 70 20 None;
                            mkNodeEarning "0xb" 10 0 (Some (20677 * day)); mkNodeEarning "0xb" 5 0 (Some (20600 * day))] |>
    <| db_user_earnings := [mkUserEarning "0xu" 20 (Some (20676 * day))] |>
    <| db_user_staking_earnings := [mkUserStakingEarning "0xu" "0xa" "base" 20 (Some (20676 * day))] |>)
    empty_caches 0 0.

Lemma emission_estimates_within_pool_witness :
  ∃ sn, fst (RefreshCurrentEmissionEstimateSnapshot (E:=demo_env) demo_parse (20678 * day) "2026-06-01T00:00:00Z" demo_earned) = Ok sn ∧
    sn_totalTaskFee sn = 100 ∧ er_EstimatedEmission (GetNodeOperatorEmissionEstimate sn "0xa") = 945454 ∧
    sumZ (λ n, er_EstimatedEmission (GetNodeOperatorEmissionEstimate sn n)) ["0xa"; "0xb"] +
    sumZ (λ u, er_EstimatedEmission (GetUserDelegationEmissionEstimate sn u)) ["0xu"] ≤ 1350649.
Proof.
  destruct (RefreshCurrentEmissionEstimateSnapshot (E:=demo_env) demo_parse (20678 * day) "2026-06-01T00:00:00Z" demo_earned)
    as [[sn|e] w'] eqn:Hr; [|by vm_compute in Hr].
  exists sn. split; [done|].
  destruct (emission_estimates_within_pool (E:=demo_env) demo_parse (20678 * day) "2026-06-01T00:00:00Z" demo_earned w' sn Hr)
    as (info & Hinfo & _ & _ & _ & _ & _ & Hpool & _).
  destruct (Hpool ["0xa"; "0xb"] ["0xu"] ltac:(apply (bool_decide_unpack _); by vm_compute)
    ltac:(apply (bool_decide_unpack _); by vm_compute)) as [Hle _].
  assert (wi_NodeEmissionPoolCNX info = 1350649) as Hp by (vm_compute in Hinfo; by injection Hinfo as <-).
  rewrite Hp in Hle. split; [by vm_compute in Hr; injection Hr as <- _|].
  split; [by vm_compute in Hr; injection Hr as <- _|]. exact Hle.
Defined.
End EmissionEstimate.
