(* ===== verification/TransactionManager.v ===== *)
(** * The transaction manager

    src/blockchain/transaction_sender.go, transaction_confirmer.go, client.go and
    src/models/blockchain_transaction.go: queued transactions are polled from the
    database into an in-memory queue, broadcast, and polled again until their
    receipt is there; a transaction that failed or timed out is retried as a new
    row.

    The goroutines are interleaved at the points where they meet: a poll reads
    copies of rows, offers them one by one to a queue, and a consumer works them
    off; each of these is one step of [runOp], so a copy may be arbitrarily
    old when it is used.  The RPC endpoint is the class [Rpc]. *)

From S2P Require Import Prelude Models Config Delegation VestingSchedule Deadline MaxStaking.
From S2P Require Import Store Statistic Ledger LedgerCoherence LedgerSync Vesting Qos NodeState ChainEvents.

Module TransactionManager.
Import Deadline NodeState ChainEvents.

(** ** Definitions *)

(** What a blockchain node answers: the hash of a transaction signed and sent
    with a nonce or the text of the error, the next nonce of the relay account,
    and why a transaction was reverted. *)
Class Rpc := {
  rpc_send : nat → string → BlockchainTransaction → Z → string + string;
  rpc_pending_nonce : nat → string → result Z;
  rpc_revert_reason : nat → BlockchainTransaction → result string
}.

(** *** Rows, src/models/blockchain_transaction.go *)

(** [GetPendingTransactions] and [GetSentTransactions],
    src/models/blockchain_transaction.go 79-100 *)
Definition transactionPage (status : TransactionStatus) (offset limit : nat) (d : DB) : list BlockchainTransaction :=
  take limit (drop offset (select_where (λ tx, bool_decide (bt_Status tx = status)) (db_chain_txs d))).

Section rows.
Context {E : Env}.

(** [Update], src/models/blockchain_transaction.go 65-76: the hashes are
    unique *)
Definition updateTransaction (tx : BlockchainTransaction) (txHash : option string)
    (f : BlockchainTransaction → BlockchainTransaction) : M unit :=
  if bt_ID tx =? 0 then fail ErrRecordNotFound
  else
    db_exec (λ d,
      if bool_decide (is_Some txHash) &&
         existsb (λ r, negb (bt_ID r =? bt_ID tx) && bool_decide (bt_TxHash r = txHash)) (db_chain_txs d)
      then Err ErrDuplicatedKey
      else Ok (tt, d <| db_chain_txs := update_where (λ r, bt_ID r =? bt_ID tx) f (db_chain_txs d) |>)).

(** The columns [MarkSent] updates, src/models/blockchain_transaction.go 133-138 *)
Definition markedSent (txHash : string) (nonce : Z) (t : Time) (r : BlockchainTransaction) : BlockchainTransaction :=
  r <| bt_Status := TransactionStatusSent |> <| bt_TxHash := Some txHash |>
    <| bt_Nonce := Some nonce |> <| bt_SentAt := Some t |>.

(** [MarkSent], src/models/blockchain_transaction.go 132-141 *)
Definition MarkSent (tx : BlockchainTransaction) (txHash : string) (nonce : Z) : M unit :=
  t ← now;
  updateTransaction tx (Some txHash) (markedSent txHash nonce t).

(** The columns [MarkConfirmed] updates, src/models/blockchain_transaction.go
    144-150 *)
Definition markedConfirmed (t : Time) (r : BlockchainTransaction) : BlockchainTransaction :=
  r <| bt_Status := TransactionStatusConfirmed |> <| bt_ConfirmedAt := Some t |>.

(** [MarkConfirmed], src/models/blockchain_transaction.go 143-153 *)
Definition MarkConfirmed (tx : BlockchainTransaction) : M unit :=
  t ← now;
  updateTransaction tx None (markedConfirmed t).

(** The hash that makes room for a retry, src/models/blockchain_transaction.go
    165-167 *)
Definition retiredHash (tx : BlockchainTransaction) : option string :=
  (λ h, h +:+ "_" +:+ format_Z (bt_RetryCount tx)) <$> bt_TxHash tx.

(** The columns [MarkFailed] updates, src/models/blockchain_transaction.go
    156-167 *)
Definition markedFailed (tx : BlockchainTransaction) (message : string) (t : Time) (r : BlockchainTransaction)
    : BlockchainTransaction :=
  let r := r <| bt_Status := TransactionStatusFailed |> <| bt_FailedAt := Some t |>
             <| bt_StatusMessage := Some message |> in
  match retiredHash tx with
  | None => r
  | Some h => r <| bt_TxHash := Some h |>
  end.

(** [MarkFailed], src/models/blockchain_transaction.go 155-170 *)
Definition MarkFailed (tx : BlockchainTransaction) (message : string) : M unit :=
  t ← now;
  updateTransaction tx (retiredHash tx) (markedFailed tx message t).

(** The retry of a transaction, src/models/blockchain_transaction.go 178-196.
    [NextRetryAt] is a [sql.NullTime] without [Valid], which is stored as
    NULL. *)
Definition retryTransaction (tx : BlockchainTransaction) (id : Z) (createdAt : Time) : BlockchainTransaction :=
  mkBlockchainTransaction id createdAt (bt_Network tx) (bt_Type tx) TransactionStatusPending
    (bt_FromAddress tx) (bt_ToAddress tx) (bt_Value tx) (bt_CallNode tx) (bt_CallDelegators tx)
    None None None ((bt_RetryCount tx + 1) mod 256) (bt_MaxRetries tx)
    (match bt_RetryTransactionID tx with Some origin => Some origin | None => Some (bt_ID tx) end)
    None None None None.

(** [CreateRetryTransaction], src/models/blockchain_transaction.go 172-201 *)
Definition CreateRetryTransaction (tx : BlockchainTransaction) : M unit :=
  match assoc (bt_Network tx) (Blockchains env_cfg) with
  | None => fail (ErrMsg "network not found")
  | Some _ =>
      _ ← now;
      createdAt ← now;
      db_write (λ d, d <| db_chain_txs :=
        db_chain_txs d ++ [retryTransaction tx (next_id bt_ID (db_chain_txs d)) createdAt] |>)
  end.

(** [GetSentTransactionCountByNetwork], src/models/blockchain_transaction.go
    102-110 *)
Definition isSentOn (network : string) (tx : BlockchainTransaction) : bool :=
  String.eqb (bt_Network tx) network && bool_decide (bt_Status tx = TransactionStatusSent).
Definition sentCount (network : string) (d : DB) : Z := count_where (isSentOn network) (db_chain_txs d).
End rows.

(** *** The client, src/blockchain/client.go *)

Definition lower_char (c : Ascii.ascii) : Ascii.ascii :=
  let n := Ascii.nat_of_ascii c in
  if (65 <=? n)%nat && (n <=? 90)%nat then Ascii.ascii_of_nat (n + 32) else c.
Fixpoint lower (s : string) : string :=
  match s with EmptyString => EmptyString | String c s => String (lower_char c) (lower s) end.

(** [matchNonceError], src/blockchain/client.go 234-237: the pattern
    [(?i)nonce] *)
Definition matchNonceError (errStr : string) : bool :=
  match String.index 0 "nonce" (lower errStr) with Some _ => true | None => false end.

(** [processSendingTxError], src/blockchain/client.go 239-244, on the cached
    nonce *)
Definition processSendingTxError (errStr : string) (nonce : option Z) : option Z :=
  if matchNonceError errStr then None else nonce.

(** *** The sender, src/blockchain/transaction_sender.go *)

(** What a call of [sendTransaction] did on the chain: nothing, a broadcast that
    was recorded, or a broadcast that could not be recorded. *)
Inductive SendOutcome := NotSent | SentRecorded | SentUnrecorded.

Section send.
Context {E : Env} {R : Rpc}.

(** [GetNonce], src/blockchain/client.go 219-228 *)
Definition GetNonce (network : string) (nonce : option Z) : M Z :=
  match nonce with
  | Some n => mret n
  | None => ask (λ i, rpc_pending_nonce i network)
  end.

(** [sendTransaction], src/blockchain/transaction_sender.go 144-218, with the
    cached nonce of the client before and after; the error of the Go function is
    the first component *)
Definition sendTransaction (transaction : BlockchainTransaction) (nonce : option Z)
    : M (result unit * option Z * SendOutcome) :=
  if negb (bool_decide (bt_Status transaction = TransactionStatusPending)) then mret (Ok tt, nonce, NotSent)
  else if bool_decide (is_Some (bt_TxHash transaction)) then mret (Ok tt, nonce, NotSent)
  else
    early ← (match bt_NextRetryAt transaction with
             | None => mret false
             | Some at_ => t ← now; mret (t <? at_)
             end);
    if early : bool then mret (Ok tt, nonce, NotSent)
    else
      match assoc (bt_Network transaction) (Blockchains env_cfg) with
      | None => mret (Err (ErrMsg "network not found"), nonce, NotSent)
      | Some blockchain =>
          t ← now;
          if time_add (bt_CreatedAt transaction) (seconds (bc_SendWaitTime blockchain)) <? t then
            r ← try_ (MarkFailed transaction "Transaction send timeout");
            mret (r, nonce, NotSent)
          else
            count ← try_ (db_read (sentCount (bt_Network transaction)));
            match count with
            | Err e => mret (Err e, nonce, NotSent)
            | Ok count =>
                if negb (env_client (bt_Network transaction)) then mret (Err (ErrMsg "blockchain not found"), nonce, NotSent)
                else if bc_SentTransactionCountLimit blockchain <=? count then mret (Ok tt, nonce, NotSent)
                else
                  got ← try_ (GetNonce (bt_Network transaction) nonce);
                  match got with
                  | Err e => mret (Err e, nonce, NotSent)
                  | Ok n =>
                      if negb (String.eqb (bt_FromAddress transaction) (bc_AccountAddress blockchain)) then
                        mret (Err (ErrMsg "from address is not the same as the client address"), Some n, NotSent)
                      else
                        sent ← ask (λ i, Ok (rpc_send i (bt_Network transaction) transaction n));
                        match sent with
                        | inr text => mret (Err (ErrMsg text), processSendingTxError text (Some n), NotSent)
                        | inl txHash =>
                            r ← try_ (MarkSent transaction txHash n);
                            match r with
                            | Err e => mret (Err e, Some n, SentUnrecorded)
                            | Ok _ => mret (Ok tt, Some ((n + 1) mod 2 ^ 64), SentRecorded)
                            end
                        end
                  end
            end
      end.

(** *** The confirmer, src/blockchain/transaction_confirmer.go *)

(** The failed row and its retry in one transaction,
    src/blockchain/transaction_confirmer.go 240-250 *)
Definition failAndRetry (tx : BlockchainTransaction) (message : string) : M unit :=
  transaction (
    MarkFailed tx message;;
    if bt_RetryCount tx <? bt_MaxRetries tx then CreateRetryTransaction tx else mret tt).

(** [confirmTransaction], src/blockchain/transaction_confirmer.go 151-218, with
    [handleSuccessfulTransaction], [handleFailedTransaction] and
    [handleTimedOutTransaction], 221-276 *)
Definition confirmTransaction (tx : BlockchainTransaction) (nonce : option Z) : M (result unit * option Z) :=
  match bt_TxHash tx, bt_SentAt tx with
  | None, _ | _, None => mret (Ok tt, nonce)
  | Some txHash, Some sentAt =>
      match assoc (bt_Network tx) (Blockchains env_cfg) with
      | None => mret (Err (ErrMsg "network not found"), nonce)
      | Some blockchain =>
          if negb (env_client (bt_Network tx)) then mret (Err (ErrMsg "blockchain not found"), nonce)
          else
            t ← now;
            if time_add sentAt (seconds (bc_ReceiptWaitTime blockchain)) <? t then
              r ← try_ (failAndRetry tx "Transaction wait receipt timeout");
              mret (r, if is_ok r then None else nonce)
            else
              receipt ← try_ (ask (λ i, env_receipt i (bt_Network tx) txHash));
              match receipt with
              | Err e => mret (Err e, nonce)
              | Ok None => mret (Ok tt, nonce)
              | Ok (Some receipt) =>
                  if rc_Status receipt =? 1 then
                    r ← try_ (MarkConfirmed tx);
                    mret (r, nonce)
                  else
                    reason ← try_ (ask (λ i, rpc_revert_reason i tx));
                    r ← try_ (failAndRetry tx (match reason with
                                               | Ok text => text
                                               | Err _ => "Transaction failed with status 0"
                                               end));
                    mret (r, nonce)
              end
      end
  end.

(** *** Polling *)

(** [batchSize] and the capacity of [txQueue],
    src/blockchain/transaction_sender.go 34-37 *)
Definition batchSize : nat := 50.
Definition queueCapacity : nat := 100.

(** The loop over the pages, src/blockchain/transaction_sender.go 93-109 and
    transaction_confirmer.go 95-111 *)
Fixpoint fetchPages (status : TransactionStatus) (fuel offset : nat) (all : list BlockchainTransaction)
    : M (list BlockchainTransaction) :=
  match fuel with
  | O => mret all
  | S fuel =>
      page ← db_read (transactionPage status offset batchSize);
      if bool_decide (page = []) then mret all
      else fetchPages status fuel (offset + length page) (all ++ page)
  end.
End send.

(** One of the two workers: the rows read by a poll and not yet offered, the
    queue, and [processingTxs]. *)
Record Worker := mkWorker {
  wk_fetched : list BlockchainTransaction;
  wk_txQueue : list BlockchainTransaction;
  wk_processingTxs : gset Z
}.

(** The manager: the sender, the confirmer and the cached nonces of the clients;
    [tm_broadcast] and [tm_unrecorded] remember the rows that were broadcast and
    those whose broadcast was not recorded. *)
Record TransactionManager := mkManager {
  tm_sender : Worker;
  tm_confirmer : Worker;
  tm_Nonce : gmap string Z;
  tm_broadcast : list Z;
  tm_unrecorded : list Z
}.

#[export] Instance eta_worker : Eta Worker := λ r, mkWorker (wk_fetched r) (wk_txQueue r) (wk_processingTxs r).
#[export] Instance eta_manager : Eta TransactionManager := λ r,
  mkManager (tm_sender r) (tm_confirmer r) (tm_Nonce r) (tm_broadcast r) (tm_unrecorded r).

(** [LoadOrStore] and the send to [txQueue], src/blockchain/transaction_sender.go
    118-128: a row in progress is skipped, and a full queue blocks *)
Definition offer (wk : Worker) : Worker :=
  match wk_fetched wk with
  | [] => wk
  | tx :: rest =>
      if bool_decide (bt_ID tx ∈ wk_processingTxs wk) then wk <| wk_fetched := rest |>
      else if (queueCapacity <=? length (wk_txQueue wk))%nat then wk
      else mkWorker rest (wk_txQueue wk ++ [tx]) ({[bt_ID tx]} ∪ wk_processingTxs wk)
  end.

(** [defer processingTxs.Delete(transaction.ID)],
    src/blockchain/transaction_sender.go 145-147 *)
Definition finish (i : nat) (tx : BlockchainTransaction) (wk : Worker) : Worker :=
  mkWorker (wk_fetched wk) (delete i (wk_txQueue wk)) (wk_processingTxs wk ∖ {[bt_ID tx]}).

Inductive TxOp :=
| OpQueueStaking (kind nodeAddress network : string)
| OpQueueDelegations (nodeAddress : string) (delegators : list string) (network : string)
| OpPollPending
| OpOfferPending
| OpSend
| OpPollSent
| OpOfferSent
| OpConfirm (i : nat).

Section run.
Context {E : Env} {R : Rpc}.

(** A tick of a poller, src/blockchain/transaction_sender.go 91-116 and
    transaction_confirmer.go 93-118: a failed read skips the tick *)
Definition poll (status : TransactionStatus) (wk : Worker) (w : World) : Worker * World :=
  match wk_fetched wk with
  | _ :: _ => (wk, w)
  | [] =>
      let '(r, w') := fetchPages status (S (length (db_chain_txs (w_db w)))) 0 [] w in
      (match r with Ok rows => wk <| wk_fetched := rows |> | Err _ => wk end, w')
  end.

Definition setNonce (network : string) (n : option Z) (m : gmap string Z) : gmap string Z :=
  match n with Some n => <[network := n]> m | None => delete network m end.

(** The consumer of the sender, src/blockchain/transaction_sender.go 135-141 *)
Definition sendNext (m : TransactionManager) (w : World) : TransactionManager * World :=
  match wk_txQueue (tm_sender m) with
  | [] => (m, w)
  | tx :: _ =>
      match sendTransaction tx (tm_Nonce m !! bt_Network tx) w with
      | (Ok (_, n, outcome), w') =>
          let m := m <| tm_sender := finish 0 tx (tm_sender m) |>
                     <| tm_Nonce := setNonce (bt_Network tx) n (tm_Nonce m) |> in
          (match outcome with
           | NotSent => m
           | SentRecorded => m <| tm_broadcast := bt_ID tx :: tm_broadcast m |>
           | SentUnrecorded => m <| tm_broadcast := bt_ID tx :: tm_broadcast m |>
                                 <| tm_unrecorded := bt_ID tx :: tm_unrecorded m |>
           end, w')
      | (Err _, w') => (m <| tm_sender := finish 0 tx (tm_sender m) |>, w')
      end
  end.

(** The consumers of the confirmer, src/blockchain/transaction_confirmer.go
    136-148: up to ten run at once and end in any order *)
Definition confirmNext (i : nat) (m : TransactionManager) (w : World) : TransactionManager * World :=
  match wk_txQueue (tm_confirmer m) !! i with
  | None => (m, w)
  | Some tx =>
      match confirmTransaction tx (tm_Nonce m !! bt_Network tx) w with
      | (Ok (_, n), w') =>
          (m <| tm_confirmer := finish i tx (tm_confirmer m) |>
             <| tm_Nonce := setNonce (bt_Network tx) n (tm_Nonce m) |>, w')
      | (Err _, w') => (m <| tm_confirmer := finish i tx (tm_confirmer m) |>, w')
      end
  end.

Definition runOp (op : TxOp) (s : TransactionManager * World) : TransactionManager * World :=
  let '(m, w) := s in
  match op with
  | OpQueueStaking kind nodeAddress network => (m, snd (queueTransaction kind nodeAddress network w))
  | OpQueueDelegations nodeAddress delegators network => (m, snd (SlashNodeDelegations nodeAddress delegators network w))
  | OpPollPending =>
      let '(wk, w') := poll TransactionStatusPending (tm_sender m) w in (m <| tm_sender := wk |>, w')
  | OpOfferPending => (m <| tm_sender := offer (tm_sender m) |>, w)
  | OpSend => sendNext m w
  | OpPollSent =>
      let '(wk, w') := poll TransactionStatusSent (tm_confirmer m) w in (m <| tm_confirmer := wk |>, w')
  | OpOfferSent => (m <| tm_confirmer := offer (tm_confirmer m) |>, w)
  | OpConfirm i => confirmNext i m w
  end.

Definition runOps (ops : list TxOp) (s : TransactionManager * World) : TransactionManager * World :=
  foldl (λ s op, runOp op s) s ops.
End run.

(** ** Properties *)

Abbreviation rows w := (db_chain_txs (w_db w)) (only parsing).

(** A row update. *)
Definition touched (tx : BlockchainTransaction) (f : BlockchainTransaction → BlockchainTransaction)
    (l : list BlockchainTransaction) : list BlockchainTransaction :=
  update_where (λ r, bt_ID r =? bt_ID tx) f l.

Section effects.
Context {E : Env} {R : Rpc}.

Lemma wp_ask_ok {A} (f : nat → A) (Q : result A → World → Prop) w :
  (∀ a, Q (Ok a) (tick w)) → wp (ask (λ n, Ok (f n))) Q w.
Proof. intros HQ. apply HQ. Qed.

Lemma wp_update tx h f (Q : result unit → World → Prop) w :
  (∀ e w', w_db w' = w_db w → Q (Err e) w') →
  (∀ w', w_db w' = (w_db w) <| db_chain_txs := touched tx f (rows w) |> → Q (Ok tt) w') →
  wp (updateTransaction tx h f) Q w.
Proof.
  intros Herr Hok. unfold updateTransaction. case_bool; [wp_step; by apply Herr|].
  apply wp_db_exec; [by apply Herr|]. case_match; [case_match; simplify_eq; by apply Hok|case_match; simplify_eq; by apply Herr].
Qed.

(** What sending a copy does to the rows. *)
Definition send_result (tx : BlockchainTransaction) (outcome : SendOutcome) (w w' : World) : Prop :=
  (outcome ≠ NotSent → bt_Status tx = TransactionStatusPending) ∧
  match outcome with
  | NotSent => rows w' = rows w ∨ ∃ message t, rows w' = touched tx (markedFailed tx message t) (rows w)
  | SentUnrecorded => rows w' = rows w
  | SentRecorded => ∃ txHash nonce t blockchain, assoc (bt_Network tx) (Blockchains env_cfg) = Some blockchain ∧
      sentCount (bt_Network tx) (w_db w) < bc_SentTransactionCountLimit blockchain ∧
      rows w' = touched tx (markedSent txHash nonce t) (rows w)
  end.

Lemma send_effect tx nonce w :
  wp (sendTransaction tx nonce) (λ r w', ∃ res n outcome, r = Ok (res, n, outcome) ∧ send_result tx outcome w w') w.
Proof.
  assert (Hno : ∀ (res : result unit) (n : option Z) (w' : World), rows w' = rows w →
    ∃ res' n' outcome, Ok (res, n, NotSent) = Ok (res', n', outcome) ∧ send_result tx outcome w w').
  { intros res n w' Hw. exists res, n, NotSent. split; [done|]. split; [done|]. by left. }
  unfold sendTransaction. case_bool; [wp_step; by apply Hno|]. case_bool; [wp_step; by apply Hno|].
  wp_step. eapply (wp_mono _ (λ r w1, is_ok r = true ∧ rows w1 = rows w)).
  { case_match; repeat wp_step; done. }
  intros [early|e] w1 [Hok Hw1]; [|done]. destruct early; [wp_step; by apply Hno|].
  destruct (assoc (bt_Network tx) (Blockchains env_cfg)) as [blockchain|] eqn:Hbc; [|wp_step; by apply Hno].
  wp_step. wp_step. case_bool.
  { wp_step. wp_step. unfold MarkFailed. wp_step. wp_step. apply wp_update.
    - intros e w' Hd. wp_step. apply Hno. rewrite Hd. exact Hw1.
    - intros w' Hd. wp_step. do 3 eexists. split; [done|]. split; [done|]. right. do 2 eexists. rewrite Hd. simpl. by rewrite Hw1. }
  wp_step. wp_step. wp_step; cbn beta iota; [wp_step; by apply Hno|].
  case_bool; [wp_step; by apply Hno|]. case_bool; [wp_step; by apply Hno|].
  wp_step. wp_step. eapply (wp_mono _ (λ _ w2, rows w2 = rows w)).
  { unfold GetNonce. case_match; [by wp_step|]. wp_step. done. }
  intros [n|e] w2 Hw2; [|wp_step; by apply Hno]. case_bool; [wp_step; by apply Hno|].
  wp_step. apply wp_ask_ok. intros [txHash|text]; [|wp_step; by apply Hno].
  wp_step. wp_step. unfold MarkSent. wp_step. wp_step. apply wp_update.
  - intros e w' Hd. wp_step. do 3 eexists. split; [done|]. split; [done|]. rewrite Hd. exact Hw2.
  - intros w' Hd. wp_step. do 3 eexists. split; [done|]. split; [done|]. do 4 eexists. split; [exact Hbc|].
    split; [|rewrite Hd; simpl; by rewrite Hw2]. unfold sentCount in *. rewrite <- Hw1. assumption.
Qed.

(** What confirming a copy does to the rows. *)
Definition confirm_result (tx : BlockchainTransaction) (w w' : World) : Prop :=
  rows w' = rows w ∨
  (bt_TxHash tx ≠ None ∧
   ((∃ t, rows w' = touched tx (markedConfirmed t) (rows w)) ∨
    (∃ message t, rows w' = touched tx (markedFailed tx message t) (rows w) ∧ bt_MaxRetries tx ≤ bt_RetryCount tx) ∨
    (∃ message t createdAt, bt_RetryCount tx < bt_MaxRetries tx ∧
      let l := touched tx (markedFailed tx message t) (rows w) in
      rows w' = l ++ [retryTransaction tx (next_id bt_ID l) createdAt]))).

Lemma failAndRetry_effect tx message w :
  bt_TxHash tx ≠ None → wp (failAndRetry tx message) (λ _ w', confirm_result tx w w') w.
Proof.
  intros Hh. unfold failAndRetry. apply wp_transaction; [by left|]. wp_step. unfold MarkFailed. wp_step. wp_step.
  apply wp_update; [intros e w' Hd; by left|]. intros w' Hd. case_bool.
  - unfold CreateRetryTransaction. destruct (assoc _ _); [|wp_step; by left].
    wp_step. wp_step. wp_step. wp_step. wp_step; [by left|]. simpl. split; [by left|].
    right. split; [done|]. right. right. do 3 eexists. split; [lia|]. simpl. by rewrite Hd.
  - wp_step. split; [by left|]. right. split; [done|]. right. left. do 2 eexists. split; [simpl; by rewrite Hd|lia].
Qed.

Lemma confirm_effect tx nonce w :
  wp (confirmTransaction tx nonce) (λ r w', is_ok r = true ∧ confirm_result tx w w') w.
Proof.
  assert (Hno : ∀ (r : result (result unit * option Z)) (w' : World), is_ok r = true → rows w' = rows w →
    is_ok r = true ∧ confirm_result tx w w') by (intros; split; [done|by left]).
  assert (Htr : ∀ message (w1 : World) (n : result unit → option Z), rows w1 = rows w → bt_TxHash tx ≠ None →
    wp (r ← try_ (failAndRetry tx message); mret (r, n r)) (λ r w', is_ok r = true ∧ confirm_result tx w w') w1).
  { intros message w1 n Hw1 Hh. wp_step. wp_step. eapply wp_mono; [by apply failAndRetry_effect|].
    intros r w' Hr. wp_step. split; [done|]. unfold confirm_result in *. by rewrite Hw1 in Hr. }
  unfold confirmTransaction. destruct (bt_TxHash tx) as [txHash|] eqn:Hh; [|wp_step; by apply Hno].
  destruct (bt_SentAt tx) as [sentAt|]; [|wp_step; by apply Hno].
  destruct (assoc _ _) as [blockchain|]; [|wp_step; by apply Hno]. case_bool; [wp_step; by apply Hno|].
  wp_step. wp_step. case_bool; [apply (Htr _ _ (λ r, if is_ok r then None else nonce)); [done|congruence]|].
  wp_step. wp_step. apply wp_ask. intros [[receipt|]|e]; [|wp_step; by apply Hno..].
  case_bool.
  - wp_step. wp_step. unfold MarkConfirmed. wp_step. wp_step. apply wp_update; intros; wp_step.
    + apply Hno; [done|]. by rewrite H.
    + split; [done|]. right. split; [congruence|]. left. eexists. by rewrite H.
  - wp_step. wp_step. apply wp_ask. intros reason. apply (Htr _ _ (λ _, nonce)); [done|congruence].
Qed.
End effects.

(** *** What never changes in a row *)

(** A row without the columns the workers update. *)
Definition static (r : BlockchainTransaction) : BlockchainTransaction :=
  r <| bt_Status := TransactionStatusPending |> <| bt_TxHash := None |> <| bt_Nonce := None |>
    <| bt_StatusMessage := None |> <| bt_SentAt := None |> <| bt_ConfirmedAt := None |> <| bt_FailedAt := None |>.

Lemma static_touched tx f l : (∀ r, static (f r) = static r) → map static (touched tx f l) = map static l.
Proof. intros Hf. apply map_update_same. auto. Qed.

Lemma static_sent h n t r : static (markedSent h n t r) = static r.
Proof. done. Qed.
Lemma static_confirmed t r : static (markedConfirmed t r) = static r.
Proof. done. Qed.
Lemma static_failed tx m t r : static (markedFailed tx m t r) = static r.
Proof. unfold markedFailed. by destruct (retiredHash tx). Qed.

#[local] Hint Resolve static_sent static_confirmed static_failed : core.

(** Two rows that make the same call. *)
Definition same_call (r r' : BlockchainTransaction) : Prop :=
  bt_Network r = bt_Network r' ∧ bt_Type r = bt_Type r' ∧ bt_FromAddress r = bt_FromAddress r' ∧
  bt_ToAddress r = bt_ToAddress r' ∧ bt_Value r = bt_Value r' ∧ bt_CallNode r = bt_CallNode r' ∧
  bt_CallDelegators r = bt_CallDelegators r' ∧ bt_MaxRetries r = bt_MaxRetries r'.

(** A row in a table: its retries are counted within the limit, it may be sent at once, and
    when it is a retry it repeats the call of a row that is not one. *)
Definition row_ok (l : list BlockchainTransaction) (r : BlockchainTransaction) : Prop :=
  0 < bt_ID r ∧ 0 ≤ bt_RetryCount r ≤ bt_MaxRetries r ∧ bt_MaxRetries r ≤ 255 ∧ bt_NextRetryAt r = None ∧
  match bt_RetryTransactionID r with
  | None => bt_RetryCount r = 0
  | Some origin => 0 < bt_RetryCount r ∧
      ∃ r0, r0 ∈ l ∧ bt_ID r0 = origin ∧ bt_RetryTransactionID r0 = None ∧ same_call r0 r
  end.

Definition table_ok (l : list BlockchainTransaction) : Prop :=
  NoDup (map bt_ID l) ∧ ∀ r, r ∈ l → row_ok l r.

Lemma row_ok_app l l' r : row_ok l r → row_ok (l ++ l') r.
Proof.
  intros (H1 & H2 & H3 & H4 & H5). do 4 (split; [done|]). destruct (bt_RetryTransactionID r); [|done].
  destruct H5 as (Hc & r0 & Hr0 & H). split; [done|]. exists r0. split; [set_solver|done].
Qed.

Lemma table_ok_app l r : table_ok l → row_ok l r → bt_ID r = next_id bt_ID l → table_ok (l ++ [r]).
Proof.
  intros [Hnd Hl] Hr Hid. split.
  - rewrite map_app. apply NoDup_app. split_and!; [done| |apply NoDup_singleton].
    intros x (r' & Hr' & ->)%elem_of_map_iff Hx. apply list_elem_of_singleton in Hx. simpl in Hx.
    pose proof (next_id_fresh bt_ID l r' Hr'). lia.
  - intros r' [Hr'|Hr'%list_elem_of_singleton]%elem_of_app; [by apply row_ok_app, Hl|]. subst r'. by apply row_ok_app.
Qed.

Lemma next_id_static l : next_id bt_ID (map static l) = next_id bt_ID l.
Proof. unfold next_id. f_equal. induction l as [|r l IH]; [done|]. simpl. by rewrite IH. Qed.

(** The copy of a row. *)
Definition copy_of (l : list BlockchainTransaction) (c : BlockchainTransaction) : Prop := static c ∈ map static l.

Lemma retry_ok l c t :
  table_ok (map static l) → copy_of l c → bt_RetryCount c < bt_MaxRetries c →
  row_ok (map static l) (static (retryTransaction c (next_id bt_ID l) t)).
Proof.
  intros [Hnd Hl] Hc Hlt. destruct (Hl _ Hc) as (H1 & H2 & H3 & H4 & H5). simpl in H1, H2, H3, H4, H5.
  split; [apply next_id_pos|]. simpl. do 3 (split; [try rewrite Z.mod_small by lia; (done || lia)|]).
  destruct (bt_RetryTransactionID c) as [origin|] eqn:Hro; rewrite Z.mod_small by lia; (split; [lia|]).
  - destruct H5 as (_ & r0 & Hr0 & ? & ? & Hsame). exists r0. done.
  - exists (static c). split_and!; done.
Qed.

(** *** Polling reads every row of a status *)

Lemma take_drop_rest {A} n (l : list A) : take n l ++ drop (length (take n l)) l = l.
Proof.
  rewrite length_take. destruct (Nat.le_ge_cases n (length l)).
  - rewrite Nat.min_l by done. apply take_drop.
  - rewrite Nat.min_r, take_ge, drop_all by done. by rewrite app_nil_r.
Qed.

Lemma fetchPages_all `{E : Env} status fuel offset all w :
  let found := select_where (λ tx, bool_decide (bt_Status tx = status)) (rows w) in
  (length found < fuel + offset)%nat →
  wp (fetchPages status fuel offset all) (λ r w', w_db w' = w_db w ∧ ∀ l, r = Ok l → l = all ++ drop offset found) w.
Proof.
  intros found. assert (∀ w0 : World, w_db w0 = w_db w → (length found < fuel + offset)%nat →
    wp (fetchPages status fuel offset all) (λ r w', w_db w' = w_db w ∧ ∀ l, r = Ok l → l = all ++ drop offset found) w0)
    as H; [|by apply H].
  revert offset all. induction fuel as [|fuel IH]; intros offset all w0 Hw0 Hf; cbn [fetchPages].
  - wp_step. split; [done|]. intros l [= <-]. rewrite drop_ge by lia. by rewrite app_nil_r.
  - wp_step. apply wp_db_exec; [done|]. simpl.
    assert (transactionPage status offset batchSize (w_db w0) = take batchSize (drop offset found)) as ->
      by (unfold transactionPage; by rewrite Hw0).
    case_bool.
    + wp_step. split; [done|]. intros l [= <-]. destruct (drop offset found); [by rewrite app_nil_r|done].
    + assert (0 < length (take batchSize (drop offset found)))%nat as Hpos
        by (destruct (take batchSize (drop offset found)); [done|simpl; lia]).
      eapply wp_mono; [apply IH; [done|lia]|]. intros r w' [Hd Hl]. split; [done|]. intros l Hr. rewrite (Hl l Hr).
      rewrite <- app_assoc. f_equal. rewrite <- drop_drop. apply take_drop_rest.
Qed.

(** *** Counting the transactions under way *)

Lemma count_where_sum {A} (p : A → bool) t : count_where p t = sumZ (λ r, if p r then 1 else 0) t.
Proof.
  unfold count_where. induction t as [|r t IH]; [done|]. rewrite sumZ_cons. cbn [List.filter].
  destruct (p r); cbn [length]; lia.
Qed.

Lemma same_id_once l i : NoDup (map bt_ID l) → 0 ≤ sumZ (λ r, if bt_ID r =? i then 1 else 0) l ≤ 1.
Proof.
  induction l as [|r l IH]; [done|]. cbn [map]. intros [Hr Hnd]%NoDup_cons. specialize (IH Hnd). rewrite sumZ_cons.
  destruct (Z.eqb_spec (bt_ID r) i) as [Hi|]; [|lia].
  assert (sumZ (λ r, if bt_ID r =? i then 1 else 0) l = 0) as Hz; [|lia].
  apply sumZ_zero. intros r' Hr'. destruct (Z.eqb_spec (bt_ID r') i) as [He|]; [|done].
  destruct Hr. rewrite Hi, <- He. by apply elem_of_map_2.
Qed.

Lemma count_touched (p : BlockchainTransaction → bool) tx f l d :
  NoDup (map bt_ID l) → 0 ≤ d →
  (∀ r, r ∈ l → bt_ID r = bt_ID tx → (if p (f r) then 1 else 0) ≤ (if p r then 1 else 0) + d) →
  count_where p (touched tx f l) ≤ count_where p l + d.
Proof.
  intros Hnd Hd Hf. rewrite !count_where_sum. unfold touched. rewrite sumZ_update_where.
  transitivity (sumZ (λ r, (if p r then 1 else 0) + d * (if bt_ID r =? bt_ID tx then 1 else 0)) l).
  - apply sumZ_le. intros r Hr. destruct (Z.eqb_spec (bt_ID r) (bt_ID tx)) as [He|]; [|lia].
    specialize (Hf r Hr He). lia.
  - rewrite sumZ_plus, sumZ_mul. pose proof (same_id_once l (bt_ID tx) Hnd). nia.
Qed.

(** A copy has the fields of its row. *)
Lemma copy_row l c r : NoDup (map bt_ID l) → copy_of l c → r ∈ l → bt_ID r = bt_ID c → static r = static c.
Proof.
  intros Hnd (r' & Hr' & He)%elem_of_map_iff Hr Hid.
  assert (r' = r) as ->; [|done]. apply (NoDup_map_inj bt_ID l); [done..|].
  apply (f_equal bt_ID) in He. simpl in He. congruence.
Qed.

Section invariant.
Context {E : Env} {R : Rpc}.

Definition within_limit (l : list BlockchainTransaction) : Prop :=
  ∀ network blockchain, assoc network (Blockchains env_cfg) = Some blockchain →
    count_where (isSentOn network) l ≤ bc_SentTransactionCountLimit blockchain.

(** The copies the workers hold. *)
Definition copies (m : TransactionManager) : list BlockchainTransaction :=
  (wk_fetched (tm_sender m) ++ wk_txQueue (tm_sender m)) ++
  (wk_fetched (tm_confirmer m) ++ wk_txQueue (tm_confirmer m)).

Definition rows_inv (w : World) : Prop := table_ok (map static (rows w)) ∧ within_limit (rows w).

Definition tx_inv (s : TransactionManager * World) : Prop :=
  rows_inv (snd s) ∧ ∀ c, c ∈ copies (fst s) → copy_of (rows (snd s)) c.

Lemma ids_static l : map bt_ID (map static l) = map bt_ID l.
Proof. by rewrite map_map. Qed.

Lemma inv_same w w' : rows_inv w → rows w' = rows w → rows_inv w'.
Proof. unfold rows_inv. by intros ? ->. Qed.

(** An update that makes no row a sent one. *)
Lemma inv_down tx f w w' :
  rows_inv w → rows w' = touched tx f (rows w) → (∀ r, static (f r) = static r) →
  (∀ r, bt_Status (f r) ≠ TransactionStatusSent) → rows_inv w'.
Proof.
  intros [Hok Hlim] Hw' Hf Hst. unfold rows_inv. rewrite Hw'. rewrite static_touched by done. split; [done|].
  intros network blockchain Hbc. etransitivity; [|by apply (Hlim network blockchain)].
  rewrite <- (Z.add_0_r (count_where _ (rows w))). apply count_touched; [|lia|].
  { destruct Hok as [Hnd _]. by rewrite ids_static in Hnd. }
  intros r _ _. unfold isSentOn. rewrite (bool_decide_false (bt_Status (f r) = _)) by done. rewrite andb_false_r. by case_match.
Qed.

Lemma inv_sent tx h n t blockchain w w' :
  rows_inv w → copy_of (rows w) tx → rows w' = touched tx (markedSent h n t) (rows w) →
  assoc (bt_Network tx) (Blockchains env_cfg) = Some blockchain →
  sentCount (bt_Network tx) (w_db w) < bc_SentTransactionCountLimit blockchain → rows_inv w'.
Proof.
  intros [Hok Hlim] Hc Hw' Hbc Hlt. unfold rows_inv. rewrite Hw'. rewrite static_touched by done. split; [done|].
  assert (NoDup (map bt_ID (rows w))) as Hnd by (destruct Hok as [Hnd _]; by rewrite ids_static in Hnd).
  intros network bc Hnet.
  destruct (decide (network = bt_Network tx)) as [->|Hne].
  - rewrite Hbc in Hnet. injection Hnet as <-. unfold sentCount in Hlt.
    pose proof (count_touched (isSentOn (bt_Network tx)) tx (markedSent h n t) (rows w) 1 Hnd) as Hct.
    assert (count_where (isSentOn (bt_Network tx)) (touched tx (markedSent h n t) (rows w)) ≤
      count_where (isSentOn (bt_Network tx)) (rows w) + 1); [|lia].
    apply Hct; [lia|]. intros r _ _. destruct (isSentOn _ _), (isSentOn _ _); lia.
  - etransitivity; [|by apply (Hlim network bc)].
    rewrite <- (Z.add_0_r (count_where _ (rows w))). apply count_touched; [done|lia|].
    intros r Hr Hid. pose proof (copy_row _ _ _ Hnd Hc Hr Hid) as Hst. apply (f_equal bt_Network) in Hst.
    unfold isSentOn. simpl. simpl in Hst. rewrite Hst. destruct (String.eqb_spec (bt_Network tx) network); [by subst|done].
Qed.

Lemma inv_append r w w' :
  rows_inv w → rows w' = rows w ++ [r] → row_ok (map static (rows w)) (static r) →
  bt_ID r = next_id bt_ID (rows w) → bt_Status r = TransactionStatusPending → rows_inv w'.
Proof.
  intros [Hok Hlim] Hw' Hr Hid Hst. unfold rows_inv. rewrite Hw', map_app. split.
  - apply table_ok_app; [done..|]. by rewrite next_id_static.
  - intros network bc Hnet. rewrite count_where_sum, sumZ_app, <- count_where_sum, sumZ_cons.
    unfold isSentOn at 2. rewrite (bool_decide_false (bt_Status r = _)) by (by rewrite Hst). rewrite andb_false_r.
    specialize (Hlim network bc Hnet). cbn. lia.
Qed.

Definition cfg_ok : Prop :=
  ∀ network blockchain, assoc network (Blockchains env_cfg) = Some blockchain → 0 ≤ bc_MaxRetries blockchain ≤ 255.

(** The producers append a fresh row or nothing. *)
Definition queued (w w' : World) : Prop :=
  rows w' = rows w ∨
  ∃ t network kind from to node delegators blockchain, assoc network (Blockchains env_cfg) = Some blockchain ∧
    rows w' = rows w ++ [newTransaction (next_id bt_ID (rows w)) t network kind from to node delegators (bc_MaxRetries blockchain)].

Lemma queue_effect kind node network w : wp (queueTransaction kind node network) (λ _ w', queued w w') w.
Proof.
  unfold queueTransaction. destruct (assoc network (Blockchains env_cfg)) as [blockchain|] eqn:Hbc; [|wp_step; by left].
  wp_step. wp_step. wp_step; [by left|]. simpl. right. do 8 eexists. split; [exact Hbc|]. reflexivity.
Qed.

Lemma queue_delegations_effect node delegators network w :
  wp (SlashNodeDelegations node delegators network) (λ _ w', queued w w') w.
Proof.
  unfold SlashNodeDelegations. case_bool; [wp_step; by left|].
  destruct (assoc network (Blockchains env_cfg)) as [blockchain|] eqn:Hbc; [|wp_step; by left].
  wp_step. wp_step. wp_step; [by left|]. simpl. right. do 8 eexists. split; [exact Hbc|]. reflexivity.
Qed.

Lemma queued_inv w w' : cfg_ok → rows_inv w → queued w w' → rows_inv w'.
Proof.
  intros Hcfg Hw [Hq|(t & net & k & from & to & node & ds & bc & Hbc & Hq)]; [by eapply inv_same|].
  eapply inv_append; [done|exact Hq| |done|done]. specialize (Hcfg _ _ Hbc).
  split; [apply next_id_pos|]. simpl. split_and!; (done || lia).
Qed.

(** Rows are never removed and their fixed part never changes. *)
Definition extends (w w' : World) : Prop := ∃ new, map static (rows w') = map static (rows w) ++ new.

Lemma extends_refl w w' : rows w' = rows w → extends w w'.
Proof. intros H. exists []. by rewrite H, app_nil_r. Qed.

Lemma extends_touched tx f w w' : rows w' = touched tx f (rows w) → (∀ r, static (f r) = static r) → extends w w'.
Proof. intros H Hf. exists []. by rewrite H, static_touched, app_nil_r. Qed.

Lemma queued_extends w w' : queued w w' → extends w w'.
Proof.
  intros [H|(t & net & k & from & to & node & ds & bc & _ & H)]; [by apply extends_refl|].
  unfold extends. rewrite H, map_app. by eexists.
Qed.

Lemma extends_copy w w' c : extends w w' → copy_of (rows w) c → copy_of (rows w') c.
Proof. intros [new Hn] Hc. unfold copy_of in *. rewrite Hn. apply elem_of_app. by left. Qed.

Lemma send_inv tx outcome w w' :
  rows_inv w → copy_of (rows w) tx → send_result tx outcome w w' → rows_inv w' ∧ extends w w'.
Proof.
  intros Hw Hc [_ Hr]. destruct outcome.
  - destruct Hr as [Hr|(m & t & Hr)]; [split; [by eapply inv_same|by apply extends_refl]|].
    split; [|eapply extends_touched; eauto]. eapply inv_down; [done|exact Hr|auto|].
    intros r. unfold markedFailed. by destruct (retiredHash tx).
  - destruct Hr as (h & n & t & bc & Hbc & Hlt & Hr). split; [|eapply extends_touched; eauto]. by eapply inv_sent.
  - split; [by eapply inv_same|by apply extends_refl].
Qed.

Lemma confirm_inv tx w w' :
  rows_inv w → copy_of (rows w) tx → confirm_result tx w w' → rows_inv w' ∧ extends w w'.
Proof.
  intros Hw Hc [Hr|[_ [(t & Hr)|[(m & t & Hr & _)|(m & t & ct & Hlt & Hr)]]]].
  - split; [by eapply inv_same|by apply extends_refl].
  - split; [|eapply extends_touched; eauto]. by eapply inv_down.
  - split; [|eapply extends_touched; eauto]. eapply inv_down; [done|exact Hr|auto|].
    intros r. unfold markedFailed. by destruct (retiredHash tx).
  - cbv zeta in Hr. set (l := touched tx (markedFailed tx m t) (rows w)) in *.
    set (w1 := set_db ((w_db w) <| db_chain_txs := l |>) w).
    assert (rows w1 = l) as Hw1 by done.
    assert (rows_inv w1) as Hinv1.
    { eapply inv_down; [exact Hw|exact Hw1|auto|]. intros r. unfold markedFailed. by destruct (retiredHash tx). }
    assert (map static l = map static (rows w)) as Hst by (by apply static_touched; auto).
    split.
    + eapply (inv_append _ w1); [done|exact Hr| |done|done]. rewrite Hw1.
      apply retry_ok; [apply Hinv1| |done]. unfold copy_of. by rewrite Hst.
    + unfold extends. rewrite Hr, map_app, Hst. by eexists.
Qed.

Lemma offer_elem wk c : c ∈ wk_fetched (offer wk) ++ wk_txQueue (offer wk) → c ∈ wk_fetched wk ++ wk_txQueue wk.
Proof.
  unfold offer. destruct (wk_fetched wk) as [|tx rest] eqn:Hf; [by rewrite Hf|].
  case_bool; [simpl; rewrite ?Hf; set_solver|]. case_bool; [rewrite Hf; done|]. simpl. set_solver.
Qed.

Lemma finish_elem i tx wk c :
  c ∈ wk_fetched (finish i tx wk) ++ wk_txQueue (finish i tx wk) → c ∈ wk_fetched wk ++ wk_txQueue wk.
Proof.
  unfold finish. simpl. rewrite !elem_of_app. intros [?|Hc]; [by left|]. right.
  apply list_elem_of_lookup in Hc as [j Hj]. apply list_elem_of_lookup.
  destruct (decide (j < i)%nat); [rewrite list_lookup_delete_lt in Hj by done; eauto|].
  rewrite list_lookup_delete_ge in Hj by lia. eauto.
Qed.

Lemma poll_elem status wk w :
  let '(wk', w') := poll status wk w in
  rows w' = rows w ∧ ∀ c, c ∈ wk_fetched wk' ++ wk_txQueue wk' →
    c ∈ wk_fetched wk ++ wk_txQueue wk ∨ (c ∈ rows w ∧ bt_Status c = status).
Proof.
  unfold poll. destruct (wk_fetched wk) as [|tx rest] eqn:Hf; [|split; [done|]; rewrite Hf; by left].
  pose proof (fetchPages_all status (S (length (rows w))) 0 [] w) as Hp. cbv zeta in Hp. unfold wp in Hp.
  destruct (fetchPages status (S (length (rows w))) 0 [] w) as [[l|e] w'].
  - destruct Hp as [Hd Hl].
    { rewrite Nat.add_0_r. unfold select_where. pose proof (filter_length_le (λ tx, bool_decide (bt_Status tx = status)) (rows w)). lia. }
    simpl in Hd, Hl. split; [by rewrite Hd|]. intros c. simpl. rewrite (Hl l eq_refl). rewrite drop_0. simpl.
    intros [Hc|Hc]%elem_of_app; [right|by left; set_solver].
    apply elem_of_select in Hc as [? Hst%bool_decide_eq_true]. done.
  - destruct Hp as [Hd _].
    { rewrite Nat.add_0_r. unfold select_where. pose proof (filter_length_le (λ tx, bool_decide (bt_Status tx = status)) (rows w)). lia. }
    simpl in Hd. split; [by rewrite Hd|]. rewrite Hf. by left.
Qed.

(** Either worker's copies are copies. *)
Definition held (wk : Worker) : list BlockchainTransaction := wk_fetched wk ++ wk_txQueue wk.

Lemma copies_split m c : c ∈ copies m ↔ c ∈ held (tm_sender m) ∨ c ∈ held (tm_confirmer m).
Proof. apply elem_of_app. Qed.

(** A step on the rows and on one worker. *)
Lemma step_inv op s : cfg_ok → tx_inv s → tx_inv (runOp op s) ∧ extends (snd s) (snd (runOp op s)).
Proof.
  intros Hcfg. destruct s as [m w]. intros [Hw Hc]. cbn [fst snd] in Hw, Hc.
  assert (Hkeep : ∀ m' w', rows_inv w' → extends w w' →
    (∀ c, c ∈ held (tm_sender m') → c ∈ held (tm_sender m) ∨ c ∈ rows w') →
    (∀ c, c ∈ held (tm_confirmer m') → c ∈ held (tm_confirmer m) ∨ c ∈ rows w') →
    tx_inv (m', w') ∧ extends w w').
  { intros m' w' Hw' He Hs Hm'. split; [|done]. split; [done|]. intros c Hin. simpl in *.
    assert (c ∈ copies m ∨ c ∈ rows w') as [Hin'|Hin'].
    { rewrite copies_split. apply copies_split in Hin as [?%Hs|?%Hm']; tauto. }
    - eapply extends_copy; [done|]. by apply Hc.
    - by apply elem_of_map_2. }
  destruct op; cbn [runOp].
  - pose proof (queue_effect kind nodeAddress network w) as Hq. unfold wp in Hq.
    apply Hkeep; [by eapply queued_inv|by apply queued_extends|auto..].
  - pose proof (queue_delegations_effect nodeAddress delegators network w) as Hq. unfold wp in Hq.
    apply Hkeep; [by eapply queued_inv|by apply queued_extends|auto..].
  - pose proof (poll_elem TransactionStatusPending (tm_sender m) w) as Hp. destruct (poll _ _ w) as [wk w']. cbn beta iota.
    destruct Hp as [Hr Hp]. apply (Hkeep _ w'); [by eapply inv_same|by apply extends_refl| |auto].
    intros c [?|[? _]]%Hp; [by left|right; by rewrite Hr].
  - apply Hkeep; [done|by apply extends_refl| |auto]. intros c ?%offer_elem. by left.
  - unfold sendNext. destruct (wk_txQueue (tm_sender m)) as [|tx rest] eqn:Hq;
      [apply Hkeep; [done|by apply extends_refl|auto..]|].
    pose proof (send_effect tx (tm_Nonce m !! bt_Network tx) w) as Hs. unfold wp in Hs.
    destruct (sendTransaction tx (tm_Nonce m !! bt_Network tx) w) as [r w'].
    cbn [fst snd] in Hs. destruct Hs as (res & n & outcome & -> & Hs).
    destruct (send_inv tx outcome w w' Hw) as [Hw' He]; [|done|].
    { apply Hc, copies_split. left. unfold held. rewrite Hq. apply elem_of_app. right. by left. }
    apply Hkeep; [by destruct outcome|by destruct outcome| |by destruct outcome; auto].
    intros c Hin. left. by destruct outcome; apply finish_elem in Hin.
  - pose proof (poll_elem TransactionStatusSent (tm_confirmer m) w) as Hp. destruct (poll _ _ w) as [wk w']. cbn beta iota.
    destruct Hp as [Hr Hp]. apply (Hkeep _ w'); [by eapply inv_same|by apply extends_refl|auto|].
    intros c [?|[? _]]%Hp; [by left|right; by rewrite Hr].
  - apply Hkeep; [done|by apply extends_refl|auto|]. intros c ?%offer_elem. by left.
  - unfold confirmNext. destruct (wk_txQueue (tm_confirmer m) !! i) as [tx|] eqn:Hq; [|apply Hkeep; [done|by apply extends_refl|auto..]].
    pose proof (confirm_effect tx (tm_Nonce m !! bt_Network tx) w) as Hs. unfold wp in Hs.
    destruct (confirmTransaction tx (tm_Nonce m !! bt_Network tx) w) as [r w'].
    destruct Hs as [_ Hs]. cbn [fst snd] in Hs. destruct (confirm_inv tx w w' Hw) as [Hw' He]; [|done|].
    { apply Hc, copies_split. right. apply elem_of_app. right. by eapply list_elem_of_lookup_2. }
    destruct r as [[res n]|e]; (apply Hkeep; [done|done|auto|]); intros c Hin; left; by apply finish_elem in Hin.
Qed.

Lemma run_inv ops s : cfg_ok → tx_inv s → tx_inv (runOps ops s) ∧ extends (snd s) (snd (runOps ops s)).
Proof.
  intros Hcfg. revert s. induction ops as [|op ops IH]; intros s Hs; [split; [done|by apply extends_refl]|].
  destruct (step_inv op s Hcfg Hs) as [H1 [n1 E1]]. destruct (IH _ H1) as [H2 [n2 E2]]. split; [done|].
  exists (n1 ++ n2). cbn [runOps foldl] in E2 |- *. unfold runOps in E2. by rewrite E2, E1, app_assoc.
Qed.

Lemma table_rows l r : table_ok (map static l) → r ∈ l → row_ok l r.
Proof.
  intros [_ Hl] Hr. destruct (Hl (static r)) as (H1 & H2 & H3 & H4 & H5); [by apply elem_of_map_2|].
  do 4 (split; [done|]). simpl in H5. destruct (bt_RetryTransactionID r); [|done].
  destruct H5 as (Hc & r0 & Hr0 & Hid & Hro & Hs). split; [done|]. apply elem_of_map_iff in Hr0 as (r1 & Hr1 & ->).
  exists r1. split_and!; [done..|exact Hs].
Qed.

End invariant.

(** A network that accepts every transaction, and no receipt. *)
Definition demo_rpc : Rpc := {|
  rpc_send := λ i _ tx n, inl ("0x" +:+ format_Z (Z.of_nat i));
  rpc_pending_nonce := λ _ _, Ok 7;
  rpc_revert_reason := λ _ _, Ok "reverted"
|}.

Definition idle : Worker := mkWorker [] [] ∅.
Definition idle_manager : TransactionManager := mkManager idle idle ∅ [] [].

Lemma demo_blockchains network blockchain :
  assoc network (Blockchains demo_config) = Some blockchain →
  bc_MaxRetries blockchain = 3 ∧ bc_SentTransactionCountLimit blockchain = 10.
Proof.
  unfold assoc, find_first, demo_config. cbn [Blockchains List.find fst].
  destruct (String.eqb "base" network); cbn; [by intros [= <-]|done].
Qed.

Lemma demo_cfg_ok : cfg_ok (E:=demo_env).
Proof. intros network blockchain H. apply demo_blockchains in H as [-> _]. lia. Qed.

Lemma idle_inv : tx_inv (E:=demo_env) (idle_manager, empty_world).
Proof.
  split; [split|].
  - split; [constructor|]. intros r Hr. by apply elem_of_nil in Hr.
  - intros network blockchain H. apply demo_blockchains in H as [_ ->]. unfold count_where. simpl. lia.
  - intros c Hc. by apply elem_of_nil in Hc.
Qed.

End TransactionManager.
