(* ===== verification/TransactionOnce.v ===== *)
(** * Sending each transaction once

    What the transaction manager guarantees when each batch is worked off before
    the next poll, and what an overlapping poll does. *)

From S2P Require Import Prelude Models Config Delegation VestingSchedule Deadline MaxStaking.
From S2P Require Import Store NodeState ChainEvents TransactionManager.

Module TransactionOnce.
Import TransactionManager.

Abbreviation rows w := (db_chain_txs (w_db w)) (only parsing).

(** ** Definitions *)

(** A worker with nothing to do. *)
Definition isIdle (wk : Worker) : Prop := wk_fetched wk = [] ∧ wk_txQueue wk = [].

Section serial.
Context {E : Env} {R : Rpc}.

(** Polls happen only when the worker is idle. *)
Fixpoint serial (ops : list TxOp) (s : TransactionManager * World) : Prop :=
  match ops with
  | [] => True
  | op :: ops =>
      match op with
      | OpPollPending => isIdle (tm_sender (fst s))
      | OpPollSent => isIdle (tm_confirmer (fst s))
      | _ => True
      end ∧ serial ops (runOp op s)
  end.
End serial.

(** Not yet confirmed or failed. *)
Definition openRow (r : BlockchainTransaction) : Prop :=
  bt_Status r = TransactionStatusPending ∨ bt_Status r = TransactionStatusSent.

(** A transaction and its retries. *)
Definition family (r : BlockchainTransaction) : Z := default (bt_ID r) (bt_RetryTransactionID r).

Definition times (i : Z) (l : list Z) : Z := count_where (λ j, j =? i) l.

(** The copies of a worker are current rows with the status it polls for. *)
Record worker_ok (status : TransactionStatus) (l : list BlockchainTransaction) (wk : Worker) : Prop := {
  wk_current : ∀ c, c ∈ held wk → c ∈ l ∧ bt_Status c = status;
  wk_once : NoDup (map bt_ID (held wk))
}.

(** Rows: distinct ids, one open row per family, and broadcasts accounted for. *)
Record rows_once (l : list BlockchainTransaction) (broadcast unrecorded : list Z) : Prop := {
  ro_ids : NoDup (map bt_ID l);
  ro_family : ∀ r, r ∈ l → ∃ r0, r0 ∈ l ∧ bt_ID r0 = family r;
  ro_open : ∀ r r', r ∈ l → r' ∈ l → family r = family r' → openRow r → openRow r' → r = r';
  ro_pending : ∀ r, r ∈ l → bt_Status r = TransactionStatusPending →
    times (bt_ID r) broadcast ≤ times (bt_ID r) unrecorded;
  ro_times : ∀ i, times i broadcast ≤ 1 + times i unrecorded;
  ro_known : ∀ i, i ∈ broadcast → i ∈ map bt_ID l
}.

Definition once (s : TransactionManager * World) : Prop :=
  rows_once (rows (snd s)) (tm_broadcast (fst s)) (tm_unrecorded (fst s)) ∧
  worker_ok TransactionStatusPending (rows (snd s)) (tm_sender (fst s)) ∧
  worker_ok TransactionStatusSent (rows (snd s)) (tm_confirmer (fst s)).

(** ** Properties *)

Lemma times_cons i j l : times i (j :: l) = (if j =? i then 1 else 0) + times i l.
Proof. unfold times. by rewrite !count_where_sum, sumZ_cons. Qed.

Lemma times_nonneg i l : 0 ≤ times i l.
Proof. unfold times, count_where. lia. Qed.

Lemma times_absent i l : i ∉ l → times i l = 0.
Proof.
  intros Hi. unfold times. rewrite count_where_sum. apply sumZ_zero. intros j Hj.
  destruct (Z.eqb_spec j i) as [->|]; done.
Qed.

(** The rows after one of them was updated. *)
Lemma touched_elem l c f r :
  NoDup (map bt_ID l) → c ∈ l → r ∈ touched c f l ↔ (r ∈ l ∧ bt_ID r ≠ bt_ID c) ∨ r = f c.
Proof.
  intros Hnd Hc. unfold touched. rewrite elem_of_update. split.
  - intros (r0 & Hr0 & ->). destruct (Z.eqb_spec (bt_ID r0) (bt_ID c)) as [He|Hne]; [|by left].
    right. f_equal. by apply (NoDup_map_inj bt_ID l).
  - intros [[Hr Hne]| ->].
    + exists r. split; [done|]. by rewrite (proj2 (Z.eqb_neq _ _)).
    + exists c. split; [done|]. by rewrite Z.eqb_refl.
Qed.

(** A worker keeps current copies when another row is updated or added. *)
Lemma worker_touched status l c f wk :
  NoDup (map bt_ID l) → c ∈ l → (∀ x, x ∈ held wk → bt_ID x ≠ bt_ID c) →
  worker_ok status l wk → worker_ok status (touched c f l) wk.
Proof.
  intros Hnd Hc Hne [H1 H2]. split; [|done]. intros x Hx. destruct (H1 x Hx) as [Hl Hst]. split; [|done].
  apply touched_elem; [done..|]. left. split; [done|]. by apply Hne.
Qed.

Lemma worker_app status l l' wk : worker_ok status l wk → worker_ok status (l ++ l') wk.
Proof. intros [H1 H2]. split; [|done]. intros x Hx. destruct (H1 x Hx). split; [apply elem_of_app; by left|done]. Qed.

Lemma worker_offer status l wk : worker_ok status l wk → worker_ok status l (offer wk).
Proof.
  intros [H1 H2]. split; [intros c Hc%offer_elem; by apply H1|].
  unfold offer, held in *. destruct (wk_fetched wk) as [|tx rest] eqn:Hf; [by rewrite Hf|].
  case_match; [cbn [wk_fetched wk_txQueue]; by apply NoDup_cons in H2 as [_ H2]|].
  case_match; [by rewrite Hf|]. cbn [wk_fetched wk_txQueue]. rewrite app_assoc. cbn [app map] in H2.
  rewrite map_app. simpl. by rewrite <- Permutation_cons_append.
Qed.

Lemma worker_finish status l i c wk :
  wk_txQueue wk !! i = Some c → worker_ok status l wk →
  worker_ok status l (finish i c wk) ∧ ∀ x, x ∈ held (finish i c wk) → bt_ID x ≠ bt_ID c.
Proof.
  intros Hi [H1 H2]. unfold held in *. cbn [finish wk_fetched wk_txQueue] in *.
  assert (wk_txQueue wk ≡ₚ c :: delete i (wk_txQueue wk)) as Hp by (by apply delete_Permutation).
  rewrite Hp in H2. rewrite <- Permutation_middle in H2. cbn [map] in H2. apply NoDup_cons in H2 as [Hc H2].
  split; [split; [|done]|].
  - intros x Hx. apply H1. apply (finish_elem i c wk). exact Hx.
  - intros x Hx Heq. apply Hc. rewrite <- Heq. by apply elem_of_map_2.
Qed.

Lemma static_family r r' : static r = static r' → bt_ID r = bt_ID r' ∧ family r = family r'.
Proof.
  intros H. pose proof (f_equal bt_ID H) as H1. pose proof (f_equal bt_RetryTransactionID H) as H2.
  simpl in H1, H2. unfold family. by rewrite H1, H2.
Qed.

Lemma ids_touched c f l : (∀ r, static (f r) = static r) → map bt_ID (touched c f l) = map bt_ID l.
Proof. intros Hf. apply map_update_same. intros r _. by apply static_family. Qed.

(** A row leaves the pending state, broadcast or not. *)
Lemma once_update l b b' u c f :
  rows_once l b u → c ∈ l → (∀ r, static (f r) = static r) →
  bt_Status (f c) ≠ TransactionStatusPending → (openRow (f c) → openRow c) →
  b' = b ∨ (b' = bt_ID c :: b ∧ bt_Status c = TransactionStatusPending) →
  rows_once (touched c f l) b' u.
Proof.
  intros [Hnd Hfam Hopen Hpend Htimes Hknown] Hc Hf Hst Hop Hb.
  destruct (static_family _ _ (Hf c)) as [Hid Hfc].
  assert (Hel : ∀ r, r ∈ touched c f l → ∃ r0, r0 ∈ l ∧ static r0 = static r ∧
    ((r = r0 ∧ bt_ID r ≠ bt_ID c) ∨ (r0 = c ∧ r = f c))).
  { intros r. rewrite touched_elem by done. intros [[Hr Hne]| ->]; [exists r|exists c]; rewrite ?Hf; eauto 6. }
  split.
  - by rewrite ids_touched.
  - intros r (r0 & Hr0 & Hs & _)%Hel. destruct (Hfam r0 Hr0) as (o & Ho & Hoid).
    destruct (static_family _ _ Hs) as [_ <-].
    destruct (decide (bt_ID o = bt_ID c)) as [Heq|Hne].
    + exists (f c). split; [apply touched_elem; [done..|by right]|]. congruence.
    + exists o. split; [apply touched_elem; [done..|by left]|done].
  - intros r r' (r0 & Hr0 & Hs & Hc0)%Hel (r1 & Hr1 & Hs' & Hc1)%Hel Hff Ho Ho'.
    assert (openRow r0) by (destruct Hc0 as [[-> _]|[-> ->]]; [done|by apply Hop]).
    assert (openRow r1) by (destruct Hc1 as [[-> _]|[-> ->]]; [done|by apply Hop]).
    assert (r0 = r1) as <-.
    { apply Hopen; [done|done| |done|done]. destruct (static_family _ _ Hs) as [_ ->], (static_family _ _ Hs') as [_ ->]. done. }
    destruct Hc0 as [[-> Hne]|[-> ->]], Hc1 as [[-> Hne']|[He ->]]; [done|congruence|congruence|done].
  - intros r (r0 & Hr0 & Hs & Hc0)%Hel Hp. destruct Hc0 as [[-> Hne]|[-> ->]]; [|done].
    specialize (Hpend r0 Hr0 Hp). destruct Hb as [->|[-> _]]; [done|].
    rewrite times_cons. destruct (Z.eqb_spec (bt_ID c) (bt_ID r0)); [congruence|lia].
  - intros j. destruct Hb as [->|[-> Hp]]; [done|]. rewrite times_cons.
    destruct (Z.eqb_spec (bt_ID c) j) as [<-|]; [specialize (Hpend c Hc Hp); lia|specialize (Htimes j); lia].
  - intros j Hj. rewrite ids_touched by done. destruct Hb as [->|[-> _]]; [by apply Hknown|].
    apply elem_of_cons in Hj as [->|Hj]; [by apply elem_of_map_2|by apply Hknown].
Qed.

(** A broadcast that could not be recorded. *)
Lemma once_unrecorded l b u c :
  rows_once l b u → c ∈ l → bt_Status c = TransactionStatusPending → rows_once l (bt_ID c :: b) (bt_ID c :: u).
Proof.
  intros [Hnd Hfam Hopen Hpend Htimes Hknown] Hc Hp. split; [done..| | |].
  - intros r Hr Hst. rewrite !times_cons. specialize (Hpend r Hr Hst). lia.
  - intros j. rewrite !times_cons. specialize (Htimes j). lia.
  - intros j [->|Hj]%elem_of_cons; [by apply elem_of_map_2|by apply Hknown].
Qed.

(** A new row: a queued transaction, or the retry of a family with no open row. *)
Lemma once_append l b u r :
  rows_once l b u → bt_ID r = next_id bt_ID l →
  family r = bt_ID r ∨ (∃ r0, r0 ∈ l ∧ bt_ID r0 = family r) →
  (∀ r', r' ∈ l → family r' = family r → ¬ openRow r') →
  rows_once (l ++ [r]) b u.
Proof.
  intros [Hnd Hfam Hopen Hpend Htimes Hknown] Hid Hfr Hno.
  assert (Hfresh : bt_ID r ∉ map bt_ID l).
  { intros (r' & Hr' & He)%elem_of_map_iff. pose proof (next_id_fresh bt_ID l r' Hr'). lia. }
  assert (Hel : ∀ x, x ∈ l ++ [r] ↔ x ∈ l ∨ x = r) by (intros x; by rewrite elem_of_app, list_elem_of_singleton).
  split.
  - rewrite map_app. apply NoDup_app. split_and!; [done| |apply NoDup_singleton].
    intros x Hx Hx'. apply list_elem_of_singleton in Hx' as ->. done.
  - intros x [Hx| ->]%Hel.
    + destruct (Hfam x Hx) as (o & Ho & Hoid). exists o. split; [apply Hel; by left|done].
    + destruct Hfr as [Hfr|(r0 & Hr0 & Hr0id)]; [exists r|exists r0]; (split; [apply Hel; tauto|congruence]).
  - intros x y [Hx| ->]%Hel [Hy| ->]%Hel Hff Hox Hoy; [by apply Hopen| | |done].
    + by destruct (Hno x Hx Hff).
    + by destruct (Hno y Hy (eq_sym Hff)).
  - intros x [Hx| ->]%Hel Hst; [by apply Hpend|]. rewrite times_absent; [apply times_nonneg|]. intros Hin. by apply Hfresh, Hknown.
  - done.
  - intros j Hj. rewrite map_app. apply elem_of_app. left. by apply Hknown.
Qed.

Section steps.
Context {E : Env} {R : Rpc}.

Lemma poll_idle status wk w :
  isIdle wk → let '(wk', w') := poll status wk w in
  rows w' = rows w ∧
  (held wk' = [] ∨ held wk' = select_where (λ tx, bool_decide (bt_Status tx = status)) (rows w)).
Proof.
  intros [Hf Hq]. unfold poll. rewrite Hf.
  pose proof (fetchPages_all status (S (length (rows w))) 0 [] w) as Hp. cbv zeta in Hp. unfold wp in Hp.
  destruct (fetchPages status (S (length (rows w))) 0 [] w) as [r w']. destruct Hp as [Hd Hl].
  { unfold select_where. pose proof (filter_length_le (λ tx, bool_decide (bt_Status tx = status)) (rows w)). lia. }
  cbn [fst snd] in Hd, Hl. destruct r as [l|e]; (split; [by rewrite Hd|]); unfold held; cbn [wk_fetched wk_txQueue].
  - right. rewrite (Hl l eq_refl). simpl. rewrite Hq, app_nil_r. by rewrite drop_0.
  - left. by rewrite Hf, Hq.
Qed.

Lemma worker_poll status wk l :
  NoDup (map bt_ID l) → held wk = [] ∨ held wk = select_where (λ tx, bool_decide (bt_Status tx = status)) l →
  worker_ok status l wk.
Proof.
  intros Hnd [Hh|Hh]; split; rewrite Hh.
  - intros c Hc. by apply elem_of_nil in Hc.
  - constructor.
  - intros c [? Hst%bool_decide_eq_true]%elem_of_select. done.
  - by apply NoDup_map_select.
Qed.

Lemma queued_once w w' b u :
  queued w w' → rows_once (rows w) b u →
  rows_once (rows w') b u ∧ ∀ status wk, worker_ok status (rows w) wk → worker_ok status (rows w') wk.
Proof.
  intros [Hq|(t & net & k & from & to & node & ds & bc & _ & Hq)] Hl; rewrite Hq; [done|].
  split; [|intros; by apply worker_app]. apply once_append; [done|done|by left|].
  intros r' Hr' Hf _. destruct (ro_family _ _ _ Hl r' Hr') as (r0 & Hr0 & Hid).
  pose proof (next_id_fresh bt_ID _ r0 Hr0). unfold family in Hf at 2. simpl in Hf. lia.
Qed.

(** Copies of other statuses are other rows. *)
Lemma other_status l c x status :
  NoDup (map bt_ID l) → c ∈ l → x ∈ l → bt_Status x = status → bt_Status c ≠ status → bt_ID x ≠ bt_ID c.
Proof. intros Hnd Hc Hx Hst Hne Heq. apply Hne. by rewrite <- (NoDup_map_inj bt_ID l x c). Qed.

Lemma failed_closed tx m t r : ¬ openRow (markedFailed tx m t r).
Proof. unfold markedFailed. destruct (retiredHash tx); by intros [|]. Qed.

Lemma send_once c outcome w w' b u :
  send_result c outcome w w' → rows_once (rows w) b u → c ∈ rows w → bt_Status c = TransactionStatusPending →
  rows_once (rows w') (match outcome with NotSent => b | _ => bt_ID c :: b end)
    (match outcome with SentUnrecorded => bt_ID c :: u | _ => u end) ∧
  ∀ status wk, (∀ x, x ∈ held wk → bt_ID x ≠ bt_ID c) → worker_ok status (rows w) wk → worker_ok status (rows w') wk.
Proof.
  intros [_ Hr] Hl Hc Hp. pose proof (ro_ids _ _ _ Hl) as Hnd. destruct outcome.
  - destruct Hr as [Hr|(m & t & Hr)]; rewrite Hr; [done|]. split; [|intros; by apply worker_touched].
    apply (once_update _ b); [done|done|intros; apply static_failed| | |by left].
    + intros Hst. apply (failed_closed c m t c). by left.
    + intros Ho. by apply failed_closed in Ho.
  - destruct Hr as (h & n & t & bc & _ & _ & Hr). rewrite Hr. split; [|intros; by apply worker_touched].
    apply (once_update _ b); [done|done|done|done|by left|by right].
  - rewrite Hr. split; [|done]. by apply once_unrecorded.
Qed.

Lemma confirm_once c w w' b u :
  confirm_result c w w' → rows_once (rows w) b u → c ∈ rows w → bt_Status c = TransactionStatusSent →
  rows_once (rows w') b u ∧
  ∀ status wk, (∀ x, x ∈ held wk → bt_ID x ≠ bt_ID c) → worker_ok status (rows w) wk → worker_ok status (rows w') wk.
Proof.
  intros Hr Hl Hc Hs. pose proof (ro_ids _ _ _ Hl) as Hnd.
  assert (Hfail : ∀ m t, rows_once (touched c (markedFailed c m t) (rows w)) b u).
  { intros m t. apply (once_update _ b); [done|done|intros; apply static_failed| | |by left].
    - intros Hst. apply (failed_closed c m t c). by left.
    - intros Ho. by apply failed_closed in Ho. }
  destruct Hr as [Hr|[_ [(t & Hr)|[(m & t & Hr & _)|(m & t & ct & Hlt & Hr)]]]].
  - by rewrite Hr.
  - rewrite Hr. split; [|intros; by apply worker_touched].
    apply (once_update _ b); [done|done|done|done|by intros [|]|by left].
  - rewrite Hr. split; [done|intros; by apply worker_touched].
  - cbv zeta in Hr. rewrite Hr. split; [|intros; by apply worker_app, worker_touched].
    assert (Hfr : family (retryTransaction c (next_id bt_ID (touched c (markedFailed c m t) (rows w))) ct) = family c).
    { unfold family. simpl. by destruct (bt_RetryTransactionID c). }
    apply once_append; [done|done| |].
    + right. rewrite Hfr. destruct (static_family _ _ (static_failed c m t c)) as [_ <-].
      apply (ro_family _ _ _ (Hfail m t)). apply touched_elem; [done..|by right].
    + rewrite Hfr. intros r' Hr' Hff Ho. apply touched_elem in Hr' as [[Hr' Hne]| ->]; [| |done..].
      * apply Hne. f_equal. apply (ro_open _ _ _ Hl); [done..|by right].
      * by apply failed_closed in Ho.
Qed.

Lemma once_step op s :
  once s → serial [op] s → once (runOp op s).
Proof.
  destruct s as [m w]. intros (Hl & Hsd & Hcf) [Hidle _]. cbn [fst snd] in *.
  pose proof (ro_ids _ _ _ Hl) as Hnd. destruct op; cbn [runOp].
  - pose proof (queue_effect kind nodeAddress network w) as Hq. unfold wp in Hq.
    destruct (queued_once _ _ _ _ Hq Hl) as [Hl' Hwk]. split_and!; [done|by apply Hwk..].
  - pose proof (queue_delegations_effect nodeAddress delegators network w) as Hq. unfold wp in Hq.
    destruct (queued_once _ _ _ _ Hq Hl) as [Hl' Hwk]. split_and!; [done|by apply Hwk..].
  - pose proof (poll_idle TransactionStatusPending (tm_sender m) w Hidle) as Hp.
    destruct (poll _ _ w) as [wk w']. destruct Hp as [Hr Hp]. unfold once. simpl. rewrite Hr.
    split_and!; [done|by apply worker_poll|done].
  - split_and!; [done|by apply worker_offer|done].
  - unfold sendNext. destruct (wk_txQueue (tm_sender m)) as [|c rest] eqn:Hq; [done|].
    pose proof (send_effect c (tm_Nonce m !! bt_Network c) w) as Hs. unfold wp in Hs.
    destruct (sendTransaction c (tm_Nonce m !! bt_Network c) w) as [r w'].
    cbn [fst snd] in Hs. destruct Hs as (res & n & outcome & -> & Hs).
    destruct (wk_current _ _ _ Hsd c) as [Hc Hp].
    { apply elem_of_app. right. rewrite Hq. by left. }
    assert (wk_txQueue (tm_sender m) !! 0%nat = Some c) as H0 by (by rewrite Hq).
    destruct (worker_finish _ _ _ _ _ H0 Hsd) as [Hfin Hne].
    destruct (send_once _ _ _ _ _ _ Hs Hl Hc Hp) as [Hl' Hwk].
    assert (worker_ok TransactionStatusSent (rows w') (tm_confirmer m)) as Hcf'.
    { apply Hwk; [|done]. intros x Hx. destruct (wk_current _ _ _ Hcf x Hx) as [Hxl Hxs].
      eapply other_status; [done..|]. by rewrite Hp. }
    destruct outcome; (split_and!; [exact Hl'|by apply Hwk|done]).
  - pose proof (poll_idle TransactionStatusSent (tm_confirmer m) w Hidle) as Hp.
    destruct (poll _ _ w) as [wk w']. destruct Hp as [Hr Hp]. unfold once. simpl. rewrite Hr.
    split_and!; [done|done|by apply worker_poll].
  - split_and!; [done|done|by apply worker_offer].
  - unfold confirmNext. destruct (wk_txQueue (tm_confirmer m) !! i) as [c|] eqn:Hq; [|done].
    pose proof (confirm_effect c (tm_Nonce m !! bt_Network c) w) as Hs. unfold wp in Hs.
    destruct (confirmTransaction c (tm_Nonce m !! bt_Network c) w) as [r w'].
    cbn [fst snd] in Hs. destruct Hs as [_ Hs].
    destruct (wk_current _ _ _ Hcf c) as [Hc Hp].
    { apply elem_of_app. right. by eapply list_elem_of_lookup_2. }
    destruct (worker_finish _ _ _ _ _ Hq Hcf) as [Hfin Hne].
    destruct (confirm_once _ _ _ _ _ Hs Hl Hc Hp) as [Hl' Hwk].
    assert (worker_ok TransactionStatusPending (rows w') (tm_sender m)) as Hsd'.
    { apply Hwk; [|done]. intros x Hx. destruct (wk_current _ _ _ Hsd x Hx) as [Hxl Hxs].
      eapply other_status; [done..|]. by rewrite Hp. }
    destruct r as [[res n]|e]; (split_and!; [exact Hl'|done|by apply Hwk]).
Qed.

(** C30 — When a worker polls only after it has worked off the batch before, then for every order of the
    other steps and whatever access or call fails: a row is broadcast at most once, and
    once more for each broadcast of it that the database could not record; and of a
    transaction and its retries at most one is pending or sent at any time. *)
Theorem transactions_sent_once ops (s : TransactionManager * World) :
  once s → serial ops s →
  let '(m', w') := runOps ops s in
  (∀ id, times id (tm_broadcast m') ≤ 1 + times id (tm_unrecorded m')) ∧
  (∀ r r', r ∈ rows w' → r' ∈ rows w' → family r = family r' → openRow r → openRow r' → r = r').
Proof.
  intros Hs Hser. assert (once (runOps ops s)) as Hend.
  { revert s Hs Hser. induction ops as [|op ops IH]; intros s Hs Hser; [done|]. destruct Hser as [Hop Hser].
    cbn [runOps foldl]. apply IH; [|done]. by apply once_step. }
  destruct (runOps ops s) as [m' w']. destruct Hend as [Hl _]. split; [apply (ro_times _ _ _ Hl)|apply (ro_open _ _ _ Hl)].
Qed.
End steps.

Lemma idle_once : once (idle_manager, empty_world).
Proof.
  assert (∀ status, worker_ok status [] idle).
  { split; [intros c Hc; by apply elem_of_nil in Hc|constructor]. }
  split; [|done]. split; simpl; try (intros r Hr; by apply elem_of_nil in Hr).
  - constructor.
  - intros r r' Hr. by apply elem_of_nil in Hr.
  - done.
Qed.

Definition demo_ops : list TxOp :=
  [OpQueueStaking "NodeStaking::unstake" "0xn" "base"; OpPollPending; OpOfferPending; OpSend; OpPollPending; OpSend].

Lemma transactions_sent_once_witness :
  let '(m', w') := runOps (E:=demo_env) (R:=demo_rpc) demo_ops (idle_manager, empty_world) in
  tm_broadcast m' = [1] ∧ times 1 (tm_broadcast m') ≤ 1 + times 1 (tm_unrecorded m').
Proof.
  pose proof (transactions_sent_once (E:=demo_env) (R:=demo_rpc) demo_ops (idle_manager, empty_world) idle_once) as H.
  destruct (runOps (E:=demo_env) (R:=demo_rpc) demo_ops (idle_manager, empty_world)) as [m' w'] eqn:Hrun.
  split.
  - change m' with (fst (m', w')). rewrite <- Hrun. vm_compute. reflexivity.
  - apply H. vm_compute. tauto.
Defined.

(** An overlapping poll defeats the check of [processingTxs]: a row read by a
    poll while it is being sent is queued again once the first sending has removed
    its mark, and the old copy still says it is pending.  No failure is needed: the transaction is
    broadcast twice and its hash overwritten. *)
Theorem stale_copy_sent_twice :
  let '(m', w') := runOps (E:=demo_env) (R:=demo_rpc)
    [OpQueueStaking "NodeStaking::unstake" "0xn" "base"; OpPollPending; OpOfferPending; OpPollPending; OpSend;
     OpOfferPending; OpSend] (idle_manager, empty_world) in
  tm_broadcast m' = [1; 1] ∧ tm_unrecorded m' = [] ∧ map bt_Nonce (rows w') = [Some 8].
Proof. vm_compute. done. Qed.
End TransactionOnce.
