(* ===== verification/Calibration.v ===== *)
(** * Calibration of execution times

    src/service/task_execution_calibration.go and weighted_least_squares.go: for
    every GPU and model configuration the relay keeps the parameters of a linear
    model of the execution time, fitted to the tasks that finished; prices use
    the mean over the suitable records, cached per requirement, and execution
    timeouts the slowest suitable record.

    The store is the record [taskPricingStore].  Go visits the entries of a map
    in any order and sums of float64 depend on it: [cal_order] gives the order of
    the [n]-th visit, [ps_tick] counts them.  The solver of linear systems is
    that of gonum, the class field [SolveVec].  Float64 operations are those of
    amd64, which does not fuse multiplications and additions.  Symmetric matrices
    are the rows of their upper triangle, as the columns of the table are. *)

From S2P Require Import Prelude Models Float64 Config Mac ModelFiles.

Module Calibration.
Import Float64 Mac ModelFiles.

(** ** Data *)

(** [gpuCalibrationKey], src/service/task_execution_calibration.go 19-29 *)
Record gpuCalibrationKey := mkGpuCalibrationKey {
  ck_taskType : TaskType;
  ck_name : string;
  ck_vram : Z;
  ck_modelName : string;
  ck_executionDType : string;
  ck_requiredModelFilesHash : list Z;
  ck_quantizationConfigHash : list Z
}.

(** [taskPricingKey], src/service/task_execution_calibration.go 31-37 *)
Record taskPricingKey := mkTaskPricingKey {
  pk_taskType : TaskType;
  pk_vramDemand : Z;
  pk_modelName : string;
  pk_requestedDType : string;
  pk_quantizationConfigHash : list Z
}.

#[export] Instance TaskType_countable : Countable TaskType.
Proof.
  refine (inj_countable' (λ t, match t with TaskTypeSD => 0 | TaskTypeLLM => 1 | TaskTypeSDFTLora => 2 end)
    (λ z : Z, match z with 0 => TaskTypeSD | 1 => TaskTypeLLM | _ => TaskTypeSDFTLora end) _).
  by intros [].
Defined.
#[export] Instance gpuCalibrationKey_eq_dec : EqDecision gpuCalibrationKey.
Proof. solve_decision. Defined.
#[export] Instance taskPricingKey_eq_dec : EqDecision taskPricingKey.
Proof. solve_decision. Defined.
#[export] Instance gpuCalibrationKey_countable : Countable gpuCalibrationKey.
Proof.
  refine (inj_countable'
    (λ k, (ck_taskType k, ck_name k, ck_vram k, ck_modelName k, ck_executionDType k,
           ck_requiredModelFilesHash k, ck_quantizationConfigHash k))
    (λ '(a, b, c, d, e, f, g), mkGpuCalibrationKey a b c d e f g) _).
  by intros [].
Defined.
#[export] Instance taskPricingKey_countable : Countable taskPricingKey.
Proof.
  refine (inj_countable'
    (λ k, (pk_taskType k, pk_vramDemand k, pk_modelName k, pk_requestedDType k, pk_quantizationConfigHash k))
    (λ '(a, b, c, d, e), mkTaskPricingKey a b c d e) _).
  by intros [].
Defined.

(** [llmExecutionParameters], src/service/task_execution_calibration.go 50-57 *)
Record llmExecutionParameters := mkLLMParameters {
  lp_constantSeconds : float64;
  lp_secondsPerInputByte : float64;
  lp_secondsPerOutputToken : float64;
  lp_modelSwitchSeconds : float64;
  lp_secondsPerImage : float64;
  lp_secondsPerMegapixel : float64
}.

(** [executionParameters], src/service/task_execution_calibration.go 39-43 *)
Record executionParameters := mkParameters {
  ep_sdOverhead : float64;
  ep_sdRate : float64;
  ep_llm : llmExecutionParameters
}.

(** [values], src/service/task_execution_calibration.go 59-68 *)
Definition llmValues (p : llmExecutionParameters) : list float64 :=
  [lp_constantSeconds p; lp_secondsPerInputByte p; lp_secondsPerOutputToken p;
   lp_modelSwitchSeconds p; lp_secondsPerImage p; lp_secondsPerMegapixel p].

(** [llmParametersFromValues], src/service/task_execution_calibration.go 70-79 *)
Definition llmParametersFromValues (values : list float64) : llmExecutionParameters :=
  let at_ i := nth i values f64_zero in
  mkLLMParameters (at_ 0%nat) (at_ 1%nat) (at_ 2%nat) (at_ 3%nat) (at_ 4%nat) (at_ 5%nat).

(** [sdFormulaVersion], src/service/task_execution_calibration.go 46 *)
Definition sdFormulaVersion : Z := 1.
(** [llmFormulaVersion], src/service/task_execution_calibration.go 47 *)
Definition llmFormulaVersion : Z := 2.

(** [GPUExecutionCalibration], src/models/gpu_execution_calibration.go 11-68; the
    matrices are the rows of their upper triangles. *)
Record GPUExecutionCalibration := mkGPUExecutionCalibration {
  gc_ID : Z;
  gc_TaskType : TaskType;
  gc_GPUName : string;
  gc_GPUVram : Z;
  gc_ModelName : string;
  gc_ExecutionDType : string;
  gc_RequiredModelFilesHash : list Z;
  gc_QuantizationConfigHash : list Z;
  gc_MinVRAMRequirement : Z;
  gc_MaxVRAMRequirement : Z;
  gc_SDOverheadSeconds : float64;
  gc_SecondsPerSDPixelStep : float64;
  gc_SDFormulaVersion : Z;
  gc_SDXTX : list (list float64);
  gc_SDXTY : list float64;
  gc_SDSuccessSamples : Z;
  gc_LLM : llmExecutionParameters;
  gc_LLMFormulaVersion : Z;
  gc_LLMXTX : list (list float64);
  gc_LLMXTY : list float64;
  gc_LLMSuccessSamples : Z
}.

#[export] Instance eta_GPUExecutionCalibration : Eta GPUExecutionCalibration := λ r,
  mkGPUExecutionCalibration (gc_ID r) (gc_TaskType r) (gc_GPUName r) (gc_GPUVram r) (gc_ModelName r)
    (gc_ExecutionDType r) (gc_RequiredModelFilesHash r) (gc_QuantizationConfigHash r)
    (gc_MinVRAMRequirement r) (gc_MaxVRAMRequirement r) (gc_SDOverheadSeconds r)
    (gc_SecondsPerSDPixelStep r) (gc_SDFormulaVersion r) (gc_SDXTX r) (gc_SDXTY r)
    (gc_SDSuccessSamples r) (gc_LLM r) (gc_LLMFormulaVersion r) (gc_LLMXTX r) (gc_LLMXTY r)
    (gc_LLMSuccessSamples r).

(** [cachedGPUCalibration], src/service/task_execution_calibration.go 81-84 *)
Record cachedGPUCalibration := mkCached { cg_record : GPUExecutionCalibration; cg_dirtyVersion : Z }.

(** [executionGPUSnapshot], src/service/task_execution_calibration.go 86-90 *)
Record executionGPUSnapshot := mkSnapshot { sn_GPUName : string; sn_GPUVram : Z; sn_CapturedAt : Time }.

(** [taskPricingStore], src/service/task_execution_calibration.go 92-98 *)
Record taskPricingStore := mkStore {
  ps_records : gmap gpuCalibrationKey cachedGPUCalibration;
  ps_aggregates : gmap taskPricingKey executionParameters;
  ps_snapshots : gmap string executionGPUSnapshot;
  ps_version : Z;
  ps_tick : nat
}.

#[export] Instance eta_store : Eta taskPricingStore := λ r,
  mkStore (ps_records r) (ps_aggregates r) (ps_snapshots r) (ps_version r) (ps_tick r).

(** The rows of an upper triangle of zeros, and a vector of zeros. *)
Definition zeros (n : nat) : list float64 := replicate n f64_zero.
Fixpoint zeroTriangle (n : nat) : list (list float64) :=
  match n with O => [] | S m => zeros n :: zeroTriangle m end.

(** ** Least squares *)

(** What is assumed of the surroundings: the configuration, the order in which
    the records are visited, and gonum's solution of a symmetric system, which
    has as many components as the right-hand side. *)
Class CalibrationEnv := {
  cal_cfg : TaskPricingConfig;
  cal_order : nat → list (gpuCalibrationKey * cachedGPUCalibration) →
              list (gpuCalibrationKey * cachedGPUCalibration);
  cal_order_perm : ∀ n l, cal_order n l ≡ₚ l;
  SolveVec : list (list float64) → list float64 → result (list float64);
  SolveVec_length : ∀ a b v, SolveVec a b = Ok v → length v = length b
}.

(** [accumulateWeightedSample], src/service/weighted_least_squares.go 11-19 *)
Definition accumulateWeightedSample (xtx : list (list float64)) (xty x : list float64) (y alpha : float64)
    : list (list float64) * list float64 :=
  let decay := f64_sub f64_one alpha in
  let at_ i := nth i x f64_zero in
  (imap (λ i row, imap (λ k a,
     f64_add (f64_mul decay a) (f64_mul (f64_mul alpha (at_ i)) (at_ (i + k)%nat))) row) xtx,
   imap (λ i b, f64_add (f64_mul decay b) (f64_mul (f64_mul alpha (at_ i)) y)) xty).

(** A row of an upper triangle with its first element replaced. *)
Definition setDiagonal (f : float64 → float64) (row : list float64) : list float64 :=
  match row with [] => [] | d :: rest => f d :: rest end.

(** A scale that the fit accepts. *)
Definition goodScale (s : float64) : bool := negb (f64_le s f64_zero || IsNaN s || IsInf s).

(** The coefficients of a solution, negative ones cut off. *)
Fixpoint clipCoefficients (coefficients scale : list float64) : result (list float64) :=
  match coefficients, scale with
  | c :: cs, s :: ss =>
      let v := f64_div c s in
      if IsNaN v || IsInf v then Err (ErrMsg "fitted coefficient is not finite")
      else
        match clipCoefficients cs ss with
        | Err e => Err e
        | Ok vs => Ok ((if f64_lt v f64_zero then f64_zero else v) :: vs)
        end
  | _, _ => Ok []
  end.

Section fit.
Context {C : CalibrationEnv}.

(** [fitRidgeLeastSquares], src/service/weighted_least_squares.go 21-65 *)
Definition fitRidgeLeastSquares (xtx : list (list float64)) (xty initial : list float64) (regularization : float64)
    : result (list float64) :=
  let n := length initial in
  if negb (Nat.eqb (length xty) n && Nat.eqb (length xtx) n)
  then Err (ErrMsg "ridge least-squares dimensions do not match")
  else
    let matrix := map (setDiagonal (λ d, f64_add d regularization)) xtx in
    let yValues := zip_with (λ b i, f64_add b (f64_mul regularization i)) xty initial in
    let scale := map (λ row, Sqrt (nth 0 row f64_zero)) matrix in
    if negb (forallb goodScale scale)
    then Err (ErrMsg "fit matrix diagonal does not produce a positive finite scale")
    else
      let at_ i := nth i scale f64_zero in
      let scaledMatrix := imap (λ i row, imap (λ k a, f64_div a (f64_mul (at_ i) (at_ (i + k)%nat))) row) matrix in
      let scaledYValues := zip_with f64_div yValues scale in
      match SolveVec scaledMatrix scaledYValues with
      | Err e => Err e
      | Ok coefficients => clipCoefficients coefficients scale
      end.

(** [initialExecutionParameters], src/service/task_execution_calibration.go 102-116 *)
Definition initialExecutionParameters : executionParameters :=
  mkParameters (pr_InitialSDOverheadSeconds cal_cfg) (pr_InitialSecondsPerSDPixelStep cal_cfg)
    (mkLLMParameters (pr_InitialLLMConstantSeconds cal_cfg) (pr_InitialLLMSecondsPerInputByte cal_cfg)
       (pr_InitialLLMSecondsPerOutputToken cal_cfg) (pr_InitialLLMModelSwitchSeconds cal_cfg)
       (pr_InitialLLMSecondsPerImage cal_cfg) (pr_InitialLLMSecondsPerMegapixel cal_cfg)).

(** [fitSDParameters], src/service/task_execution_calibration.go 535-551 *)
Definition fitSDParameters (record : GPUExecutionCalibration) : result GPUExecutionCalibration :=
  let initial := initialExecutionParameters in
  match fitRidgeLeastSquares (gc_SDXTX record) (gc_SDXTY record) [ep_sdOverhead initial; ep_sdRate initial]
          (pr_CalibrationRegularization cal_cfg) with
  | Err e => Err e
  | Ok values =>
      Ok (record <| gc_SDOverheadSeconds := nth 0 values f64_zero |>
                 <| gc_SecondsPerSDPixelStep := nth 1 values f64_zero |>
                 <| gc_SDFormulaVersion := sdFormulaVersion |>)
  end.

(** [fitLLMParameters], src/service/task_execution_calibration.go 584-607 *)
Definition fitLLMParameters (record : GPUExecutionCalibration) : result GPUExecutionCalibration :=
  match fitRidgeLeastSquares (gc_LLMXTX record) (gc_LLMXTY record) (llmValues (ep_llm initialExecutionParameters))
          (pr_CalibrationRegularization cal_cfg) with
  | Err e => Err e
  | Ok values =>
      Ok (record <| gc_LLM := llmParametersFromValues values |> <| gc_LLMFormulaVersion := llmFormulaVersion |>)
  end.
End fit.

(** ** Records and keys *)

(** [hash32FromColumn], src/service/task_execution_calibration.go 158-162: [copy]
    into an array of 32 zero bytes *)
Definition hash32FromColumn (column : list Z) : list Z :=
  take 32 column ++ replicate (32 - length column) 0.

(** [keyFromRecord], src/service/task_execution_calibration.go 148-156 *)
Definition keyFromRecord (record : GPUExecutionCalibration) : gpuCalibrationKey :=
  mkGpuCalibrationKey (gc_TaskType record) (gc_GPUName record) (gc_GPUVram record) (gc_ModelName record)
    (gc_ExecutionDType record) (hash32FromColumn (gc_RequiredModelFilesHash record))
    (hash32FromColumn (gc_QuantizationConfigHash record)).

Definition AutoExecutionDType : string := "auto".

(** [executionDTypeForSample], src/service/task_execution_calibration.go 164-172 *)
Definition executionDTypeForSample (task : InferenceTask) : string :=
  if negb (String.eqb (t_ExecutionDType task) "") then t_ExecutionDType task
  else if negb (String.eqb (tp_RequestedDType (t_Pricing task)) "") then tp_RequestedDType (t_Pricing task)
  else AutoExecutionDType.

(** [taskCalibrationKey], src/service/task_execution_calibration.go 174-186 *)
Definition taskCalibrationKey (task : InferenceTask) (gpuName : string) (gpuVram : Z) : result gpuCalibrationKey :=
  match DecodeHashList (t_ExecutionModelFileHashes task) with
  | Err e => Err e
  | Ok executionHashes =>
      Ok (mkGpuCalibrationKey (t_TaskType task) gpuName gpuVram (tp_ModelName (t_Pricing task))
            (executionDTypeForSample task) (RequiredModelFilesHash executionHashes)
            (hash32FromColumn (tp_QuantizationConfigHash (t_Pricing task))))
  end.

(** [parametersFromRecord], src/service/task_execution_calibration.go 188-201 *)
Definition parametersFromRecord (record : GPUExecutionCalibration) : executionParameters :=
  mkParameters (gc_SDOverheadSeconds record) (gc_SecondsPerSDPixelStep record) (gc_LLM record).

(** [calibrationHasSamples], src/service/task_execution_calibration.go 234-239 *)
Definition calibrationHasSamples (record : GPUExecutionCalibration) (taskType : TaskType) : bool :=
  if bool_decide (taskType = TaskTypeSD) then 0 <? gc_SDSuccessSamples record else 0 <? gc_LLMSuccessSamples record.

(** [recordMatchesTaskConfig], src/service/task_execution_calibration.go 241-251 *)
Definition recordMatchesTaskConfig (record : GPUExecutionCalibration) (task : InferenceTask) : bool :=
  if bool_decide (gc_TaskType record ≠ t_TaskType task) ||
     bool_decide (gc_ModelName record ≠ tp_ModelName (t_Pricing task)) ||
     bool_decide (hash32FromColumn (gc_QuantizationConfigHash record) ≠
                  hash32FromColumn (tp_QuantizationConfigHash (t_Pricing task)))
  then false
  else
    let requested := if String.eqb (tp_RequestedDType (t_Pricing task)) "" then AutoExecutionDType
                     else tp_RequestedDType (t_Pricing task) in
    String.eqb requested AutoExecutionDType || String.eqb (gc_ExecutionDType record) requested.

(** [vramIntervalDistance], src/service/task_execution_calibration.go 253-261 *)
Definition vramIntervalDistance (record : GPUExecutionCalibration) (minVRAM : Z) : Z :=
  if minVRAM <? gc_MinVRAMRequirement record then gc_MinVRAMRequirement record - minVRAM
  else if gc_MaxVRAMRequirement record <? minVRAM then minVRAM - gc_MaxVRAMRequirement record
  else 0.

(** [updateVRAMRequirement], src/service/task_execution_calibration.go 471-478 *)
Definition updateVRAMRequirement (record : GPUExecutionCalibration) (minVRAM : Z) : GPUExecutionCalibration :=
  let record := if (gc_MinVRAMRequirement record =? 0) || (minVRAM <? gc_MinVRAMRequirement record)
                then record <| gc_MinVRAMRequirement := minVRAM |> else record in
  if gc_MaxVRAMRequirement record <? minVRAM then record <| gc_MaxVRAMRequirement := minVRAM |> else record.

(** The loop that keeps the records nearest to the demanded memory,
    src/service/task_execution_calibration.go 310-321 *)
Definition nearestStep (minVRAM : Z) (acc : Z * list cachedGPUCalibration) (cached : cachedGPUCalibration)
    : Z * list cachedGPUCalibration :=
  let distance := vramIntervalDistance (cg_record cached) minVRAM in
  let '(minDistance, nearest) := if distance <? fst acc then (distance, []) else acc in
  (minDistance, if distance =? minDistance then nearest ++ [cached] else nearest).

Section calibration.
Context {C : CalibrationEnv}.

(** [resetSDCalibration], src/service/task_execution_calibration.go 203-211 *)
Definition resetSDCalibration (record : GPUExecutionCalibration) : GPUExecutionCalibration :=
  let initial := initialExecutionParameters in
  record <| gc_SDOverheadSeconds := ep_sdOverhead initial |>
         <| gc_SecondsPerSDPixelStep := ep_sdRate initial |>
         <| gc_SDFormulaVersion := sdFormulaVersion |>
         <| gc_SDXTX := zeroTriangle 2 |> <| gc_SDXTY := zeros 2 |>
         <| gc_SDSuccessSamples := 0 |>.

(** [resetLLMCalibration], src/service/task_execution_calibration.go 213-232 *)
Definition resetLLMCalibration (record : GPUExecutionCalibration) : GPUExecutionCalibration :=
  record <| gc_LLM := ep_llm initialExecutionParameters |>
         <| gc_LLMFormulaVersion := llmFormulaVersion |>
         <| gc_LLMXTX := zeroTriangle 6 |> <| gc_LLMXTY := zeros 6 |>
         <| gc_LLMSuccessSamples := 0 |>.

(** [calibrationReady], src/service/task_execution_calibration.go 686-692 *)
Definition calibrationReady (record : GPUExecutionCalibration) (taskType : TaskType) : bool :=
  let warmup := pr_CalibrationWarmupSuccessSamples cal_cfg in
  if bool_decide (taskType = TaskTypeSD)
  then (warmup <=? gc_SDSuccessSamples record) && (gc_SDFormulaVersion record =? sdFormulaVersion)
  else (warmup <=? gc_LLMSuccessSamples record) && (gc_LLMFormulaVersion record =? llmFormulaVersion).

(** The records of the first loop of [candidateCalibrationsLocked],
    src/service/task_execution_calibration.go 266-277 *)
Definition suitable (task : InferenceTask) (gpuName : string) (gpuVram : Z) (sampledOnly : bool)
    (kc : gpuCalibrationKey * cachedGPUCalibration) : bool :=
  let '(key, cached) := kc in
  negb (bool_decide (ck_taskType key ≠ t_TaskType task) ||
        (sampledOnly && negb (calibrationHasSamples (cg_record cached) (t_TaskType task)))) &&
  (if String.eqb gpuName "" then negb (ck_vram key <? t_MinVRAM task) else ck_vram key =? gpuVram).

(** [candidateCalibrationsLocked], src/service/task_execution_calibration.go
    263-323; [records] is the content of the map in the order of the visit. *)
Definition candidateCalibrations (records : list (gpuCalibrationKey * cachedGPUCalibration))
    (task : InferenceTask) (gpuName : string) (gpuVram : Z) (sampledOnly : bool) : list cachedGPUCalibration :=
  let visited := filter (λ kc, suitable task gpuName gpuVram sampledOnly kc) records in
  let hardware := map snd visited in
  let exactGPU := map snd (filter (λ kc, ck_name (fst kc) = gpuName) visited) in
  let matching := filter (λ cached, recordMatchesTaskConfig (cg_record cached) task) hardware in
  let matchingExact := filter (λ cached, gc_GPUName (cg_record cached) = gpuName) matching in
  let exactReady := forallb (λ cached, calibrationReady (cg_record cached) (t_TaskType task)) matchingExact in
  if negb (String.eqb gpuName "") && negb (bool_decide (matchingExact = [])) && (sampledOnly || exactReady)
  then matchingExact
  else if negb (bool_decide (matching = [])) then matching
  else
    let hardware := if negb (bool_decide (exactGPU = [])) then exactGPU else hardware in
    snd (foldl (nearestStep (t_MinVRAM task)) (max_u64, []) hardware).

(** ** Prices *)

(** The sum of the loop of [meanParameters]. *)
Definition addParameters (taskType : TaskType) (total parameters : executionParameters) : executionParameters :=
  if bool_decide (taskType = TaskTypeSD)
  then mkParameters (f64_add (ep_sdOverhead total) (ep_sdOverhead parameters))
         (f64_add (ep_sdRate total) (ep_sdRate parameters)) (ep_llm total)
  else mkParameters (ep_sdOverhead total) (ep_sdRate total)
         (llmParametersFromValues (zip_with f64_add (llmValues (ep_llm total)) (llmValues (ep_llm parameters)))).

(** [var total executionParameters] *)
Definition zeroParameters : executionParameters :=
  mkParameters f64_zero f64_zero (llmParametersFromValues []).

(** [meanParameters], src/service/task_execution_calibration.go 325-357 *)
Definition meanParameters (records : list cachedGPUCalibration) (taskType : TaskType) : executionParameters :=
  let total := foldl (λ t cached, addParameters taskType t (parametersFromRecord (cg_record cached)))
                 zeroParameters records in
  let count := foldl (λ c _, f64_add c f64_one) f64_zero records in
  if f64_eq count f64_zero then initialExecutionParameters
  else if bool_decide (taskType = TaskTypeSD)
  then mkParameters (f64_div (ep_sdOverhead total) count) (f64_div (ep_sdRate total) count) (ep_llm total)
  else mkParameters (ep_sdOverhead total) (ep_sdRate total)
         (llmParametersFromValues (map (λ v, f64_div v count) (llmValues (ep_llm total)))).

(** [range globalTaskPricing.records] *)
Definition visitRecords (st : taskPricingStore) : list (gpuCalibrationKey * cachedGPUCalibration) * taskPricingStore :=
  (cal_order (ps_tick st) (map_to_list (ps_records st)), st <| ps_tick := S (ps_tick st) |>).

(** [candidateCalibrationsLocked] on the store, src/service/task_execution_calibration.go 263-323 *)
Definition candidateCalibrationsLocked (st : taskPricingStore) (task : InferenceTask) (gpuName : string)
    (gpuVram : Z) (sampledOnly : bool) : list cachedGPUCalibration * taskPricingStore :=
  let '(records, st) := visitRecords st in
  (candidateCalibrations records task gpuName gpuVram sampledOnly, st).

(** The key of [aggregates] for a task, src/service/task_execution_calibration.go
    399-403 *)
Definition pricingKey (task : InferenceTask) : taskPricingKey :=
  mkTaskPricingKey (t_TaskType task) (t_MinVRAM task) (tp_ModelName (t_Pricing task))
    (tp_RequestedDType (t_Pricing task)) (hash32FromColumn (tp_QuantizationConfigHash (t_Pricing task))).

(** [getTaskPricingParameters], src/service/task_execution_calibration.go 391-411 *)
Definition getTaskPricingParameters (st : taskPricingStore) (task : InferenceTask)
    : executionParameters * taskPricingStore :=
  if negb (String.eqb (t_RequiredGPU task) "")
  then
    let '(candidates, st) := candidateCalibrationsLocked st task (t_RequiredGPU task) (t_RequiredGPUVRAM task) true in
    (meanParameters candidates (t_TaskType task), st)
  else
    let key := pricingKey task in
    match ps_aggregates st !! key with
    | Some parameters => (parameters, st)
    | None =>
        let '(candidates, st) := candidateCalibrationsLocked st task "" 0 true in
        let parameters := meanParameters candidates (t_TaskType task) in
        (parameters, st <| ps_aggregates := <[key := parameters]> (ps_aggregates st) |>)
    end.

(** A task with the requirements of a key and nothing else,
    src/service/task_execution_calibration.go 461-465 *)
Definition keyTask (key : taskPricingKey) : InferenceTask :=
  mkTask 0 "" "" "" "" TaskQueued (pk_taskType key) "" "" [] 0 0 (pk_vramDemand key) "" 0 0 0 TaskAbortReasonNone
    TaskErrorNone "" None "" "" 0 "" false None None None None None None None None [] [] [] false
    (unpriced <| tp_ModelName := pk_modelName key |> <| tp_RequestedDType := pk_requestedDType key |>
              <| tp_QuantizationConfigHash := pk_quantizationConfigHash key |>).

(** [recomputeAggregatesLocked], src/service/task_execution_calibration.go 458-469;
    the entries do not depend on each other, so they are taken in the order of
    the map. *)
Fixpoint recomputeEntries (st : taskPricingStore) (taskType : TaskType) (changedGPUVram : Z)
    (entries : list (taskPricingKey * executionParameters)) : taskPricingStore :=
  match entries with
  | [] => st
  | (key, _) :: entries' =>
      let st :=
        if bool_decide (pk_taskType key = taskType) && (pk_vramDemand key <=? changedGPUVram)
        then
          let '(candidates, st) := candidateCalibrationsLocked st (keyTask key) "" 0 true in
          st <| ps_aggregates := <[key := meanParameters candidates taskType]> (ps_aggregates st) |>
        else st in
      recomputeEntries st taskType changedGPUVram entries'
  end.
(** [recomputeAggregatesLocked], src/service/task_execution_calibration.go 458-469 *)
Definition recomputeAggregatesLocked (st : taskPricingStore) (taskType : TaskType) (changedGPUVram : Z)
    : taskPricingStore :=
  recomputeEntries st taskType changedGPUVram (map_to_list (ps_aggregates st)).

(** ** Execution snapshots *)

(** [CaptureTaskExecutionGPUSnapshot], src/service/task_execution_calibration.go 413-419 *)
Definition CaptureTaskExecutionGPUSnapshot (st : taskPricingStore) (now : Time) (taskIDCommitment gpuName : string)
    (gpuVram : Z) : taskPricingStore :=
  st <| ps_snapshots := <[taskIDCommitment := mkSnapshot gpuName gpuVram now]> (ps_snapshots st) |>.

(** [DeleteTaskExecutionGPUSnapshot], src/service/task_execution_calibration.go 421-425 *)
Definition DeleteTaskExecutionGPUSnapshot (st : taskPricingStore) (taskIDCommitment : string) : taskPricingStore :=
  st <| ps_snapshots := delete taskIDCommitment (ps_snapshots st) |>.

(** [TaskExecutionGPUSnapshot], src/service/task_execution_calibration.go 446-451 *)
Definition TaskExecutionGPUSnapshot (st : taskPricingStore) (taskIDCommitment : string) : option (string * Z) :=
  (λ s, (sn_GPUName s, sn_GPUVram s)) <$> ps_snapshots st !! taskIDCommitment.

(** [CleanupTaskExecutionGPUSnapshots], src/service/task_execution_calibration.go 867-868:
    the sum of the configured seconds is a uint64. *)
Definition snapshotMaxAge : Duration :=
  wrap_i64 (wrap_i64 (wrap_u64 (pr_MaxExecutionTimeoutSeconds cal_cfg + pr_AppValidationTimeoutSeconds cal_cfg +
                                pr_ResultUploadTimeoutSeconds cal_cfg)) * second).
(** [CleanupTaskExecutionGPUSnapshots], src/service/task_execution_calibration.go 866-881:
    the number of removed snapshots and the store *)
Definition CleanupTaskExecutionGPUSnapshots (st : taskPricingStore) (now : Time) : nat * taskPricingStore :=
  let cutoff := time_add now (wrap_i64 (- snapshotMaxAge)) in
  let kept := filter (λ kv, ¬ (sn_CapturedAt (snd kv) < cutoff)) (ps_snapshots st) in
  ((size (ps_snapshots st) - size kept)%nat, st <| ps_snapshots := kept |>).

(** ** Samples *)

(** [createExactCalibrationLocked], src/service/task_execution_calibration.go 359-382 *)
Definition newCalibration (key : gpuCalibrationKey) : GPUExecutionCalibration :=
  let initial := initialExecutionParameters in
  mkGPUExecutionCalibration 0 (ck_taskType key) (ck_name key) (ck_vram key) (ck_modelName key)
    (ck_executionDType key) (ck_requiredModelFilesHash key) (ck_quantizationConfigHash key) 0 0
    (ep_sdOverhead initial) (ep_sdRate initial) sdFormulaVersion (zeroTriangle 2) (zeros 2) 0
    (ep_llm initial) llmFormulaVersion (zeroTriangle 6) (zeros 6) 0.
(** [createExactCalibrationLocked], src/service/task_execution_calibration.go 359-382 *)
Definition createExactCalibrationLocked (st : taskPricingStore) (key : gpuCalibrationKey)
    : cachedGPUCalibration * taskPricingStore :=
  let cached := mkCached (newCalibration key) 0 in
  (cached, st <| ps_records := <[key := cached]> (ps_records st) |>).

(** [exactCalibrationLocked], src/service/task_execution_calibration.go 384-389 *)
Definition exactCalibrationLocked (st : taskPricingStore) (key : gpuCalibrationKey)
    : cachedGPUCalibration * taskPricingStore :=
  match ps_records st !! key with
  | Some cached => (cached, st)
  | None => createExactCalibrationLocked st key
  end.

(** [cached.record = next] and [markDirtyLocked],
    src/service/task_execution_calibration.go 453-456 *)
Definition markDirtyLocked (st : taskPricingStore) (key : gpuCalibrationKey) (next : GPUExecutionCalibration)
    : taskPricingStore :=
  let version := wrap_u64 (ps_version st + 1) in
  st <| ps_version := version |> <| ps_records := <[key := mkCached next version]> (ps_records st) |>.

(** [Duration.Seconds] *)
Definition Seconds (d : Duration) : float64 :=
  f64_add (f64_of_Z (Z.quot d second)) (f64_div (f64_of_Z (Z.rem d second)) (f64_of_Z second)).

(** The cap on a sample, src/service/task_execution_calibration.go 506-511 and
    645-650 *)
Definition capSample (prediction actual : float64) : float64 :=
  if f64_lt f64_zero prediction
  then
    let maxActual := f64_mul prediction (f64_add f64_one (pr_CalibrationMaxPositiveResidualMultiple cal_cfg)) in
    if f64_lt maxActual actual then maxActual else actual
  else actual.

(** [CalibrateValidatedSDTask], src/service/task_execution_calibration.go 480-525 *)
Definition CalibrateValidatedSDTask (st : taskPricingStore) (task : InferenceTask) : result unit * taskPricingStore :=
  match t_TaskType task, tp_SDUnits (t_Pricing task), t_StartTime task, t_ScoreReadyTime task with
  | TaskTypeSD, Some units, Some start, Some ready =>
      if units =? 0 then (Ok tt, st)
      else if negb (bool_decide (t_Status task ∈ [TaskValidated; TaskGroupValidated; TaskEndGroupRefund]))
      then (Ok tt, st)
      else
        match ps_snapshots st !! t_TaskIDCommitment task with
        | None => (Ok tt, st)
        | Some snapshot =>
            match taskCalibrationKey task (sn_GPUName snapshot) (sn_GPUVram snapshot) with
            | Err e => (Err e, st)
            | Ok key =>
                let '(cached, st) := exactCalibrationLocked st key in
                let x := [f64_one; f64_of_Z units] in
                let parameters := parametersFromRecord (cg_record cached) in
                let prediction := f64_add (ep_sdOverhead parameters)
                                    (f64_mul (f64_of_Z units) (ep_sdRate parameters)) in
                let actual := capSample prediction (Seconds (time_sub ready start)) in
                let next := cg_record cached in
                let '(matrix, yValues) := accumulateWeightedSample (gc_SDXTX next) (gc_SDXTY next) x actual
                                            (pr_CalibrationAlpha cal_cfg) in
                let next := next <| gc_SDXTX := matrix |> <| gc_SDXTY := yValues |>
                                 <| gc_SDSuccessSamples := wrap_u64 (gc_SDSuccessSamples next + 1) |> in
                let next := updateVRAMRequirement next (t_MinVRAM task) in
                match fitSDParameters next with
                | Err e => (Err e, st)
                | Ok next =>
                    let st := markDirtyLocked st key next in
                    (Ok tt, recomputeAggregatesLocked st TaskTypeSD (sn_GPUVram snapshot))
                end
            end
        end
  | _, _, _, _ => (Ok tt, st)
  end.

(** [CalibrateUploadedLLMTask], src/service/task_execution_calibration.go 608-671 *)
Definition CalibrateUploadedLLMTask (st : taskPricingStore) (task : InferenceTask) (completionTokens : Z)
    : result unit * taskPricingStore :=
  match t_TaskType task, tp_LLMTextInputBytes (t_Pricing task), tp_LLMImageCount (t_Pricing task),
        tp_LLMImagePixels (t_Pricing task), t_StartTime task, t_ScoreReadyTime task with
  | TaskTypeLLM, Some inputBytes, Some imageCount, Some imagePixels, Some start, Some ready =>
      if negb (bool_decide (t_Status task ∈ [TaskEndSuccess; TaskEndGroupSuccess; TaskEndGroupRefund]))
      then (Ok tt, st)
      else
        match ps_snapshots st !! t_TaskIDCommitment task with
        | None => (Ok tt, st)
        | Some snapshot =>
            match taskCalibrationKey task (sn_GPUName snapshot) (sn_GPUVram snapshot) with
            | Err e => (Err e, st)
            | Ok key =>
                let '(cached, st) := exactCalibrationLocked st key in
                let x := [f64_one; f64_of_Z inputBytes; f64_of_Z completionTokens;
                          if t_ModelSwtiched task then f64_one else f64_zero;
                          f64_of_Z imageCount; f64_div (f64_of_Z imagePixels) (f64_of_Z 1000000)] in
                let prediction := foldl f64_add f64_zero (zip_with f64_mul x (llmValues (gc_LLM (cg_record cached)))) in
                let actual := capSample prediction (Seconds (time_sub ready start)) in
                let next := cg_record cached in
                let '(matrix, yValues) := accumulateWeightedSample (gc_LLMXTX next) (gc_LLMXTY next) x actual
                                            (pr_CalibrationAlpha cal_cfg) in
                let next := next <| gc_LLMXTX := matrix |> <| gc_LLMXTY := yValues |>
                                 <| gc_LLMSuccessSamples := wrap_u64 (gc_LLMSuccessSamples next + 1) |> in
                let next := updateVRAMRequirement next (t_MinVRAM task) in
                match fitLLMParameters next with
                | Err e => (Err e, st)
                | Ok next =>
                    let st := markDirtyLocked st key next in
                    (Ok tt, recomputeAggregatesLocked st TaskTypeLLM (sn_GPUVram snapshot))
                end
            end
        end
  | _, _, _, _, _, _ => (Ok tt, st)
  end.

(** [DeleteGroupRefundExecutionGPUSnapshots],
    src/service/task_execution_calibration.go 430-444; [groupTasks] is what
    [GetTaskGroupByTaskID] returns, whose error is only logged. *)
Definition DeleteGroupRefundExecutionGPUSnapshots (st : taskPricingStore) (taskID : string)
    (groupTasks : result (list InferenceTask)) : taskPricingStore :=
  if String.eqb taskID "" then st
  else
    match groupTasks with
    | Err _ => st
    | Ok tasks =>
        foldl (λ st task,
          if bool_decide (t_Status task = TaskEndGroupRefund)
          then DeleteTaskExecutionGPUSnapshot st (t_TaskIDCommitment task) else st) st tasks
    end.

(** ** Execution timeouts *)

(** [computeEstimatedNodeSeconds], src/service/task_pricing.go 217-252 *)
Definition computeEstimatedNodeSeconds (task : InferenceTask) (parameters : executionParameters) (modelSwitch : bool)
    : result float64 :=
  match t_TaskType task with
  | TaskTypeSD =>
      match tp_SDUnits (t_Pricing task) with
      | None => Err (ErrMsg "sd_units is not set")
      | Some units => Ok (f64_add (ep_sdOverhead parameters) (f64_mul (f64_of_Z units) (ep_sdRate parameters)))
      end
  | TaskTypeLLM =>
      match tp_LLMTextInputBytes (t_Pricing task) with
      | None => Err (ErrMsg "llm_text_input_bytes is not set")
      | Some inputBytes =>
          match tp_LLMMaxNewTokens (t_Pricing task) with
          | None => Err (ErrMsg "llm_max_new_tokens is not set")
          | Some maxNewTokens =>
              match tp_LLMImageCount (t_Pricing task) with
              | None => Err (ErrMsg "llm_image_count is not set")
              | Some imageCount =>
                  match tp_LLMImagePixels (t_Pricing task) with
                  | None => Err (ErrMsg "llm_image_pixels is not set")
                  | Some imagePixels =>
                      let switchWork := if modelSwitch then f64_one else f64_zero in
                      let llm := ep_llm parameters in
                      Ok (f64_add (f64_add (f64_add (f64_add (f64_add (lp_constantSeconds llm)
                            (f64_mul (f64_of_Z inputBytes) (lp_secondsPerInputByte llm)))
                            (f64_mul (f64_of_Z maxNewTokens) (lp_secondsPerOutputToken llm)))
                            (f64_mul switchWork (lp_modelSwitchSeconds llm)))
                            (f64_mul (f64_of_Z imageCount) (lp_secondsPerImage llm)))
                            (f64_mul (f64_div (f64_of_Z imagePixels) (f64_of_Z 1000000)) (lp_secondsPerMegapixel llm)))
                  end
              end
          end
      end
  | TaskTypeSDFTLora => Ok (f64_of_Z (t_Timeout task))
  end.

(** [ExecutionTimeoutDescription], src/service/task_execution_calibration.go 706-727 *)
Record ExecutionTimeoutDescription := mkDescription {
  ed_ColdStart : bool;
  ed_ModelName : string;
  ed_RequestedDType : string;
  ed_QuantizationConfigHash : string;
  ed_SelectedExecutionDType : string;
  ed_MinVRAMRequirement : Z;
  ed_MaxVRAMRequirement : Z;
  ed_FallbackUsed : bool;
  ed_PredictedExecutionSeconds : float64;
  ed_TimeoutMultiplier : float64;
  ed_MinExecutionTimeoutSeconds : Z;
  ed_MaxExecutionTimeoutSeconds : Z;
  ed_ComputedTimeout : Z;
  ed_OverheadSeconds : float64;
  ed_ConstantSeconds : float64;
  ed_TextInputSeconds : float64;
  ed_OutputTokenSeconds : float64;
  ed_ModelSwitchSeconds : float64;
  ed_ImageCountSeconds : float64;
  ed_ImageMegapixelSeconds : float64
}.

#[export] Instance eta_description : Eta ExecutionTimeoutDescription := λ r,
  mkDescription (ed_ColdStart r) (ed_ModelName r) (ed_RequestedDType r) (ed_QuantizationConfigHash r)
    (ed_SelectedExecutionDType r) (ed_MinVRAMRequirement r) (ed_MaxVRAMRequirement r) (ed_FallbackUsed r)
    (ed_PredictedExecutionSeconds r) (ed_TimeoutMultiplier r) (ed_MinExecutionTimeoutSeconds r)
    (ed_MaxExecutionTimeoutSeconds r) (ed_ComputedTimeout r) (ed_OverheadSeconds r) (ed_ConstantSeconds r)
    (ed_TextInputSeconds r) (ed_OutputTokenSeconds r) (ed_ModelSwitchSeconds r) (ed_ImageCountSeconds r)
    (ed_ImageMegapixelSeconds r).

(** [setSDTimeoutContributions], src/service/task_execution_calibration.go 794-799 *)
Definition setSDTimeoutContributions (description : ExecutionTimeoutDescription) (task : InferenceTask)
    (parameters : executionParameters) : ExecutionTimeoutDescription :=
  if bool_decide (t_TaskType task ≠ TaskTypeSD) then description
  else description <| ed_OverheadSeconds := ep_sdOverhead parameters |>.

(** [setLLMTimeoutContributions], src/service/task_execution_calibration.go 801-814 *)
Definition setLLMTimeoutContributions (description : ExecutionTimeoutDescription) (task : InferenceTask)
    (parameters : llmExecutionParameters) : ExecutionTimeoutDescription :=
  match t_TaskType task, tp_LLMTextInputBytes (t_Pricing task), tp_LLMMaxNewTokens (t_Pricing task),
        tp_LLMImageCount (t_Pricing task), tp_LLMImagePixels (t_Pricing task) with
  | TaskTypeLLM, Some inputBytes, Some maxNewTokens, Some imageCount, Some imagePixels =>
      let description := description
        <| ed_ConstantSeconds := lp_constantSeconds parameters |>
        <| ed_TextInputSeconds := f64_mul (f64_of_Z inputBytes) (lp_secondsPerInputByte parameters) |>
        <| ed_OutputTokenSeconds := f64_mul (f64_of_Z maxNewTokens) (lp_secondsPerOutputToken parameters) |> in
      let description := if t_ModelSwtiched task
        then description <| ed_ModelSwitchSeconds := lp_modelSwitchSeconds parameters |> else description in
      description
        <| ed_ImageCountSeconds := f64_mul (f64_of_Z imageCount) (lp_secondsPerImage parameters) |>
        <| ed_ImageMegapixelSeconds :=
             f64_mul (f64_div (f64_of_Z imagePixels) (f64_of_Z 1000000)) (lp_secondsPerMegapixel parameters) |>
  | _, _, _, _, _ => description
  end.

(** The state of the loop over the candidates: the prediction, the parameters it
    was made with, the description, and whether a ready candidate was seen. *)
Record selection := mkSelection {
  sl_prediction : float64;
  sl_parameters : executionParameters;
  sl_description : ExecutionTimeoutDescription;
  sl_selected : bool
}.

(** The loop, src/service/task_execution_calibration.go 763-784 *)
Fixpoint selectCandidate (task : InferenceTask) (allReady : bool) (s : selection)
    (candidates : list cachedGPUCalibration) : result selection :=
  match candidates with
  | [] => Ok s
  | cached :: rest =>
      let record := cg_record cached in
      let description := if negb (recordMatchesTaskConfig record task)
                         then (sl_description s) <| ed_FallbackUsed := true |> else sl_description s in
      let s := mkSelection (sl_prediction s) (sl_parameters s) description (sl_selected s) in
      if negb (calibrationReady record (t_TaskType task)) then selectCandidate task allReady s rest
      else
        let candidateParameters := parametersFromRecord record in
        match computeEstimatedNodeSeconds task candidateParameters (t_ModelSwtiched task) with
        | Err e => Err e
        | Ok candidate =>
            let s :=
              if (allReady && negb (sl_selected s)) || f64_le (sl_prediction s) candidate
              then mkSelection candidate candidateParameters
                     (description <| ed_SelectedExecutionDType := gc_ExecutionDType record |>
                                  <| ed_MinVRAMRequirement := gc_MinVRAMRequirement record |>
                                  <| ed_MaxVRAMRequirement := gc_MaxVRAMRequirement record |>) true
              else mkSelection (sl_prediction s) (sl_parameters s) description true in
            selectCandidate task allReady s rest
        end
  end.

(** [DescribeExecutionTimeout], src/service/task_execution_calibration.go 732-792 *)
Definition DescribeExecutionTimeout (st : taskPricingStore) (task : InferenceTask) (gpuName : string) (gpuVram : Z)
    : result ExecutionTimeoutDescription * taskPricingStore :=
  let description := mkDescription false (tp_ModelName (t_Pricing task)) (tp_RequestedDType (t_Pricing task))
    (hex_bytes (hash32FromColumn (tp_QuantizationConfigHash (t_Pricing task)))) "" 0 0 false f64_zero
    (pr_TimeoutMultiplier cal_cfg) (pr_MinExecutionTimeoutSeconds cal_cfg) (pr_MaxExecutionTimeoutSeconds cal_cfg)
    (t_Timeout task) f64_zero f64_zero f64_zero f64_zero f64_zero f64_zero f64_zero in
  match t_TaskType task with
  | TaskTypeSDFTLora => (Ok description, st)
  | _ =>
      let '(candidates, st) := candidateCalibrationsLocked st task gpuName gpuVram false in
      let selectedParameters := initialExecutionParameters in
      match computeEstimatedNodeSeconds task selectedParameters (t_ModelSwtiched task) with
      | Err e => (Err e, st)
      | Ok prediction =>
          let allCandidatesReady :=
            negb (bool_decide (candidates = [])) &&
            forallb (λ cached, calibrationReady (cg_record cached) (t_TaskType task)) candidates in
          let description := description <| ed_ColdStart := negb allCandidatesReady |> in
          match selectCandidate task allCandidatesReady
                  (mkSelection prediction selectedParameters description false) candidates with
          | Err e => (Err e, st)
          | Ok s =>
              let description := setSDTimeoutContributions (sl_description s) task (sl_parameters s) in
              let description := setLLMTimeoutContributions description task (ep_llm (sl_parameters s)) in
              let prediction := sl_prediction s in
              let timeout := f64_mul prediction (pr_TimeoutMultiplier cal_cfg) in
              let timeout := Max timeout (f64_of_Z (pr_MinExecutionTimeoutSeconds cal_cfg)) in
              let timeout := Min timeout (f64_of_Z (pr_MaxExecutionTimeoutSeconds cal_cfg)) in
              (Ok (description <| ed_PredictedExecutionSeconds := prediction |>
                               <| ed_ComputedTimeout := f64_trunc (Ceil timeout) |>), st)
          end
      end
  end.

(** [ComputeExecutionTimeout], src/service/task_execution_calibration.go 694-704 *)
Definition ComputeExecutionTimeout (st : taskPricingStore) (task : InferenceTask) (gpuName : string) (gpuVram : Z)
    (switched : option bool) : result Z * taskPricingStore :=
  let timeoutTask := match switched with Some b => task <| t_ModelSwtiched := b |> | None => task end in
  match DescribeExecutionTimeout st timeoutTask gpuName gpuVram with
  | (Err e, st) => (Err e, st)
  | (Ok description, st) => (Ok (ed_ComputedTimeout description), st)
  end.

(** ** Loading and storing *)

(** [InitTaskPricing], src/service/task_execution_calibration.go 118-146, on the
    rows of the table *)
Definition loadRecord (st : taskPricingStore) (record : GPUExecutionCalibration) : taskPricingStore :=
  let cached := mkCached record 0 in
  let '(cached, version) :=
    if negb (gc_SDFormulaVersion record =? sdFormulaVersion)
    then let v := wrap_u64 (ps_version st + 1) in (mkCached (resetSDCalibration (cg_record cached)) v, v)
    else (cached, ps_version st) in
  let '(cached, version) :=
    if negb (gc_LLMFormulaVersion record =? llmFormulaVersion)
    then let v := wrap_u64 (version + 1) in (mkCached (resetLLMCalibration (cg_record cached)) v, v)
    else (cached, version) in
  st <| ps_version := version |> <| ps_records := <[keyFromRecord record := cached]> (ps_records st) |>.
(** [InitTaskPricing], src/service/task_execution_calibration.go 118-146 *)
Definition InitTaskPricing (tick : nat) (records : list GPUExecutionCalibration) : taskPricingStore :=
  foldl loadRecord (mkStore ∅ ∅ ∅ 0 tick) records.

(** The read phase of [FlushTaskPricingCalibration],
    src/service/task_execution_calibration.go 817-831 *)
Definition dirtyRecords (st : taskPricingStore) : list (GPUExecutionCalibration * Z) * taskPricingStore :=
  let '(records, st) := visitRecords st in
  (omap (λ kc, if negb (cg_dirtyVersion (snd kc) =? 0)
               then Some (cg_record (snd kc), cg_dirtyVersion (snd kc)) else None) records, st).

(** The columns of the unique index of the table. *)
Definition rowKey (r : GPUExecutionCalibration) :=
  (gc_TaskType r, gc_GPUName r, gc_GPUVram r, gc_ModelName r, gc_ExecutionDType r,
   gc_RequiredModelFilesHash r, gc_QuantizationConfigHash r).

(** One row of the batch insert with [ON DUPLICATE KEY UPDATE] of all columns but
    the primary key, src/service/task_execution_calibration.go 837-852 *)
Definition upsertRow (table : list GPUExecutionCalibration) (r : GPUExecutionCalibration)
    : list GPUExecutionCalibration :=
  if existsb (λ row, bool_decide (rowKey row = rowKey r)) table
  then map (λ row, if bool_decide (rowKey row = rowKey r) then r <| gc_ID := gc_ID row |> else row) table
  else table ++ [r <| gc_ID := 1 + foldr Z.max 0 (map gc_ID table) |>].
(** The writes of [FlushTaskPricingCalibration], src/service/task_execution_calibration.go 835-853 *)
Definition upsertRecords (table : list GPUExecutionCalibration) (dirty : list (GPUExecutionCalibration * Z))
    : list GPUExecutionCalibration :=
  foldl upsertRow table (map fst dirty).

(** The last phase of the flush, src/service/task_execution_calibration.go 856-863 *)
Definition clearOne (st : taskPricingStore) (rv : GPUExecutionCalibration * Z) : taskPricingStore :=
  let key := keyFromRecord (fst rv) in
  match ps_records st !! key with
  | Some cached =>
      if cg_dirtyVersion cached =? snd rv
      then st <| ps_records := <[key := mkCached (cg_record cached) 0]> (ps_records st) |>
      else st
  | None => st
  end.
(** The last phase of [FlushTaskPricingCalibration], src/service/task_execution_calibration.go 854-864 *)
Definition clearDirty (st : taskPricingStore) (dirty : list (GPUExecutionCalibration * Z)) : taskPricingStore :=
  foldl clearOne st dirty.

(** ** Runs

    The exported functions hold the lock of the store, so each is one step; a
    flush takes the lock twice and writes the table in between, so it is three
    steps.  Flushes do not overlap: they are made by one goroutine. *)

(** How a write to the table ends; a timeout may hide that it was made. *)
Inductive writeOutcome := Stored | NotStored | StoredUnreported.

Inductive flushPhase :=
| FlushIdle
| FlushRead (dirty : list (GPUExecutionCalibration * Z))
| FlushWritten (dirty : list (GPUExecutionCalibration * Z)).

Record calState := mkCalState {
  cs_store : taskPricingStore;
  cs_table : list GPUExecutionCalibration;
  cs_phase : flushPhase
}.

Inductive calOp :=
| OpPrice (task : InferenceTask)
| OpDescribe (task : InferenceTask) (gpuName : string) (gpuVram : Z)
| OpCapture (now : Time) (taskIDCommitment gpuName : string) (gpuVram : Z)
| OpDelete (taskIDCommitment : string)
| OpDeleteGroup (taskID : string) (groupTasks : result (list InferenceTask))
| OpCleanup (now : Time)
| OpSampleSD (task : InferenceTask)
| OpSampleLLM (task : InferenceTask) (completionTokens : Z)
| OpFlushRead
| OpFlushWrite (outcome : writeOutcome)
| OpFlushClear
| OpRestart.

(** [FlushTaskPricingCalibration], src/service/task_execution_calibration.go
    816-864, in three steps; a flush without dirty records ends at once. *)
Definition flushStep (s : calState) (op : calOp) : calState :=
  let '(mkCalState st table phase) := s in
  match op, phase with
  | OpFlushRead, FlushIdle =>
      let '(dirty, st) := dirtyRecords st in
      mkCalState st table (if bool_decide (dirty = []) then FlushIdle else FlushRead dirty)
  | OpFlushWrite Stored, FlushRead dirty => mkCalState st (upsertRecords table dirty) (FlushWritten dirty)
  | OpFlushWrite NotStored, FlushRead _ => mkCalState st table FlushIdle
  | OpFlushWrite StoredUnreported, FlushRead dirty => mkCalState st (upsertRecords table dirty) FlushIdle
  | OpFlushClear, FlushWritten dirty => mkCalState (clearDirty st dirty) table FlushIdle
  | _, _ => s
  end.

Definition runCalOp (s : calState) (op : calOp) : calState :=
  let store f := mkCalState (f (cs_store s)) (cs_table s) (cs_phase s) in
  match op with
  | OpPrice task => store (λ st, snd (getTaskPricingParameters st task))
  | OpDescribe task gpuName gpuVram => store (λ st, snd (DescribeExecutionTimeout st task gpuName gpuVram))
  | OpCapture now c gpuName gpuVram => store (λ st, CaptureTaskExecutionGPUSnapshot st now c gpuName gpuVram)
  | OpDelete c => store (λ st, DeleteTaskExecutionGPUSnapshot st c)
  | OpDeleteGroup taskID tasks => store (λ st, DeleteGroupRefundExecutionGPUSnapshots st taskID tasks)
  | OpCleanup now => store (λ st, snd (CleanupTaskExecutionGPUSnapshots st now))
  | OpSampleSD task => store (λ st, snd (CalibrateValidatedSDTask st task))
  | OpSampleLLM task tokens => store (λ st, snd (CalibrateUploadedLLMTask st task tokens))
  | OpRestart => mkCalState (InitTaskPricing (ps_tick (cs_store s)) (cs_table s)) (cs_table s) FlushIdle
  | _ => flushStep s op
  end.

Definition startState (table : list GPUExecutionCalibration) : calState :=
  mkCalState (InitTaskPricing 0 table) table FlushIdle.

Definition runCalOps (ops : list calOp) (s : calState) : calState := foldl runCalOp s ops.
End calibration.

Lemma updateVRAMRequirement_interval record v :
  gc_MinVRAMRequirement (updateVRAMRequirement record v) =
    (if (gc_MinVRAMRequirement record =? 0) || (v <? gc_MinVRAMRequirement record) then v
     else gc_MinVRAMRequirement record) ∧
  gc_MaxVRAMRequirement (updateVRAMRequirement record v) = Z.max (gc_MaxVRAMRequirement record) v.
Proof.
  unfold updateVRAMRequirement.
  destruct ((gc_MinVRAMRequirement record =? 0) || (v <? gc_MinVRAMRequirement record)).
  - change (gc_MaxVRAMRequirement record <| gc_MinVRAMRequirement := v |>) with (gc_MaxVRAMRequirement record).
    destruct (Z.ltb_spec (gc_MaxVRAMRequirement record) v); (split; [done|]);
      [change (v = Z.max (gc_MaxVRAMRequirement record) v)|change (gc_MaxVRAMRequirement record = Z.max (gc_MaxVRAMRequirement record) v)]; lia.
  - destruct (Z.ltb_spec (gc_MaxVRAMRequirement record) v); (split; [done|]);
      [change (v = Z.max (gc_MaxVRAMRequirement record) v)|]; lia.
Qed.

(** A demand of zero is also the mark of an interval without samples: the sample
    after it forgets the demands of all earlier ones. *)
Theorem vram_interval_forgets {C : CalibrationEnv} key a c : 0 < a < c →
  let r := updateVRAMRequirement (updateVRAMRequirement (updateVRAMRequirement (newCalibration key) a) 0) c in
  (gc_MinVRAMRequirement r, gc_MaxVRAMRequirement r) = (c, c) ∧ 0 < vramIntervalDistance r a.
Proof.
  intros H r. unfold r. clear r.
  destruct (updateVRAMRequirement_interval (newCalibration key) a) as [L1 M1].
  set (r1 := updateVRAMRequirement (newCalibration key) a) in *.
  destruct (updateVRAMRequirement_interval r1 0) as [L2 M2]. set (r2 := updateVRAMRequirement r1 0) in *.
  destruct (updateVRAMRequirement_interval r2 c) as [L3 M3]. set (r := updateVRAMRequirement r2 c) in *.
  change (gc_MinVRAMRequirement (newCalibration key)) with 0 in *.
  change (gc_MaxVRAMRequirement (newCalibration key)) with 0 in *. clearbody r r2 r1.
  change (0 =? 0) with true in L1. cbn [orb] in L1.
  rewrite L1, (proj2 (Z.ltb_lt 0 a)), orb_true_r in L2 by lia. rewrite L2 in L3. cbn [Z.eqb orb] in L3.
  unfold vramIntervalDistance. rewrite L3, M3, M2, M1, (proj2 (Z.ltb_lt a c)) by lia. split; [f_equal|]; lia.
Qed.

End Calibration.
