(* ===== verification/CalibrationBounds.v ===== *)
(** * Well-formed calibrations and bounded timeouts

    Every run of the calibration keeps the fitted parameters finite, not negative
    and filed under the key of their record; therefore every execution timeout
    lies within the configured limits and is computed from the slowest suitable
    record. *)

From S2P Require Import Prelude Models Float64 Config Mac ModelFiles Calibration.

Module CalibrationBounds.
Import Float64 Mac ModelFiles Calibration.

(** ** Good numbers *)

(** A canonical, finite number that is not negative. *)
Definition good (x : float64) : Prop := valid x ∧ finite x = true ∧ nonneg x = true.

Definition good_parameters (p : executionParameters) : Prop :=
  good (ep_sdOverhead p) ∧ good (ep_sdRate p) ∧ Forall good (llmValues (ep_llm p)).

(** The shape of the matrices of a record. *)
Definition triangle (n : nat) (m : list (list float64)) : Prop :=
  length m = n ∧ ∀ i row, m !! i = Some row → length row = (n - i)%nat.

Definition good_record (r : GPUExecutionCalibration) : Prop :=
  good_parameters (parametersFromRecord r) ∧
  triangle 2 (gc_SDXTX r) ∧ length (gc_SDXTY r) = 2%nat ∧
  triangle 6 (gc_LLMXTX r) ∧ length (gc_LLMXTY r) = 6%nat ∧
  length (gc_RequiredModelFilesHash r) = 32%nat ∧ length (gc_QuantizationConfigHash r) = 32%nat ∧
  gc_SDFormulaVersion r = sdFormulaVersion ∧ gc_LLMFormulaVersion r = llmFormulaVersion.

(** The records of a store are good and filed under their keys. *)
Definition good_store (st : taskPricingStore) : Prop :=
  ∀ key c, ps_records st !! key = Some c → good_record (cg_record c) ∧ keyFromRecord (cg_record c) = key.

(** A configuration that passed the checks of the relay and has no infinities or
    NaNs, which the checks let through. *)
Definition good_config (cfg : TaskPricingConfig) : Prop :=
  checkTaskPricingConfig cfg = true ∧
  Forall (λ x, valid x ∧ finite x = true)
    [pr_InitialSDOverheadSeconds cfg; pr_InitialSecondsPerSDPixelStep cfg; pr_InitialLLMConstantSeconds cfg;
     pr_InitialLLMSecondsPerInputByte cfg; pr_InitialLLMSecondsPerOutputToken cfg;
     pr_InitialLLMModelSwitchSeconds cfg; pr_InitialLLMSecondsPerImage cfg;
     pr_InitialLLMSecondsPerMegapixel cfg; pr_TimeoutMultiplier cfg] ∧
  0 ≤ pr_MinExecutionTimeoutSeconds cfg ∧ pr_MaxExecutionTimeoutSeconds cfg < 2 ^ 53.

Lemma unset_false x : valid x ∧ finite x = true → f64_le x f64_zero = false → good x ∧ f64_lt f64_zero x = true.
Proof. intros [V F] H. destruct x as [?|?| |[] ? ?]; try done; repeat split; done. Qed.

Lemma good_config_positive cfg : good_config cfg →
  Forall good [pr_InitialSDOverheadSeconds cfg; pr_InitialSecondsPerSDPixelStep cfg; pr_InitialLLMConstantSeconds cfg;
     pr_InitialLLMSecondsPerInputByte cfg; pr_InitialLLMSecondsPerOutputToken cfg;
     pr_InitialLLMModelSwitchSeconds cfg; pr_InitialLLMSecondsPerImage cfg; pr_InitialLLMSecondsPerMegapixel cfg] ∧
  good (pr_TimeoutMultiplier cfg) ∧ f64_lt f64_zero (pr_TimeoutMultiplier cfg) = true ∧
  pr_MinExecutionTimeoutSeconds cfg ≤ pr_MaxExecutionTimeoutSeconds cfg.
Proof.
  intros (Hc & Hf & _). unfold checkTaskPricingConfig in Hc. apply negb_true_iff in Hc.
  repeat (apply orb_false_iff in Hc; let H := fresh "H" in destruct Hc as [Hc H]).
  repeat (apply Forall_cons in Hf; let V := fresh "V" in destruct Hf as [V Hf]).
  repeat (match goal with V : valid ?x ∧ _, U : f64_le ?x f64_zero = false |- _ =>
            destruct (unset_false x V U); clear V U end).
  split; [repeat (constructor; [done|]); constructor|]. split; [done|]. split; [done|].
  repeat match goal with H : (_ <? _) = false |- _ => apply Z.ltb_ge in H end. done.
Qed.

Section bounds.
Context {C : CalibrationEnv}.
Context (Hcfg : good_config cal_cfg).

Lemma initial_good : good_parameters initialExecutionParameters.
Proof.
  destruct (good_config_positive _ Hcfg) as [H _].
  repeat (apply Forall_cons in H; let V := fresh "V" in destruct H as [V H]).
  split; [done|]. split; [done|]. repeat (constructor; [done|]). constructor.
Qed.

(** ** The fit *)

Lemma clipCoefficients_good cs : ∀ ss vs, clipCoefficients cs ss = Ok vs →
  Forall good vs ∧ length vs = Nat.min (length cs) (length ss).
Proof.
  induction cs as [|c cs IH]; intros [|s ss] vs; simpl; try (intros [= <-]; split; [constructor|done]).
  destruct (IsNaN (f64_div c s) || IsInf (f64_div c s)) eqn:Hb; [done|].
  destruct (clipCoefficients cs ss) as [vs'|] eqn:Hv; [|done]. intros [= <-].
  destruct (IH ss vs' Hv) as [I1 I2]. split; [constructor; [|done]|simpl; congruence].
  pose proof (f64_div_valid c s) as V. revert Hb V. generalize (f64_div c s). intros v Hb V.
  destruct v as [?|?| |[] m e]; try done; repeat split; try done.
Qed.

Lemma fitRidge_good xtx xty initial reg vs :
  fitRidgeLeastSquares xtx xty initial reg = Ok vs → Forall good vs ∧ length vs = length initial.
Proof.
  unfold fitRidgeLeastSquares. destruct (Nat.eqb _ _ && Nat.eqb _ _) eqn:Hd; [simpl|done].
  apply andb_true_iff in Hd as [H1%Nat.eqb_eq H2%Nat.eqb_eq].
  destruct (forallb goodScale _); [simpl|done].
  destruct (SolveVec _ _) as [cs|] eqn:Hs; [|done]. intros Hc.
  apply SolveVec_length in Hs. apply clipCoefficients_good in Hc as [Hg Hl]. split; [done|].
  rewrite Hl, Hs. rewrite !length_zip_with, !length_map. lia.
Qed.

Lemma fitSD_good r r' : good_record r → fitSDParameters r = Ok r' →
  good_record r' ∧ rowKey r' = rowKey r ∧ gc_SDSuccessSamples r' = gc_SDSuccessSamples r ∧
  gc_LLMSuccessSamples r' = gc_LLMSuccessSamples r ∧ gc_LLM r' = gc_LLM r.
Proof.
  intros ((_ & _ & HL) & Hr). unfold fitSDParameters.
  destruct (fitRidgeLeastSquares _ _ _ _) as [vs|] eqn:Hf; [|done]. intros [= <-].
  apply fitRidge_good in Hf as [Hg Hl]. destruct vs as [|v0 [|v1 [|]]]; try done.
  apply Forall_cons in Hg as [G0 [G1 _]%Forall_cons].
  split; [|done]. split; [split; [done|by split]|]. destruct Hr as (? & ? & ? & ? & ? & ? & ? & ?). by split_and!.
Qed.

Lemma fitLLM_good r r' : good_record r → fitLLMParameters r = Ok r' →
  good_record r' ∧ rowKey r' = rowKey r ∧ gc_SDSuccessSamples r' = gc_SDSuccessSamples r ∧
  gc_LLMSuccessSamples r' = gc_LLMSuccessSamples r.
Proof.
  intros ((H1 & H2 & _) & ? & ? & ? & ? & ? & ? & ? & ?). unfold fitLLMParameters.
  destruct (fitRidgeLeastSquares _ _ _ _) as [vs|] eqn:Hf; [|done]. intros [= <-].
  apply fitRidge_good in Hf as [Hg Hl]. destruct vs as [|v0 [|v1 [|v2 [|v3 [|v4 [|v5 [|]]]]]]]; done.
Qed.

Lemma zeroTriangle_triangle n : triangle n (zeroTriangle n).
Proof.
  induction n as [|n [IH1 IH2]]; [split; [done|]; intros [] ?; done|].
  split; [simpl; congruence|]. intros [|i] row; simpl.
  - intros [= <-]. simpl. unfold zeros. by rewrite length_replicate.
  - apply IH2.
Qed.

Lemma imap_triangle n f m : triangle n m → triangle n (imap (λ i row, imap (f i) row) m).
Proof.
  intros [H1 H2]. split; [by rewrite length_imap|]. intros i row Hr.
  rewrite list_lookup_imap in Hr. destruct (m !! i) as [r|] eqn:Hm; [|done]. injection Hr as <-.
  rewrite length_imap. by apply H2.
Qed.

(** ** Keys *)

Lemma hash32FromColumn_length c : length (hash32FromColumn c) = 32%nat.
Proof. unfold hash32FromColumn. rewrite length_app, length_take, length_replicate. lia. Qed.

Lemma hash32FromColumn_id c : length c = 32%nat → hash32FromColumn c = c.
Proof.
  intros H. unfold hash32FromColumn. rewrite take_ge by lia. rewrite H. simpl. by rewrite app_nil_r.
Qed.

(** For records with whole hashes the unique index of the table is the key of
    the cache. *)
Lemma keyFromRecord_rowKey r r' : good_record r → good_record r' →
  (rowKey r = rowKey r' ↔ keyFromRecord r = keyFromRecord r').
Proof.
  intros (_ & _ & _ & _ & _ & H1 & H2 & _) (_ & _ & _ & _ & _ & H3 & H4 & _).
  unfold rowKey, keyFromRecord. rewrite !hash32FromColumn_id by done. split; congruence.
Qed.

Definition good_key (k : gpuCalibrationKey) : Prop :=
  length (ck_requiredModelFilesHash k) = 32%nat ∧ length (ck_quantizationConfigHash k) = 32%nat.

Lemma newCalibration_good key : good_key key →
  good_record (newCalibration key) ∧ keyFromRecord (newCalibration key) = key.
Proof.
  intros [H1 H2]. split.
  - split; [apply initial_good|]. split; [apply zeroTriangle_triangle|]. split; [done|].
    split; [apply zeroTriangle_triangle|]. done.
  - unfold keyFromRecord. simpl. rewrite !hash32FromColumn_id by done. by destruct key.
Qed.

(** ** How an operation changes the records *)

(** The record under a key, or a new one. *)
Definition recordAt (st : taskPricingStore) (key : gpuCalibrationKey) : GPUExecutionCalibration :=
  match ps_records st !! key with Some c => cg_record c | None => newCalibration key end.

(** What a sample changes in a good record. *)
Definition sampled (taskType : TaskType) (r next : GPUExecutionCalibration) : Prop :=
  good_record r → good_record next ∧ rowKey next = rowKey r ∧
  match taskType with
  | TaskTypeSD => gc_SDSuccessSamples next = wrap_u64 (gc_SDSuccessSamples r + 1)
  | _ => gc_LLMSuccessSamples next = wrap_u64 (gc_LLMSuccessSamples r + 1)
  end.

Inductive recordChange (st st' : taskPricingStore) : Prop :=
| rc_same : ps_records st' = ps_records st → ps_version st' = ps_version st → recordChange st st'
| rc_new key : good_key key → ps_records st !! key = None → ps_version st' = ps_version st →
    ps_records st' = <[key := mkCached (newCalibration key) 0]> (ps_records st) → recordChange st st'
| rc_sample taskType key next : good_key key → sampled taskType (recordAt st key) next →
    ps_version st' = wrap_u64 (ps_version st + 1) →
    ps_records st' = <[key := mkCached next (wrap_u64 (ps_version st + 1))]> (ps_records st) →
    recordChange st st'.

Lemma recomputeEntries_frame ty v entries : ∀ st,
  ps_records (recomputeEntries st ty v entries) = ps_records st ∧
  ps_version (recomputeEntries st ty v entries) = ps_version st ∧
  ps_snapshots (recomputeEntries st ty v entries) = ps_snapshots st.
Proof.
  induction entries as [|[key p] entries IH]; intros st; [done|]. simpl.
  destruct (_ && _); [|apply IH].
  match goal with |- context [recomputeEntries ?s ty v entries] => destruct (IH s) as (-> & -> & ->) end. done.
Qed.

Lemma updateVRAM_frame r v : good_record r →
  good_record (updateVRAMRequirement r v) ∧ rowKey (updateVRAMRequirement r v) = rowKey r ∧
  gc_SDSuccessSamples (updateVRAMRequirement r v) = gc_SDSuccessSamples r ∧
  gc_LLMSuccessSamples (updateVRAMRequirement r v) = gc_LLMSuccessSamples r.
Proof.
  intros H. unfold updateVRAMRequirement. destruct (_ || _); simpl; destruct (_ <? _); done.
Qed.

Lemma accumulate_shape n xtx xty x y a m ys :
  accumulateWeightedSample xtx xty x y a = (m, ys) → triangle n xtx → length xty = n →
  triangle n m ∧ length ys = n.
Proof.
  intros Ha T L. replace m with (fst (accumulateWeightedSample xtx xty x y a)) by (by rewrite Ha).
  replace ys with (snd (accumulateWeightedSample xtx xty x y a)) by (by rewrite Ha).
  split; [by apply imap_triangle|]. unfold accumulateWeightedSample, snd. by rewrite length_imap.
Qed.

(** The record before the fit. *)
Lemma sample_prepared_SD r x y a m ys v : good_record r →
  accumulateWeightedSample (gc_SDXTX r) (gc_SDXTY r) x y a = (m, ys) →
  let r' := updateVRAMRequirement (r <| gc_SDXTX := m |> <| gc_SDXTY := ys |>
              <| gc_SDSuccessSamples := wrap_u64 (gc_SDSuccessSamples r + 1) |>) v in
  good_record r' ∧ rowKey r' = rowKey r ∧ gc_SDSuccessSamples r' = wrap_u64 (gc_SDSuccessSamples r + 1).
Proof.
  intros (Hp & T1 & L1 & T2 & L2 & Hh) Ha.
  destruct (accumulate_shape _ _ _ _ _ _ _ _ Ha T1 L1) as [Tm Lm]. cbv zeta.
  match goal with |- context [updateVRAMRequirement ?q v] => destruct (updateVRAM_frame q v) as (G & -> & -> & _) end.
  { split; [exact Hp|]. split; [exact Tm|]. split; [exact Lm|]. split; [exact T2|]. split; [exact L2|exact Hh]. }
  by split.
Qed.

Lemma sample_prepared_LLM r x y a m ys v : good_record r →
  accumulateWeightedSample (gc_LLMXTX r) (gc_LLMXTY r) x y a = (m, ys) →
  let r' := updateVRAMRequirement (r <| gc_LLMXTX := m |> <| gc_LLMXTY := ys |>
              <| gc_LLMSuccessSamples := wrap_u64 (gc_LLMSuccessSamples r + 1) |>) v in
  good_record r' ∧ rowKey r' = rowKey r ∧ gc_LLMSuccessSamples r' = wrap_u64 (gc_LLMSuccessSamples r + 1).
Proof.
  intros (Hp & T1 & L1 & T2 & L2 & Hh) Ha.
  destruct (accumulate_shape _ _ _ _ _ _ _ _ Ha T2 L2) as [Tm Lm]. cbv zeta.
  match goal with |- context [updateVRAMRequirement ?q v] => destruct (updateVRAM_frame q v) as (G & -> & _ & ->) end.
  { split; [exact Hp|]. split; [exact T1|]. split; [exact L1|]. split; [exact Tm|]. split; [exact Lm|exact Hh]. }
  by split.
Qed.

(** What a sample does to the store. *)
Inductive sampleEffect (taskType : TaskType) (st st' : taskPricingStore) : Prop :=
| se_none : st' = st → sampleEffect taskType st st'
| se_new key : good_key key → ps_records st !! key = None →
    st' = st <| ps_records := <[key := mkCached (newCalibration key) 0]> (ps_records st) |> →
    sampleEffect taskType st st'
| se_fit key next st1 : good_key key → ck_taskType key = taskType →
    sampled taskType (recordAt st key) next →
    (st1 = st ∨ ps_records st !! key = None ∧
     st1 = st <| ps_records := <[key := mkCached (newCalibration key) 0]> (ps_records st) |>) →
    st' = recomputeAggregatesLocked (markDirtyLocked st1 key next) taskType (ck_vram key) →
    sampleEffect taskType st st'.

Lemma taskCalibrationKey_spec task g v key : taskCalibrationKey task g v = Ok key →
  good_key key ∧ ck_taskType key = t_TaskType task ∧ ck_vram key = v.
Proof.
  unfold taskCalibrationKey. destruct (DecodeHashList _); [|done]. intros [= <-].
  split; [split; [apply sha256_length|apply hash32FromColumn_length]|done].
Qed.

Lemma exactCalibration_at st key c st1 : exactCalibrationLocked st key = (c, st1) →
  cg_record c = recordAt st key ∧
  (st1 = st ∨ ps_records st !! key = None ∧
   st1 = st <| ps_records := <[key := mkCached (newCalibration key) 0]> (ps_records st) |>).
Proof.
  unfold exactCalibrationLocked, recordAt. destruct (ps_records st !! key) as [c'|] eqn:Hk; intros [= <- <-]; auto.
Qed.

Lemma CalibrateSD_effect st task : sampleEffect TaskTypeSD st (snd (CalibrateValidatedSDTask st task)).
Proof.
  unfold CalibrateValidatedSDTask.
  destruct (t_TaskType task) eqn:Hty; [|by apply se_none..].
  destruct (tp_SDUnits (t_Pricing task)) as [units|]; [|by apply se_none].
  destruct (t_StartTime task) as [start|]; [|by apply se_none].
  destruct (t_ScoreReadyTime task) as [rdy|]; [|by apply se_none].
  destruct (units =? 0); [by apply se_none|]. destruct (negb _); [by apply se_none|].
  destruct (ps_snapshots st !! _) as [sn|]; [|by apply se_none].
  destruct (taskCalibrationKey _ _ _) as [key|] eqn:Hkey; [|by apply se_none].
  apply taskCalibrationKey_spec in Hkey as (Hk & Hkt & <-). rewrite Hty in Hkt.
  destruct (exactCalibrationLocked st key) as [c st1] eqn:Hex. apply exactCalibration_at in Hex as (Hc & Hr). cbv zeta.
  destruct (accumulateWeightedSample _ _ _ _ _) as [m ys] eqn:Hacc. rewrite Hc in Hacc |- *.
  match goal with |- context [fitSDParameters ?q] => destruct (fitSDParameters q) as [next|] eqn:Hfit end.
  - apply (se_fit _ _ _ key next st1); [done|done| |done|done].
    intros Hg. pose proof (sample_prepared_SD _ _ _ _ _ _ (t_MinVRAM task) Hg Hacc) as (P & Pk & Ps).
    destruct (fitSD_good _ _ P Hfit) as (G & Gk & Gs & _). split; [done|]. by rewrite Gk, Gs, Pk, Ps.
  - destruct Hr as [Hr|[Hn Hr]]; [by apply se_none|by apply (se_new _ _ _ key)].
Qed.

Lemma CalibrateLLM_effect st task tokens : sampleEffect TaskTypeLLM st (snd (CalibrateUploadedLLMTask st task tokens)).
Proof.
  unfold CalibrateUploadedLLMTask.
  destruct (t_TaskType task) eqn:Hty; [by apply se_none| |by apply se_none].
  destruct (tp_LLMTextInputBytes (t_Pricing task)) as [bytes|]; [|by apply se_none].
  destruct (tp_LLMImageCount (t_Pricing task)) as [count|]; [|by apply se_none].
  destruct (tp_LLMImagePixels (t_Pricing task)) as [pixels|]; [|by apply se_none].
  destruct (t_StartTime task) as [start|]; [|by apply se_none].
  destruct (t_ScoreReadyTime task) as [rdy|]; [|by apply se_none].
  destruct (negb _); [by apply se_none|].
  destruct (ps_snapshots st !! _) as [sn|]; [|by apply se_none].
  destruct (taskCalibrationKey _ _ _) as [key|] eqn:Hkey; [|by apply se_none].
  apply taskCalibrationKey_spec in Hkey as (Hk & Hkt & <-). rewrite Hty in Hkt.
  destruct (exactCalibrationLocked st key) as [c st1] eqn:Hex. apply exactCalibration_at in Hex as (Hc & Hr). cbv zeta.
  destruct (accumulateWeightedSample _ _ _ _ _) as [m ys] eqn:Hacc. rewrite Hc in Hacc |- *.
  match goal with |- context [fitLLMParameters ?q] => destruct (fitLLMParameters q) as [next|] eqn:Hfit end.
  - apply (se_fit _ _ _ key next st1); [done|done| |done|done].
    intros Hg. pose proof (sample_prepared_LLM _ _ _ _ _ _ (t_MinVRAM task) Hg Hacc) as (P & Pk & Ps).
    destruct (fitLLM_good _ _ P Hfit) as (G & Gk & _ & Gs). split; [done|]. by rewrite Gk, Gs, Pk, Ps.
  - destruct Hr as [Hr|[Hn Hr]]; [by apply se_none|by apply (se_new _ _ _ key)].
Qed.

Lemma sampleEffect_change ty st st' : sampleEffect ty st st' → recordChange st st'.
Proof.
  intros [->|key Hk Hn ->|key next st1 Hk Hty Hs Hr ->]; [by apply rc_same|by apply (rc_new _ _ key)|].
  unfold recomputeAggregatesLocked.
  match goal with |- context [recomputeEntries ?s ?t ?v ?e] =>
    destruct (recomputeEntries_frame t v e s) as (Er & Ev & _) end.
  apply (rc_sample _ _ ty key next); [done|done| |].
  - rewrite Ev. simpl. by destruct Hr as [->|[_ ->]].
  - rewrite Er. simpl. destruct Hr as [-> |[_ ->]]; [done|]. simpl. by rewrite insert_insert_eq.
Qed.

(** ** Runs *)

(** A row of the table: what was fitted with the current formulas is good; the
    rest is reset when the row is loaded. *)
Definition good_row (r : GPUExecutionCalibration) : Prop :=
  (gc_SDFormulaVersion r = sdFormulaVersion →
     good (gc_SDOverheadSeconds r) ∧ good (gc_SecondsPerSDPixelStep r) ∧
     triangle 2 (gc_SDXTX r) ∧ length (gc_SDXTY r) = 2%nat) ∧
  (gc_LLMFormulaVersion r = llmFormulaVersion →
     Forall good (llmValues (gc_LLM r)) ∧ triangle 6 (gc_LLMXTX r) ∧ length (gc_LLMXTY r) = 6%nat) ∧
  length (gc_RequiredModelFilesHash r) = 32%nat ∧ length (gc_QuantizationConfigHash r) = 32%nat.

Lemma good_record_row r : good_record r → good_row r.
Proof. intros ((? & ? & ?) & ? & ? & ? & ? & ? & ? & ? & ?). by split_and!. Qed.

Lemma good_row_id r id : good_row r → good_row (r <| gc_ID := id |>).
Proof. done. Qed.

(** The record that is loaded for a row, and how many formulas are outdated. *)
Definition loaded (r : GPUExecutionCalibration) : GPUExecutionCalibration :=
  let r' := if gc_SDFormulaVersion r =? sdFormulaVersion then r else resetSDCalibration r in
  if gc_LLMFormulaVersion r =? llmFormulaVersion then r' else resetLLMCalibration r'.

Lemma loaded_good r : good_row r → good_record (loaded r) ∧ rowKey (loaded r) = rowKey r.
Proof.
  destruct initial_good as (I1 & I2 & I3).
  intros (H1 & H2 & H3 & H4). unfold loaded.
  destruct (Z.eqb_spec (gc_SDFormulaVersion r) sdFormulaVersion) as [E1|_];
    [specialize (H1 E1) as (? & ? & ? & ?)|clear H1];
    (destruct (Z.eqb_spec (gc_LLMFormulaVersion r) llmFormulaVersion) as [E2|_];
    [specialize (H2 E2) as (? & ? & ?)|clear H2]);
    (split; [|done]); (split; [split; [done|]; split; done|]); simpl; split_and!; try done; apply zeroTriangle_triangle.
Qed.

Lemma loadRecord_records st r :
  ∃ v, ps_records (loadRecord st r) = <[keyFromRecord r := mkCached (loaded r) v]> (ps_records st).
Proof.
  unfold loadRecord, loaded. destruct (gc_SDFormulaVersion r =? _), (gc_LLMFormulaVersion r =? _); simpl; eauto.
Qed.

Lemma keyFromRecord_congr r r' : rowKey r = rowKey r' → keyFromRecord r = keyFromRecord r'.
Proof. unfold rowKey, keyFromRecord. intros [= -> -> -> -> -> -> ->]. done. Qed.

Lemma good_store_insert st st' key c : good_store st → good_record (cg_record c) →
  keyFromRecord (cg_record c) = key → ps_records st' = <[key := c]> (ps_records st) → good_store st'.
Proof.
  intros Hs Hg Hk He k' c'. rewrite He. intros [[<- <-]|[_ Hl]]%lookup_insert_Some; [done|by apply Hs].
Qed.

Lemma Init_good tick table : Forall good_row table → good_store (InitTaskPricing tick table).
Proof.
  unfold InitTaskPricing. assert (H0 : good_store (mkStore ∅ ∅ ∅ 0 tick)) by (intros k c; simpl; by rewrite lookup_empty).
  revert H0. generalize (mkStore ∅ ∅ ∅ 0 tick). induction table as [|r table IH]; intros st H0 Ht; [done|].
  apply Forall_cons in Ht as [Hr Ht]. simpl. apply IH; [|done].
  destruct (loadRecord_records st r) as [v Hv]. destruct (loaded_good r Hr) as [G K].
  eapply good_store_insert; [exact H0| | |exact Hv]; [done|]. by apply keyFromRecord_congr.
Qed.

Lemma recordAt_good st key : good_store st → good_key key →
  good_record (recordAt st key) ∧ keyFromRecord (recordAt st key) = key.
Proof.
  intros Hs Hk. unfold recordAt. destruct (ps_records st !! key) eqn:He; [by apply Hs|by apply newCalibration_good].
Qed.

Lemma recordChange_good st st' : good_store st → recordChange st st' → good_store st'.
Proof.
  intros Hs [Hr _|key Hk _ _ Hr|ty key next Hk Hn _ Hr].
  - intros k c. rewrite Hr. apply Hs.
  - eapply good_store_insert; [exact Hs| | |exact Hr]; by apply newCalibration_good.
  - destruct (recordAt_good st key Hs Hk) as [G K]. destruct (Hn G) as (G' & K' & _).
    eapply (good_store_insert _ _ _ (mkCached next _)); [exact Hs|exact G'| |exact Hr]. simpl. etransitivity; [|exact K].
    by apply keyFromRecord_congr.
Qed.

(** Operations on the store other than a flush or a restart. *)
Definition storeOp (op : calOp) : bool :=
  match op with OpFlushRead | OpFlushWrite _ | OpFlushClear | OpRestart => false | _ => true end.

Lemma candidates_frame st task g v b c st' : candidateCalibrationsLocked st task g v b = (c, st') →
  ps_records st' = ps_records st ∧ ps_version st' = ps_version st ∧ ps_aggregates st' = ps_aggregates st ∧
  ps_snapshots st' = ps_snapshots st.
Proof. intros [= _ <-]. done. Qed.

Lemma DescribeExecutionTimeout_frame st task g v :
  let st' := snd (DescribeExecutionTimeout st task g v) in
  ps_records st' = ps_records st ∧ ps_version st' = ps_version st ∧ ps_aggregates st' = ps_aggregates st ∧
  ps_snapshots st' = ps_snapshots st.
Proof.
  unfold DescribeExecutionTimeout. destruct (t_TaskType task); [| |done];
    (destruct (candidateCalibrationsLocked _ _ _ _ _) as [c st1] eqn:Hc; apply candidates_frame in Hc;
     destruct (computeEstimatedNodeSeconds _ _ _); [|done]; destruct (selectCandidate _ _ _ _); done).
Qed.

Lemma DeleteGroup_frame st taskID tasks :
  ps_records (DeleteGroupRefundExecutionGPUSnapshots st taskID tasks) = ps_records st ∧
  ps_version (DeleteGroupRefundExecutionGPUSnapshots st taskID tasks) = ps_version st ∧
  ps_aggregates (DeleteGroupRefundExecutionGPUSnapshots st taskID tasks) = ps_aggregates st.
Proof.
  unfold DeleteGroupRefundExecutionGPUSnapshots. destruct (String.eqb taskID ""); [done|].
  destruct tasks as [tasks|]; [|done]. revert st. induction tasks as [|t tasks IH]; intros st; [done|]. simpl.
  destruct (IH (if bool_decide (t_Status t = TaskEndGroupRefund)
                then DeleteTaskExecutionGPUSnapshot st (t_TaskIDCommitment t) else st)) as (-> & -> & ->).
  by case_bool_decide.
Qed.

Lemma storeOp_change s op : storeOp op = true →
  recordChange (cs_store s) (cs_store (runCalOp s op)) ∧
  cs_table (runCalOp s op) = cs_table s ∧ cs_phase (runCalOp s op) = cs_phase s.
Proof.
  intros Hop. destruct op; try done; (split; [|done]); simpl.
  - unfold getTaskPricingParameters. destruct (negb _); [by apply rc_same|].
    destruct (_ !! _); by apply rc_same.
  - destruct (DescribeExecutionTimeout_frame (cs_store s) task gpuName gpuVram) as (? & ? & _). by apply rc_same.
  - by apply rc_same.
  - by apply rc_same.
  - destruct (DeleteGroup_frame (cs_store s) taskID groupTasks) as (? & ? & _). by apply rc_same.
  - by apply rc_same.
  - eapply sampleEffect_change, CalibrateSD_effect.
  - eapply sampleEffect_change, CalibrateLLM_effect.
Qed.

Definition good_phase (p : flushPhase) : Prop :=
  match p with FlushIdle => True | FlushRead d | FlushWritten d => Forall (λ rv, good_record (fst rv)) d end.
Definition good_state (s : calState) : Prop :=
  good_store (cs_store s) ∧ Forall good_row (cs_table s) ∧ good_phase (cs_phase s).

Lemma dirtyRecords_elem st d st' : dirtyRecords st = (d, st') →
  ps_records st' = ps_records st ∧ ps_version st' = ps_version st ∧ ps_aggregates st' = ps_aggregates st ∧
  ∀ r v, (r, v) ∈ d ↔ ∃ key c, ps_records st !! key = Some c ∧ cg_record c = r ∧ cg_dirtyVersion c = v ∧ v ≠ 0.
Proof.
  unfold dirtyRecords, visitRecords. intros [= <- <-]. split; [done|]. split; [done|]. split; [done|].
  intros r v. rewrite list_elem_of_omap. split.
  - intros ([key c] & Hin & Hc). rewrite cal_order_perm, elem_of_map_to_list in Hin. simpl in Hc.
    destruct (Z.eqb_spec (cg_dirtyVersion c) 0); [done|]. injection Hc as <- <-. eauto 10.
  - intros (key & c & Hk & <- & <- & Hv). exists (key, c). rewrite cal_order_perm, elem_of_map_to_list.
    split; [done|]. simpl. by destruct (Z.eqb_spec (cg_dirtyVersion c) 0).
Qed.

Lemma upsertRow_elem table r row : row ∈ upsertRow table r →
  row ∈ table ∨ ∃ id, row = r <| gc_ID := id |>.
Proof.
  unfold upsertRow. destruct (existsb _ _).
  - intros (row' & -> & Hin)%list_elem_of_fmap. case_bool_decide; [right; eauto|by left].
  - intros [?|E%list_elem_of_singleton]%elem_of_app; [by left|right; subst; eauto].
Qed.

Lemma upsertRecords_good table d : Forall good_row table → Forall (λ rv, good_record (fst rv)) d →
  Forall good_row (upsertRecords table d).
Proof.
  unfold upsertRecords. revert table. induction d as [|[r v] d IH]; intros table Ht Hd; [done|].
  apply Forall_cons in Hd as [Hr Hd]. simpl. apply IH; [|done]. rewrite Forall_forall in *.
  intros row [Hin|[id ->]]%upsertRow_elem; [by apply Ht|]. by apply good_row_id, good_record_row.
Qed.

Lemma clearDirty_records st d :
  ps_version (clearDirty st d) = ps_version st ∧ ps_aggregates (clearDirty st d) = ps_aggregates st ∧
  ∀ key, cg_record <$> ps_records (clearDirty st d) !! key = cg_record <$> ps_records st !! key.
Proof.
  unfold clearDirty. revert st. induction d as [|rv d IH]; intros st; [done|]. cbn [foldl].
  destruct (IH (clearOne st rv)) as (-> & -> & Hr). split; [|split]; [..|intros key; rewrite Hr]; clear Hr;
    unfold clearOne; (destruct (ps_records st !! keyFromRecord (fst rv)) as [c|] eqn:He; [|done]);
    (destruct (_ =? _); [|done]); try done. simpl.
  destruct (decide (keyFromRecord (fst rv) = key)) as [<-|Hne].
  - by rewrite lookup_insert_eq, He.
  - by rewrite lookup_insert_ne.
Qed.

Lemma runCalOp_good s op : good_state s → good_state (runCalOp s op).
Proof.
  intros (Hs & Ht & Hp). destruct (storeOp op) eqn:Hop.
  { destruct (storeOp_change s op Hop) as (Hc & Et & Ep). unfold good_state. rewrite Et, Ep.
    split; [by eapply recordChange_good|done]. }
  destruct s as [st table phase]. destruct op as [| | | | | | | | |[]| |]; try done;
    cbn [runCalOp flushStep cs_store cs_table cs_phase] in *.
  - destruct phase; [|done..]. destruct (dirtyRecords st) as [d st'] eqn:Hd.
    apply dirtyRecords_elem in Hd as (Er & _ & _ & He).
    assert (Hs' : good_store st') by (intros k c; rewrite Er; apply Hs).
    split; [done|]. split; [done|]. simpl. case_bool_decide; [done|]. simpl. apply Forall_forall.
    intros [r v] (k & c & Hk & <- & _)%He. by eapply Hs.
  - destruct phase; simpl; [done| |done]. split; [done|]. split; [by apply upsertRecords_good|done].
  - destruct phase; simpl; [done| |done]. done.
  - destruct phase; simpl; [done| |done]. split; [done|]. split; [by apply upsertRecords_good|done].
  - destruct phase; simpl; [done|done|]. split; [|done]. intros k c Hk. cbn [cs_store] in Hk.
    destruct (clearDirty_records st dirty) as (_ & _ & Hr). specialize (Hr k). rewrite Hk in Hr. simpl in Hr.
    destruct (ps_records st !! k) as [c'|] eqn:He; [|done]. injection Hr as ->. by apply Hs.
  - split; [by apply Init_good|done].
Qed.

Lemma runCalOps_good ops table : Forall good_row table → good_state (runCalOps ops (startState table)).
Proof.
  intros Ht. unfold runCalOps.
  assert (H0 : good_state (startState table)) by (split; [by apply Init_good|done]).
  revert H0. generalize (startState table). induction ops as [|op ops IH]; intros s Hs; [done|].
  simpl. by apply IH, runCalOp_good.
Qed.

(** ** Predictions *)

Definition is_u64 (z : Z) : Prop := 0 ≤ z ≤ max_u64.

(** A task whose work was measured when it was created. *)
Definition measured (task : InferenceTask) : Prop :=
  match t_TaskType task with
  | TaskTypeSD => ∃ u, tp_SDUnits (t_Pricing task) = Some u ∧ is_u64 u
  | TaskTypeLLM =>
      ∃ b n c p, tp_LLMTextInputBytes (t_Pricing task) = Some b ∧ tp_LLMMaxNewTokens (t_Pricing task) = Some n ∧
        tp_LLMImageCount (t_Pricing task) = Some c ∧ tp_LLMImagePixels (t_Pricing task) = Some p ∧
        is_u64 b ∧ is_u64 n ∧ is_u64 c ∧ is_u64 p
  | TaskTypeSDFTLora => False
  end.

(** The prediction of a measured task. *)
Definition predicts (task : InferenceTask) (parameters : executionParameters) (x : float64) : Prop :=
  computeEstimatedNodeSeconds task parameters (t_ModelSwtiched task) = Ok x.

Lemma u64_good z : is_u64 z → good (f64_of_Z z).
Proof.
  intros H. assert (max_u64 < 2 ^ 900) by done. unfold is_u64 in H.
  split; [apply f64_of_Z_valid|]. split; [apply f64_of_Z_finite; lia|apply f64_of_Z_nonneg; lia].
Qed.

(** Canonical and not negative, but possibly infinite. *)
Definition fair (x : float64) : Prop := valid x ∧ nonneg x = true.

Lemma good_fair x : good x → fair x.
Proof. by intros (? & ? & ?). Qed.
Lemma fair_add x y : fair x → fair y → fair (f64_add x y).
Proof. intros [? ?] [? ?]. split; auto with float64. Qed.
Lemma good_mul x y : good x → good y → fair (f64_mul x y).
Proof. intros (? & ? & ?) (? & ? & ?). split; auto with float64. Qed.
Lemma fair_mul_pos x y : fair x → good y → f64_lt f64_zero y = true → fair (f64_mul x y).
Proof. intros [? ?] (? & ? & ?) ?. split; auto with float64. Qed.

Lemma megapixels_good p : is_u64 p → good (f64_div (f64_of_Z p) (f64_of_Z 1000000)).
Proof.
  intros Hp. split; [apply f64_div_valid|]. destruct (u64_good p Hp) as (_ & F & N). split.
  - assert (V := f64_of_Z_valid p). revert V F. generalize (f64_of_Z p). intros x V F.
    destruct x as [?|?| |s m e]; try done.
    assert (Hm : f64_of_Z 1000000 = S754_finite false 8589934592000000 (-33)) by done.
    rewrite Hm. by apply f64_div_finite.
  - by apply f64_div_nonneg.
Qed.

Lemma prediction_fair task parameters b : measured task → good_parameters parameters →
  ∃ x, computeEstimatedNodeSeconds task parameters b = Ok x ∧ fair x.
Proof.
  intros Hm (G1 & G2 & G3). unfold measured in Hm. unfold computeEstimatedNodeSeconds.
  destruct (t_TaskType task); [| |done].
  - destruct Hm as (u & -> & Hu). eexists. split; [done|].
    apply fair_add; [by apply good_fair|]. apply good_mul; [by apply u64_good|done].
  - destruct Hm as (by_ & n & c & px & -> & -> & -> & -> & H1 & H2 & H3 & H4).
    unfold llmValues in G3. repeat (apply Forall_cons in G3; let G := fresh "G" in destruct G3 as [G G3]).
    eexists. split; [done|]. assert (good (if b then f64_one else f64_zero)) by (destruct b; repeat split; done).
    repeat apply fair_add; try (apply good_mul; [by apply u64_good|done]); [by apply good_fair|by apply good_mul|].
    apply good_mul; [by apply megapixels_good|done].
Qed.

(** ** The choice of the prediction *)

Definition ready (task : InferenceTask) (c : cachedGPUCalibration) : bool :=
  calibrationReady (cg_record c) (t_TaskType task).
Definition candidatePredicts (task : InferenceTask) (c : cachedGPUCalibration) (x : float64) : Prop :=
  ready task c = true ∧ predicts task (parametersFromRecord (cg_record c)) x.

Lemma f64_le_fair x y : fair x → fair y → f64_le x y = (rank x <=? rank y).
Proof. intros [? ?] [? ?]. by apply f64_le_rank. Qed.

(** The loop keeps the largest prediction; the first ready candidate replaces
    the initial prediction when all are ready. *)
Lemma selectCandidate_spec task allReady candidates : ∀ s,
  measured task → fair (sl_prediction s) →
  (∀ c, c ∈ candidates → good_parameters (parametersFromRecord (cg_record c))) →
  (allReady = true → ∀ c, c ∈ candidates → ready task c = true) →
  ∃ s', selectCandidate task allReady s candidates = Ok s' ∧ fair (sl_prediction s') ∧
    ed_ColdStart (sl_description s') = ed_ColdStart (sl_description s) ∧
    (∀ c x, c ∈ candidates → candidatePredicts task c x → rank x ≤ rank (sl_prediction s')) ∧
    (allReady = false ∨ sl_selected s = true → rank (sl_prediction s) ≤ rank (sl_prediction s')) ∧
    ((∃ c, c ∈ candidates ∧ candidatePredicts task c (sl_prediction s')) ∨
     sl_prediction s' = sl_prediction s ∧ (allReady = true → sl_selected s = true ∨ candidates = [])).
Proof.
  induction candidates as [|c rest IH]; intros s Hm Hf Hg Hr.
  { exists s. simpl. split; [done|]. split; [done|]. split; [done|].
    split; [intros ? ? []%not_elem_of_nil|]. split; [lia|]. right. auto. }
  assert (Hg' : ∀ c', c' ∈ rest → good_parameters (parametersFromRecord (cg_record c'))) by (intros; apply Hg; by right).
  assert (Hr' : allReady = true → ∀ c', c' ∈ rest → ready task c' = true) by (intros; apply Hr; [done|by right]).
  simpl. destruct (calibrationReady (cg_record c) (t_TaskType task)) eqn:Hready; simpl.
  - destruct (prediction_fair task (parametersFromRecord (cg_record c)) (t_ModelSwtiched task) Hm) as (x & Hx & Fx);
      [apply Hg; by left|]. rewrite Hx. rewrite (f64_le_fair _ x) by done. simpl.
    assert (Hc : candidatePredicts task c x) by done.
    match goal with |- context [selectCandidate task allReady ?s1 rest] => set (s1' := s1) end.
    assert (H1 : fair (sl_prediction s1') ∧ sl_selected s1' = true ∧
      ed_ColdStart (sl_description s1') = ed_ColdStart (sl_description s) ∧
      rank x ≤ rank (sl_prediction s1') ∧
      (allReady = false ∨ sl_selected s = true → rank (sl_prediction s) ≤ rank (sl_prediction s1')) ∧
      (sl_prediction s1' = x ∨ sl_prediction s1' = sl_prediction s ∧ (allReady = true → sl_selected s = true))).
    { unfold s1'. destruct (Z.leb_spec (rank (sl_prediction s)) (rank x)); rewrite ?orb_true_r, ?orb_false_r.
      - simpl. split_and!; try done; try lia; try (by destruct (recordMatchesTaskConfig _ _)); auto.
      - destruct allReady, (sl_selected s); simpl; split_and!; try done; try lia; try (by destruct (recordMatchesTaskConfig _ _)); auto;
          intros [?|?]; done. }
    clearbody s1'. destruct H1 as (F1 & Sel & Cold & R1 & R2 & P1).
    destruct (IH s1' Hm F1 Hg' Hr') as (s' & E' & F' & C' & M' & N' & P').
    exists s'. split; [done|]. split; [done|]. split; [by rewrite C', Cold|].
    specialize (N' (or_intror Sel)). split; [|split].
    + intros c' y [->|Hin]%elem_of_cons Hy; [|by eapply M'].
      assert (y = x) as -> by (destruct Hy as [_ Hy]; unfold predicts in Hy; congruence). lia.
    + intros Hd. specialize (R2 Hd). lia.
    + destruct P' as [(c' & Hin & Hp)|[Hp _]]; [left; exists c'; split; [by right|done]|].
      rewrite Hp. destruct P1 as [->|[-> Hsel]]; [left; exists c; split; [by left|done]|].
      right. split; [done|]. auto.
  - match goal with |- context [selectCandidate task allReady ?s1 rest] => destruct (IH s1 Hm Hf Hg' Hr') as
      (s' & E' & F' & C' & M' & N' & P') end.
    exists s'. split; [done|]. split; [done|]. split; [rewrite C'; by destruct (recordMatchesTaskConfig _ _)|]. split; [|split].
    + intros c' y [->|Hin]%elem_of_cons Hy; [|by eapply M'].
      destruct Hy as [Hy _]. unfold ready in Hy. congruence.
    + done.
    + destruct P' as [(c' & Hin & Hp)|[Hp Hs]]; [left; exists c'; split; [by right|done]|].
      right. split; [done|]. intros Ha. exfalso. specialize (Hr Ha c ltac:(by left)). unfold ready in Hr. congruence.
Qed.

Lemma nearest_subset minVRAM l : ∀ acc c, c ∈ snd (foldl (nearestStep minVRAM) acc l) → c ∈ snd acc ∨ c ∈ l.
Proof.
  induction l as [|x l IH]; intros [d near] c; [by left|]. cbn [foldl]. intros [Hin|Hin]%IH; [|right; by right].
  unfold nearestStep in Hin. cbn [fst] in Hin.
  destruct (_ <? d); simpl in Hin; destruct (vramIntervalDistance _ _ =? _); set_solver.
Qed.

Lemma candidates_subset records task g v b c :
  c ∈ candidateCalibrations records task g v b → ∃ key, (key, c) ∈ records.
Proof.
  unfold candidateCalibrations. set (visited := filter _ records).
  assert (Hv : ∀ c, c ∈ map snd visited → ∃ key, (key, c) ∈ records).
  { intros c' ([k c''] & -> & Hin)%list_elem_of_fmap. apply list_elem_of_filter in Hin as [_ Hin]. by exists k. }
  cbv zeta. match goal with |- _ ∈ (if ?b then _ else _) → _ => destruct b end.
  { intros [_ H]%list_elem_of_filter. apply list_elem_of_filter in H as [_ H]. by apply Hv. }
  match goal with |- _ ∈ (if ?b then _ else _) → _ => destruct b end.
  { intros [_ H]%list_elem_of_filter. by apply Hv. }
  intros [H|H]%nearest_subset; [by apply not_elem_of_nil in H|].
  match type of H with _ ∈ (if ?b then _ else _) => destruct b end; [|by apply Hv].
  apply Hv. apply list_elem_of_fmap in H as (kc & -> & [_ Hin]%list_elem_of_filter).
  by apply list_elem_of_fmap_2.
Qed.

Lemma candidates_good st task g v b c : good_store st →
  c ∈ fst (candidateCalibrationsLocked st task g v b) → good_parameters (parametersFromRecord (cg_record c)).
Proof.
  intros Hs. unfold candidateCalibrationsLocked, visitRecords. simpl.
  intros [key Hin]%candidates_subset. rewrite cal_order_perm, elem_of_map_to_list in Hin.
  destruct (Hs key c Hin) as [[Hp _] _]. done.
Qed.

(** Cold start in terms of the candidates. *)
Lemma allReady_spec task (cands : list cachedGPUCalibration) b :
  b = negb (bool_decide (cands = [])) &&
      forallb (λ cached, calibrationReady (cg_record cached) (t_TaskType task)) cands →
  (b = true → ∀ c, c ∈ cands → ready task c = true) ∧
  (negb b = true ↔ cands = [] ∨ ∃ c, c ∈ cands ∧ ready task c = false).
Proof.
  intros ->. split.
  - intros [_ Hf]%andb_true_iff c Hc. rewrite forallb_forall in Hf. apply Hf. by apply list_elem_of_In.
  - rewrite negb_true_iff, andb_false_iff, negb_false_iff, bool_decide_eq_true.
    assert (Hf : forallb (λ cached, calibrationReady (cg_record cached) (t_TaskType task)) cands = false ↔
                 ∃ c, c ∈ cands ∧ ready task c = false); [|by rewrite Hf].
    clear. induction cands as [|x l IH]; simpl; [split; [done|intros (? & ?%not_elem_of_nil & ?); done]|].
    rewrite andb_false_iff, IH. unfold ready. setoid_rewrite elem_of_cons. naive_solver.
Qed.

(** The clamped timeout. *)
Lemma timeout_clamped x : fair x →
  let t := f64_mul x (pr_TimeoutMultiplier cal_cfg) in
  let lo := pr_MinExecutionTimeoutSeconds cal_cfg in let hi := pr_MaxExecutionTimeoutSeconds cal_cfg in
  f64_trunc (Ceil (Min (Max t (f64_of_Z lo)) (f64_of_Z hi))) =
    (if IsInf t then hi else Z.min hi (Z.max lo (ceilZ (val t)))) ∧
  lo ≤ (if IsInf t then hi else Z.min hi (Z.max lo (ceilZ (val t)))) ≤ hi.
Proof.
  intros Fx t lo hi. destruct (good_config_positive _ Hcfg) as (_ & G & P & L).
  destruct Hcfg as (_ & _ & H0 & H1).
  destruct (fair_mul_pos x _ Fx G P) as [V N]. fold t in V, N.
  rewrite clamp_spec by (done || unfold lo, hi; lia). split; [done|]. destruct (IsInf t); unfold lo, hi in *; lia.
Qed.

(** The last two assignments of the description. *)
Definition finished (d : ExecutionTimeoutDescription) (x : float64) (z : Z) : ExecutionTimeoutDescription :=
  d <| ed_PredictedExecutionSeconds := x |> <| ed_ComputedTimeout := z |>.
Lemma finish_cold d x z : ed_ColdStart (finished d x z) = ed_ColdStart d.
Proof. done. Qed.
Lemma finish_predicted d x z : ed_PredictedExecutionSeconds (finished d x z) = x.
Proof. done. Qed.
Lemma finish_timeout d x z : ed_ComputedTimeout (finished d x z) = z.
Proof. done. Qed.

Lemma contributions_cold d task p q :
  ed_ColdStart (setLLMTimeoutContributions (setSDTimeoutContributions d task p) task q) = ed_ColdStart d.
Proof.
  unfold setLLMTimeoutContributions, setSDTimeoutContributions.
  destruct (t_TaskType task); simpl; try done.
  destruct (tp_LLMTextInputBytes (t_Pricing task)), (tp_LLMMaxNewTokens (t_Pricing task)), (tp_LLMImageCount (t_Pricing task)), (tp_LLMImagePixels (t_Pricing task)); try done.
  simpl. by destruct (t_ModelSwtiched task).
Qed.

Lemma prediction_le x y : fair x → fair y → rank x ≤ rank y → f64_le x y = true.
Proof. intros ? ? ?. rewrite f64_le_fair by done. by apply Z.leb_le. Qed.

Lemma candidate_fair st task g v b c x : good_store st → measured task →
  c ∈ fst (candidateCalibrationsLocked st task g v b) → candidatePredicts task c x → fair x.
Proof.
  intros Hs Hm Hc [_ Hp]. pose proof (candidates_good st task g v b c Hs Hc) as G.
  destruct (prediction_fair task _ (t_ModelSwtiched task) Hm G) as (y & Hy & F). unfold predicts in Hp. congruence.
Qed.

(** C20 (bounds): whatever tasks were priced, started and sampled, in whatever order the
    records are visited, whatever the solver returns, and however flushes and
    restarts are interleaved: the description of the execution timeout of a
    measured task succeeds; the timeout lies within the configured limits and is
    the predicted time multiplied, clamped and rounded up; no ready candidate
    predicts more than the prediction; the prediction is that of a ready
    candidate, or on a cold start possibly the configured one, which then is not
    exceeded either; and a cold start means that there is no candidate or one
    that is not ready. *)
Theorem execution_timeout_bounds ops table task gpuName gpuVram :
  Forall good_row table → measured task →
  let st := cs_store (runCalOps ops (startState table)) in
  let candidates := fst (candidateCalibrationsLocked st task gpuName gpuVram false) in
  ∃ d st', DescribeExecutionTimeout st task gpuName gpuVram = (Ok d, st') ∧
    let t := f64_mul (ed_PredictedExecutionSeconds d) (pr_TimeoutMultiplier cal_cfg) in
    pr_MinExecutionTimeoutSeconds cal_cfg ≤ ed_ComputedTimeout d ≤ pr_MaxExecutionTimeoutSeconds cal_cfg ∧
    ed_ComputedTimeout d =
      (if IsInf t then pr_MaxExecutionTimeoutSeconds cal_cfg
       else Z.min (pr_MaxExecutionTimeoutSeconds cal_cfg) (Z.max (pr_MinExecutionTimeoutSeconds cal_cfg) (ceilZ (val t)))) ∧
    (∀ c x, c ∈ candidates → candidatePredicts task c x → f64_le x (ed_PredictedExecutionSeconds d) = true) ∧
    ((∃ c, c ∈ candidates ∧ candidatePredicts task c (ed_PredictedExecutionSeconds d)) ∨
     ed_ColdStart d = true ∧ predicts task initialExecutionParameters (ed_PredictedExecutionSeconds d)) ∧
    (ed_ColdStart d = true → ∀ x, predicts task initialExecutionParameters x →
       f64_le x (ed_PredictedExecutionSeconds d) = true) ∧
    (ed_ColdStart d = true ↔ candidates = [] ∨ ∃ c, c ∈ candidates ∧ ready task c = false).
Proof.
  intros Ht Hm st candidates. destruct (runCalOps_good ops table Ht) as (Hs & _). fold st in Hs. clearbody st.
  unfold DescribeExecutionTimeout. unfold candidates in *. clear candidates.
  assert (Hcg := candidates_good st task gpuName gpuVram false).
  assert (Hcf := λ c x Hc, candidate_fair st task gpuName gpuVram false c x Hs Hm Hc).
  destruct (candidateCalibrationsLocked st task gpuName gpuVram false) as [cands st1]. cbn [fst] in *.
  destruct (prediction_fair task initialExecutionParameters (t_ModelSwtiched task) Hm initial_good) as (x0 & Hx0 & F0).
  assert (Hcold : ∀ b, b = negb (bool_decide (cands = [])) &&
      forallb (λ cached, calibrationReady (cg_record cached) (t_TaskType task)) cands →
    (b = true → ∀ c, c ∈ cands → ready task c = true) ∧
    (negb b = true ↔ cands = [] ∨ ∃ c, c ∈ cands ∧ ready task c = false)) by apply allReady_spec.
  assert (Hty : t_TaskType task = TaskTypeSD ∨ t_TaskType task = TaskTypeLLM)
    by (unfold measured in Hm; destruct (t_TaskType task); [by left|by right|done]).
  rewrite Hx0. destruct (Hcold _ eq_refl) as [HR HC].
  match goal with |- context [selectCandidate _ _ ?s0 _] =>
    destruct (selectCandidate_spec task _ cands s0 Hm F0 (λ c, Hcg c Hs) HR) as (s' & Es & F' & C' & M' & N' & P') end.
  rewrite Es. exists (finished (setLLMTimeoutContributions (setSDTimeoutContributions (sl_description s') task (sl_parameters s'))
                  task (ep_llm (sl_parameters s'))) (sl_prediction s') 
     (f64_trunc (Ceil (Min (Max (f64_mul (sl_prediction s') (pr_TimeoutMultiplier cal_cfg))
        (f64_of_Z (pr_MinExecutionTimeoutSeconds cal_cfg))) (f64_of_Z (pr_MaxExecutionTimeoutSeconds cal_cfg)))))), st1.
  split; [by destruct Hty as [-> | ->]|].
  cbv zeta. rewrite finish_cold, finish_predicted, finish_timeout, contributions_cold, C'.
  cbn [sl_description ed_ColdStart sl_prediction sl_selected] in *.
  destruct (timeout_clamped _ F') as [Et Bt]. rewrite Et.
  split; [exact Bt|]. split; [reflexivity|].
  split; [intros c x Hc Hp; apply prediction_le; [by apply (Hcf c)|done|by eapply M']|].
  split; [|split; [|exact HC]].
  - destruct P' as [?|[-> Hn]]; [by left|right; split; [|exact Hx0]].
    match goal with |- ed_ColdStart (_ <| ed_ColdStart := negb ?b |>) = _ => destruct b eqn:Eb; [|done] end.
    destruct (Hn eq_refl) as [?|Hnil]; [done|]. by rewrite Hnil in Eb.
  - intros Hn x Hx. unfold predicts in Hx. rewrite Hx0 in Hx. injection Hx as <-.
    apply prediction_le; [done|done|]. apply N'. left. by apply negb_true_iff.
Qed.
End bounds.

(** ** A concrete run *)

(** The configuration of the witnesses, and a solver for the identity matrix. *)
Definition demo_calibration : CalibrationEnv := {|
  cal_cfg := demo_pricing;
  cal_order := λ _ l, l;
  cal_order_perm := λ _ _, reflexivity _;
  SolveVec := λ _ b, Ok b;
  SolveVec_length := λ _ b v H, match H in _ = r return (match r with Ok v' => length v' = length b | Err _ => True end)
                                with eq_refl => eq_refl end
|}.

Lemma demo_pricing_good : good_config demo_pricing.
Proof.
  split; [by vm_compute|]. split; [repeat (constructor; [split; by vm_compute|]); constructor|]. simpl. lia.
Qed.

Definition demo_sd : InferenceTask :=
  mkTask 1 "0xc" "0xa" "" "" TaskValidated TaskTypeSD "3.0.0" "float16" [] 0 600 8 "" 0 100 0 TaskAbortReasonNone
    TaskErrorNone "" None "0xn" "RTX" 24 "" false None None (Some 0) (Some 0) None (Some (7 * second)) None None
    [] [] [] false
    (unpriced <| tp_ModelName := "sdxl" |> <| tp_SDUnits := Some 1048576 |>).

Definition demo_ops : list calOp :=
  [OpCapture 0 "0xc" "RTX" 24; OpSampleSD demo_sd; OpFlushRead; OpSampleSD demo_sd; OpFlushWrite Stored;
   OpFlushClear; OpSampleSD demo_sd].

Lemma execution_timeout_bounds_witness :
  let st := cs_store (runCalOps (C:=demo_calibration) demo_ops (startState (C:=demo_calibration) [])) in
  ∃ d st', DescribeExecutionTimeout (C:=demo_calibration) st demo_sd "RTX" 24 = (Ok d, st') ∧
    60 ≤ ed_ComputedTimeout d ≤ 1800.
Proof.
  destruct (execution_timeout_bounds (C:=demo_calibration) demo_pricing_good demo_ops [] demo_sd "RTX" 24)
    as (d & st' & E & B & _).
  - constructor.
  - exists 1048576. split; [reflexivity|]. unfold is_u64, max_u64. lia.
  - exists d, st'. split; [exact E|exact B].
Defined.

(** The third sample makes the record ready: no cold start. *)
Example demo_warm :
  let st := cs_store (runCalOps (C:=demo_calibration) demo_ops (startState (C:=demo_calibration) [])) in
  match fst (DescribeExecutionTimeout (C:=demo_calibration) st demo_sd "RTX" 24) with
  | Ok d => (ed_ColdStart d, ed_FallbackUsed d, ed_ComputedTimeout d) = (false, false, 60)
  | Err _ => False
  end.
Proof. vm_compute. reflexivity. Qed.

End CalibrationBounds.
