(* ===== verification/CalibrationCache.v ===== *)
(** * Prices come from the current calibrations

    The relay caches the mean parameters of every requirement it priced
    ([aggregates]).  Whatever samples arrive, a cached mean is the mean of the
    records that would be chosen now, up to the order in which the records are
    summed. *)

From S2P Require Import Prelude Models Float64 Config Mac ModelFiles Calibration CalibrationBounds.

Module CalibrationCache.
Import Float64 ModelFiles Calibration CalibrationBounds.

(** ** The nearest records *)

Lemma filter_none {A} (P : A → Prop) `{!∀ x, Decision (P x)} l : (∀ x, x ∈ l → ¬ P x) → filter P l = [].
Proof.
  induction l as [|x l IH]; intros Hn; [done|]. rewrite filter_cons_False by (apply Hn; by left).
  apply IH. intros y Hy. apply Hn. by right.
Qed.

Section nearest.
Context (minVRAM : Z).
Local Notation distance c := (vramIntervalDistance (cg_record c) minVRAM).

Definition minDistance (l : list cachedGPUCalibration) : Z := foldr (λ c d, Z.min (distance c) d) max_u64 l.

Lemma minDistance_max l : minDistance l ≤ max_u64.
Proof. induction l as [|c l IH]; [done|]. cbn [minDistance foldr] in *. fold (minDistance l) in *. lia. Qed.

Lemma minDistance_app l1 l2 : minDistance (l1 ++ l2) = Z.min (minDistance l1) (minDistance l2).
Proof.
  pose proof (minDistance_max l2). induction l1 as [|c l1 IH].
  - change (minDistance l2 = Z.min max_u64 (minDistance l2)). lia.
  - change (Z.min (distance c) (minDistance (l1 ++ l2)) = Z.min (Z.min (distance c) (minDistance l1)) (minDistance l2)).
    rewrite IH. lia.
Qed.

Lemma minDistance_le l c : c ∈ l → minDistance l ≤ distance c.
Proof.
  induction l as [|x l IH]; [intros []%not_elem_of_nil|]. simpl.
  intros [->|Hin]%elem_of_cons; [lia|]. specialize (IH Hin). lia.
Qed.

#[export] Instance minDistance_perm : Proper ((≡ₚ) ==> (=)) minDistance.
Proof.
  intros l1 l2 Hp. unfold minDistance. induction Hp; simpl; lia.
Qed.

(** The loop keeps the records at the smallest distance. *)
Lemma nearest_spec l : foldl (nearestStep minVRAM) (max_u64, []) l =
  (minDistance l, filter (λ c, distance c = minDistance l) l).
Proof.
  induction l as [|x l IH] using rev_ind; [done|].
  rewrite foldl_snoc, IH, minDistance_app. unfold nearestStep. cbn [fst].
  assert (Hx : minDistance [x] = Z.min (distance x) max_u64) by done.
  pose proof (minDistance_max l).
  rewrite filter_app. destruct (Z.ltb_spec (distance x) (minDistance l)) as [Hlt|Hge].
  - replace (Z.min (minDistance l) (minDistance [x])) with (distance x) by lia.
    rewrite Z.eqb_refl. f_equal. simpl. rewrite filter_cons_True by done.
    rewrite filter_none; [done|]. intros c Hc%minDistance_le. lia.
  - replace (Z.min (minDistance l) (minDistance [x])) with (minDistance l) by lia.
    f_equal. destruct (Z.eqb_spec (distance x) (minDistance l)).
    + by rewrite filter_cons_True.
    + rewrite filter_cons_False by done. by rewrite app_nil_r.
Qed.
End nearest.

(** ** Candidates and the order of the records *)

Lemma forallb_perm {A} (f : A → bool) l1 l2 : l1 ≡ₚ l2 → forallb f l1 = forallb f l2.
Proof. induction 1; simpl; try congruence. destruct (f x), (f y); done. Qed.

Lemma nil_perm {A} (l1 l2 : list A) : l1 ≡ₚ l2 → bool_decide (l1 = []) = bool_decide (l2 = []).
Proof.
  intros Hp. apply bool_decide_ext. split; intros ->;
    [by apply Permutation_nil_l in Hp|by apply Permutation_nil_r in Hp].
Qed.

Section cache.
Context {C : CalibrationEnv}.

#[export] Instance candidateCalibrations_perm : Proper ((≡ₚ) ==> (=) ==> (=) ==> (=) ==> (=) ==> (≡ₚ)) candidateCalibrations.
Proof.
  intros l1 l2 Hp task _ <- g _ <- v _ <- b _ <-. unfold candidateCalibrations.
  match goal with |- context [filter ?P l1] => set (V1 := filter P l1); set (V2 := filter P l2);
    assert (HV : V1 ≡ₚ V2) by (by apply filter_Permutation) end.
  clearbody V1 V2. cbv zeta.
  match goal with |- context [filter ?P (map snd V1)] => set (M1 := filter P (map snd V1));
    set (M2 := filter P (map snd V2));
    assert (HM : M1 ≡ₚ M2) by (apply filter_Permutation; by apply fmap_Permutation) end.
  match goal with |- context [filter ?P M1] => set (E1 := filter P M1); set (E2 := filter P M2);
    assert (HE : E1 ≡ₚ E2) by (by apply filter_Permutation) end.
  match goal with |- context [map snd (filter ?P V1)] => set (G1 := map snd (filter P V1));
    set (G2 := map snd (filter P V2));
    assert (HG : G1 ≡ₚ G2) by (apply fmap_Permutation; by apply filter_Permutation) end.
  clearbody M1 M2 E1 E2 G1 G2.
  rewrite (nil_perm _ _ HE), (nil_perm _ _ HM), (nil_perm _ _ HG), (forallb_perm _ _ _ HE).
  destruct (_ && _ && _); [done|]. destruct (negb _); [done|].
  rewrite !nearest_spec. cbn [snd].
  assert (HH : (if negb (bool_decide (G2 = [])) then G1 else map snd V1) ≡ₚ
               (if negb (bool_decide (G2 = [])) then G2 else map snd V2)).
  { destruct (negb _); [done|by apply fmap_Permutation]. }
  rewrite (minDistance_perm _ _ _ HH). by apply filter_Permutation.
Qed.

(** ** Records without their dirty versions *)

Definition bare (c : cachedGPUCalibration) : cachedGPUCalibration := mkCached (cg_record c) 0.
Definition erase (kc : gpuCalibrationKey * cachedGPUCalibration) := (fst kc, bare (snd kc)).
Definition bareRecords (st : taskPricingStore) : list (gpuCalibrationKey * cachedGPUCalibration) :=
  map erase (map_to_list (ps_records st)).

Lemma filter_map {A B} (f : A → B) (P : B → Prop) `{!∀ x, Decision (P x)} (Q : A → Prop) `{!∀ x, Decision (Q x)} l :
  (∀ x, P (f x) ↔ Q x) → filter P (map f l) = map f (filter Q l).
Proof.
  intros HPQ. induction l as [|x l IH]; [done|]. simpl. destruct (decide (Q x)).
  - rewrite filter_cons_True, IH by (by apply HPQ). by rewrite filter_cons_True.
  - rewrite filter_cons_False, IH by (by rewrite HPQ). by rewrite filter_cons_False.
Qed.

Lemma map_nil {A B} (f : A → B) l : bool_decide (map f l = []) = bool_decide (l = []).
Proof. by destruct l. Qed.

Lemma forallb_map {A B} (f : A → B) (g : B → bool) l : forallb g (map f l) = forallb (λ x, g (f x)) l.
Proof. induction l as [|x l IH]; simpl; congruence. Qed.

Lemma minDistance_bare v l : minDistance v (map bare l) = minDistance v l.
Proof. unfold minDistance. induction l as [|c l IH]; simpl; congruence. Qed.

Lemma candidates_bare records task g v b :
  candidateCalibrations (map erase records) task g v b = map bare (candidateCalibrations records task g v b).
Proof.
  unfold candidateCalibrations. cbv zeta. rewrite !nearest_spec. cbn [snd].
  match goal with |- context [filter ?P (map erase records)] => set (V := filter P records);
    assert (HV : filter P (map erase records) = map erase V) by (by apply filter_map; intros []) end.
  rewrite !HV. clearbody V. clear HV.
  assert (Hs : map snd (map erase V) = map bare (map snd V)) by (rewrite !map_map; done). rewrite !Hs.
  match goal with |- context [filter ?P (map bare (map snd V))] => set (M := filter P (map snd V));
    assert (HM : filter P (map bare (map snd V)) = map bare M) by (by apply filter_map) end.
  rewrite !HM. clear HM Hs.
  match goal with |- context [filter ?P (map bare M)] => set (X := filter P M);
    assert (HX : filter P (map bare M) = map bare X) by (by apply filter_map) end.
  rewrite !HX. clear HX.
  match goal with |- context [filter ?P (map erase V)] => set (G := filter P V);
    assert (HG : filter P (map erase V) = map erase G) by (by apply filter_map) end.
  rewrite !HG. clear HG.
  assert (Hs : map snd (map erase G) = map bare (map snd G)) by (rewrite !map_map; done). rewrite !Hs.
  rewrite !map_nil, forallb_map. cbn [bare cg_record].
  match goal with |- (if ?b then _ else _) = _ => destruct b end; [done|].
  match goal with |- (if ?b then _ else _) = _ => destruct b end; [done|].
  match goal with |- context [if negb ?b then map bare _ else _] => destruct b end; cbn [negb];
    rewrite minDistance_bare; by apply filter_map.
Qed.

Lemma meanParameters_bare l ty : meanParameters (map bare l) ty = meanParameters l ty.
Proof.
  assert (H1 : ∀ z, foldl (λ t c, addParameters ty t (parametersFromRecord (cg_record c))) z (map bare l) =
                    foldl (λ t c, addParameters ty t (parametersFromRecord (cg_record c))) z l)
    by (induction l; intros z; [done|]; simpl; auto).
  assert (H2 : ∀ z : float64, foldl (λ c _, f64_add c f64_one) z (map bare l) = foldl (λ c _, f64_add c f64_one) z l)
    by (clear H1; induction l; intros z; [done|]; simpl; auto).
  unfold meanParameters. by rewrite H1, H2.
Qed.

(** ** The cached means *)

(** The mean over the candidates of a task among some records, in some order. *)
Definition meanOver (records : list (gpuCalibrationKey * cachedGPUCalibration)) (task : InferenceTask)
    (gpuName : string) (gpuVram : Z) (p : executionParameters) : Prop :=
  ∃ l, l ≡ₚ candidateCalibrations records task gpuName gpuVram true ∧ p = meanParameters l (t_TaskType task).

Definition coherent (st : taskPricingStore) : Prop :=
  ∀ key p, ps_aggregates st !! key = Some p → meanOver (bareRecords st) (keyTask key) "" 0 p.

Lemma meanOver_visit st task g v c st' : candidateCalibrationsLocked st task g v true = (c, st') →
  meanOver (bareRecords st) task g v (meanParameters c (t_TaskType task)).
Proof.
  intros [= <- <-]. rewrite <- meanParameters_bare. eexists. split; [|reflexivity].
  unfold bareRecords. rewrite candidates_bare. apply fmap_Permutation. by rewrite cal_order_perm.
Qed.

Lemma meanOver_perm r1 r2 task g v p : r1 ≡ₚ r2 → meanOver r1 task g v p → meanOver r2 task g v p.
Proof. intros Hp (l & Hl & ->). exists l. split; [|done]. by rewrite <- Hp. Qed.

(** Candidates depend on the requirements of the task only. *)
Lemma candidates_requirements records task task' g v b :
  t_TaskType task = t_TaskType task' → t_MinVRAM task = t_MinVRAM task' →
  tp_ModelName (t_Pricing task) = tp_ModelName (t_Pricing task') →
  tp_RequestedDType (t_Pricing task) = tp_RequestedDType (t_Pricing task') →
  hash32FromColumn (tp_QuantizationConfigHash (t_Pricing task)) =
    hash32FromColumn (tp_QuantizationConfigHash (t_Pricing task')) →
  candidateCalibrations records task g v b = candidateCalibrations records task' g v b.
Proof.
  intros H1 H2 H3 H4 H5. unfold candidateCalibrations, suitable, recordMatchesTaskConfig. by rewrite H1, H2, H3, H4, H5.
Qed.

Lemma keyTask_requirements records task b :
  candidateCalibrations records (keyTask (pricingKey task)) "" 0 b = candidateCalibrations records task "" 0 b.
Proof.
  apply candidates_requirements; try done. simpl. apply hash32FromColumn_id, hash32FromColumn_length.
Qed.

(** ** Changes of the records *)

Lemma candidates_suitable records task g v b :
  candidateCalibrations records task g v b =
  candidateCalibrations (filter (λ kc, suitable task g v b kc) records) task g v b.
Proof.
  unfold candidateCalibrations.
  assert (H : filter (λ kc, suitable task g v b kc) (filter (λ kc, suitable task g v b kc) records) =
              filter (λ kc, suitable task g v b kc) records); [|by rewrite H].
  rewrite list_filter_filter. apply list_filter_iff. naive_solver.
Qed.

(** A record that is not suitable, before and after a change, does not matter. *)
Lemma candidates_insert (m : gmap gpuCalibrationKey cachedGPUCalibration) key c task b :
  suitable task "" 0 b (key, c) = false →
  (∀ c0, m !! key = Some c0 → suitable task "" 0 b (key, c0) = false) →
  candidateCalibrations (map erase (map_to_list (<[key := c]> m))) task "" 0 b ≡ₚ
  candidateCalibrations (map erase (map_to_list m)) task "" 0 b.
Proof.
  intros Hc H0. rewrite (candidates_suitable (map erase (map_to_list (<[key := c]> m)))), (candidates_suitable (map erase (map_to_list m))).
  assert (Hd : ∀ m' : gmap gpuCalibrationKey cachedGPUCalibration, (∀ c0, m' !! key = Some c0 → suitable task "" 0 b (key, c0) = false) →
    filter (λ kc, suitable task "" 0 b kc) (map erase (map_to_list m')) ≡ₚ
    filter (λ kc, suitable task "" 0 b kc) (map erase (map_to_list (delete key m')))).
  { intros m' Hm'. destruct (m' !! key) as [c0|] eqn:Hk; [|by rewrite delete_id].
    rewrite <- (insert_delete_id m' key c0 Hk) at 1.
    rewrite (map_to_list_insert (delete key m') key c0) by apply lookup_delete_eq. simpl.
    rewrite filter_cons_False; [done|]. specialize (Hm' c0 eq_refl).
    change (¬ Is_true (suitable task "" 0 b (key, c0))). rewrite Hm'. intros []. }
  rewrite (Hd (<[key := c]> m)), (Hd m) by (done || intros c0; rewrite lookup_insert_eq; intros [= <-]; done).
  by rewrite delete_insert_eq.
Qed.

(** Entries that are recomputed use the current records; the others stay. *)
Lemma recomputeEntries_spec ty vram entries : ∀ st key p,
  ps_aggregates (recomputeEntries st ty vram entries) !! key = Some p →
  (pk_taskType key = ty ∧ pk_vramDemand key ≤ vram ∧ meanOver (bareRecords st) (keyTask key) "" 0 p) ∨
  (ps_aggregates st !! key = Some p ∧
   (key ∈ entries.*1 → ¬ (pk_taskType key = ty ∧ pk_vramDemand key ≤ vram))).
Proof.
  induction entries as [|[k q] entries IH]; intros st key p H; [right; split; [done|by intros ?%not_elem_of_nil]|].
  cbn [recomputeEntries] in H. destruct (bool_decide (pk_taskType k = ty) && (pk_vramDemand k <=? vram)) eqn:Hc.
  - destruct (candidateCalibrationsLocked st (keyTask k) "" 0 true) as [c st1] eqn:Hv.
    pose proof (meanOver_visit _ _ _ _ _ _ Hv) as Hmean. apply candidates_frame in Hv as (Er & _ & Ea & _).
    apply andb_true_iff in Hc as [Hty%bool_decide_eq_true Hvr%Z.leb_le].
    apply IH in H. unfold bareRecords in H. simpl in H. rewrite Er, Ea in H. fold (bareRecords st) in H.
    destruct H as [H|[H Hn]]; [by left|].
    apply lookup_insert_Some in H as [[-> <-]|[Hne H]].
    + left. split; [done|]. split; [done|]. by rewrite Hty in Hmean || (rewrite <- Hty; done).
    + right. split; [done|]. intros [->|Hin]%elem_of_cons; [done|by apply Hn].
  - apply IH in H as [H|[H Hn]]; [by left|]. right. split; [done|].
    intros [->|Hin]%elem_of_cons; [|by apply Hn]. simpl. intros [Hty Hvr].
    rewrite bool_decide_eq_true_2, (proj2 (Z.leb_le _ _) Hvr) in Hc by done. done.
Qed.

(** ** Preservation *)

Lemma coherent_frame st st' : ps_records st' = ps_records st → ps_aggregates st' = ps_aggregates st →
  coherent st → coherent st'.
Proof. intros Er Ea Hc key p. unfold bareRecords. rewrite Er, Ea. apply Hc. Qed.

Lemma unsampled_unsuitable task key : suitable task "" 0 true (key, mkCached (newCalibration key) 0) = false.
Proof.
  unfold suitable, calibrationHasSamples. simpl.
  by destruct (bool_decide (t_TaskType task = TaskTypeSD)), (bool_decide (ck_taskType key ≠ t_TaskType task)).
Qed.

Lemma other_unsuitable key k c :
  ¬ (pk_taskType k = ck_taskType key ∧ pk_vramDemand k ≤ ck_vram key) → suitable (keyTask k) "" 0 true (key, c) = false.
Proof.
  intros Hn. unfold suitable. simpl. case_bool_decide as Ht; [done|]. simpl.
  destruct (Z.ltb_spec (ck_vram key) (pk_vramDemand k)) as [|Hle]; [by rewrite andb_false_r|].
  exfalso. apply Hn. split; [|done]. by destruct (decide (ck_taskType key = pk_taskType k)).
Qed.

Lemma coherent_new st key : ps_records st !! key = None → coherent st →
  coherent (st <| ps_records := <[key := mkCached (newCalibration key) 0]> (ps_records st) |>).
Proof.
  intros Hn Hc k p Hk. destruct (Hc k p Hk) as (l & Hl & ->). exists l. split; [|done].
  rewrite Hl. symmetry. apply candidates_insert; [apply unsampled_unsuitable|]. intros c0. by rewrite Hn.
Qed.

Lemma sampleEffect_coherent ty st st' : sampleEffect ty st st' → coherent st → coherent st'.
Proof.
  intros [->|key Hk Hn ->|key next st1 Hk Hty Hs Hr ->] Hc; [done|by apply coherent_new|].
  assert (Hc1 : coherent st1) by (destruct Hr as [->|[Hn ->]]; [done|by apply coherent_new]).
  unfold recomputeAggregatesLocked. set (st2 := markDirtyLocked st1 key next). intros k p Hp.
  assert (Er : bareRecords (recomputeEntries st2 ty (ck_vram key) (map_to_list (ps_aggregates st2))) = bareRecords st2)
    by (unfold bareRecords; by destruct (recomputeEntries_frame ty (ck_vram key) (map_to_list (ps_aggregates st2)) st2) as (-> & _)).
  rewrite Er. apply recomputeEntries_spec in Hp as [(_ & _ & H)|[Ha Hn]]; [done|].
  assert (Hin : k ∈ (map_to_list (ps_aggregates st2)).*1)
    by (apply list_elem_of_fmap; exists (k, p); split; [done|by apply elem_of_map_to_list]).
  specialize (Hn Hin). rewrite <- Hty in Hn.
  destruct (Hc1 k p Ha) as (l & Hl & ->). exists l. split; [|done]. rewrite Hl. symmetry.
  apply candidates_insert; [by apply other_unsuitable|]. intros c0 _. by apply other_unsuitable.
Qed.

Lemma getTaskPricingParameters_spec st task : coherent st →
  let '(p, st') := getTaskPricingParameters st task in
  coherent st' ∧
  meanOver (bareRecords st) task (t_RequiredGPU task)
    (if String.eqb (t_RequiredGPU task) "" then 0 else t_RequiredGPUVRAM task) p.
Proof.
  intros Hc. unfold getTaskPricingParameters. destruct (String.eqb_spec (t_RequiredGPU task) "") as [->|Hne]; cbn [negb].
  - destruct (ps_aggregates st !! pricingKey task) as [p|] eqn:Hk.
    + split; [done|]. destruct (Hc _ p Hk) as (l & Hl & ->). exists l. by rewrite keyTask_requirements in Hl.
    + destruct (candidateCalibrationsLocked st task "" 0 true) as [c st1] eqn:Hv.
      pose proof (meanOver_visit _ _ _ _ _ _ Hv) as Hm. apply candidates_frame in Hv as (Er & _ & Ea & _).
      split; [|done]. intros k p. simpl. rewrite Ea. unfold bareRecords. simpl. rewrite Er.
      intros [[<- <-]|[_ H]]%lookup_insert_Some; [|by apply Hc].
      destruct Hm as (l & Hl & ->). exists l. by rewrite keyTask_requirements.
  - destruct (candidateCalibrationsLocked st task (t_RequiredGPU task) (t_RequiredGPUVRAM task) true) as [c st1] eqn:Hv.
    pose proof (meanOver_visit _ _ _ _ _ _ Hv) as Hm. apply candidates_frame in Hv as (Er & _ & Ea & _).
    split; [by eapply coherent_frame|done].
Qed.

Lemma bareRecords_perm st st' : (∀ key, cg_record <$> ps_records st' !! key = cg_record <$> ps_records st !! key) →
  bareRecords st' ≡ₚ bareRecords st.
Proof.
  intros Hr. unfold bareRecords.
  assert (Hm : ∀ m : gmap gpuCalibrationKey cachedGPUCalibration, map erase (map_to_list m) ≡ₚ map_to_list (bare <$> m))
    by (intros m; symmetry; by rewrite map_to_list_fmap).
  rewrite !Hm. f_equiv. apply map_eq. intros key. rewrite !lookup_fmap. specialize (Hr key).
  destruct (ps_records st' !! key), (ps_records st !! key); simpl in *; try done.
  injection Hr as Hr. unfold bare. by rewrite Hr.
Qed.

Lemma Init_coherent tick table : coherent (InitTaskPricing tick table).
Proof.
  assert (H : ∀ rows st, ps_aggregates (foldl loadRecord st rows) = ps_aggregates st).
  { induction rows as [|r rows IH]; intros st; [done|]. simpl. rewrite IH. unfold loadRecord.
    by destruct (negb _), (negb _). }
  intros key p. unfold InitTaskPricing. rewrite H. simpl. by rewrite lookup_empty.
Qed.

Lemma runCalOp_coherent s op : coherent (cs_store s) → coherent (cs_store (runCalOp s op)).
Proof.
  intros Hc. destruct op; cbn [runCalOp cs_store].
  - pose proof (getTaskPricingParameters_spec (cs_store s) task Hc) as H.
    by destruct (getTaskPricingParameters (cs_store s) task) as [p st'], H.
  - destruct (DescribeExecutionTimeout_frame (cs_store s) task gpuName gpuVram) as (? & _ & ? & _). by eapply coherent_frame.
  - done.
  - done.
  - destruct (DeleteGroup_frame (cs_store s) taskID groupTasks) as (? & _ & ?). by eapply coherent_frame.
  - done.
  - eapply sampleEffect_coherent; [apply CalibrateSD_effect|done].
  - eapply sampleEffect_coherent; [apply CalibrateLLM_effect|done].
  - destruct s as [st table []]; [|done..]. cbn [flushStep].
    destruct (dirtyRecords st) as [d st'] eqn:Hd. apply dirtyRecords_elem in Hd as (? & _ & ? & _). by eapply coherent_frame.
  - destruct s as [st table []], outcome; done.
  - destruct s as [st table [| |d]]; [done|done|]. cbn [flushStep cs_store] in *. intros key p.
    destruct (clearDirty_records st d) as (_ & -> & Hr). intros Hk. eapply meanOver_perm; [|by apply Hc].
    symmetry. by apply bareRecords_perm.
  - apply Init_coherent.
Qed.

(** C21 (equivalence): after any run - pricing, samples, flushes, restarts, in any interleaving
    and whatever order the maps are visited in - the parameters a task is priced
    with are the mean over the records that are suitable for it now, summed in
    some order: the cached means are never stale. *)
Theorem prices_follow_calibrations ops table task :
  let st := cs_store (runCalOps ops (startState table)) in
  ∃ l, l ≡ₚ candidateCalibrations (bareRecords st) task (t_RequiredGPU task)
              (if String.eqb (t_RequiredGPU task) "" then 0 else t_RequiredGPUVRAM task) true ∧
    fst (getTaskPricingParameters st task) = meanParameters l (t_TaskType task).
Proof.
  intros st. assert (Hc : coherent st).
  { unfold st, runCalOps. assert (H0 : coherent (cs_store (startState table))) by apply Init_coherent.
    revert H0. generalize (startState table). clear st. induction ops as [|op ops IH]; intros s H0; [done|].
    cbn [foldl]. by apply IH, runCalOp_coherent. }
  pose proof (getTaskPricingParameters_spec st task Hc) as H.
  destruct (getTaskPricingParameters st task) as [p st']. destruct H as [_ (l & Hl & ->)]. by exists l.
Qed.
End cache.

Lemma prices_follow_calibrations_witness :
  let st := cs_store (runCalOps (C:=demo_calibration) demo_ops (startState (C:=demo_calibration) [])) in
  ∃ l, l ≡ₚ candidateCalibrations (C:=demo_calibration) (bareRecords st) demo_sd "" 0 true ∧
    fst (getTaskPricingParameters (C:=demo_calibration) st demo_sd) = meanParameters (C:=demo_calibration) l TaskTypeSD.
Proof. exact (prices_follow_calibrations (C:=demo_calibration) demo_ops [] demo_sd). Defined.

End CalibrationCache.
