(* ===== verification/CalibrationFlush.v ===== *)
(** * No calibration is lost

    A flush reads the dirty records, writes them to the table without holding the
    lock, and clears the marks of the records that did not change meanwhile.
    Whatever samples come in between and however writes end, a record without a
    mark is stored as it is, so a quiet flush followed by a restart recovers
    every calibration. *)

From S2P Require Import Prelude Models Float64 Config Mac ModelFiles Calibration CalibrationBounds.

Module CalibrationFlush.
Import Float64 ModelFiles Calibration CalibrationBounds.

(** A record up to the primary key of its row. *)
Definition content (r : GPUExecutionCalibration) : GPUExecutionCalibration := r <| gc_ID := 0 |>.

(** The table has the record. *)
Definition stored (table : list GPUExecutionCalibration) (r : GPUExecutionCalibration) : Prop :=
  ∃ row, row ∈ table ∧ content row = content r.

Section flush.
Context {C : CalibrationEnv}.
Context (Hcfg : good_config cal_cfg).

(** A record that was never sampled. *)
Definition fresh (r : GPUExecutionCalibration) : Prop := r = newCalibration (keyFromRecord r).

(** The version counter has not wrapped around. *)
Definition versions (st : taskPricingStore) : Prop :=
  0 ≤ ps_version st ∧ ∀ key c, ps_records st !! key = Some c → 0 ≤ cg_dirtyVersion c ≤ ps_version st.

(** Records without a mark are stored or were never sampled. *)
Definition clean_stored (st : taskPricingStore) (table : list GPUExecutionCalibration) : Prop :=
  ∀ key c, ps_records st !! key = Some c → cg_dirtyVersion c = 0 →
    stored table (cg_record c) ∨ fresh (cg_record c).

(** What a flush under way knows of the records it read: a version names one
    content. *)
Definition read_current (st : taskPricingStore) (dirty : list (GPUExecutionCalibration * Z)) : Prop :=
  ∀ r v, (r, v) ∈ dirty → 0 < v ∧ good_record r ∧
    ∃ c, ps_records st !! keyFromRecord r = Some c ∧ v ≤ cg_dirtyVersion c ∧
         (cg_dirtyVersion c = v → cg_record c = r).

Definition phase_ok (st : taskPricingStore) (table : list GPUExecutionCalibration) (p : flushPhase) : Prop :=
  match p with
  | FlushIdle => True
  | FlushRead dirty => read_current st dirty ∧ NoDup (map (λ rv, rowKey (fst rv)) dirty)
  | FlushWritten dirty => read_current st dirty ∧ ∀ r v, (r, v) ∈ dirty → stored table r
  end.

Definition flush_inv (s : calState) : Prop :=
  good_state s ∧ NoDup (map rowKey (cs_table s)) ∧ versions (cs_store s) ∧
  clean_stored (cs_store s) (cs_table s) ∧ phase_ok (cs_store s) (cs_table s) (cs_phase s).

(** ** The table *)

Lemma rowKey_content r r' : content r = content r' → rowKey r = rowKey r'.
Proof. intros H. change (rowKey (content r) = rowKey (content r')). by rewrite H. Qed.

Lemma upsertRow_keys table r : NoDup (map rowKey table) → NoDup (map rowKey (upsertRow table r)).
Proof.
  intros Hn. unfold upsertRow. destruct (existsb _ table) eqn:He.
  - rewrite map_map. erewrite map_ext; [exact Hn|]. intros row. simpl. case_bool_decide as Hk; [|done].
    by rewrite Hk.
  - rewrite map_app. apply NoDup_app. split; [done|]. split; [|apply NoDup_singleton].
    intros k Hk%list_elem_of_fmap Hk'%list_elem_of_singleton. destruct Hk as (row & -> & Hin).
    assert (existsb (λ row, bool_decide (rowKey row = rowKey r)) table = true); [|congruence].
    apply existsb_exists. exists row. split; [by apply list_elem_of_In|]. by apply bool_decide_eq_true.
Qed.

(** The row of the key is the record; the others stay. *)
Lemma upsertRow_stored table r : stored (upsertRow table r) r.
Proof.
  unfold upsertRow, stored. destruct (existsb _ table) eqn:He.
  - apply existsb_exists in He as (row & Hin & Hk%bool_decide_eq_true).
    exists (r <| gc_ID := gc_ID row |>). split; [|done]. apply list_elem_of_fmap. exists row.
    rewrite bool_decide_eq_true_2 by done. split; [done|by apply list_elem_of_In].
  - eexists. split; [apply elem_of_app; right; by apply list_elem_of_singleton|done].
Qed.

Lemma upsertRow_other table r r' : rowKey r' ≠ rowKey r → stored table r' → stored (upsertRow table r) r'.
Proof.
  intros Hne (row & Hin & Hc). exists row. split; [|done].
  assert (Hk : rowKey row ≠ rowKey r) by (rewrite (rowKey_content _ _ Hc); done).
  unfold upsertRow. destruct (existsb _ table).
  - apply list_elem_of_fmap. exists row. by rewrite bool_decide_eq_false_2.
  - apply elem_of_app. by left.
Qed.

Lemma upsertRecords_keys d table : NoDup (map rowKey table) → NoDup (map rowKey (upsertRecords table d)).
Proof.
  unfold upsertRecords. revert table. induction d as [|rv d IH]; intros table Hn; [done|].
  simpl. by apply IH, upsertRow_keys.
Qed.

Lemma upsertRecords_other d table r' : (∀ rv, rv ∈ d → rowKey (fst rv) ≠ rowKey r') →
  stored table r' → stored (upsertRecords table d) r'.
Proof.
  unfold upsertRecords. revert table. induction d as [|rv d IH]; intros table Hne Hs; [done|]. simpl.
  apply IH; [intros; apply Hne; by right|]. apply upsertRow_other; [|done].
  apply not_eq_sym, Hne. by left.
Qed.

Lemma upsertRecords_stored d table r v : NoDup (map (λ rv, rowKey (fst rv)) d) → (r, v) ∈ d →
  stored (upsertRecords table d) r.
Proof.
  revert table. induction d as [|rv d IH]; intros table Hn Hin; [by apply not_elem_of_nil in Hin|].
  apply NoDup_cons in Hn as [Hnew Hn]. apply elem_of_cons in Hin as [<-|Hin].
  - change (stored (upsertRecords (upsertRow table r) d) r). apply upsertRecords_other; [|apply upsertRow_stored].
    intros rv Hrv Heq. apply Hnew. apply list_elem_of_fmap. exists rv. split; [done|done].
  - change (stored (upsertRecords (upsertRow table (fst rv)) d) r). by apply IH.
Qed.

(** ** Samples *)

Lemma wrap_next v : 0 ≤ v < max_u64 → wrap_u64 (v + 1) = v + 1.
Proof. intros H. apply wrap_u64_small. lia. Qed.

Lemma recordChange_versions st st' : recordChange st st' → ps_version st < max_u64 → versions st → versions st'.
Proof.
  intros Hc Hw [H0 Hv]. unfold versions. destruct Hc as [Hr ->|key _ _ -> Hr|ty key next _ _ -> Hr]; rewrite Hr.
  - done.
  - split; [done|]. intros k c [[<- <-]|[_ H]]%lookup_insert_Some; [simpl; lia|by eapply Hv].
  - rewrite wrap_next by lia. split; [lia|]. intros k c [[<- <-]|[_ H]]%lookup_insert_Some; [simpl; lia|].
    specialize (Hv k c H). lia.
Qed.

Lemma recordChange_clean st st' table : recordChange st st' → ps_version st < max_u64 → versions st →
  clean_stored st table → clean_stored st' table.
Proof.
  intros Hc Hw [H0 Hv] Hs k c. destruct Hc as [Hr _|key Hk _ _ Hr|ty key next _ _ _ Hr]; rewrite Hr.
  - apply Hs.
  - intros [[<- <-]|[_ H]]%lookup_insert_Some; [|by eapply Hs]. intros _. right. unfold fresh. simpl.
    by rewrite (proj2 (newCalibration_good Hcfg key Hk)).
  - intros [[<- <-]|[_ H]]%lookup_insert_Some; [|by eapply Hs]. simpl. rewrite wrap_next by lia. lia.
Qed.

Lemma recordChange_read st st' dirty : recordChange st st' → ps_version st < max_u64 → versions st →
  read_current st dirty → read_current st' dirty.
Proof.
  intros Hc Hw [H0 Hv] Hd r v Hin. destruct (Hd r v Hin) as (Hpos & Hg & c & Hk & Hle & He).
  split; [done|]. split; [done|]. destruct Hc as [Hr _|key _ Hn _ Hr|ty key next _ _ _ Hr]; rewrite Hr.
  - eauto.
  - rewrite lookup_insert_ne by congruence. eauto.
  - destruct (decide (key = keyFromRecord r)) as [->|Hne].
    + rewrite lookup_insert_eq. eexists. split; [done|]. simpl. rewrite wrap_next by lia.
      specialize (Hv _ c Hk). split; lia.
    + rewrite lookup_insert_ne by done. eauto.
Qed.

(** ** Loading *)

Lemma load_versions rows : ∀ st, 0 ≤ ps_version st → ps_version st + 2 * Z.of_nat (length rows) < max_u64 →
  versions st → versions (foldl loadRecord st rows) ∧
  ps_version (foldl loadRecord st rows) ≤ ps_version st + 2 * Z.of_nat (length rows).
Proof.
  induction rows as [|r rows IH]; intros st H0 Hb Hv; [simpl; split; [done|lia]|]. cbn [foldl length] in *.
  assert (H1 : versions (loadRecord st r) ∧ ps_version st ≤ ps_version (loadRecord st r) ≤ ps_version st + 2).
  { destruct Hv as [_ Hv]. unfold loadRecord.
    destruct (negb (gc_SDFormulaVersion r =? _)), (negb (gc_LLMFormulaVersion r =? _)); simpl;
      rewrite ?(wrap_next (ps_version st)), ?(wrap_next (ps_version st + 1)) by lia; (split; [|lia]);
      (split; [simpl; lia|]); simpl; intros k c [[<- <-]|[_ H]]%lookup_insert_Some; simpl; try lia;
      specialize (Hv k c H); lia. }
  destruct H1 as [Hv1 Hle]. destruct (IH (loadRecord st r)) as [H2 H3]; [lia|lia|done|]. split; [done|lia].
Qed.

Lemma loadRecord_entry st r : 0 ≤ ps_version st → ps_version st + 2 < max_u64 →
  ∃ v, ps_records (loadRecord st r) = <[keyFromRecord r := mkCached (loaded r) v]> (ps_records st) ∧
       (v = 0 → loaded r = r).
Proof.
  intros H0 Hb. unfold loadRecord, loaded.
  destruct (gc_SDFormulaVersion r =? _), (gc_LLMFormulaVersion r =? _); simpl;
    rewrite ?(wrap_next (ps_version st)), ?(wrap_next (ps_version st + 1)) by lia;
    eexists; (split; [reflexivity|]); intros; done || lia.
Qed.

Lemma load_clean rows : ∀ st table, 0 ≤ ps_version st → ps_version st + 2 * Z.of_nat (length rows) < max_u64 →
  versions st → (∀ r, r ∈ rows → r ∈ table) →
  clean_stored st table → clean_stored (foldl loadRecord st rows) table.
Proof.
  induction rows as [|r rows IH]; intros st table H0 Hb Hv Hsub Hs; [done|]. cbn [foldl length] in *.
  destruct (load_versions [r] st H0 ltac:(simpl; lia) Hv) as [Hv1 Hle]. cbn [foldl length] in Hle, Hv1.
  apply IH; [apply Hv1|lia|done|intros; apply Hsub; by right|].
  destruct (loadRecord_entry st r H0 ltac:(lia)) as (v & Hr & Hz). intros k c. rewrite Hr.
  intros [[<- <-]|[_ H]]%lookup_insert_Some; [|by eapply Hs]. simpl. intros Hv0. left.
  exists r. split; [apply Hsub; by left|]. by rewrite Hz.
Qed.

Lemma Init_inv tick table : 2 * Z.of_nat (length table) < max_u64 →
  versions (InitTaskPricing tick table) ∧ clean_stored (InitTaskPricing tick table) table.
Proof.
  intros Hb. assert (H0 : versions (mkStore ∅ ∅ ∅ 0 tick)) by (split; [done|intros k c; simpl; by rewrite lookup_empty]).
  split; [by apply (load_versions table (mkStore ∅ ∅ ∅ 0 tick))|].
  apply load_clean; [done|done|done|done|]. intros k c. simpl. by rewrite lookup_empty.
Qed.

(** ** The phases of a flush *)

Lemma omap_keys {A B K} (key : A → K) (key' : B → K) (f : A → option B) l :
  (∀ a b, a ∈ l → f a = Some b → key' b = key a) → NoDup (map key l) → NoDup (map key' (omap f l)).
Proof.
  intros Hf. induction l as [|a l IH]; intros Hn; [constructor|]. apply NoDup_cons in Hn as [Ha Hn]. simpl.
  assert (IH' : NoDup (map key' (omap f l))) by (apply IH; [intros; apply Hf; [by right|done]|done]).
  destruct (f a) as [b|] eqn:Hb; [|done]. simpl. constructor; [|done].
  intros (b' & Heq & (a' & Hin & Ha')%list_elem_of_omap)%list_elem_of_fmap. apply Ha.
  rewrite (Hf a b) in Heq by (done || by left). rewrite (Hf a' b') in Heq by (done || by right).
  rewrite Heq. apply list_elem_of_fmap. by exists a'.
Qed.

Lemma NoDup_finer {A K L} (f : A → K) (g : A → L) l : (∀ a b, f a = f b → g a = g b) →
  NoDup (map g l) → NoDup (map f l).
Proof.
  intros Hfg. induction l as [|a l IH]; intros Hn; [constructor|]. apply NoDup_cons in Hn as [Ha Hn].
  constructor; [|by apply IH]. intros (b & Heq & Hin)%list_elem_of_fmap. apply Ha.
  apply list_elem_of_fmap. exists b. split; [by apply Hfg|done].
Qed.

Lemma dirtyRecords_read st d st' : good_store st → versions st → dirtyRecords st = (d, st') →
  read_current st' d ∧ NoDup (map (λ rv, rowKey (fst rv)) d).
Proof.
  intros Hg [_ Hv] Hd. split.
  - apply dirtyRecords_elem in Hd as (Er & _ & _ & He). intros r v (key & c & Hk & <- & <- & Hne)%He.
    destruct (Hg key c Hk) as [G K]. specialize (Hv key c Hk). split; [lia|]. split; [done|].
    exists c. rewrite K, Er. split; [done|]. split; [lia|done].
  - unfold dirtyRecords, visitRecords in Hd. injection Hd as <- _.
    apply (NoDup_finer _ (λ rv, keyFromRecord (fst rv))); [intros a b; apply keyFromRecord_congr|].
    apply (omap_keys fst).
    + intros [k c] [r v] Hin. rewrite cal_order_perm, elem_of_map_to_list in Hin. simpl.
      destruct (negb _); [|done]. intros [= <- <-]. by apply Hg.
    + rewrite cal_order_perm. apply NoDup_fst_map_to_list.
Qed.

(** Writing the records that were read keeps the clean records stored. *)
Lemma upsert_clean st table d : good_store st → read_current st d →
  clean_stored st table → clean_stored st (upsertRecords table d).
Proof.
  intros Hg Hd Hs k c Hk Hz. destruct (Hs k c Hk Hz) as [Hst|Hf]; [left|by right].
  apply upsertRecords_other; [|done]. intros [r v] Hin Heq. simpl in Heq.
  destruct (Hd r v Hin) as (Hpos & Gr & c' & Hk' & Hle & _). destruct (Hg k c Hk) as [Gc Kc].
  apply keyFromRecord_congr in Heq. rewrite Kc in Heq. rewrite Heq, Hk in Hk'. injection Hk' as <-. lia.
Qed.

(** Clearing removes the mark of the records whose version was read, and of no
    others. *)
Lemma clearDirty_entry d : ∀ st key c', ps_records (clearDirty st d) !! key = Some c' →
  ∃ c, ps_records st !! key = Some c ∧ cg_record c' = cg_record c ∧
    (cg_dirtyVersion c' = cg_dirtyVersion c ∧ (∀ r, (r, cg_dirtyVersion c) ∈ d → keyFromRecord r = key → cg_dirtyVersion c = 0) ∨
     cg_dirtyVersion c' = 0 ∧ ∃ r, (r, cg_dirtyVersion c) ∈ d ∧ keyFromRecord r = key).
Proof.
  unfold clearDirty. induction d as [|rv d IH]; intros st key c' H.
  { exists c'. split; [done|]. split; [done|]. left. split; [done|]. by intros ? ?%not_elem_of_nil. }
  cbn [foldl] in H. apply IH in H as (c1 & H1 & Er & Hc). destruct rv as [r v].
  unfold clearOne in H1. cbn [fst snd] in H1.
  destruct (ps_records st !! keyFromRecord r) as [c0|] eqn:H0; [destruct (Z.eqb_spec (cg_dirtyVersion c0) v) as [Hv|Hv]|].
  - simpl in H1. apply lookup_insert_Some in H1 as [[<- <-]|[Hne H1]].
    + exists c0. split; [done|]. split; [done|]. right. simpl in Hc. split; [destruct Hc as [[-> _]|[-> _]]; done|].
      exists r. split; [rewrite Hv; by left|done].
    + exists c1. split; [done|]. split; [done|]. destruct Hc as [[Hd Hn]|[Hd (r' & Hin & Hk)]].
      * left. split; [done|]. intros r' [[= -> _]|Hin]%elem_of_cons Hk; [done|by eapply Hn].
      * right. split; [done|]. exists r'. split; [by right|done].
  - exists c1. split; [done|]. split; [done|]. destruct Hc as [[Hd Hn]|[Hd (r' & Hin & Hk)]].
    * left. split; [done|]. intros r' [[= -> Hv']|Hin]%elem_of_cons Hk; [|by eapply Hn].
      rewrite Hk, H1 in H0. injection H0 as ->. done.
    * right. split; [done|]. exists r'. split; [by right|done].
  - exists c1. split; [done|]. split; [done|]. destruct Hc as [[Hd Hn]|[Hd (r' & Hin & Hk)]].
    * left. split; [done|]. intros r' [[= -> Hv']|Hin]%elem_of_cons Hk; [|by eapply Hn]. congruence.
    * right. split; [done|]. exists r'. split; [by right|done].
Qed.

Lemma clearDirty_clean st table d : versions st → read_current st d → (∀ r v, (r, v) ∈ d → stored table r) →
  clean_stored st table → versions (clearDirty st d) ∧ clean_stored (clearDirty st d) table.
Proof.
  intros [H0 Hv] Hd Hst Hs. destruct (clearDirty_records st d) as (Ev & _). split.
  - split; [by rewrite Ev|]. intros k c' (c & Hk & _ & Hc)%clearDirty_entry. rewrite Ev. specialize (Hv k c Hk).
    destruct Hc as [[-> _]|[-> _]]; lia.
  - intros k c' (c & Hk & Er & Hc)%clearDirty_entry Hz. rewrite Er. destruct Hc as [[Hdv _]|[_ (r & Hin & Hkr)]].
    + apply (Hs k c Hk). congruence.
    + left. destruct (Hd r _ Hin) as (_ & _ & c1 & Hk1 & _ & He). rewrite Hkr, Hk in Hk1. injection Hk1 as <-.
      rewrite He by done. by eapply Hst.
Qed.

(** ** Runs *)

(** Fewer than 2^64 changes since the start, and a table that can be loaded. *)
Definition unwrapped (s : calState) : Prop :=
  ps_version (cs_store s) < max_u64 ∧ 2 * Z.of_nat (length (cs_table s)) < max_u64.

Lemma read_current_frame st st' d : ps_records st' = ps_records st → read_current st d → read_current st' d.
Proof. intros Er Hd r v Hin. rewrite Er. by apply Hd. Qed.

Lemma runCalOp_flush_inv s op : ps_version (cs_store s) < max_u64 →
  (op = OpRestart → 2 * Z.of_nat (length (cs_table s)) < max_u64) → flush_inv s → flush_inv (runCalOp s op).
Proof.
  intros Hw Hl (Hg & Hn & Hv & Hs & Hp). pose proof (runCalOp_good Hcfg s op Hg) as Hg'.
  split; [done|]. clear Hg'. destruct Hg as (Gs & Gt & Gp). destruct (storeOp op) eqn:Hop.
  { destruct (storeOp_change s op Hop) as (Hc & -> & ->). split; [done|].
    split; [by eapply recordChange_versions|]. split; [by eapply recordChange_clean|].
    destruct (cs_phase s) as [|d|d]; [done|destruct Hp; split; [by eapply recordChange_read|done]..]. }
  destruct s as [st table phase]. destruct op as [| | | | | | | | |[]| |]; try done;
    cbn [runCalOp flushStep cs_store cs_table cs_phase] in *.
  - destruct phase; [|done..]. destruct (dirtyRecords st) as [d st'] eqn:Hd.
    destruct (dirtyRecords_read _ _ _ Gs Hv Hd) as [Hr Hk]. apply dirtyRecords_elem in Hd as (Er & Ev & _ & _).
    split; [done|]. unfold versions, clean_stored. cbn [cs_store cs_table cs_phase]. rewrite Er, Ev. split; [done|].
    split; [done|]. case_bool_decide; [done|]. by split.
  - destruct phase as [|d|d]; [done| |done]. destruct Hp as [Hr Hk]. cbn [cs_store cs_table cs_phase].
    split; [by apply upsertRecords_keys|]. split; [done|]. split; [by apply upsert_clean|].
    split; [done|]. intros r v Hin. by eapply upsertRecords_stored.
  - destruct phase as [|d|d]; [done| |done]. done.
  - destruct phase as [|d|d]; [done| |done]. destruct Hp as [Hr Hk]. cbn [cs_store cs_table cs_phase].
    split; [by apply upsertRecords_keys|]. split; [done|]. split; [by apply upsert_clean|done].
  - destruct phase as [|d|d]; [done|done|]. destruct Hp as [Hr Hst]. cbn [cs_store cs_table cs_phase].
    destruct (clearDirty_clean st table d Hv Hr Hst Hs) as [Hv' Hs']. done.
  - destruct (Init_inv (ps_tick st) table (Hl eq_refl)) as [Hv' Hs']. done.
Qed.

Lemma runCalOps_flush_inv ops : ∀ s, (∀ n, unwrapped (runCalOps (take n ops) s)) → flush_inv s →
  flush_inv (runCalOps ops s).
Proof.
  induction ops as [|op ops IH]; intros s Hw Hs; [done|]. change (flush_inv (runCalOps ops (runCalOp s op))).
  apply IH; [intros n; exact (Hw (S n))|]. destruct (Hw O) as [Hw0 Hl0]. by apply runCalOp_flush_inv.
Qed.

Lemma start_flush_inv table : Forall good_row table → NoDup (map rowKey table) →
  2 * Z.of_nat (length table) < max_u64 → flush_inv (startState table).
Proof.
  intros Ht Hn Hl. destruct (Init_inv 0 table Hl) as [Hv Hs].
  split; [split; [by apply Init_good|done]|]. done.
Qed.

Lemma flush_steps_inv s : ps_version (cs_store s) < max_u64 → flush_inv s →
  flush_inv (runCalOps [OpFlushRead; OpFlushWrite Stored; OpFlushClear] s).
Proof.
  intros Hw Hs. unfold runCalOps. cbn [foldl].
  assert (Hv : ∀ s op, op ∈ [OpFlushRead; OpFlushWrite Stored; OpFlushClear] →
            ps_version (cs_store (runCalOp s op)) = ps_version (cs_store s)).
  { clear. intros [st table []] op Hop; repeat (apply elem_of_cons in Hop as [->|Hop]);
      try (by apply not_elem_of_nil in Hop); cbn [runCalOp flushStep]; try done.
    cbn [cs_store]. by destruct (clearDirty_records st dirty) as (? & _). }
  assert (H1 : flush_inv (runCalOp s OpFlushRead)) by (apply runCalOp_flush_inv; [exact Hw|intros; discriminate|exact Hs]).
  assert (H2 : flush_inv (runCalOp (runCalOp s OpFlushRead) (OpFlushWrite Stored))).
  { apply runCalOp_flush_inv; [rewrite Hv by set_solver; done|done|done]. }
  apply runCalOp_flush_inv; [rewrite !Hv by set_solver; done|done|done].
Qed.

(** A flush without samples in between leaves no mark. *)
Lemma quiet_flush s : flush_inv s → cs_phase s = FlushIdle →
  let s' := runCalOps [OpFlushRead; OpFlushWrite Stored; OpFlushClear] s in
  (∀ key, cg_record <$> ps_records (cs_store s') !! key = cg_record <$> ps_records (cs_store s) !! key) ∧
  ∀ key c, ps_records (cs_store s') !! key = Some c → cg_dirtyVersion c = 0.
Proof.
  intros ((Gs & _) & _ & Hv & _) Hp. destruct s as [st table phase]. cbn [cs_phase] in Hp. subst phase.
  unfold runCalOps. cbn [foldl runCalOp flushStep]. destruct (dirtyRecords st) as [d st'] eqn:Hd.
  apply dirtyRecords_elem in Hd as (Er & _ & _ & He). cbn [cs_store] in *.
  case_bool_decide as Hnil; cbn [flushStep cs_store].
  - rewrite Er. split; [done|]. intros key c Hk. destruct (decide (cg_dirtyVersion c = 0)) as [|Hne]; [done|].
    exfalso. assert (Hin : (cg_record c, cg_dirtyVersion c) ∈ d) by (apply He; eauto 10).
    rewrite Hnil in Hin. by apply not_elem_of_nil in Hin.
  - destruct (clearDirty_records st' d) as (_ & _ & Hr). split; [intros key; by rewrite Hr, Er|].
    intros key c' (c & Hk & _ & Hc)%clearDirty_entry. destruct Hc as [[-> Hn]|[-> _]]; [|done].
    destruct (decide (cg_dirtyVersion c = 0)) as [|Hne]; [done|]. rewrite Er in Hk.
    apply (Hn (cg_record c)); [apply He; eauto 10|]. by apply (Gs key c).
Qed.

Lemma rowKey_keyFromRecord r r' : good_row r → good_row r' → keyFromRecord r = keyFromRecord r' → rowKey r = rowKey r'.
Proof.
  intros (_ & _ & H1 & H2) (_ & _ & H3 & H4). unfold rowKey, keyFromRecord.
  rewrite !hash32FromColumn_id by done. congruence.
Qed.

Lemma load_lookup rows : ∀ st key, (∀ row, row ∈ rows → keyFromRecord row ≠ key) →
  ps_records (foldl loadRecord st rows) !! key = ps_records st !! key.
Proof.
  induction rows as [|r rows IH]; intros st key Hn; [done|]. cbn [foldl].
  rewrite IH by (intros; apply Hn; by right). destruct (loadRecord_records st r) as [v ->].
  apply lookup_insert_ne, Hn. by left.
Qed.

Lemma load_found rows : ∀ st row, Forall good_row rows → NoDup (map rowKey rows) → row ∈ rows →
  ∃ v, ps_records (foldl loadRecord st rows) !! keyFromRecord row = Some (mkCached (loaded row) v).
Proof.
  induction rows as [|r rows IH]; intros st row Hg Hn Hin; [by apply not_elem_of_nil in Hin|].
  apply Forall_cons in Hg as [Hr Hg]. apply NoDup_cons in Hn as [Hnew Hn]. cbn [foldl].
  apply elem_of_cons in Hin as [->|Hin]; [|by apply IH].
  rewrite load_lookup; [destruct (loadRecord_records st r) as [v ->]; exists v; apply lookup_insert_eq|].
  intros row Hrow Heq. apply Hnew, list_elem_of_fmap. exists row. split; [|done].
  symmetry. apply rowKey_keyFromRecord; [|done|done]. rewrite Forall_forall in Hg. by apply Hg.
Qed.

Lemma loaded_current r r' : content r = content r' → good_record r' → loaded r = r.
Proof.
  intros Hc (_ & _ & _ & _ & _ & _ & _ & H1 & H2).
  assert (E1 : gc_SDFormulaVersion r = gc_SDFormulaVersion r')
    by (change (gc_SDFormulaVersion (content r) = gc_SDFormulaVersion (content r')); by rewrite Hc).
  assert (E2 : gc_LLMFormulaVersion r = gc_LLMFormulaVersion r')
    by (change (gc_LLMFormulaVersion (content r) = gc_LLMFormulaVersion (content r')); by rewrite Hc).
  unfold loaded. by rewrite E1, E2, H1, H2, !Z.eqb_refl.
Qed.

(** C22 (safety): with whatever samples between the phases of flushes, and writes that
    succeed, fail or are reported as failed although they were made: a record
    without a dirty mark is in the table as it is, or was never sampled.  A flush
    with no sample in between followed by a restart gives back every sampled
    record unchanged. *)
Theorem calibrations_durable ops table :
  Forall good_row table → NoDup (map rowKey table) →
  (∀ n, unwrapped (runCalOps (take n ops) (startState table))) →
  let s := runCalOps ops (startState table) in
  (∀ key c, ps_records (cs_store s) !! key = Some c → cg_dirtyVersion c = 0 →
     stored (cs_table s) (cg_record c) ∨ cg_record c = newCalibration key) ∧
  (cs_phase s = FlushIdle →
   let s' := runCalOps [OpFlushRead; OpFlushWrite Stored; OpFlushClear; OpRestart] s in
   ∀ key c, ps_records (cs_store s) !! key = Some c → cg_record c ≠ newCalibration key →
     ∃ c', ps_records (cs_store s') !! key = Some c' ∧ content (cg_record c') = content (cg_record c)).
Proof.
  intros Ht Hn Hw s. assert (Hs : flush_inv s).
  { apply runCalOps_flush_inv; [done|]. apply start_flush_inv; [done|done|]. apply (Hw O). }
  assert (Hw' : unwrapped s) by (unfold s; rewrite <- (take_ge ops (length ops)) by done; apply Hw).
  clearbody s. clear Ht Hn Hw.
  assert (Hkey : ∀ s key c, flush_inv s → ps_records (cs_store s) !! key = Some c → keyFromRecord (cg_record c) = key)
    by (intros s1 key c ((G & _) & _) Hk; by apply G).
  split.
  - destruct Hs as (G & _ & _ & Hc & _). intros key c Hk Hz. destruct (Hc key c Hk Hz) as [?|Hf]; [by left|right].
    destruct G as [G _]. destruct (G key c Hk) as [_ K]. unfold fresh in Hf. by rewrite K in Hf.
  - intros Hp. destruct (quiet_flush s Hs Hp) as [Hr Hz]. pose proof (flush_steps_inv s (proj1 Hw') Hs) as Hs3.
    cbv zeta in *. change (runCalOps [OpFlushRead; OpFlushWrite Stored; OpFlushClear; OpRestart] s) with
      (runCalOp (runCalOps [OpFlushRead; OpFlushWrite Stored; OpFlushClear] s) OpRestart).
    set (s3 := runCalOps [OpFlushRead; OpFlushWrite Stored; OpFlushClear] s) in *. clearbody s3.
    intros key c Hk Hf. specialize (Hr key). rewrite Hk in Hr.
    destruct (ps_records (cs_store s3) !! key) as [c3|] eqn:Hk3; [|done]. injection Hr as Hr.
    pose proof Hs3 as ((G3 & T3 & _) & N3 & _ & C3 & _). destruct (G3 key c3 Hk3) as [R3 K3].
    destruct (C3 key c3 Hk3 (Hz _ _ Hk3)) as [(row & Hin & Hc)|Hfr];
      [|exfalso; unfold fresh in Hfr; rewrite K3, Hr in Hfr; done].
    destruct (load_found (cs_table s3) (mkStore ∅ ∅ ∅ 0 (ps_tick (cs_store s3))) row T3 N3 Hin) as [v Hv].
    exists (mkCached (loaded row) v). split.
    + rewrite <- K3, <- (keyFromRecord_congr row (cg_record c3)) by (by apply rowKey_content). exact Hv.
    + cbn [cg_record]. by rewrite (loaded_current row (cg_record c3)), Hc, Hr.
Qed.
End flush.

(** A run in which a sample arrives while the first flush writes. *)
Lemma calibrations_durable_witness :
  let s := runCalOps (C:=demo_calibration) demo_ops (startState (C:=demo_calibration) []) in
  cs_phase s = FlushIdle ∧ size (ps_records (cs_store s)) = 1%nat ∧
  let s' := runCalOps (C:=demo_calibration) [OpFlushRead; OpFlushWrite Stored; OpFlushClear; OpRestart] s in
  ∀ key c, ps_records (cs_store s) !! key = Some c → cg_record c ≠ newCalibration (C:=demo_calibration) key →
    ∃ c', ps_records (cs_store s') !! key = Some c' ∧ content (cg_record c') = content (cg_record c).
Proof.
  split; [vm_compute; reflexivity|]. split; [vm_compute; reflexivity|].
  apply (calibrations_durable (C:=demo_calibration) demo_pricing_good demo_ops []).
  - constructor.
  - constructor.
  - intros n. do 8 (destruct n as [|n]; [split; vm_compute; reflexivity|]). split; vm_compute; reflexivity.
  - vm_compute. reflexivity.
Defined.

End CalibrationFlush.
