(* ===== verification/ModelDistribution.v ===== *)
(** * Model distribution

    src/service/model_distribution.go and required_model_downloads.go: a controller
    measures the demand for sets of model files and asks nodes to download the sets
    of which there are too few copies.  A request is a row of
    src/models/node_model_download_selection.go and an event for the node. *)

From Stdlib Require Import Ascii.
From stdpp Require Import sorting.
From S2P Require Import Prelude Mac Json JsonDecode GoStrings Models Float64 Config Delegation Deadline MaxStaking Store.
From S2P Require Import ModelFiles TaskModels ModelWhitelist Vesting Qos NodeState NodeNames NodeIndex NodeModels NodeInventory.
From S2P Require Import Matching Calibration.

Module ModelDistribution.
Import Mac Json JsonDecode GoStrings ModelFiles TaskModels NodeState NodeNames NodeIndex NodeModels NodeInventory Matching Float64.

(** ** Selections *)

(** [NewNodeModelDownloadSelection], src/models/node_model_download_selection.go 42-55 *)
Definition NewNodeModelDownloadSelection (exact source : list (list Z)) (nodeAddress : string) (minVRAM : Z)
    (sentAt deadline : Time) : NodeModelDownloadSelection :=
  mkNodeModelDownloadSelection 0 (DistributionKey exact source) (EncodeHashList exact) (EncodeHashList source)
    nodeAddress minVRAM sentAt deadline NodeModelDownloadSelectionPending (Some true).

Definition isPending (s : NodeModelDownloadSelection) : bool := bool_decide (ds_Status s = NodeModelDownloadSelectionPending).
Definition isCompleted (s : NodeModelDownloadSelection) : bool := bool_decide (ds_Status s = NodeModelDownloadSelectionCompleted).

(** ** Demand *)

(** [modelDemandKey], src/service/model_distribution.go 22-27 *)
Record modelDemandKey := mkDemandKey {
  dk_setKey : list Z;
  dk_minVRAM : Z;
  dk_excludeDarwin : bool;
  dk_requireLinuxCuda : bool
}.
#[export] Instance modelDemandKey_eq_dec : EqDecision modelDemandKey.
Proof. solve_decision. Defined.

(** [taskVRAMDemand], src/service/model_distribution.go 31-36 *)
Definition taskVRAMDemand (task : InferenceTask) : Z :=
  if String.eqb (t_RequiredGPU task) "" then t_MinVRAM task else t_RequiredGPUVRAM task.

(** [modelDemandKeyOf], src/service/model_distribution.go 40-60; [None] when the task
    requires no model files *)
Definition modelDemandKeyOf (task : InferenceTask) : result (option (modelDemandKey * list (list Z) * list (list Z))) :=
  match DecodeHashList (t_RequiredModelFileHashes task) with
  | Err e => Err e
  | Ok exact =>
      match DecodeHashList (t_RequiredModelFileSourceHashes task) with
      | Err e => Err e
      | Ok source =>
          if bool_decide (exact = []) && bool_decide (source = []) then Ok None
          else Ok (Some (mkDemandKey (DistributionKey exact source) (taskVRAMDemand task)
                           (bool_decide (t_TaskType task = TaskTypeLLM)) (t_RequireLinuxCuda task), exact, source))
      end
  end.

(** [nodeSatisfiesDemand], src/service/model_distribution.go 65-76 *)
Definition nodeSatisfiesDemand (gpuName : string) (gpuVram : Z) (key : modelDemandKey) : bool :=
  negb (gpuVram <? dk_minVRAM key) &&
  negb (dk_excludeDarwin key && isDarwinGPUName gpuName) &&
  negb (dk_requireLinuxCuda key && negb (isLinuxCudaPlatform gpuName)).

(** [modelDemand], src/service/model_distribution.go 81-94; the zero time, before any
    creation time, is 0 *)
Record modelDemand := mkDemand {
  de_key : modelDemandKey;
  de_exact : list (list Z);
  de_source : list (list Z);
  de_representativeTask : Z;
  de_queuedCount : Z;
  de_arrivalCount : Z;
  de_latestCreateTime : Time;
  de_latestTaskType : TaskType;
  de_estimatedSecondsSum : float64;
  de_estimatedSecondsCnt : Z;
  de_executionSecondsSum : float64;
  de_executionSecondsCnt : Z
}.
#[export] Instance eta_modelDemand : Eta modelDemand := λ r,
  mkDemand (de_key r) (de_exact r) (de_source r) (de_representativeTask r) (de_queuedCount r) (de_arrivalCount r)
    (de_latestCreateTime r) (de_latestTaskType r) (de_estimatedSecondsSum r) (de_estimatedSecondsCnt r)
    (de_executionSecondsSum r) (de_executionSecondsCnt r).

(** The map of demands, by key *)
Definition demandOf (key : modelDemandKey) (demands : list modelDemand) : option modelDemand :=
  find_first (λ d, bool_decide (de_key d = key)) demands.
Definition alterDemand (key : modelDemandKey) (f : modelDemand → modelDemand) (demands : list modelDemand) : list modelDemand :=
  map (λ d, if bool_decide (de_key d = key) then f d else d) demands.

(** The columns of the demand queries: [require_linux_cuda] is not one of them; the
    other columns that are not selected are not used.
    src/service/model_distribution.go 420 and 436 *)
Definition demandColumns (task : InferenceTask) : InferenceTask := task <| t_RequireLinuxCuda := false |>.

(** One turn of the first loop of [collectModelDemands],
    src/service/model_distribution.go 352-381 *)
Definition addDemandTask (windowStart : Time) (task : InferenceTask) (demands : list modelDemand) : result (list modelDemand) :=
  match modelDemandKeyOf task with
  | Err e => Err e
  | Ok None => Ok demands
  | Ok (Some (key, exact, source)) =>
      let demands := match demandOf key demands with
                     | Some _ => demands
                     | None => demands ++ [mkDemand key exact source (t_ID task) 0 0 0 TaskTypeSD f64_zero 0 f64_zero 0]
                     end in
      let seconds := tp_EstimatedNodeSeconds (t_Pricing task) in
      Ok (alterDemand key (λ d,
        let d := if bool_decide (t_Status task = TaskQueued) then d <| de_queuedCount := de_queuedCount d + 1 |> else d in
        let d := match t_CreateTime task with
                 | Some created =>
                     let d := if negb (created <? windowStart) then d <| de_arrivalCount := de_arrivalCount d + 1 |> else d in
                     if de_latestCreateTime d <? created
                     then d <| de_latestCreateTime := created |> <| de_latestTaskType := t_TaskType task |> else d
                 | None => d
                 end in
        if f64_lt f64_zero seconds
        then d <| de_estimatedSecondsSum := f64_add (de_estimatedSecondsSum d) seconds |>
               <| de_estimatedSecondsCnt := de_estimatedSecondsCnt d + 1 |>
        else d) demands)
  end.

(** One turn of the second loop, src/service/model_distribution.go 387-407 *)
Definition addCompletedTask (task : InferenceTask) (demands : list modelDemand) : result (list modelDemand) :=
  let executionSeconds := Calibration.Seconds (default 0 (t_ScoreReadyTime task) - default 0 (t_StartTime task)) in
  if f64_le executionSeconds f64_zero then Ok demands
  else match modelDemandKeyOf task with
       | Err e => Err e
       | Ok None => Ok demands
       | Ok (Some (key, _, _)) =>
           Ok (alterDemand key (λ d, d <| de_executionSecondsSum := f64_add (de_executionSecondsSum d) executionSeconds |>
                                      <| de_executionSecondsCnt := de_executionSecondsCnt d + 1 |>) demands)
       end.

Fixpoint foldTasks (step : InferenceTask → list modelDemand → result (list modelDemand)) (tasks : list InferenceTask)
    (demands : list modelDemand) : result (list modelDemand) :=
  match tasks with
  | [] => Ok demands
  | task :: tasks' => match step task demands with Err e => Err e | Ok demands' => foldTasks step tasks' demands' end
  end.

(** [int(x)] *)
Definition f64_int (x : float64) : Z := f64_trunc x.

(** [computeTargetNodeCount], src/service/model_distribution.go 448-467 *)
Definition computeTargetNodeCount (demand : modelDemand) (windowSeconds safetyFactor : float64) (minNodes maxNodes : Z) : Z :=
  let arrivalRate := f64_div (f64_of_Z (de_arrivalCount demand)) windowSeconds in
  let avgExecutionSeconds :=
    if 0 <? de_executionSecondsCnt demand
    then f64_div (de_executionSecondsSum demand) (f64_of_Z (de_executionSecondsCnt demand))
    else if 0 <? de_estimatedSecondsCnt demand
    then f64_div (de_estimatedSecondsSum demand) (f64_of_Z (de_estimatedSecondsCnt demand))
    else f64_zero in
  let target := f64_int (Ceil (f64_mul (f64_mul arrivalRate avgExecutionSeconds) safetyFactor)) in
  let target := if target <? minNodes then minNodes else target in
  if maxNodes <? target then maxNodes else target.

(** ** The state of selections *)

(** [modelSelectionState], src/service/model_distribution.go 98-105 *)
Record modelSelectionState := mkSelectionState {
  ms_attemptCounts : gmap string Z;
  ms_nonExpired : gset string;
  ms_pendingNodes : gset string
}.
#[export] Instance eta_modelSelectionState : Eta modelSelectionState := λ r,
  mkSelectionState (ms_attemptCounts r) (ms_nonExpired r) (ms_pendingNodes r).

(** [newModelSelectionState], src/service/model_distribution.go 107-113 *)
Definition newModelSelectionState : modelSelectionState := mkSelectionState ∅ ∅ ∅.

Definition attemptsOf (state : option modelSelectionState) (address : string) : Z :=
  match state with Some st => default 0 (ms_attemptCounts st !! address) | None => 0 end.

(** The record of one selection, src/service/model_distribution.go 481-488 *)
Definition recordSelection (s : NodeModelDownloadSelection) (st : modelSelectionState) : modelSelectionState :=
  let a := ds_NodeAddress s in
  let st := st <| ms_attemptCounts := <[a := attemptsOf (Some st) a + 1]> (ms_attemptCounts st) |> in
  match ds_Status s with
  | NodeModelDownloadSelectionPending =>
      st <| ms_pendingNodes := {[a]} ∪ ms_pendingNodes st |> <| ms_nonExpired := {[a]} ∪ ms_nonExpired st |>
  | NodeModelDownloadSelectionCompleted => st <| ms_nonExpired := {[a]} ∪ ms_nonExpired st |>
  | NodeModelDownloadSelectionExpired => st
  end.

(** [buildModelSelectionStates], src/service/model_distribution.go 469-491 *)
Fixpoint buildStates (selections : list NodeModelDownloadSelection) (states : gmap (list Z) modelSelectionState)
    : result (gmap (list Z) modelSelectionState) :=
  match selections with
  | [] => Ok states
  | s :: selections' =>
      match Hash32FromBytes (ds_ModelFileHash s) with
      | Err e => Err e
      | Ok setKey =>
          buildStates selections' (<[setKey := recordSelection s (default newModelSelectionState (states !! setKey))]> states)
      end
  end.
(** [buildModelSelectionStates], src/service/model_distribution.go 469-491 *)
Definition buildModelSelectionStates (selections : list NodeModelDownloadSelection)
    : result (gmap (list Z) modelSelectionState) := buildStates selections ∅.

(** A selection made in this round, src/service/model_distribution.go 225-231 *)
Definition noteSelected (address : string) (state : option modelSelectionState) : modelSelectionState :=
  let st := default newModelSelectionState state in
  st <| ms_attemptCounts := <[address := attemptsOf (Some st) address + 1]> (ms_attemptCounts st) |>
     <| ms_nonExpired := {[address]} ∪ ms_nonExpired st |>
     <| ms_pendingNodes := {[address]} ∪ ms_pendingNodes st |>.

(** ** Inventories *)

(** [nodeFileSets], src/service/model_distribution.go 311-314: exact and source hashes *)
Definition nodeFileSets : Type := gset (list Z) * gset (list Z).

(** [nodeFileSetsByAddress], src/service/model_distribution.go 316-339 *)
Fixpoint fileSets (rows : list NodeModelFileRow) (inventories : gmap string nodeFileSets) : result (gmap string nodeFileSets) :=
  match rows with
  | [] => Ok inventories
  | row :: rows' =>
      match Hash32FromBytes (nf_ModelFileHash row), Hash32FromBytes (nf_ModelFileSourceHash row) with
      | Ok hash, Ok sourceHash =>
          let held := default (∅, ∅) (inventories !! nf_NodeAddress row) in
          fileSets rows' (<[nf_NodeAddress row := ({[hash]} ∪ fst held, {[sourceHash]} ∪ snd held)]> inventories)
      | Err e, _ | _, Err e => Err e
      end
  end.
(** [nodeFileSetsByAddress], src/service/model_distribution.go 316-339 *)
Definition nodeFileSetsByAddress (rows : list NodeModelFileRow) : result (gmap string nodeFileSets) := fileSets rows ∅.

(** Whether an inventory covers a set of files *)
Definition coveredBy (exact source : list (list Z)) (held : nodeFileSets) : bool :=
  modelFilesCovered (fst held) (snd held) exact source.

(** The loop over the pending selections, src/service/model_distribution.go 267-279 *)
Fixpoint completedSelections (inventories : gmap string nodeFileSets) (selections : list NodeModelDownloadSelection)
    : result (list Z) :=
  match selections with
  | [] => Ok []
  | s :: selections' =>
      if negb (isPending s) then completedSelections inventories selections'
      else match RequiredHashes s, completedSelections inventories selections' with
           | Ok (exact, source), Ok ids =>
               Ok (match inventories !! ds_NodeAddress s with
                   | Some held => if coveredBy exact source held then ds_ID s :: ids else ids
                   | None => ids
                   end)
           | Err e, _ | _, Err e => Err e
           end
  end.

(** ** Choosing nodes *)

Definition nodeAddress_le (a b : Node) : Prop := String.leb (n_Address a) (n_Address b) = true.
#[export] Instance nodeAddress_le_dec : RelDecision nodeAddress_le.
Proof. intros a b. unfold nodeAddress_le. apply _. Defined.

(** The nodes to attempt again, by the number of attempts,
    src/service/model_distribution.go 602-611 *)
Definition attemptGroup (state : option modelSelectionState) (readmittable : list Node) (attempts : Z) : list Node :=
  select_where (λ n, attemptsOf state (n_Address n) =? attempts) readmittable.
Definition attemptNumbers (state : option modelSelectionState) (readmittable : list Node) : list Z :=
  merge_sort Z.le (remove_dups (map (λ n, attemptsOf state (n_Address n)) readmittable)).

Section distribution.
Context {E : Env}.

Definition cfg : ModelDistributionConfig := Config.ModelDistribution env_cfg.

(** A duration given in seconds *)
Definition secondsDuration (seconds : float64) : Duration := f64_trunc (f64_mul seconds (f64_of_Z second)).

(** *** Rows of selections *)

(** [CreateNodeModelDownloadSelection], src/models/node_model_download_selection.go 68-72:
    at most one active row for a set and a node *)
Definition CreateNodeModelDownloadSelection (s : NodeModelDownloadSelection) : M unit :=
  db_exec (λ d,
    if existsb (λ x, isActive x && isActive s && bool_decide (selectionKey x = selectionKey s)) (db_download_selections d)
    then Err (ErrMsg "duplicate entry")
    else Ok (tt, d <| db_download_selections := db_download_selections d ++ [s <| ds_ID := next_id ds_ID (db_download_selections d) |>] |>)).

(** [GetAllNodeModelDownloadSelections], src/models/node_model_download_selection.go 74-82 *)
Definition GetAllNodeModelDownloadSelections : M (list NodeModelDownloadSelection) := db_read db_download_selections.

(** [CompleteNodeModelDownloadSelections], src/models/node_model_download_selection.go 84-94 *)
Definition CompleteNodeModelDownloadSelections (ids : list Z) : M unit :=
  if bool_decide (ids = []) then mret tt
  else db_write (λ d, d <| db_download_selections :=
    map (λ s, if bool_decide (ds_ID s ∈ ids) && isPending s then s <| ds_Status := NodeModelDownloadSelectionCompleted |> else s)
      (db_download_selections d) |>).

(** [ExpireNodeModelDownloadSelections], src/models/node_model_download_selection.go 96-106 *)
Definition expireSelection (t : Time) (s : NodeModelDownloadSelection) : NodeModelDownloadSelection :=
  if isPending s && (ds_Deadline s <? t)
  then s <| ds_Status := NodeModelDownloadSelectionExpired |> <| ds_Active := None |> else s.
(** [ExpireNodeModelDownloadSelections], src/models/node_model_download_selection.go 96-106 *)
Definition ExpireNodeModelDownloadSelections (t : Time) : M unit :=
  db_write (λ d, d <| db_download_selections := map (expireSelection t) (db_download_selections d) |>).

(** [DeleteNodeModelDownloadSelectionsByModelFileHashes],
    src/models/node_model_download_selection.go 116-125 *)
Definition DeleteNodeModelDownloadSelectionsByModelFileHashes (hashes : list (list Z)) : M unit :=
  if bool_decide (hashes = []) then mret tt
  else db_write (λ d, d <| db_download_selections :=
    select_where (λ s, negb (bool_decide (ds_ModelFileHash s ∈ hashes))) (db_download_selections d) |>).

(** [DeleteTerminalNodeModelDownloadSelectionsByModelFileHashes],
    src/models/node_model_download_selection.go 129-142 *)
Definition DeleteTerminalNodeModelDownloadSelectionsByModelFileHashes (hashes : list (list Z)) : M unit :=
  if bool_decide (hashes = []) then mret tt
  else db_write (λ d, d <| db_download_selections :=
    select_where (λ s, negb (bool_decide (ds_ModelFileHash s ∈ hashes) && negb (isPending s))) (db_download_selections d) |>).

(** *** The controller *)

(** [applySelectionStatusTransitions], src/service/model_distribution.go 240-308,
    without the metrics *)
Definition applySelectionStatusTransitions (t : Time) : M unit :=
  selections ← GetAllNodeModelDownloadSelections;
  (if existsb isPending selections then
     rows ← db_read (ListNodeModelFileRows []);
     inventories ← lift (nodeFileSetsByAddress rows);
     completedIDs ← lift (completedSelections inventories selections);
     CompleteNodeModelDownloadSelections completedIDs
   else mret tt);;
  ExpireNodeModelDownloadSelections t.

(** [getDemandTasks], src/service/model_distribution.go 414-426 *)
Definition getDemandTasks (windowStart : Time) : M (list InferenceTask) :=
  db_read (λ d, map demandColumns (select_where (λ t,
    bool_decide (t_Status t = TaskQueued) || match t_CreateTime t with Some c => windowStart <=? c | None => false end) (db_tasks d))).

(** [getCompletedTasksInWindow], src/service/model_distribution.go 428-442 *)
Definition getCompletedTasksInWindow (windowStart : Time) : M (list InferenceTask) :=
  db_read (λ d, map demandColumns (select_where (λ t,
    match t_ScoreReadyTime t with Some c => windowStart <=? c | None => false end &&
    bool_decide (is_Some (t_StartTime t))) (db_tasks d))).

(** [collectModelDemands], src/service/model_distribution.go 345-411 *)
Definition collectModelDemands (windowStart : Time) : M (list modelDemand) :=
  demandTasks ← getDemandTasks windowStart;
  demands ← lift (foldTasks (addDemandTask windowStart) demandTasks []);
  completedTasks ← getCompletedTasksInWindow windowStart;
  lift (foldTasks addCompletedTask completedTasks demands).

(** *** Required models *)

(** The entry of a required file, src/service/required_model_downloads.go 115-125 *)
Definition configEntry (file : RequiredModelFileEntryConfig) : ModelFileEntry :=
  mkModelFileEntry (rf_SourceType file) (NormalizeModelName (rf_Repository file))
    (NormalizeCommitRevision (rf_Revision file)) (rf_Format file)
    (Some (match rf_FormatKwargs file with Some m => m | None => [] end)).

(** [requiredModelFilesFromConfig], src/service/required_model_downloads.go 110-142: the
    entries, their exact and their source hashes *)
Fixpoint configHashes (entries : list ModelFileEntry) : result (list (list Z) * list (list Z)) :=
  match entries with
  | [] => Ok ([], [])
  | entry :: entries' =>
      if negb (String.eqb (me_Revision entry) "") then
        match ModelFileHash entry, configHashes entries' with
        | Ok h, Ok (exact, source) => Ok (h :: exact, source)
        | Err e, _ | _, Err e => Err e
        end
      else
        match ModelFileSourceHash entry, configHashes entries' with
        | Ok h, Ok (exact, source) => Ok (exact, h :: source)
        | Err e, _ | _, Err e => Err e
        end
  end.
(** [requiredModelFilesFromConfig], src/service/required_model_downloads.go 110-142 *)
Definition requiredModelFilesFromConfig (files : list RequiredModelFileEntryConfig)
    : result (list ModelFileEntry * list (list Z) * list (list Z)) :=
  match configHashes (map configEntry files) with
  | Err e => Err e
  | Ok (exact, source) => Ok (map configEntry files, exact, source)
  end.

(** [requiredModelSetKeysFromConfig], src/service/required_model_downloads.go 146-156 *)
Fixpoint requiredModelSetKeysFromConfig (items : list RequiredModelsByVRAMConfig) : result (gset (list Z)) :=
  match items with
  | [] => Ok ∅
  | item :: items' =>
      match requiredModelFilesFromConfig (rm_ModelFiles item), requiredModelSetKeysFromConfig items' with
      | Ok (_, exact, source), Ok keys => Ok ({[DistributionKey exact source]} ∪ keys)
      | Err e, _ | _, Err e => Err e
      end
  end.

(** [cleanupSelectionsWithoutDemand], src/service/model_distribution.go 497-528 *)
Definition cleanupSelectionsWithoutDemand (states : gmap (list Z) modelSelectionState) (demands : list modelDemand) : M unit :=
  let demanded (key : list Z) := bool_decide (key ∈ map (λ d, dk_setKey (de_key d)) demands) in
  requiredSets ← lift (requiredModelSetKeysFromConfig (md_RequiredModelsByVRAM cfg));
  let idle := select_where (λ key, negb (demanded key)) (map fst (map_to_list states)) in
  DeleteNodeModelDownloadSelectionsByModelFileHashes (select_where (λ key, negb (bool_decide (key ∈ requiredSets))) idle);;
  DeleteTerminalNodeModelDownloadSelectionsByModelFileHashes (select_where (λ key, bool_decide (key ∈ requiredSets)) idle).

(** [getDownloadCandidateNodes], src/service/model_distribution.go 563-574 *)
Definition getDownloadCandidateNodes : M (list Node) :=
  db_read (λ d, select_where (λ n, bool_decide (n_Status n = NodeStatusAvailable ∨ n_Status n = NodeStatusBusy)) (db_nodes d)).

(** [getModelHoldingNodes], src/service/model_distribution.go 533-561: the inventories
    it reads and the holders of one demand *)
Definition candidateInventories (nodes : list Node) : M (gmap string nodeFileSets) :=
  if bool_decide (nodes = []) then mret ∅
  else rows ← db_read (ListNodeModelFileRows (map n_Address nodes));
       lift (nodeFileSetsByAddress rows).
(** [getModelHoldingNodes], src/service/model_distribution.go 551-559 *)
Definition holdersOf (inventories : gmap string nodeFileSets) (demand : modelDemand) : gset string :=
  dom (filter (λ kv, coveredBy (de_exact demand) (de_source demand) (snd kv) = true) inventories).

(** [filterNodesByNodeNamePolicy], src/service/select_nodes.go 19-37 *)
Definition nodeNameAllowed (node : Node) : M bool :=
  let nodeVersion := BuildNodeVersion (n_MajorVersion node) (n_MinorVersion node) (n_PatchVersion node) in
  allowed ← (if Task_NodeNameWhitelistEnabled env_cfg
             then IsNodeNameWhitelisted (n_GPUName node) (n_GPUVram node) nodeVersion else mret true);
  if negb allowed then mret false
  else if 0 <? Task_MinimumNodeNameNumber env_cfg then
    count ← GetNodeNameActiveCount (n_GPUName node) (n_GPUVram node) nodeVersion;
    mret (Task_MinimumNodeNameNumber env_cfg <=? count)
  else mret true.
Fixpoint keepNodes (nodes : list Node) : M (list Node) :=
  match nodes with
  | [] => mret []
  | node :: nodes' =>
      allowed ← nodeNameAllowed node;
      kept ← keepNodes nodes';
      mret (if (allowed : bool) then node :: kept else kept)
  end.
(** [filterNodesByNodeNamePolicy], src/service/select_nodes.go 9-41 *)
Definition filterNodesByNodeNamePolicy (nodes : list Node) : M (list Node) :=
  if (Task_MinimumNodeNameNumber env_cfg =? 0) && negb (Task_NodeNameWhitelistEnabled env_cfg)
  then mret nodes else keepNodes nodes.

(** *** Sampling *)

(** Drawing without replacement, src/service/model_distribution.go 655-662: the weight
    of a drawn node becomes zero. *)
Fixpoint takeWeighted (k : nat) (nodes : list Node) (weights : list float64) : M (list Node) :=
  match k with
  | O => mret []
  | S k' =>
      index ← ask (λ n, Ok (env_sample n weights));
      match index with
      | None => mret []
      | Some i =>
          rest ← takeWeighted k' nodes (<[i := f64_zero]> weights);
          mret (match nodes !! i with Some node => node :: rest | None => rest end)
      end
  end.

(** [sampleDownloadTargets], src/service/model_distribution.go 628-671 *)
Definition sampleDownloadTargets (nodes : list Node) (t : Time) (limit : Z) : M (list Node) :=
  let limit := Z.min limit (Z.of_nat (length nodes)) in
  if limit <=? 0 then mret []
  else
    probs ← map_m (λ node, CalculateNodeSelectingProb node t) nodes;
    let weighted := zip nodes (map pb_ProbWeight probs) in
    let positive := select_where (λ nw, f64_lt f64_zero (snd nw)) weighted in
    let zeroNodes := merge_sort nodeAddress_le (map fst (select_where (λ nw, negb (f64_lt f64_zero (snd nw))) weighted)) in
    selected ← (if bool_decide (positive = []) then mret []
                else takeWeighted (Z.to_nat limit) (map fst positive) (map snd positive));
    mret (selected ++ take (Z.to_nat limit - length selected) zeroNodes).

(** The loop over the groups, src/service/model_distribution.go 613-619 *)
Fixpoint sampleGroups (state : option modelSelectionState) (readmittable : list Node) (t : Time) (limit : Z)
    (numbers : list Z) (selected : list Node) : M (list Node) :=
  match numbers with
  | [] => mret selected
  | attempts :: numbers' =>
      if Z.of_nat (length selected) =? limit then mret selected
      else
        more ← sampleDownloadTargets (attemptGroup state readmittable attempts) t (limit - Z.of_nat (length selected));
        sampleGroups state readmittable t limit numbers' (selected ++ more)
  end.

(** [selectDownloadTargetNodes], src/service/model_distribution.go 582-622 *)
Definition selectDownloadTargetNodes (candidateNodes : list Node) (holding : gset string)
    (state : option modelSelectionState) (t : Time) (limit : Z) : M (list Node) :=
  let free := select_where (λ n, negb (bool_decide (n_Address n ∈ holding))) candidateNodes in
  let primary := select_where (λ n, attemptsOf state (n_Address n) =? 0) free in
  let readmittable := select_where (λ n, negb (attemptsOf state (n_Address n) =? 0) &&
    match state with Some st => negb (bool_decide (n_Address n ∈ ms_nonExpired st)) | None => false end) free in
  if negb (bool_decide (primary = [])) then sampleDownloadTargets primary t limit
  else sampleGroups state readmittable t limit (attemptNumbers state readmittable) [].

(** *** Requests *)

(** The source entries of a task, src/service/model_distribution.go 700-714 *)
Fixpoint sourceEntries (entries : list ModelFileEntry) (wanted : gset (list Z)) : result (list ModelFileEntry * gset (list Z)) :=
  match entries with
  | [] => Ok ([], wanted)
  | entry :: entries' =>
      if negb (String.eqb (me_Revision entry) "") then sourceEntries entries' wanted
      else match ModelFileSourceHash entry with
           | Err e => Err e
           | Ok h =>
               if bool_decide (h ∈ wanted)
               then match sourceEntries entries' (wanted ∖ {[h]}) with
                    | Ok (files, unmet) => Ok (entry :: files, unmet)
                    | Err e => Err e
                    end
               else sourceEntries entries' wanted
           end
  end.

(** The exact entries, src/service/model_distribution.go 682-688 *)
Fixpoint exactFiles (hashes : list (list Z)) (entries : gmap (list Z) ModelFileEntry) : result (list ModelFileEntry) :=
  match hashes with
  | [] => Ok []
  | h :: hashes' =>
      match entries !! h, exactFiles hashes' entries with
      | None, _ => Err (ErrMsg "model file is missing from the catalog")
      | Some e, Ok files => Ok (e :: files)
      | _, Err e => Err e
      end
  end.

(** [loadDemandModelFiles], src/service/model_distribution.go 676-719 *)
Definition loadDemandModelFiles (demand : modelDemand) : M (list ModelFileEntry) :=
  exactEntries ← LoadModelFileEntries (de_exact demand);
  files ← lift (exactFiles (de_exact demand) exactEntries);
  if bool_decide (de_source demand = []) then mret files
  else
    task ← db_first (λ d, find_first (λ t, t_ID t =? de_representativeTask demand) (db_tasks d));
    requirements ← ask (λ n, DeriveTaskModelRequirements (env_order n _) (tp_TaskArgs (t_Pricing task)) (t_TaskType task));
    found ← lift (sourceEntries (tr_Entries requirements) (list_to_set (de_source demand)));
    if bool_decide (snd found = ∅) then mret (files ++ fst found)
    else fail (ErrMsg "task does not provide required model file sources").

(** [emitModelDownloadForNode], src/service/model_distribution.go 741-766 *)
Definition emitModelDownloadForNode (exact source : list (list Z)) (modelFiles : list ModelFileEntry) (nodeAddress : string)
    (minVRAM : Z) (taskType : TaskType) (sentAt : Time) (downloadTimeoutSeconds : float64) : M unit :=
  let deadline := sentAt + secondsDuration downloadTimeoutSeconds in
  transaction (
    CreateNodeModelDownloadSelection (NewNodeModelDownloadSelection exact source nodeAddress minVRAM sentAt deadline);;
    emitEvent (DownloadModelEvent nodeAddress modelFiles taskType)).

(** The loop over the chosen nodes, src/service/model_distribution.go 215-232: a failed
    request is only logged. *)
Fixpoint requestAll (demand : modelDemand) (modelFiles : list ModelFileEntry) (t : Time) (nodes : list Node)
    (state : option modelSelectionState) : M (option modelSelectionState) :=
  match nodes with
  | [] => mret state
  | node :: nodes' =>
      sent ← try_ (emitModelDownloadForNode (de_exact demand) (de_source demand) modelFiles (n_Address node)
                     (dk_minVRAM (de_key demand)) (de_latestTaskType demand) t (md_DownloadTimeoutSeconds cfg));
      requestAll demand modelFiles t nodes' (if is_ok sent then Some (noteSelected (n_Address node) state) else state)
  end.

Definition qualifies (demand : modelDemand) (node : Node) : bool :=
  nodeSatisfiesDemand (n_GPUName node) (n_GPUVram node) (de_key demand).

(** The nodes among [addresses] that can serve a demand,
    src/service/model_distribution.go 182-197 *)
Definition qualifiedCount (demand : modelDemand) (hardware : list Node) (addresses : gset string) : Z :=
  Z.of_nat (size (filter (λ a, existsb (λ n, String.eqb (n_Address n) a && qualifies demand n) hardware = true) addresses)).

(** One demand of a round, src/service/model_distribution.go 172-233 *)
Definition serveDemand (hardware candidates : list Node) (inventories : gmap string nodeFileSets) (t : Time)
    (states : gmap (list Z) modelSelectionState) (demand : modelDemand) : M (gmap (list Z) modelSelectionState) :=
  let setKey := dk_setKey (de_key demand) in
  let state := states !! setKey in
  let target := computeTargetNodeCount demand (md_DemandWindowSeconds cfg) (md_SafetyFactor cfg) (md_MinNodes cfg) (md_MaxNodes cfg) in
  let holding := holdersOf inventories demand in
  let pending := match state with Some st => ms_pendingNodes st | None => ∅ end in
  let deficit := target - qualifiedCount demand hardware holding - qualifiedCount demand hardware pending in
  if deficit <=? 0 then mret states
  else
    selected ← selectDownloadTargetNodes (select_where (qualifies demand) candidates) holding state t deficit;
    if bool_decide (selected = []) then mret states
    else
      loaded ← try_ (loadDemandModelFiles demand);
      match loaded with
      | Err _ => mret states
      | Ok modelFiles =>
          state' ← requestAll demand modelFiles t selected state;
          mret (match state' with Some st => <[setKey := st]> states | None => states end)
      end.

(** The loop over the demands *)
Fixpoint serveDemands (hardware candidates : list Node) (inventories : gmap string nodeFileSets) (t : Time)
    (states : gmap (list Z) modelSelectionState) (demands : list modelDemand) : M unit :=
  match demands with
  | [] => mret tt
  | demand :: demands' =>
      states' ← serveDemand hardware candidates inventories t states demand;
      serveDemands hardware candidates inventories t states' demands'
  end.

(** [runModelDistributionRound], src/service/model_distribution.go 133-235 *)
Definition runModelDistributionRound : M unit :=
  t ← now;
  let windowStart := t - secondsDuration (md_DemandWindowSeconds cfg) in
  applySelectionStatusTransitions t;;
  demands ← collectModelDemands windowStart;
  selections ← GetAllNodeModelDownloadSelections;
  states ← lift (buildModelSelectionStates selections);
  cleanupSelectionsWithoutDemand states demands;;
  if bool_decide (demands = []) then mret tt
  else
    hardware ← getDownloadCandidateNodes;
    inventories ← candidateInventories hardware;
    candidates ← filterNodesByNodeNamePolicy hardware;
    order ← visit demands;
    serveDemands hardware candidates inventories t states order.

(** *** Required downloads *)

(** [requiredModelsMatchingVRAM], src/service/required_model_downloads.go 100-108 *)
Definition requiredModelsMatchingVRAM (items : list RequiredModelsByVRAMConfig) (gpuVram : Z) : list RequiredModelsByVRAMConfig :=
  select_where (λ item, rm_MinVRAM item <=? gpuVram) items.

(** The sets with a pending or completed selection,
    src/service/required_model_downloads.go 55-66 *)
Fixpoint nonExpiredSets (selections : list NodeModelDownloadSelection) : result (gset (list Z)) :=
  match selections with
  | [] => Ok ∅
  | s :: selections' =>
      if negb (isPending s || isCompleted s) then nonExpiredSets selections'
      else match Hash32FromBytes (ds_ModelFileHash s), nonExpiredSets selections' with
           | Ok key, Ok keys => Ok ({[key]} ∪ keys)
           | Err e, _ | _, Err e => Err e
           end
  end.

(** The loop over the required sets, src/service/required_model_downloads.go 69-96 *)
Fixpoint requestRequired (address : string) (held : nodeFileSets) (t : Time) (items : list RequiredModelsByVRAMConfig)
    (active : gset (list Z)) : M unit :=
  match items with
  | [] => mret tt
  | item :: items' =>
      files ← lift (requiredModelFilesFromConfig (rm_ModelFiles item));
      let '(modelFiles, exact, source) := files in
      let setKey := DistributionKey exact source in
      if coveredBy exact source held || bool_decide (setKey ∈ active) then requestRequired address held t items' active
      else
        emitModelDownloadForNode exact source modelFiles address (rm_MinVRAM item) (rm_TaskType item) t
          (md_DownloadTimeoutSeconds cfg);;
        requestRequired address held t items' ({[setKey]} ∪ active)
  end.

(** [EnsureRequiredModelDownloads], src/service/required_model_downloads.go 17-98 *)
Definition EnsureRequiredModelDownloads (node : Node) : M unit :=
  if negb (bool_decide (n_Status node = NodeStatusAvailable)) && negb (bool_decide (n_Status node = NodeStatusBusy)) then mret tt
  else
    let items := requiredModelsMatchingVRAM (md_RequiredModelsByVRAM cfg) (n_GPUVram node) in
    if bool_decide (items = []) then mret tt
    else
      rows ← db_read (ListNodeModelFileRows [n_Address node]);
      inventories ← lift (nodeFileSetsByAddress rows);
      selections ← GetNodeModelDownloadSelectionsByNodeAddress (n_Address node);
      active ← lift (nonExpiredSets selections);
      t ← now;
      requestRequired (n_Address node) (default (∅, ∅) (inventories !! n_Address node)) t items active.

End distribution.
End ModelDistribution.
