(* ===== verification/DistributionChoice.v ===== *)
(** * Which nodes are asked to download

    Theorems about [selectDownloadTargetNodes] and about one demand of a distribution
    round (src/service/model_distribution.go): nodes are chosen once each and fairly,
    never more than are missing, and only nodes that can serve the demand and neither
    hold the files nor were asked for them. *)

From Stdlib Require Import Ascii.
From stdpp Require Import sorting.
From S2P Require Import Prelude Mac Json JsonDecode GoStrings Models Float64 Config Delegation Deadline MaxStaking Store.
From S2P Require Import ModelFiles TaskModels ModelWhitelist Vesting Qos NodeState NodeNames NodeIndex NodeModels NodeInventory.
From S2P Require Import Matching ModelDistribution.

Module DistributionChoice.
Import ModelFiles TaskModels Vesting NodeState NodeNames NodeIndex NodeModels NodeInventory Matching ModelDistribution.

Section choice.
Context {E : Env}.

(** The sampler gives up only when no weight is left. *)
Definition sampler_complete : Prop :=
  ∀ n ws, env_sample n ws = None → Forall (λ x, x = f64_zero) ws.

(** ** Sampling *)

Lemma frames_prob node t : frames (keeps (λ d, d)) (CalculateNodeSelectingProb node t).
Proof.
  unfold CalculateNodeSelectingProb. keep_tac.
Qed.

Lemma weight_taken (ws : list float64) i j : ws !! j ≠ Some f64_zero → j ≠ i → <[i := f64_zero]> ws !! j ≠ Some f64_zero.
Proof. intros H Hne. by rewrite list_lookup_insert_ne. Qed.

Lemma wp_takeWeighted k nodes : ∀ ws w, length ws = length nodes →
  wp (takeWeighted k nodes ws) (λ r w', w_db w' = w_db w ∧ ∃ taken : list nat, NoDup taken ∧ (length taken ≤ k)%nat ∧
    r = Ok (omap (λ i, nodes !! i) taken) ∧ Forall (λ i, (i < length ws)%nat ∧ ws !! i ≠ Some f64_zero) taken ∧
    (sampler_complete → length taken = k ∨ ∀ i, (i < length ws)%nat → ws !! i ≠ Some f64_zero → i ∈ taken)) w.
Proof.
  induction k as [|k IH]; intros ws w Hl; cbn [takeWeighted].
  { wp_step. split; [done|]. exists []. repeat split; [constructor|simpl; lia|constructor|]. intros _. by left. }
  wp_step. unfold wp at 1, ask. cbn [fst snd]. destruct (env_sample (w_step w) ws) as [i|] eqn:Hs.
  - pose proof (env_sample_range _ _ _ Hs) as Hr. pose proof (env_sample_weighted _ _ _ Hs) as Hw.
    wp_step. eapply wp_mono; [apply IH; by rewrite length_insert|]. intros r w1 [Hd (taken & Hn & Hlen & -> & Hall & Hc)].
    wp_step. rewrite length_insert in *. split; [by rewrite Hd|]. exists (i :: taken).
    assert (Hi : ∀ j, j ∈ taken → j ≠ i ∧ (j < length ws)%nat ∧ ws !! j ≠ Some f64_zero).
    { intros j Hj. rewrite Forall_forall in Hall. destruct (Hall j Hj) as [H1 H2].
      assert (j ≠ i) by (intros ->; by rewrite list_lookup_insert_eq in H2). split; [done|]. split; [done|].
      by rewrite list_lookup_insert_ne in H2. }
    split; [apply NoDup_cons; split; [|done]; intros Hin; by destruct (Hi i Hin)|]. split; [simpl; lia|].
    split; [simpl; by destruct (nodes !! i) eqn:Hlook; [|apply lookup_ge_None in Hlook; lia]|].
    split; [constructor; [done|]; apply Forall_forall; intros j Hj; destruct (Hi j Hj); tauto|].
    intros Hcomp. destruct (Hc Hcomp) as [Hk|Hrest]; [left; simpl; lia|right]. intros j Hj Hjw.
    destruct (decide (j = i)) as [->|Hne]; [set_solver|]. apply elem_of_cons. right. apply Hrest; [done|]. by apply weight_taken.
  - wp_step. split; [done|]. exists []. repeat split; [constructor|simpl; lia|constructor|]. intros Hcomp. right.
    intros i Hi Hw. exfalso. apply Hw. destruct (ws !! i) as [x|] eqn:Hx; [|apply lookup_ge_None in Hx; lia].
    pose proof (Hcomp _ _ Hs) as Hz. rewrite Forall_forall in Hz. by rewrite (Hz x) by (by eapply list_elem_of_lookup_2).
Qed.

Lemma picked_spec {A} (nodes : list A) (taken : list nat) : NoDup nodes → NoDup taken →
  Forall (λ i, (i < length nodes)%nat) taken →
  NoDup (omap (λ i, nodes !! i) taken) ∧ (∀ n, n ∈ omap (λ i, nodes !! i) taken → n ∈ nodes) ∧
  length (omap (λ i, nodes !! i) taken) = length taken.
Proof.
  intros Hn. induction taken as [|i taken IH]; intros Ht Hr; [split; [constructor|]; split; [set_solver|done]|].
  apply NoDup_cons in Ht as [Hi Ht]. apply Forall_cons in Hr as [Hlt Hr]. destruct (IH Ht Hr) as (H1 & H2 & H3).
  destruct (lookup_lt_is_Some_2 nodes i Hlt) as [x Hx]. simpl. rewrite Hx. split; [|split].
  - apply NoDup_cons. split; [|done]. intros (j & Hj & Hjx)%list_elem_of_omap.
    assert (i = j) by (exact (NoDup_lookup _ _ _ _ Hn Hx Hjx)). by subst.
  - intros n [->|Hin]%elem_of_cons; [by eapply list_elem_of_lookup_2|by apply H2].
  - exact (f_equal S H3).
Qed.

Lemma select_partition {A} (p : A → bool) t : select_where p t ++ select_where (λ r, negb (p r)) t ≡ₚ t.
Proof.
  unfold select_where. induction t as [|r t IH]; [done|]. simpl. destruct (p r); simpl; [by rewrite IH|].
  by rewrite <- Permutation_middle, IH.
Qed.

Lemma wp_sampleDownloadTargets nodes t limit w : NoDup nodes →
  wp (sampleDownloadTargets nodes t limit) (λ r w', w_db w' = w_db w ∧ ∀ sel, r = Ok sel →
    NoDup sel ∧ (∀ n, n ∈ sel → n ∈ nodes) ∧ Z.of_nat (length sel) ≤ Z.max 0 limit ∧
    (sampler_complete → Z.of_nat (length sel) = Z.max 0 (Z.min limit (Z.of_nat (length nodes))))) w.
Proof.
  intros Hn. unfold sampleDownloadTargets. set (lim := Z.min limit _).
  destruct (Z.leb_spec lim 0) as [Hle|Hgt].
  { wp_step. split; [done|]. intros sel [= <-]. split; [constructor|]. split; [set_solver|]. simpl. split; lia. }
  wp_step. assert (Hf : frames (keeps (λ d, d)) (map_m (λ node, CalculateNodeSelectingProb node t) nodes)).
  { apply frames_map_m; [apply _|]. intros. apply frames_prob. }
  assert (Hm : wp (map_m (λ node, CalculateNodeSelectingProb node t) nodes)
    (λ r w', w_db w' = w_db w ∧ ∀ ys, r = Ok ys → length ys = length nodes) w) by (split; [apply Hf|apply wp_map_m_length]).
  eapply wp_mono; [exact Hm|]. intros [probs|e] w1 [Hd1 Hlen]; [|done]. specialize (Hlen probs eq_refl). cbn zeta.
  set (weighted := zip nodes (map pb_ProbWeight probs)). set (positive := select_where (λ nw, f64_lt f64_zero (snd nw)) weighted).
  set (zeros := map fst (select_where (λ nw, negb (f64_lt f64_zero (snd nw))) weighted)).
  assert (Hfst : map fst weighted = nodes).
  { unfold weighted. change (map fst) with (fmap (M:=list) (@fst Node float64)). rewrite fst_zip; [done|]. rewrite length_map. lia. }
  assert (Hperm : map fst positive ++ zeros ≡ₚ nodes).
  { unfold zeros. rewrite <- map_app. transitivity (map fst weighted); [apply Permutation_map, select_partition|by rewrite Hfst]. }
  assert (Hnd : NoDup (map fst positive ++ zeros)) by (by rewrite Hperm).
  apply NoDup_app in Hnd as (Hnp & Hdis & Hnz).
  assert (Hfin : ∀ sel0 w2, w_db w2 = w_db w → NoDup sel0 → (∀ n, n ∈ sel0 → n ∈ map fst positive) →
    Z.of_nat (length sel0) ≤ lim → (sampler_complete → Z.of_nat (length sel0) = lim ∨ length sel0 = length positive) →
    wp (mret (sel0 ++ take (Z.to_nat lim - length sel0) (merge_sort nodeAddress_le zeros))) (λ r w', w_db w' = w_db w ∧ ∀ sel, r = Ok sel →
      NoDup sel ∧ (∀ n, n ∈ sel → n ∈ nodes) ∧ Z.of_nat (length sel) ≤ Z.max 0 limit ∧
      (sampler_complete → Z.of_nat (length sel) = Z.max 0 lim)) w2).
  { intros sel0 w2 Hd2 Hns Hsub Hls Hc. wp_step. split; [done|]. intros sel [= <-].
    assert (Hz : ∀ n, n ∈ take (Z.to_nat lim - length sel0) (merge_sort nodeAddress_le zeros) → n ∈ zeros).
    { intros n Hin. rewrite <- (merge_sort_Permutation nodeAddress_le zeros). by eapply elem_of_take in Hin as (i & Hi & _); apply list_elem_of_lookup_2 in Hi. }
    assert (Hlz : length (merge_sort nodeAddress_le zeros) = length zeros) by (by rewrite merge_sort_Permutation).
    assert (Hll : (length positive + length zeros = length nodes)%nat) by (rewrite <- Hperm, length_app, length_map; done).
    split; [|split; [|split]].
    - apply NoDup_app. split; [done|]. split; [intros n H1%Hsub H2%Hz; by eapply Hdis|].
      eapply sublist_NoDup; [|apply sublist_take]. by rewrite merge_sort_Permutation.
    - intros n [Hin%Hsub|Hin%Hz]%elem_of_app; rewrite <- Hperm; set_solver.
    - rewrite length_app, length_take, Hlz. lia.
    - intros Hcomp. rewrite length_app, length_take, Hlz. destruct (Hc Hcomp) as [H|H]; lia. }
  assert (Hpos : Forall (λ nw, snd nw ≠ f64_zero) positive).
  { apply Forall_forall. intros nw [_ Hlt]%elem_of_select Hz. by rewrite Hz in Hlt. }
  wp_step. case_bool_decide as Hnil.
  - wp_step. apply Hfin; [done|constructor|set_solver|simpl; lia|]. intros _. right. by rewrite Hnil.
  - eapply wp_mono; [apply wp_takeWeighted; by rewrite !length_map|].
    intros r w2 [Hd2 (taken & Hnt & Hlt & -> & Hall & Hc)]. rewrite !length_map in *.
    destruct (picked_spec (map fst positive) taken) as (H1 & H2 & H3); [done|done| |].
    { eapply Forall_impl; [exact Hall|]. intros i [Hi _]. by rewrite length_map. }
    apply Hfin; [by rewrite Hd2|done|done|rewrite H3; lia|].
    intros Hcomp. rewrite H3. destruct (Hc Hcomp) as [->|Hrest]; [left; lia|right].
    assert (Hinc : seq 0 (length positive) ⊆+ taken).
    { apply NoDup_submseteq; [apply NoDup_seq|]. intros i Hi. apply elem_of_seq in Hi. apply Hrest; [lia|].
      destruct (lookup_lt_is_Some_2 positive i) as [nw Hnw]; [lia|].
      change (map snd positive) with (snd <$> positive). rewrite list_lookup_fmap, Hnw. simpl. intros [= Hz].
      rewrite Forall_forall in Hpos. by apply (Hpos nw); [eapply list_elem_of_lookup_2|]. }
    apply submseteq_length in Hinc. rewrite length_seq in Hinc.
    assert (Hle : (length taken ≤ length positive)%nat).
    { rewrite <- (length_seq (length positive) 0). apply submseteq_length, NoDup_submseteq; [done|]. intros i Hi.
      rewrite Forall_forall in Hall. destruct (Hall i Hi). apply elem_of_seq. lia. }
    lia.
Qed.

(** ** Groups *)

Notation attempts state n := (attemptsOf state (n_Address n)).

Lemma elem_of_group state readmittable k n : n ∈ attemptGroup state readmittable k ↔ n ∈ readmittable ∧ attempts state n = k.
Proof. unfold attemptGroup. rewrite elem_of_select, Z.eqb_eq. done. Qed.

(** No node is taken while one with fewer attempts is left. *)
Definition fair (state : option modelSelectionState) (pool sel : list Node) : Prop :=
  ∀ n m, n ∈ sel → m ∈ pool → m ∉ sel → attempts state n ≤ attempts state m.

Lemma NoDup_select {A} (p : A → bool) l : NoDup l → NoDup (select_where p l).
Proof. intros H. rewrite <- (map_id (select_where p l)). apply NoDup_map_select. by rewrite map_id. Qed.

Lemma full_or_limit (sel group : list Node) : NoDup sel → (∀ n, n ∈ sel → n ∈ group) → (length group ≤ length sel)%nat →
  ∀ m, m ∈ group → m ∈ sel.
Proof.
  intros Hn Hsub Hlen m Hm. assert (Hp : sel ≡ₚ group).
  { apply submseteq_length_Permutation; [|done]. by apply NoDup_submseteq. }
  by rewrite Hp.
Qed.

Lemma wp_sampleGroups state readmittable t limit : NoDup readmittable → ∀ numbers selected w,
  StronglySorted Z.lt numbers → NoDup selected → Z.of_nat (length selected) ≤ Z.max 0 limit →
  (∀ n, n ∈ selected → n ∈ readmittable ∧ ∀ k, k ∈ numbers → attempts state n < k) →
  wp (sampleGroups state readmittable t limit numbers selected) (λ r w', w_db w' = w_db w ∧ ∀ sel, r = Ok sel →
    selected `prefix_of` sel ∧ NoDup sel ∧ Z.of_nat (length sel) ≤ Z.max 0 limit ∧ (∀ n, n ∈ sel → n ∈ readmittable) ∧
    (sampler_complete → fair state (select_where (λ m, bool_decide (attempts state m ∈ numbers)) readmittable) sel ∧
       (Z.of_nat (length sel) = Z.max 0 limit ∨ ∀ m, m ∈ readmittable → attempts state m ∈ numbers → m ∈ sel))) w.
Proof.
  intros Hr. induction numbers as [|k numbers IH]; intros selected w Hs Hn Hlen Hsel; cbn [sampleGroups].
  { wp_step. split; [done|]. intros sel [= <-]. split; [done|]. split; [done|]. split; [done|].
    split; [intros n Hin; by apply Hsel|]. intros _. split; [|right; set_solver].
    intros n m _ [_ Hm%bool_decide_eq_true]%elem_of_select. set_solver. }
  apply StronglySorted_inv in Hs as [Hs Hk]. rewrite Forall_forall in Hk.
  destruct (Z.eqb_spec (Z.of_nat (length selected)) limit) as [Heq|Hneq].
  { wp_step. split; [done|]. intros sel [= <-]. split; [done|]. split; [done|]. split; [done|].
    split; [intros n Hin; by apply Hsel|]. intros _. split; [|left; lia].
    intros n m Hin [_ Hm%bool_decide_eq_true]%elem_of_select _. apply Hsel in Hin as [_ Hlt]. specialize (Hlt _ Hm). lia. }
  wp_step. eapply wp_mono; [apply wp_sampleDownloadTargets; by apply NoDup_select|].
  intros [more|e] w1 [Hd1 Hm]; [|done]. destruct (Hm more eq_refl) as (Hnm & Hmg & Hlm & Hcm). clear Hm.
  assert (Hmore : ∀ n, n ∈ more → n ∈ readmittable ∧ attempts state n = k) by (intros n Hin; by apply elem_of_group, Hmg).
  eapply wp_mono; [apply IH; [done| | |]|].
  - apply NoDup_app. split; [done|]. split; [|done]. intros n H1 H2. apply Hsel in H1 as [_ H1]. apply Hmore in H2 as [_ H2].
    specialize (H1 k (list_elem_of_here _ _)). lia.
  - rewrite length_app. lia.
  - intros n [Hin|Hin]%elem_of_app; [|apply Hmore in Hin as [Hin Ha]; split; [done|]; intros k' Hk'; rewrite Ha; by apply Hk].
    apply Hsel in Hin as [Hin Hlt]. split; [done|]. intros k' Hk'. apply Hlt. by right.
  - intros r w2 [Hd2 H]. split; [by rewrite Hd2|]. intros sel Hok. destruct (H sel Hok) as (Hpre & Hns & Hls & Hsub & Hcomp).
    split; [etrans; [|exact Hpre]; by apply prefix_app_r|]. split; [done|]. split; [done|]. split; [done|].
    intros Hc. destruct (Hcomp Hc) as [Hfair Hfull]. specialize (Hcm Hc). fold (attemptGroup state readmittable k) in Hcm.
    assert (Hin : ∀ n, n ∈ selected ++ more → n ∈ sel) by (intros n; destruct Hpre as [l ->]; intros ?; apply elem_of_app; by left).
    destruct (decide (Z.of_nat (length more) = Z.of_nat (length (attemptGroup state readmittable k)))) as [Hall|Hnot].
    + assert (Hgrp : ∀ m, m ∈ readmittable → attempts state m = k → m ∈ sel).
      { intros m Hm Ha. apply Hin, elem_of_app. right. apply (full_or_limit more (attemptGroup state readmittable k)); [done|done|lia|].
        by apply elem_of_group. }
      split.
      * intros n m Hn' [Hm Ha%bool_decide_eq_true]%elem_of_select Hnot. apply Hfair; [done| |done].
        apply elem_of_select. split; [done|]. apply bool_decide_eq_true. apply elem_of_cons in Ha as [Ha|Ha]; [|done].
        exfalso. by apply Hnot, Hgrp.
      * destruct Hfull as [?|Hfull]; [by left|right]. intros m Hm [Ha|Ha]%elem_of_cons; [by apply Hgrp|by apply Hfull].
    + assert (Hfull' : Z.of_nat (length (selected ++ more)) = Z.max 0 limit) by (rewrite length_app; lia).
      assert (Hsame : sel = selected ++ more).
      { destruct Hpre as [l ->]. rewrite length_app in Hls. assert (length l = 0%nat) as Hl by lia.
        apply length_zero_iff_nil in Hl. by rewrite Hl, app_nil_r. }
      split; [|left; by rewrite Hsame].
      intros n m Hn' [Hm Ha%bool_decide_eq_true]%elem_of_select Hnm'. rewrite Hsame in Hn'.
      assert (Hnk : attempts state n ≤ k).
      { apply elem_of_app in Hn' as [Hn'|Hn'%Hmore]; [|lia]. apply Hsel in Hn' as [_ Hlt]. specialize (Hlt k (list_elem_of_here _ _)). lia. }
      apply elem_of_cons in Ha as [->|Ha%Hk]; lia.
Qed.

Lemma attemptNumbers_sorted state readmittable : StronglySorted Z.lt (attemptNumbers state readmittable).
Proof.
  unfold attemptNumbers. set (l := remove_dups _). assert (Hn : NoDup (merge_sort Z.le l)).
  { rewrite merge_sort_Permutation. apply NoDup_remove_dups. }
  assert (Hs : StronglySorted Z.le (merge_sort Z.le l)) by (apply StronglySorted_merge_sort; apply _).
  induction Hs as [|x l' Hs IH Hall]; [constructor|]. apply NoDup_cons in Hn as [Hx Hn]. constructor; [auto|].
  rewrite Forall_forall in *. intros y Hy. specialize (Hall y Hy). assert (x ≠ y) by (by intros ->). lia.
Qed.

Lemma elem_of_attemptNumbers state readmittable k :
  k ∈ attemptNumbers state readmittable ↔ ∃ n, n ∈ readmittable ∧ attempts state n = k.
Proof.
  unfold attemptNumbers. rewrite merge_sort_Permutation, elem_of_remove_dups, list_elem_of_fmap. naive_solver.
Qed.

(** ** The choice *)

(** Every record counts as an attempt. *)
Definition state_ok (st : modelSelectionState) : Prop :=
  ∀ a, 0 ≤ attemptsOf (Some st) a ∧ (a ∈ ms_nonExpired st → 0 < attemptsOf (Some st) a).

(** The nodes that may be asked: they do not hold the files and no request to them
    is pending or completed. *)
Definition eligible (candidates : list Node) (holding : gset string) (state : option modelSelectionState) : list Node :=
  select_where (λ n, negb (bool_decide (n_Address n ∈ holding)) &&
    match state with Some st => negb (bool_decide (n_Address n ∈ ms_nonExpired st)) | None => true end) candidates.

Lemma wp_selectDownloadTargetNodes candidates holding state t limit w : NoDup candidates →
  match state with Some st => state_ok st | None => True end →
  wp (selectDownloadTargetNodes candidates holding state t limit) (λ r w', w_db w' = w_db w ∧ ∀ sel, r = Ok sel →
    NoDup sel ∧ Z.of_nat (length sel) ≤ Z.max 0 limit ∧ (∀ n, n ∈ sel → n ∈ eligible candidates holding state) ∧
    (sampler_complete → fair state (eligible candidates holding state) sel ∧
       (0 < limit → eligible candidates holding state ≠ [] → sel ≠ []))) w.
Proof.
  intros Hn Hst. unfold selectDownloadTargetNodes. set (free := select_where _ candidates).
  set (primary := select_where _ free). set (readmittable := select_where _ free).
  assert (Hfree : ∀ n, n ∈ free ↔ n ∈ candidates ∧ n_Address n ∉ holding).
  { intros n. unfold free. by rewrite elem_of_select, negb_true_iff, bool_decide_eq_false. }
  assert (Hnon : ∀ n, 0 ≤ attempts state n ∧ (match state with Some st => n_Address n ∈ ms_nonExpired st | None => False end → 0 < attempts state n)).
  { intros n. destruct state as [st|]; [apply Hst|]. simpl. split; [lia|done]. }
  assert (Hel : ∀ n, n ∈ eligible candidates holding state ↔ n ∈ primary ∨ n ∈ readmittable).
  { intros n. unfold eligible, primary, readmittable. rewrite !elem_of_select, !Hfree, !andb_true_iff, !negb_true_iff, bool_decide_eq_false, Z.eqb_eq, Z.eqb_neq.
    destruct (Hnon n) as [_ Hpos]. destruct state as [st|]; [rewrite negb_true_iff, bool_decide_eq_false|simpl; naive_solver lia].
    destruct (decide (attempts (Some st) n = 0)) as [Hz|Hz]; [|naive_solver].
    assert (n_Address n ∉ ms_nonExpired st) by (intros Hin; specialize (Hpos Hin); lia). naive_solver. }
  case_bool_decide as Hp; cbn [negb].
  - eapply wp_mono; [apply wp_sampleGroups|].
    + by apply NoDup_select, NoDup_select.
    + apply attemptNumbers_sorted.
    + constructor.
    + simpl. lia.
    + set_solver.
    + intros r w' [Hd H]. split; [done|]. intros sel Hok. destruct (H sel Hok) as (_ & Hns & Hls & Hsub & Hc).
      split; [done|]. split; [done|]. split; [intros n Hin; apply Hel; right; by apply Hsub|]. intros Hcomp.
      destruct (Hc Hcomp) as [Hfair Hfull].
      assert (Hnum : ∀ m, m ∈ readmittable → attempts state m ∈ attemptNumbers state readmittable) by (intros m Hm; apply elem_of_attemptNumbers; eauto).
      split.
      * intros n m Hin [Hm|Hm]%Hel Hnot; [rewrite Hp in Hm; set_solver|]. apply Hfair; [done| |done].
        apply elem_of_select. split; [done|]. by apply bool_decide_eq_true, Hnum.
      * intros Hlim Hne ->. destruct Hfull as [Hfull|Hfull]; [simpl in Hfull; lia|].
        destruct (eligible candidates holding state) as [|m rest] eqn:He; [done|].
        assert (Hm : m ∈ m :: rest) by set_solver. apply Hel in Hm as [Hm|Hm]; [rewrite Hp in Hm; set_solver|].
        specialize (Hfull m Hm (Hnum m Hm)). set_solver.
  - eapply wp_mono; [apply wp_sampleDownloadTargets; by apply NoDup_select, NoDup_select|].
    intros r w' [Hd H]. split; [done|]. intros sel Hok. destruct (H sel Hok) as (Hns & Hsub & Hls & Hc).
    split; [done|]. split; [done|]. split; [intros n Hin; apply Hel; left; by apply Hsub|]. intros Hcomp. split.
    + intros n m Hin _ _. apply Hsub in Hin. unfold primary in Hin. apply elem_of_select in Hin as [_ Hz%Z.eqb_eq]. rewrite Hz. apply Hnon.
    + intros Hlim _ ->. specialize (Hc Hcomp). simpl in Hc. destruct primary; [done|]. simpl in Hc. lia.
Qed.

(** C27 (functional): the choice of the nodes that are asked for a set of files.  No node is chosen twice
    and no more than asked for; a chosen node neither holds the files nor has a pending or
    completed request for them; if any node may be asked, one is; and no node is chosen
    while a node that may be asked has fewer attempts behind it, so every node is attempted
    once before any is attempted twice. *)
Theorem download_targets_fair (candidates : list Node) (holding : gset string) (state : option modelSelectionState) (t : Time)
    (limit : Z) (w : World) : NoDup candidates → match state with Some st => state_ok st | None => True end →
  sampler_complete →
  wp (selectDownloadTargetNodes candidates holding state t limit) (λ r w', w_db w' = w_db w ∧ ∀ sel, r = Ok sel →
    NoDup sel ∧ Z.of_nat (length sel) ≤ Z.max 0 limit ∧ (∀ n, n ∈ sel → n ∈ eligible candidates holding state) ∧
    (0 < limit → eligible candidates holding state ≠ [] → sel ≠ []) ∧
    ∀ n m, n ∈ sel → m ∈ eligible candidates holding state → m ∉ sel → attemptsOf state (n_Address n) ≤ attemptsOf state (n_Address m)) w.
Proof.
  intros Hn Hs Hc. eapply wp_mono; [by apply wp_selectDownloadTargetNodes|]. intros r w' [Hd H]. split; [done|].
  intros sel Hok. destruct (H sel Hok) as (H1 & H2 & H3 & H4). destruct (H4 Hc) as [Hf He]. done.
Qed.

(** ** One demand *)

Definition requestRow (demand : modelDemand) (t : Time) (s : NodeModelDownloadSelection) : Prop :=
  ds_ModelFileHash s = DistributionKey (de_exact demand) (de_source demand) ∧ ds_Status s = NodeModelDownloadSelectionPending ∧
  ds_MinVRAM s = dk_minVRAM (de_key demand) ∧ ds_SentAt s = t ∧
  ds_Deadline s = t + secondsDuration (md_DownloadTimeoutSeconds cfg).

(** What was asked of the nodes: a row and an event for each. *)
Definition askedFor (demand : modelDemand) (t : Time) (files : list ModelFileEntry) (asked : list Node) (d d' : DB) : Prop :=
  ∃ rows, db_download_selections d' = db_download_selections d ++ rows ∧ map ds_NodeAddress rows = map n_Address asked ∧
    Forall (requestRow demand t) rows ∧
    db_log d' = db_log d ++ map (λ n, DownloadModelEvent (n_Address n) files (de_latestTaskType demand)) asked.

Lemma askedFor_nil demand t files d : askedFor demand t files [] d d.
Proof. exists []. simpl. by rewrite !app_nil_r. Qed.

Lemma wp_emit demand files t node w :
  wp (emitModelDownloadForNode (de_exact demand) (de_source demand) files (n_Address node) (dk_minVRAM (de_key demand))
        (de_latestTaskType demand) t (md_DownloadTimeoutSeconds cfg))
    (λ r w', if is_ok r then askedFor demand t files [node] (w_db w) (w_db w') else w_db w' = w_db w) w.
Proof.
  unfold emitModelDownloadForNode. wp_step; [done|]. wp_step. unfold CreateNodeModelDownloadSelection. wp_step; [done|].
  cbn [w_db]. destruct (existsb _ _); [done|]. unfold emitEvent. wp_step; [done|]. split; [done|].
  eexists [_]. split; [reflexivity|]. split; [done|]. split; [|done]. repeat constructor.
Qed.

Lemma wp_requestAll demand files t nodes : ∀ state w,
  wp (requestAll demand files t nodes state) (λ _ w', ∃ asked, asked `sublist_of` nodes ∧
    askedFor demand t files asked (w_db w) (w_db w')) w.
Proof.
  induction nodes as [|node nodes IH]; intros state w; cbn [requestAll].
  { wp_step. exists []. split; [done|]. apply askedFor_nil. }
  wp_step. wp_step. eapply wp_mono; [apply wp_emit|]. intros r w1 H1. eapply wp_mono; [apply IH|].
  intros r2 w2 (asked & Hsub & rows & Hrows & Ha & Hall & Hlog). revert H1. cbv beta. destruct (is_ok r); intros H1.
  - exists (node :: asked). split; [by constructor|]. destruct H1 as (rows1 & Hr1 & Ha1 & Hall1 & Hlog1).
    exists (rows1 ++ rows). rewrite Hrows, Hr1, Hlog, Hlog1, map_app, Ha1, Ha, <- !app_assoc. split; [done|].
    split; [done|]. split; [by apply Forall_app|done].
  - exists asked. rewrite <- H1. split; [by constructor|]. by exists rows.
Qed.

Lemma frames_loadDemand demand : frames (keeps (λ d, d)) (loadDemandModelFiles demand).
Proof. unfold loadDemandModelFiles, LoadModelFileEntries, GetModelFiles. keep_tac. Qed.

(** The copies a demand can count on: the nodes that hold the files and those asked
    for them. *)
Definition copies (hardware : list Node) (inventories : gmap string nodeFileSets) (states : gmap (list Z) modelSelectionState)
    (demand : modelDemand) : Z :=
  qualifiedCount demand hardware (holdersOf inventories demand) +
  qualifiedCount demand hardware (match states !! dk_setKey (de_key demand) with Some st => ms_pendingNodes st | None => ∅ end).

Definition targetOf (demand : modelDemand) : Z :=
  computeTargetNodeCount demand (md_DemandWindowSeconds cfg) (md_SafetyFactor cfg) (md_MinNodes cfg) (md_MaxNodes cfg).

Lemma targetOf_max demand : targetOf demand ≤ md_MaxNodes cfg.
Proof. unfold targetOf, computeTargetNodeCount. cbv zeta. match goal with |- context [md_MaxNodes cfg <? ?x] => destruct (Z.ltb_spec (md_MaxNodes cfg) x) end; lia. Qed.

(** C26 (safety): one demand of a distribution round, whatever access fails.  The nodes asked are distinct
    candidates that can execute the tasks, do not hold the files and have no pending or
    completed request; each gets one row and one event, atomically; and with the copies
    there are and those under way the requests never exceed the target computed from the
    demand, nor the configured maximum. *)
Theorem demand_served (hardware candidates : list Node) (inventories : gmap string nodeFileSets) (t : Time)
    (states : gmap (list Z) modelSelectionState) (demand : modelDemand) (w : World) :
  NoDup candidates → (∀ key st, states !! key = Some st → state_ok st) →
  wp (serveDemand hardware candidates inventories t states demand) (λ _ w', ∃ asked files,
    askedFor demand t files asked (w_db w) (w_db w') ∧ NoDup asked ∧
    (∀ n, n ∈ asked → n ∈ eligible candidates (holdersOf inventories demand) (states !! dk_setKey (de_key demand)) ∧ qualifies demand n = true) ∧
    copies hardware inventories states demand + Z.of_nat (length asked) ≤
      Z.max (copies hardware inventories states demand) (Z.min (targetOf demand) (md_MaxNodes cfg))) w.
Proof.
  intros Hn Hst. unfold serveDemand. cbv zeta. fold (targetOf demand).
  set (state := states !! dk_setKey (de_key demand)). set (holding := holdersOf inventories demand).
  set (c := copies hardware inventories states demand).
  assert (Hc : targetOf demand - qualifiedCount demand hardware holding -
    qualifiedCount demand hardware (match state with Some st => ms_pendingNodes st | None => ∅ end) = targetOf demand - c) by (unfold c, copies; fold state holding; lia).
  rewrite Hc. pose proof (targetOf_max demand) as Hmax.
  assert (Hnone : ∀ w', w_db w' = w_db w → ∃ asked files, askedFor demand t files asked (w_db w) (w_db w') ∧ NoDup asked ∧
    (∀ n, n ∈ asked → n ∈ eligible candidates holding state ∧ qualifies demand n = true) ∧
    c + Z.of_nat (length asked) ≤ Z.max c (Z.min (targetOf demand) (md_MaxNodes cfg))).
  { intros w' ->. exists [], []. split; [apply askedFor_nil|]. split; [constructor|]. split; [set_solver|]. simpl. lia. }
  destruct (Z.leb_spec (targetOf demand - c) 0) as [Hle|Hgt]; [wp_step; by apply Hnone|].
  wp_step. eapply wp_mono; [apply wp_selectDownloadTargetNodes; [by apply NoDup_select|]|].
  { unfold state. destruct (states !! _) as [st|] eqn:Hk; [|done]. by eapply Hst. }
  intros [sel|e] w1 [Hd1 H]; [|by apply Hnone]. destruct (H sel eq_refl) as (Hns & Hls & Hsub & _).
  case_bool_decide as Hnil; [wp_step; by apply Hnone|].
  wp_step. wp_step. eapply wp_mono; [apply frames_loadDemand|]. unfold keeps. intros [files|e] w2 Hd2; [|wp_step; apply Hnone; congruence].
  wp_step. eapply wp_mono; [apply wp_requestAll|]. intros r w3 (asked & Has & Hfor).
  assert (Hres : ∃ asked files, askedFor demand t files asked (w_db w) (w_db w3) ∧ NoDup asked ∧
    (∀ n, n ∈ asked → n ∈ eligible candidates holding state ∧ qualifies demand n = true) ∧
    c + Z.of_nat (length asked) ≤ Z.max c (Z.min (targetOf demand) (md_MaxNodes cfg))).
  { exists asked, files. split; [by rewrite <- Hd1, <- Hd2|]. split; [by eapply sublist_NoDup|]. split.
    - intros n Hin. apply (sublist_subseteq _ _ Has) in Hin. apply Hsub in Hin. unfold eligible in Hin |- *.
      apply elem_of_select in Hin as [Hin Hp]. apply elem_of_select in Hin as [Hin Hq]. split; [|done]. by apply elem_of_select.
    - apply sublist_length in Has. lia. }
  destruct r as [st|e]; [|exact Hres]. wp_step. exact Hres.
Qed.

End choice.

(** ** Witnesses *)

(** A sampler that takes the first index with a weight. *)
Fixpoint firstWeighted (ws : list float64) : option nat :=
  match ws with
  | [] => None
  | S754_zero false :: ws' => S <$> firstWeighted ws'
  | _ :: _ => Some 0%nat
  end.

Lemma firstWeighted_spec ws : ∀ i,
  (firstWeighted ws = Some i → (i < length ws)%nat) ∧ (firstWeighted ws = Some i → ws !! i ≠ Some f64_zero).
Proof.
  induction ws as [|x ws IH]; intros i; [done|].
  assert (Hx : x = f64_zero ∨ firstWeighted (x :: ws) = Some 0%nat ∧ x ≠ f64_zero) by (destruct x as [[]|[]| |]; auto).
  destruct Hx as [->|[-> Hx]].
  - simpl. destruct (firstWeighted ws) as [j|]; [|done]. destruct (IH j) as [H1 H2].
    split; intros [= <-]; simpl; [specialize (H1 eq_refl); lia|by apply H2].
  - split; intros [= <-]; simpl; [lia|congruence].
Qed.

Lemma firstWeighted_None ws : firstWeighted ws = None → Forall (λ x, x = f64_zero) ws.
Proof.
  induction ws as [|x ws IH]; [constructor|]. simpl. destruct x as [[]|[]| |]; try done.
  destruct (firstWeighted ws); [done|]. intros _. constructor; auto.
Qed.

(** The environment of the other witnesses with this sampler and the given
    configuration. *)
Definition sampling_env (config : AppConfig) : Env := {|
  env_cfg := config;
  env_fault := env_fault (Env:=demo_env);
  env_commit_fault := λ _, false;
  env_now := env_now (Env:=demo_env);
  env_shuffle := λ _ x, x;
  env_shuffle_perm := λ _ x, Permutation_refl x;
  env_exp := env_exp (Env:=demo_env);
  env_client := env_client (Env:=demo_env);
  env_receipt := env_receipt (Env:=demo_env);
  env_transfer := env_transfer (Env:=demo_env);
  env_staking_info := env_staking_info (Env:=demo_env);
  env_delegator_share := env_delegator_share (Env:=demo_env);
  env_staking_infos := env_staking_infos (Env:=demo_env);
  env_erc20TransferTopic := env_erc20TransferTopic (Env:=demo_env);
  env_addressTopic := env_addressTopic (Env:=demo_env);
  env_topicAddress := env_topicAddress (Env:=demo_env);
  env_keccak256 := env_keccak256 (Env:=demo_env);
  env_sig_to_address := env_sig_to_address (Env:=demo_env);
  env_is_hex_address := env_is_hex_address (Env:=demo_env);
  env_pubkey_address := env_pubkey_address (Env:=demo_env);
  env_vrf_verify := env_vrf_verify (Env:=demo_env);
  env_admission := env_admission (Env:=demo_env);
  env_execution_plan := env_execution_plan (Env:=demo_env);
  env_evidence := env_evidence (Env:=demo_env);
  env_snapshot := env_snapshot (Env:=demo_env);
  env_evidence_valid := env_evidence_valid (Env:=demo_env);
  env_block_number := env_block_number (Env:=demo_env);
  env_block := env_block (Env:=demo_env);
  env_filter_logs := env_filter_logs (Env:=demo_env);
  env_staking_page := env_staking_page (Env:=demo_env);
  env_node_staking_log := env_node_staking_log (Env:=demo_env);
  env_delegated_staking_log := env_delegated_staking_log (Env:=demo_env);
  env_is_hex_hash := env_is_hex_hash (Env:=demo_env);
  env_unicode := env_unicode (Env:=demo_env);
  env_float64_text := env_float64_text (Env:=demo_env);
  env_order := env_order (Env:=demo_env);
  env_order_perm := env_order_perm (Env:=demo_env);
  env_sample := λ _, firstWeighted;
  env_sample_range := λ _ ws i, proj1 (firstWeighted_spec ws i);
  env_sample_weighted := λ _ ws i, proj2 (firstWeighted_spec ws i)
|}.

Definition demo_sampling : Env := sampling_env demo_config.

Lemma demo_sampling_complete : sampler_complete (E:=demo_sampling).
Proof. intros n ws. apply firstWeighted_None. Qed.

(** Two nodes that were asked before, in vain; the second once, the first twice. *)
Definition demo_candidate (address : string) (stake : Z) : Node :=
  mkNode 1 "base" address NodeStatusAvailable "RTX" 24 (f64_of_Z 4) 3 0 0 0 stake f64_one None false 10 None None.
Definition demo_attempts : modelSelectionState := mkSelectionState {["0xa" := 2; "0xb" := 1]} ∅ ∅.

Lemma demo_attempts_ok : state_ok demo_attempts.
Proof.
  intros a. split; [|set_solver]. unfold attemptsOf, demo_attempts. cbn [ms_attemptCounts].
  rewrite lookup_insert, lookup_singleton. repeat case_decide; simpl; lia.
Qed.

Definition demo_catalog : World :=
  mkWorld (empty_db <| db_model_files := [demo_old] |>) (empty_caches <| c_delegations := Delegations.newDelegationCaches ["base"] |>) 0 0.
Definition demo_choice := selectDownloadTargetNodes (E:=demo_sampling) [demo_candidate "0xa" 900; demo_candidate "0xb" 100] ∅ (Some demo_attempts) 0 1.

Lemma download_targets_fair_witness :
  wp demo_choice (λ r w', ∃ sel, r = Ok sel ∧ sel ≠ [] ∧ ∀ n, n ∈ sel → attemptsOf (Some demo_attempts) (n_Address n) ≤ 1) demo_catalog.
Proof.
  unfold wp. pose proof (download_targets_fair (E:=demo_sampling) [demo_candidate "0xa" 900; demo_candidate "0xb" 100] ∅ (Some demo_attempts) 0 1 demo_catalog) as H.
  unfold wp in H. fold demo_choice in H. destruct H as [_ H]; [|exact demo_attempts_ok|exact demo_sampling_complete|].
  { apply (NoDup_fmap_1 n_Address). apply (bool_decide_unpack _). vm_compute. exact I. }
  destruct (fst (demo_choice demo_catalog)) as [sel|e] eqn:He; [|vm_compute in He; discriminate He].
  clear He. destruct (H sel eq_refl) as (Hn & Hl & Hsub & Hne & Hfair). clear H. exists sel. split; [reflexivity|].
  assert (Hsel : sel ≠ []).
  { apply Hne; [lia|]. intros Hnil. apply (f_equal length) in Hnil. vm_compute in Hnil. discriminate Hnil. }
  split; [exact Hsel|]. destruct sel as [|x [|y sel]]; [done| |simpl in Hl; lia].
  intros n ->%list_elem_of_singleton. clear Hne Hsel.
  assert (Hx : x ∈ [demo_candidate "0xa" 900; demo_candidate "0xb" 100]) by (apply (Hsub x); set_solver).
  apply elem_of_cons in Hx as [->|Hx].
  - apply (Hfair (demo_candidate "0xa" 900) (demo_candidate "0xb" 100)); [set_solver| |].
    + right. left.
    + intros Hb%list_elem_of_singleton. apply (f_equal n_Address) in Hb. discriminate Hb.
  - apply list_elem_of_singleton in Hx as ->. vm_compute. discriminate.
Defined.

(** A demand for one file with no copy and one candidate. *)
Definition demo_demand : modelDemand :=
  mkDemand (mkDemandKey (DistributionKey [mf_ModelFileHash demo_old] []) 8 false false) [mf_ModelFileHash demo_old] [] 1 1 1 5
    TaskTypeLLM f64_zero 0 f64_zero 0.
Definition demo_serve := serveDemand (E:=demo_sampling) [demo_candidate "0xa" 900] [demo_candidate "0xa" 900] ∅ 7 ∅ demo_demand.

Lemma demand_served_witness :
  wp demo_serve (λ _ w', map ds_NodeAddress (db_download_selections (w_db w')) = ["0xa"] ∧
    ∃ s, db_download_selections (w_db w') = [s] ∧ requestRow (E:=demo_sampling) demo_demand 7 s) demo_catalog.
Proof.
  pose proof (demand_served (E:=demo_sampling) [demo_candidate "0xa" 900] [demo_candidate "0xa" 900] ∅ 7 ∅ demo_demand demo_catalog
    ltac:(apply NoDup_singleton) ltac:(intros key st Hk; rewrite lookup_empty in Hk; discriminate Hk)) as H.
  unfold wp in *. fold demo_serve in H. destruct H as (asked & files & (rows & Hrows & Ha & Hall & _) & _).
  assert (Hm : map ds_NodeAddress (db_download_selections (w_db (snd (demo_serve demo_catalog)))) = ["0xa"]) by (vm_compute; reflexivity).
  split; [exact Hm|]. change (db_download_selections (w_db demo_catalog) ++ rows) with rows in Hrows. rewrite Hrows in Hm |- *.
  destruct rows as [|s [|s2 rows]]; [discriminate Hm| |discriminate Hm]. exists s. split; [reflexivity|].
  apply Forall_cons in Hall as [Hs _]. exact Hs.
Defined.
End DistributionChoice.
