(* ===== verification/NodeRequests.v ===== *)
(** * Nodes joining and reporting

    Joining (src/service/node.go, src/api/v2/nodes/join.go), the reports of
    capabilities (src/service/node_capabilities.go), of the version, of downloaded
    files and of the model in memory (src/api/v1/nodes/, src/api/v2/nodes/), after
    the signature checks. *)

From Stdlib Require Import Ascii.
From stdpp Require Import sorting.
From S2P Require Import Prelude Mac Json JsonDecode GoStrings Models Float64 Config Delegation Deadline MaxStaking Store.
From S2P Require Import ModelFiles TaskModels ModelWhitelist Vesting Qos NodeState NodeNames NodeIndex NodeModels ChainEvents.
From S2P Require Import ModelDistribution.

Module NodeRequests.
Import Mac Json JsonDecode GoStrings Delegations ModelFiles TaskModels Vesting Qos NodeState NodeNames NodeIndex NodeModels ChainEvents ModelDistribution.

(** ** Delegations of a joining node *)

(** [normalizeChainDelegations], src/service/node.go 135-154: amounts that are nil or
    zero are dropped; the second value is the sum. *)
Fixpoint keepDelegations (addresses : list string) (amounts : list (option Z)) : list (string * Z) :=
  match addresses, amounts with
  | address :: addresses', Some amount :: amounts' =>
      if amount =? 0 then keepDelegations addresses' amounts' else (address, amount) :: keepDelegations addresses' amounts'
  | _ :: addresses', None :: amounts' => keepDelegations addresses' amounts'
  | _, _ => []
  end.
(** [normalizeChainDelegations], src/service/node.go 135-154 *)
Definition normalizeChainDelegations (addresses : list string) (amounts : list (option Z)) : result (list (string * Z) * Z) :=
  if negb (Nat.eqb (length addresses) (length amounts)) then Err (ErrMsg "delegated staking info length mismatch")
  else let delegations := keepDelegations addresses amounts in
       Ok (delegations, foldr Z.add 0 (map snd delegations)).

(** What a capability report carries, src/service/node_capabilities.go 13-20 *)
Record NodeCapabilities := mkCapabilities {
  nc_GPUName : string;
  nc_GPUVram : Z;
  nc_MajorVersion : Z;
  nc_MinorVersion : Z;
  nc_PatchVersion : Z;
  nc_ModelFiles : list ModelFile
}.

(** The columns a report sets, src/service/node_capabilities.go 55-59 *)
Definition withCapabilities (c : NodeCapabilities) (n : Node) : Node :=
  n <| n_GPUName := nc_GPUName c |> <| n_GPUVram := nc_GPUVram c |> <| n_MajorVersion := nc_MajorVersion c |>
    <| n_MinorVersion := nc_MinorVersion c |> <| n_PatchVersion := nc_PatchVersion c |>.

(** Versions as the handlers read them, src/api/v2/nodes/join.go 63-74 *)
Definition splitVersion (version : string) : result (Z * Z * Z) :=
  match Split version "."%char with
  | [v0; v1; v2] =>
      match ParseUint v0, ParseUint v1, ParseUint v2 with
      | Some major, Some minor, Some patch => Ok (major, minor, patch)
      | _, _, _ => Err (ErrMsg "Invalid node version")
      end
  | _ => Err (ErrMsg "Invalid node version")
  end.

(** [NodeJoinInput], src/api/v2/nodes/join.go 20-28 *)
Record NodeJoinInput := mkJoinInput {
  ji_Network : string;
  ji_Address : string;
  ji_GPUName : string;
  ji_GPUVram : Z;
  ji_Version : string;
  ji_ModelFiles : list ModelFileEntry;
  ji_Staking : Z
}.

(** [InMemoryModel], src/api/v2/nodes/in_memory_model.go 21-26 *)
Record InMemoryModel := mkInMemoryModel {
  mi_ModelCacheHash : string;
  mi_ModelCacheConfig : list ascii;
  mi_ModelFiles : list ModelFileEntry;
  mi_ExecutionDType : string
}.

Section requests.
Context {E : Env}.

(** [HasUnfinishedDelegatedSlashJobForNode], src/models/delegated_slash.go 57-69 *)
Definition HasUnfinishedDelegatedSlashJobForNode (address : string) : M bool :=
  db_read (λ d, existsb (λ j, String.eqb (sj_NodeAddress j) address &&
                              negb (bool_decide (sj_Status j = DelegatedSlashJobStatusCompleted))) (db_slash_jobs d)).

(** [syncNodeDelegationsFromChainTx], src/service/node.go 156-181 *)
Definition syncNodeDelegationsFromChainTx (nodeAddress network : string) (delegations : list (string * Z)) : M unit :=
  db_write (λ d, d <| db_delegations := select_where (λ r,
    negb (String.eqb (dl_NodeAddress r) nodeAddress && String.eqb (dl_Network r) network && negb (dl_Slashed r))) (db_delegations d) |>);;
  for_each delegations (λ da,
    db_write (λ d, d <| db_delegations := upsertDelegation (fst da) nodeAddress (snd da) network (db_delegations d) |>)).

(** [applyNodeDelegationsToCache], src/service/node.go 183-188 *)
Definition applyNodeDelegationsToCache (nodeAddress network : string) (delegations : list (string * Z)) : M unit :=
  changeDelegations (λ g, RemoveNodeDelegations g nodeAddress network);;
  for_each delegations (λ da, changeDelegations (λ g, UpdateDelegation g (fst da) nodeAddress (snd da) network)).

(** [Save], src/models/node.go 48-55: a node without an id is inserted, another one
    overwrites its row. *)
Definition saveNode (node : Node) : M Node :=
  db_exec (λ d,
    if n_ID node =? 0 then
      let node' := node <| n_ID := next_id n_ID (db_nodes d) |> in
      Ok (node', d <| db_nodes := db_nodes d ++ [node'] |>)
    else Ok (node, d <| db_nodes := update_where (λ n, n_ID n =? n_ID node) (λ _, node) (db_nodes d) |>)).

(** The node a join leaves behind, src/service/node.go 67-73 *)
Definition joinedNode (joinTime healthTime : Time) (delegatorShare : Z) (node : Node) : Node :=
  node <| n_Status := NodeStatusAvailable |> <| n_JoinTime := joinTime |> <| n_HealthBase := f64_one |>
       <| n_HealthUpdatedAt := Some healthTime |> <| n_HealthExcluded := false |> <| n_DelegatorShare := delegatorShare |>.

(** The transaction of a join, src/service/node.go 66-112 *)
Definition joinTx (node : Node) (modelFiles : list ModelFile) (delegatorShare : Z) (delegations : list (string * Z))
    (totalStakingAmount : Z) : M Node :=
  joinTime ← now;
  healthTime ← now;
  node ← saveNode (joinedNode joinTime healthTime delegatorShare node);
  syncNodeDelegationsFromChainTx (n_Address node) (n_Network node) delegations;;
  replaceNodeModelFiles (n_Address node) modelFiles;;
  ClearNodeInMemoryModel (n_Address node);;
  db_write (λ d, d <| db_network_nodes := <[n_Address node :=
    mkNetworkNodeData (n_Network node) (n_GPUName node) (wrap_i64 (n_GPUVram node)) (n_QOSScore node) totalStakingAmount
      (n_HealthBase node) (n_HealthUpdatedAt node)]> (db_network_nodes d) |>);;
  IncrementNodeNameCountTx node;;
  emitEvent (NodeJoinEvent (n_Address node) (n_Network node));;
  mret node.

(** [SetNodeStatusJoin], src/service/node.go 33-133 *)
Definition SetNodeStatusJoin (node : Node) (modelFiles : list ModelFile) : M unit :=
  unfinishedSlashJob ← HasUnfinishedDelegatedSlashJobForNode (n_Address node);
  if (unfinishedSlashJob : bool) then fail (ErrMsg "delegated slash job in progress")
  else
    stakingInfo ← ask (λ n, env_staking_info n (n_Address node) (n_Network node));
    if negb (si_StakedBalance stakingInfo =? n_StakeAmount node) then fail (ErrMsg "staking amount mismatch")
    else
      delegatorShare ← ask (λ n, env_delegator_share n (n_Address node) (n_Network node));
      infos ← ask (λ n, env_staking_infos n (n_Address node) (n_Network node));
      normalized ← lift (normalizeChainDelegations (fst infos) (snd infos));
      let '(chainDelegations, delegatedStakingAmount) := normalized in
      node ← transaction (joinTx node modelFiles delegatorShare chainDelegations
                            (si_StakedBalance stakingInfo + delegatedStakingAmount));
      ApplyNodeNameCountDeltaToCache node 1;;
      applyNodeDelegationsToCache (n_Address node) (n_Network node) chainDelegations;;
      SetDelegatorShare (n_Address node) (n_Network node) delegatorShare;;
      RefreshNodeVestingStake (n_Address node);;
      t ← now;
      stake ← GetNodeScoreStakeAmount node t;
      UpdateMaxStaking (n_Address node) stake;;
      ask (λ n, env_snapshot n (n_Address node));;
      EnsureRequiredModelDownloads node.

(** [NodeJoin], src/api/v2/nodes/join.go 54-131, after the signature check: the outcome
    and the index *)
Definition NodeJoin (ix : index) (input : NodeJoinInput) : M (result unit * index) :=
  let gpuName := NormalizeGPUName (ji_GPUName input) in
  modelFiles ← lift (BuildHeldModelFiles (ji_ModelFiles input));
  version ← lift (splitVersion (ji_Version input));
  let '(major, minor, patch) := version in
  found ← firstOrNone (GetNodeByAddress (ji_Address input));
  let node := match found with
              | None => mkNode 0 (ji_Network input) (ji_Address input) NodeStatusQuit gpuName (ji_GPUVram input) (f64_of_Z 5)
                          major minor patch 0 0 f64_zero None false 0 None None
              | Some node => node <| n_Network := ji_Network input |> <| n_GPUName := gpuName |> <| n_GPUVram := ji_GPUVram input |>
                          <| n_MajorVersion := major |> <| n_MinorVersion := minor |> <| n_PatchVersion := patch |>
              end in
  if negb (bool_decide (n_Status node = NodeStatusQuit)) then fail (ErrMsg "Node already joined")
  else
    node ← AdjustNodeQosForJoin node (bool_decide (found = None));
    let stakeAmount := if ji_Staking input =? 0 then EtherToWei (Task_StakeAmount env_cfg) else ji_Staking input in
    outcome ← try_ (SetNodeStatusJoin (node <| n_StakeAmount := stakeAmount |>) modelFiles);
    refreshed ← try_ (refreshNodeIndexLocked ix (ji_Address input));
    mret (outcome, match refreshed with Ok ix' => ix' | Err _ => ix end).

(** ** Capabilities *)

(** The transaction of a capability report, src/service/node_capabilities.go 45-105: the
    node before and after *)
Definition capabilitiesTx (address : string) (c : NodeCapabilities) : M (Node * Node) :=
  old ← GetNodeByAddress address;
  if bool_decide (n_Status old = NodeStatusQuit) then fail (ErrMsg "node capabilities cannot be updated after quit")
  else
    let node := withCapabilities c old in
    let transfer := negb (bool_decide (nodeNameKey old = nodeNameKey node)) && IsNodeStatusActiveForNodeNameCount (n_Status node) in
    (if transfer then DecrementNodeNameCountTx old;; IncrementNodeNameCountTx node else mret tt);;
    db_write (λ d, d <| db_nodes := update_where (λ n, String.eqb (n_Address n) address) (withCapabilities c) (db_nodes d) |>);;
    replaceNodeModelFiles address (nc_ModelFiles c);;
    data ← db_first (λ d, db_network_nodes d !! address);
    db_write (λ d, d <| db_network_nodes := <[address :=
      mkNetworkNodeData (nd_Network data) (n_GPUName node) (wrap_i64 (n_GPUVram node)) (nd_QoS data) (nd_Staking data)
        (nd_HealthBase data) (nd_HealthUpdatedAt data)]> (db_network_nodes d) |>);;
    mret (old, node).

(** [SyncNodeCapabilities], src/service/node_capabilities.go 36-125 *)
Definition SyncNodeCapabilities (ix : index) (address : string) (c : NodeCapabilities) : M (result unit * index) :=
  let c := mkCapabilities (NormalizeGPUName (nc_GPUName c)) (nc_GPUVram c) (nc_MajorVersion c) (nc_MinorVersion c)
             (nc_PatchVersion c) (nc_ModelFiles c) in
  updated ← ExecuteNodeStateUpdate ix [address] (transaction (capabilitiesTx address c));
  let '(outcome, ix') := updated in
  match outcome with
  | Err e => mret (Err e, ix')
  | Ok (old, node) =>
      rest ← try_ (
        (if negb (bool_decide (nodeNameKey old = nodeNameKey node)) && IsNodeStatusActiveForNodeNameCount (n_Status node)
         then ApplyNodeNameCountDeltaToCache old (-1);; ApplyNodeNameCountDeltaToCache node 1 else mret tt);;
        (if 0 <? n_DelegatorShare node then ask (λ n, env_snapshot n address) else mret tt);;
        current ← GetNodeByAddress address;
        EnsureRequiredModelDownloads current);
      mret (rest, ix')
  end.

(** [SyncNodeCapabilities], src/api/v2/nodes/capabilities.go 41-58, after the signature
    check *)
Definition HandleNodeCapabilities (ix : index) (address gpuName : string) (gpuVram : Z) (version : string)
    (modelFiles : option (list ModelFileEntry)) : M (result unit * index) :=
  match modelFiles with
  | None => fail (ErrMsg "model_files required")
  | Some entries =>
      files ← lift (BuildHeldModelFiles entries);
      parsed ← lift (ParseNodeVersion version);
      let '(major, minor, patch) := parsed in
      SyncNodeCapabilities ix address (mkCapabilities (NormalizeGPUName gpuName) gpuVram major minor patch files)
  end.

(** [UpdateNodeVersion], src/api/v1/nodes/version.go 46-76, after the signature check: the
    number of rows *)
Definition UpdateNodeVersion (ix : index) (address version : string) : M (result unit * index) :=
  parsed ← lift (splitVersion version);
  let '(major, minor, patch) := parsed in
  updated ← ExecuteNodeStateUpdate ix [address] (
    db_exec (λ d, Ok (exists_where (λ n, String.eqb (n_Address n) address) (db_nodes d),
      d <| db_nodes := update_where (λ n, String.eqb (n_Address n) address)
        (λ n, n <| n_MajorVersion := major |> <| n_MinorVersion := minor |> <| n_PatchVersion := patch |>) (db_nodes d) |>)));
  let '(outcome, ix') := updated in
  match outcome with
  | Err e => mret (Err e, ix')
  | Ok affected => mret (if (affected : bool) then Ok tt else Err (ErrMsg "Node not found"), ix')
  end.

(** ** Files and memory *)

(** [AddModelID], src/api/v1/nodes/add_model_id.go 44-69, after the signature check *)
Definition AddModelID (ix : index) (address : string) (entry : ModelFileEntry) : M (result unit * index) :=
  node ← GetNodeByAddress address;
  if bool_decide (n_Status node = NodeStatusQuit) then fail (ErrMsg "Illegal node status")
  else
    files ← lift (BuildHeldModelFiles [entry]);
    match files with
    | file :: _ => AddNodeModelFile ix address file
    | [] => fail (ErrPanic "index out of range")
    end.

(** [buildInMemoryModelReport], src/api/v2/nodes/in_memory_model.go 74-111 *)
Definition buildInMemoryModelReport (model : InMemoryModel) : result NodeInMemoryModelReport :=
  match unhex_bytes (mi_ModelCacheHash model) with
  | None => Err (ErrMsg "model_cache_hash is not hex")
  | Some hashBytes =>
      match Hash32FromBytes hashBytes with
      | Err _ => Err (ErrMsg "model_cache_hash must be 32 bytes")
      | Ok cacheHash =>
          match Decode (mi_ModelCacheConfig model) with
          | None => Err (ErrMsg "model_cache_config is not valid JSON")
          | Some cacheConfig =>
              match CanonicalJSON (generic cacheConfig) with
              | Err e => Err e
              | Ok canonicalConfig =>
                  if negb (bool_decide (sha256 canonicalConfig = cacheHash)) then Err (ErrMsg "model_cache_hash does not match model_cache_config")
                  else if bool_decide (mi_ModelFiles model = []) then Err (ErrMsg "model_files is empty")
                  else match BuildHeldModelFiles (mi_ModelFiles model) with
                       | Err e => Err e
                       | Ok files => Ok (mkMemoryReport cacheHash files canonicalConfig (mi_ExecutionDType model))
                       end
              end
          end
      end
  end.

(** [UpdateNodeInMemoryModel], src/api/v2/nodes/in_memory_model.go 51-70, after the
    signature check *)
Definition UpdateNodeInMemoryModel (ix : index) (address : string) (model : option InMemoryModel) : M (result unit * index) :=
  report ← lift (match model with
                 | None => Ok None
                 | Some m => match buildInMemoryModelReport m with Ok r => Ok (Some r) | Err e => Err e end
                 end);
  SetNodeInMemoryModel ix address report.

End requests.
(** ** A version report leaves the counters behind *)

Section stranded.
Context {E : Env}.

(** The counters of node names are unchanged. *)
Definition counts_kept (w w' : World) : Prop := db_name_counts (w_db w') = db_name_counts (w_db w).
#[local] Instance counts_kept_rel : WorldRel counts_kept.
Proof. split; unfold counts_kept; intros; simpl in *; congruence. Qed.

(** [m] fails and leaves the database as [d]. *)
Definition refused {A} (d : DB) (r : result A) (w : World) : Prop := is_ok r = false ∧ w_db w = d.

Lemma refused_transaction {A} (m : M A) w :
  (∀ w1, w_db w1 = w_db w → wp m (λ r _, is_ok r = false) w1) → wp (transaction m) (refused (w_db w)) w.
Proof.
  intros Hm. apply wp_transaction; [by split|]. eapply wp_mono; [by apply Hm|]. by intros [a|e] w1 H.
Qed.

(** A computation after one that keeps the counters still finds its entry missing. *)
Lemma missing_after {A B} (m : M A) (k : A → M B) K w : frames counts_kept m →
  db_name_counts (w_db w) !! K = None →
  (∀ a w1, db_name_counts (w_db w1) !! K = None → fst (m w) = Ok a → wp (k a) (λ r _, is_ok r = false) w1) →
  wp (m ≫= k) (λ r _, is_ok r = false) w.
Proof.
  intros Hm HK Hk. apply wp_bind. specialize (Hm w). unfold wp in *. destruct (m w) as [[a|e] w1]; simpl in *; [|done].
  apply Hk; [|done]. by rewrite Hm.
Qed.

Lemma decrement_missing node w : db_name_counts (w_db w) !! nodeNameKey node = None →
  wp (DecrementNodeNameCountTx node) (λ r _, is_ok r = false) w.
Proof.
  intros HK. unfold DecrementNodeNameCountTx. cbv zeta. apply wp_bind, wp_db_exec; [done|]. rewrite HK.
  apply wp_bind, wp_try. unfold db_first. apply wp_db_exec; [done|]. simpl. by rewrite HK.
Qed.

Lemma updateStatus_result node f w : ∀ a, fst (nodeUpdateStatus node f w) = Ok a → a = f node.
Proof.
  intros a. unfold nodeUpdateStatus. destruct (n_ID node =? 0); [done|].
  unfold mbind, M_bind, try_. destruct (db_exec _ w) as [[u|e] w1]; simpl; congruence.
Qed.

Lemma counts_updateStatus node f : frames counts_kept (nodeUpdateStatus node f).
Proof. unfold nodeUpdateStatus. keep_tac. Qed.

(** Every attempt fails and leaves the node as it was found, so all of them do. *)
Lemma attempts_refused (P : Node → Prop) d attempt inMemory :
  (∀ node w, P node → w_db w = d → wp (attempt node) (refused d) w) →
  (∀ node w, P node → w_db w = d → wp (nodeSyncStatus (inMemory node)) (λ r w', w_db w' = d ∧ ∀ n, r = Ok n → P n) w) →
  ∀ k last node w, P node → w_db w = d → wp (attempts k last node attempt inMemory) (refused d) w.
Proof.
  intros Ha Hs k. induction k as [|k IH]; intros last node w HP Hw; cbn [attempts]; [by split|].
  apply wp_bind, wp_try. eapply wp_mono; [by apply Ha|]. intros [u|e] w1 [H1 Hw1]; [done|].
  case_bool_decide; [|by split]. apply wp_bind. eapply wp_mono; [by apply Hs|].
  intros [n|e'] w2 [Hw2 Hn]; [|by split]. apply IH; auto.
Qed.

(** An available node whose row is found by its address and by its id, and whose tuple
    has no counter. *)
Record uncounted (address : string) (node : Node) (d : DB) : Prop := {
  uc_row : find_first (λ n, String.eqb address "" || String.eqb (n_Address n) address) (db_nodes d) = Some node;
  uc_id : find_first (λ n, n_ID n =? n_ID node) (db_nodes d) = Some node;
  uc_status : n_Status node = NodeStatusAvailable;
  uc_count : db_name_counts d !! nodeNameKey node = None
}.

(** What the retries keep of the node in memory. *)
Definition held (node n : Node) : Prop :=
  n_ID n = n_ID node ∧ n_Status n = NodeStatusAvailable ∧ nodeNameKey n = nodeNameKey node.

Lemma held_sync address node d n w : uncounted address node d → n_ID n = n_ID node → nodeNameKey n = nodeNameKey node →
  w_db w = d → wp (nodeSyncStatus n) (λ r w', w_db w' = d ∧ ∀ n', r = Ok n' → held node n') w.
Proof.
  intros Hd Hid Hk Hw. unfold nodeSyncStatus, db_first. apply wp_bind, wp_db_exec; [done|].
  rewrite Hw, Hid, (uc_id _ _ _ Hd). split; [done|]. intros n' [= <-]. split_and!; [done|apply Hd|exact Hk].
Qed.

Lemma pause_refused address node w : uncounted address node (w_db w) → wp (NodePause address) (refused (w_db w)) w.
Proof.
  intros Hd. unfold NodePause, GetNodeByAddress, db_first. apply wp_bind, wp_db_exec; [by split|].
  rewrite (uc_row _ _ _ Hd). eapply (attempts_refused (held node)); [| |split_and!; [done|apply Hd|done]|done].
  - intros n w1 (Hid & Hst & Hk) Hw. rewrite Hst, <- Hw. apply wp_bind. eapply wp_mono.
    { apply refused_transaction. intros w2 Hw2. eapply (missing_after _ _ (nodeNameKey node)).
      - apply counts_updateStatus.
      - rewrite Hw2, Hw. apply Hd.
      - intros n' w3 H3 ->%updateStatus_result. apply wp_bind. eapply (wp_mono _ (λ r _, is_ok r = false)); [|by intros [] ? ?].
        apply decrement_missing. by rewrite <- Hk in H3. }
    intros [a|e] w2 [H2 Hw2]; [done|by split].
  - intros n w1 (Hid & Hst & Hk). by eapply held_sync.
Qed.

Lemma quit_refused address node w : uncounted address node (w_db w) → wp (NodeQuit address) (refused (w_db w)) w.
Proof.
  intros Hd. unfold NodeQuit, GetNodeByAddress, db_first. apply wp_bind, wp_db_exec; [by split|].
  rewrite (uc_row _ _ _ Hd). apply wp_bind, wp_ask. intros [info|e]; [|by split]. destruct (_ =? 1); [by split|].
  eapply (attempts_refused (held node)); [| |split_and!; [done|apply Hd|done]|done].
  - intros n w1 (Hid & Hst & Hk) Hw. rewrite Hst, <- Hw. apply wp_bind. unfold SetNodeStatusQuit. apply wp_bind. eapply wp_mono.
    { apply refused_transaction. intros w2 Hw2. unfold setNodeStatusQuitTx. cbv zeta. rewrite Hst.
      eapply (missing_after _ _ (nodeNameKey node)); [unfold clearNodeModelState; keep_tac|rewrite Hw2, Hw; apply Hd|].
      intros [] w3 H3 _. eapply (missing_after _ _ (nodeNameKey node)); [apply counts_updateStatus|done|].
      intros n' w4 H4 _. apply wp_bind. eapply (wp_mono _ (λ r _, is_ok r = false)); [|by intros [] ? ?].
      apply decrement_missing. by rewrite Hk. }
    intros [a|e] w2 [H2 Hw2]; [done|by split].
  - intros n w1 (Hid & Hst & Hk). rewrite Hst. by eapply held_sync.
Qed.

(** The index is only read from the database. *)
Definition db_kept (w w' : World) : Prop := w_db w' = w_db w.
#[local] Instance db_kept_rel : WorldRel db_kept.
Proof. split; unfold db_kept; intros; simpl in *; congruence. Qed.

Lemma kept_refreshAll addresses : ∀ ix, frames db_kept (refreshAll ix addresses).
Proof.
  induction addresses as [|a l IH]; intros ix; cbn [refreshAll]; [apply frames_ret, _|].
  apply frames_bind; [apply _| |intros; apply IH].
  apply frames_try. unfold refreshNodeIndexLocked. keep_tac.
Qed.

Lemma unique_id (nodes : list Node) node : NoDup (map n_ID nodes) → In node nodes →
  find_first (λ n, n_ID n =? n_ID node) nodes = Some node.
Proof.
  induction nodes as [|n nodes IH]; intros Hnd Hin; [done|]. simpl in *. apply NoDup_cons in Hnd as [Hn Hnd].
  destruct Hin as [->|Hin]; [by rewrite Z.eqb_refl|]. destruct (Z.eqb_spec (n_ID n) (n_ID node)) as [Heq|]; [|auto].
  destruct Hn. rewrite Heq. apply list_elem_of_In, in_map, Hin.
Qed.

(** A reported version, in the row. *)
Definition withVersion (version : Z * Z * Z) (n : Node) : Node :=
  n <| n_MajorVersion := version.1.1 |> <| n_MinorVersion := version.1.2 |> <| n_PatchVersion := version.2 |>.

Lemma wp_UpdateNodeVersion ix address version v w : splitVersion version = Ok v →
  wp (UpdateNodeVersion ix address version) (λ r w1, ∀ ix', r = Ok (Ok tt, ix') →
    w_db w1 = (w_db w) <| db_nodes := update_where (λ n, String.eqb (n_Address n) address) (withVersion v) (db_nodes (w_db w)) |>) w.
Proof.
  intros Hv. destruct v as [[major minor] patch]. unfold UpdateNodeVersion. rewrite Hv. apply wp_bind, wp_lift. unfold ExecuteNodeStateUpdate.
  apply wp_bind, wp_bind, wp_try. apply wp_db_exec.
  - apply wp_bind. eapply wp_mono; [apply kept_refreshAll|]. by intros [ix1|e] w1 _.
  - apply wp_bind. eapply wp_mono; [apply kept_refreshAll|]. intros [ix1|e] w1 H1; [|done].
    intros ix' _. exact H1.
Qed.

(** C35 (error): a version report does not move the counter of active nodes with its name,
    as a report of capabilities does.  When no other active node has the new name, the report succeeds
    and leaves an available node without a counter: from then on pausing and quitting fail, whatever
    accesses fail, and change nothing. *)
Theorem version_update_strands ix address version v node w :
  address ≠ "" → splitVersion version = Ok v → NoDup (map n_ID (db_nodes (w_db w))) →
  find_first (λ n, String.eqb (n_Address n) address) (db_nodes (w_db w)) = Some node →
  n_Status node = NodeStatusAvailable → db_name_counts (w_db w) !! nodeNameKey (withVersion v node) = None →
  wp (UpdateNodeVersion ix address version) (λ r w1, ∀ ix', r = Ok (Ok tt, ix') →
    wp (NodePause address) (refused (w_db w1)) w1 ∧ wp (NodeQuit address) (refused (w_db w1)) w1) w.
Proof.
  intros Ha Hv Hnd Hn Hst HK. eapply wp_mono; [by apply wp_UpdateNodeVersion|]. intros r w1 H1 ix' Hr.
  assert (Hu : uncounted address (withVersion v node) (w_db w1)).
  { rewrite (H1 ix' Hr). split; [| |exact Hst|exact HK].
    - simpl. apply String.eqb_neq in Ha. rewrite Ha. simpl. rewrite find_update_found by done. by rewrite Hn.
    - apply find_first_Some in Hn as [Hin Hp]. apply (unique_id (update_where _ _ _) (withVersion v node)); [by rewrite map_update_same|].
      apply list_elem_of_In, elem_of_update. exists node. by rewrite Hp. }
  split; [by eapply pause_refused|by eapply quit_refused].
Qed.

End stranded.

(** ** Witnesses *)

(** The only active node, counted under its version. *)
Definition counted_world : World :=
  let node := demo_node <| n_Status := NodeStatusAvailable |> <| n_CurrentTaskIDCommitment := None |> in
  mkWorld (empty_db <| db_nodes := [node] |> <| db_name_counts := {[ nodeNameKey node := 1 ]} |>) empty_caches 0 0.

#[local] Notation stranded_run := (UpdateNodeVersion (E:=demo_env) ∅ "0xn" "9.9.9" counted_world).
Definition stranded_index : index := match fst stranded_run with Ok (_, ix) => ix | Err _ => ∅ end.

Lemma version_update_strands_witness :
  (fst (NodePause (E:=demo_env) "0xn" counted_world) = Ok tt ∧ fst stranded_run = Ok (Ok tt, stranded_index)) ∧
  wp (NodePause (E:=demo_env) "0xn") (refused (w_db (snd stranded_run))) (snd stranded_run) ∧
  wp (NodeQuit (E:=demo_env) "0xn") (refused (w_db (snd stranded_run))) (snd stranded_run).
Proof.
  split; [split; vm_compute; reflexivity|].
  pose proof (version_update_strands (E:=demo_env) ∅ "0xn" "9.9.9" (9, 9, 9)
    (demo_node <| n_Status := NodeStatusAvailable |> <| n_CurrentTaskIDCommitment := None |>) counted_world) as H.
  specialize (H ltac:(discriminate) ltac:(vm_compute; reflexivity) ltac:(apply NoDup_singleton) ltac:(vm_compute; reflexivity)
    ltac:(vm_compute; reflexivity) ltac:(vm_compute; reflexivity)).
  unfold wp at 1 in H. apply (H stranded_index). vm_compute. reflexivity.
Defined.
End NodeRequests.
