(* ===== verification/InventoryRuns.v ===== *)
(** * The inventory under all requests

    Any sequence of joins, reports, departures, changes of the whitelist and rounds
    of the distribution keeps the inventory of model files well formed, and the
    whitelist enforced. *)

From Stdlib Require Import Ascii.
From stdpp Require Import sorting.
From S2P Require Import Prelude Mac Json JsonDecode GoStrings Models Float64 Config Delegation Deadline MaxStaking Store.
From S2P Require Import ModelFiles TaskModels ModelWhitelist Vesting Qos NodeState NodeNames NodeIndex NodeModels NodeInventory WhitelistEnforcement.
From S2P Require Import ChainEvents Matching ModelDistribution DistributionChoice NodeRequests.

Module InventoryRuns.
Import Mac ModelFiles TaskModels ModelWhitelist Vesting Qos NodeState NodeNames NodeIndex NodeModels NodeInventory WhitelistEnforcement.
Import Matching ModelDistribution NodeRequests.

Section runs.
Context {E : Env}.

(** ** What a request may do *)

(** The part of the world the inventory and the whitelist are about *)
Definition part (w : World) :=
  (c_model_whitelist (w_cache w), stock (w_db w), db_loaded_models (w_db w), db_model_whitelist (w_db w)).
Definition kept (w w' : World) : Prop := part w' = part w.

#[local] Instance kept_rel : WorldRel kept.
Proof.
  split; unfold kept, part; [done|congruence|done|]. intros w w1 s d [= Hc _ _ _] _. simpl. by rewrite Hc.
Qed.

(** The inventory stays well formed; the whitelist and its sets stay; and what they
    forbid stays away. *)
Record tidy (w w' : World) : Prop := {
  td_inventory : inventory (w_db w) → inventory (w_db w');
  td_sets : c_model_whitelist (w_cache w') = c_model_whitelist (w_cache w);
  td_table : db_model_whitelist (w_db w') = db_model_whitelist (w_db w);
  td_enforced : ∀ sets, modelWhitelistEnforced = true → c_model_whitelist (w_cache w) = Some sets → inventory (w_db w) →
    enforced sets (w_db w) → enforced sets (w_db w')
}.

#[local] Instance tidy_rel : WorldRel tidy.
Proof.
  split.
  - by split.
  - intros w1 w2 w3 [A1 A2 A3 A4] [B1 B2 B3 B4]. split; [auto|congruence|congruence|].
    intros sets He Hc Hi Hen. apply B4; [done|by rewrite A2|auto|by apply A4].
  - by split.
  - intros w w1 s d [A1 A2 A3 A4] _. by split.
Qed.

Lemma kept_tidy w w' : kept w w' → tidy w w'.
Proof.
  unfold kept, part, stock. intros [= Hc Hf Hn Hm Hs Hl Hw]. split; [|done|done|].
  - apply inventory_stock. unfold stock. congruence.
  - intros sets _ _ _. apply enforced_holding. unfold holding. congruence.
Qed.

Lemma frames_kept {A} (m : M A) : frames kept m → frames tidy m.
Proof. intros Hm. eapply frames_weaken; [exact Hm|]. apply kept_tidy. Qed.

(** A write of one table of the inventory *)
Lemma frames_tidy_write f :
  (∀ w, w_cache (set_db (f (w_db w)) w) = w_cache w → tidy w (set_db (f (w_db w)) w)) → frames tidy (db_write f).
Proof. intros H. apply frames_db_write; [apply _|]. intros w. by apply H. Qed.

Lemma tidy_fewer_memory p : frames tidy (db_write (λ d, d <| db_in_memory_models := select_where p (db_in_memory_models d) |>)).
Proof.
  apply frames_tidy_write. intros w _. split; [apply inventory_fewer_memory|done|done|].
  intros sets _ _ _ [H1 H2 H3]. split; [done|by apply Forall_select|done].
Qed.

Lemma tidy_fewer_nodes p : frames tidy (db_write (λ d, d <| db_node_models := select_where p (db_node_models d) |>)).
Proof.
  apply frames_tidy_write. intros w _. split; [apply inventory_fewer_nodes|done|done|].
  intros sets _ _ _ [H1 H2 H3]. split; [by apply Forall_select|done|done].
Qed.

Lemma tidy_selections w f : (inventory (w_db w) → inventory ((w_db w) <| db_download_selections := f |>)) →
  tidy w (set_db ((w_db w) <| db_download_selections := f |>) w).
Proof. intros H. split; [done|done|done|]. intros sets _ _ _. by apply enforced_holding. Qed.

Lemma tidy_fewer_selections p : frames tidy (db_write (λ d, d <| db_download_selections := select_where p (db_download_selections d) |>)).
Proof. apply frames_tidy_write. intros w _. apply tidy_selections, inventory_fewer_selections. Qed.

(** ** Reports of files *)

(** Rows come from the given hashes only. *)
Definition adds (hs : list (list Z)) (w w' : World) : Prop :=
  (∀ m, m ∈ db_node_models (w_db w') → m ∈ db_node_models (w_db w) ∨ nm_ModelFileHash m ∈ hs) ∧
  (c_model_whitelist (w_cache w'), db_in_memory_models (w_db w'), db_loaded_models (w_db w'), db_model_whitelist (w_db w')) =
  (c_model_whitelist (w_cache w), db_in_memory_models (w_db w), db_loaded_models (w_db w), db_model_whitelist (w_db w)).

#[local] Instance adds_rel hs : WorldRel (adds hs).
Proof.
  split; unfold adds.
  - intros w. split; [by left|done].
  - intros w1 w2 w3 [A1 A2] [B1 B2]. split; [|congruence]. intros m [Hm|Hm]%B1; [by apply A1|by right].
  - intros w s d _. split; [by left|done].
  - intros w w1 s d [_ [= Hc _ _ _]] _. split; [by left|]. simpl. by rewrite Hc.
Qed.

Lemma adds_of_kept {A} hs (m : M A) : frames kept m → frames (adds hs) m.
Proof.
  intros Hm. eapply frames_weaken; [exact Hm|]. unfold kept, part, stock, adds. intros w w' [= Hc Hf Hn Hm' Hs Hl Hw].
  split; [rewrite Hn; by left|congruence].
Qed.

Lemma frames_lift_bind {A B} P `{!WorldRel P} (r : result A) (k : A → M B) :
  (∀ x, r = Ok x → frames P (k x)) → frames P (x ← lift r; k x).
Proof.
  intros H w. wp_step. wp_step. destruct r as [x|e]; [by apply H|]. apply wr_refl.
Qed.

Lemma decodeHashes_eq hs l : decodeHashes hs = Ok l → l = hs.
Proof.
  revert l. induction hs as [|h hs IH]; intros l; simpl; [by intros [= <-]|]. unfold Hash32FromBytes.
  destruct (Nat.eqb _ _); [|done]. destruct (decodeHashes hs) as [l'|]; [|done]. intros [= <-]. f_equal. by apply IH.
Qed.

Lemma insertNodeModels_elem rows : ∀ table t m, insertNodeModels table rows = Some t → m ∈ t →
  m ∈ table ∨ nm_ModelFileHash m ∈ map nm_ModelFileHash rows.
Proof.
  induction rows as [|r rows IH]; intros table t m; simpl; [intros [= <-]; by left|].
  destruct (existsb _ _); [done|]. intros Ht Hm. destruct (IH _ _ _ Ht Hm) as [Hin|Hin]; [|right; set_solver].
  apply elem_of_app in Hin as [Hin|Hin%list_elem_of_singleton]; [by left|right]. subst m. simpl. set_solver.
Qed.

Lemma adds_Create hs rows : (∀ h, h ∈ map nm_ModelFileHash rows → h ∈ hs) → frames (adds hs) (CreateNodeModels rows).
Proof.
  intros H. unfold CreateNodeModels. apply frames_db_exec; [apply _|]. intros w a d.
  destruct (insertNodeModels _ rows) as [t|] eqn:Ht; [|done]. intros [= _ <-]. split; [|done]. simpl.
  intros m Hm. destruct (insertNodeModels_elem _ _ _ _ Ht Hm); auto.
Qed.

Lemma adds_fewer hs p : frames (adds hs) (db_write (λ d, d <| db_node_models := select_where p (db_node_models d) |>)).
Proof. apply frames_db_write; [apply _|]. intros w. split; [|done]. intros m [Hm _]%elem_of_select. by left. Qed.

Lemma adds_selections hs f : frames (adds hs) (db_write (λ d, d <| db_download_selections := f d |>)).
Proof. apply frames_db_write; [apply _|]. intros w. split; [by left|done]. Qed.

Lemma adds_prune hs address ex so : frames (adds hs) (pruneUncoveredSelections address ex so).
Proof.
  unfold pruneUncoveredSelections, GetNodeModelDownloadSelectionsByNodeAddress, DeleteNodeModelDownloadSelectionsByIDs.
  apply frames_bind; [apply _|apply frames_db_read, _|]. intros. apply frames_bind; [apply _|apply frames_lift, _|]. intros.
  case_bool_decide; [apply frames_ret, _|]. apply (adds_selections hs (λ d, select_where _ (db_download_selections d))).
Qed.

Lemma wp_replace_adds address files w :
  wp (replaceNodeModelFiles address files) (λ _ w',
    adds (match fst (filterWhitelistedModelFiles files w) with Ok kept => map mf_ModelFileHash kept | Err _ => [] end) w w') w.
Proof.
  unfold replaceNodeModelFiles. wp_step. unfold wp at 1. rewrite filterWhitelisted_world.
  destruct (fst (filterWhitelistedModelFiles files w)) as [kept|e]; [|apply wr_refl]. generalize w. clear w.
  change (frames (adds (map mf_ModelFileHash kept)) (UpsertModelFiles kept;;
    reportedHashes ← lift (modelFileHashes kept);
    existingModels ← GetNodeModelsByNodeAddress address;
    existingHashes ← lift (decodeHashes (map nm_ModelFileHash existingModels));
    DeleteNodeModelsByFileHashes address (select_where (λ h, negb (bool_decide (h ∈ (list_to_set reportedHashes : gset (list Z))))) existingHashes);;
    (let missing := map (NewNodeModel address) (select_where (λ h, negb (bool_decide (h ∈ (list_to_set existingHashes : gset (list Z))))) reportedHashes) in
     (if bool_decide (missing = []) then mret tt else CreateNodeModels missing);;
     sourceHashes ← lift (decodeHashes (map mf_ModelFileSourceHash kept));
     pruneUncoveredSelections address (list_to_set reportedHashes) (list_to_set sourceHashes)))).
  apply frames_bind; [apply _| |].
  { unfold UpsertModelFiles. case_bool_decide; [apply frames_ret, _|]. apply frames_db_write; [apply _|]. intros w. split; [by left|done]. }
  intros _. apply frames_lift_bind; [apply _|]. intros reported ->%decodeHashes_eq.
  apply frames_bind; [apply _|apply frames_db_read, _|]. intros existing.
  apply frames_bind; [apply _|apply frames_lift, _|]. intros hashes.
  apply frames_bind; [apply _| |].
  { unfold DeleteNodeModelsByFileHashes. case_bool_decide; [apply frames_ret, _|]. apply adds_fewer. }
  intros _. cbn zeta. apply frames_bind; [apply _| |].
  { case_bool_decide; [apply frames_ret, _|]. apply adds_Create. rewrite map_map. intros h (h' & -> & Hin)%list_elem_of_fmap. simpl.
    by apply elem_of_select in Hin as [Hin _]. }
  intros _. apply frames_bind; [apply _|apply frames_lift, _|]. intros. apply adds_prune.
Qed.

Lemma tidy_replace address files : Forall file_ok files → NoDup (map mf_ModelFileHash files) →
  frames tidy (replaceNodeModelFiles address files).
Proof.
  intros Hf Hn w. pose proof (wp_replace_adds address files w) as Hadds. unfold wp in *. destruct Hadds as [Hrows [= Hc Hm Hl Hw]].
  split; [|done|done|].
  - intros Hd. by destruct (wp_replaceNodeModelFiles address files w Hd Hf Hn).
  - intros sets He Hcache Hd [H1 H2 H3]. split; [|by rewrite Hm|by rewrite Hl]. apply Forall_forall. intros m Hin.
    destruct (Hrows m Hin) as [Hold|Hnew]; [rewrite Forall_forall in H1; by apply H1|].
    destruct (fst (filterWhitelistedModelFiles files w)) as [kept|e] eqn:Hk; [|set_solver].
    apply filterWhitelisted_sub in Hk as Hsub. unfold filterWhitelistedModelFiles in Hk. rewrite He in Hk. cbn [negb] in Hk.
    apply (keepWhitelisted_permitted sets w files Hcache) in Hk. apply list_elem_of_fmap in Hnew as (f & -> & Hin').
    rewrite Forall_forall in Hk. rewrite Forall_forall in Hf. exists f. split; [|split; [done|auto]].
    apply Hf. by apply (sublist_subseteq _ _ Hsub).
Qed.

(** ** Selections *)

Lemma DecodeHashList_hashes data l : DecodeHashList data = Ok l → Forall is_hash l.
Proof.
  unfold DecodeHashList. destruct (Nat.eqb_spec (length data mod 32) 0) as [Hm|]; [|done]. intros [= <-]. unfold chunk.
  assert (H : ∀ fuel (b : list Z), (length b mod 32 = 0)%nat → Forall is_hash (chunk_fuel fuel 32 b)).
  { induction fuel as [|fuel IH]; intros b Hb; [constructor|]. destruct b as [|x b]; [constructor|].
    assert (Hlen : (32 ≤ length (x :: b))%nat).
    { destruct (decide (length (x :: b) < 32)%nat) as [Hlt|]; [|lia]. rewrite Nat.mod_small in Hb by done. simpl in Hb. lia. }
    change (Forall is_hash (take 32 (x :: b) :: chunk_fuel fuel 32 (drop 32 (x :: b)))). constructor.
    - unfold is_hash. rewrite length_take. lia.
    - apply IH. rewrite length_drop. replace (length (x :: b)) with (1 * 32 + (length (x :: b) - 32))%nat in Hb by lia.
      rewrite Nat.add_comm, Nat.Div0.mod_add in Hb. done. }
  by apply H.
Qed.

Lemma selection_new exact source a vram t1 t2 : Forall is_hash exact → Forall is_hash source →
  selection_ok (NewNodeModelDownloadSelection exact source a vram t1 t2).
Proof.
  intros He Hs. split; [|done]. exists (SortedUniqueHashes exact), (SortedUniqueHashes source). split.
  - unfold RequiredHashes. simpl. by rewrite !DecodeHashList_Encode.
  - change (DistributionKey exact source = DistributionKey (SortedUniqueHashes exact) (SortedUniqueHashes source)).
    unfold DistributionKey, RequiredModelFilesHash, EncodeHashList. f_equal. f_equal. apply SortedUniqueHashes_canonical.
    intros h. rewrite !elem_of_app. destruct (SortedUniqueHashes_spec exact) as [_ ->]. destruct (SortedUniqueHashes_spec source) as [_ ->]. done.
Qed.

Lemma inventory_create d s : inventory d → selection_ok s →
  existsb (λ x, isActive x && isActive s && bool_decide (selectionKey x = selectionKey s)) (db_download_selections d) = false →
  inventory (d <| db_download_selections := db_download_selections d ++ [s <| ds_ID := next_id ds_ID (db_download_selections d) |>] |>).
Proof.
  intros Hd Hs He. apply inventory_selections; [done| | |].
  - apply Forall_app. split; [apply Hd|]. apply Forall_singleton. exact Hs.
  - rewrite map_app. apply NoDup_app. split; [apply Hd|]. split; [|apply NoDup_singleton].
    intros i (x & -> & Hx)%list_elem_of_fmap Hi%list_elem_of_singleton. simpl in Hi.
    pose proof (next_id_fresh ds_ID _ _ Hx). lia.
  - unfold select_where. rewrite List.filter_app, map_app. apply NoDup_app. split; [apply Hd|].
    change (isActive (s <| ds_ID := next_id ds_ID (db_download_selections d) |>)) with (isActive s). cbn [List.filter].
    change (isActive (s <| ds_ID := next_id ds_ID (db_download_selections d) |>)) with (isActive s).
    destruct (isActive s) eqn:Ha; [|split; [set_solver|constructor]]. split; [|apply NoDup_singleton].
    intros k (x & -> & Hx)%list_elem_of_fmap Hk%list_elem_of_singleton. apply elem_of_select in Hx as [Hx Hxa].
    assert (Ht : existsb (λ x, isActive x && true && bool_decide (selectionKey x = selectionKey s)) (db_download_selections d) = true); [|congruence].
    apply existsb_exists. exists x. split; [by apply list_elem_of_In|]. rewrite Hxa. simpl. by apply bool_decide_eq_true.
Qed.

Lemma tidy_emit exact source files a vram ty t secs : Forall is_hash exact → Forall is_hash source →
  frames tidy (emitModelDownloadForNode exact source files a vram ty t secs).
Proof.
  intros He Hs. unfold emitModelDownloadForNode, CreateNodeModelDownloadSelection, emitEvent.
  apply frames_transaction; [apply _|]. apply frames_bind; [apply _| |intros _; apply frames_kept; keep_tac].
  apply frames_db_exec; [apply _|]. intros w x d. destruct (existsb _ _) eqn:Hex; [done|]. intros [= _ <-].
  apply tidy_selections. intros Hd.
  apply (inventory_create (w_db w) (NewNodeModelDownloadSelection exact source a vram t (t + secondsDuration secs)));
    [done|by apply selection_new|exact Hex].
Qed.

Lemma inventory_map_selections d g : inventory d → (∀ s, selection_ok s → selection_ok (g s)) →
  (∀ s, ds_ID (g s) = ds_ID s) → (∀ s, selectionKey (g s) = selectionKey s) → (∀ s, isActive (g s) = true → isActive s = true) →
  inventory (d <| db_download_selections := map g (db_download_selections d) |>).
Proof.
  intros Hd Hok Hid Hkey Hact. apply inventory_selections; [done| | |].
  - apply Forall_map. eapply Forall_impl; [apply Hd|]. done.
  - rewrite map_map, (map_ext _ ds_ID) by done. apply Hd.
  - eapply sublist_NoDup; [apply (inv_active _ Hd)|]. generalize (db_download_selections d) as l. unfold select_where.
    induction l as [|s l IH]; [done|]. simpl. specialize (Hact s). destruct (isActive (g s)); simpl.
    + rewrite Hact by done. simpl. rewrite Hkey. by constructor.
    + destruct (isActive s); simpl; [by constructor|done].
Qed.

Lemma tidy_Complete ids : frames tidy (CompleteNodeModelDownloadSelections ids).
Proof.
  unfold CompleteNodeModelDownloadSelections. case_bool_decide; [apply frames_ret, _|].
  apply frames_tidy_write. intros w _. apply tidy_selections. intros Hd. apply inventory_map_selections; [done|..];
    intros s; destruct (bool_decide (ds_ID s ∈ ids) && isPending s) eqn:Hb; try done.
  apply andb_true_iff in Hb as [_ Hp%bool_decide_eq_true]. intros [Hk Ha]. split; [exact Hk|]. simpl. rewrite Ha, Hp. done.
Qed.

Lemma tidy_Expire t : frames tidy (ExpireNodeModelDownloadSelections t).
Proof.
  unfold ExpireNodeModelDownloadSelections. apply frames_tidy_write. intros w _. apply tidy_selections. intros Hd.
  apply inventory_map_selections; [done|..]; intros s; unfold expireSelection; destruct (isPending s && (ds_Deadline s <? t)); try done.
  intros [Hk Ha]. by split.
Qed.

(** ** The distribution *)

Definition demand_ok (d : modelDemand) : Prop := Forall is_hash (de_exact d) ∧ Forall is_hash (de_source d).

Lemma demandKeyOf_ok task key exact source : modelDemandKeyOf task = Ok (Some (key, exact, source)) →
  Forall is_hash exact ∧ Forall is_hash source.
Proof.
  unfold modelDemandKeyOf. destruct (DecodeHashList _) as [e|] eqn:He; [|done]. destruct (DecodeHashList (t_RequiredModelFileSourceHashes task)) as [s|] eqn:Hs; [|done].
  destruct (_ && _); [done|]. intros [= _ <- <-]. split; by eapply DecodeHashList_hashes.
Qed.

Lemma alterDemand_ok key f ds : Forall demand_ok ds → (∀ d, demand_ok d → demand_ok (f d)) → Forall demand_ok (alterDemand key f ds).
Proof. intros H Hf. unfold alterDemand. apply Forall_map. eapply Forall_impl; [exact H|]. intros d Hd. simpl. case_bool_decide; auto. Qed.

Lemma foldTasks_inv (P : modelDemand → Prop) step tasks :
  (∀ t, t ∈ tasks → ∀ ds ds', step t ds = Ok ds' → Forall P ds → Forall P ds') →
  ∀ ds ds', foldTasks step tasks ds = Ok ds' → Forall P ds → Forall P ds'.
Proof.
  induction tasks as [|t tasks IH]; intros Hstep ds ds'; simpl; [by intros [= <-]|].
  destruct (step t ds) as [ds1|] eqn:H1; [|done]. intros H2 Hd. eapply IH; [set_solver|exact H2|].
  eapply (Hstep t); [set_solver|done..].
Qed.

Lemma addDemandTask_ok ws t ds ds' : addDemandTask ws t ds = Ok ds' → Forall demand_ok ds → Forall demand_ok ds'.
Proof.
  unfold addDemandTask. destruct (modelDemandKeyOf t) as [[[[key e] s]|]|] eqn:Hk; [|by intros [= <-]|done].
  apply demandKeyOf_ok in Hk as Hok. intros [= <-] Hd. apply alterDemand_ok.
  - destruct (demandOf key ds); [done|]. apply Forall_app. split; [done|]. by apply Forall_singleton.
  - intros d [H1 H2]. split; repeat case_match; done.
Qed.

Lemma addCompletedTask_ok t ds ds' : addCompletedTask t ds = Ok ds' → Forall demand_ok ds → Forall demand_ok ds'.
Proof.
  unfold addCompletedTask. destruct (f64_le _ _); [by intros [= <-]|].
  destruct (modelDemandKeyOf t) as [[[[key e] s]|]|]; [|by intros [= <-]|done]. intros [= <-] Hd. by apply alterDemand_ok.
Qed.

Lemma wp_collect ws w : wp (collectModelDemands ws) (λ r w', w_db w' = w_db w ∧ w_cache w' = w_cache w ∧ ∀ ds, r = Ok ds → Forall demand_ok ds) w.
Proof.
  unfold collectModelDemands, getDemandTasks, getCompletedTasksInWindow. wp_step. wp_step; [done|]. wp_step. wp_step.
  destruct (foldTasks (addDemandTask ws) _ []) as [ds|] eqn:H1; [|done]. wp_step. wp_step; [done|]. wp_step.
  split; [done|]. split; [done|]. intros ds' H2. eapply (foldTasks_inv demand_ok addCompletedTask); [intros; by eapply addCompletedTask_ok|exact H2|].
  eapply (foldTasks_inv demand_ok (addDemandTask ws)); [intros; by eapply addDemandTask_ok|exact H1|constructor].
Qed.

(** The demand queries do not select require_linux_cuda: no group of demands requires Linux, so a node without it counts
    as holding, and is asked to download, the files of tasks it can never run. *)
Definition any_platform (d : modelDemand) : Prop := dk_requireLinuxCuda (de_key d) = false.

Lemma any_platform_demand ws t ds ds' : addDemandTask ws (demandColumns t) ds = Ok ds' → Forall any_platform ds → Forall any_platform ds'.
Proof.
  unfold addDemandTask. destruct (modelDemandKeyOf _) as [[[[key e] s]|]|] eqn:Hk; [|by intros [= <-]|done].
  assert (Hkey : dk_requireLinuxCuda key = false).
  { revert Hk. unfold modelDemandKeyOf. repeat case_match; try done. by intros [= <- _ _]. }
  intros [= <-] Hd. unfold alterDemand. apply Forall_map. eapply (Forall_impl any_platform).
  - destruct (demandOf key ds); [done|]. apply Forall_app. split; [done|]. by apply Forall_singleton.
  - intros d H. unfold any_platform in *. simpl. repeat case_match; done.
Qed.

Lemma any_platform_completed t ds ds' : addCompletedTask t ds = Ok ds' → Forall any_platform ds → Forall any_platform ds'.
Proof.
  unfold addCompletedTask. destruct (f64_le _ _); [by intros [= <-]|].
  destruct (modelDemandKeyOf t) as [[[[key e] s]|]|]; [|by intros [= <-]|done]. intros [= <-] Hd.
  unfold alterDemand. apply Forall_map. eapply (Forall_impl any_platform); [done|].
  intros d H. unfold any_platform in *. simpl. by case_bool_decide.
Qed.

Theorem demands_ignore_platform ws w :
  wp (collectModelDemands ws) (λ r _, ∀ ds, r = Ok ds → Forall any_platform ds) w.
Proof.
  unfold collectModelDemands, getDemandTasks, getCompletedTasksInWindow. wp_step. wp_step; [done|]. wp_step. wp_step.
  destruct (foldTasks (addDemandTask ws) _ []) as [ds|] eqn:H1; [|done]. wp_step. wp_step; [done|]. wp_step.
  intros ds' H2. eapply (foldTasks_inv any_platform addCompletedTask); [intros; by eapply any_platform_completed|exact H2|].
  eapply (foldTasks_inv any_platform (addDemandTask ws)); [|exact H1|constructor].
  intros t Ht. apply elem_of_map_iff in Ht as (t0 & _ & ->). apply any_platform_demand.
Qed.

Lemma frames_bind_wp {A B} P `{!WorldRel P} (Φ : A → Prop) (m : M A) (k : A → M B) :
  (∀ w, wp m (λ r w', P w w' ∧ ∀ x, r = Ok x → Φ x) w) → (∀ x, Φ x → frames P (k x)) → frames P (x ← m; k x).
Proof.
  intros Hm Hk w. wp_step. eapply wp_mono; [apply Hm|]. intros [x|e] w1 [H1 Hx]; [|done].
  eapply wp_mono; [by apply Hk, Hx|]. intros r w2 H2. by eapply wr_trans.
Qed.

Lemma tidy_requestAll demand files t nodes : demand_ok demand → ∀ state, frames tidy (requestAll demand files t nodes state).
Proof.
  intros [He Hs]. induction nodes as [|n nodes IH]; intros state; cbn [requestAll]; [apply frames_ret, _|].
  apply frames_bind; [apply _|by apply frames_try, tidy_emit|]. intros r. apply IH.
Qed.

Lemma kept_prob node t : frames kept (CalculateNodeSelectingProb node t).
Proof. unfold CalculateNodeSelectingProb. keep_tac. Qed.

Lemma kept_take k nodes : ∀ ws, frames kept (takeWeighted k nodes ws).
Proof.
  induction k as [|k IH]; intros ws; cbn [takeWeighted]; [apply frames_ret, _|].
  apply frames_bind; [apply _|apply frames_ask, _|]. intros [i|]; [|apply frames_ret, _].
  apply frames_bind; [apply _|apply IH|]. intros. apply frames_ret, _.
Qed.

Lemma kept_sample nodes t limit : frames kept (sampleDownloadTargets nodes t limit).
Proof.
  unfold sampleDownloadTargets. cbv zeta. destruct (_ <=? 0); [apply frames_ret, _|].
  apply frames_bind; [apply _|apply frames_map_m; [apply _|intros; apply kept_prob]|]. intros probs. cbv zeta.
  apply frames_bind; [apply _| |intros; apply frames_ret, _]. case_bool_decide; [apply frames_ret, _|apply kept_take].
Qed.

Lemma kept_groups state pool t limit numbers : ∀ sel, frames kept (sampleGroups state pool t limit numbers sel).
Proof.
  induction numbers as [|k numbers IH]; intros sel; cbn [sampleGroups]; [apply frames_ret, _|].
  destruct (_ =? _); [apply frames_ret, _|]. apply frames_bind; [apply _|apply kept_sample|]. intros. apply IH.
Qed.

Lemma kept_select candidates holding state t limit : frames kept (selectDownloadTargetNodes candidates holding state t limit).
Proof. unfold selectDownloadTargetNodes. cbv zeta. case_bool_decide; cbn [negb]; [apply kept_groups|apply kept_sample]. Qed.

Lemma tidy_serve hardware candidates inventories t demand : demand_ok demand → ∀ states,
  frames tidy (serveDemand hardware candidates inventories t states demand).
Proof.
  intros Hd states. unfold serveDemand. cbv zeta. destruct (_ <=? 0); [apply frames_ret, _|].
  apply frames_bind; [apply _|apply frames_kept, kept_select|]. intros sel. case_bool_decide; [apply frames_ret, _|].
  apply frames_bind; [apply _| |].
  { apply frames_kept. unfold loadDemandModelFiles, LoadModelFileEntries, GetModelFiles. keep_tac. }
  intros [files|e]; [|apply frames_ret, _]. apply frames_bind; [apply _|by apply tidy_requestAll|]. intros. apply frames_ret, _.
Qed.

Lemma tidy_serveAll hardware candidates inventories t demands : Forall demand_ok demands → ∀ states,
  frames tidy (serveDemands hardware candidates inventories t states demands).
Proof.
  induction 1 as [|d demands Hd _ IH]; intros states; cbn [serveDemands]; [apply frames_ret, _|].
  apply frames_bind; [apply _|by apply tidy_serve|]. intros. apply IH.
Qed.

Lemma kept_keepNodes nodes : frames kept (keepNodes nodes).
Proof.
  induction nodes as [|n nodes IH]; cbn [keepNodes]; [apply frames_ret, _|]. apply frames_bind; [apply _| |].
  { unfold nodeNameAllowed, IsNodeNameWhitelisted, GetNodeNameActiveCount, ensureNodeNameWhitelistCacheLoaded, ensureNodeNameCountCacheLoaded. keep_tac. }
  intros. apply frames_bind; [apply _|exact IH|]. intros. apply frames_ret, _.
Qed.

Lemma tidy_transitions t : frames tidy (applySelectionStatusTransitions t).
Proof.
  unfold applySelectionStatusTransitions, GetAllNodeModelDownloadSelections.
  apply frames_bind; [apply _|apply frames_db_read, _|]. intros sels. apply frames_bind; [apply _| |intros; apply tidy_Expire].
  destruct (existsb _ _); [|apply frames_ret, _]. apply frames_bind; [apply _|apply frames_db_read, _|]. intros.
  apply frames_bind; [apply _|apply frames_lift, _|]. intros. apply frames_bind; [apply _|apply frames_lift, _|]. intros. apply tidy_Complete.
Qed.

Lemma tidy_cleanup states demands : frames tidy (cleanupSelectionsWithoutDemand states demands).
Proof.
  unfold cleanupSelectionsWithoutDemand, DeleteNodeModelDownloadSelectionsByModelFileHashes,
    DeleteTerminalNodeModelDownloadSelectionsByModelFileHashes. cbv zeta.
  apply frames_bind; [apply _|apply frames_lift, _|]. intros keys. apply frames_bind; [apply _| |intros _].
  - case_bool_decide; [apply frames_ret, _|apply tidy_fewer_selections].
  - case_bool_decide; [apply frames_ret, _|apply tidy_fewer_selections].
Qed.

Lemma tidy_round : frames tidy runModelDistributionRound.
Proof.
  unfold runModelDistributionRound, GetAllNodeModelDownloadSelections, getDownloadCandidateNodes, candidateInventories.
  apply frames_bind; [apply _|apply frames_now, _|]. intros t. cbv zeta. apply frames_bind; [apply _|apply tidy_transitions|].
  intros _. apply (frames_bind_wp _ (Forall demand_ok)).
  { intros w. eapply wp_mono; [apply wp_collect|]. intros r w' (Hd & Hc & H). split; [|done]. apply kept_tidy. unfold kept, part. by rewrite Hd, Hc. }
  intros demands Hok. apply frames_bind; [apply _|apply frames_db_read, _|]. intros sels.
  apply frames_bind; [apply _|apply frames_lift, _|]. intros states. apply frames_bind; [apply _|apply tidy_cleanup|]. intros _.
  case_bool_decide; [apply frames_ret, _|]. apply frames_bind; [apply _|apply frames_db_read, _|]. intros hardware.
  apply frames_bind; [apply _|apply frames_kept; keep_tac|]. intros inventories. apply frames_bind; [apply _| |].
  { apply frames_kept. unfold filterNodesByNodeNamePolicy. destruct (_ && _); [apply frames_ret, _|apply kept_keepNodes]. }
  intros candidates. apply (frames_bind_wp _ (Forall demand_ok)).
  { intros w. apply wp_visit. intros l Hp. split; [exact (wr_tick tidy w)|]. intros x [= <-]. by rewrite Hp. }
  intros order Horder. by apply tidy_serveAll.
Qed.

Lemma configHashes_ok entries exact source : configHashes entries = Ok (exact, source) → Forall is_hash exact ∧ Forall is_hash source.
Proof.
  revert exact source. induction entries as [|e entries IH]; intros exact source; cbn [configHashes]; [intros [= <- <-]; by split; constructor|].
  unfold ModelFileHash, ModelFileSourceHash. destruct (negb _).
  - destruct (entryCanonicalJSON e) as [c|]; [|done]. destruct (configHashes entries) as [[ex so]|]; [|done].
    intros [= <- <-]. destruct (IH ex so eq_refl). split; [|done]. constructor; [apply sha256_length|done].
  - destruct (SourceCanonicalJSON e) as [c|]; [|done]. destruct (configHashes entries) as [[ex so]|]; [|done].
    intros [= <- <-]. destruct (IH ex so eq_refl). split; [done|]. constructor; [apply sha256_length|done].
Qed.

Lemma tidy_requestRequired a held t items : ∀ active, frames tidy (requestRequired a held t items active).
Proof.
  induction items as [|item items IH]; intros active; cbn [requestRequired]; [apply frames_ret, _|].
  apply frames_lift_bind; [apply _|]. intros [[files exact] source] Hf. unfold requiredModelFilesFromConfig in Hf.
  destruct (configHashes _) as [[ex so]|] eqn:Hc; [|done]. injection Hf as _ -> ->. apply configHashes_ok in Hc as [He Hs].
  cbv zeta. destruct (_ || _); [apply IH|]. apply frames_bind; [apply _|by apply tidy_emit|]. intros. apply IH.
Qed.

Lemma tidy_Ensure node : frames tidy (EnsureRequiredModelDownloads node).
Proof.
  unfold EnsureRequiredModelDownloads, GetNodeModelDownloadSelectionsByNodeAddress. destruct (_ && _); [apply frames_ret, _|].
  cbv zeta. case_bool_decide; [apply frames_ret, _|]. apply frames_bind; [apply _|apply frames_db_read, _|]. intros.
  apply frames_bind; [apply _|apply frames_lift, _|]. intros. apply frames_bind; [apply _|apply frames_db_read, _|]. intros.
  apply frames_bind; [apply _|apply frames_lift, _|]. intros. apply frames_bind; [apply _|apply frames_now, _|]. intros. apply tidy_requestRequired.
Qed.

(** ** Requests of nodes *)

Lemma tidy_Clear a : frames tidy (ClearNodeInMemoryModel a).
Proof. apply tidy_fewer_memory. Qed.

Lemma tidy_joinTx node files share delegations total : Forall file_ok files → NoDup (map mf_ModelFileHash files) →
  frames tidy (joinTx node files share delegations total).
Proof.
  intros Hf Hn. unfold joinTx. apply frames_bind; [apply _|apply frames_now, _|]. intros. apply frames_bind; [apply _|apply frames_now, _|].
  intros. apply frames_bind; [apply _|apply frames_kept; unfold saveNode; keep_tac|]. intros n.
  apply frames_bind; [apply _|apply frames_kept; unfold syncNodeDelegationsFromChainTx; keep_tac|]. intros _.
  apply frames_bind; [apply _|by apply tidy_replace|]. intros _. apply frames_bind; [apply _|apply tidy_Clear|]. intros _.
  apply frames_kept. unfold IncrementNodeNameCountTx, emitEvent. keep_tac.
Qed.

Lemma tidy_SetNodeStatusJoin node files : Forall file_ok files → NoDup (map mf_ModelFileHash files) →
  frames tidy (SetNodeStatusJoin node files).
Proof.
  intros Hf Hn. unfold SetNodeStatusJoin. apply frames_bind; [apply _|apply frames_db_read, _|]. intros [|]; [apply frames_fail, _|].
  apply frames_bind; [apply _|apply frames_ask, _|]. intros info. destruct (negb _); [apply frames_fail, _|].
  apply frames_bind; [apply _|apply frames_ask, _|]. intros share. apply frames_bind; [apply _|apply frames_ask, _|]. intros infos.
  apply frames_bind; [apply _|apply frames_lift, _|]. intros [delegations amount].
  apply frames_bind; [apply _|by apply frames_transaction, tidy_joinTx; [apply _|..]|]. intros n.
  apply frames_bind; [apply _|apply frames_kept; unfold ApplyNodeNameCountDeltaToCache; keep_tac|]. intros _.
  apply frames_bind; [apply _|apply frames_kept; unfold applyNodeDelegationsToCache, ChainEvents.changeDelegations; keep_tac|]. intros _.
  apply frames_bind; [apply _|apply frames_kept; unfold ChainEvents.SetDelegatorShare; keep_tac|]. intros _.
  apply frames_bind; [apply _|apply frames_kept; unfold RefreshNodeVestingStake; keep_tac|]. intros _.
  apply frames_bind; [apply _|apply frames_now, _|]. intros t. apply frames_bind; [apply _|apply frames_kept; unfold GetNodeScoreStakeAmount; keep_tac|].
  intros stake. apply frames_bind; [apply _|apply frames_kept; unfold UpdateMaxStaking; keep_tac|]. intros _.
  apply frames_bind; [apply _|apply frames_ask, _|]. intros _. apply tidy_Ensure.
Qed.

Lemma kept_refresh ix a : frames kept (refreshNodeIndexLocked ix a).
Proof. unfold refreshNodeIndexLocked, GetNodeInMemoryModel. keep_tac. Qed.

Lemma tidy_update {A} ix addresses (fn : M A) : frames tidy fn → frames tidy (ExecuteNodeStateUpdate ix addresses fn).
Proof.
  intros Hfn. unfold ExecuteNodeStateUpdate. apply frames_bind; [apply _|by apply frames_try|]. intros r.
  apply frames_bind; [apply _|apply frames_refreshAll, _|]. intros. apply frames_ret, _.
Qed.

Lemma BuildHeld_ok entries files : BuildHeldModelFiles entries = Ok files → Forall file_ok files ∧ NoDup (map mf_ModelFileHash files).
Proof. intros H. destruct (buildHeld_ok _ _ _ H) as (H1 & H2 & _). done. Qed.

Lemma tidy_NodeJoin ix input : frames tidy (NodeJoin ix input).
Proof.
  unfold NodeJoin. cbv zeta. apply frames_lift_bind; [apply _|]. intros files [Hf Hn]%BuildHeld_ok.
  apply frames_bind; [apply _|apply frames_lift, _|]. intros [[major minor] patch].
  apply frames_bind; [apply _|apply frames_kept; unfold ChainEvents.firstOrNone, GetNodeByAddress; keep_tac|]. intros found.
  destruct (negb _); [apply frames_fail, _|].
  apply frames_bind; [apply _|apply frames_kept; unfold AdjustNodeQosForJoin, resetNodeQosScorePool; keep_tac|]. intros node.
  apply frames_bind; [apply _|by apply frames_try, tidy_SetNodeStatusJoin|]. intros r.
  apply frames_bind; [apply _|apply frames_try, frames_kept, kept_refresh|]. intros. apply frames_ret, _.
Qed.

Lemma tidy_capabilitiesTx a c : Forall file_ok (nc_ModelFiles c) → NoDup (map mf_ModelFileHash (nc_ModelFiles c)) →
  frames tidy (capabilitiesTx a c).
Proof.
  intros Hf Hn. unfold capabilitiesTx. apply frames_bind; [apply _|apply frames_kept; unfold GetNodeByAddress; keep_tac|]. intros old.
  case_bool_decide; [apply frames_fail, _|]. cbv zeta. apply frames_bind; [apply _| |].
  { apply frames_kept. unfold DecrementNodeNameCountTx, IncrementNodeNameCountTx. keep_tac. }
  intros _. apply frames_bind; [apply _|apply frames_kept; keep_tac|]. intros _.
  apply frames_bind; [apply _|by apply tidy_replace|]. intros _. apply frames_kept. keep_tac.
Qed.

Lemma tidy_SyncNodeCapabilities ix a c : Forall file_ok (nc_ModelFiles c) → NoDup (map mf_ModelFileHash (nc_ModelFiles c)) →
  frames tidy (SyncNodeCapabilities ix a c).
Proof.
  intros Hf Hn. unfold SyncNodeCapabilities. cbv zeta. apply frames_bind; [apply _| |].
  { apply tidy_update, frames_transaction; [apply _|]. by apply tidy_capabilitiesTx. }
  intros [[[old node]|e] ix']; [|apply frames_ret, _]. apply frames_bind; [apply _| |intros; apply frames_ret, _].
  apply frames_try. apply frames_bind; [apply _|apply frames_kept; unfold ApplyNodeNameCountDeltaToCache; keep_tac|]. intros _.
  apply frames_bind; [apply _|apply frames_kept; keep_tac|]. intros _.
  apply frames_bind; [apply _|apply frames_kept; unfold GetNodeByAddress; keep_tac|]. intros. apply tidy_Ensure.
Qed.

Lemma tidy_HandleNodeCapabilities ix a gpu vram version files : frames tidy (HandleNodeCapabilities ix a gpu vram version files).
Proof.
  unfold HandleNodeCapabilities. destruct files as [entries|]; [|apply frames_fail, _].
  apply frames_lift_bind; [apply _|]. intros fs [Hf Hn]%BuildHeld_ok. apply frames_bind; [apply _|apply frames_lift, _|].
  intros [[major minor] patch]. by apply tidy_SyncNodeCapabilities.
Qed.

Lemma tidy_UpdateNodeVersion ix a version : frames tidy (UpdateNodeVersion ix a version).
Proof.
  unfold UpdateNodeVersion. apply frames_bind; [apply _|apply frames_lift, _|]. intros [[major minor] patch].
  apply frames_bind; [apply _|apply tidy_update, frames_kept; keep_tac|]. intros [[b|e] ix']; apply frames_ret, _.
Qed.

(** The whitelist and its sets are not touched. *)
Definition listed (w w' : World) : Prop :=
  (c_model_whitelist (w_cache w'), db_model_whitelist (w_db w')) = (c_model_whitelist (w_cache w), db_model_whitelist (w_db w)).
#[local] Instance listed_rel : WorldRel listed.
Proof. split; unfold listed; [done|congruence|done|]. intros w w1 s d [= Hc _] _. simpl. by rewrite Hc. Qed.

Lemma tidy_AddNodeModelFile ix a file : file_ok file → frames tidy (AddNodeModelFile ix a file).
Proof.
  intros Hf w. assert (Hl : frames listed (AddNodeModelFile ix a file)).
  { unfold AddNodeModelFile, modelFileRejectedByWhitelist. apply frames_bind; [apply _| |].
    - destruct (negb _); [apply frames_ret, _|]. apply frames_bind; [apply _|apply frames_fileWhitelisted, _|intros; apply frames_ret, _].
    - intros [|]; [apply frames_ret, _|]. apply frames_bind; [apply _|apply frames_lift, _|]. intros h.
      unfold ExecuteNodeStateUpdate. apply frames_bind; [apply _| |intros; apply frames_bind; [apply _|apply frames_refreshAll, _|intros; apply frames_ret, _]].
      apply frames_try. unfold reportingNode, UpsertModelFiles, GetNodeModel, CreateNodeModels. keep_tac. }
  specialize (Hl w). unfold wp, listed in Hl. injection Hl as Hc Ht. unfold wp. split; [|done|done|].
  - intros Hd. by apply (inventory_AddNodeModelFile ix a file w).
  - intros sets He Hcache Hd Hen. by apply (wp_Add_enforced sets ix a file w).
Qed.

Lemma tidy_SetMemory ix a report :
  match report with Some r => is_hash (mr_CacheHash r) ∧ Forall file_ok (mr_Files r) | None => True end →
  frames tidy (SetNodeInMemoryModel ix a report).
Proof.
  intros Hr w. assert (Hl : frames listed (SetNodeInMemoryModel ix a report)).
  { unfold SetNodeInMemoryModel. apply frames_bind; [apply _| |].
    - destruct report as [r|]; [|apply frames_ret, _]. unfold assertWhitelistedModelFiles. destruct (negb _); [apply frames_ret, _|].
      apply frames_for_each; [apply _|]. intros f. apply frames_bind; [apply _|apply frames_fileWhitelisted, _|intros; apply frames_guard, _].
    - intros _. unfold ExecuteNodeStateUpdate. apply frames_bind; [apply _| |intros; apply frames_bind; [apply _|apply frames_refreshAll, _|intros; apply frames_ret, _]].
      apply frames_try. unfold reportingNode, UpsertModelFiles, ClearNodeInMemoryModel, SaveNodeInMemoryModel. keep_tac. }
  specialize (Hl w). unfold wp, listed in Hl. injection Hl as Hc Ht. unfold wp. split; [|done|done|].
  - intros Hd. by apply (inventory_SetNodeInMemoryModel ix a report w).
  - intros sets He Hcache Hd Hen. apply (wp_SetMemory_enforced sets ix a report w); [done|done|done|]. destruct report; [apply Hr|done].
Qed.

Lemma tidy_AddModelID ix a entry : frames tidy (AddModelID ix a entry).
Proof.
  unfold AddModelID. apply frames_bind; [apply _|apply frames_kept; unfold GetNodeByAddress; keep_tac|]. intros node.
  case_bool_decide; [apply frames_fail, _|]. apply frames_lift_bind; [apply _|]. intros [|file files] [Hf _]%BuildHeld_ok; [apply frames_fail, _|].
  apply Forall_cons in Hf as [Hf _]. by apply tidy_AddNodeModelFile.
Qed.

Lemma report_ok m r : buildInMemoryModelReport m = Ok r → is_hash (mr_CacheHash r) ∧ Forall file_ok (mr_Files r).
Proof.
  unfold buildInMemoryModelReport, Hash32FromBytes. destruct (unhex_bytes _) as [bs|]; [|done].
  destruct (Nat.eqb_spec (length bs) 32) as [Hl|]; [|done]. destruct (JsonDecode.Decode _); [|done]. destruct (JsonDecode.CanonicalJSON _); [|done].
  destruct (negb _); [done|]. case_bool_decide; [done|]. destruct (BuildHeldModelFiles _) as [fs|] eqn:Hb; [|done].
  intros [= <-]. split; [done|]. by apply BuildHeld_ok in Hb as [? _].
Qed.

Lemma tidy_UpdateMemory ix a model : frames tidy (UpdateNodeInMemoryModel ix a model).
Proof.
  unfold UpdateNodeInMemoryModel. apply frames_lift_bind; [apply _|]. intros report Hr. apply tidy_SetMemory.
  destruct model as [m|]; [|by injection Hr as <-]. destruct (buildInMemoryModelReport m) as [r|] eqn:Hm; [|done].
  injection Hr as <-. by apply report_ok in Hm.
Qed.

Lemma frames_attempts P `{!WorldRel P} attempt inMemory k :
  (∀ n, frames P (attempt n)) → (∀ n, frames P (nodeSyncStatus n)) → ∀ last node, frames P (attempts k last node attempt inMemory).
Proof.
  intros Ha Hs. induction k as [|k IH]; intros last node; cbn [attempts]; [by apply frames_fail|].
  apply frames_bind; [done|apply frames_try, Ha|]. intros [u|e]; [by apply frames_ret|].
  case_bool_decide; [|by apply frames_fail]. apply frames_bind; [done|apply Hs|]. intros. apply IH.
Qed.

Lemma tidy_clearNodeModelState a : frames tidy (clearNodeModelState a).
Proof.
  unfold clearNodeModelState. cbv zeta. apply frames_bind; [apply _|apply tidy_fewer_nodes|]. intros _.
  apply frames_bind; [apply _|apply tidy_fewer_memory|]. intros _. apply tidy_fewer_selections.
Qed.

Lemma tidy_quitTx node slashed : frames tidy (setNodeStatusQuitTx node slashed).
Proof.
  unfold setNodeStatusQuitTx. cbv zeta. apply frames_bind; [apply _|apply tidy_clearNodeModelState|]. intros _.
  apply frames_kept. unfold nodeUpdateStatus, DecrementNodeNameCountTx, QueueUnstake, QueueSlashStaking, queueTransaction, emitEvent, SlashNodeVestingsTx.
  keep_tac.
Qed.

Lemma tidy_NodeQuit a : frames tidy (NodeQuit a).
Proof.
  unfold NodeQuit. apply frames_bind; [apply _|apply frames_kept; unfold GetNodeByAddress; keep_tac|]. intros node.
  apply frames_bind; [apply _|apply frames_ask, _|]. intros info. destruct (_ =? 1); [apply frames_fail, _|].
  apply frames_attempts; [apply _| |intros; apply frames_kept; unfold nodeSyncStatus; keep_tac].
  assert (Hq : ∀ n, frames tidy (_ ← SetNodeStatusQuit n false; mret tt)).
  { intros n. apply frames_bind; [apply _| |intros; apply frames_ret, _]. unfold SetNodeStatusQuit.
    apply frames_bind; [apply _|apply frames_transaction; [apply _|apply tidy_quitTx]|]. intros [[n' was] id].
    apply frames_bind; [apply _|apply frames_kept; unfold applyNodeQuitPostCommit, UpdateMaxStaking, ApplyNodeNameCountDeltaToCache; keep_tac|]. intros _.
    apply frames_kept. keep_tac. }
  intros n. destruct (n_Status n); try apply Hq; apply frames_kept; unfold nodeUpdateStatus; keep_tac.
Qed.

(** ** Sequences *)

Inductive request :=
| RJoin (input : NodeJoinInput)
| RCapabilities (address gpuName : string) (gpuVram : Z) (version : string) (files : option (list ModelFileEntry))
| RVersion (address version : string)
| RAddFile (address : string) (entry : ModelFileEntry)
| RMemory (address : string) (model : option InMemoryModel)
| RQuit (address : string)
| RRound
| RRefresh
| RAddName (name : string)
| RDeleteName (name : string).

(** The service function of a request; [NodeQuit] runs under the lock of its node. *)
Definition serve (ix : index) (r : request) : M (result unit * index) :=
  match r with
  | RJoin input => NodeJoin ix input
  | RCapabilities address gpuName gpuVram version files => HandleNodeCapabilities ix address gpuName gpuVram version files
  | RVersion address version => UpdateNodeVersion ix address version
  | RAddFile address entry => AddModelID ix address entry
  | RMemory address model => UpdateNodeInMemoryModel ix address model
  | RQuit address => ExecuteNodeStateUpdate ix [address] (NodeQuit address)
  | RRound => runModelDistributionRound;; mret (Ok tt, ix)
  | RRefresh => RefreshModelWhitelistCache ix
  | RAddName name => AddModelWhitelistName ix name
  | RDeleteName name => DeleteModelWhitelistName ix name
  end.

Definition isListChange (r : request) : bool :=
  match r with RRefresh | RAddName _ | RDeleteName _ => true | _ => false end.

(** One request; a failed one leaves the index. *)
Definition after (r : request) (s : World * index) : World * index :=
  match serve (snd s) r (fst s) with
  | (Ok (_, ix), w) => (w, ix)
  | (Err _, w) => (w, snd s)
  end.
Definition runAll (rs : list request) (s : World * index) : World * index := foldl (λ s r, after r s) s rs.

Lemma tidy_serve_request ix r : isListChange r = false → frames tidy (serve ix r).
Proof.
  destruct r; simpl; intros Hr; try done.
  - apply tidy_NodeJoin.
  - apply tidy_HandleNodeCapabilities.
  - apply tidy_UpdateNodeVersion.
  - apply tidy_AddModelID.
  - apply tidy_UpdateMemory.
  - apply tidy_update, tidy_NodeQuit.
  - apply frames_bind; [apply _|apply tidy_round|]. intros. apply frames_ret, _.
Qed.

Lemma wp_Refresh_inventory ix w : inventory (w_db w) → wp (RefreshModelWhitelistCache ix) (λ _ w', inventory (w_db w')) w.
Proof.
  intros Hd. destruct modelWhitelistEnforced eqn:He; [by apply wp_Refresh|].
  unfold RefreshModelWhitelistCache, loadModelWhitelistCacheLocked, afterModelWhitelistCacheUpdated. rewrite He. cbn [negb].
  wp_step. wp_step. wp_step; [done|]. wp_step. wp_step. destruct (splitEntries _); [|done]. wp_step. done.
Qed.

Lemma serve_inventory ix r w : inventory (w_db w) → wp (serve ix r) (λ _ w', inventory (w_db w')) w.
Proof.
  intros Hd. destruct (isListChange r) eqn:Hl.
  2: { eapply wp_mono; [by apply tidy_serve_request|]. intros x w' Ht. by apply (td_inventory _ _ Ht). }
  destruct r; try done; cbn [serve].
  - by apply wp_Refresh_inventory.
  - unfold AddModelWhitelistName. wp_step. wp_step. destruct (NormalizeModelWhitelistName name) as [n|]; [|done].
    wp_step. wp_step; [done|]. case_bool_decide; cbn [negb]; [|by apply (inventory_stock (w_db w))].
    apply wp_Refresh_inventory. by apply (inventory_stock (w_db w)).
  - unfold DeleteModelWhitelistName. wp_step. wp_step. destruct (NormalizeModelWhitelistName name) as [n|]; [|done].
    wp_step. wp_step; [done|]. case_bool_decide; cbn [negb]; [|by apply (inventory_stock (w_db w))].
    apply wp_Refresh_inventory. by apply (inventory_stock (w_db w)).
Qed.

Lemma after_inventory r s : inventory (w_db (fst s)) → inventory (w_db (fst (after r s))).
Proof.
  intros Hd. unfold after. pose proof (serve_inventory (snd s) r (fst s) Hd) as H. unfold wp in H.
  by destruct (serve (snd s) r (fst s)) as [[[x ix]|e] w].
Qed.

(** C19 (type): the tables of the inventory have the shape the code relies on, after any sequence of
    joins, reports, departures, rounds of the distribution and changes of the whitelist, with
    any inputs and whatever access fails: files of the catalog are named by the SHA-256 of
    their canonical description, once each; nodes hold files of the catalog, once each; the
    model in memory of a node is unique and lists files of the catalog; the downloads a node
    was asked for are named by the files they consist of, are active until they expire, and
    at most one is active for a node and a set; and every column of hashes can be decoded, so
    the index of the nodes can always be rebuilt. *)
Theorem inventory_typed (rs : list request) (w : World) (ix : index) :
  inventory (w_db w) → inventory (w_db (fst (runAll rs (w, ix)))) ∧ inventory_ok (w_db (fst (runAll rs (w, ix)))).
Proof.
  intros Hd. assert (H : inventory (w_db (fst (runAll rs (w, ix))))); [|split; [done|by apply inventory_columns]].
  unfold runAll. revert w ix Hd. induction rs as [|r rs IH]; intros w ix Hd; simpl; [done|].
  pose proof (after_inventory r (w, ix) Hd) as H. destruct (after r (w, ix)) as [w' ix']. by apply IH.
Qed.

(** ** Enforcement *)

(** A request did what was asked. *)
Definition succeeded (r : request) (s : World * index) : Prop := ∃ ix', fst (serve (snd s) r (fst s)) = Ok (Ok tt, ix').

(** The changes of the whitelist in a sequence succeed. *)
Fixpoint changes_succeed (rs : list request) (s : World * index) : Prop :=
  match rs with
  | [] => True
  | r :: rs' => (isListChange r = true → succeeded r s) ∧ changes_succeed rs' (after r s)
  end.

Lemma serve_enforced ix r w : modelWhitelistEnforced = true → inventory (w_db w) →
  (if isListChange r then ∃ ix', fst (serve ix r w) = Ok (Ok tt, ix') else whitelist_holds w) →
  wp (serve ix r) (λ _ w', whitelist_holds w') w.
Proof.
  intros He Hd Hw. destruct (isListChange r) eqn:Hl.
  - destruct Hw as [ix' Hr]. destruct r; try done; cbn [serve] in *; unfold wp.
    + by eapply (wp_Refresh ix w).
    + by eapply (wp_AddModelWhitelistName ix name w).
    + by eapply (wp_DeleteModelWhitelistName ix name w).
  - eapply wp_mono; [by apply tidy_serve_request|]. intros x w' [H1 H2 H3 H4]. destruct Hw as (sets & Hc & Ht & Hen).
    exists sets. split; [by rewrite H2|]. split; [by rewrite H3|]. by apply H4.
Qed.

(** C18 (safety): the whitelist is enforced.  After any sequence of joins, reports, departures, rounds and
    changes of the whitelist, whatever the inputs and whatever access fails, as long as the
    changes of the whitelist themselves succeed: the sets in memory are those of the table,
    and no node holds on disk or in memory a file, and no loaded model is listed, whose
    repository they forbid. *)
Theorem whitelist_enforced (rs : list request) (w : World) (ix : index) :
  modelWhitelistEnforced = true → inventory (w_db w) → whitelist_holds w → changes_succeed rs (w, ix) →
  whitelist_holds (fst (runAll rs (w, ix))).
Proof.
  intros He Hd Hw. unfold runAll. revert w ix Hd Hw. induction rs as [|r rs IH]; intros w ix Hd Hw; [done|]. simpl. intros [Hr Hrs].
  pose proof (after_inventory r (w, ix) Hd) as Hd'.
  assert (Hw' : whitelist_holds (fst (after r (w, ix)))).
  { assert (H : wp (serve ix r) (λ _ w', whitelist_holds w') w).
    { apply serve_enforced; [done|done|]. destruct (isListChange r); [by apply Hr|done]. }
    unfold wp in H. unfold after. simpl. by destruct (serve ix r w) as [[[x ix']|e] w']. }
  destruct (after r (w, ix)) as [w' ix']. by apply IH.
Qed.

End runs.

(** ** Witnesses *)

Definition listing_env : Env := DistributionChoice.sampling_env (demo_config <| Task_ModelWhitelistEnabled := true |>).
Definition demo_files (name : string) : ModelFileEntry := mkModelFileEntry "huggingface" name "r1" "" None.
Definition demo_join : NodeJoinInput := mkJoinInput "base" "0xn" "RTX 4090" 24 "2.5.0" [demo_files "Org/Allowed"; demo_files "Org/Other"] 400.
Definition demo_caches : World :=
  mkWorld empty_db (empty_caches <| c_delegations := Delegations.newDelegationCaches ["base"] |> <| c_model_whitelist := Some (∅, ∅) |>) 0 0.
(** A node joins with two files, of which one is allowed; later nothing is. *)
Definition demo_requests : list request := [RAddName "org/allowed"; RJoin demo_join; RRound].

Lemma empty_inventory : inventory empty_db.
Proof. split; constructor. Qed.

Lemma demo_whitelist_holds : whitelist_holds (E:=listing_env) demo_caches.
Proof. exists (∅, ∅). split; [reflexivity|]. split; [reflexivity|]. split; constructor. Qed.

Lemma inventory_typed_witness :
  inventory (w_db (fst (runAll (E:=listing_env) demo_requests (demo_caches, ∅)))) ∧
  length (heldBy (w_db (fst (runAll (E:=listing_env) demo_requests (demo_caches, ∅)))) "0xn") = 1%nat.
Proof.
  split; [|vm_compute; reflexivity].
  apply (inventory_typed (E:=listing_env) demo_requests demo_caches ∅). exact empty_inventory.
Defined.

Lemma whitelist_enforced_witness :
  whitelist_holds (E:=listing_env) (fst (runAll (E:=listing_env) (demo_requests ++ [RDeleteName "org/allowed"]) (demo_caches, ∅))) ∧
  heldBy (w_db (fst (runAll (E:=listing_env) (demo_requests ++ [RDeleteName "org/allowed"]) (demo_caches, ∅)))) "0xn" = [].
Proof.
  split; [|vm_compute; reflexivity].
  apply (whitelist_enforced (E:=listing_env)); [reflexivity|exact empty_inventory|exact demo_whitelist_holds|].
  repeat split; try discriminate; intros _; eexists; vm_compute; reflexivity.
Defined.
End InventoryRuns.
